(* ===== verification/_CoqProject ===== *)
-Q . S2P
Prelude.v
Iomem.v
Cpu.v
Pmp.v
Csr.v
Trap.v
Machine.v
Mmu.v
Alu.v
Softfp.v
Insn.v
Fp.v
Vector.v
Interp.v
SafeInsn.v
SafeFp.v
SafeVec.v
Safety.v
Run.v
Decode.v
Encode.v
Compressed.v
Platform.v
Devices.v
Main.v
Bootrom.v
Rounding.v
FpArith.v
FpDiv.v
FpFma.v
FpCmp.v
FpConv.v
FpCvt.v
FpExec.v
VecArith.v
Cosim.v
Virtio.v
VirtioDev.v
Virtqueue.v
UsedRing.v
VirtioOk.v
VirtioBus.v
BlockFile.v
Scatter.v
BlockReq.v
VirtioDemo.v
Json.v
JsonParse.v
JsonPrint.v
Config.v
ConfigFile.v
Fdt.v
FdtTree.v
Elf.v
Loader.v
BootLayout.v
BootRun.v
Pci.v
PciBars.v
P9.v
FsDisk.v
P9Files.v
DiskFiles.v
P9Req.v
P9Demo.v
