(* ===== verification/Prelude.v ===== *)
(** * A verification of Dromajo, a RISC-V reference model

    Dromajo simulates 64-bit RISC-V machines: harts with their CSRs, PMP, page
    tables and TLBs, a physical memory map with RAM and device ranges, a CLINT, a
    PLIC and UARTs, and the loop that gives the harts slices of cycles.  This
    library translates that code into Rocq functions, definition by definition,
    and proves what makes it correct.  C++ integers are [Z] with the truncations
    of the source written out ([trunc], [sgn]); structures are records with the
    source's member names; code that may leave early (faults, [goto], failed
    assertions) returns a sum; loops that are not structural take fuel.

    ** Parts and files

    - [Prelude] (this file): machine integers, bit notations, record update, the
      width automation ([width]) and lemmas on bits and lists.
    - [Iomem]: [src/iomem.cpp], the physical memory map, registration and lookup
      of ranges, dirty bits.
    - [Cpu]: [RISCVCPUState] of [include/riscv_cpu.h], reset, TLB flushes, and
      [cpu_ok], the well-formedness of a hart (widths, array lengths, [x0]).
    - [Pmp]: physical memory protection of [src/riscv_cpu.cpp].
    - [Csr]: [csr_read] and [csr_write], with the platform hooks as parameters.
    - [Trap]: exceptions, interrupts, delegation, xRET, interrupt lines.
    - [Machine]: [RISCVMachine] as the hart code sees it, the interface [Devices]
      of device models, the state and exception monad of the hart code and its
      program logic ([wp], [safe]).
    - [Mmu]: triggers, physical accesses, the Sv39/Sv48 walk, the three TLBs,
      loads, stores and fetches.
    - [Alu]: division, high and carry-less multiplication, bit counting of
      [include/dromajo_template.h].
    - [Softfp]: the soft-float library of [include/softfp_template.h] and
      [include/softfp_template_icvt.h], for its three formats.
    - [Insn]: decoding, registers and the memory accesses of instructions.
    - [Fp]: the F and D instructions of [include/dromajo_fp_template.h] and the fused
      multiply-adds of [include/dromajo_template.h].
    - [Vector]: the vector instructions of [include/vector_template.h] and
      [src/riscv_cpu.cpp], with the register file as an array of bytes.
    - [Interp]: the rest of [include/dromajo_template.h]: every
      RV64IMAC_Zba_Zbb_Zbc_Zbs, CSR and privileged instruction, loads and stores,
      fetch, the loop [riscv_cpu_interp64] with its exits and counters.
    - [SafeInsn], [SafeFp], [SafeVec], [Safety], [Run]: what holds of every run of the
      interpreter.
    - [Decode], [Encode], [Compressed]: the instruction formats, and compressed
      instructions as short forms of base instructions.
    - [Platform], [Devices]: [clint_*], [plic_*] and [uart_*] of
      [src/riscv_machine.cpp] and [src/dw_apb_uart.cpp], as an instance of
      [Devices], and what they promise.
    - [Main]: [virt_machine_run], [iterate_core] and the main loop.
    - [Bootrom]: the snapshot boot ROM of [src/riscv_cpu.cpp] and its encoders.
    - [Rounding]: what correct rounding means, over the real numbers, and that the
      packing routine of the library does it; [FpArith], [FpDiv], [FpFma], [FpCmp],
      [FpConv], [FpCvt]: the operations of the library; [FpExec]: the instructions.
    - [VecArith]: the vector additions.
    - [Cosim]: [src/dromajo_cosim.cpp], the lock step with a design under test.
    - [Virtio]: the transport of [src/virtio.cpp] (registers, descriptor chains, used
      ring, notification) over the interface [Bus]; [VirtioDev]: the block, network,
      console and input devices, and the disk images of [src/dromajo_main.cpp];
      [VirtioBus]: the machine as a [Bus]; [Virtqueue], [Scatter]: what reads and
      writes of descriptor chains compute; [UsedRing]: the used ring and the
      notification loop; [VirtioOk]: the register invariant; [BlockFile], [BlockReq]:
      snapshot disks and read requests; [VirtioDemo]: concrete instances.
    - [Json]: the parser of [src/json.cpp]; [JsonParse], [JsonPrint]: its termination
      and its round trip with a printer; [Config]: the configuration files and machine
      parameters of [src/machine.cpp]; [ConfigFile]: what they describe.
    - [Fdt]: the device tree builder of [src/riscv_machine.cpp]; [FdtTree]: a reader
      of the format, and what it finds; [Elf]: [src/elf64.cpp]; [Loader]: images, the
      generated boot ROM, [copy_kernel] and [virt_machine_init]; [BootLayout]: what the
      guest finds in memory; [BootRun]: the boot code run by the interpreter.
    - [Pci]: the bus and host bridge of [src/pci.cpp] and the virtio devices on it;
      [PciBars]: where the devices are mapped.
    - [P9]: the 9p device of [src/virtio.cpp], over the interface [FSDevice] of
      [include/fs.h]; [FsDisk]: the host directories of [src/fs_disk.cpp], an instance of
      it over the system calls of the class [Host]; [P9Files], [DiskFiles]: who owns
      files and descriptors; [P9Req]: parsing, and a read request; [P9Demo]: concrete
      instances.

    ** How the parts interact

    A hart touches the rest of the machine through [Mmu]: an access is translated,
    checked by [Pmp], and goes to host memory or to a callback of [Devices].  The
    theorems on the interpreter are proved against the class [SafeDevices]
    (device callbacks respect the harts); [Platform.platform_safe] discharges it
    for the real devices, and [Main] and [Cosim] compose both.  [SafeInsn.Geometry]
    fixes the number of harts and the one that runs.  [Fp] calls [Softfp], whose
    theorems hold for every format that satisfies the class [Rounding.FormatOk].
    The virtio transport sees guest memory and its interrupt line through [Bus] and
    [BusLaws], which [VirtioBus] discharges with the memory map and the PLIC; a
    device model is a record [Handlers], and keeps [HandlersOk].  A configuration text
    goes through [Json] to the parameters of [Config], from which [Loader] builds the
    memory map of [Iomem], the harts of [Cpu] and the contents of memory.  The PCI bus
    moves ranges of the same memory map through the class [PciHost].  The 9p device
    relies on the laws [FSLaws] of a file system, which [DiskFiles] discharges for host
    directories from the laws [HostLaws] of the system calls.

    ** What the theorems show

    - Harts stay well formed, whatever the guest does: [interp_preserves_hart_ok]
      for one run, [simulation_preserves_harts] for the simulator with its devices,
      [cosim_step_keeps_harts] for co-simulation; [interp_accounts] relates the
      returned number of instructions, the counter and the traps taken.
    - Memory: a load returns the last store ([store_load]), translation refines an
      inductive page walk and respects its permission bits, PMP refines the
      priority rule of the privileged manual, misaligned accesses fault.
    - Traps: the interrupt taken is the architectural one, trap entry and xRET are
      inverse on the enable stack, traps never lower the privilege.
    - CSRs: writes change only what they may, reads return what was written, locked
      PMP entries never change, reads check privilege.
    - Instructions: immediates are those of the manual, a compressed instruction
      does what its expansion does, arithmetic helpers compute the words of the
      exact products and quotients.
    - Floating point: addition, multiplication, division, square root and fused
      multiply-add return the exact result correctly rounded, with the flags of IEEE
      754, for all operands, rounding modes and formats; conversions and comparisons
      likewise; [fp_arith_executes] carries this to registers.
    - Vectors: [vadd] and the widening additions compute every element of a register
      group ([vadd_correct], [vwadd_correct]).
    - Co-simulation: a step that succeeds has committed the instruction of the design
      under test ([cosim_success_agrees]); what the model cannot reproduce follows the
      design ([failed_sc_follows_dut], [counter_read_follows_dut]).
    - Devices: the PLIC claim protocol, its interrupt lines, CLINT registers over
      the bus, the UART's interrupt line and its data path.
    - Virtio: register writes keep a device well formed ([virtio_writes_preserve_ok]);
      chain sizes are the sums of the descriptor lengths, consuming a descriptor
      appends to the used ring; a notification transmits every queued packet
      ([net_notify_transmits]); a disk read puts the sectors into the guest's buffers
      ([block_read_request_served]), and a snapshot disk is an array of sectors.
    - 9p: a device that serves a directory never uses a freed file and owns every file
      and descriptor ([p9_files_owned]); it parses what the client marshals
      ([p9_parse_print]) and answers reads in the guest's buffers ([p9_read_served]).
    - PCI: devices are mapped where their base address registers say, whatever the
      guest writes ([pci_bars_follow_config]).
    - The main loop ends within its instruction budget (one hart); the snapshot
      boot ROM fits its ROM and its code loads the values it stores.
    - Configuration: parsing terminates on every text ([json_parse_terminates]) and
      inverts printing ([json_parse_print]); a configuration file gives the parameters
      it describes ([config_file_describes]) and never overruns the device tables
      ([config_in_bounds]).
    - Start: the device tree read back is that of the machine
      ([fdt_describes_machine]), firmware, kernel, initial disk, boot code and device
      tree are where the guest looks for them ([machine_boot_layout]), and every hart
      runs the boot code and arrives at the firmware ([machine_boots]).
    - Defects of the code, as lemmas: PMP bypassed through the TLB, misaligned
      superpages accepted, trigger actions, empty TOR regions, the portable [mulh],
      the budget wrap-around, the PLIC context numbering, the carry of [vwaddu],
      cyclic descriptor chains, the 32-bit range check of snapshot writes, nested
      errors of the JSON parser, the device tree that overflows the boot ROM.

    ** Bounds and fuel

    The interpreter loop of [n] cycles gets [n + 1] iterations, which is what it
    makes at most ([interp_accounts] shows it never runs out); page walks recurse
    on the levels; [main_loop] takes fuel, and [budget_terminates] says how much is
    enough; the square root gets the fuel [sqrt_sf_correct] shows to be enough; the
    loop of a co-simulation step takes fuel, since a program that traps for ever
    never commits an instruction.  Walks of descriptor chains take fuel, since the
    guest can build a cycle; the theorems ask for one unit per descriptor.  The JSON
    parser gets two units per character ([parse_fuel]), which always is enough
    ([json_parse_terminates]); the loop over a hex image one per character, of which
    every line takes one or more.  Physical host addresses are 64-bit integers, and
    RAM is a finite map of bytes.

    ** Not modelled

    STF tracing, SIMPOINT, LIVECACHE, GOLDMEM and MASK_AGNOSTIC_FILL builds are off.
    Host I/O (sockets, the console itself, what system calls do), reading and writing
    snapshot files, the command line, logging and vendored libraries are left out. *)

From stdpp Require Export base numbers option list gmap.
From Stdlib Require Export Lia.

Global Open Scope Z_scope.

(** ** Machine integers

    A C++ unsigned integer of [w] bits is a [Z] in [[0, 2^w)]; the conversions
    below are the C++ integral conversions of the source. *)

Definition trunc (w x : Z) : Z := x mod 2 ^ w.

Definition sgn (w x : Z) : Z :=
  if trunc w x <? 2 ^ (w - 1) then trunc w x else trunc w x - 2 ^ w.

Abbreviation u8 := (trunc 8).
Abbreviation u16 := (trunc 16).
Abbreviation u32 := (trunc 32).
Abbreviation u64 := (trunc 64).
Abbreviation i8 := (sgn 8).
Abbreviation i16 := (sgn 16).
Abbreviation i32 := (sgn 32).
Abbreviation i64 := (sgn 64).

(** The bit operators of the source, in a scope of their own. *)
Declare Scope bits_scope.
Delimit Scope bits_scope with bits.
Notation "x .& y" := (Z.land x y) (at level 36, left associativity) : bits_scope.
Notation "x .&~ y" := (Z.ldiff x y) (at level 36, left associativity) : bits_scope.
Notation "x .^ y" := (Z.lxor x y) (at level 37, left associativity) : bits_scope.
Notation "x .| y" := (Z.lor x y) (at level 38, left associativity) : bits_scope.
Notation "x '<<' y" := (Z.shiftl x y) (at level 34, left associativity) : bits_scope.
Notation "x '>>' y" := (Z.shiftr x y) (at level 34, left associativity) : bits_scope.
Global Open Scope bits_scope.

(** The C++ truth value of an integer. *)
Definition nz (x : Z) : bool := negb (x =? 0).

(** [x & m] tested as a condition. *)
Definition has (x m : Z) : bool := nz (x .& m).

(** A C++ condition used as an integer. *)
Definition b2z (b : bool) : Z := if b then 1 else 0.

(** [a & ~m | v & m]: the masked update that the CSR code uses throughout. *)
Definition merge (a v m : Z) : Z := (a .&~ m) .| (v .& m).

(** In-width predicate. *)
Definition fits (w x : Z) : Prop := 0 <= x < 2 ^ w.

#[export] Instance fits_dec w x : Decision (fits w x).
Proof. unfold fits. apply _. Defined.

(** ** Record update *)

Class Setter {R F : Type} (proj : R -> F) := upd : (F -> F) -> R -> R.
Arguments upd {R F} proj {_} f r.

Notation "r <| f := v |>" := (upd f (fun _ => v) r)
  (at level 1, f at level 9, v at level 200,
   format "r  <| f  :=  v |>").
Notation "r <| f ::= g |>" := (upd f g r)
  (at level 1, f at level 9, g at level 200,
   format "r  <| f  ::=  g |>").

(** ** Truncation and sign extension *)

Create HintDb width.

Lemma pow2_pos w : 0 <= w -> 0 < 2 ^ w.
Proof. intros. apply Z.pow_pos_nonneg; lia. Qed.

Lemma trunc_fits w x : 0 <= w -> fits w (trunc w x).
Proof. intros. unfold fits, trunc. apply Z.mod_pos_bound, pow2_pos; lia. Qed.

Lemma trunc_small w x : fits w x -> trunc w x = x.
Proof. intros. apply Z.mod_small; auto. Qed.

Lemma trunc_idemp w x : 0 <= w -> trunc w (trunc w x) = trunc w x.
Proof. intros. apply trunc_small, trunc_fits; lia. Qed.

Lemma trunc_ones w x : 0 <= w -> trunc w x = x .& Z.ones w.
Proof. intros. unfold trunc. rewrite Z.land_ones by lia. done. Qed.

Lemma trunc_add_l w x y : 0 <= w -> trunc w (trunc w x + y) = trunc w (x + y).
Proof. intros. unfold trunc. apply Z.add_mod_idemp_l. pose proof (pow2_pos w); lia. Qed.

Lemma trunc_add_r w x y : 0 <= w -> trunc w (x + trunc w y) = trunc w (x + y).
Proof. intros. rewrite Z.add_comm, trunc_add_l, Z.add_comm; auto. Qed.

Lemma trunc_sub_l w x y : 0 <= w -> trunc w (trunc w x - y) = trunc w (x - y).
Proof. intros. unfold trunc. rewrite Zminus_mod_idemp_l. done. Qed.

Lemma trunc_sub_r w x y : 0 <= w -> trunc w (x - trunc w y) = trunc w (x - y).
Proof. intros. unfold trunc. rewrite Zminus_mod_idemp_r. done. Qed.

Lemma trunc_mul_l w x y : trunc w (trunc w x * y) = trunc w (x * y).
Proof. unfold trunc. apply Zmult_mod_idemp_l. Qed.

Lemma trunc_mul_r w x y : trunc w (x * trunc w y) = trunc w (x * y).
Proof. unfold trunc. apply Zmult_mod_idemp_r. Qed.

Lemma trunc_period w x k : 0 <= w -> trunc w (x + k * 2 ^ w) = trunc w x.
Proof. intros. unfold trunc. apply Z_mod_plus_full. Qed.

Lemma testbit_trunc w x i :
  0 <= w -> Z.testbit (trunc w x) i = (i <? w) && Z.testbit x i.
Proof.
  intros. rewrite trunc_ones, Z.land_spec, Z.testbit_ones by lia.
  destruct (Z.leb_spec 0 i); [apply andb_comm|].
  rewrite (Z.testbit_neg_r x) by lia. by destruct (i <? w).
Qed.

Lemma trunc_sgn w x : 0 <= w -> trunc w (sgn w x) = trunc w x.
Proof.
  intros. unfold sgn. destruct (_ <? _); [apply trunc_idemp; lia|].
  unfold trunc at 1. replace (trunc w x - 2 ^ w) with (trunc w x + (-1) * 2 ^ w) by lia.
  rewrite Z_mod_plus_full. apply trunc_idemp; lia.
Qed.

Lemma sgn_trunc w x : 0 <= w -> sgn w (trunc w x) = sgn w x.
Proof. intros. unfold sgn. by rewrite trunc_idemp. Qed.

Lemma sgn_range w x : 0 < w -> - 2 ^ (w - 1) <= sgn w x < 2 ^ (w - 1).
Proof.
  intros. unfold sgn. pose proof (trunc_fits w x) as []; [lia|].
  replace (2 ^ w) with (2 * 2 ^ (w - 1)) in * by (rewrite <- Z.pow_succ_r; [f_equal|]; lia).
  destruct (Z.ltb_spec (trunc w x) (2 ^ (w - 1))); lia.
Qed.

Lemma sgn_id w x : 0 < w -> - 2 ^ (w - 1) <= x < 2 ^ (w - 1) -> sgn w x = x.
Proof.
  intros ? Hx. unfold sgn, trunc.
  assert (2 ^ w = 2 * 2 ^ (w - 1)) as Hw by (rewrite <- Z.pow_succ_r; [f_equal|]; lia).
  destruct (Z.leb_spec 0 x).
  - rewrite Z.mod_small by lia. destruct (Z.ltb_spec x (2 ^ (w - 1))); lia.
  - replace (x mod 2 ^ w) with (x + 2 ^ w).
    + destruct (Z.ltb_spec (x + 2 ^ w) (2 ^ (w - 1))); lia.
    + rewrite <- (Z.mod_small (x + 2 ^ w) (2 ^ w)) by lia.
      replace (x + 2 ^ w) with (x + 1 * 2 ^ w) by lia. apply Z_mod_plus_full.
Qed.

Lemma sgn_eq w x y : 0 <= w -> trunc w x = trunc w y -> sgn w x = sgn w y.
Proof. intros ? E. unfold sgn. by rewrite E. Qed.

(** ** Widths of the bit operators *)

Lemma fits_testbit w x :
  0 <= w -> fits w x <-> 0 <= x /\ forall i, w <= i -> Z.testbit x i = false.
Proof.
  intros Hw. unfold fits. split.
  - intros [H0 H1]. split; [done|]. intros i Hi.
    destruct (Z.eq_dec x 0) as [->|]; [apply Z.bits_0|].
    apply Z.bits_above_log2; [lia|]. apply Z.log2_lt_pow2 in H1; lia.
  - intros [H0 H1]. split; [done|].
    destruct (Z.eq_dec x 0) as [->|]; [apply pow2_pos; lia|].
    apply Z.log2_lt_pow2; [lia|]. destruct (Z.ltb_spec (Z.log2 x) w); [done|].
    assert (Z.testbit x (Z.log2 x) = true) by (apply Z.bit_log2; lia).
    rewrite H1 in *; [done|lia].
Qed.

(** The sign bit fills the upper bits. *)
Lemma testbit_top w t :
  0 < w -> fits w t -> Z.testbit t (w - 1) = negb (t <? 2 ^ (w - 1)).
Proof.
  intros Hw [H0 H1].
  replace (2 ^ w) with (2 * 2 ^ (w - 1)) in H1 by (rewrite <- Z.pow_succ_r; [f_equal|]; lia).
  rewrite Z.testbit_odd, Z.shiftr_div_pow2 by lia.
  destruct (Z.ltb_spec t (2 ^ (w - 1))); cbn.
  - by rewrite Z.div_small.
  - by replace (t / 2 ^ (w - 1)) with 1
      by (apply Z.div_unique with (t - 2 ^ (w - 1)); lia).
Qed.

Lemma testbit_sgn w x i :
  0 < w -> 0 <= i -> Z.testbit (sgn w x) i = Z.testbit x (Z.min i (w - 1)).
Proof.
  intros Hw Hi. pose proof (trunc_fits w x ltac:(lia)) as Ht.
  pose proof (testbit_top w _ Hw Ht) as Htop.
  assert (Z.testbit (trunc w x) (w - 1) = Z.testbit x (w - 1)) as Hx.
  { rewrite testbit_trunc by lia. by destruct (Z.ltb_spec (w - 1) w); [|lia]. }
  pose proof (sgn_range w x Hw) as Hr.
  destruct (Z.ltb_spec i w) as [Hiw|Hiw].
  - rewrite Z.min_l by lia. rewrite <- (Z.mod_pow2_bits_low (sgn w x) w i) by lia.
    fold (trunc w (sgn w x)). rewrite trunc_sgn, testbit_trunc by lia.
    by destruct (Z.ltb_spec i w); [|lia].
  - rewrite Z.min_r, <- Hx, Htop by lia. unfold sgn in *.
    destruct (Z.ltb_spec (trunc w x) (2 ^ (w - 1))); cbn [negb].
    + by apply fits_testbit in Ht as [_ ->]; [| |lia]; [|lia].
    + destruct (Z.eq_dec (trunc w x - 2 ^ w) (-1)) as [->|]; [by rewrite Z.bits_m1|].
      apply Z.bits_above_log2_neg; [unfold fits in Ht; lia|].
      apply Z.log2_lt_pow2; [unfold fits in Ht; lia|].
      apply Z.lt_le_trans with (2 ^ (w - 1)); [lia|]. apply Z.pow_le_mono_r; lia.
Qed.

Lemma fits_land_l w x y : 0 <= w -> fits w x -> fits w (x .& y).
Proof.
  intros Hw. rewrite !fits_testbit by lia. intros [H0 H1]. split.
  - apply Z.land_nonneg; auto.
  - intros. rewrite Z.land_spec, H1; auto.
Qed.

Lemma fits_land_r w x y : 0 <= w -> fits w y -> fits w (x .& y).
Proof. intros. rewrite Z.land_comm. by apply fits_land_l. Qed.

Lemma fits_lor w x y : 0 <= w -> fits w x -> fits w y -> fits w (x .| y).
Proof.
  intros Hw. rewrite !fits_testbit by lia. intros [H0 H1] [H2 H3]. split.
  - apply Z.lor_nonneg; auto.
  - intros. rewrite Z.lor_spec, H1, H3; auto.
Qed.

Lemma fits_lxor w x y : 0 <= w -> fits w x -> fits w y -> fits w (x .^ y).
Proof.
  intros Hw. rewrite !fits_testbit by lia. intros [H0 H1] [H2 H3]. split.
  - apply Z.lxor_nonneg; lia.
  - intros. rewrite Z.lxor_spec, H1, H3; auto.
Qed.

Lemma fits_ldiff w x y : 0 <= w -> fits w x -> fits w (x .&~ y).
Proof.
  intros Hw. rewrite !fits_testbit by lia. intros [H0 H1]. split.
  - apply Z.ldiff_nonneg; auto.
  - intros. rewrite Z.ldiff_spec, H1; auto.
Qed.

Lemma fits_shiftr w x n : 0 <= w -> 0 <= n -> fits w x -> fits w (x >> n).
Proof.
  intros Hw Hn. rewrite !fits_testbit by lia. intros [H0 H1]. split.
  - by apply Z.shiftr_nonneg.
  - intros. rewrite Z.shiftr_spec by lia. apply H1; lia.
Qed.

Lemma fits_shiftr_sub w n x : 0 <= n <= w -> fits w x -> fits (w - n) (x >> n).
Proof.
  intros Hn [H0 H1]. unfold fits. rewrite Z.shiftr_div_pow2 by lia.
  split; [apply Z.div_pos; [lia|apply pow2_pos; lia]|].
  apply Z.div_lt_upper_bound; [apply pow2_pos; lia|]. rewrite <- Z.pow_add_r by lia.
  by replace (n + (w - n)) with w by lia.
Qed.

Lemma fits_shiftl w x n : 0 <= n <= w -> fits (w - n) x -> fits w (x << n).
Proof.
  intros Hn. rewrite !fits_testbit by lia. intros [H0 H1]. split.
  - by apply Z.shiftl_nonneg.
  - intros. rewrite Z.shiftl_spec by lia. apply H1; lia.
Qed.

Lemma fits_mono w w' x : w <= w' -> fits w x -> fits w' x.
Proof.
  unfold fits. intros. split; [lia|].
  apply Z.lt_le_trans with (2 ^ w); [lia|]. apply Z.pow_le_mono_r; lia.
Qed.

Lemma fits_merge w a v m : 0 <= w -> fits w a -> fits w m -> fits w (merge a v m).
Proof. intros. apply fits_lor; [lia|by apply fits_ldiff|by apply fits_land_r]. Qed.

Lemma fits_b2z w b : 1 <= w -> fits w (b2z b).
Proof.
  intros. apply (fits_mono 1); [lia|]. unfold fits. destruct b; cbn; lia.
Qed.

#[export] Hint Resolve trunc_fits fits_lor fits_lxor fits_ldiff fits_merge fits_b2z : width.
#[export] Hint Extern 4 (fits _ (_ .& _)) => apply fits_land_l; [lia|] : width.
#[export] Hint Extern 5 (fits _ (_ .& _)) => apply fits_land_r; [lia|] : width.
#[export] Hint Extern 3 (fits _ (_ >> _)) => apply fits_shiftr; [lia|lia|] : width.
#[export] Hint Extern 1 (0 <= _) => lia : width.
#[export] Hint Extern 1 (1 <= _) => lia : width.
#[export] Hint Extern 2 (fits _ (Zpos _)) => unfold fits; lia : width.
#[export] Hint Extern 2 (fits _ 0) => unfold fits; lia : width.

Ltac width := eauto 12 with width.

(** ** Bitwise reasoning *)

(** Turns an equation between bit expressions into one about the [i]-th bits. *)
Ltac push_testbit :=
  repeat first
    [ rewrite Z.land_spec | rewrite Z.lor_spec | rewrite Z.lxor_spec
    | rewrite Z.ldiff_spec | rewrite Z.bits_0
    | rewrite testbit_trunc by lia
    | rewrite Z.shiftr_spec by lia | rewrite Z.shiftl_spec by lia
    | rewrite Z.testbit_ones_nonneg by lia ].

Ltac bits_ext i :=
  apply Z.bits_inj'; intros i ?; unfold merge; push_testbit.

(** Case analysis on every atomic boolean of the goal. *)
Ltac bool_cases :=
  repeat match goal with
         | |- context [Z.testbit ?a ?i] => destruct (Z.testbit a i) eqn:?
         | |- context [?a <? ?b] => destruct (Z.ltb_spec a b)
         | |- context [?a <=? ?b] => destruct (Z.leb_spec a b)
         | |- context [?a =? ?b] => destruct (Z.eqb_spec a b)
         end; cbn.

Ltac bitwise := let i := fresh "i" in bits_ext i; bool_cases; try done; try lia.

(** Two masks that share no bit: the mask facts are closed computations. *)
Lemma land_disjoint_bit m n i :
  m .& n = 0 -> Z.testbit m i = true -> Z.testbit n i = false.
Proof.
  intros E Hm. assert (Z.testbit (m .& n) i = false) as H by (rewrite E; apply Z.bits_0).
  rewrite Z.land_spec, Hm in H. done.
Qed.

Lemma land_sub_bit m n i :
  n .& m = n -> Z.testbit n i = true -> Z.testbit m i = true.
Proof.
  intros E Hn. rewrite <- E, Z.land_spec in Hn. by apply andb_true_iff in Hn as [].
Qed.

(** A masked update leaves the bits outside the mask ... *)
Lemma merge_keeps a v m n : m .& n = 0 -> merge a v m .& n = a .& n.
Proof.
  intros E. bits_ext i. destruct (Z.testbit m i) eqn:Em.
  - rewrite (land_disjoint_bit m n i); auto. by rewrite !andb_false_r.
  - by rewrite andb_false_r, orb_false_r, andb_true_r.
Qed.

(** ... and sets those inside it. *)
Lemma merge_sets a v m n : n .& m = n -> merge a v m .& n = v .& n.
Proof.
  intros E. bits_ext i. destruct (Z.testbit n i) eqn:En; [|by rewrite !andb_false_r].
  rewrite (land_sub_bit m n i) by auto. by rewrite andb_false_r, !andb_true_r.
Qed.

Lemma merge_same a m : merge a a m = a.
Proof. bitwise. Qed.

Lemma merge_full a v m : a .&~ m = 0 -> merge a v m = v .& m.
Proof. intros H. unfold merge. by rewrite H, Z.lor_0_l. Qed.

Lemma has_false x m : has x m = false <-> x .& m = 0.
Proof. unfold has, nz. destruct (Z.eqb_spec (x .& m) 0); cbn; split; congruence. Qed.

Lemma has_true x m : has x m = true <-> x .& m <> 0.
Proof. unfold has, nz. destruct (Z.eqb_spec (x .& m) 0); cbn; split; congruence. Qed.

Lemma has_eq x y m : x .& m = y .& m -> has x m = has y m.
Proof. unfold has. by intros ->. Qed.

(** A single-bit test. *)
Lemma has_bit x i : 0 <= i -> has x (1 << i) = Z.testbit x i.
Proof.
  intros Hi. unfold has, nz.
  destruct (Z.eqb_spec (x .& (1 << i)) 0) as [E|E]; cbn.
  - assert (Z.testbit (x .& (1 << i)) i = false) as H by (rewrite E; apply Z.bits_0).
    rewrite Z.land_spec, Z.shiftl_spec, Z.sub_diag in H by lia.
    by rewrite andb_true_r in H.
  - destruct (Z.testbit x i) eqn:Ex; [done|]. exfalso. apply E.
    bits_ext j. destruct (Z.eq_dec i j) as [<-|]; [by rewrite Ex|].
    replace (Z.testbit 1 (j - i)) with false; [by rewrite andb_false_r|].
    destruct (Z.leb_spec 0 (j - i)); [|by rewrite Z.testbit_neg_r by lia].
    symmetry. apply Z.bits_above_log2; cbn; lia.
Qed.

Lemma has_1 x : has x 1 = Z.testbit x 0.
Proof. exact (has_bit x 0 ltac:(lia)). Qed.

Lemma bit_test x i : 0 <= i -> nz ((x >> i) .& 1) = Z.testbit x i.
Proof.
  intros. fold (has (x >> i) 1). rewrite has_1, Z.shiftr_spec by lia. done.
Qed.

(** The [n]-bit field of [x] at position [p]. *)
Lemma field_range x p n : 0 <= n -> fits n ((x >> p) .& Z.ones n).
Proof. intros. rewrite <- trunc_ones by lia. by apply trunc_fits. Qed.

Lemma land_ones_small w x : 0 <= w -> fits w x -> x .& Z.ones w = x.
Proof. intros. rewrite <- trunc_ones by lia. by apply trunc_small. Qed.

(** A value below the shift does not meet the shifted one. *)
Lemma land_shiftl_low q m x : 0 <= m -> fits m x -> (q << m) .& x = 0.
Proof.
  intros Hm Hx. bits_ext i. destruct (Z.ltb_spec i m).
  - rewrite Z.testbit_neg_r by lia. done.
  - apply fits_testbit in Hx as [_ Hx]; [|lia]. rewrite Hx by lia. apply andb_false_r.
Qed.

Lemma fits_ones m n : 0 <= m <= n -> fits n (Z.ones m).
Proof.
  intros. apply (fits_mono m); [lia|]. unfold fits. rewrite Z.ones_equiv.
  pose proof (pow2_pos m). lia.
Qed.

Lemma fits_pow2 m n : 0 <= m < n -> fits n (1 << m).
Proof.
  intros. unfold fits. rewrite Z.shiftl_1_l. split; [apply Z.pow_nonneg; lia|].
  apply Z.pow_lt_mono_r; lia.
Qed.

Lemma shiftl_1_bit n i : 0 <= n -> Z.testbit (1 << n) i = (i =? n).
Proof.
  intros. rewrite Z.shiftl_1_l, Z.pow2_bits_eqb, Z.eqb_sym by lia. done.
Qed.

(** ** Lists *)

Lemma omap_eq {A B} (f g : A -> option B) (l : list A) :
  (forall x, f x = g x) -> omap f l = omap g l.
Proof. intros. apply list_omap_ext, Forall_Forall2_diag, Forall_true. auto. Qed.

(** ** Host memory

    Guest RAM lives in host memory: a finite map from host addresses to bytes,
    zero where nothing was written ([mallocz]).  The host is little endian. *)

Abbreviation hostmem := (gmap Z Z).

Definition byte_at (h : hostmem) (p : Z) : Z := u8 (default 0 (h !! p)).

Fixpoint load_le (h : hostmem) (p : Z) (n : nat) : Z :=
  match n with
  | O => 0
  | S n' => byte_at h p .| (load_le h (p + 1) n' << 8)
  end.

Fixpoint store_le (h : hostmem) (p : Z) (n : nat) (v : Z) : hostmem :=
  match n with
  | O => h
  | S n' => store_le (<[p := u8 v]> h) (p + 1) n' (v >> 8)
  end.

Lemma byte_at_store h p n v q :
  q < p \/ p + Z.of_nat n <= q -> byte_at (store_le h p n v) q = byte_at h q.
Proof.
  revert h p v. induction n as [|n IH]; intros h p v Hq; cbn [store_le]; [done|].
  rewrite IH by lia. unfold byte_at. rewrite lookup_insert_ne by lia. done.
Qed.

Lemma load_store_disjoint h p n v q k :
  q + Z.of_nat k <= p \/ p + Z.of_nat n <= q ->
  load_le (store_le h p n v) q k = load_le h q k.
Proof.
  revert q. induction k as [|k IH]; intros q Hq; cbn [load_le]; [done|].
  rewrite byte_at_store by lia. rewrite IH by lia. done.
Qed.

Lemma load_store_same h p n v :
  load_le (store_le h p n v) p n = trunc (8 * Z.of_nat n) v.
Proof.
  revert h p v. induction n as [|n IH]; intros h p v; cbn [load_le store_le].
  - unfold trunc. cbn. by rewrite Z.mod_1_r.
  - rewrite byte_at_store by lia. rewrite IH.
    unfold byte_at. rewrite lookup_insert_eq. cbn [default from_option id].
    rewrite trunc_idemp by lia.
    bits_ext i. destruct (Z.ltb_spec i 8).
    + rewrite (Z.testbit_neg_r _ (i - 8)) by lia. rewrite andb_false_r, orb_false_r.
      destruct (Z.ltb_spec i (8 * Z.of_nat (S n))); [done|lia].
    + rewrite Z.shiftr_spec by lia. replace (i - 8 + 8) with i by lia.
      destruct (Z.ltb_spec (i - 8) (8 * Z.of_nat n)), (Z.ltb_spec i (8 * Z.of_nat (S n)));
        done || lia.
Qed.

Lemma load_le_fits h p n : fits (8 * Z.of_nat n) (load_le h p n).
Proof.
  revert p. induction n as [|n IH]; intros p; cbn [load_le].
  - unfold fits. cbn. lia.
  - apply fits_lor; [lia|apply (fits_mono 8); [lia|unfold byte_at; width]|].
    apply fits_shiftl; [lia|]. replace (8 * Z.of_nat (S n) - 8) with (8 * Z.of_nat n) by lia.
    apply IH.
Qed.

(** A word and its lowest byte. *)
Lemma byte_split w : u8 w .| ((w >> 8) << 8) = w.
Proof.
  apply Z.bits_inj'. intros i Hi. rewrite Z.lor_spec, Z.shiftl_spec, testbit_trunc by lia.
  destruct (Z.ltb_spec i 8); [rewrite (Z.testbit_neg_r (w >> 8)), orb_false_r by lia; done|].
  rewrite Z.shiftr_spec by lia. cbn [andb orb]. f_equal. lia.
Qed.
