(* ===== verification/Iomem.v ===== *)
(** * The physical memory map ([src/iomem.cpp], [include/iomem.h])

    The map is a growing array of ranges, RAM or device.  RAM contents live in
    host memory at the range's [phys_mem] pointer; a device range carries the
    [opaque] handle its callbacks are registered with.  The dirty-bit double
    buffer of a RAM range and the remapping of a range are here too, against an
    abstract [flush_tlb_write_range] callback. *)

From S2P Require Import Prelude.

Definition DEVIO_SIZE8 : Z := 1 << 0.
Definition DEVIO_SIZE16 : Z := 1 << 1.
Definition DEVIO_SIZE32 : Z := 1 << 2.
Definition DEVIO_DISABLED : Z := 1 << 4.
Definition DEVRAM_FLAG_DIRTY_BITS : Z := 1 << 1.
Definition DEVRAM_FLAG_DISABLED : Z := 1 << 2.
Definition DEVRAM_PAGE_SIZE_LOG2 : Z := 12.
Definition DEVRAM_PAGE_SIZE : Z := 1 << DEVRAM_PAGE_SIZE_LOG2.
Definition PHYS_MEM_RANGE_MAX : nat := 32.

(** [dirty_bits] is [NULL] or [dirty_bits_tab[dirty_bits_index]]: a flag and the
    index stand for the pointer. *)
Record PhysMemoryRange := mkRange {
  pr_addr : Z;
  org_size : Z;
  pr_size : Z;
  is_ram : bool;
  devram_flags : Z;
  phys_mem : Z;
  dirty_bits : bool;
  dirty_bits_tab : list (list Z);
  dirty_bits_index : nat;
  opaque : Z;
  devio_flags : Z
}.

Abbreviation PhysMemoryMap := (list PhysMemoryRange).

#[export] Instance upd_pr_addr : Setter pr_addr := fun f r =>
  mkRange (f (pr_addr r)) (org_size r) (pr_size r) (is_ram r) (devram_flags r) (phys_mem r)
    (dirty_bits r) (dirty_bits_tab r) (dirty_bits_index r) (opaque r) (devio_flags r).
#[export] Instance upd_pr_size : Setter pr_size := fun f r =>
  mkRange (pr_addr r) (org_size r) (f (pr_size r)) (is_ram r) (devram_flags r) (phys_mem r)
    (dirty_bits r) (dirty_bits_tab r) (dirty_bits_index r) (opaque r) (devio_flags r).
#[export] Instance upd_dirty_bits_tab : Setter dirty_bits_tab := fun f r =>
  mkRange (pr_addr r) (org_size r) (pr_size r) (is_ram r) (devram_flags r) (phys_mem r)
    (dirty_bits r) (f (dirty_bits_tab r)) (dirty_bits_index r) (opaque r) (devio_flags r).
#[export] Instance upd_dirty_bits_index : Setter dirty_bits_index := fun f r =>
  mkRange (pr_addr r) (org_size r) (pr_size r) (is_ram r) (devram_flags r) (phys_mem r)
    (dirty_bits r) (dirty_bits_tab r) (f (dirty_bits_index r)) (opaque r) (devio_flags r).

(** ** Lookup *)

(** [paddr >= pr->addr && paddr < pr->addr + pr->size], the sum in 64 bits. *)
Definition range_has (pr : PhysMemoryRange) (paddr : Z) : bool :=
  (pr_addr pr <=? paddr) && (paddr <? u64 (pr_addr pr + pr_size pr)).

(** The loop [for (i = n - 1; i >= 0; --i)]; [i] counts the ranges left. *)
Fixpoint get_range_loop (m : PhysMemoryMap) (paddr : Z) (i : nat)
  : option (nat * PhysMemoryRange) :=
  match i with
  | O => None
  | S i' =>
      match m !! i' with
      | Some pr => if range_has pr paddr then Some (i', pr) else get_range_loop m paddr i'
      | None => get_range_loop m paddr i'
      end
  end.

(** The returned pointer is the index of the range, with its contents. *)
Definition get_phys_mem_range (m : PhysMemoryMap) (paddr : Z)
  : option (nat * PhysMemoryRange) :=
  get_range_loop m paddr (length m).

(** ** Registration *)

(** [None] is a failed [assert]. *)
Definition register_ram_entry (m : PhysMemoryMap) (a sz flags : Z)
  : option (PhysMemoryMap * PhysMemoryRange) :=
  if bool_decide (length m < PHYS_MEM_RANGE_MAX)%nat
     && ((sz .& (DEVRAM_PAGE_SIZE - 1)) =? 0) && nz sz
  then
    let pr := mkRange a sz (if has flags DEVRAM_FLAG_DISABLED then 0 else sz) true
                (flags .&~ DEVRAM_FLAG_DISABLED) 0 false [] 0%nat 0 0 in
    Some (m ++ [pr], pr)
  else None.

(** [host] is the address [mallocz] returns for the [sz] bytes of RAM. *)
Definition default_register_ram (m : PhysMemoryMap) (a sz flags host : Z)
  : option (PhysMemoryMap * PhysMemoryRange) :=
  match register_ram_entry m a sz flags with
  | None => None
  | Some (_, pr) =>
      let nb_pages := sz >> DEVRAM_PAGE_SIZE_LOG2 in
      let words := Z.to_nat ((nb_pages + 31) / 32) in
      let pr' :=
        mkRange (pr_addr pr) (org_size pr) (pr_size pr) (is_ram pr) (devram_flags pr) host
          (has flags DEVRAM_FLAG_DIRTY_BITS)
          (if has flags DEVRAM_FLAG_DIRTY_BITS
           then [replicate words 0; replicate words 0] else [])
          0%nat 0 0 in
      Some (m ++ [pr'], pr')
  end.

Definition cpu_register_device (m : PhysMemoryMap) (a sz opq flags : Z)
  : option (PhysMemoryMap * PhysMemoryRange) :=
  if bool_decide (length m < PHYS_MEM_RANGE_MAX)%nat && (sz <=? 0xffffffff)
  then
    let pr := mkRange a sz (if has flags DEVIO_DISABLED then 0 else sz) false
                0 0 false [] 0%nat opq flags in
    Some (m ++ [pr], pr)
  else None.

(** ** Dirty bits *)

Definition dirty_table (pr : PhysMemoryRange) : list Z :=
  default [] (dirty_bits_tab pr !! dirty_bits_index pr).

Definition set_dirty_table (pr : PhysMemoryRange) (t : list Z) : PhysMemoryRange :=
  pr <| dirty_bits_tab ::= <[dirty_bits_index pr := t]> |>.

Definition phys_mem_set_dirty_bit (pr : PhysMemoryRange) (offset : Z) : PhysMemoryRange :=
  if dirty_bits pr then
    let page_index := offset >> DEVRAM_PAGE_SIZE_LOG2 in
    let mask := u32 (1 << (page_index .& 0x1f)) in
    let t := dirty_table pr in
    let w := Z.to_nat (page_index >> 5) in
    set_dirty_table pr (<[w := nth w t 0 .| mask]> t)
  else pr.

Definition phys_mem_is_dirty_bit (pr : PhysMemoryRange) (offset : Z) : bool :=
  if negb (dirty_bits pr) then true
  else
    let page_index := offset >> DEVRAM_PAGE_SIZE_LOG2 in
    let w := nth (Z.to_nat (page_index >> 5)) (dirty_table pr) 0 in
    nz ((w >> (page_index .& 0x1f)) .& 1).

Section Callback.
Context {W : Type} (flush_tlb_write_range : Z -> Z -> W -> W).

(** Returns the bitmap collected so far and switches to the other, cleared. *)
Definition default_get_dirty_bits (pr : PhysMemoryRange) (w : W)
  : list Z * PhysMemoryRange * W :=
  let t := dirty_table pr in
  let has_dirty_bits := existsb nz t in
  let w := if has_dirty_bits && nz (pr_size pr)
           then flush_tlb_write_range (phys_mem pr) (org_size pr) w else w in
  let pr := pr <| dirty_bits_index ::= fun i => Nat.lxor i 1 |> in
  let pr := set_dirty_table pr (replicate (length (dirty_table pr)) 0) in
  (t, pr, w).

Definition default_set_addr (pr : PhysMemoryRange) (a : Z) (enabled : bool) (w : W)
  : PhysMemoryRange * W :=
  let flush := if is_ram pr then flush_tlb_write_range (phys_mem pr) (org_size pr) w else w in
  if enabled then
    if (pr_size pr =? 0) || negb (pr_addr pr =? a)
    then (pr <| pr_addr := a |> <| pr_size := org_size pr |>, flush)
    else (pr, w)
  else
    if nz (pr_size pr)
    then (pr <| pr_addr := 0 |> <| pr_size := 0 |>, flush)
    else (pr, w).
End Callback.

(** ** Facts *)

Lemma get_range_loop_spec m paddr n i pr :
  (n <= length m)%nat ->
  get_range_loop m paddr n = Some (i, pr) <->
  (i < n)%nat /\ m !! i = Some pr /\ range_has pr paddr = true /\
  (forall j q, (i < j < n)%nat -> m !! j = Some q -> range_has q paddr = false).
Proof.
  induction n as [|n IH]; intros Hn; cbn [get_range_loop].
  - split; [done|]. intros (? & _). lia.
  - destruct (lookup_lt_is_Some_2 m n) as [q Hq]; [lia|]. rewrite Hq.
    destruct (range_has q paddr) eqn:Eq.
    + split.
      * intros [= <- <-]. repeat split; auto; lia.
      * intros (Hi & Hpr & Hh & Hlater).
        destruct (decide (i = n)) as [->|]; [congruence|].
        rewrite (Hlater n q) in Eq; [done|lia|done].
    + rewrite IH by lia. split.
      * intros (Hi & Hpr & Hh & Hlater). repeat split; auto; try lia.
        intros j q' Hj Hq'. destruct (decide (j = n)) as [->|]; [congruence|].
        apply (Hlater j); [lia|done].
      * intros (Hi & Hpr & Hh & Hlater).
        destruct (decide (i = n)) as [->|]; [congruence|].
        repeat split; auto; try lia. intros j q' Hj. apply Hlater. lia.
Qed.

Lemma get_range_loop_none m paddr n :
  (n <= length m)%nat ->
  get_range_loop m paddr n = None <->
  (forall j q, (j < n)%nat -> m !! j = Some q -> range_has q paddr = false).
Proof.
  induction n as [|n IH]; intros Hn; cbn [get_range_loop].
  - split; [lia|done].
  - destruct (lookup_lt_is_Some_2 m n) as [q Hq]; [lia|]. rewrite Hq.
    destruct (range_has q paddr) eqn:Eq.
    + split; [done|]. intros H. rewrite (H n q) in Eq; [done|lia|done].
    + rewrite IH by lia. split.
      * intros H j q' Hj Hq'. destruct (decide (j = n)) as [->|]; [congruence|].
        apply (H j); [lia|done].
      * intros H j q' Hj. apply H. lia.
Qed.

(** [range_has] as an interval, for a range that does not wrap around. *)
Lemma range_has_iff pr paddr :
  0 <= pr_addr pr -> 0 <= pr_size pr -> pr_addr pr + pr_size pr < 2 ^ 64 ->
  range_has pr paddr = true <-> pr_addr pr <= paddr < pr_addr pr + pr_size pr.
Proof.
  intros. unfold range_has. rewrite andb_true_iff, Z.leb_le, Z.ltb_lt.
  rewrite trunc_small by (unfold fits; lia). done.
Qed.

Lemma get_phys_mem_range_in m paddr i pr :
  get_phys_mem_range m paddr = Some (i, pr) -> m !! i = Some pr /\ range_has pr paddr = true.
Proof. intros H. apply get_range_loop_spec in H; [|done]. tauto. Qed.

(** A dirty table with 32-bit words. *)
Definition dirty_ok (pr : PhysMemoryRange) : Prop :=
  dirty_bits pr = true /\ (dirty_bits_index pr < 2)%nat /\
  exists t0 t1, dirty_bits_tab pr = [t0; t1] /\ length t0 = length t1 /\
    Forall (fits 32) t0 /\ Forall (fits 32) t1.

Lemma dirty_ok_table pr :
  dirty_ok pr ->
  dirty_bits_tab pr !! dirty_bits_index pr = Some (dirty_table pr) /\
  Forall (fits 32) (dirty_table pr).
Proof.
  intros (_ & Hi & t0 & t1 & Ht & _ & H0 & H1). unfold dirty_table. rewrite Ht.
  destruct (dirty_bits_index pr) as [|[|]]; [done|done|lia].
Qed.

Lemma dirty_table_set pr t :
  (dirty_bits_index pr < length (dirty_bits_tab pr))%nat ->
  dirty_table (set_dirty_table pr t) = t.
Proof.
  intros. unfold dirty_table, set_dirty_table. cbn.
  by rewrite list_lookup_insert_eq.
Qed.

(** Bit [k] of word [j] of a dirty table. *)
Definition dirty_at (t : list Z) (page : Z) : bool :=
  Z.testbit (nth (Z.to_nat (page >> 5)) t 0) (page .& 0x1f).

Lemma is_dirty_at pr o :
  dirty_bits pr = true ->
  phys_mem_is_dirty_bit pr o = dirty_at (dirty_table pr) (o >> DEVRAM_PAGE_SIZE_LOG2).
Proof.
  intros Hd. unfold phys_mem_is_dirty_bit, dirty_at. rewrite Hd. cbn [negb].
  set (w := nth _ _ _). set (k := _ .& 0x1f).
  change (nz (?a .& 1)) with (has a (1 << 0)).
  assert (0 <= k) by (apply Z.land_nonneg; lia).
  rewrite has_bit, Z.shiftr_spec by lia. done.
Qed.

Lemma page_split p : 0 <= p -> p = (p >> 5) * 32 + (p .& 0x1f) /\ 0 <= p .& 0x1f < 32.
Proof.
  intros. change 0x1f with (Z.ones 5). rewrite Z.land_ones, Z.shiftr_div_pow2 by lia.
  change (2 ^ 5) with 32. pose proof (Z.div_mod p 32). pose proof (Z.mod_pos_bound p 32). lia.
Qed.

Lemma dirty_at_insert t p q :
  0 <= p -> 0 <= q -> (Z.to_nat (p >> 5) < length t)%nat ->
  let w := Z.to_nat (p >> 5) in
  dirty_at (<[w := nth w t 0 .| u32 (1 << (p .& 0x1f))]> t) q
  = dirty_at t q || (p =? q).
Proof.
  intros Hp Hq Hl w. unfold dirty_at, w.
  destruct (page_split p Hp) as [Ep Bp], (page_split q Hq) as [Eq Bq].
  assert (0 <= p >> 5) by (apply Z.shiftr_nonneg; lia).
  assert (0 <= q >> 5) by (apply Z.shiftr_nonneg; lia).
  destruct (Z.eq_dec (p >> 5) (q >> 5)) as [E|E].
  - rewrite <- E. rewrite (nth_lookup (<[_:=_]> t)), list_lookup_insert_eq by lia. cbn.
    rewrite Z.lor_spec, testbit_trunc, Z.shiftl_spec by lia. f_equal.
    replace (q .& 31 <? 32) with true by (symmetry; apply Z.ltb_lt; lia). cbn [andb].
    destruct (Z.eqb_spec p q) as [->|Hne]; [by rewrite Z.sub_diag|].
    destruct (Z.ltb_spec (q .& 31) (p .& 31)); [apply Z.testbit_neg_r; lia|].
    apply Z.bits_above_log2; cbn; lia.
  - rewrite (nth_lookup (<[_:=_]> t)), list_lookup_insert_ne by lia.
    rewrite <- nth_lookup. destruct (Z.eqb_spec p q) as [->|]; [done|].
    by rewrite orb_false_r.
Qed.

(** The address lookup returns the most recently registered range that holds
    the address, and only such a range. *)
Lemma get_phys_mem_range_correct m paddr i pr :
  get_phys_mem_range m paddr = Some (i, pr) <->
  m !! i = Some pr /\ range_has pr paddr = true /\
  (forall j q, (i < j)%nat -> m !! j = Some q -> range_has q paddr = false).
Proof.
  unfold get_phys_mem_range. rewrite get_range_loop_spec by done. split.
  - intros (Hi & Hpr & Hh & Hl). repeat split; auto.
    intros j q Hj Hq. apply (Hl j); [|done]. apply lookup_lt_Some in Hq. lia.
  - intros (Hpr & Hh & Hl). repeat split; auto.
    + by apply lookup_lt_Some in Hpr.
    + intros j q Hj. apply Hl. lia.
Qed.

Lemma set_dirty_bit_table pr o :
  dirty_ok pr ->
  dirty_bits (phys_mem_set_dirty_bit pr o) = true /\
  dirty_table (phys_mem_set_dirty_bit pr o) =
    let w := Z.to_nat ((o >> DEVRAM_PAGE_SIZE_LOG2) >> 5) in
    <[w := nth w (dirty_table pr) 0 .| u32 (1 << ((o >> DEVRAM_PAGE_SIZE_LOG2) .& 0x1f))]>
      (dirty_table pr).
Proof.
  intros Hok. unfold phys_mem_set_dirty_bit. destruct (Hok) as (Hd & Hi & t0 & t1 & Ht & _).
  rewrite Hd. split; [done|]. apply dirty_table_set. rewrite Ht. cbn. lia.
Qed.

(** Writing at an offset marks exactly the page of that offset. *)
Lemma set_dirty_bit_marks_page pr o o' :
  dirty_ok pr -> 0 <= o -> 0 <= o' ->
  (Z.to_nat ((o >> DEVRAM_PAGE_SIZE_LOG2) >> 5) < length (dirty_table pr))%nat ->
  phys_mem_is_dirty_bit (phys_mem_set_dirty_bit pr o) o'
  = phys_mem_is_dirty_bit pr o'
    || ((o >> DEVRAM_PAGE_SIZE_LOG2) =? (o' >> DEVRAM_PAGE_SIZE_LOG2)).
Proof.
  intros Hok Ho Ho' Hlen. destruct (set_dirty_bit_table pr o Hok) as [Hd Ht].
  destruct (Hok) as (Hd0 & _).
  rewrite !is_dirty_at, Ht by done. apply dirty_at_insert; [| |done]; by apply Z.shiftr_nonneg.
Qed.

Lemma dirty_at_replicate n p : dirty_at (replicate n 0) p = false.
Proof.
  unfold dirty_at. rewrite nth_lookup.
  destruct (replicate n 0 !! Z.to_nat (p >> 5)) eqn:E; [|apply Z.bits_0].
  apply lookup_replicate in E as [-> _]. apply Z.bits_0.
Qed.

(** Collecting the dirty bits returns every page marked since the last
    collection, leaves the range clean, and flushes the write TLBs of a mapped
    range that had a dirty page, so that the next write marks its page again. *)
Lemma get_dirty_bits_collects {W} (flush : Z -> Z -> W -> W) pr w :
  dirty_ok pr ->
  let '(t, pr', w') := default_get_dirty_bits flush pr w in
  (forall o, dirty_at t (o >> DEVRAM_PAGE_SIZE_LOG2) = phys_mem_is_dirty_bit pr o) /\
  (forall o, phys_mem_is_dirty_bit pr' o = false) /\
  dirty_ok pr' /\
  w' = (if existsb nz (dirty_table pr) && nz (pr_size pr)
        then flush (phys_mem pr) (org_size pr) w else w).
Proof.
  intros (Hd & Hi & t0 & t1 & Ht & Hlen & H0 & H1). unfold default_get_dirty_bits.
  split; [intros o; by rewrite is_dirty_at|].
  assert (Forall (fits 32) (replicate (length t0) 0)) as Hr
      by (apply Forall_replicate; unfold fits; lia).
  split; [|split; [|done]].
  - intros o. rewrite is_dirty_at by done. rewrite dirty_table_set; [apply dirty_at_replicate|].
    cbn. rewrite Ht. destruct (dirty_bits_index pr) as [|[|]]; cbn; lia.
  - unfold dirty_ok, set_dirty_table, dirty_table. cbn. rewrite Ht.
    destruct (dirty_bits_index pr) as [|[|]]; [| |lia]; cbn;
      (split; [done|]; split; [lia|]); do 2 eexists; (split; [done|]);
      rewrite ?length_replicate; rewrite <- ?Hlen; auto.
Qed.

Definition demo_range : PhysMemoryRange :=
  mkRange 0x80000000 0x40000 0x40000 true 2 0x1000000 true
    [replicate 2 0; replicate 2 0] 0 0 0.

Lemma demo_range_ok : dirty_ok demo_range.
Proof.
  repeat split; [cbn; lia|]. do 2 eexists. split; [reflexivity|].
  split; [done|]. split; repeat constructor; unfold fits; lia.
Qed.

Lemma set_dirty_bit_marks_page_witness :
  phys_mem_is_dirty_bit (phys_mem_set_dirty_bit demo_range 0x21008) 0x21ff0 = true.
Proof.
  rewrite (set_dirty_bit_marks_page demo_range 0x21008 0x21ff0);
    [reflexivity|apply demo_range_ok|lia|lia|vm_compute; lia].
Defined.

Lemma get_dirty_bits_collects_witness :
  let '(t, _, w') := default_get_dirty_bits (fun _ _ n => S n)
                       (phys_mem_set_dirty_bit demo_range 0x21008) 0%nat in
  dirty_at t 0x21 = true /\ w' = 1%nat.
Proof.
  assert (dirty_ok (phys_mem_set_dirty_bit demo_range 0x21008)) as Hok.
  { repeat split; [cbn; lia|]. do 2 eexists. split; [reflexivity|].
    split; [done|]. split; repeat constructor; unfold fits; vm_compute; done. }
  pose proof (get_dirty_bits_collects (fun _ _ n => S n) _ 0%nat Hok) as (H1 & _ & _ & H2).
  split; [exact (H1 0x21008)|exact H2].
Defined.
