(* ===== verification/Cpu.v ===== *)
(** * Constants and hart state ([include/riscv.h], [include/riscv_cpu.h])

    [RISCVCPUState] has the fields of the C++ struct, in its order; arrays are
    lists, [target_ulong] and the other unsigned members are [Z] within their
    width ([cpu_ok]).  The [machine] back pointer, [mem_map] and [ext_cpu_state]
    are left out: the functions that follow them take the machine as an argument
    ([Machine.v]).  The configuration is the default build: FLEN 64, VLEN 128,
    no LIVECACHE, GOLDMEM_INORDER or SIMPOINT_BB. *)

From S2P Require Import Prelude.

(** ** [include/riscv.h] *)

Definition MIP_SSIP : Z := 1 << 1.
Definition MIP_MSIP : Z := 1 << 3.
Definition MIP_STIP : Z := 1 << 5.
Definition MIP_MTIP : Z := 1 << 7.
Definition MIP_SEIP : Z := 1 << 9.
Definition MIP_MEIP : Z := 1 << 11.
Definition MIP_MCIP : Z := 1 << 18.

Definition CAUSE_MISALIGNED_FETCH : Z := 0x0.
Definition CAUSE_FAULT_FETCH : Z := 0x1.
Definition CAUSE_ILLEGAL_INSTRUCTION : Z := 0x2.
Definition CAUSE_BREAKPOINT : Z := 0x3.
Definition CAUSE_MISALIGNED_LOAD : Z := 0x4.
Definition CAUSE_FAULT_LOAD : Z := 0x5.
Definition CAUSE_MISALIGNED_STORE : Z := 0x6.
Definition CAUSE_FAULT_STORE : Z := 0x7.
Definition CAUSE_USER_ECALL : Z := 0x8.
Definition CAUSE_SUPERVISOR_ECALL : Z := 0x9.
Definition CAUSE_HYPERVISOR_ECALL : Z := 0xa.
Definition CAUSE_MACHINE_ECALL : Z := 0xb.
Definition CAUSE_FETCH_PAGE_FAULT : Z := 0xc.
Definition CAUSE_LOAD_PAGE_FAULT : Z := 0xd.
Definition CAUSE_STORE_PAGE_FAULT : Z := 0xf.
Definition CAUSE_INTERRUPT : Z := 0x8000000000000000.
Definition PRV_U : Z := 0.
Definition PRV_S : Z := 1.
Definition PRV_H : Z := 2.
Definition PRV_M : Z := 3.
Definition SCAUSE_MASK : Z := 0x800000000000001f.
Definition MCAUSE_MASK : Z := 0x80000000000000ff.

Definition MCPUID_SUPER : Z := 1 << 18.
Definition MCPUID_USER : Z := 1 << 20.
Definition MCPUID_I : Z := 1 << 8.
Definition MCPUID_M : Z := 1 << 12.
Definition MCPUID_A : Z := 1 << 0.
Definition MCPUID_F : Z := 1 << 5.
Definition MCPUID_D : Z := 1 << 3.
Definition MCPUID_Q : Z := 1 << 16.
Definition MCPUID_C : Z := 1 << 2.
Definition MCPUID_X : Z := 1 << 23.
Definition MCPUID_V : Z := 1 << 21.

Definition MSTATUS_SPIE_SHIFT : Z := 5.
Definition MSTATUS_MPIE_SHIFT : Z := 7.
Definition MSTATUS_SPP_SHIFT : Z := 8.
Definition MSTATUS_VS_SHIFT : Z := 9.
Definition MSTATUS_MPP_SHIFT : Z := 11.
Definition MSTATUS_FS_SHIFT : Z := 13.
Definition MSTATUS_UXL_SHIFT : Z := 32.
Definition MSTATUS_SXL_SHIFT : Z := 34.
Definition MSTATUS_SIE : Z := 1 << 1.
Definition MSTATUS_MIE : Z := 1 << 3.
Definition MSTATUS_SPIE : Z := 1 << MSTATUS_SPIE_SHIFT.
Definition MSTATUS_MPIE : Z := 1 << MSTATUS_MPIE_SHIFT.
Definition MSTATUS_SPP : Z := 1 << MSTATUS_SPP_SHIFT.
Definition MSTATUS_VS : Z := 3 << MSTATUS_VS_SHIFT.
Definition MSTATUS_MPP : Z := 3 << MSTATUS_MPP_SHIFT.
Definition MSTATUS_FS : Z := 3 << MSTATUS_FS_SHIFT.
Definition MSTATUS_XS : Z := 3 << 15.
Definition MSTATUS_MPRV : Z := 1 << 17.
Definition MSTATUS_SUM : Z := 1 << 18.
Definition MSTATUS_MXR : Z := 1 << 19.
Definition MSTATUS_TVM : Z := 1 << 20.
Definition MSTATUS_TW : Z := 1 << 21.
Definition MSTATUS_TSR : Z := 1 << 22.
Definition MSTATUS_UXL_MASK : Z := 3 << MSTATUS_UXL_SHIFT.
Definition MSTATUS_SXL_MASK : Z := 3 << MSTATUS_SXL_SHIFT.

Definition MCONTROL_TYPE_AD_MATCH : Z := 2 << 60.
Definition MCONTROL_DMODE : Z := 1 << 59.
Definition MCONTROL_MAXMASK_4 : Z := 4 << 53.
Definition MCONTROL_ACTION : Z := 0x3f << 12.
Definition MCONTROL_MATCH : Z := 0xf << 7.
Definition MCONTROL_U : Z := 1 << 3.
Definition MCONTROL_EXECUTE : Z := 1 << 2.
Definition MCONTROL_STORE : Z := 1 << 1.
Definition MCONTROL_LOAD : Z := 1 << 0.
Definition MCONTROL_MATCH_EQUAL : Z := 0.
Definition MCONTROL_MATCH_NAPOT : Z := 1.
Definition MCONTROL_MATCH_GE : Z := 2.
Definition MCONTROL_MATCH_LT : Z := 3.

Definition SBI_SHUTDOWN : Z := 8.

Definition PMPCFG_R : Z := 1.
Definition PMPCFG_W : Z := 2.
Definition PMPCFG_X : Z := 4.
Definition PMPCFG_A_MASK : Z := 0x18.
Definition PMPCFG_A_OFF : Z := 0.
Definition PMPCFG_A_TOR : Z := 8.
Definition PMPCFG_A_NA4 : Z := 0x10.
Definition PMPCFG_A_NAPOT : Z := 0x18.
Definition PMPCFG_RES : Z := 0x60.
Definition PMPCFG_L : Z := 0x80.
Definition PMP_N : Z := 8.
Definition CSR_PMPCFG (n : Z) : Z := 0x3A0 + n.
Definition CSR_PMPADDR (n : Z) : Z := 0x3B0 + n.

(** ** [include/riscv_cpu.h] *)

Definition TLB_SIZE : Z := 256.
Definition PG_SHIFT : Z := 12.
Definition PG_MASK : Z := (1 << PG_SHIFT) - 1.
Definition MAX_TRIGGERS : Z := 1.
Definition VLEN : Z := 128.
Definition ASID_BITS : Z := 0.
Definition SATP_MASK : Z := (15 << 60) .| (((1 << ASID_BITS) - 1) << 44) .| ((1 << 44) - 1).
Definition HPM_EVENT_SETMASK : Z := 0x00000007.
Definition HPM_EVENT_EVENTMASK : Z := 0xffffff00.
Definition F32_HIGH : Z := u64 ((2 ^ 64 - 1) << 32).
Definition F64_HIGH : Z := 0.

Record TLBEntry := mkTLB { vaddr : Z; mem_addend : Z }.

Inductive RISCVCTFInfo :=
| ctf_nop
| ctf_taken_jump
| ctf_taken_branch
| ctf_taken_jalr
| ctf_taken_jalr_pop
| ctf_taken_jalr_push
| ctf_taken_jalr_pop_push.

Record pmp_addr := mkPmpAddr { lo : Z; hi : Z }.

Record stf_mem_access := mkAccess { acc_vaddr : Z; acc_size : Z; acc_value : Z }.

Inductive riscv_memory_access_t := ACCESS_READ | ACCESS_WRITE | ACCESS_CODE.

(** The numeric value of the enumerator, used in [xwr >> access]. *)
Definition access_idx (a : riscv_memory_access_t) : Z :=
  match a with ACCESS_READ => 0 | ACCESS_WRITE => 1 | ACCESS_CODE => 2 end.

Record RISCVCPUState := mkCPU {
  pc : Z;
  last_pc : Z;
  reg : list Z;
  reg_prior : list Z;
  most_recently_written_reg : Z;
  last_data_paddr : Z;
  last_data_vaddr : Z;
  last_data_size : Z;
  last_data_type : Z;
  fp_reg : list Z;
  most_recently_written_fp_reg : Z;
  fflags : Z;
  frm : Z;
  v_reg : list (list Z);
  most_recently_written_vregs : list bool;
  vstart : Z;
  vxsat : Z;
  vxrm : Z;
  vtype : Z;
  vl : Z;
  priv : Z;
  fs : Z;
  vs : Z;
  insn_counter : Z;
  minstret : Z;
  mcycle : Z;
  debug_mode : bool;
  stop_the_counter : bool;
  power_down_flag : bool;
  terminate_simulation : bool;
  pending_exception : Z;
  pending_tval : Z;
  mstatus : Z;
  mtvec : Z;
  mscratch : Z;
  mepc : Z;
  mcause : Z;
  mtval : Z;
  mvendorid : Z;
  marchid : Z;
  mimpid : Z;
  mhartid : Z;
  misa : Z;
  mie : Z;
  mip : Z;
  medeleg : Z;
  mideleg : Z;
  mcounteren : Z;
  mcountinhibit : Z;
  tselect : Z;
  tdata1 : list Z;
  tdata2 : list Z;
  mhpmevent : list Z;
  csr_pmpcfg : list Z;
  csr_pmpaddr : list Z;
  pmp_n : nat;
  pmp : list pmp_addr;
  pmpcfg : list Z;
  stvec : Z;
  sscratch : Z;
  sepc : Z;
  scause : Z;
  stval : Z;
  satp : Z;
  scounteren : Z;
  dcsr : Z;
  dpc : Z;
  dscratch : Z;
  plic_enable_irq : list Z;
  load_res : Z;
  load_res_memseqno : Z;
  physical_addr_len : Z;
  tlb_read : list TLBEntry;
  tlb_write : list TLBEntry;
  tlb_code : list TLBEntry;
  tlb_read_paddr_addend : list Z;
  tlb_write_paddr_addend : list Z;
  tlb_code_paddr_addend : list Z;
  benchmark_exit_code : Z;
  info : RISCVCTFInfo;
  next_addr : Z;
  timecmp : Z;
  ignore_sbi_shutdown : bool;
  stf_read_regs : list Z;
  stf_write_regs : list Z;
  stf_read_fp_regs : list Z;
  stf_write_fp_regs : list Z;
  stf_mem_reads : list stf_mem_access;
  stf_mem_writes : list stf_mem_access;
  stf_prev_priv_mode : Z
}.

(** [cpu_eta] lists the fields once; each setter replaces one of them. *)
Definition cpu_eta (s : RISCVCPUState) : RISCVCPUState :=
  mkCPU
    (pc s) (last_pc s) (reg s) (reg_prior s) (most_recently_written_reg s) (last_data_paddr
    s) (last_data_vaddr s) (last_data_size s) (last_data_type s) (fp_reg s)
    (most_recently_written_fp_reg s) (fflags s) (frm s) (v_reg s)
    (most_recently_written_vregs s) (vstart s) (vxsat s) (vxrm s) (vtype s) (vl s) (priv s)
    (fs s) (vs s) (insn_counter s) (minstret s) (mcycle s) (debug_mode s) (stop_the_counter
    s) (power_down_flag s) (terminate_simulation s) (pending_exception s) (pending_tval s)
    (mstatus s) (mtvec s) (mscratch s) (mepc s) (mcause s) (mtval s) (mvendorid s) (marchid
    s) (mimpid s) (mhartid s) (misa s) (mie s) (mip s) (medeleg s) (mideleg s) (mcounteren
    s) (mcountinhibit s) (tselect s) (tdata1 s) (tdata2 s) (mhpmevent s) (csr_pmpcfg s)
    (csr_pmpaddr s) (pmp_n s) (pmp s) (pmpcfg s) (stvec s) (sscratch s) (sepc s) (scause s)
    (stval s) (satp s) (scounteren s) (dcsr s) (dpc s) (dscratch s) (plic_enable_irq s)
    (load_res s) (load_res_memseqno s) (physical_addr_len s) (tlb_read s) (tlb_write s)
    (tlb_code s) (tlb_read_paddr_addend s) (tlb_write_paddr_addend s) (tlb_code_paddr_addend
    s) (benchmark_exit_code s) (info s) (next_addr s) (timecmp s) (ignore_sbi_shutdown s)
    (stf_read_regs s) (stf_write_regs s) (stf_read_fp_regs s) (stf_write_fp_regs s)
    (stf_mem_reads s) (stf_mem_writes s) (stf_prev_priv_mode s).

Ltac setter_of eta :=
  lazymatch goal with
  | |- @Setter ?R ?F ?proj =>
      let f := fresh "f" in let r := fresh "r" in
      unfold Setter; intros f r;
      let t := eval cbv beta delta [eta] in (eta r) in
      lazymatch t with
      | context C [proj r] => let t' := context C [f (proj r)] in exact t'
      end
  end.

#[export] Instance upd_pc : Setter pc := ltac:(setter_of cpu_eta).
#[export] Instance upd_last_pc : Setter last_pc := ltac:(setter_of cpu_eta).
#[export] Instance upd_reg : Setter reg := ltac:(setter_of cpu_eta).
#[export] Instance upd_reg_prior : Setter reg_prior := ltac:(setter_of cpu_eta).
#[export] Instance upd_most_recently_written_reg : Setter most_recently_written_reg := ltac:(setter_of cpu_eta).
#[export] Instance upd_last_data_paddr : Setter last_data_paddr := ltac:(setter_of cpu_eta).
#[export] Instance upd_last_data_vaddr : Setter last_data_vaddr := ltac:(setter_of cpu_eta).
#[export] Instance upd_last_data_size : Setter last_data_size := ltac:(setter_of cpu_eta).
#[export] Instance upd_last_data_type : Setter last_data_type := ltac:(setter_of cpu_eta).
#[export] Instance upd_fp_reg : Setter fp_reg := ltac:(setter_of cpu_eta).
#[export] Instance upd_most_recently_written_fp_reg : Setter most_recently_written_fp_reg := ltac:(setter_of cpu_eta).
#[export] Instance upd_fflags : Setter fflags := ltac:(setter_of cpu_eta).
#[export] Instance upd_frm : Setter frm := ltac:(setter_of cpu_eta).
#[export] Instance upd_v_reg : Setter v_reg := ltac:(setter_of cpu_eta).
#[export] Instance upd_most_recently_written_vregs : Setter most_recently_written_vregs := ltac:(setter_of cpu_eta).
#[export] Instance upd_vstart : Setter vstart := ltac:(setter_of cpu_eta).
#[export] Instance upd_vxsat : Setter vxsat := ltac:(setter_of cpu_eta).
#[export] Instance upd_vxrm : Setter vxrm := ltac:(setter_of cpu_eta).
#[export] Instance upd_vtype : Setter vtype := ltac:(setter_of cpu_eta).
#[export] Instance upd_vl : Setter vl := ltac:(setter_of cpu_eta).
#[export] Instance upd_priv : Setter priv := ltac:(setter_of cpu_eta).
#[export] Instance upd_fs : Setter fs := ltac:(setter_of cpu_eta).
#[export] Instance upd_vs : Setter vs := ltac:(setter_of cpu_eta).
#[export] Instance upd_insn_counter : Setter insn_counter := ltac:(setter_of cpu_eta).
#[export] Instance upd_minstret : Setter minstret := ltac:(setter_of cpu_eta).
#[export] Instance upd_mcycle : Setter mcycle := ltac:(setter_of cpu_eta).
#[export] Instance upd_debug_mode : Setter debug_mode := ltac:(setter_of cpu_eta).
#[export] Instance upd_stop_the_counter : Setter stop_the_counter := ltac:(setter_of cpu_eta).
#[export] Instance upd_power_down_flag : Setter power_down_flag := ltac:(setter_of cpu_eta).
#[export] Instance upd_terminate_simulation : Setter terminate_simulation := ltac:(setter_of cpu_eta).
#[export] Instance upd_pending_exception : Setter pending_exception := ltac:(setter_of cpu_eta).
#[export] Instance upd_pending_tval : Setter pending_tval := ltac:(setter_of cpu_eta).
#[export] Instance upd_mstatus : Setter mstatus := ltac:(setter_of cpu_eta).
#[export] Instance upd_mtvec : Setter mtvec := ltac:(setter_of cpu_eta).
#[export] Instance upd_mscratch : Setter mscratch := ltac:(setter_of cpu_eta).
#[export] Instance upd_mepc : Setter mepc := ltac:(setter_of cpu_eta).
#[export] Instance upd_mcause : Setter mcause := ltac:(setter_of cpu_eta).
#[export] Instance upd_mtval : Setter mtval := ltac:(setter_of cpu_eta).
#[export] Instance upd_mvendorid : Setter mvendorid := ltac:(setter_of cpu_eta).
#[export] Instance upd_marchid : Setter marchid := ltac:(setter_of cpu_eta).
#[export] Instance upd_mimpid : Setter mimpid := ltac:(setter_of cpu_eta).
#[export] Instance upd_mhartid : Setter mhartid := ltac:(setter_of cpu_eta).
#[export] Instance upd_misa : Setter misa := ltac:(setter_of cpu_eta).
#[export] Instance upd_mie : Setter mie := ltac:(setter_of cpu_eta).
#[export] Instance upd_mip : Setter mip := ltac:(setter_of cpu_eta).
#[export] Instance upd_medeleg : Setter medeleg := ltac:(setter_of cpu_eta).
#[export] Instance upd_mideleg : Setter mideleg := ltac:(setter_of cpu_eta).
#[export] Instance upd_mcounteren : Setter mcounteren := ltac:(setter_of cpu_eta).
#[export] Instance upd_mcountinhibit : Setter mcountinhibit := ltac:(setter_of cpu_eta).
#[export] Instance upd_tselect : Setter tselect := ltac:(setter_of cpu_eta).
#[export] Instance upd_tdata1 : Setter tdata1 := ltac:(setter_of cpu_eta).
#[export] Instance upd_tdata2 : Setter tdata2 := ltac:(setter_of cpu_eta).
#[export] Instance upd_mhpmevent : Setter mhpmevent := ltac:(setter_of cpu_eta).
#[export] Instance upd_csr_pmpcfg : Setter csr_pmpcfg := ltac:(setter_of cpu_eta).
#[export] Instance upd_csr_pmpaddr : Setter csr_pmpaddr := ltac:(setter_of cpu_eta).
#[export] Instance upd_pmp_n : Setter pmp_n := ltac:(setter_of cpu_eta).
#[export] Instance upd_pmp : Setter pmp := ltac:(setter_of cpu_eta).
#[export] Instance upd_pmpcfg : Setter pmpcfg := ltac:(setter_of cpu_eta).
#[export] Instance upd_stvec : Setter stvec := ltac:(setter_of cpu_eta).
#[export] Instance upd_sscratch : Setter sscratch := ltac:(setter_of cpu_eta).
#[export] Instance upd_sepc : Setter sepc := ltac:(setter_of cpu_eta).
#[export] Instance upd_scause : Setter scause := ltac:(setter_of cpu_eta).
#[export] Instance upd_stval : Setter stval := ltac:(setter_of cpu_eta).
#[export] Instance upd_satp : Setter satp := ltac:(setter_of cpu_eta).
#[export] Instance upd_scounteren : Setter scounteren := ltac:(setter_of cpu_eta).
#[export] Instance upd_dcsr : Setter dcsr := ltac:(setter_of cpu_eta).
#[export] Instance upd_dpc : Setter dpc := ltac:(setter_of cpu_eta).
#[export] Instance upd_dscratch : Setter dscratch := ltac:(setter_of cpu_eta).
#[export] Instance upd_plic_enable_irq : Setter plic_enable_irq := ltac:(setter_of cpu_eta).
#[export] Instance upd_load_res : Setter load_res := ltac:(setter_of cpu_eta).
#[export] Instance upd_load_res_memseqno : Setter load_res_memseqno := ltac:(setter_of cpu_eta).
#[export] Instance upd_physical_addr_len : Setter physical_addr_len := ltac:(setter_of cpu_eta).
#[export] Instance upd_tlb_read : Setter tlb_read := ltac:(setter_of cpu_eta).
#[export] Instance upd_tlb_write : Setter tlb_write := ltac:(setter_of cpu_eta).
#[export] Instance upd_tlb_code : Setter tlb_code := ltac:(setter_of cpu_eta).
#[export] Instance upd_tlb_read_paddr_addend : Setter tlb_read_paddr_addend := ltac:(setter_of cpu_eta).
#[export] Instance upd_tlb_write_paddr_addend : Setter tlb_write_paddr_addend := ltac:(setter_of cpu_eta).
#[export] Instance upd_tlb_code_paddr_addend : Setter tlb_code_paddr_addend := ltac:(setter_of cpu_eta).
#[export] Instance upd_benchmark_exit_code : Setter benchmark_exit_code := ltac:(setter_of cpu_eta).
#[export] Instance upd_info : Setter info := ltac:(setter_of cpu_eta).
#[export] Instance upd_next_addr : Setter next_addr := ltac:(setter_of cpu_eta).
#[export] Instance upd_timecmp : Setter timecmp := ltac:(setter_of cpu_eta).
#[export] Instance upd_ignore_sbi_shutdown : Setter ignore_sbi_shutdown := ltac:(setter_of cpu_eta).
#[export] Instance upd_stf_read_regs : Setter stf_read_regs := ltac:(setter_of cpu_eta).
#[export] Instance upd_stf_write_regs : Setter stf_write_regs := ltac:(setter_of cpu_eta).
#[export] Instance upd_stf_read_fp_regs : Setter stf_read_fp_regs := ltac:(setter_of cpu_eta).
#[export] Instance upd_stf_write_fp_regs : Setter stf_write_fp_regs := ltac:(setter_of cpu_eta).
#[export] Instance upd_stf_mem_reads : Setter stf_mem_reads := ltac:(setter_of cpu_eta).
#[export] Instance upd_stf_mem_writes : Setter stf_mem_writes := ltac:(setter_of cpu_eta).
#[export] Instance upd_stf_prev_priv_mode : Setter stf_prev_priv_mode := ltac:(setter_of cpu_eta).

(** Computes projections of updated states, and nothing else. *)
Ltac cpu_simpl_in H :=
  cbn [upd
    upd_pc upd_last_pc upd_reg upd_reg_prior upd_most_recently_written_reg
    upd_last_data_paddr upd_last_data_vaddr upd_last_data_size upd_last_data_type upd_fp_reg
    upd_most_recently_written_fp_reg upd_fflags upd_frm upd_v_reg
    upd_most_recently_written_vregs upd_vstart upd_vxsat upd_vxrm upd_vtype upd_vl upd_priv
    upd_fs upd_vs upd_insn_counter upd_minstret upd_mcycle upd_debug_mode
    upd_stop_the_counter upd_power_down_flag upd_terminate_simulation upd_pending_exception
    upd_pending_tval upd_mstatus upd_mtvec upd_mscratch upd_mepc upd_mcause upd_mtval
    upd_mvendorid upd_marchid upd_mimpid upd_mhartid upd_misa upd_mie upd_mip upd_medeleg
    upd_mideleg upd_mcounteren upd_mcountinhibit upd_tselect upd_tdata1 upd_tdata2
    upd_mhpmevent upd_csr_pmpcfg upd_csr_pmpaddr upd_pmp_n upd_pmp upd_pmpcfg upd_stvec
    upd_sscratch upd_sepc upd_scause upd_stval upd_satp upd_scounteren upd_dcsr upd_dpc
    upd_dscratch upd_plic_enable_irq upd_load_res upd_load_res_memseqno
    upd_physical_addr_len upd_tlb_read upd_tlb_write upd_tlb_code upd_tlb_read_paddr_addend
    upd_tlb_write_paddr_addend upd_tlb_code_paddr_addend upd_benchmark_exit_code upd_info
    upd_next_addr upd_timecmp upd_ignore_sbi_shutdown upd_stf_read_regs upd_stf_write_regs
    upd_stf_read_fp_regs upd_stf_write_fp_regs upd_stf_mem_reads upd_stf_mem_writes
    upd_stf_prev_priv_mode pc last_pc reg reg_prior most_recently_written_reg
    last_data_paddr last_data_vaddr last_data_size last_data_type fp_reg
    most_recently_written_fp_reg fflags frm v_reg most_recently_written_vregs vstart vxsat
    vxrm vtype vl priv fs vs insn_counter minstret mcycle debug_mode stop_the_counter
    power_down_flag terminate_simulation pending_exception pending_tval mstatus mtvec
    mscratch mepc mcause mtval mvendorid marchid mimpid mhartid misa mie mip medeleg mideleg
    mcounteren mcountinhibit tselect tdata1 tdata2 mhpmevent csr_pmpcfg csr_pmpaddr pmp_n
    pmp pmpcfg stvec sscratch sepc scause stval satp scounteren dcsr dpc dscratch
    plic_enable_irq load_res load_res_memseqno physical_addr_len tlb_read tlb_write tlb_code
    tlb_read_paddr_addend tlb_write_paddr_addend tlb_code_paddr_addend benchmark_exit_code
    info next_addr timecmp ignore_sbi_shutdown stf_read_regs stf_write_regs stf_read_fp_regs
    stf_write_fp_regs stf_mem_reads stf_mem_writes stf_prev_priv_mode] in H.
Ltac cpu_simpl :=
  cbn [upd
    upd_pc upd_last_pc upd_reg upd_reg_prior upd_most_recently_written_reg
    upd_last_data_paddr upd_last_data_vaddr upd_last_data_size upd_last_data_type upd_fp_reg
    upd_most_recently_written_fp_reg upd_fflags upd_frm upd_v_reg
    upd_most_recently_written_vregs upd_vstart upd_vxsat upd_vxrm upd_vtype upd_vl upd_priv
    upd_fs upd_vs upd_insn_counter upd_minstret upd_mcycle upd_debug_mode
    upd_stop_the_counter upd_power_down_flag upd_terminate_simulation upd_pending_exception
    upd_pending_tval upd_mstatus upd_mtvec upd_mscratch upd_mepc upd_mcause upd_mtval
    upd_mvendorid upd_marchid upd_mimpid upd_mhartid upd_misa upd_mie upd_mip upd_medeleg
    upd_mideleg upd_mcounteren upd_mcountinhibit upd_tselect upd_tdata1 upd_tdata2
    upd_mhpmevent upd_csr_pmpcfg upd_csr_pmpaddr upd_pmp_n upd_pmp upd_pmpcfg upd_stvec
    upd_sscratch upd_sepc upd_scause upd_stval upd_satp upd_scounteren upd_dcsr upd_dpc
    upd_dscratch upd_plic_enable_irq upd_load_res upd_load_res_memseqno
    upd_physical_addr_len upd_tlb_read upd_tlb_write upd_tlb_code upd_tlb_read_paddr_addend
    upd_tlb_write_paddr_addend upd_tlb_code_paddr_addend upd_benchmark_exit_code upd_info
    upd_next_addr upd_timecmp upd_ignore_sbi_shutdown upd_stf_read_regs upd_stf_write_regs
    upd_stf_read_fp_regs upd_stf_write_fp_regs upd_stf_mem_reads upd_stf_mem_writes
    upd_stf_prev_priv_mode pc last_pc reg reg_prior most_recently_written_reg
    last_data_paddr last_data_vaddr last_data_size last_data_type fp_reg
    most_recently_written_fp_reg fflags frm v_reg most_recently_written_vregs vstart vxsat
    vxrm vtype vl priv fs vs insn_counter minstret mcycle debug_mode stop_the_counter
    power_down_flag terminate_simulation pending_exception pending_tval mstatus mtvec
    mscratch mepc mcause mtval mvendorid marchid mimpid mhartid misa mie mip medeleg mideleg
    mcounteren mcountinhibit tselect tdata1 tdata2 mhpmevent csr_pmpcfg csr_pmpaddr pmp_n
    pmp pmpcfg stvec sscratch sepc scause stval satp scounteren dcsr dpc dscratch
    plic_enable_irq load_res load_res_memseqno physical_addr_len tlb_read tlb_write tlb_code
    tlb_read_paddr_addend tlb_write_paddr_addend tlb_code_paddr_addend benchmark_exit_code
    info next_addr timecmp ignore_sbi_shutdown stf_read_regs stf_write_regs stf_read_fp_regs
    stf_write_fp_regs stf_mem_reads stf_mem_writes stf_prev_priv_mode].

(** ** Arrays *)

(** [a[i]] of the source; every index in the source is in range. *)
Definition aget {A} (d : A) (l : list A) (i : Z) : A := nth (Z.to_nat i) l d.
Definition aset {A} (l : list A) (i : Z) (v : A) : list A := <[Z.to_nat i := v]> l.

Definition no_tlb : TLBEntry := mkTLB 0 0.
Definition no_pmp : pmp_addr := mkPmpAddr 0 0.

(** ** TLB maintenance ([src/riscv_cpu.cpp]) *)

(** [(target_ulong)-1], the tag of an invalid entry. *)
Definition TLB_INVALID : Z := 2 ^ 64 - 1.

Definition tlb_invalidate (e : TLBEntry) : TLBEntry := mkTLB TLB_INVALID (mem_addend e).

Definition tlb_init (s : RISCVCPUState) : RISCVCPUState :=
  s <| tlb_read ::= map tlb_invalidate |>
    <| tlb_write ::= map tlb_invalidate |>
    <| tlb_code ::= map tlb_invalidate |>.

Definition tlb_flush_all (s : RISCVCPUState) : RISCVCPUState := tlb_init s.

Definition tlb_flush_vaddr (s : RISCVCPUState) (va : Z) : RISCVCPUState := tlb_flush_all s.

Definition riscv_cpu_flush_tlb_write_range_ram (s : RISCVCPUState) (ram_ptr ram_size : Z)
  : RISCVCPUState :=
  let ram_end := u64 (ram_ptr + ram_size) in
  s <| tlb_write ::= map (fun e =>
         if negb (vaddr e =? TLB_INVALID) then
           let ptr := u64 (mem_addend e + vaddr e) in
           if (ram_ptr <=? ptr) && (ptr <? ram_end) then tlb_invalidate e else e
         else e) |>.

(** ** Reset ([riscv_cpu_init]) *)

(** The zeroed allocation of [mallocz]. *)
Definition zero_cpu : RISCVCPUState :=
  mkCPU 0 0 (replicate 32 0) (replicate 32 0) 0 0 0 0 0 (replicate 32 0) 0 0 0
    (replicate 32 (replicate 16 0)) (replicate 32 false) 0 0 0 0 0 0 0 0 0 0 0
    false false false false 0 0 0 0 0 0 0 0 0 0 0 0 0 0 0 0 0 0 0 0
    (replicate 1 0) (replicate 1 0) (replicate 32 0) (replicate 4 0) (replicate 16 0)
    0%nat (replicate 16 no_pmp) (replicate 16 0) 0 0 0 0 0 0 0 0 0 0 (replicate 2 0) 0 0 0
    (replicate 256 no_tlb) (replicate 256 no_tlb) (replicate 256 no_tlb)
    (replicate 256 0) (replicate 256 0) (replicate 256 0)
    0 ctf_nop 0 0 false [] [] [] [] [] [] 0.

Definition clear_most_recently_written_vregs (s : RISCVCPUState) : RISCVCPUState :=
  s <| most_recently_written_vregs := replicate 32 false |>.

Definition riscv_cpu_init (reset_vector : Z) (custom_extension clear_ids : bool) (hartid : Z)
  : RISCVCPUState :=
  let s := zero_cpu <| pc := reset_vector |> <| priv := PRV_M |>
    <| mstatus := (2 << MSTATUS_UXL_SHIFT) .| (2 << MSTATUS_SXL_SHIFT)
                  .| (3 << MSTATUS_MPP_SHIFT) |>
    <| plic_enable_irq := [0; 0] |>
    <| misa ::= fun m => m .| (MCPUID_SUPER .| MCPUID_USER .| MCPUID_I .| MCPUID_M .| MCPUID_A) |>
    <| most_recently_written_reg := -1 |>
    <| most_recently_written_fp_reg := -1 |>
    <| misa ::= fun m => m .| MCPUID_F |>
    <| misa ::= fun m => m .| MCPUID_D |> in
  let s := (clear_most_recently_written_vregs s) <| misa ::= fun m => m .| MCPUID_V |>
    <| misa ::= fun m => m .| MCPUID_C |> in
  let s := if custom_extension then s <| misa ::= fun m => m .| MCPUID_X |> else s in
  let s := if clear_ids
           then s <| mvendorid := 0 |> <| marchid := 0 |> <| mimpid := 0 |>
           else s <| mvendorid := 11 * 128 + 101 |> <| marchid := (1 << 63) .| 2 |>
                  <| mimpid := 1 |> in
  let s := s <| mhartid := hartid |> <| tselect := 0 |>
    <| tdata1 := [MCONTROL_TYPE_AD_MATCH .| MCONTROL_MAXMASK_4] |>
    <| tdata2 := [2 ^ 64 - 1] |>
    <| dcsr := (1 << 30) + 3 |> in
  (tlb_init s) <| benchmark_exit_code := 0 |>.

(** ** Accessors *)

(** [s->misa & MCPUID_C ? ~1 : ~3], the mask that aligns an instruction address. *)
Definition pc_align (s : RISCVCPUState) (v : Z) : Z :=
  v .&~ (if has (misa s) MCPUID_C then 1 else 3).

Definition riscv_set_pc (s : RISCVCPUState) (v : Z) : RISCVCPUState :=
  s <| pc := pc_align s v |>.

(** [None] is a failed [assert]. *)
Definition riscv_get_reg (s : RISCVCPUState) (rn : Z) : option Z :=
  if (0 <=? rn) && (rn <? 32) then Some (aget 0 (reg s) rn) else None.

Definition riscv_get_reg_previous (s : RISCVCPUState) (rn : Z) : option Z :=
  if (0 <=? rn) && (rn <? 32) then Some (aget 0 (reg_prior s) rn) else None.

Definition riscv_set_reg (s : RISCVCPUState) (rn v : Z) : option RISCVCPUState :=
  if (0 <? rn) && (rn <? 32) then Some (s <| reg ::= fun r => aset r rn v |>) else None.

Definition riscv_repair_csr (s : RISCVCPUState) (reg_num csr_num csr_val : Z) : RISCVCPUState :=
  let c := csr_num .& 0xFFF in
  if (c =? 0xb00) || (c =? 0xc00) then
    s <| mcycle := csr_val |> <| reg ::= fun r => aset r reg_num csr_val |>
  else if (c =? 0xb02) || (c =? 0xc02) then
    s <| minstret := csr_val |> <| reg ::= fun r => aset r reg_num csr_val |>
  else s.

(** The loop copies registers 1 to 31. *)
Definition riscv_cpu_sync_regs (s : RISCVCPUState) : RISCVCPUState :=
  s <| reg_prior ::= fun p => take 1 p ++ drop 1 (reg s) |>.

Definition riscv_stf_reset (s : RISCVCPUState) : RISCVCPUState :=
  s <| stf_read_regs := [] |> <| stf_write_regs := [] |> <| stf_read_fp_regs := [] |>
    <| stf_write_fp_regs := [] |> <| stf_mem_reads := [] |> <| stf_mem_writes := [] |>.

Definition riscv_set_debug_mode (s : RISCVCPUState) (on : bool) : RISCVCPUState :=
  s <| debug_mode := on |>.

(** ** Well-formed hart states *)

(** Every member is within its C++ width, the arrays have their declared
    lengths, and register [x0] holds zero. *)
Record cpu_ok (s : RISCVCPUState) : Prop := {
  ok_pc : fits 64 (pc s);
  ok_reg_len : length (reg s) = 32%nat;
  ok_reg : Forall (fits 64) (reg s);
  ok_x0 : aget 0 (reg s) 0 = 0;
  ok_fp_len : length (fp_reg s) = 32%nat;
  ok_fp : Forall (fits 64) (fp_reg s);
  ok_fflags : fits 32 (fflags s);
  ok_frm : fits 8 (frm s);
  ok_v_reg_len : length (v_reg s) = 32%nat;
  ok_v_reg : Forall (fun r => length r = 16%nat /\ Forall (fits 8) r) (v_reg s);
  ok_vstart : fits 16 (vstart s);
  ok_vxsat : fits 8 (vxsat s);
  ok_vxrm : fits 8 (vxrm s);
  ok_vtype : fits 64 (vtype s);
  ok_vl : fits 64 (vl s);
  ok_priv : fits 2 (priv s);
  ok_fs : fits 2 (fs s);
  ok_vs : fits 2 (vs s);
  ok_minstret : fits 64 (minstret s);
  ok_mcycle : fits 64 (mcycle s);
  ok_tval : fits 64 (pending_tval s);
  ok_mstatus : fits 64 (mstatus s);
  ok_mtvec : fits 64 (mtvec s);
  ok_mscratch : fits 64 (mscratch s);
  ok_mepc : fits 64 (mepc s);
  ok_mcause : fits 64 (mcause s);
  ok_mtval : fits 64 (mtval s);
  ok_ids : fits 64 (mvendorid s) /\ fits 64 (marchid s) /\ fits 64 (mimpid s)
           /\ fits 64 (mhartid s);
  ok_misa : fits 32 (misa s);
  ok_mie : fits 32 (mie s);
  ok_mip : fits 32 (mip s);
  ok_medeleg : fits 32 (medeleg s);
  ok_mideleg : fits 32 (mideleg s);
  ok_mcounteren : fits 32 (mcounteren s);
  ok_mcountinhibit : fits 32 (mcountinhibit s);
  ok_tselect : tselect s = 0;
  ok_tdata1 : exists t, tdata1 s = [t] /\ fits 64 t;
  ok_tdata2 : exists t, tdata2 s = [t] /\ fits 64 t;
  ok_mhpmevent : length (mhpmevent s) = 32%nat /\ Forall (fits 64) (mhpmevent s);
  ok_pmpcfg : length (csr_pmpcfg s) = 4%nat /\ Forall (fits 64) (csr_pmpcfg s);
  ok_pmpaddr : length (csr_pmpaddr s) = 16%nat /\ Forall (fits 64) (csr_pmpaddr s);
  ok_stvec : fits 64 (stvec s);
  ok_sscratch : fits 64 (sscratch s);
  ok_sepc : fits 64 (sepc s);
  ok_scause : fits 64 (scause s);
  ok_stval : fits 64 (stval s);
  ok_satp : fits 64 (satp s);
  ok_scounteren : fits 32 (scounteren s);
  ok_dcsr : fits 64 (dcsr s);
  ok_dpc : fits 64 (dpc s);
  ok_dscratch : fits 64 (dscratch s);
  ok_pal : 0 <= physical_addr_len s <= 64;
  ok_tlb : length (tlb_read s) = 256%nat /\ length (tlb_write s) = 256%nat
           /\ length (tlb_code s) = 256%nat
}.

#[export] Hint Resolve ok_pc ok_fflags ok_frm ok_vstart ok_vxsat ok_vxrm ok_vtype ok_vl ok_priv
  ok_fs ok_vs ok_minstret ok_mcycle ok_tval ok_mstatus ok_mtvec ok_mscratch ok_mepc ok_mcause
  ok_mtval ok_misa ok_mie ok_mip ok_medeleg ok_mideleg ok_mcounteren ok_mcountinhibit
  ok_stvec ok_sscratch ok_sepc ok_scause ok_stval ok_satp ok_scounteren ok_dcsr ok_dpc
  ok_dscratch ok_reg ok_fp : width.

(** Splits [cpu_ok] of an updated state into its members and keeps those the
    update does not touch. *)
Ltac cpu_ok_split H :=
  destruct H; constructor; cpu_simpl; try assumption.

Lemma tlb_flush_all_ok s : cpu_ok s -> cpu_ok (tlb_flush_all s).
Proof.
  intros H. unfold tlb_flush_all, tlb_init. cpu_ok_split H. by rewrite !length_map.
Qed.

Lemma fits_aget w l i : 0 <= w -> Forall (fits w) l -> fits w (aget 0 l i).
Proof.
  intros Hw Hl. unfold aget. rewrite nth_lookup. destruct (l !! _) eqn:E; cbn.
  - rewrite Forall_lookup in Hl. eauto.
  - unfold fits. pose proof (pow2_pos w). lia.
Qed.

Lemma Forall_aset {A} (P : A -> Prop) l i v : Forall P l -> P v -> Forall P (aset l i v).
Proof. intros. by apply Forall_insert. Qed.

Lemma length_aset {A} (l : list A) i v : length (aset l i v) = length l.
Proof. apply length_insert. Qed.

Lemma aget_aset_eq {A} (d : A) l i v :
  0 <= i < Z.of_nat (length l) -> aget d (aset l i v) i = v.
Proof.
  intros. unfold aget, aset. rewrite nth_lookup, list_lookup_insert_eq by lia. done.
Qed.

Lemma aget_aset_ne {A} (d : A) l i j v :
  0 <= i -> 0 <= j -> i <> j -> aget d (aset l i v) j = aget d l j.
Proof.
  intros. unfold aget, aset. rewrite !nth_lookup, list_lookup_insert_ne by lia. done.
Qed.

#[export] Hint Resolve fits_aget Forall_aset : width.

(** Decides a closed decidable goal. *)
Ltac vm_decide :=
  lazymatch goal with
  | |- ?P => let d := constr:(_ : Decision P) in
             refine (@bool_decide_unpack P d _); vm_compute; exact I
  end.

Lemma riscv_cpu_init_0_ok ce ci : cpu_ok (riscv_cpu_init 0 ce ci 0).
Proof.
  destruct ce, ci; constructor;
    lazymatch goal with
    | |- exists _, _ => eexists; split; [reflexivity|vm_decide]
    | |- _ => vm_decide
    end.
Qed.

Lemma riscv_cpu_init_eq rv ce ci h :
  riscv_cpu_init rv ce ci h = (riscv_cpu_init 0 ce ci 0) <| pc := rv |> <| mhartid := h |>.
Proof. by destruct ce, ci. Qed.

Lemma cpu_ok_pc_mhartid s rv h :
  cpu_ok s -> fits 64 rv -> fits 64 h -> cpu_ok (s <| pc := rv |> <| mhartid := h |>).
Proof.
  intros H Hrv Hh. cpu_ok_split H. destruct ok_ids0 as (? & ? & ? & ?). auto.
Qed.

Lemma riscv_cpu_init_ok rv ce ci h :
  fits 64 rv -> fits 64 h -> cpu_ok (riscv_cpu_init rv ce ci h).
Proof.
  intros. rewrite riscv_cpu_init_eq. apply cpu_ok_pc_mhartid; auto using riscv_cpu_init_0_ok.
Qed.
