(* ===== verification/Pmp.v ===== *)
(** * Physical memory protection ([src/riscv_cpu.cpp])

    [unpack_pmpaddrs] compiles the PMP CSRs into a dense array of intervals,
    [riscv_cpu_pmp_access_ok] checks an access against it, and the two CSR
    writers below are the PMP cases of [csr_write].  The section
    [Specification] states the architectural rule on the CSRs themselves. *)

From S2P Require Import Prelude Cpu.

Definition PMPADDR_MASK : Z := 0x3fffffffff.

(** ** The access check *)

(** The loop over the unpacked entries [i .. pmp_n - 1]; [None] when no entry
    overlaps the access. *)
Fixpoint pmp_loop (s : RISCVCPUState) (p paddr size perm : Z) (i fuel : nat) : option bool :=
  match fuel with
  | O => None
  | S fuel' =>
      let e := nth i (pmp s) no_pmp in
      let cfg := nth i (pmpcfg s) 0 in
      if (lo e <=? u64 (paddr + size - 1)) && (paddr <? hi e) then
        if (p <? PRV_M) || has cfg PMPCFG_L
        then Some ((perm .& cfg) =? perm)
        else Some true
      else pmp_loop s p paddr size perm (S i) fuel'
  end.

(** The privilege a data access is made with. *)
Definition effective_priv (s : RISCVCPUState) (is_code : bool) : Z :=
  if has (mstatus s) MSTATUS_MPRV && negb is_code
  then (mstatus s >> MSTATUS_MPP_SHIFT) .& 3
  else priv s.

Definition riscv_cpu_pmp_access_ok (s : RISCVCPUState) (paddr size perm : Z) : bool :=
  if nz (paddr >> physical_addr_len s) then false
  else
    let p := effective_priv s (has perm PMPCFG_X) in
    match pmp_loop s p paddr size perm 0 (pmp_n s) with
    | Some b => b
    | None => p =? PRV_M
    end.

(** ** Unpacking the CSRs *)

(** [for (j = 0; j < 64; ++j) if ((a & (1llu << j)) == 0) break;] *)
Fixpoint count_trailing_ones (a j : Z) (fuel : nat) : Z :=
  match fuel with
  | O => j
  | S fuel' => if (a .& (1 << j)) =? 0 then j else count_trailing_ones a (j + 1) fuel'
  end.

Definition pmp_cfg_byte (s : RISCVCPUState) (i : Z) : Z :=
  if i <? 8 then u8 (aget 0 (csr_pmpcfg s) 0 >> (i * 8))
  else u8 (aget 0 (csr_pmpcfg s) 2 >> ((i - 8) * 8)).

Definition napot_range (a : Z) : pmp_addr :=
  let j := count_trailing_ones a 0 64 + 3 in
  if 64 <=? j then mkPmpAddr 0 (2 ^ 64 - 1)
  else
    let l := u64 (a << 2) .&~ ((1 << j) - 1) in
    let h := u64 (l + (1 << j)) in
    mkPmpAddr l (if h <=? l then 2 ^ 64 - 1 else h).

(** The interval of entry [i], [None] when the entry is off. *)
Definition pmp_entry (s : RISCVCPUState) (i : Z) : option pmp_addr :=
  let a := aget 0 (csr_pmpaddr s) i in
  let mode := pmp_cfg_byte s i .& PMPCFG_A_MASK in
  if mode =? PMPCFG_A_OFF then None
  else if mode =? PMPCFG_A_TOR then
    Some (mkPmpAddr (if i =? 0 then 0 else u64 (aget 0 (csr_pmpaddr s) (i - 1) << 2))
                    (u64 (a << 2)))
  else if mode =? PMPCFG_A_NA4 then
    Some (mkPmpAddr (u64 (a << 2)) (u64 (u64 (a << 2) + 4)))
  else Some (napot_range a).

Definition unpack_step (s : RISCVCPUState) (i : Z) : RISCVCPUState :=
  match pmp_entry s i with
  | None => s
  | Some e => s <| pmpcfg ::= <[pmp_n s := pmp_cfg_byte s i]> |>
                <| pmp ::= <[pmp_n s := e]> |>
                <| pmp_n ::= S |>
  end.

Definition unpack_pmpaddrs (s : RISCVCPUState) : RISCVCPUState :=
  tlb_flush_all (fold_left unpack_step (seqZ 0 16) (s <| pmp_n := 0%nat |>)).

(** ** The PMP cases of [csr_write] *)

(** Byte [i] of the new [pmpcfg] value: locked bytes keep their old contents. *)
Definition pmpcfg_byte (orig v i : Z) : Z :=
  let cfg := (orig >> (i * 8)) .& 255 in
  let cfg := if (cfg .& PMPCFG_L) =? 0 then (v >> (i * 8)) .& 255 else cfg in
  cfg .&~ PMPCFG_RES.

Definition pmpcfg_merge (orig v : Z) : Z :=
  fold_left (fun acc i => acc .| (pmpcfg_byte orig v i << (i * 8))) (seqZ 0 8) 0.

Definition csr_write_pmpcfg (s : RISCVCPUState) (c v : Z) : RISCVCPUState :=
  if PMP_N <=? c / 2 * 8 then s
  else unpack_pmpaddrs
         (s <| csr_pmpcfg ::= fun l => aset l c (pmpcfg_merge (aget 0 l c) v) |>).

Definition csr_write_pmpaddr (s : RISCVCPUState) (n v : Z) : RISCVCPUState :=
  if PMP_N <=? n then s
  else
    let cfg := aget 0 (csr_pmpcfg s) (n / 8) >> (n * 8) in
    if has cfg PMPCFG_L then s
    else
      let next := cfg >> 8 in
      if ((next .& PMPCFG_A_MASK) =? PMPCFG_A_TOR) && has next PMPCFG_L then s
      else unpack_pmpaddrs
             (s <| csr_pmpaddr ::= fun l => aset l n (v .& PMPADDR_MASK) |>).

(** ** Specification

    The architectural rule, on the CSRs: an entry matches a byte address by its
    mode, and the lowest-numbered entry that matches a byte of the access
    decides. *)

Definition pmp_match (s : RISCVCPUState) (i a : Z) : bool :=
  let pa := aget 0 (csr_pmpaddr s) i in
  let mode := pmp_cfg_byte s i .& PMPCFG_A_MASK in
  if mode =? PMPCFG_A_OFF then false
  else if mode =? PMPCFG_A_TOR then
    ((if i =? 0 then 0 else aget 0 (csr_pmpaddr s) (i - 1) * 4) <=? a) && (a <? pa * 4)
  else if mode =? PMPCFG_A_NA4 then (a / 4) =? pa
  else
    let dont_care := pa .^ (pa + 1) in
    ((a / 4) .&~ dont_care) =? (pa .&~ dont_care).

Definition pmp_spec (s : RISCVCPUState) (paddr size perm : Z) : bool :=
  if nz (paddr >> physical_addr_len s) then false
  else
    let p := effective_priv s (has perm PMPCFG_X) in
    match List.find (fun i => existsb (pmp_match s i) (seqZ paddr size)) (seqZ 0 16) with
    | Some i => if (p <? PRV_M) || has (pmp_cfg_byte s i) PMPCFG_L
                then (perm .& pmp_cfg_byte s i) =? perm else true
    | None => p =? PRV_M
    end.

(** The dense arrays hold the enabled entries, in order. *)
Definition pmp_synced (s : RISCVCPUState) : Prop :=
  take (pmp_n s) (pmp s) = omap (pmp_entry s) (seqZ 0 16) /\
  take (pmp_n s) (pmpcfg s) =
    omap (fun i => (fun _ => pmp_cfg_byte s i) <$> pmp_entry s i) (seqZ 0 16).

(** [pmpaddr] holds 38 bits ([PMPADDR_MASK]). *)
Definition pmpaddrs_ok (s : RISCVCPUState) : Prop := Forall (fits 38) (csr_pmpaddr s).

(** No enabled top-of-range entry is empty. *)
Definition tor_nonempty_at (s : RISCVCPUState) (i : Z) : Prop :=
  match pmp_entry s i with
  | Some e => pmp_cfg_byte s i .& PMPCFG_A_MASK = PMPCFG_A_TOR -> lo e < hi e
  | None => True
  end.

Definition tor_nonempty (s : RISCVCPUState) : Prop := Forall (tor_nonempty_at s) (seqZ 0 16).

(** *** NAPOT arithmetic *)

Lemma count_trailing_ones_spec a n j fuel :
  0 <= j <= n -> n < j + Z.of_nat fuel ->
  (forall i, j <= i < n -> Z.testbit a i = true) -> Z.testbit a n = false ->
  count_trailing_ones a j fuel = n.
Proof.
  revert j. induction fuel as [|fuel IH]; intros j Hj Hf Hones Hn; cbn [count_trailing_ones].
  - lia.
  - destruct (Z.eqb_spec (a .& (1 << j)) 0) as [E|E].
    + destruct (Z.eq_dec j n) as [|]; [done|].
      apply has_false in E. rewrite has_bit, Hones in E by lia. done.
    + destruct (Z.eq_dec j n) as [->|].
      * exfalso. apply has_true in E. rewrite has_bit in E by lia. congruence.
      * apply IH; try lia; auto. intros. apply Hones. lia.
Qed.

(** Every bounded number has a lowest clear bit. *)
Lemma lowest_clear w a :
  0 <= w -> fits w a ->
  exists n, 0 <= n <= w /\ (forall i, 0 <= i < n -> Z.testbit a i = true) /\
    Z.testbit a n = false.
Proof.
  intros Hw Ha.
  assert (Z.testbit a w = false) as Hc by (apply fits_testbit in Ha; [apply Ha; lia|lia]).
  assert ((forall i, 0 <= i < w -> Z.testbit a i = true) \/
          exists n, 0 <= n < w /\ (forall i, 0 <= i < n -> Z.testbit a i = true) /\
            Z.testbit a n = false) as [|(n & ? & ?)]; [|by exists w|exists n; lia || auto with lia].
  clear Ha Hc. revert w Hw. apply natlike_ind; [left; lia|].
  intros w Hw [Hall|(n & ? & ? & ?)]; [|right; exists n; repeat split; auto; lia].
  destruct (Z.testbit a w) eqn:E; [left|right; exists w; repeat split; auto; lia].
  intros i Hi. destruct (Z.eq_dec i w) as [->|]; [done|apply Hall; lia].
Qed.

(** Adding one flips the trailing ones and the bit above them. *)
Lemma lxor_succ a n :
  0 <= a -> 0 <= n -> (forall i, 0 <= i < n -> Z.testbit a i = true) -> Z.testbit a n = false ->
  a .^ (a + 1) = Z.ones (n + 1).
Proof.
  intros Ha Hn Hones Hz.
  assert (a = ((a >> (n + 1)) << (n + 1)) + Z.ones n) as Ea.
  { rewrite Z.add_nocarry_lxor by (apply land_shiftl_low; [lia|apply fits_ones; lia]).
    bits_ext i. destruct (Z.ltb_spec i n).
    - rewrite Hones, Z.testbit_neg_r by lia. done.
    - rewrite xorb_false_r. destruct (Z.ltb_spec (i - (n + 1)) 0).
      + rewrite (Z.testbit_neg_r (a >> _)) by lia. replace i with n by lia. done.
      + rewrite Z.shiftr_spec by lia. f_equal. lia. }
  set (q := a >> (n + 1)) in *.
  assert (a + 1 = (q << (n + 1)) + (1 << n)) as Eb.
  { rewrite Ea at 1. rewrite Z.shiftl_1_l, Z.ones_equiv. lia. }
  rewrite Eb. rewrite Ea at 1.
  rewrite (Z.add_nocarry_lxor _ (Z.ones n))
    by (apply land_shiftl_low; [lia|apply fits_ones; lia]).
  rewrite (Z.add_nocarry_lxor _ (1 << n))
    by (apply land_shiftl_low; [lia|apply fits_pow2; lia]).
  apply Z.bits_inj'. intros i ?.
  rewrite !Z.lxor_spec, shiftl_1_bit, !Z.testbit_ones_nonneg by lia.
  generalize (Z.testbit (q << (n + 1)) i) as b. intros b.
  bool_cases; destruct b; lia || done.
Qed.

(** The interval that the NAPOT decoding computes. *)
Lemma napot_range_spec pa n :
  fits 38 pa -> 0 <= n -> (forall i, 0 <= i < n -> Z.testbit pa i = true) ->
  Z.testbit pa n = false ->
  napot_range pa
  = mkPmpAddr ((pa >> (n + 1)) * 2 ^ (n + 3)) ((pa >> (n + 1)) * 2 ^ (n + 3) + 2 ^ (n + 3)).
Proof.
  intros Hpa Hn Hones Hz.
  assert (n <= 38) as Hn38.
  { destruct (Z.leb_spec n 38); [done|]. apply fits_testbit in Hpa as [_ Hpa]; [|lia].
    specialize (Hpa 38). rewrite Hones in Hpa by lia. discriminate Hpa; lia. }
  unfold napot_range. rewrite (count_trailing_ones_spec pa n) by (auto; lia).
  destruct (Z.leb_spec 64 (n + 3)); [lia|].
  assert (u64 (pa << 2) .&~ ((1 << (n + 3)) - 1) = (pa >> (n + 1)) * 2 ^ (n + 3)) as ->.
  { rewrite trunc_small.
    - rewrite Z.shiftl_1_l, <- Z.shiftl_mul_pow2 by lia.
      replace (2 ^ (n + 3) - 1) with (Z.ones (n + 3)) by (rewrite Z.ones_equiv; lia).
      rewrite Z.ldiff_ones_r, Z.shiftr_shiftl_r by lia. do 2 f_equal. lia.
    - apply fits_shiftl; [lia|]. apply (fits_mono 38); [lia|done]. }
  rewrite Z.shiftl_1_l.
  assert (0 <= pa >> (n + 1) < 2 ^ (38 - n)) as Hq.
  { rewrite Z.shiftr_div_pow2 by lia. destruct Hpa. split; [apply Z.div_pos; [lia|apply pow2_pos; lia]|].
    apply Z.div_lt_upper_bound; [apply pow2_pos; lia|]. rewrite <- Z.pow_add_r by lia.
    apply Z.lt_le_trans with (2 ^ 38); [lia|]. apply Z.pow_le_mono_r; lia. }
  assert (0 < 2 ^ (n + 3)) by (apply pow2_pos; lia).
  assert (2 ^ (38 - n) * 2 ^ (n + 3) = 2 ^ 41) as E41
      by (rewrite <- Z.pow_add_r by lia; f_equal; lia).
  assert (fits 64 ((pa >> (n + 1)) * 2 ^ (n + 3) + 2 ^ (n + 3))) as Hf.
  { unfold fits. change (2 ^ 64) with (2 ^ 23 * 2 ^ 41). nia. }
  rewrite (trunc_small _ _ Hf). case Z.leb_spec; [lia|done].
Qed.

(** *** Intervals and matching bytes *)

Lemma div_eq_iff a q d : 0 < d -> a / d = q <-> q * d <= a < q * d + d.
Proof.
  intros. split.
  - intros <-. pose proof (Z.div_mod a d). pose proof (Z.mod_pos_bound a d). lia.
  - intros. symmetry. apply Z.div_unique with (a - q * d); lia.
Qed.

Lemma pmp_entry_match s i e a :
  pmpaddrs_ok s -> 0 <= a -> pmp_entry s i = Some e ->
  pmp_match s i a = (lo e <=? a) && (a <? hi e).
Proof.
  intros Hok Ha. unfold pmp_entry, pmp_match.
  assert (forall k, fits 38 (aget 0 (csr_pmpaddr s) k)) as Hk by (intros; width).
  assert (forall k, u64 (aget 0 (csr_pmpaddr s) k << 2) = aget 0 (csr_pmpaddr s) k * 4) as Hs.
  { intros k. rewrite Z.shiftl_mul_pow2 by lia. apply trunc_small. specialize (Hk k).
    unfold fits in *. lia. }
  rewrite !Hs. set (pa := aget 0 (csr_pmpaddr s) i) in *. specialize (Hk i). fold pa in Hk.
  destruct (_ =? PMPCFG_A_OFF); [done|]. destruct (_ =? PMPCFG_A_TOR); [by intros [= <-]|].
  destruct (_ =? PMPCFG_A_NA4).
  - intros [= <-]. cbn [lo hi]. rewrite trunc_small by (unfold fits in *; lia).
    apply eq_true_iff_eq. rewrite Z.eqb_eq, andb_true_iff, Z.leb_le, Z.ltb_lt.
    apply div_eq_iff. lia.
  - intros [= <-]. destruct (lowest_clear 38 pa) as (n & Hn & Hones & Hz); [lia|done|].
    rewrite (napot_range_spec pa n), (lxor_succ pa n) by (auto; unfold fits in Hk; lia).
    cbn [lo hi]. rewrite !Z.ldiff_ones_r by lia.
    apply eq_true_iff_eq. rewrite Z.eqb_eq, andb_true_iff, Z.leb_le, Z.ltb_lt.
    rewrite <- div_eq_iff by (apply pow2_pos; lia).
    replace (2 ^ (n + 3)) with (4 * 2 ^ (n + 1))
      by (replace (n + 3) with (2 + (n + 1)) by lia; by rewrite (Z.pow_add_r 2 2) by lia).
    rewrite <- Z.div_div by (try (apply pow2_pos); lia).
    rewrite <- (Z.shiftr_div_pow2 (a / 4)) by lia.
    rewrite !(Z.shiftl_mul_pow2 _ (n + 1)) by lia. pose proof (pow2_pos (n + 1)). nia.
Qed.

Lemma pmp_entry_none s i : pmp_entry s i = None -> forall a, pmp_match s i a = false.
Proof.
  unfold pmp_entry, pmp_match. intros H a.
  destruct (_ =? PMPCFG_A_OFF); [done|]. destruct (_ =? PMPCFG_A_TOR); [done|].
  by destruct (_ =? PMPCFG_A_NA4).
Qed.

Lemma pmp_entry_nonempty s i e :
  pmpaddrs_ok s -> tor_nonempty_at s i -> pmp_entry s i = Some e -> lo e < hi e.
Proof.
  intros Hok Ht He. unfold tor_nonempty_at in Ht. rewrite He in Ht. revert He. unfold pmp_entry.
  assert (fits 38 (aget 0 (csr_pmpaddr s) i)) as Hk by width.
  destruct (Z.eqb_spec (pmp_cfg_byte s i .& PMPCFG_A_MASK) PMPCFG_A_OFF); [done|].
  destruct (Z.eqb_spec (pmp_cfg_byte s i .& PMPCFG_A_MASK) PMPCFG_A_TOR); [by auto|].
  destruct (_ =? PMPCFG_A_NA4); intros [= <-]; clear Ht; cbn [lo hi].
  - rewrite Z.shiftl_mul_pow2 by lia. unfold fits in *.
    rewrite !trunc_small; unfold fits; try rewrite trunc_small; unfold fits; lia.
  - destruct (lowest_clear 38 (aget 0 (csr_pmpaddr s) i)) as (k & Hn & Hones & Hz); [lia|done|].
    rewrite (napot_range_spec _ k) by (auto; lia). cbn [lo hi]. pose proof (pow2_pos (k + 3)). lia.
Qed.

(** The overlap test of the code finds an entry that matches a byte of the
    access. *)
Lemma pmp_overlap s i e paddr size :
  pmpaddrs_ok s -> tor_nonempty_at s i -> pmp_entry s i = Some e ->
  0 <= paddr -> 0 < size -> paddr + size <= 2 ^ 64 ->
  (lo e <=? u64 (paddr + size - 1)) && (paddr <? hi e)
  = existsb (pmp_match s i) (seqZ paddr size).
Proof.
  intros Hok Ht He Hp Hs Hend. rewrite trunc_small by (unfold fits; lia).
  pose proof (pmp_entry_nonempty s i e Hok Ht He).
  apply eq_true_iff_eq. rewrite andb_true_iff, Z.leb_le, Z.ltb_lt, existsb_exists. split.
  - intros [? ?]. exists (Z.max paddr (lo e)). split.
    + apply list_elem_of_In, elem_of_seqZ. lia.
    + rewrite (pmp_entry_match s i e) by (auto; lia).
      rewrite andb_true_iff, Z.leb_le, Z.ltb_lt. lia.
  - intros (a & Ha & Hm). apply list_elem_of_In, elem_of_seqZ in Ha.
    rewrite (pmp_entry_match s i e), andb_true_iff, Z.leb_le, Z.ltb_lt in Hm by (auto; lia). lia.
Qed.

(** *** The dense arrays *)

Lemma take_insert_len {A} (l : list A) n x :
  (n < length l)%nat -> take (S n) (<[n := x]> l) = take n l ++ [x].
Proof.
  intros. rewrite (take_S_r _ _ x) by (by apply list_lookup_insert_eq).
  by rewrite take_insert_ge by lia.
Qed.

Lemma unpack_step_csrs s i :
  csr_pmpcfg (unpack_step s i) = csr_pmpcfg s /\ csr_pmpaddr (unpack_step s i) = csr_pmpaddr s.
Proof. unfold unpack_step. by destruct (pmp_entry s i). Qed.

Lemma pmp_entry_ext s s' i :
  csr_pmpcfg s' = csr_pmpcfg s -> csr_pmpaddr s' = csr_pmpaddr s ->
  pmp_entry s' i = pmp_entry s i /\ pmp_cfg_byte s' i = pmp_cfg_byte s i.
Proof. intros E1 E2. unfold pmp_entry, pmp_cfg_byte. by rewrite E1, E2. Qed.

Lemma unpack_fold l s :
  length (pmp s) = 16%nat -> length (pmpcfg s) = 16%nat -> (pmp_n s + length l <= 16)%nat ->
  let s' := fold_left unpack_step l s in
  csr_pmpcfg s' = csr_pmpcfg s /\ csr_pmpaddr s' = csr_pmpaddr s /\
  take (pmp_n s') (pmp s') = take (pmp_n s) (pmp s) ++ omap (pmp_entry s) l /\
  take (pmp_n s') (pmpcfg s') =
    take (pmp_n s) (pmpcfg s) ++ omap (fun i => (fun _ => pmp_cfg_byte s i) <$> pmp_entry s i) l.
Proof.
  revert s. induction l as [|i l IH]; intros s H1 H2 Hn; cbn [fold_left].
  - cbn. by rewrite !app_nil_r.
  - cbn [length] in Hn. destruct (unpack_step_csrs s i) as [E1 E2].
    assert (forall j, pmp_entry (unpack_step s i) j = pmp_entry s j /\
              pmp_cfg_byte (unpack_step s i) j = pmp_cfg_byte s j) as Hext
        by (intros; by apply pmp_entry_ext).
    specialize (IH (unpack_step s i)). rewrite E1, E2 in IH.
    rewrite (omap_eq _ (pmp_entry s) l) in IH by (intros; apply Hext).
    rewrite (omap_eq (fun j => (fun _ => pmp_cfg_byte (unpack_step s i) j) <$> _)
               (fun j => (fun _ => pmp_cfg_byte s j) <$> pmp_entry s j) l) in IH
        by (intros j; destruct (Hext j) as [-> ->]; done).
    revert IH. unfold unpack_step. cbn [omap list_omap].
    destruct (pmp_entry s i) as [e|]; cpu_simpl; intros IH.
    + rewrite !take_insert_len, <- !app_assoc in IH by lia.
      apply IH; rewrite ?length_insert; lia.
    + apply IH; lia.
Qed.

Lemma pmp_synced_ext s s' :
  csr_pmpcfg s' = csr_pmpcfg s -> csr_pmpaddr s' = csr_pmpaddr s ->
  take (pmp_n s') (pmp s') = omap (pmp_entry s) (seqZ 0 16) ->
  take (pmp_n s') (pmpcfg s') =
    omap (fun i => (fun _ => pmp_cfg_byte s i) <$> pmp_entry s i) (seqZ 0 16) ->
  pmp_synced s'.
Proof.
  intros Ec Ea H1 H2. split; [rewrite H1|rewrite H2]; apply omap_eq; intros j;
    destruct (pmp_entry_ext s s' j) as [-> E]; rewrite ?E; auto.
Qed.

Lemma tlb_flush_all_synced s : pmp_synced s -> pmp_synced (tlb_flush_all s).
Proof. intros [H1 H2]. by apply (pmp_synced_ext s). Qed.

Lemma unpack_fold_synced s :
  pmp_n s = 0%nat -> length (pmp s) = 16%nat -> length (pmpcfg s) = 16%nat ->
  pmp_synced (fold_left unpack_step (seqZ 0 16) s).
Proof.
  intros Hn H1 H2.
  pose proof (unpack_fold (seqZ 0 16) s H1 H2 ltac:(rewrite Hn, length_seqZ; lia)) as H.
  revert H. generalize (fold_left unpack_step (seqZ 0 16) s). rewrite Hn. rewrite !take_0, !app_nil_l.
  intros s' (Ec & Ea & Hp & Hc). exact (pmp_synced_ext s s' Ec Ea Hp Hc).
Qed.

Lemma unpack_pmpaddrs_synced s :
  length (pmp s) = 16%nat -> length (pmpcfg s) = 16%nat -> pmp_synced (unpack_pmpaddrs s).
Proof. intros. by apply tlb_flush_all_synced, unpack_fold_synced. Qed.

Lemma drop_take_cons {A} (l : list A) n k x t d :
  drop k (take n l) = x :: t -> nth k l d = x /\ drop (S k) (take n l) = t.
Proof.
  intros H. split.
  - assert (drop k (take n l) !! 0%nat = Some x) as E by (by rewrite H).
    rewrite lookup_drop, Nat.add_0_r, lookup_take_Some in E. rewrite nth_lookup.
    by destruct E as [-> _].
  - by rewrite <- (Nat.add_1_r k), <- drop_drop, H.
Qed.

(** The dense loop decides by the first listed entry that overlaps. *)
Lemma pmp_loop_find s p paddr size perm (l : list Z) k :
  pmpaddrs_ok s -> Forall (tor_nonempty_at s) l ->
  0 <= paddr -> 0 < size -> paddr + size <= 2 ^ 64 ->
  drop k (take (pmp_n s) (pmp s)) = omap (pmp_entry s) l ->
  drop k (take (pmp_n s) (pmpcfg s))
    = omap (fun i => (fun _ => pmp_cfg_byte s i) <$> pmp_entry s i) l ->
  pmp_loop s p paddr size perm k (length (omap (pmp_entry s) l))
  = match List.find (fun i => existsb (pmp_match s i) (seqZ paddr size)) l with
    | Some i => Some (if (p <? PRV_M) || has (pmp_cfg_byte s i) PMPCFG_L
                      then (perm .& pmp_cfg_byte s i) =? perm else true)
    | None => None
    end.
Proof.
  intros Hok Ht Hp Hs He. revert k.
  induction Ht as [|i l Hi _ IH]; intros k H1 H2; [done|].
  cbn [omap list_omap List.find] in *. destruct (pmp_entry s i) as [e|] eqn:Ei.
  - cbn [length pmp_loop fmap option_fmap option_map] in *.
    apply (drop_take_cons _ _ _ _ _ no_pmp) in H1 as [-> H1].
    apply (drop_take_cons _ _ _ _ _ 0) in H2 as [-> H2].
    rewrite (pmp_overlap s i e) by auto.
    destruct (existsb _ _); [by destruct (_ || _)|]. by apply IH.
  - replace (existsb (pmp_match s i) (seqZ paddr size)) with false; [by apply IH|].
    symmetry. apply not_true_iff_false. rewrite existsb_exists. intros (a & _ & Ha).
    by rewrite pmp_entry_none in Ha.
Qed.


(** ** Locked entries *)

Inductive pmp_write := WCfg (c v : Z) | WAddr (n v : Z).

Definition pmp_do_write (s : RISCVCPUState) (w : pmp_write) : RISCVCPUState :=
  match w with
  | WCfg c v => csr_write_pmpcfg s c v
  | WAddr n v => csr_write_pmpaddr s n v
  end.

(** The writes [csr_write] dispatches: [pmpcfg0], [pmpcfg2] and [pmpaddr0..15]. *)
Definition pmp_write_ok (w : pmp_write) : Prop :=
  match w with
  | WCfg c _ => c = 0 \/ c = 2
  | WAddr n _ => 0 <= n < 16
  end.

Definition pmp_locked (s : RISCVCPUState) (i : Z) : Prop := has (pmp_cfg_byte s i) PMPCFG_L = true.

(** The reserved bits of every configuration byte are clear. *)
Definition pmp_res_clear (s : RISCVCPUState) : Prop :=
  forall i, 0 <= i < 8 -> pmp_cfg_byte s i .& PMPCFG_RES = 0.

Lemma fold_lor_bit (f : Z -> Z) l acc j :
  0 <= j -> Forall (fun k => 0 <= k) l ->
  Z.testbit (fold_left (fun a k => a .| (f k << (k * 8))) l acc) j
  = Z.testbit acc j || existsb (fun k => Z.testbit (f k) (j - k * 8)) l.
Proof.
  intros Hj. revert acc. induction l as [|k l IH]; intros acc Hl; cbn [fold_left existsb].
  - by rewrite orb_false_r.
  - inversion_clear Hl. rewrite IH by done.
    rewrite Z.lor_spec, Z.shiftl_spec by lia. by rewrite orb_assoc.
Qed.

Lemma pmpcfg_byte_fits orig v i : fits 8 (pmpcfg_byte orig v i).
Proof.
  unfold pmpcfg_byte. apply fits_ldiff; [lia|]. destruct (_ =? 0);
    change 255 with (Z.ones 8); rewrite <- trunc_ones by lia; width.
Qed.

Lemma pmpcfg_merge_byte orig v i :
  0 <= i < 8 -> u8 (pmpcfg_merge orig v >> (i * 8)) = pmpcfg_byte orig v i.
Proof.
  intros Hi. bits_ext j. destruct (Z.ltb_spec j 8); cbn [andb].
  - unfold pmpcfg_merge. rewrite fold_lor_bit; [|lia|].
    2: { apply Forall_forall. intros k Hk%elem_of_seqZ. lia. }
    rewrite Z.bits_0. cbn [orb]. apply eq_true_iff_eq. rewrite existsb_exists. split.
    + intros (k & Hk & Hb). apply list_elem_of_In, elem_of_seqZ in Hk.
      destruct (Z.eq_dec k i) as [->|]; [by replace (j + i * 8 - i * 8) with j in Hb by lia|].
      destruct (Z.ltb_spec (j + i * 8 - k * 8) 0); [by rewrite Z.testbit_neg_r in Hb by lia|].
      pose proof (pmpcfg_byte_fits orig v k) as Hf. apply fits_testbit in Hf as [_ Hf]; [|lia].
      rewrite Hf in Hb; [done|lia].
    + intros Hb. exists i. split; [apply list_elem_of_In, elem_of_seqZ; lia|].
      by replace (j + i * 8 - i * 8) with j by lia.
  - pose proof (pmpcfg_byte_fits orig v i) as Hf. apply fits_testbit in Hf as [_ Hf]; [|lia].
    by rewrite Hf by lia.
Qed.

Lemma fold_unpack_keeps l s :
  csr_pmpcfg (fold_left unpack_step l s) = csr_pmpcfg s /\
  csr_pmpaddr (fold_left unpack_step l s) = csr_pmpaddr s.
Proof.
  revert s. induction l as [|i l IH]; intros s; [done|]. cbn [fold_left].
  destruct (IH (unpack_step s i)) as [-> ->]. apply unpack_step_csrs.
Qed.

Lemma tlb_flush_all_csrs s :
  csr_pmpcfg (tlb_flush_all s) = csr_pmpcfg s /\ csr_pmpaddr (tlb_flush_all s) = csr_pmpaddr s.
Proof. done. Qed.

Lemma unpack_keeps s :
  csr_pmpcfg (unpack_pmpaddrs s) = csr_pmpcfg s /\
  csr_pmpaddr (unpack_pmpaddrs s) = csr_pmpaddr s.
Proof.
  pose proof (fold_unpack_keeps (seqZ 0 16) (s <| pmp_n := 0%nat |>)) as H.
  revert H. unfold unpack_pmpaddrs.
  generalize (fold_left unpack_step (seqZ 0 16) (s <| pmp_n := 0%nat |>)).
  intros s' [H1 H2]. destruct (tlb_flush_all_csrs s') as [E1 E2].
  rewrite E1, E2, H1, H2. auto.
Qed.

(** The CSR arrays after one write. *)
Lemma pmp_do_write_csrs s w :
  csr_pmpcfg (pmp_do_write s w) =
    match w with
    | WCfg c v => if PMP_N <=? c / 2 * 8 then csr_pmpcfg s
                  else aset (csr_pmpcfg s) c (pmpcfg_merge (aget 0 (csr_pmpcfg s) c) v)
    | WAddr _ _ => csr_pmpcfg s
    end /\
  (csr_pmpaddr (pmp_do_write s w) = csr_pmpaddr s \/
   exists n v, w = WAddr n v /\ n < PMP_N /\
     csr_pmpaddr (pmp_do_write s w) = aset (csr_pmpaddr s) n (v .& PMPADDR_MASK) /\
     has (aget 0 (csr_pmpcfg s) (n / 8) >> (n * 8)) PMPCFG_L = false /\
     ((((aget 0 (csr_pmpcfg s) (n / 8) >> (n * 8)) >> 8) .& PMPCFG_A_MASK) =? PMPCFG_A_TOR)
       && has ((aget 0 (csr_pmpcfg s) (n / 8) >> (n * 8)) >> 8) PMPCFG_L = false).
Proof.
  destruct w as [c v|n v]; cbn [pmp_do_write].
  - unfold csr_write_pmpcfg. destruct (_ <=? _); [by auto|].
    destruct (unpack_keeps (s <| csr_pmpcfg ::= fun l => aset l c (pmpcfg_merge (aget 0 l c) v) |>))
      as [-> ->]. by auto.
  - unfold csr_write_pmpaddr. destruct (Z.leb_spec PMP_N n); [by auto|].
    destruct (has (_ >> (n * 8)) PMPCFG_L) eqn:El; [by auto|].
    destruct ((_ =? _) && _) eqn:Et; [by auto|].
    destruct (unpack_keeps (s <| csr_pmpaddr ::= fun l => aset l n (v .& PMPADDR_MASK) |>))
      as [-> ->]. split; [done|]. right. exists n, v. by auto.
Qed.

(** Entry [i < 8] reads byte [i] of [pmpcfg0]. *)
Lemma cfg_byte_low s i : 0 <= i < 8 -> pmp_cfg_byte s i = u8 (aget 0 (csr_pmpcfg s) 0 >> (i * 8)).
Proof. intros. unfold pmp_cfg_byte. by replace (i <? 8) with true by (symmetry; apply Z.ltb_lt; lia). Qed.

Lemma land_u8 x m : fits 8 m -> u8 x .& m = x .& m.
Proof.
  intros. rewrite trunc_ones, <- Z.land_assoc, (Z.land_comm (Z.ones 8)), land_ones_small by (done || lia).
  done.
Qed.

Lemma pmp_do_write_cfg s w i :
  pmp_write_ok w -> length (csr_pmpcfg s) = 4%nat -> 0 <= i < 8 ->
  pmp_res_clear s -> pmp_locked s i -> pmp_cfg_byte (pmp_do_write s w) i = pmp_cfg_byte s i.
Proof.
  intros Hw Hlen Hi Hres Hlock. rewrite !cfg_byte_low by done.
  destruct (pmp_do_write_csrs s w) as [-> _]. destruct w as [c v|]; [|done].
  destruct (PMP_N <=? c / 2 * 8) eqn:Ec; [done|].
  destruct Hw as [->| ->]; [|done].
  rewrite aget_aset_eq, pmpcfg_merge_byte by (rewrite ?Hlen; lia).
  specialize (Hres i Hi). unfold pmp_locked in Hlock. rewrite cfg_byte_low in Hlock, Hres by done.
  unfold pmpcfg_byte. change 255 with (Z.ones 8). rewrite <- trunc_ones by lia.
  apply has_true in Hlock. destruct (Z.eqb_spec (u8 (aget 0 (csr_pmpcfg s) 0 >> (i * 8)) .& PMPCFG_L) 0);
    [done|].
  clear - Hres. revert Hres. generalize (u8 (aget 0 (csr_pmpcfg s) 0 >> (i * 8))). intros b Hb.
  apply Z.bits_inj'. intros j Hj. rewrite Z.ldiff_spec.
  assert (Z.testbit (b .& PMPCFG_RES) j = false) as E by (rewrite Hb; apply Z.bits_0).
  rewrite Z.land_spec in E. by destruct (Z.testbit b j), (Z.testbit PMPCFG_RES j).
Qed.

Lemma pmpcfg_byte_res orig v i : pmpcfg_byte orig v i .& PMPCFG_RES = 0.
Proof.
  unfold pmpcfg_byte. generalize (if ((orig >> (i * 8)) .& 255) .& PMPCFG_L =? 0
    then (v >> (i * 8)) .& 255 else (orig >> (i * 8)) .& 255).
  intros b. bits_ext j. by destruct (Z.testbit b j), (Z.testbit PMPCFG_RES j).
Qed.

Lemma pmp_do_write_res s w :
  pmp_write_ok w -> length (csr_pmpcfg s) = 4%nat -> pmp_res_clear s ->
  pmp_res_clear (pmp_do_write s w).
Proof.
  intros Hw Hlen Hres i Hi. specialize (Hres i Hi). revert Hres. rewrite !cfg_byte_low by done.
  destruct (pmp_do_write_csrs s w) as [-> _]. destruct w as [c v|]; [|done].
  destruct (PMP_N <=? c / 2 * 8) eqn:Ec; [done|]. destruct Hw as [->| ->]; [|done].
  intros _. rewrite aget_aset_eq, pmpcfg_merge_byte by (rewrite ?Hlen; lia).
  apply pmpcfg_byte_res.
Qed.

Lemma pmp_do_write_len s w :
  length (csr_pmpcfg (pmp_do_write s w)) = length (csr_pmpcfg s).
Proof.
  destruct (pmp_do_write_csrs s w) as [-> _]. destruct w; [|done].
  destruct (_ <=? _); [done|apply length_aset].
Qed.

(** The guard of the address writer, on configuration bytes. *)
Lemma pmpaddr_guard s n m :
  0 <= n -> n < 8 -> fits 8 m ->
  (aget 0 (csr_pmpcfg s) (n / 8) >> (n * 8)) .& m = pmp_cfg_byte s n .& m.
Proof.
  intros Hn Hn8 Hm. rewrite cfg_byte_low, land_u8 by (done || lia).
  by rewrite Z.div_small by lia.
Qed.

Lemma pmpaddr_guard_next s n m :
  0 <= n -> n + 1 < 8 -> fits 8 m ->
  ((aget 0 (csr_pmpcfg s) (n / 8) >> (n * 8)) >> 8) .& m = pmp_cfg_byte s (n + 1) .& m.
Proof.
  intros Hn Hn8 Hm. rewrite cfg_byte_low, land_u8 by (done || lia).
  rewrite Z.div_small, Z.shiftr_shiftr by lia. do 2 f_equal. lia.
Qed.

Lemma pmp_do_write_addr s w i :
  pmp_write_ok w -> 0 <= i < 8 -> pmp_locked s i ->
  aget 0 (csr_pmpaddr (pmp_do_write s w)) i = aget 0 (csr_pmpaddr s) i.
Proof.
  intros Hw Hi Hlock. destruct (pmp_do_write_csrs s w) as [_ [->|(n & v & -> & Hn & -> & Hl & _)]];
    [done|]. cbn in Hw, Hn.
  apply aget_aset_ne; [lia|lia|]. intros ->. unfold has in Hl.
  rewrite pmpaddr_guard in Hl by (unfold fits, PMPCFG_L; lia).
  unfold pmp_locked, has in Hlock. congruence.
Qed.

Lemma pmp_do_write_base s w i :
  pmp_write_ok w -> 0 < i < 8 -> pmp_locked s i ->
  pmp_cfg_byte s i .& PMPCFG_A_MASK = PMPCFG_A_TOR ->
  aget 0 (csr_pmpaddr (pmp_do_write s w)) (i - 1) = aget 0 (csr_pmpaddr s) (i - 1).
Proof.
  intros Hw Hi Hlock Htor.
  destruct (pmp_do_write_csrs s w) as [_ [->|(n & v & -> & Hn & -> & _ & Ht)]]; [done|].
  cbn in Hw, Hn. apply aget_aset_ne; [lia|lia|]. intros ->. unfold has in Ht.
  rewrite !pmpaddr_guard_next in Ht by (unfold fits, PMPCFG_L, PMPCFG_A_MASK; lia).
  replace (i - 1 + 1) with i in Ht by lia. rewrite Htor in Ht.
  unfold pmp_locked, has in Hlock. rewrite Hlock in Ht. done.
Qed.

Lemma pmp_do_write_entry s w i :
  pmp_write_ok w -> length (csr_pmpcfg s) = 4%nat -> 0 <= i < 8 ->
  pmp_res_clear s -> pmp_locked s i -> pmp_entry (pmp_do_write s w) i = pmp_entry s i.
Proof.
  intros Hw Hlen Hi Hres Hlock. unfold pmp_entry.
  rewrite (pmp_do_write_cfg s w i), (pmp_do_write_addr s w i) by done.
  destruct (_ =? PMPCFG_A_OFF); [done|].
  destruct (Z.eqb_spec (pmp_cfg_byte s i .& PMPCFG_A_MASK) PMPCFG_A_TOR) as [E|]; [|done].
  destruct (Z.eqb_spec i 0); [done|]. by rewrite pmp_do_write_base by (done || lia).
Qed.

(** C18 A locked PMP entry cannot be changed: whatever sequence of [pmpcfg] and
    [pmpaddr] CSR writes follows, its configuration byte and the interval it
    protects (with the lower bound that a top-of-range entry takes from its
    neighbour) are those it was locked with. *)
Theorem pmp_lock_is_permanent s ws i :
  Forall pmp_write_ok ws -> length (csr_pmpcfg s) = 4%nat -> pmp_res_clear s ->
  0 <= i < 8 -> pmp_locked s i ->
  let s' := fold_left pmp_do_write ws s in
  pmp_cfg_byte s' i = pmp_cfg_byte s i /\ pmp_entry s' i = pmp_entry s i.
Proof.
  intros Hws. revert s. induction Hws as [|w ws Hw _ IH]; intros s Hlen Hres Hi Hlock; [done|].
  cbn [fold_left]. destruct (IH (pmp_do_write s w)) as [-> ->]; try done.
  - by rewrite pmp_do_write_len.
  - by apply pmp_do_write_res.
  - unfold pmp_locked. by rewrite pmp_do_write_cfg.
  - by rewrite pmp_do_write_cfg, pmp_do_write_entry.
Qed.

(** *** A machine with a locked region, used by the witnesses *)

(** Entry 0: a locked NAPOT region of 8 kB at 0x80000000, read only; entry 1: a
    top-of-range region up to 0x80010000, read/write/execute. *)
Definition pmp_demo : RISCVCPUState :=
  csr_write_pmpcfg
    (csr_write_pmpaddr
       (csr_write_pmpaddr (zero_cpu <| physical_addr_len := 56 |>) 0 0x200003ff)
       1 0x20004000) 0 0x0f99.

Lemma pmp_demo_facts :
  length (csr_pmpcfg pmp_demo) = 4%nat /\ pmp_n pmp_demo = 2%nat /\
  length (pmp pmp_demo) = 16%nat /\ pmp_synced pmp_demo /\ pmpaddrs_ok pmp_demo /\
  tor_nonempty pmp_demo.
Proof.
  repeat split; try vm_decide.
  unfold tor_nonempty. repeat (constructor; [vm_compute; done|]). constructor.
Qed.


(** Entry 0 of [pmp_demo] is locked: rewriting its configuration and address
    changes nothing. *)
Lemma pmp_lock_is_permanent_witness :
  let s' := fold_left pmp_do_write [WCfg 0 0; WAddr 0 0; WAddr 1 7; WCfg 2 255] pmp_demo in
  pmp_cfg_byte s' 0 = pmp_cfg_byte pmp_demo 0 /\ pmp_entry s' 0 = pmp_entry pmp_demo 0.
Proof.
  apply (pmp_lock_is_permanent pmp_demo [WCfg 0 0; WAddr 0 0; WAddr 1 7; WCfg 2 255] 0).
  - repeat constructor; cbn; lia.
  - apply pmp_demo_facts.
  - intros i Hi. assert (In i (seqZ 0 8)) as H by (apply list_elem_of_In, elem_of_seqZ; lia).
    cbn in H. repeat destruct H as [<-|H]; try reflexivity. destruct H.
  - lia.
  - reflexivity.
Defined.

(** Entry 1 is an empty top-of-range region at 0x1004 that grants everything. *)
Definition pmp_empty_tor : RISCVCPUState :=
  csr_write_pmpcfg
    (csr_write_pmpaddr
       (csr_write_pmpaddr (zero_cpu <| physical_addr_len := 56 |>) 0 0x401) 1 0x401) 0 0x0f00.

(** The side condition on empty regions is needed: an enabled top-of-range
    entry whose bounds coincide matches no address, yet an access that straddles
    the bound is granted by it in U mode, where the architecture denies it. *)
Theorem pmp_empty_tor_grants_straddling_access :
  priv pmp_empty_tor = PRV_U /\ pmp_synced pmp_empty_tor /\
  (forall a, pmp_match pmp_empty_tor 1 a = false) /\
  riscv_cpu_pmp_access_ok pmp_empty_tor 0x1000 8 PMPCFG_W = true /\
  pmp_spec pmp_empty_tor 0x1000 8 PMPCFG_W = false.
Proof.
  repeat split. intros a.
  change (pmp_match pmp_empty_tor 1 a) with ((0x1004 <=? a) && (a <? 0x1004)).
  destruct (Z.leb_spec 0x1004 a), (Z.ltb_spec a 0x1004); done || lia.
Qed.
