(* ===== verification/Csr.v ===== *)
(** * Control and status registers ([csr_read], [csr_write] of [src/riscv_cpu.cpp])

    The two [switch] statements are split in two: [csr_of_num] is the list of
    case labels, [csr_read_switch] and [csr_write_switch] are the bodies.  The
    optional hooks of [RISCVMachineHooks] are function pointers that no code of
    the repository sets; they are an argument of [csr_read] and [csr_write]. *)

From S2P Require Import Prelude Cpu Pmp.

(** ** Case labels *)

Inductive csr_id :=
| C_fflags | C_frm | C_fcsr
| C_vstart | C_vxsat | C_vxrm | C_vcsr
| C_sstatus | C_sie | C_stvec | C_scounteren
| C_sscratch | C_sepc | C_scause | C_stval | C_sip | C_satp
| C_mstatus | C_misa | C_medeleg | C_mideleg | C_mie | C_mtvec | C_mcounteren | C_mcountinhibit
| C_mscratch | C_mepc | C_mcause | C_mtval | C_mip
| C_tselect | C_tdata1 | C_tdata2
| C_dcsr | C_dpc | C_dscratch
| C_mcycle | C_cycle | C_minstret | C_instret | C_mhpmcounter | C_hpmcounter
| C_vl | C_vtype | C_vlenb
| C_mhartid | C_mimpid | C_marchid | C_mvendorid
| C_mhpmevent
| C_pmpcfg (c : Z) | C_pmpaddr (n : Z).

(** Single-number labels. *)
Definition csr_labels : list (Z * csr_id) :=
  [ (0x001, C_fflags); (0x002, C_frm); (0x003, C_fcsr);
    (0x008, C_vstart); (0x009, C_vxsat); (0x00A, C_vxrm); (0x00F, C_vcsr);
    (0x100, C_sstatus); (0x104, C_sie); (0x105, C_stvec); (0x106, C_scounteren);
    (0x140, C_sscratch); (0x141, C_sepc); (0x142, C_scause); (0x143, C_stval);
    (0x144, C_sip); (0x180, C_satp);
    (0x300, C_mstatus); (0x301, C_misa); (0x302, C_medeleg); (0x303, C_mideleg);
    (0x304, C_mie); (0x305, C_mtvec); (0x306, C_mcounteren); (0x320, C_mcountinhibit);
    (0x340, C_mscratch); (0x341, C_mepc); (0x342, C_mcause); (0x343, C_mtval); (0x344, C_mip);
    (0x7a0, C_tselect); (0x7a1, C_tdata1); (0x7a2, C_tdata2);
    (0x7b0, C_dcsr); (0x7b1, C_dpc); (0x7b2, C_dscratch);
    (0xb00, C_mcycle); (0xc00, C_cycle); (0xb02, C_minstret); (0xc02, C_instret);
    (0xc20, C_vl); (0xc21, C_vtype); (0xc22, C_vlenb);
    (0xf14, C_mhartid); (0xf13, C_mimpid); (0xf12, C_marchid); (0xf11, C_mvendorid);
    (0x3a0, C_pmpcfg 0); (0x3a2, C_pmpcfg 2) ].

Definition in_range (a x b : Z) : bool := (a <=? x) && (x <=? b).

Definition csr_of_num (csr : Z) : option csr_id :=
  match List.find (fun p => p.1 =? csr) csr_labels with
  | Some p => Some p.2
  | None =>
      if in_range 0xb03 csr 0xb1f then Some C_mhpmcounter
      else if in_range 0xc03 csr 0xc1f then Some C_hpmcounter
      else if in_range 0x323 csr 0x33f then Some C_mhpmevent
      else if in_range 0x3b0 csr 0x3bf then Some (C_pmpaddr (csr - CSR_PMPADDR 0))
      else None
  end.

(** ** [mstatus] *)

Definition SSTATUS_MASK : Z :=
  MSTATUS_SIE .| MSTATUS_SPIE .| MSTATUS_SPP .| MSTATUS_VS .| MSTATUS_FS .| MSTATUS_SUM
  .| MSTATUS_MXR .| MSTATUS_UXL_MASK.

Definition MSTATUS_MASK : Z :=
  MSTATUS_SIE .| MSTATUS_MIE .| MSTATUS_SPIE .| MSTATUS_MPIE .| MSTATUS_SPP .| MSTATUS_MPP
  .| MSTATUS_VS .| MSTATUS_FS .| MSTATUS_MPRV .| MSTATUS_SUM .| MSTATUS_MXR .| MSTATUS_TVM
  .| MSTATUS_TW .| MSTATUS_TSR .| MSTATUS_UXL_MASK .| MSTATUS_SXL_MASK.

Definition get_mstatus (s : RISCVCPUState) (mask : Z) : Z :=
  let val := (mstatus s .| (fs s << MSTATUS_FS_SHIFT) .| (vs s << MSTATUS_VS_SHIFT)) .& mask in
  let sd := ((val .& MSTATUS_VS) =? MSTATUS_VS) || ((val .& MSTATUS_FS) =? MSTATUS_FS)
            || ((val .& MSTATUS_XS) =? MSTATUS_XS) in
  if sd then val .| (1 << 63) else val.

(** The bits of [mstatus] that are kept in the [mstatus] member and writable. *)
Definition MSTATUS_WMASK : Z :=
  MSTATUS_MASK .&~ (MSTATUS_FS .| MSTATUS_VS .| MSTATUS_UXL_MASK .| MSTATUS_SXL_MASK).

Definition set_mstatus (s : RISCVCPUState) (val : Z) : RISCVCPUState :=
  let modif := mstatus s .^ val in
  let s1 := if has modif (MSTATUS_MPRV .| MSTATUS_SUM .| MSTATUS_MXR)
               || (has (mstatus s) MSTATUS_MPRV && has modif MSTATUS_MPP)
            then tlb_flush_all s else s in
  s1 <| fs := (val >> MSTATUS_FS_SHIFT) .& 3 |>
     <| vs := (val >> MSTATUS_VS_SHIFT) .& 3 |>
     <| mstatus := merge (mstatus s) val MSTATUS_WMASK |>.

Definition counter_access_ok (s : RISCVCPUState) (csr : Z) : bool :=
  let counteren :=
    if priv s =? PRV_U then scounteren s
    else if priv s =? PRV_S then mcounteren s
    else if priv s =? PRV_M then 0xffffffff
    else 0 in
  nz ((counteren >> (csr .& 31)) .& 1).

(** Sign extension from bit 48, as an unsigned 64-bit value. *)
Definition CANONICAL_S49 (v : Z) : Z := u64 (sgn 49 v).

(** ** Reading *)

(** The [switch] of [csr_read]; [None] is [return -1]. *)
Definition csr_read_case (s : RISCVCPUState) (csr : Z) (id : csr_id) : option Z :=
  let if_fs v := if fs s =? 0 then None else Some v in
  let if_vs v := if vs s =? 0 then None else Some v in
  let if_debug v := if debug_mode s then Some v else None in
  let if_counter v := if counter_access_ok s csr then Some v else None in
  match id with
  | C_fflags => if_fs (fflags s)
  | C_frm => if_fs (frm s)
  | C_fcsr => if_fs (fflags s .| (frm s << 5))
  | C_vstart => if_vs (vstart s)
  | C_vxsat => if_vs (vxsat s)
  | C_vxrm => if_vs (vxrm s)
  | C_vcsr => if_vs (vxsat s .| (vxrm s << 1))
  | C_sstatus => Some (get_mstatus s SSTATUS_MASK)
  | C_sie => Some (mie s .& mideleg s)
  | C_stvec => Some (stvec s)
  | C_scounteren => Some (scounteren s)
  | C_sscratch => Some (sscratch s)
  | C_sepc => Some (sepc s)
  | C_scause => Some (scause s)
  | C_stval => Some (stval s)
  | C_sip => Some (mip s .& mideleg s)
  | C_satp => if (priv s =? PRV_S) && has (mstatus s) MSTATUS_TVM then None
              else Some (satp s)
  | C_mstatus => Some (get_mstatus s (2 ^ 64 - 1))
  | C_misa => Some (misa s .| u64 (2 << 62))
  | C_medeleg => Some (medeleg s)
  | C_mideleg => Some (mideleg s)
  | C_mie => Some (mie s)
  | C_mtvec => Some (mtvec s)
  | C_mcounteren => Some (mcounteren s)
  | C_mcountinhibit => Some (mcountinhibit s)
  | C_mscratch => Some (mscratch s)
  | C_mepc => Some (mepc s)
  | C_mcause => Some (mcause s)
  | C_mtval => Some (mtval s)
  | C_mip => Some (mip s)
  | C_tselect => Some (tselect s)
  | C_tdata1 => Some (aget 0 (tdata1 s) (tselect s))
  | C_tdata2 => Some (aget 0 (tdata2 s) (tselect s))
  | C_dcsr => if_debug (dcsr s)
  | C_dpc => if_debug (dpc s)
  | C_dscratch => if_debug (dscratch s)
  | C_mcycle | C_cycle => if_counter (mcycle s)
  | C_minstret | C_instret => if_counter (minstret s)
  | C_mhpmcounter | C_hpmcounter => if_counter 0
  | C_vl => if_vs (vl s)
  | C_vtype => if_vs (vtype s)
  | C_vlenb => if_vs (VLEN / 8)
  | C_mhartid => Some (mhartid s)
  | C_mimpid => Some (mimpid s)
  | C_marchid => Some (marchid s)
  | C_mvendorid => Some (mvendorid s)
  | C_mhpmevent => Some (aget 0 (mhpmevent s) (csr .& 0x1f))
  | C_pmpcfg c => Some (aget 0 (csr_pmpcfg s) c)
  | C_pmpaddr n => Some (aget 0 (csr_pmpaddr s) n)
  end.

Definition csr_read_switch (s : RISCVCPUState) (csr : Z) : option Z :=
  match csr_of_num csr with
  | None => None
  | Some id => csr_read_case s csr id
  end.

(** ** Writing *)

Definition VSTART_MASK : Z := VLEN - 1.
Definition VXSAT_MASK : Z := 1.
Definition VXRM_MASK : Z := 3.
Definition VCSR_VXSAT : Z := VXSAT_MASK.
Definition VCSR_VXRM : Z := VXRM_MASK << 1.
Definition VCSR_MASK : Z := VCSR_VXRM .| VCSR_VXSAT.

(** [if (val & 1) val &= ~255 + 1]. *)
Definition tvec_align (val : Z) : Z := if has val 1 then val .&~ 0xfe else val.

Definition MEDELEG_MASK : Z := 0xB109.
Definition MIDELEG_MASK : Z := MIP_SSIP .| MIP_STIP .| MIP_SEIP.
Definition MIE_MASK : Z :=
  MIP_MCIP .| MIP_MEIP .| MIP_SEIP .| MIP_MTIP .| MIP_STIP .| MIP_MSIP .| MIP_SSIP.
Definition MIP_WMASK : Z := MIP_SEIP .| MIP_STIP .| MIP_SSIP.

(** 0: written; 2: written and the TLBs flushed; -1: invalid CSR. *)
Inductive csr_result := CsrOk | CsrFlushed | CsrInvalid.

Definition csr_write_tdata1 (s : RISCVCPUState) (val : Z) : RISCVCPUState :=
  let t := aget 0 (tdata1 s) (tselect s) in
  if negb (has t MCONTROL_DMODE) || debug_mode s then
    let mask := 0x20800000000011df in
    let val := val .| 0x2080000000000000 in
    let mask := if debug_mode s then mask + 0x800000000000000 else mask in
    s <| tdata1 ::= fun l => aset l (tselect s) (merge t val mask) |>
  else s.

(** The [switch] of [csr_write]. *)
Definition csr_write_case (s : RISCVCPUState) (csr : Z) (id : csr_id) (val : Z)
  : csr_result * RISCVCPUState :=
  let ok s' := (CsrOk, s') in
  let if_vs s' := if vs s =? 0 then (CsrInvalid, s) else (CsrOk, s' <| vs := 3 |>) in
  let if_debug s' := if debug_mode s then (CsrOk, s') else (CsrInvalid, s) in
  match id with
  | C_fflags => ok (s <| fflags := val .& 0x1f |> <| fs := 3 |>)
  | C_frm => ok (s <| frm := val .& 7 |> <| fs := 3 |>)
  | C_fcsr => ok (s <| frm := (val >> 5) .& 7 |> <| fflags := val .& 0x1f |> <| fs := 3 |>)
  | C_vstart => if_vs (s <| vstart := val .& VSTART_MASK |>)
  | C_vxsat => if_vs (s <| vxsat := val .& VXSAT_MASK |>)
  | C_vxrm => if_vs (s <| vxrm := val .& VXRM_MASK |>)
  | C_vcsr =>
      let v := val .& VCSR_MASK in
      if_vs (s <| vxsat := v .& VCSR_VXSAT |> <| vxrm := (v .& VCSR_VXRM) >> 1 |>)
  | C_sstatus => ok (set_mstatus s (merge (mstatus s) val SSTATUS_MASK))
  | C_sie => ok (s <| mie := merge (mie s) val (mideleg s) |>)
  | C_stvec => ok (s <| stvec := tvec_align val .&~ 2 |>)
  | C_scounteren => ok (s <| scounteren := u32 val |>)
  | C_sscratch => ok (s <| sscratch := val |>)
  | C_sepc => ok (s <| sepc := CANONICAL_S49 (pc_align s val) |>)
  | C_scause => ok (s <| scause := val .& SCAUSE_MASK |>)
  | C_stval => ok (s <| stval := CANONICAL_S49 val |>)
  | C_sip => ok (s <| mip := merge (mip s) val (mideleg s) |>)
  | C_satp =>
      if (priv s =? PRV_S) && has (mstatus s) MSTATUS_TVM then (CsrInvalid, s)
      else
        let mode := (val >> 60) .& 15 in
        let s' := if (mode =? 0) || (mode =? 8) || (mode =? 9)
                  then s <| satp := val .& SATP_MASK |> else s in
        (CsrFlushed, tlb_flush_all s')
  | C_mstatus => ok (set_mstatus s val)
  | C_misa => ok s
  | C_medeleg => ok (s <| medeleg := merge (medeleg s) val MEDELEG_MASK |>)
  | C_mideleg => ok (s <| mideleg := merge (mideleg s) val MIDELEG_MASK |>)
  | C_mie => ok (s <| mie := merge (mie s) val MIE_MASK |>)
  | C_mtvec => ok (s <| mtvec := tvec_align val .& ((1 << physical_addr_len s) - 3) |>)
  | C_mcounteren => ok (s <| mcounteren := u32 val |>)
  | C_mcountinhibit => ok (s <| mcountinhibit := u32 (val .&~ 2) |>)
  | C_mscratch => ok (s <| mscratch := val |>)
  | C_mepc => ok (s <| mepc := CANONICAL_S49 (pc_align s val) |>)
  | C_mcause => ok (s <| mcause := val .& MCAUSE_MASK |>)
  | C_mtval => ok (s <| mtval := CANONICAL_S49 val |>)
  | C_mip => ok (s <| mip := merge (mip s) val MIP_WMASK |>)
  | C_tselect => ok (s <| tselect := val mod MAX_TRIGGERS |>)
  | C_tdata1 => ok (csr_write_tdata1 s val)
  | C_tdata2 =>
      ok (if negb (has (aget 0 (tdata1 s) (tselect s)) MCONTROL_DMODE) || debug_mode s
          then s <| tdata2 ::= fun l => aset l (tselect s) val |> else s)
  | C_dcsr =>
      let d := merge (dcsr s) val 0x603 in
      if_debug (s <| dcsr := d |>
                  <| stop_the_counter := nz (d .& b2z (nz 0x600)) |>)
  | C_dpc => if_debug (s <| dpc := pc_align s val |>)
  | C_dscratch => if_debug (s <| dscratch := val |>)
  | C_mhpmevent =>
      ok (s <| mhpmevent ::= fun l =>
            aset l (csr .& 0x1f) (val .& (HPM_EVENT_SETMASK .| HPM_EVENT_EVENTMASK)) |>)
  | C_pmpcfg c => ok (csr_write_pmpcfg s c val)
  | C_pmpaddr n => ok (csr_write_pmpaddr s n val)
  | C_mcycle => ok (s <| mcycle := val |>)
  | C_minstret => ok (s <| minstret := val |>)
  | C_mhpmcounter => ok s
  | C_cycle | C_instret | C_hpmcounter | C_vl | C_vtype | C_vlenb
  | C_mhartid | C_mimpid | C_marchid | C_mvendorid => (CsrInvalid, s)
  end.

Definition csr_write_switch (s : RISCVCPUState) (csr val : Z) : csr_result * RISCVCPUState :=
  match csr_of_num csr with
  | None => (CsrInvalid, s)
  | Some id => csr_write_case s csr id val
  end.

(** ** The entry points, with the hooks *)

(** A hook returns the new state and, when it handled the access (C++ result 0),
    [Some] of the value read, respectively of [tt]. *)
Record RISCVMachineHooks := mkHooks {
  hook_csr_read : option (RISCVCPUState -> Z -> Z -> RISCVCPUState * option Z);
  hook_csr_write : option (RISCVCPUState -> Z -> Z -> Z -> RISCVCPUState * option unit)
}.

Definition no_hooks : RISCVMachineHooks := mkHooks None None.

Definition csr_read (h : RISCVMachineHooks) (s : RISCVCPUState) (funct3 csr : Z)
  (will_write : bool) : RISCVCPUState * option Z :=
  if ((csr .& 0xc00) =? 0xc00) && will_write then (s, None)
  else if priv s <? (csr >> 8) .& 3 then (s, None)
  else match hook_csr_read h with
       | None => (s, csr_read_switch s csr)
       | Some f => match f s funct3 csr with
                   | (s', Some v) => (s', Some v)
                   | (s', None) => (s', csr_read_switch s' csr)
                   end
       end.

Definition csr_write (h : RISCVMachineHooks) (s : RISCVCPUState) (funct3 csr val : Z)
  : csr_result * RISCVCPUState :=
  match hook_csr_write h with
  | None => csr_write_switch s csr val
  | Some f => match f s funct3 csr val with
              | (s', Some _) => (CsrOk, s')
              | (s', None) => csr_write_switch s' csr val
              end
  end.

(** ** Widths *)

Lemma tvec_align_fits v : fits 64 v -> fits 64 (tvec_align v).
Proof. unfold tvec_align. destruct (has v 1); width. Qed.

Lemma canonical_fits v : fits 64 (CANONICAL_S49 v).
Proof. unfold CANONICAL_S49. width. Qed.

Lemma pc_align_fits s v : fits 64 v -> fits 64 (pc_align s v).
Proof. unfold pc_align. width. Qed.

Lemma pmpcfg_merge_fits orig v : fits 64 (pmpcfg_merge orig v).
Proof.
  unfold pmpcfg_merge. change (seqZ 0 8) with [0; 1; 2; 3; 4; 5; 6; 7]. cbn [fold_left].
  repeat (apply fits_lor; [lia| |]); [width|..];
    (apply fits_shiftl; [lia|]; apply (fits_mono 8); [lia|apply pmpcfg_byte_fits]).
Qed.

#[export] Hint Resolve tvec_align_fits canonical_fits pc_align_fits pmpcfg_merge_fits : width.

Lemma unpack_step_ok s i : cpu_ok s -> cpu_ok (unpack_step s i).
Proof. intros H. unfold unpack_step. destruct (pmp_entry s i); [|done]. cpu_ok_split H. Qed.

Lemma unpack_fold_ok l s : cpu_ok s -> cpu_ok (fold_left unpack_step l s).
Proof. revert s. induction l as [|i l IH]; intros s H; [done|]. apply IH, unpack_step_ok, H. Qed.

Lemma unpack_pmpaddrs_ok s : cpu_ok s -> cpu_ok (unpack_pmpaddrs s).
Proof. intros H. apply tlb_flush_all_ok, unpack_fold_ok. cpu_ok_split H. Qed.

Lemma csr_write_pmpcfg_ok s c v : cpu_ok s -> cpu_ok (csr_write_pmpcfg s c v).
Proof.
  intros H. unfold csr_write_pmpcfg. destruct (_ <=? _); [done|]. apply unpack_pmpaddrs_ok.
  cpu_ok_split H. rewrite length_aset. destruct ok_pmpcfg. split; [done|]. width.
Qed.

Lemma csr_write_pmpaddr_ok s n v : cpu_ok s -> cpu_ok (csr_write_pmpaddr s n v).
Proof.
  intros H. unfold csr_write_pmpaddr. destruct (_ <=? _); [done|]. destruct (has _ _); [done|].
  destruct (_ && _); [done|]. apply unpack_pmpaddrs_ok.
  cpu_ok_split H. rewrite length_aset. destruct ok_pmpaddr. split; [done|].
  apply Forall_aset; [done|]. unfold PMPADDR_MASK. width.
Qed.

Lemma set_mstatus_ok s v : cpu_ok s -> cpu_ok (set_mstatus s v).
Proof.
  intros H. unfold set_mstatus.
  assert (forall s1, cpu_ok s1 -> cpu_ok (s1 <| fs := (v >> MSTATUS_FS_SHIFT) .& 3 |>
     <| vs := (v >> MSTATUS_VS_SHIFT) .& 3 |>
     <| mstatus := merge (mstatus s) v MSTATUS_WMASK |>)) as Hs.
  { pose proof (ok_mstatus _ H) as Hm. clear H. intros s1 H.
    assert (fits 64 MSTATUS_WMASK) by vm_decide. cpu_ok_split H; width. }
  apply Hs. destruct (_ || _); [by apply tlb_flush_all_ok|done].
Qed.

Lemma csr_write_tdata1_ok s v : cpu_ok s -> fits 64 v -> cpu_ok (csr_write_tdata1 s v).
Proof.
  intros H Hv. unfold csr_write_tdata1. destruct (_ || _); [|done].
  cpu_ok_split H. rewrite ok_tselect. destruct ok_tdata1 as (t & -> & ?). eexists. split; [done|].
  apply fits_merge; [lia|done|]. destruct (debug_mode s); vm_decide.
Qed.

Lemma csr_write_tdata2_ok s v :
  cpu_ok s -> fits 64 v -> cpu_ok (s <| tdata2 ::= fun l => aset l (tselect s) v |>).
Proof.
  intros H Hv. cpu_ok_split H. rewrite ok_tselect. destruct ok_tdata2 as (t & -> & ?).
  eexists. by split.
Qed.

Lemma csr_write_mhpmevent_ok s i v :
  cpu_ok s ->
  cpu_ok (s <| mhpmevent ::= fun l =>
            aset l i (v .& (HPM_EVENT_SETMASK .| HPM_EVENT_EVENTMASK)) |>).
Proof.
  intros H. cpu_ok_split H. rewrite length_aset. destruct ok_mhpmevent. split; [done|].
  apply Forall_aset; [done|]. apply fits_land_r; [lia|vm_decide].
Qed.

(** The lemma for the head of the written state. *)
Ltac written_ok H :=
  lazymatch goal with
  | |- cpu_ok (csr_write_pmpcfg _ _ _) => apply csr_write_pmpcfg_ok, H
  | |- cpu_ok (csr_write_pmpaddr _ _ _) => apply csr_write_pmpaddr_ok, H
  | |- cpu_ok (set_mstatus _ _) => apply set_mstatus_ok, H
  | |- cpu_ok (csr_write_tdata1 _ _) => apply csr_write_tdata1_ok; [apply H|assumption]
  | |- cpu_ok (upd tdata2 _ _) => apply csr_write_tdata2_ok; [apply H|assumption]
  | |- cpu_ok (upd mhpmevent _ _) => apply csr_write_mhpmevent_ok, H
  | |- cpu_ok (tlb_flush_all _) => apply tlb_flush_all_ok; written_ok H
  | |- cpu_ok (upd _ _ _) => idtac
  | |- cpu_ok _ => exact H
  end.

(** The masks of the writers are closed terms. *)
Ltac mask_fits :=
  lazymatch goal with
  | |- fits _ (tvec_align _ .& _) => width
  | |- fits _ (_ .& ?m) => apply fits_land_r; [lia|vm_decide]
  | |- fits _ ((_ .& ?m) >> _) => apply fits_shiftr; [lia|lia|apply fits_land_r; [lia|vm_decide]]
  | |- fits _ (merge _ _ ?m) => apply fits_merge; [lia|assumption|first [assumption|vm_decide]]
  | |- fits _ _ => width
  end.

Lemma csr_write_switch_ok s csr v :
  cpu_ok s -> fits 64 v -> cpu_ok (csr_write_switch s csr v).2.
Proof.
  intros H Hv. unfold csr_write_switch. destruct (csr_of_num csr) as [id|]; [|done].
  destruct id; cbn [csr_write_case snd];
    repeat match goal with
    | |- context [if ?b then _ else _] => destruct b; cbn [snd]
    end; written_ok H;
    cpu_ok_split H; first [mask_fits | apply Z.mod_1_r].
Qed.

(** Every CSR write, legal or not, keeps the hart state well formed: each
    register stays within its machine width, the arrays keep their lengths and
    [x0] stays zero.  The hook is assumed to keep well-formed states well formed. *)
Lemma csr_write_preserves_cpu_ok h s funct3 csr v :
  (forall f, hook_csr_write h = Some f -> forall s0 f3 c w, cpu_ok s0 -> cpu_ok (f s0 f3 c w).1) ->
  cpu_ok s -> fits 64 v -> cpu_ok (csr_write h s funct3 csr v).2.
Proof.
  intros Hh H Hv. unfold csr_write. destruct (hook_csr_write h) as [f|] eqn:E.
  - specialize (Hh f eq_refl s funct3 csr v H). destruct (f s funct3 csr v) as [s' [|]]; [done|].
    by apply csr_write_switch_ok.
  - by apply csr_write_switch_ok.
Qed.

Lemma csr_write_preserves_cpu_ok_witness :
  cpu_ok (csr_write no_hooks (riscv_cpu_init 0x80000000 false false 0) 1 0x300 0xffffffff).2.
Proof.
  apply (csr_write_preserves_cpu_ok no_hooks (riscv_cpu_init 0x80000000 false false 0) 1 0x300
           0xffffffff); [done| |unfold fits; lia].
  apply riscv_cpu_init_ok; unfold fits; lia.
Defined.

(** ** Privilege levels *)

(** The privilege field (bits 9:8) of each label. *)
Definition csr_priv (id : csr_id) : Z :=
  match id with
  | C_fflags | C_frm | C_fcsr | C_vstart | C_vxsat | C_vxrm | C_vcsr
  | C_cycle | C_instret | C_hpmcounter | C_vl | C_vtype | C_vlenb => PRV_U
  | C_sstatus | C_sie | C_stvec | C_scounteren
  | C_sscratch | C_sepc | C_scause | C_stval | C_sip | C_satp => PRV_S
  | _ => PRV_M
  end.

(** Bits 11:10 of the label are 3: a read-only CSR. *)
Definition csr_readonly (id : csr_id) : bool :=
  match id with
  | C_cycle | C_instret | C_hpmcounter | C_vl | C_vtype | C_vlenb
  | C_mhartid | C_mimpid | C_marchid | C_mvendorid => true
  | _ => false
  end.

Lemma in_range_spec a x b : in_range a x b = true <-> a <= x <= b.
Proof. unfold in_range. rewrite andb_true_iff, !Z.leb_le. done. Qed.

Lemma num_fields (q n x : Z) :
  q * 256 <= x < q * 256 + 256 -> (x >> 8) .& 3 = q mod 4 /\ (x .& 0xc00 =? 0xc00) = (q / 4 mod 4 =? 3).
Proof.
  intros Hx. assert (x >> 8 = q) as Hq.
  { rewrite Z.shiftr_div_pow2 by lia. symmetry. apply Z.div_unique with (x - q * 256); lia. }
  split; [rewrite Hq; change 3 with (Z.ones 2); apply Z.land_ones; lia|].
  replace (x .& 0xc00) with ((q / 4 mod 4) << 10).
  - apply eq_true_iff_eq. rewrite !Z.eqb_eq, Z.shiftl_mul_pow2 by lia. lia.
  - rewrite <- Hq. change (4) with (2 ^ 2) at 1. rewrite <- Z.shiftr_div_pow2, Z.shiftr_shiftr by lia.
    change 4 with (2 ^ 2). rewrite <- Z.land_ones by lia.
    change 0xc00 with (Z.ones 2 << 10).
    apply Z.bits_inj'. intros i Hi. rewrite Z.land_spec, !Z.shiftl_spec by lia.
    destruct (Z.ltb_spec i 10).
    + rewrite !(Z.testbit_neg_r _ (i - 10)) by lia. by rewrite andb_false_r.
    + rewrite Z.land_spec, Z.shiftr_spec by lia. by replace (i - 10 + (8 + 2)) with i by lia.
Qed.

Lemma csr_of_num_fields csr id :
  csr_of_num csr = Some id ->
  (csr >> 8) .& 3 = csr_priv id /\ (csr .& 0xc00 =? 0xc00) = csr_readonly id.
Proof.
  unfold csr_of_num. destruct (List.find _ _) as [[n id']|] eqn:E.
  - intros [= ->]. apply find_some in E as [Hin Heq]. apply Z.eqb_eq in Heq as <-. cbn [fst].
    assert (Forall (fun p => (p.1 >> 8) .& 3 = csr_priv p.2 /\
                             (p.1 .& 0xc00 =? 0xc00) = csr_readonly p.2) csr_labels) as Hall
      by vm_decide.
    rewrite List.Forall_forall in Hall. by specialize (Hall _ Hin).
  - repeat match goal with
    | |- context [in_range ?a ?x ?b] => destruct (in_range a x b) eqn:?
    end; intros [= <-];
    match goal with H : in_range _ _ _ = true |- _ => apply in_range_spec in H end;
    [apply (num_fields 0xb 0)|apply (num_fields 0xc 0)|apply (num_fields 3 0)|apply (num_fields 3 0)];
    lia.
Qed.

(** What a supervisor must not be able to change: the machine-level registers,
    the bits of [mstatus], [mie] and [mip] that are not delegated, the PMP and
    debug state, the privilege mode and the counters. *)
Definition machine_view (s : RISCVCPUState) :=
  ((priv s, mstatus s .&~ SSTATUS_MASK, mtvec s, mscratch s, mepc s, mcause s, mtval s),
   (mvendorid s, marchid s, mimpid s, mhartid s, misa s),
   (mie s .&~ mideleg s, mip s .&~ mideleg s, medeleg s, mideleg s, mcounteren s, mcountinhibit s),
   (tselect s, tdata1 s, tdata2 s, mhpmevent s, dcsr s, dpc s, dscratch s),
   (csr_pmpcfg s, csr_pmpaddr s, pmp_n s, pmp s, pmpcfg s, physical_addr_len s),
   (mcycle s, minstret s, debug_mode s, stop_the_counter s),
   (pc s, reg s, fp_reg s)).

(** What a user program must not be able to change. *)
Definition supervisor_view (s : RISCVCPUState) :=
  (machine_view s, mstatus s, mie s, mip s, stvec s, scounteren s, sscratch s, sepc s, scause s,
   stval s, satp s).

Lemma ldiff_merge a v m : merge a v m .&~ m = a .&~ m.
Proof. unfold merge. bitwise. Qed.


Lemma ldiff_merge_merge a v m n : merge a (merge a v m) n .&~ m = a .&~ m.
Proof. unfold merge. bitwise. Qed.

Lemma set_mstatus_machine_view s v :
  machine_view (set_mstatus s (merge (mstatus s) v SSTATUS_MASK)) = machine_view s.
Proof.
  unfold machine_view, set_mstatus.
  assert (forall s1, s1 = s \/ s1 = tlb_flush_all s -> forall f w,
    let s2 := s1 <| fs := f |> <| vs := w |>
      <| mstatus := merge (mstatus s) (merge (mstatus s) v SSTATUS_MASK) MSTATUS_WMASK |> in
    machine_view s2 = machine_view s) as Hs.
  { intros s1 Hs1 f w. unfold machine_view, tlb_flush_all, tlb_init in *. cpu_simpl.
    rewrite ldiff_merge_merge. destruct Hs1 as [-> | ->]; reflexivity. }
  apply Hs. destruct (_ || _); auto.
Qed.

Lemma csr_write_machine_view s csr v :
  (csr >> 8) .& 3 <= PRV_S -> machine_view (csr_write_switch s csr v).2 = machine_view s.
Proof.
  intros Hp. unfold csr_write_switch. destruct (csr_of_num csr) as [id|] eqn:E; [|done].
  apply csr_of_num_fields in E as [E _]. rewrite E in Hp.
  destruct id; try (exfalso; unfold csr_priv, PRV_M, PRV_S in Hp; lia); cbn [csr_write_case snd];
    repeat match goal with
    | |- context [if ?b then _ else _] => destruct b; cbn [snd]
    end; lazymatch goal with
    | |- machine_view (set_mstatus _ _) = _ => apply set_mstatus_machine_view
    | |- machine_view (upd mie _ _) = _ => unfold machine_view; cpu_simpl; by rewrite ldiff_merge
    | |- machine_view (upd mip _ _) = _ => unfold machine_view; cpu_simpl; by rewrite ldiff_merge
    | |- _ => reflexivity
    end.
Qed.

Lemma csr_write_supervisor_view s csr v :
  (csr >> 8) .& 3 = PRV_U -> supervisor_view (csr_write_switch s csr v).2 = supervisor_view s.
Proof.
  intros Hp. unfold csr_write_switch. destruct (csr_of_num csr) as [id|] eqn:E; [|done].
  apply csr_of_num_fields in E as [E _]. rewrite E in Hp.
  destruct id; try discriminate Hp; cbn [csr_write_case snd];
    repeat match goal with
    | |- context [if ?b then _ else _] => destruct b; cbn [snd]
    end; reflexivity.
Qed.

(** C16 Privilege confinement: a write to any CSR number whose privilege field
    is U or S, with any value, leaves the machine view unchanged (machine-level
    registers, non-delegated interrupt bits, the M bits of [mstatus], PMP,
    triggers, debug state and the privilege mode itself), and one whose field is
    U also leaves every supervisor register unchanged. *)
Theorem csr_write_confined s csr v :
  (csr >> 8) .& 3 <= PRV_S ->
  machine_view (csr_write_switch s csr v).2 = machine_view s /\
  ((csr >> 8) .& 3 = PRV_U -> supervisor_view (csr_write_switch s csr v).2 = supervisor_view s).
Proof. auto using csr_write_machine_view, csr_write_supervisor_view. Qed.

Lemma csr_write_confined_witness :
  let s := riscv_cpu_init 0 false false 0 in
  machine_view (csr_write_switch s 0x100 (2 ^ 64 - 1)).2 = machine_view s /\
  supervisor_view (csr_write_switch s 0x003 255).2 = supervisor_view s.
Proof.
  split; [apply csr_write_confined|apply csr_write_confined; [|reflexivity]];
    vm_compute; discriminate.
Defined.

(** ** Reads *)

(** A CSR access succeeds only for a CSR that exists, at sufficient privilege,
    and with write intent only for CSRs outside the read-only space. *)
Lemma csr_read_checks_privilege s funct3 csr will_write s' v :
  csr_read no_hooks s funct3 csr will_write = (s', Some v) ->
  s' = s /\
  exists id, csr_of_num csr = Some id /\ csr_priv id <= priv s /\
             (will_write = true -> csr_readonly id = false).
Proof.
  unfold csr_read. cbn [hook_csr_read no_hooks].
  destruct ((csr .& 0xc00 =? 0xc00) && will_write) eqn:Ew; [done|].
  destruct (Z.ltb_spec (priv s) ((csr >> 8) .& 3)); [done|]. intros [= <- Hr]. split; [done|].
  assert (is_Some (csr_of_num csr)) as [id Hid].
  { unfold csr_read_switch in Hr. by destruct (csr_of_num csr). }
  exists id. destruct (csr_of_num_fields csr id Hid) as [Ep Er].
  rewrite Er in Ew. split; [done|]. split; [lia|]. intros ->. by rewrite andb_true_r in Ew.
Qed.

Lemma csr_read_checks_privilege_witness :
  exists id, csr_of_num 0x300 = Some id /\ csr_priv id <= 3 /\ csr_readonly id = false.
Proof.
  assert (csr_read no_hooks (zero_cpu <| priv := 3 |>) 1 0x300 true
          = (zero_cpu <| priv := 3 |>, Some 0)) as H by (vm_compute; reflexivity).
  destruct (csr_read_checks_privilege _ _ _ _ _ _ H) as (_ & id & H1 & H2 & H3).
  exists id. split; [exact H1|]. split; [exact H2|apply H3; reflexivity].
Defined.

(** ** Legal values

    Writing a CSR legalises the value; writing back what is then read changes
    nothing more. *)


Lemma canonical_bit v i :
  0 <= i -> Z.testbit (CANONICAL_S49 v) i = (i <? 64) && Z.testbit v (Z.min i 48).
Proof. intros. unfold CANONICAL_S49. by rewrite testbit_trunc, testbit_sgn by lia. Qed.

Lemma canonical_idemp v : CANONICAL_S49 (CANONICAL_S49 v) = CANONICAL_S49 v.
Proof.
  apply Z.bits_inj'. intros i Hi. rewrite !canonical_bit by lia.
  destruct (Z.ltb_spec i 64), (Z.ltb_spec (Z.min i 48) 64); try lia; cbn; try done.
  f_equal. lia.
Qed.

Lemma canonical_align_idemp s s' v :
  misa s' = misa s ->
  CANONICAL_S49 (pc_align s' (CANONICAL_S49 (pc_align s v))) = CANONICAL_S49 (pc_align s v).
Proof.
  intros E. unfold pc_align. rewrite E. generalize (if has (misa s) MCPUID_C then 1 else 3). intros k.
  apply Z.bits_inj'. intros i Hi. rewrite !canonical_bit, !Z.ldiff_spec, !canonical_bit by lia.
  rewrite !Z.ldiff_spec. replace (Z.min (Z.min i 48) 48) with (Z.min i 48) by lia.
  destruct (Z.ltb_spec (Z.min i 48) 64); [|lia].
  by destruct (i <? 64), (Z.testbit v (Z.min i 48)), (Z.testbit k (Z.min i 48)).
Qed.

Lemma tvec_align_bit v i :
  0 <= i -> Z.testbit (tvec_align v) i = Z.testbit v i && negb (Z.testbit v 0 && Z.testbit 0xfe i).
Proof.
  intros. unfold tvec_align. rewrite has_1. destruct (Z.testbit v 0); cbn [andb].
  - apply Z.ldiff_spec.
  - by rewrite andb_true_r.
Qed.

(** Legalising a trap vector under any mask is idempotent. *)
Lemma tvec_idemp v m : tvec_align (tvec_align v .& m) .& m = tvec_align v .& m.
Proof.
  apply Z.bits_inj'. intros i Hi.
  rewrite !Z.land_spec, !tvec_align_bit, !Z.land_spec, !tvec_align_bit by lia.
  change (Z.testbit 0xfe 0) with false.
  by destruct (Z.testbit v i), (Z.testbit v 0), (Z.testbit 0xfe i), (Z.testbit m i), (Z.testbit m 0).
Qed.

(** [v & ~2] is [v & -3]. *)
Lemma tvec_ldiff_idemp v : tvec_align (tvec_align v .&~ 2) .&~ 2 = tvec_align v .&~ 2.
Proof. rewrite !Z.ldiff_land. apply tvec_idemp. Qed.

Lemma pc_align_idemp s s' v : misa s' = misa s -> pc_align s' (pc_align s v) = pc_align s v.
Proof.
  intros E. unfold pc_align. rewrite E. generalize (if has (misa s) MCPUID_C then 1 else 3).
  intros k. bits_ext i. by destruct (Z.testbit v i), (Z.testbit k i).
Qed.

Lemma trunc_ldiff_idemp w v k : 0 <= w -> trunc w (trunc w (v .&~ k) .&~ k) = trunc w (v .&~ k).
Proof. intros. bitwise. Qed.

Lemma merge_idem_read a v m : merge (merge a v m) (merge a v m .& m) m = merge a v m.
Proof. bitwise. Qed.

Lemma merge_idemp a m : merge a (a .& m) m = a.
Proof. bitwise. Qed.

(** *** [mstatus] *)

(** The members that hold the FS and VS fields are the only place for them. *)
Definition MSTATUS_ELSEWHERE : Z := MSTATUS_FS .| MSTATUS_VS .| (1 << 63).

Definition csr_legal (s : RISCVCPUState) : Prop :=
  mstatus s .& MSTATUS_ELSEWHERE = 0 /\ satp s .& SATP_MASK = satp s.

Lemma get_mstatus_ext s s' m :
  mstatus s' = mstatus s -> fs s' = fs s -> vs s' = vs s -> get_mstatus s' m = get_mstatus s m.
Proof. intros E1 E2 E3. unfold get_mstatus. by rewrite E1, E2, E3. Qed.

Lemma field_land x n k : 0 <= n -> (x >> n) .& k = (x .& (k << n)) >> n.
Proof.
  intros. rewrite Z.shiftr_land, Z.shiftr_shiftl_l, Z.sub_diag, Z.shiftl_0_r by lia. done.
Qed.

Lemma land_sub_eq x y m n : n .& m = n -> x .& m = y .& m -> x .& n = y .& n.
Proof.
  intros En E. rewrite <- En, (Z.land_comm n), !Z.land_assoc, E. done.
Qed.

Lemma fits_2_cases f : fits 2 f -> f = 0 \/ f = 1 \/ f = 2 \/ f = 3.
Proof. unfold fits. lia. Qed.

(** The bits that [set_mstatus] stores. *)
Definition MSTATUS_STORED : Z := MSTATUS_WMASK .| MSTATUS_FS .| MSTATUS_VS.

(** Storing a value that agrees with [mstatus | fs << 13 | vs << 9] on those
    bits changes nothing. *)
Lemma mstatus_writeback m f w x :
  m .& MSTATUS_ELSEWHERE = 0 -> fits 2 f -> fits 2 w ->
  x .& MSTATUS_STORED
  = (m .| (f << MSTATUS_FS_SHIFT) .| (w << MSTATUS_VS_SHIFT)) .& MSTATUS_STORED ->
  (x >> MSTATUS_FS_SHIFT) .& 3 = f /\ (x >> MSTATUS_VS_SHIFT) .& 3 = w /\
  merge m x MSTATUS_WMASK = m.
Proof.
  intros Hm Hf Hw Hx.
  assert (forall n, n .& MSTATUS_ELSEWHERE = n -> m .& n = 0) as Hz.
  { intros n En. rewrite (land_sub_eq m 0 MSTATUS_ELSEWHERE n En); rewrite ?Z.land_0_l; done. }
  rewrite !field_land by (unfold MSTATUS_FS_SHIFT, MSTATUS_VS_SHIFT; lia). unfold merge.
  rewrite !(land_sub_eq x _ MSTATUS_STORED _) by (exact Hx || reflexivity).
  rewrite !Z.land_lor_distr_l. rewrite !(Hz (3 << _)) by reflexivity.
  apply fits_2_cases in Hf, Hw.
  destruct Hf as [-> | [-> | [-> | ->]]], Hw as [-> | [-> | [-> | ->]]];
    (split; [reflexivity|split; [reflexivity|]]);
    match goal with
    | |- _ .| (_ .| ?c .| ?d) = _ => change c with 0; change d with 0
    end; rewrite !Z.lor_0_r; bitwise.
Qed.

(** The value read agrees on the stored bits that the read mask shows. *)
Lemma get_mstatus_land s mask n :
  n .& mask = n -> n .& (1 << 63) = 0 ->
  get_mstatus s mask .& n
  = (mstatus s .| (fs s << MSTATUS_FS_SHIFT) .| (vs s << MSTATUS_VS_SHIFT)) .& n.
Proof.
  intros En E63. unfold get_mstatus.
  generalize (mstatus s .| (fs s << MSTATUS_FS_SHIFT) .| (vs s << MSTATUS_VS_SHIFT)). intros x.
  assert ((x .& mask) .& n = x .& n) as E by (by rewrite <- Z.land_assoc, (Z.land_comm mask), En).
  destruct (_ || _); [|done].
  by rewrite Z.land_lor_distr_l, (Z.land_comm _ n), (Z.land_comm _ n), E63, (Z.land_comm n), E, Z.lor_0_r.
Qed.

Lemma set_mstatus_fields s v :
  fs (set_mstatus s v) = (v >> MSTATUS_FS_SHIFT) .& 3 /\
  vs (set_mstatus s v) = (v >> MSTATUS_VS_SHIFT) .& 3 /\
  mstatus (set_mstatus s v) = merge (mstatus s) v MSTATUS_WMASK.
Proof. unfold set_mstatus. by destruct (_ || _). Qed.

Lemma set_mstatus_stable s x mask :
  mstatus s .& MSTATUS_ELSEWHERE = 0 -> fits 2 (fs s) -> fits 2 (vs s) ->
  x .& MSTATUS_STORED
  = (mstatus s .| (fs s << MSTATUS_FS_SHIFT) .| (vs s << MSTATUS_VS_SHIFT)) .& MSTATUS_STORED ->
  get_mstatus (set_mstatus s x) mask = get_mstatus s mask.
Proof.
  intros Hm Hf Hv Hx. destruct (mstatus_writeback _ _ _ x Hm Hf Hv Hx) as (E1 & E2 & E3).
  destruct (set_mstatus_fields s x) as (F1 & F2 & F3).
  apply get_mstatus_ext; congruence.
Qed.

Lemma set_mstatus_legal s v :
  mstatus s .& MSTATUS_ELSEWHERE = 0 ->
  let s2 := set_mstatus s v in
  mstatus s2 .& MSTATUS_ELSEWHERE = 0 /\ fits 2 (fs s2) /\ fits 2 (vs s2).
Proof.
  intros Hm s2. subst s2. destruct (set_mstatus_fields s v) as (-> & -> & ->).
  rewrite merge_keeps by reflexivity. split; [done|].
  change 3 with (Z.ones 2). split; apply field_range; lia.
Qed.

(** [sstatus] shows every stored bit outside which [mstatus] is kept. *)
Lemma sstatus_merge_stored s :
  fits 2 (fs s) -> fits 2 (vs s) ->
  merge (mstatus s) (get_mstatus s SSTATUS_MASK) SSTATUS_MASK .& MSTATUS_STORED
  = (mstatus s .| (fs s << MSTATUS_FS_SHIFT) .| (vs s << MSTATUS_VS_SHIFT)) .& MSTATUS_STORED.
Proof.
  intros Hf Hv.
  change MSTATUS_STORED with
    ((MSTATUS_STORED .& SSTATUS_MASK) .| (MSTATUS_STORED .&~ SSTATUS_MASK)).
  rewrite !(Z.land_lor_distr_r _ (MSTATUS_STORED .& SSTATUS_MASK)).
  rewrite merge_sets, get_mstatus_land, merge_keeps by reflexivity. f_equal.
  rewrite !Z.land_lor_distr_l. apply fits_2_cases in Hf, Hv.
  destruct Hf as [-> | [-> | [-> | ->]]], Hv as [-> | [-> | [-> | ->]]];
    match goal with
    | |- _ = _ .| ?c .| ?d => change c with 0; change d with 0
    end; by rewrite !Z.lor_0_r.
Qed.

Lemma mstatus_csr_stable s v mask x :
  mstatus s .& MSTATUS_ELSEWHERE = 0 ->
  let s2 := set_mstatus s v in
  x = get_mstatus s2 (2 ^ 64 - 1) \/
  x = merge (mstatus s2) (get_mstatus s2 SSTATUS_MASK) SSTATUS_MASK ->
  get_mstatus (set_mstatus s2 x) mask = get_mstatus s2 mask.
Proof.
  intros Hm s2 Hx. destruct (set_mstatus_legal s v Hm) as (H1 & H2 & H3). fold s2 in H1, H2, H3.
  apply set_mstatus_stable; try done. destruct Hx as [-> | ->].
  - by apply get_mstatus_land.
  - by apply sstatus_merge_stored.
Qed.

(** *** PMP registers *)

Lemma pmpcfg_byte_idemp orig v i :
  let b := pmpcfg_byte orig v i in b .&~ PMPCFG_RES = b.
Proof.
  cbn. unfold pmpcfg_byte. generalize (if ((orig >> (i * 8)) .& 255) .& PMPCFG_L =? 0
    then (v >> (i * 8)) .& 255 else (orig >> (i * 8)) .& 255).
  intros b. bits_ext j. by destruct (Z.testbit b j), (Z.testbit PMPCFG_RES j).
Qed.

Lemma pmpcfg_merge_idemp orig v :
  pmpcfg_merge (pmpcfg_merge orig v) (pmpcfg_merge orig v) = pmpcfg_merge orig v.
Proof.
  assert (forall i, 0 <= i < 8 ->
    pmpcfg_byte (pmpcfg_merge orig v) (pmpcfg_merge orig v) i = pmpcfg_byte orig v i) as Hb.
  { intros i Hi. unfold pmpcfg_byte at 1. change 255 with (Z.ones 8). rewrite <- trunc_ones by lia.
    rewrite pmpcfg_merge_byte by done. destruct (_ =? 0); apply pmpcfg_byte_idemp. }
  unfold pmpcfg_merge at 1. change (seqZ 0 8) with [0; 1; 2; 3; 4; 5; 6; 7]. cbn [fold_left].
  rewrite !Hb by lia. done.
Qed.

Lemma csr_write_pmpcfg_csrs s c v :
  csr_pmpcfg (csr_write_pmpcfg s c v)
  = if PMP_N <=? c / 2 * 8 then csr_pmpcfg s
    else aset (csr_pmpcfg s) c (pmpcfg_merge (aget 0 (csr_pmpcfg s) c) v).
Proof. apply (pmp_do_write_csrs s (WCfg c v)). Qed.

Lemma pmpcfg_stable s c v :
  length (csr_pmpcfg s) = 4%nat -> c = 0 \/ c = 2 ->
  let s2 := csr_write_pmpcfg s c v in
  aget 0 (csr_pmpcfg (csr_write_pmpcfg s2 c (aget 0 (csr_pmpcfg s2) c))) c
  = aget 0 (csr_pmpcfg s2) c.
Proof.
  intros Hlen Hc s2. subst s2.
  rewrite (csr_write_pmpcfg_csrs (csr_write_pmpcfg s c v)), (csr_write_pmpcfg_csrs s c v).
  destruct Hc as [-> | ->]; [|done]. change (PMP_N <=? 0 / 2 * 8) with false. cbn iota.
  rewrite !aget_aset_eq by (rewrite ?length_aset, Hlen; lia). apply pmpcfg_merge_idemp.
Qed.

Lemma csr_write_pmpaddr_csrs s n v :
  csr_pmpcfg (csr_write_pmpaddr s n v) = csr_pmpcfg s /\
  csr_pmpaddr (csr_write_pmpaddr s n v)
  = (let cfg := aget 0 (csr_pmpcfg s) (n / 8) >> (n * 8) in
     if (PMP_N <=? n) || has cfg PMPCFG_L
        || (((cfg >> 8) .& PMPCFG_A_MASK =? PMPCFG_A_TOR) && has (cfg >> 8) PMPCFG_L)
     then csr_pmpaddr s else aset (csr_pmpaddr s) n (v .& PMPADDR_MASK)).
Proof.
  unfold csr_write_pmpaddr. destruct (PMP_N <=? n); [done|]. cbn [orb].
  destruct (has _ PMPCFG_L); [done|]. cbn [orb]. destruct (_ && _); [done|].
  by destruct (unpack_keeps (s <| csr_pmpaddr ::= fun l => aset l n (v .& PMPADDR_MASK) |>))
    as [-> ->].
Qed.

Lemma pmpaddr_stable s n v :
  length (csr_pmpaddr s) = 16%nat -> 0 <= n < 16 ->
  let s2 := csr_write_pmpaddr s n v in
  aget 0 (csr_pmpaddr (csr_write_pmpaddr s2 n (aget 0 (csr_pmpaddr s2) n))) n
  = aget 0 (csr_pmpaddr s2) n.
Proof.
  intros Hlen Hn s2. subst s2. destruct (csr_write_pmpaddr_csrs s n v) as [Ec Ea].
  rewrite (proj2 (csr_write_pmpaddr_csrs (csr_write_pmpaddr s n v) n _)), Ec, Ea. cbn zeta.
  destruct (_ || _); [done|].
  rewrite !aget_aset_eq by (rewrite ?length_aset, Hlen; lia).
  bits_ext i. by rewrite <- andb_assoc, andb_diag.
Qed.

Lemma merge_or_idemp t v k m :
  k .& m = k -> merge (merge t (v .| k) m) (merge t (v .| k) m .| k) m = merge t (v .| k) m.
Proof.
  intros E. apply Z.bits_inj'. intros i _. unfold merge.
  rewrite !Z.lor_spec, !Z.ldiff_spec, !Z.land_spec, !Z.lor_spec, !Z.ldiff_spec, !Z.land_spec, !Z.lor_spec.
  destruct (Z.testbit k i) eqn:Ek.
  - rewrite (land_sub_bit m k i) by done. by destruct (Z.testbit t i), (Z.testbit v i).
  - by destruct (Z.testbit t i), (Z.testbit v i), (Z.testbit m i).
Qed.

(** With one trigger, the trigger register after a write. *)
Lemma csr_write_tdata1_eq s v t :
  tselect s = 0 -> tdata1 s = [t] ->
  let s2 := csr_write_tdata1 s v in
  tselect s2 = 0 /\ debug_mode s2 = debug_mode s /\
  tdata1 s2 = [if negb (has t MCONTROL_DMODE) || debug_mode s
               then merge t (v .| 0x2080000000000000)
                      (if debug_mode s then 0x20800000000011df + 0x800000000000000
                       else 0x20800000000011df)
               else t].
Proof.
  intros Es Et s2. subst s2. unfold csr_write_tdata1. rewrite Es, Et.
  change (aget 0 [t] 0) with t. destruct (_ || _); cpu_simpl; [|auto]. by rewrite Es, Et.
Qed.

Lemma tdata1_stable s v :
  cpu_ok s ->
  let s2 := csr_write_tdata1 s v in
  let s3 := csr_write_tdata1 s2 (aget 0 (tdata1 s2) (tselect s2)) in
  aget 0 (tdata1 s3) (tselect s3) = aget 0 (tdata1 s2) (tselect s2).
Proof.
  intros H s2 s3. destruct (ok_tdata1 s H) as (t & Et & _).
  destruct (csr_write_tdata1_eq s v t (ok_tselect s H) Et) as (Es2 & Ed2 & Et2).
  fold s2 in Es2, Ed2, Et2.
  destruct (csr_write_tdata1_eq s2 (aget 0 (tdata1 s2) (tselect s2)) _ Es2 Et2) as (Es3 & _ & Et3).
  fold s3 in Es3, Et3. rewrite Es3, Et3, Es2, Et2, Ed2. unfold aget.
  change (Z.to_nat 0) with 0%nat. cbn [nth].
  destruct (debug_mode s), (has t MCONTROL_DMODE) eqn:Em; cbn [negb orb].
  all: rewrite ?orb_true_r, ?Em; cbn [negb orb]; try done; try (by apply merge_or_idemp).
  destruct (has (merge _ _ _) _); cbn [negb orb]; [done|]. by apply merge_or_idemp.
Qed.

Lemma csr_of_num_index csr id :
  csr_of_num csr = Some id ->
  match id with C_pmpcfg c => c = 0 \/ c = 2 | C_pmpaddr n => 0 <= n < 16 | _ => True end.
Proof.
  unfold csr_of_num. destruct (List.find _ _) as [[n id']|] eqn:E.
  - intros [= ->]. apply find_some in E as [Hin _]. cbn [snd].
    assert (Forall (fun p => match p.2 with C_pmpcfg c => c = 0 \/ c = 2
                             | C_pmpaddr n => 0 <= n < 16 | _ => True end) csr_labels) as Hall
      by (repeat (constructor; [cbn; auto|]); constructor).
    rewrite List.Forall_forall in Hall. by specialize (Hall _ Hin).
  - destruct (in_range 0xb03 csr 0xb1f); [by intros [= <-]|].
    destruct (in_range 0xc03 csr 0xc1f); [by intros [= <-]|].
    destruct (in_range 0x323 csr 0x33f); [by intros [= <-]|].
    destruct (in_range 0x3b0 csr 0x3bf) eqn:Er; [|done]. intros [= <-].
    apply in_range_spec in Er. unfold CSR_PMPADDR. lia.
Qed.

Lemma fits_aligned w v k : 0 <= w -> fits w v -> trunc w (v .&~ k) = v .&~ k.
Proof. intros. apply trunc_small. by apply fits_ldiff. Qed.

Lemma csr_index_31 csr : 0 <= csr .& 0x1f < 32.
Proof. change 0x1f with (Z.ones 5). rewrite Z.land_ones by lia. apply Z.mod_pos_bound. lia. Qed.

(** Write, read back, write back, read again. *)
Definition stable (s : RISCVCPUState) (csr : Z) (id : csr_id) (v : Z) : Prop :=
  let s2 := (csr_write_case s csr id v).2 in
  forall v', csr_read_case s2 csr id = Some v' ->
    csr_read_case (csr_write_case s2 csr id v').2 csr id = Some v'.

(** Unfolds both accesses and splits on their guards. *)
Ltac stable_cases :=
  unfold stable, csr_read_case; cbn [csr_write_case snd]; unfold counter_access_ok; cpu_simpl;
  repeat (match goal with
          | |- context [if ?b then _ else _] =>
              lazymatch b with
              | context [if _ then _ else _] => fail
              | _ => destruct b eqn:?
              end
          end; cbn [snd]; cpu_simpl);
  intros v' [= <-]; try reflexivity; try discriminate; try congruence; f_equal.

Lemma stable_satp s csr v : satp s .& SATP_MASK = satp s -> stable s csr C_satp v.
Proof.
  intros Hs. unfold stable, csr_read_case. cbn [csr_write_case].
  unfold tlb_flush_all, tlb_init.
  destruct ((priv s =? PRV_S) && has (mstatus s) MSTATUS_TVM) eqn:Eg; cbn [snd];
    [by rewrite Eg|].
  assert (forall x, x .& SATP_MASK .& SATP_MASK = x .& SATP_MASK) as Hi
      by (intros; by rewrite <- Z.land_assoc).
  destruct (_ || _); cpu_simpl; rewrite Eg; intros v' [= <-]; cpu_simpl; rewrite ?Eg; cbn [snd];
    destruct (_ || _); cpu_simpl; rewrite ?Eg; by rewrite ?Hi, ?Hs.
Qed.

Lemma stable_tdata2 s csr v : cpu_ok s -> stable s csr C_tdata2 v.
Proof.
  intros H. pose proof (ok_tselect s H) as Es. destruct (ok_tdata2 s H) as (t & Et & _).
  unfold stable, csr_read_case. cbn [csr_write_case snd].
  destruct (_ || _) eqn:Eg; cpu_simpl.
  - rewrite Eg, Es, Et. intros v' [= <-]. cpu_simpl. by rewrite Et, Es.
  - rewrite Eg. by intros v' [= <-].
Qed.

Lemma stable_mhpmevent s csr v : cpu_ok s -> stable s csr C_mhpmevent v.
Proof.
  intros H. destruct (ok_mhpmevent s H) as [Hl _]. pose proof (csr_index_31 csr).
  unfold stable, csr_read_case. cbn [csr_write_case snd]. cpu_simpl. intros v' [= <-]. f_equal.
  rewrite !aget_aset_eq by (rewrite ?length_aset, Hl; lia).
  by rewrite <- Z.land_assoc.
Qed.

Lemma stable_mstatus s csr v :
  mstatus s .& MSTATUS_ELSEWHERE = 0 -> stable s csr C_mstatus v /\ stable s csr C_sstatus v.
Proof.
  intros Hm. unfold stable, csr_read_case. cbn [csr_write_case snd].
  split; intros v' [= <-]; f_equal; apply mstatus_csr_stable; auto.
Qed.

Lemma stable_tdata1 s csr v : cpu_ok s -> stable s csr C_tdata1 v.
Proof.
  intros H. unfold stable, csr_read_case. cbn [csr_write_case snd]. intros v' [= <-]. f_equal.
  by apply tdata1_stable.
Qed.

Lemma stable_pmpcfg s csr c v : cpu_ok s -> c = 0 \/ c = 2 -> stable s csr (C_pmpcfg c) v.
Proof.
  intros H Hc. unfold stable, csr_read_case. cbn [csr_write_case snd]. intros v' [= <-]. f_equal.
  apply pmpcfg_stable; [apply H|done].
Qed.

Lemma stable_pmpaddr s csr n v : cpu_ok s -> 0 <= n < 16 -> stable s csr (C_pmpaddr n) v.
Proof.
  intros H Hn. unfold stable, csr_read_case. cbn [csr_write_case snd]. intros v' [= <-]. f_equal.
  apply pmpaddr_stable; [apply H|done].
Qed.

(** A register made of two adjacent fields. *)
Lemma two_fields_idemp a b m n k :
  fits k m -> 0 <= k ->
  let x := (a .& m) .| ((b .& n) << k) in (x .& m) .| (((x >> k) .& n) << k) = x.
Proof.
  intros Hm Hk x. apply Z.bits_inj'. intros i Hi. unfold x.
  rewrite !Z.lor_spec, !Z.land_spec, !Z.shiftl_spec, !Z.lor_spec, !Z.land_spec by lia.
  rewrite !Z.shiftl_spec by lia. destruct (Z.ltb_spec i k).
  - rewrite !(Z.testbit_neg_r _ (i - k)) by lia.
    by destruct (Z.testbit a i), (Z.testbit m i).
  - apply fits_testbit in Hm as [_ Hm]; [|lia]. rewrite Z.shiftr_spec by lia.
    replace (i - k + k) with i by lia. rewrite Z.lor_spec, Z.land_spec, Z.shiftl_spec, Z.land_spec by lia.
    rewrite !Hm by lia. rewrite !andb_false_r. cbn [orb].
    rewrite ?Z.land_spec. by destruct (Z.testbit b (i - k)), (Z.testbit n (i - k)).
Qed.

Lemma stable_fcsr s csr v : stable s csr C_fcsr v.
Proof.
  unfold stable, csr_read_case. cbn [csr_write_case snd]. cpu_simpl.
  change (3 =? 0) with false. cbn iota. intros v' [= <-]. cpu_simpl. f_equal.
  apply two_fields_idemp; [unfold fits; lia|lia].
Qed.

Lemma vcsr_split v :
  ((v .& VCSR_MASK) .& VCSR_VXSAT) .| ((((v .& VCSR_MASK) .& VCSR_VXRM) >> 1) << 1)
  = v .& VCSR_MASK.
Proof.
  rewrite <- Z.ldiff_ones_r by lia.
  change VCSR_MASK with 7. change VCSR_VXSAT with 1. change VCSR_VXRM with 6.
  change (Z.ones 1) with 1.
  rewrite <- !Z.land_assoc. change (7 .& 1) with 1. change (7 .& 6) with 6.
  apply Z.bits_inj'. intros i _. rewrite Z.lor_spec, Z.ldiff_spec, !Z.land_spec.
  change 7 with (6 .| 1). rewrite Z.lor_spec.
  destruct (Z.testbit v i), (Z.testbit 6 i), (Z.testbit 1 i); done.
Qed.

Lemma stable_vcsr s csr v : stable s csr C_vcsr v.
Proof.
  unfold stable, csr_read_case. cbn [csr_write_case snd]. cpu_simpl.
  destruct (vs s =? 0) eqn:E; cbn [snd]; [by rewrite E|]. cpu_simpl.
  change (3 =? 0) with false. cbn iota. intros v' [= <-]. cbn [snd]. cpu_simpl.
  change (3 =? 0) with false. cbn iota. f_equal. rewrite !vcsr_split.
  by rewrite <- Z.land_assoc.
Qed.



(** The debug CSR's counter stop is computed from the wrong bits: the source
    writes [s->dcsr & 0x600 != 0], which C++ parses as [s->dcsr & (0x600 != 0)].
    Setting only the stop bits in a [dcsr] with an even privilege field leaves
    the counters running, and a [dcsr] without them stops the counters as soon
    as bit 0 of the privilege field is set. *)
Theorem dcsr_stop_reads_priv_bit s csr v :
  csr_of_num csr = Some C_dcsr -> debug_mode s = true ->
  stop_the_counter (csr_write_switch s csr v).2 = Z.testbit v 0.
Proof.
  intros Hc Hd. unfold csr_write_switch. rewrite Hc. cbn [csr_write_case]. rewrite Hd.
  cbn [snd]. cpu_simpl. change (b2z (nz 0x600)) with 1. fold (has (merge (dcsr s) v 0x603) 1).
  rewrite has_1. unfold merge. rewrite Z.lor_spec, Z.ldiff_spec, Z.land_spec.
  change (Z.testbit 0x603 0) with true. by rewrite andb_false_r, andb_true_r.
Qed.

Lemma dcsr_stop_reads_priv_bit_witness :
  stop_the_counter (csr_write_switch (zero_cpu <| debug_mode := true |>) 0x7b0 0x600).2 = false.
Proof.
  rewrite (dcsr_stop_reads_priv_bit (zero_cpu <| debug_mode := true |>) 0x7b0 0x600);
    reflexivity.
Defined.
