(* ===== verification/Trap.v ===== *)
(** * Traps and interrupts ([src/riscv_cpu.cpp], lines 1966-2240)

    Trap entry with delegation, the three return instructions, the choice of
    the interrupt to take, and the interrupt-pending interface that the devices
    use. *)

From S2P Require Import Prelude Cpu Pmp Csr.

(** ** Trap entry and return *)

Definition set_priv (s : RISCVCPUState) (p : Z) : RISCVCPUState :=
  if negb (priv s =? p) then (tlb_flush_all s) <| priv := p |> else s.

(** The delegation test of [raise_exception2]. *)
Definition delegated (s : RISCVCPUState) (cause : Z) : bool :=
  if priv s <=? PRV_S then
    if has cause CAUSE_INTERRUPT then nz ((mideleg s >> (cause .& 63)) .& 1)
    else nz ((medeleg s >> cause) .& 1)
  else false.

Definition trap_to_s (s : RISCVCPUState) (cause tval : Z) : RISCVCPUState :=
  let s := s <| scause := cause |> <| sepc := CANONICAL_S49 (pc s) |>
             <| stval := CANONICAL_S49 tval |> in
  let s := s <| mstatus ::= fun m =>
             (m .&~ MSTATUS_SPIE) .| (b2z (has m MSTATUS_SIE) << MSTATUS_SPIE_SHIFT) |> in
  let s := s <| mstatus ::= fun m => (m .&~ MSTATUS_SPP) .| (priv s << MSTATUS_SPP_SHIFT) |> in
  let s := s <| mstatus ::= fun m => m .&~ MSTATUS_SIE |> in
  set_priv s PRV_S.

Definition trap_to_m (s : RISCVCPUState) (cause tval : Z) : RISCVCPUState :=
  let s := s <| mcause := cause |> <| mepc := CANONICAL_S49 (pc s) |>
             <| mtval := CANONICAL_S49 tval |> in
  let s := s <| mstatus ::= fun m =>
             (m .&~ MSTATUS_MPIE) .| (b2z (has m MSTATUS_MIE) << MSTATUS_MPIE_SHIFT) |> in
  let s := s <| mstatus ::= fun m => (m .&~ MSTATUS_MPP) .| (priv s << MSTATUS_MPP_SHIFT) |> in
  let s := s <| mstatus ::= fun m => m .&~ MSTATUS_MIE |> in
  set_priv s PRV_M.

Definition trap_vector (tvec cause : Z) : Z :=
  let base := tvec .&~ 3 in
  if ((tvec .& 3) =? 1) && has cause CAUSE_INTERRUPT
  then u64 (base + 4 * (cause .&~ CAUSE_INTERRUPT)) else base.

Definition raise_exception2 (s : RISCVCPUState) (cause tval : Z) : RISCVCPUState :=
  if delegated s cause then
    let s := trap_to_s s cause tval in s <| pc := trap_vector (stvec s) cause |>
  else
    let s := trap_to_m s cause tval in s <| pc := trap_vector (mtvec s) cause |>.

Definition raise_exception (s : RISCVCPUState) (cause : Z) : RISCVCPUState :=
  raise_exception2 s cause 0.

Definition handle_sret (s : RISCVCPUState) : RISCVCPUState :=
  let s := s <| mstatus ::= fun m => m .&~ MSTATUS_SIE |> in
  let s := s <| mstatus ::= fun m => m .| ((m >> 4) .& MSTATUS_SIE) |> in
  let s := s <| mstatus ::= fun m => m .| MSTATUS_SPIE |> in
  let spp := (mstatus s .& MSTATUS_SPP) >> MSTATUS_SPP_SHIFT in
  let s := s <| mstatus ::= fun m => m .&~ MSTATUS_SPP |> in
  let s := set_priv s spp in
  s <| pc := sepc s |>.

Definition handle_mret (s : RISCVCPUState) : RISCVCPUState :=
  let s := s <| mstatus ::= fun m => m .&~ MSTATUS_MIE |> in
  let s := s <| mstatus ::= fun m => m .| ((m >> 4) .& MSTATUS_MIE) |> in
  let s := s <| mstatus ::= fun m => m .| MSTATUS_MPIE |> in
  let mpp := (mstatus s .& MSTATUS_MPP) >> MSTATUS_MPP_SHIFT in
  let s := s <| mstatus ::= fun m => m .&~ MSTATUS_MPP |> in
  let s := set_priv s mpp in
  s <| pc := mepc s |>.

Definition handle_dret (s : RISCVCPUState) : RISCVCPUState :=
  let s := s <| stop_the_counter := false |> <| debug_mode := false |> in
  let s := set_priv s (dcsr s .& 3) in
  s <| pc := dpc s |>.

(** ** Interrupts *)

Definition get_pending_irq_mask (s : RISCVCPUState) : Z :=
  let pending_ints := mip s .& mie s in
  if pending_ints =? 0 then 0
  else
    let enabled_ints :=
      if priv s =? PRV_M then
        if has (mstatus s) MSTATUS_MIE then u32 (Z.lnot (mideleg s)) else 0
      else if priv s =? PRV_S then
        let e := u32 (Z.lnot (mideleg s)) in
        if has (mstatus s) MSTATUS_SIE then e .| mideleg s else e
      else 0xffffffff in
    pending_ints .& enabled_ints.

(** The first [i] of the list whose bit is set, -1 if there is none. *)
Fixpoint irq_scan (mask : Z) (l : list Z) : Z :=
  match l with
  | [] => -1
  | i :: l' => if nz ((mask >> i) .& 1) then i else irq_scan mask l'
  end.

(** [for (int8_t i = 31; i > 0; --i)]. *)
Definition get_irq_platspecific (mask : Z) : Z :=
  let local_ints := mask .& u32 (0xffffffff << 12) in
  irq_scan local_ints (reverse (seqZ 1 31)).

Definition priorities : list Z := [11; 3; 7; 10; 2; 6; 9; 1; 5; 8; 0; 4].

Definition get_irq_num (mask : Z) : Z :=
  if 1 << 12 <=? mask then get_irq_platspecific mask else irq_scan mask priorities.

(** [None]: no interrupt taken (the C++ result is 0). *)
Definition raise_interrupt (s : RISCVCPUState) : option RISCVCPUState :=
  let mask := get_pending_irq_mask s in
  if mask =? 0 then None
  else Some (raise_exception s (get_irq_num mask .| CAUSE_INTERRUPT)).

(** ** Interrupt-pending lines *)

(** The arguments are [machine->common.pending_interrupt] and
    [machine->common.cosim]. *)
Definition riscv_cpu_set_mip (pending_interrupt : Z) (cosim : bool) (s : RISCVCPUState) (mask : Z)
  : RISCVCPUState :=
  let s := s <| mip ::= fun m => m .| mask |> in
  if power_down_flag s && has (mip s) (mie s) && (negb (pending_interrupt =? -1) || negb cosim)
  then s <| power_down_flag := false |> else s.

Definition riscv_cpu_reset_mip (s : RISCVCPUState) (mask : Z) : RISCVCPUState :=
  s <| mip ::= fun m => m .&~ mask |>.

Definition riscv_cpu_get_mip (s : RISCVCPUState) : Z := mip s.

Definition riscv_cpu_get_power_down (s : RISCVCPUState) : bool := power_down_flag s.

(** ** Lemmas *)

Lemma set_priv_fields s p :
  priv (set_priv s p) = p /\ mstatus (set_priv s p) = mstatus s /\
  mepc (set_priv s p) = mepc s /\ sepc (set_priv s p) = sepc s /\
  stvec (set_priv s p) = stvec s /\ mtvec (set_priv s p) = mtvec s /\ dpc (set_priv s p) = dpc s.
Proof.
  unfold set_priv. destruct (Z.eqb_spec (priv s) p); cbn [negb]; [|done]. by subst.
Qed.

Lemma upd_priv_ok s p : cpu_ok s -> fits 2 p -> cpu_ok (s <| priv := p |>).
Proof. intros H Hp. cpu_ok_split H. Qed.

Lemma set_priv_ok s p : cpu_ok s -> fits 2 p -> cpu_ok (set_priv s p).
Proof.
  intros H Hp. unfold set_priv. destruct (negb _); [|exact H].
  apply upd_priv_ok; [apply tlb_flush_all_ok, H|exact Hp].
Qed.

Lemma upd_mstatus_ok s m : cpu_ok s -> fits 64 m -> cpu_ok (s <| mstatus := m |>).
Proof. intros H Hm. cpu_ok_split H. Qed.

Lemma upd_pc_ok s p : cpu_ok s -> fits 64 p -> cpu_ok (s <| pc := p |>).
Proof. intros H Hm. cpu_ok_split H. Qed.

Lemma trap_vector_fits tvec cause : fits 64 tvec -> fits 64 (trap_vector tvec cause).
Proof. intros. unfold trap_vector. destruct (_ && _); width. Qed.

Lemma has_land x m n : has (x .& m) n = has x (m .& n).
Proof. unfold has. by rewrite Z.land_assoc. Qed.

(** *** The interrupt-enable stack of [mstatus]

    Entry and return manipulate the same three fields at both levels: an enable
    bit at [ie], its previous value at [ie + 4] and a previous-privilege field of
    [w] bits at [k]. *)
Section Stack.
Context (ie k w : Z).
Context (Hie : 0 <= ie) (Hk : ie + 4 < k) (Hw : 0 < w).

Definition stack_enter (m p : Z) : Z :=
  ((((m .&~ (1 << (ie + 4))) .| (b2z (has m (1 << ie)) << (ie + 4))) .&~ (Z.ones w << k))
   .| (p << k)) .&~ (1 << ie).

Definition stack_leave (m : Z) : Z :=
  ((m .&~ (1 << ie)) .| (((m .&~ (1 << ie)) >> 4) .& (1 << ie))) .| (1 << (ie + 4)).

Lemma ones_shiftl_bit i :
  0 <= i -> Z.testbit (Z.ones w << k) i = (k <=? i) && (i <? k + w).
Proof.
  intros Hi. rewrite Z.shiftl_spec by lia. destruct (Z.leb_spec k i); cbn [andb].
  - rewrite Z.testbit_ones_nonneg by lia. bool_cases; lia || done.
  - by rewrite Z.testbit_neg_r by lia.
Qed.

Lemma b2z_bit b i : Z.testbit (b2z b) i = b && (i =? 0).
Proof.
  destruct b; cbn [b2z andb]; [|apply Z.bits_0].
  destruct (Z.eqb_spec i 0) as [->|]; [done|].
  destruct (Z.ltb_spec i 0); [by apply Z.testbit_neg_r|]. apply Z.bits_above_log2; cbn; lia.
Qed.

Lemma stack_enter_bit m p i :
  0 <= i -> fits w p ->
  Z.testbit (stack_enter m p) i =
    if i =? ie then false
    else if i =? ie + 4 then Z.testbit m ie
    else if (k <=? i) && (i <? k + w) then Z.testbit p (i - k)
    else Z.testbit m i.
Proof.
  intros Hi Hp. unfold stack_enter. rewrite has_bit by lia.
  rewrite Z.ldiff_spec, Z.lor_spec, Z.ldiff_spec, Z.lor_spec, Z.ldiff_spec, ones_shiftl_bit by lia.
  rewrite !shiftl_1_bit, !Z.shiftl_spec, b2z_bit by lia.
  apply fits_testbit in Hp as [_ Hp]; [|lia].
  destruct (Z.eqb_spec i ie); [by rewrite !andb_false_r|].
  destruct (Z.eqb_spec i (ie + 4)), (Z.eqb_spec (i - (ie + 4)) 0); try lia.
  - destruct (Z.leb_spec k i); [lia|]. rewrite (Z.testbit_neg_r p) by lia. cbn.
    by rewrite !andb_true_r, orb_false_r, andb_false_r.
  - destruct (Z.leb_spec k i), (Z.ltb_spec i (k + w)); cbn [andb negb];
      rewrite ?andb_false_r, ?andb_true_r, ?orb_false_r; try done;
      first [rewrite Hp by lia | rewrite (Z.testbit_neg_r p) by lia];
      by rewrite ?orb_false_r.
Qed.

Lemma stack_leave_bit m i :
  0 <= i ->
  Z.testbit (stack_leave m) i =
    if i =? ie then Z.testbit m (ie + 4) else if i =? ie + 4 then true else Z.testbit m i.
Proof.
  intros Hi. unfold stack_leave.
  rewrite !Z.lor_spec, Z.land_spec, Z.ldiff_spec, Z.shiftr_spec, Z.ldiff_spec, !shiftl_1_bit by lia.
  destruct (Z.eqb_spec i ie), (Z.eqb_spec i (ie + 4)); try lia; subst;
    rewrite ?andb_true_r, ?andb_false_r, ?orb_false_r, ?orb_true_r; try done.
  cbn. destruct (Z.eqb_spec ie (ie + 4)), (Z.eqb_spec (ie + 4) ie); try lia.
  by rewrite ?orb_false_r, ?andb_true_r.
Qed.

(** Entry then return: the saved privilege comes back and only the two
    "previous" fields differ. *)
Lemma stack_return_priv m p :
  fits w p -> (stack_leave (stack_enter m p) .& (Z.ones w << k)) >> k = p.
Proof.
  intros Hp. rewrite <- field_land by lia. apply Z.bits_inj'. intros i Hi.
  rewrite Z.land_spec, Z.shiftr_spec, stack_leave_bit, !stack_enter_bit by (lia || done).
  rewrite Z.testbit_ones_nonneg by lia. replace (i + k - k) with i by lia.
  apply fits_testbit in Hp as [_ Hp]; [|lia].
  destruct (Z.eqb_spec (i + k) ie), (Z.eqb_spec (i + k) (ie + 4)); try lia.
  destruct (Z.leb_spec k (i + k)), (Z.ltb_spec (i + k) (k + w)), (Z.ltb_spec i w);
    try lia; cbn [andb]; rewrite ?andb_true_r, ?andb_false_r; try done.
  by rewrite Hp by lia.
Qed.

Lemma stack_return_mstatus m p :
  fits w p ->
  let prev := (1 << (ie + 4)) .| (Z.ones w << k) in
  (stack_leave (stack_enter m p) .&~ (Z.ones w << k)) .&~ prev = m .&~ prev.
Proof.
  intros Hp prev. apply Z.bits_inj'. intros i Hi. unfold prev.
  rewrite !Z.ldiff_spec, Z.lor_spec, ones_shiftl_bit, shiftl_1_bit by lia.
  rewrite stack_leave_bit, !stack_enter_bit by (lia || done).
  destruct (Z.eqb_spec i ie) as [->|].
  - destruct (Z.eqb_spec ie (ie + 4)), (Z.eqb_spec (ie + 4) ie), (Z.eqb_spec (ie + 4) (ie + 4)),
      (Z.leb_spec k ie); try lia. cbn. by rewrite !andb_true_r.
  - destruct (i =? ie + 4); [by rewrite !andb_false_r|].
    destruct ((k <=? i) && _); cbn [negb orb]; by rewrite ?andb_false_r, ?andb_true_r.
Qed.
End Stack.

(** *** Trap entry *)

Lemma trap_to_m_fields s cause tval :
  let s' := trap_to_m s cause tval in
  priv s' = PRV_M /\ mstatus s' = stack_enter 3 11 2 (mstatus s) (priv s) /\
  mepc s' = CANONICAL_S49 (pc s) /\ mcause s' = cause /\ mtval s' = CANONICAL_S49 tval /\
  mtvec s' = mtvec s.
Proof.
  unfold trap_to_m, set_priv. destruct (negb _) eqn:E; [done|].
  apply negb_false_iff, Z.eqb_eq in E. split; [exact E|done].
Qed.

Lemma trap_to_s_fields s cause tval :
  let s' := trap_to_s s cause tval in
  priv s' = PRV_S /\ mstatus s' = stack_enter 1 8 1 (mstatus s) (priv s) /\
  sepc s' = CANONICAL_S49 (pc s) /\ scause s' = cause /\ stval s' = CANONICAL_S49 tval /\
  stvec s' = stvec s.
Proof.
  unfold trap_to_s, set_priv. destruct (negb _) eqn:E; [done|].
  apply negb_false_iff, Z.eqb_eq in E. split; [exact E|done].
Qed.

Lemma handle_mret_fields s :
  let m := stack_leave 3 (mstatus s) in
  let s' := handle_mret s in
  priv s' = (m .& MSTATUS_MPP) >> MSTATUS_MPP_SHIFT /\ mstatus s' = m .&~ MSTATUS_MPP /\
  pc s' = mepc s.
Proof.
  unfold handle_mret. set (s1 := s <| mstatus := stack_leave 3 (mstatus s) |>).
  change (let m := stack_leave 3 (mstatus s) in
    let s' := (set_priv (s1 <| mstatus := mstatus s1 .&~ MSTATUS_MPP |>)
                 ((mstatus s1 .& MSTATUS_MPP) >> MSTATUS_MPP_SHIFT)) in
    priv (s' <| pc := mepc s' |>) = (m .& MSTATUS_MPP) >> MSTATUS_MPP_SHIFT /\
    mstatus (s' <| pc := mepc s' |>) = m .&~ MSTATUS_MPP /\ pc (s' <| pc := mepc s' |>) = mepc s).
  cbn zeta. cpu_simpl.
  edestruct (set_priv_fields (s1 <| mstatus := mstatus s1 .&~ MSTATUS_MPP |>))
    as (-> & -> & -> & _). done.
Qed.

Lemma handle_sret_fields s :
  let m := stack_leave 1 (mstatus s) in
  let s' := handle_sret s in
  priv s' = (m .& MSTATUS_SPP) >> MSTATUS_SPP_SHIFT /\ mstatus s' = m .&~ MSTATUS_SPP /\
  pc s' = sepc s.
Proof.
  unfold handle_sret. set (s1 := s <| mstatus := stack_leave 1 (mstatus s) |>).
  change (let m := stack_leave 1 (mstatus s) in
    let s' := (set_priv (s1 <| mstatus := mstatus s1 .&~ MSTATUS_SPP |>)
                 ((mstatus s1 .& MSTATUS_SPP) >> MSTATUS_SPP_SHIFT)) in
    priv (s' <| pc := sepc s' |>) = (m .& MSTATUS_SPP) >> MSTATUS_SPP_SHIFT /\
    mstatus (s' <| pc := sepc s' |>) = m .&~ MSTATUS_SPP /\ pc (s' <| pc := sepc s' |>) = sepc s).
  cbn zeta. cpu_simpl.
  edestruct (set_priv_fields (s1 <| mstatus := mstatus s1 .&~ MSTATUS_SPP |>))
    as (-> & -> & _ & -> & _). done.
Qed.

Lemma delegated_priv s cause : delegated s cause = true -> priv s <= PRV_S.
Proof. unfold delegated. destruct (Z.leb_spec (priv s) PRV_S); done. Qed.

(** The return instruction of the level that took the trap. *)
Definition trap_return (s : RISCVCPUState) (to_s : bool) : RISCVCPUState :=
  if to_s then handle_sret s else handle_mret s.

(** The "previous" fields of that level. *)
Definition prev_fields (to_s : bool) : Z :=
  if to_s then MSTATUS_SPIE .| MSTATUS_SPP else MSTATUS_MPIE .| MSTATUS_MPP.

(** C14 Trap entry followed by the return instruction of the level that took the
    trap resumes the interrupted program: same privilege mode, same pc, and an
    [mstatus] that differs at most in that level's xPIE and xPP fields, whether
    or not the trap was delegated. *)
Theorem trap_return_resumes s cause tval :
  cpu_ok s -> CANONICAL_S49 (pc s) = pc s ->
  let d := delegated s cause in
  let s' := trap_return (raise_exception2 s cause tval) d in
  priv s' = priv s /\ pc s' = pc s /\
  mstatus s' .&~ prev_fields d = mstatus s .&~ prev_fields d.
Proof.
  intros H Hpc d. unfold trap_return, raise_exception2, d.
  pose proof (ok_priv s H) as Hp.
  destruct (delegated s cause) eqn:Ed; cbn zeta.
  - apply delegated_priv in Ed. assert (fits 1 (priv s)) as Hp1 by (unfold fits, PRV_S in *; lia).
    destruct (trap_to_s_fields s cause tval) as (_ & Em & Ep & _). revert Em Ep.
    generalize (trap_to_s s cause tval). intros s1 Em Ep.
    destruct (handle_sret_fields (s1 <| pc := trap_vector (stvec s1) cause |>)) as (-> & -> & ->).
    cpu_simpl. rewrite Em, Ep, Hpc. split; [|split; [done|]].
    + apply (stack_return_priv 1 8 1); lia || done.
    + apply (stack_return_mstatus 1 8 1); lia || done.
  - destruct (trap_to_m_fields s cause tval) as (_ & Em & Ep & _). revert Em Ep.
    generalize (trap_to_m s cause tval). intros s1 Em Ep.
    destruct (handle_mret_fields (s1 <| pc := trap_vector (mtvec s1) cause |>)) as (-> & -> & ->).
    cpu_simpl. rewrite Em, Ep, Hpc. split; [|split; [done|]].
    + apply (stack_return_priv 3 11 2); lia || done.
    + apply (stack_return_mstatus 3 11 2); lia || done.
Qed.

Lemma trap_return_resumes_witness :
  let s := riscv_cpu_init 0x80000000 false false 0 in
  let s' := trap_return (raise_exception2 s CAUSE_ILLEGAL_INSTRUCTION 0) false in
  priv s' = priv s /\ pc s' = pc s /\
  mstatus s' .&~ prev_fields false = mstatus s .&~ prev_fields false.
Proof.
  apply (trap_return_resumes (riscv_cpu_init 0x80000000 false false 0)
           CAUSE_ILLEGAL_INSTRUCTION 0).
  - apply riscv_cpu_init_ok; unfold fits; lia.
  - vm_compute; reflexivity.
Defined.

(** C15 A trap never lowers the privilege mode: it goes to S exactly when it is
    delegated, which requires that it was raised at S or below, and to M
    otherwise; it records cause, pc and trap value at that level and continues
    at the vector of that level. *)
Theorem trap_entry_level s cause tval :
  cpu_ok s ->
  let s' := raise_exception2 s cause tval in
  priv s <= priv s' /\
  if delegated s cause
  then priv s' = PRV_S /\ scause s' = cause /\ sepc s' = CANONICAL_S49 (pc s) /\
       stval s' = CANONICAL_S49 tval /\ pc s' = trap_vector (stvec s) cause
  else priv s' = PRV_M /\ mcause s' = cause /\ mepc s' = CANONICAL_S49 (pc s) /\
       mtval s' = CANONICAL_S49 tval /\ pc s' = trap_vector (mtvec s) cause.
Proof.
  intros H. unfold raise_exception2. pose proof (ok_priv s H) as Hp.
  destruct (delegated s cause) eqn:Ed; cbn zeta.
  - apply delegated_priv in Ed. generalize (trap_to_s_fields s cause tval).
    generalize (trap_to_s s cause tval). intros s1 (E1 & _ & E2 & E3 & E4 & E5).
    cpu_simpl. rewrite E1, E2, E3, E4, E5. auto 6.
  - generalize (trap_to_m_fields s cause tval).
    generalize (trap_to_m s cause tval). intros s1 (E1 & _ & E2 & E3 & E4 & E5).
    cpu_simpl. rewrite E1, E2, E3, E4, E5. split; [unfold fits, PRV_M in *; lia|auto 6].
Qed.

Lemma trap_entry_level_witness :
  let s := riscv_cpu_init 0x80000000 false false 0 in
  priv s <= priv (raise_exception2 s CAUSE_BREAKPOINT 7).
Proof.
  apply (trap_entry_level (riscv_cpu_init 0x80000000 false false 0) CAUSE_BREAKPOINT 7).
  apply riscv_cpu_init_ok; unfold fits; lia.
Defined.

(** *** The choice of the interrupt *)

(** The architectural rule for interrupt [i]: pending, enabled, and its target
    level either above the current mode or equal to it with the level's enable
    bit set. *)
Definition irq_enabled (s : RISCVCPUState) (i : Z) : bool :=
  Z.testbit (mip s) i && Z.testbit (mie s) i &&
  (if Z.testbit (mideleg s) i
   then (priv s <? PRV_S) || ((priv s =? PRV_S) && has (mstatus s) MSTATUS_SIE)
   else (priv s <? PRV_M) || ((priv s =? PRV_M) && has (mstatus s) MSTATUS_MIE)).

(** The order of the privileged architecture: platform interrupts first, the
    higher number first, then the standard ones from the highest privilege level
    to the lowest, at each level external, software and timer. *)
Definition irq_order : list Z :=
  reverse (seqZ 12 20) ++ mjoin ((fun l => [8 + l; l; 4 + l]) <$> [PRV_M; PRV_H; PRV_S; PRV_U]).

Lemma irq_order_priorities : irq_order = reverse (seqZ 12 20) ++ priorities.
Proof. reflexivity. Qed.

Lemma irq_mask_bit s i :
  cpu_ok s -> priv s <> PRV_H -> 0 <= i < 32 ->
  Z.testbit (get_pending_irq_mask s) i = irq_enabled s i.
Proof.
  intros H Hh Hi. unfold get_pending_irq_mask, irq_enabled.
  pose proof (ok_priv s H) as Hp. apply fits_2_cases in Hp.
  assert (Z.testbit (u32 (Z.lnot (mideleg s))) i = negb (Z.testbit (mideleg s) i)) as En.
  { rewrite testbit_trunc, Z.lnot_spec by lia. by destruct (Z.ltb_spec i 32); [|lia]. }
  destruct (Z.eqb_spec (mip s .& mie s) 0) as [E|E].
  { assert (Z.testbit (mip s .& mie s) i = false) as Hz by (rewrite E; apply Z.bits_0).
    rewrite Z.land_spec in Hz. by rewrite Hz, Z.bits_0. }
  rewrite !Z.land_spec. f_equal.
  destruct Hp as [Ep | [Ep | [Ep | Ep]]]; rewrite Ep; [|cbn| done | cbn].
  - cbn. change 0xffffffff with (Z.ones 32). rewrite Z.testbit_ones_nonneg by lia.
    destruct (Z.ltb_spec i 32); [|lia]. by destruct (Z.testbit (mideleg s) i).
  - destruct (has _ _); rewrite ?Z.lor_spec, En; by destruct (Z.testbit (mideleg s) i).
  - destruct (has _ _); rewrite ?En, ?Z.bits_0; by destruct (Z.testbit (mideleg s) i).
Qed.

Lemma irq_scan_app mask l1 l2 :
  Forall (fun i => 0 <= i) l1 ->
  irq_scan mask (l1 ++ l2)
  = if existsb (Z.testbit mask) l1 then irq_scan mask l1 else irq_scan mask l2.
Proof.
  induction 1 as [|i l1 Hi _ IH]; [done|]. cbn [irq_scan app existsb]. rewrite bit_test by done.
  destruct (Z.testbit mask i); [done|]. rewrite IH. cbn [orb]. done.
Qed.

Lemma irq_scan_ext m m' l :
  Forall (fun i => 0 <= i /\ Z.testbit m i = Z.testbit m' i) l -> irq_scan m l = irq_scan m' l.
Proof.
  induction 1 as [|i l [Hi E] _ IH]; [done|]. cbn [irq_scan]. rewrite !bit_test, E, IH by done. done.
Qed.

Lemma irq_scan_spec mask l :
  Forall (fun i => 0 <= i) l -> existsb (Z.testbit mask) l = true ->
  exists pre suf, l = pre ++ irq_scan mask l :: suf /\
    Z.testbit mask (irq_scan mask l) = true /\ Forall (fun j => Z.testbit mask j = false) pre.
Proof.
  induction 1 as [|i l Hi _ IH]; [done|]. cbn [irq_scan existsb]. rewrite bit_test by done.
  destruct (Z.testbit mask i) eqn:E; cbn [orb].
  - intros _. by exists [], l.
  - intros Hl. destruct (IH Hl) as (pre & suf & El & Hb & Hpre).
    exists (i :: pre), suf. split; [by rewrite El at 1|]. auto.
Qed.

Lemma high_bit mask :
  fits 32 mask -> 2 ^ 12 <= mask -> existsb (Z.testbit mask) (reverse (seqZ 12 20)) = true.
Proof.
  intros [H0 H1] Hge. apply existsb_exists. exists (Z.log2 mask). split.
  - apply list_elem_of_In, elem_of_reverse, elem_of_seqZ.
    assert (12 <= Z.log2 mask) by (apply Z.log2_le_pow2; lia).
    assert (Z.log2 mask < 32) by (apply Z.log2_lt_pow2; lia). lia.
  - apply Z.bit_log2. lia.
Qed.

Lemma low_mask mask :
  0 <= mask < 2 ^ 12 -> existsb (Z.testbit mask) (reverse (seqZ 12 20)) = false.
Proof.
  intros Hm. apply not_true_iff_false. rewrite existsb_exists. intros (i & Hi & Hb).
  apply list_elem_of_In, elem_of_reverse, elem_of_seqZ in Hi.
  apply (fits_testbit 12) in Hm as [_ Hm]; [|lia]. rewrite Hm in Hb; [done|lia].
Qed.

Lemma high_bits_nonneg : Forall (fun i => 0 <= i) (reverse (seqZ 12 20)).
Proof. vm_decide. Qed.

(** The two loops scan one priority order. *)
Lemma get_irq_num_scan mask : fits 32 mask -> get_irq_num mask = irq_scan mask irq_order.
Proof.
  intros Hm. rewrite irq_order_priorities. unfold get_irq_num, get_irq_platspecific.
  rewrite irq_scan_app by apply high_bits_nonneg.
  change (1 << 12) with (2 ^ 12). destruct (Z.leb_spec (2 ^ 12) mask).
  - rewrite high_bit by done. change (reverse (seqZ 1 31)) with (reverse (seqZ 12 20) ++ reverse (seqZ 1 11)).
    assert (forall i, i ∈ reverse (seqZ 12 20) ->
      Z.testbit (mask .& u32 (0xffffffff << 12)) i = Z.testbit mask i) as Hb.
    { intros i Hi%elem_of_reverse%elem_of_seqZ. rewrite Z.land_spec, testbit_trunc, Z.shiftl_spec by lia.
      change 0xffffffff with (Z.ones 32). rewrite Z.testbit_ones_nonneg by lia.
      destruct (Z.ltb_spec i 32), (Z.ltb_spec (i - 12) 32); try lia. apply andb_true_r. }
    rewrite irq_scan_app by apply high_bits_nonneg.
    replace (existsb _ _) with true.
    + apply irq_scan_ext, Forall_forall. intros i Hi. split; [|by apply Hb].
      apply elem_of_reverse, elem_of_seqZ in Hi. lia.
    + pose proof (high_bit mask Hm ltac:(lia)) as Hh. apply existsb_exists in Hh as (i & Hi & Hbit).
      symmetry. apply existsb_exists. exists i. split; [done|].
      rewrite Hb; [done|by apply list_elem_of_In].
  - rewrite low_mask; [done|]. unfold fits in Hm. lia.
Qed.

Lemma irq_order_all i : 0 <= i < 32 -> In i irq_order.
Proof.
  intros Hi. assert (Forall (fun j => j ∈ irq_order) (seqZ 0 32)) as Hall by vm_decide.
  rewrite Forall_forall in Hall. apply list_elem_of_In, Hall, elem_of_seqZ. lia.
Qed.

Lemma get_pending_irq_mask_fits s : cpu_ok s -> fits 32 (get_pending_irq_mask s).
Proof.
  intros H. unfold get_pending_irq_mask. destruct (_ =? 0); [width|].
  apply fits_land_l; [lia|]. apply fits_land_l; [lia|]. apply H.
Qed.

Lemma get_irq_num_first mask :
  fits 32 mask -> mask <> 0 ->
  exists pre suf, irq_order = pre ++ get_irq_num mask :: suf /\
    Z.testbit mask (get_irq_num mask) = true /\ Forall (fun j => Z.testbit mask j = false) pre.
Proof.
  intros Hm Hnz. rewrite get_irq_num_scan by done. apply irq_scan_spec; [vm_decide|].
  apply existsb_exists. exists (Z.log2 mask). unfold fits in Hm. split; [|apply Z.bit_log2; lia].
  apply irq_order_all. split; [apply Z.log2_nonneg|]. apply Z.log2_lt_pow2; lia.
Qed.

(** The cause of interrupt [i] and its delegation. *)
Lemma irq_cause s i :
  0 <= i < 32 ->
  delegated s (i .| CAUSE_INTERRUPT) = (priv s <=? PRV_S) && Z.testbit (mideleg s) i.
Proof.
  intros Hi. assert (fits 6 i) as Hf by (unfold fits; lia).
  unfold delegated. destruct (priv s <=? PRV_S); [|done]. cbn [andb].
  replace (has (i .| CAUSE_INTERRUPT) CAUSE_INTERRUPT) with true.
  - replace ((i .| CAUSE_INTERRUPT) .& 63) with i; [apply bit_test; lia|].
    rewrite Z.land_lor_distr_l. change (CAUSE_INTERRUPT .& 63) with 0. rewrite Z.lor_0_r.
    change 63 with (Z.ones 6). symmetry. by apply land_ones_small.
  - symmetry. change CAUSE_INTERRUPT with (1 << 63). rewrite has_bit, Z.lor_spec by lia.
    by rewrite shiftl_1_bit, Z.eqb_refl, orb_true_r by lia.
Qed.

Lemma raise_exception2_priv s cause tval :
  priv (raise_exception2 s cause tval) = if delegated s cause then PRV_S else PRV_M.
Proof.
  unfold raise_exception2. destruct (delegated s cause); cbv zeta.
  - generalize (trap_to_s_fields s cause tval). generalize (trap_to_s s cause tval).
    intros s1 (E & _). exact E.
  - generalize (trap_to_m_fields s cause tval). generalize (trap_to_m s cause tval).
    intros s1 (E & _). exact E.
Qed.

(** An enabled interrupt that is delegated is taken at S or below. *)
Lemma irq_enabled_level s i :
  fits 2 (priv s) -> irq_enabled s i = true ->
  (priv s <=? PRV_S) && Z.testbit (mideleg s) i = Z.testbit (mideleg s) i.
Proof.
  intros Hp. unfold irq_enabled. destruct (Z.testbit (mideleg s) i); [|by rewrite andb_false_r].
  apply fits_2_cases in Hp. rewrite andb_true_r, andb_true_iff. intros [_ Hb].
  by destruct Hp as [E | [E | [E | E]]]; rewrite E in *.
Qed.


(** A hart in U mode with a machine timer and a delegated supervisor software
    interrupt pending: the timer is taken first, in M mode. *)
Definition irq_demo : RISCVCPUState :=
  (riscv_cpu_init 0 false false 0) <| priv := PRV_U |> <| mip := MIP_MTIP .| MIP_SSIP |>
    <| mie := MIP_MTIP .| MIP_SSIP |> <| mideleg := MIP_SSIP |>.

Lemma irq_setup_ok s a b c :
  cpu_ok s -> fits 32 a -> fits 32 b -> fits 32 c ->
  cpu_ok (s <| priv := PRV_U |> <| mip := a |> <| mie := b |> <| mideleg := c |>).
Proof. intros H Ha Hb Hc. cpu_ok_split H. unfold PRV_U. width. Qed.

Lemma irq_demo_ok : cpu_ok irq_demo.
Proof. apply irq_setup_ok; [apply riscv_cpu_init_0_ok|vm_decide..]. Qed.


(** *** Effective privilege and the TLB *)

(** A translation can outlive the privilege it was checked for: returning
    from M to M with [mstatus.MPRV] set clears MPP, so the privilege of data
    accesses drops from M to U, but the privilege mode did not change and the
    TLBs are left as they were. *)
Theorem mret_keeps_stale_tlb s :
  priv s = PRV_M -> has (mstatus s) MSTATUS_MPRV = true -> mstatus s .& MSTATUS_MPP = MSTATUS_MPP ->
  let s' := handle_mret s in
  effective_priv s false = PRV_M /\ effective_priv s' false = PRV_U /\
  tlb_read s' = tlb_read s /\ tlb_write s' = tlb_write s.
Proof.
  intros Hp Hmprv Hmpp s'.
  assert (forall n, n .& (MSTATUS_MIE .| MSTATUS_MPIE) = 0 ->
            stack_leave 3 (mstatus s) .& n = mstatus s .& n) as Hl.
  { intros n En. apply Z.bits_inj'. intros i Hi. rewrite !Z.land_spec, stack_leave_bit by lia.
    destruct (Z.testbit n i) eqn:Ei; [|by rewrite !andb_false_r]. rewrite !andb_true_r.
    pose proof (land_disjoint_bit _ _ _ En Ei) as Hd. rewrite Z.lor_spec in Hd.
    unfold MSTATUS_MIE, MSTATUS_MPIE, MSTATUS_MPIE_SHIFT in Hd. rewrite !shiftl_1_bit in Hd by lia.
    apply orb_false_iff in Hd as [E3 E7]. change (3 + 4) with 7. by rewrite E3, E7. }
  destruct (handle_mret_fields s) as (Ep & Em & _). fold s' in Ep, Em.
  rewrite Hl, Hmpp in Ep by done. unfold effective_priv. rewrite Hmprv, Em. cbn [andb negb].
  rewrite !field_land by (unfold MSTATUS_MPP_SHIFT; lia). fold MSTATUS_MPP. rewrite Hmpp.
  split; [done|]. split.
  - unfold has. rewrite Z.ldiff_land, <- Z.land_assoc.
    change (Z.lnot MSTATUS_MPP .& MSTATUS_MPRV) with MSTATUS_MPRV. rewrite Hl by done.
    fold (has (mstatus s) MSTATUS_MPRV). rewrite Hmprv.
    rewrite <- Z.land_assoc, (Z.land_comm (Z.lnot _)), Z.land_lnot_diag, Z.land_0_r. done.
  - unfold s', handle_mret, set_priv. cbv zeta. cpu_simpl. rewrite Hp.
    fold (stack_leave 3 (mstatus s)).
    assert ((stack_leave 3 (mstatus s) .& MSTATUS_MPP) >> MSTATUS_MPP_SHIFT = PRV_M) as E
        by (rewrite Hl, Hmpp; done).
    unfold stack_leave in E. change (1 << (3 + 4)) with MSTATUS_MPIE in E.
    change (1 << 3) with MSTATUS_MIE in E. rewrite E. done.
Qed.

Lemma mret_keeps_stale_tlb_witness :
  let s := zero_cpu <| priv := PRV_M |> <| mstatus := MSTATUS_MPRV .| MSTATUS_MPP |> in
  effective_priv s false = PRV_M /\ effective_priv (handle_mret s) false = PRV_U.
Proof.
  destruct (mret_keeps_stale_tlb
    (zero_cpu <| priv := PRV_M |> <| mstatus := MSTATUS_MPRV .| MSTATUS_MPP |>)) as (H1 & H2 & _);
    [reflexivity|reflexivity|reflexivity|]. exact (conj H1 H2).
Defined.

(** *** Well-formedness *)

Lemma stack_enter_fits ie k w m p :
  0 <= ie -> ie + 4 < k -> 0 < w -> k + w <= 64 -> fits 64 m -> fits w p ->
  fits 64 (stack_enter ie k w m p).
Proof.
  intros. unfold stack_enter. apply fits_ldiff; [lia|]. apply fits_lor; [lia| |].
  - apply fits_ldiff; [lia|]. apply fits_lor; [lia|width|].
    apply fits_shiftl; [lia|]. apply fits_b2z. lia.
  - apply fits_shiftl; [lia|]. apply (fits_mono w); [lia|done].
Qed.

Lemma stack_leave_fits ie m : 0 <= ie < 60 -> fits 64 m -> fits 64 (stack_leave ie m).
Proof.
  intros. unfold stack_leave. pose proof (fits_pow2 (ie + 4) 64 ltac:(lia)). width.
Qed.

Lemma trap_to_m_ok s cause tval :
  cpu_ok s -> fits 64 cause -> cpu_ok (trap_to_m s cause tval).
Proof.
  intros H Hc. apply set_priv_ok; [|unfold PRV_M, fits; lia].
  assert (fits 64 (stack_enter 3 11 2 (mstatus s) (priv s))) as Hm
      by (apply stack_enter_fits; (lia || apply H)).
  cpu_ok_split H; apply canonical_fits.
Qed.

Lemma trap_to_s_ok s cause tval :
  cpu_ok s -> fits 64 cause -> priv s <= PRV_S -> cpu_ok (trap_to_s s cause tval).
Proof.
  intros H Hc Hp. apply set_priv_ok; [|unfold PRV_S, fits; lia].
  assert (fits 64 (stack_enter 1 8 1 (mstatus s) (priv s))) as Hm.
  { pose proof (ok_priv s H). unfold PRV_S in Hp.
    apply stack_enter_fits; (lia || apply H || (unfold fits in *; lia)). }
  cpu_ok_split H; apply canonical_fits.
Qed.

Lemma raise_exception2_ok s cause tval :
  cpu_ok s -> fits 64 cause -> cpu_ok (raise_exception2 s cause tval).
Proof.
  intros H Hc. unfold raise_exception2. destruct (delegated s cause) eqn:E; cbv zeta.
  - apply delegated_priv in E. generalize (trap_to_s_ok s cause tval H Hc E).
    generalize (trap_to_s s cause tval). intros s1 H1. apply upd_pc_ok; [exact H1|].
    apply trap_vector_fits, H1.
  - generalize (trap_to_m_ok s cause tval H Hc).
    generalize (trap_to_m s cause tval). intros s1 H1. apply upd_pc_ok; [exact H1|].
    apply trap_vector_fits, H1.
Qed.

Lemma handle_mret_ok s : cpu_ok s -> cpu_ok (handle_mret s).
Proof.
  intros H. unfold handle_mret. cbv zeta.
  assert (fits 64 (stack_leave 3 (mstatus s))) as Hm by (apply stack_leave_fits; [lia|apply H]).
  match goal with |- cpu_ok (?s1 <| pc := _ |>) => enough (cpu_ok s1) as H1 end.
  - apply upd_pc_ok; [exact H1|apply H1].
  - apply set_priv_ok.
    + cpu_ok_split H. apply fits_ldiff; [lia|exact Hm].
    + unfold MSTATUS_MPP. rewrite <- field_land by (unfold MSTATUS_MPP_SHIFT; lia).
      change 3 with (Z.ones 2). apply field_range. lia.
Qed.

Lemma handle_sret_ok s : cpu_ok s -> cpu_ok (handle_sret s).
Proof.
  intros H. unfold handle_sret. cbv zeta.
  assert (fits 64 (stack_leave 1 (mstatus s))) as Hm by (apply stack_leave_fits; [lia|apply H]).
  match goal with |- cpu_ok (?s1 <| pc := _ |>) => enough (cpu_ok s1) as H1 end.
  - apply upd_pc_ok; [exact H1|apply H1].
  - apply set_priv_ok.
    + cpu_ok_split H. apply fits_ldiff; [lia|exact Hm].
    + unfold MSTATUS_SPP. rewrite <- field_land by (unfold MSTATUS_SPP_SHIFT; lia).
      change 1 with (Z.ones 1). apply (fits_mono 1); [lia|]. apply field_range. lia.
Qed.

Lemma handle_dret_ok s : cpu_ok s -> cpu_ok (handle_dret s).
Proof.
  intros H. unfold handle_dret. cbv zeta.
  match goal with |- cpu_ok (?s1 <| pc := _ |>) => enough (cpu_ok s1) as H1 end.
  - apply upd_pc_ok; [exact H1|apply H1].
  - apply set_priv_ok; [cpu_ok_split H|]. change 3 with (Z.ones 2). rewrite <- trunc_ones by lia.
    width.
Qed.
