(* ===== verification/Machine.v ===== *)
(** * The machine ([include/riscv_machine.h], [include/machine.h])

    What the hart code reads and writes outside its own [RISCVCPUState]: the
    other harts, the memory map and host memory, the store sequence number, the
    flags of [VirtMachine] it tests, the PLIC lines and the device models.
    [cpu] is the hart that is running ([s] of the source), [hartid] its index in
    [cpu_state]; [harts] holds the harts, where the entry of the running one is
    out of date until [unfocus].

    Device models are a parameter: [Devices D] states how a device type
    provides the [read_func] and [write_func] callbacks of its ranges. *)

From S2P Require Import Prelude Iomem Cpu Pmp Csr Trap.

(** [ExtensionFlags], the flags the interpreter tests. *)
Record ExtensionFlags := mkExt { zba : bool; zbb : bool; zbc : bool; zbs : bool }.

Record RISCVMachine {D : Type} := mkMachine {
  cpu : RISCVCPUState;
  hartid : nat;
  harts : list RISCVCPUState;
  mem_map : PhysMemoryMap;
  host : hostmem;
  memseqno : Z;
  hooks : RISCVMachineHooks;
  pending_interrupt : Z;
  cosim : bool;
  ext_flags : ExtensionFlags;
  stf_memrecord_size_in_bits : bool;
  stf_tracing_enabled : bool;
  stf_in_traceable_region : bool;
  stf_highest_priv_mode : Z;
  htif_tohost_addr : Z;
  plic_pending_irq : Z;
  plic_served_irq : Z;
  devs : D
}.
Arguments RISCVMachine : clear implicits.

Definition machine_eta {D} (m : RISCVMachine D) : RISCVMachine D :=
  mkMachine D (cpu m) (hartid m) (harts m) (mem_map m) (host m) (memseqno m) (hooks m)
    (pending_interrupt m) (cosim m) (ext_flags m) (stf_memrecord_size_in_bits m)
    (stf_tracing_enabled m) (stf_in_traceable_region m) (stf_highest_priv_mode m)
    (htif_tohost_addr m) (plic_pending_irq m) (plic_served_irq m) (devs m).

Ltac machine_setter :=
  lazymatch goal with
  | |- @Setter ?R ?F ?proj =>
      let f := fresh "f" in let r := fresh "r" in
      unfold Setter; intros f r;
      let t := eval cbv beta delta [machine_eta] in (machine_eta r) in
      lazymatch t with
      | context C [proj r] => let t' := context C [f (proj r)] in exact t'
      end
  end.

#[export] Instance upd_cpu {D} : Setter (@cpu D) := ltac:(machine_setter).
#[export] Instance upd_hartid {D} : Setter (@hartid D) := ltac:(machine_setter).
#[export] Instance upd_harts {D} : Setter (@harts D) := ltac:(machine_setter).
#[export] Instance upd_mem_map {D} : Setter (@mem_map D) := ltac:(machine_setter).
#[export] Instance upd_host {D} : Setter (@host D) := ltac:(machine_setter).
#[export] Instance upd_memseqno {D} : Setter (@memseqno D) := ltac:(machine_setter).
#[export] Instance upd_pending_interrupt {D} : Setter (@pending_interrupt D) :=
  ltac:(machine_setter).
#[export] Instance upd_cosim {D} : Setter (@cosim D) := ltac:(machine_setter).
#[export] Instance upd_plic_pending_irq {D} : Setter (@plic_pending_irq D) :=
  ltac:(machine_setter).
#[export] Instance upd_plic_served_irq {D} : Setter (@plic_served_irq D) :=
  ltac:(machine_setter).
#[export] Instance upd_devs {D} : Setter (@devs D) := ltac:(machine_setter).

(** Computes projections of updated machines. *)
Ltac mach_simpl :=
  cbn [upd upd_cpu upd_hartid upd_harts upd_mem_map upd_host upd_memseqno upd_pending_interrupt
       upd_cosim upd_plic_pending_irq upd_plic_served_irq upd_devs cpu hartid harts mem_map host memseqno
       hooks pending_interrupt cosim ext_flags stf_memrecord_size_in_bits stf_tracing_enabled
       stf_in_traceable_region stf_highest_priv_mode htif_tohost_addr plic_pending_irq
       plic_served_irq devs].

(** ** Device callbacks *)

(** A device is identified by the [opaque] handle of its range.  The callbacks
    see the whole machine, as the C++ ones do through their opaque pointer. *)
Class Devices (D : Type) := {
  dev_read : Z -> Z -> Z -> RISCVMachine D -> Z * RISCVMachine D;
  dev_write : Z -> Z -> Z -> Z -> RISCVMachine D -> RISCVMachine D
}.

(** A machine without devices. *)
#[export] Instance no_devices : Devices unit := {
  dev_read _ _ _ m := (0, m);
  dev_write _ _ _ _ m := m
}.

(** ** Harts *)

Section Harts.
Context {D : Type}.

(** [machine->cpu_state[i]]. *)
Definition get_hart (m : RISCVMachine D) (i : nat) : RISCVCPUState :=
  if Nat.eqb i (hartid m) then cpu m else nth i (harts m) zero_cpu.

Definition set_hart (m : RISCVMachine D) (i : nat) (s : RISCVCPUState) : RISCVMachine D :=
  if Nat.eqb i (hartid m) then m <| cpu := s |> else m <| harts ::= <[i := s]> |>.

(** Lets hart [i] run. *)
Definition focus (m : RISCVMachine D) (i : nat) : RISCVMachine D :=
  let s := get_hart m i in
  m <| harts ::= <[hartid m := cpu m]> |> <| cpu := s |> <| hartid := i |>.

Lemma get_set_hart m i s : (i < length (harts m))%nat -> get_hart (set_hart m i s) i = s.
Proof.
  intros Hi. unfold get_hart, set_hart. destruct (Nat.eqb i (hartid m)) eqn:E; mach_simpl; rewrite E;
    [done|]. by rewrite nth_lookup, list_lookup_insert_eq.
Qed.

Lemma get_set_hart_ne m i j s : i <> j -> get_hart (set_hart m i s) j = get_hart m j.
Proof.
  intros Hij. unfold get_hart, set_hart.
  destruct (Nat.eqb_spec i (hartid m)) as [->|]; mach_simpl; destruct (Nat.eqb_spec j (hartid m));
    try done; try congruence. by rewrite !nth_lookup, list_lookup_insert_ne.
Qed.
End Harts.

(** ** The hart monad

    A computation of the hart code: it threads the machine and either returns or
    leaves early with an [E]. *)
Section Monad.
Context {D : Type}.

Definition M (E A : Type) : Type := RISCVMachine D -> (E + A) * RISCVMachine D.

Definition ret {E A} (a : A) : M E A := fun m => (inr a, m).
Definition throw {E A} (e : E) : M E A := fun m => (inl e, m).
Definition bind {E A B} (x : M E A) (f : A -> M E B) : M E B := fun m =>
  match x m with
  | (inl e, m') => (inl e, m')
  | (inr a, m') => f a m'
  end.

(** Replaces the early exit. *)
Definition catch {E E' A} (x : M E A) (h : E -> E') : M E' A := fun m =>
  match x m with
  | (inl e, m') => (inl (h e), m')
  | (inr a, m') => (inr a, m')
  end.

Definition getm {E} : M E (RISCVMachine D) := fun m => (inr m, m).
Definition modm {E} (f : RISCVMachine D -> RISCVMachine D) : M E unit := fun m => (inr tt, f m).
(** The running hart. *)
Definition gets {E A} (f : RISCVCPUState -> A) : M E A := fun m => (inr (f (cpu m)), m).
Definition mods {E} (f : RISCVCPUState -> RISCVCPUState) : M E unit :=
  fun m => (inr tt, m <| cpu ::= f |>).
End Monad.

Declare Scope hart_scope.
Delimit Scope hart_scope with hart.
Notation "x <- a ;; b" := (bind a (fun x => b))
  (at level 100, a at next level, right associativity) : hart_scope.
Notation "a ;;; b" := (bind a (fun _ => b))
  (at level 100, right associativity) : hart_scope.
Notation "'let_' ' x <- a ;; b" := (bind a (fun y => let 'x := y in b))
  (at level 100, x pattern, a at next level, right associativity) : hart_scope.
Global Open Scope hart_scope.

(** ** Program logic

    [wp x Q R m]: from [m], [x] returns with [Q] or leaves early with [R]. *)
Definition wp {D E A} (x : M E A) (Q : A -> RISCVMachine D -> Prop) (R : E -> RISCVMachine D -> Prop)
  (m : RISCVMachine D) : Prop :=
  match x m with
  | (inr a, m') => Q a m'
  | (inl e, m') => R e m'
  end.

(** [safe P R V x]: from [P], [x] re-establishes [P] and returns a value with
    [V], or leaves early with [R]. *)
Definition safe {D E A} (P : RISCVMachine D -> Prop) (R : E -> RISCVMachine D -> Prop) (V : A -> Prop)
  (x : M E A) : Prop :=
  forall m, P m -> wp x (fun a m' => V a /\ P m') R m.

(** No claim about the returned value. *)
Abbreviation whatever := (fun _ => True).

Create HintDb safe.

Section Logic.
Context {D : Type}.
Implicit Types (P : RISCVMachine D -> Prop).

Lemma wp_bind {E A B} (x : M E A) (f : A -> M E B) (Q : B -> RISCVMachine D -> Prop) R m :
  wp x (fun a => wp (f a) Q R) R m -> wp (bind x f) Q R m.
Proof. unfold wp, bind. by destruct (x m) as [[e|a] m']. Qed.

Lemma wp_mono {E A} (x : M E A) (Q Q' : A -> RISCVMachine D -> Prop) (R R' : E -> RISCVMachine D -> Prop) m :
  wp x Q R m -> (forall a m', Q a m' -> Q' a m') -> (forall e m', R e m' -> R' e m') ->
  wp x Q' R' m.
Proof. unfold wp. destruct (x m) as [[e|a] m']; auto. Qed.

Context {E : Type} (P : RISCVMachine D -> Prop) (R : E -> RISCVMachine D -> Prop).

Lemma safe_ret {A} (V : A -> Prop) a : V a -> safe P R V (ret a).
Proof. intros Ha m H. by split. Qed.

Lemma safe_bind {A B} (V : A -> Prop) (W : B -> Prop) (x : M E A) (f : A -> M E B) :
  safe P R V x -> (forall a, V a -> safe P R W (f a)) -> safe P R W (bind x f).
Proof.
  intros Hx Hf m H. apply wp_bind. eapply wp_mono; [by apply Hx| |done].
  intros a m' [Ha H']. by apply Hf.
Qed.

Lemma safe_weaken {A} (V : A -> Prop) (x : M E A) : safe P R V x -> safe P R whatever x.
Proof.
  intros Hx m H. eapply wp_mono; [by apply Hx| |done]. intros a m' [_ H']. by split.
Qed.

Lemma safe_throw {A} (V : A -> Prop) e : (forall m, P m -> R e m) -> safe P R V (throw e).
Proof. intros He m H. by apply He. Qed.

Lemma safe_catch {E' A} (V : A -> Prop) (R' : E' -> RISCVMachine D -> Prop) (x : M E' A) h :
  safe P R' V x -> (forall e m, R' e m -> R (h e) m) -> safe P R V (catch x h).
Proof.
  intros Hx He m H. specialize (Hx m H). unfold wp, catch in *.
  destruct (x m) as [[e|a] m']; auto.
Qed.

Lemma safe_getm : safe P R P getm.
Proof. intros m H. by split. Qed.

Lemma safe_gets {A} (V : A -> Prop) f : (forall m, P m -> V (f (cpu m))) -> safe P R V (gets f).
Proof. intros Hf m H. split; [by apply Hf|done]. Qed.

Lemma safe_modm f : (forall m, P m -> P (f m)) -> safe P R whatever (modm f).
Proof. intros Hf m H. split; [done|by apply Hf]. Qed.

Lemma safe_mods f : (forall m, P m -> P (m <| cpu ::= f |>)) -> safe P R whatever (mods f).
Proof. intros Hf m H. split; [done|by apply Hf]. Qed.
End Logic.
