(* ===== verification/Mmu.v ===== *)
(** * Memory accesses of a hart ([src/riscv_cpu.cpp], lines 169-887)

    Access tracking, triggers, physical accesses under PMP, the Sv39/Sv48 page
    walk, the TLB fast paths and the slow paths behind them, and instruction
    fetch.  The build has [CONFIG_ALLOW_MISALIGNED_ACCESS] 0 and
    [CONFIG_SW_MANAGED_A_AND_D] 1: the branches these macros make dead (splitting
    of misaligned accesses, hardware update of A and D) are left out, and the
    widths are 8 to 64 bits ([MLEN] 64). *)

From S2P Require Import Prelude Iomem Cpu Pmp Csr Trap Machine.

Definition PTE_V_MASK : Z := 1 << 0.
Definition PTE_U_MASK : Z := 1 << 4.
Definition PTE_A_MASK : Z := 1 << 6.
Definition PTE_D_MASK : Z := 1 << 7.

(** The result of [riscv_cpu_get_phys_addr]: 0, -1 or -2. *)
Inductive xlate := XOk (paddr : Z) | XFault | XIllegal.

(** The C++ result -1 of an access: [pending_exception] and [pending_tval] are
    set. *)
Inductive fault := Fault.

(** Bytes and bits of an access of [1 << n] bytes. *)
Definition bytes (n : Z) : Z := 1 << n.
Definition bits (n : Z) : Z := 8 * bytes n.

(** ** Triggers *)

Definition trigger_match (t1 t2 addr : Z) : bool :=
  let t_match := (t1 .& MCONTROL_MATCH) >> 7 in
  let napot_mask := u64 (Z.lnot (u64 (t2 + 1) .^ t2)) in
  let napot_addr := napot_mask .& addr in
  let napot_tdata2 := napot_mask .& t2 in
  ((t_match =? MCONTROL_MATCH_EQUAL) && (addr =? t2))
  || ((t_match =? MCONTROL_MATCH_NAPOT) && (napot_addr =? napot_tdata2))
  || ((t_match =? MCONTROL_MATCH_GE) && (t2 <=? addr))
  || ((t_match =? MCONTROL_MATCH_LT) && (addr <? t2)).

Fixpoint trigger_loop (s : RISCVCPUState) (t_mctl addr : Z) (i : Z) (fuel : nat)
  : bool * RISCVCPUState :=
  match fuel with
  | O => (false, s)
  | S fuel' =>
      let t1 := aget 0 (tdata1 s) i in
      let t2 := aget 0 (tdata2 s) i in
      if ((t1 .& t_mctl) =? t_mctl) && trigger_match t1 t2 addr then
        if has t2 MCONTROL_ACTION && has t1 MCONTROL_DMODE
        then (true, (riscv_set_debug_mode s true) <| pc := 0x0800 |>)
        else (true, s <| pending_exception := CAUSE_BREAKPOINT |> <| pending_tval := addr |>)
      else trigger_loop s t_mctl addr (i + 1) fuel'
  end.

Definition check_triggers (s : RISCVCPUState) (t_mctl addr : Z) : bool * RISCVCPUState :=
  if debug_mode s then (false, s)
  else trigger_loop s (t_mctl .| u64 (MCONTROL_U << priv s)) addr 0 (Z.to_nat MAX_TRIGGERS).

Section Mmu.
Context {D : Type} {dv : Devices D}.
Abbreviation machine := (RISCVMachine D).

(** ** Tracking *)

Definition track_size (m : machine) (size : Z) : Z :=
  if stf_memrecord_size_in_bits m then size else size / 8.

Definition track_write (m : machine) (va pa data size : Z) (trace_en : bool) : machine :=
  let size := track_size m size in
  let m := m <| cpu ::= fun s => s <| last_data_paddr := pa |> <| last_data_vaddr := va |>
                                   <| last_data_size := size |> <| last_data_type := 1 |> |> in
  if trace_en && stf_tracing_enabled m then
    let priv_ok := priv (get_hart m 0) <=? stf_highest_priv_mode m in
    if priv_ok
    then m <| cpu ::= fun s => s <| stf_mem_writes ::= fun l => l ++ [mkAccess va size data] |> |>
    else m
  else m.

(** Returns [data] unchanged in the source. *)
Definition track_dread (m : machine) (va pa data size : Z) (trace_en : bool) : machine :=
  let size := track_size m size in
  let m := m <| cpu ::= fun s => s <| last_data_paddr := pa |> <| last_data_vaddr := va |>
                                   <| last_data_size := size |> <| last_data_type := 0 |> |> in
  if trace_en && stf_tracing_enabled m then
    let priv_ok := priv (get_hart m 0) <=? stf_highest_priv_mode m in
    let not_tohost := negb (va =? htif_tohost_addr m) in
    if priv_ok && not_tohost
    then m <| cpu ::= fun s => s <| stf_mem_reads ::= fun l => l ++ [mkAccess va size data] |> |>
    else m
  else m.

(** ** Physical accesses *)

(** [inl tt]: blocked by PMP ([fail] set, [NULL] returned). *)
Definition get_phys_mem_range_pmp (m : machine) (paddr size perm : Z)
  : unit + option (nat * PhysMemoryRange) :=
  if negb (riscv_cpu_pmp_access_ok (cpu m) paddr size perm) then inl tt
  else inr (get_phys_mem_range (mem_map m) paddr).

(** [pr->phys_mem + (paddr - pr->addr)]. *)
Definition host_ptr (pr : PhysMemoryRange) (paddr : Z) : Z :=
  u64 (phys_mem pr + u64 (paddr - pr_addr pr)).

Definition load_host (m : machine) (p n : Z) : Z := load_le (host m) p (Z.to_nat (bytes n)).

Definition store_host (m : machine) (p n v : Z) : machine :=
  m <| host ::= fun h => store_le h p (Z.to_nat (bytes n)) v |>.

(** [riscv_phys_write_u8/32/64]; the boolean is [*fail]. *)
Definition riscv_phys_write (n : Z) (m : machine) (paddr val : Z) : bool * machine :=
  match get_phys_mem_range_pmp m paddr (bytes n) PMPCFG_W with
  | inr (Some (_, pr)) =>
      if is_ram pr then
        let m := track_write m paddr paddr val (bits n) false in
        (false, store_host m (host_ptr pr paddr) n val)
      else (true, m)
  | _ => (true, m)
  end.

(** [riscv_phys_read_u8/32/64]; [None] is [*fail]. *)
Definition riscv_phys_read (n : Z) (m : machine) (paddr : Z) : option Z * machine :=
  match get_phys_mem_range_pmp m paddr (bytes n) PMPCFG_R with
  | inr (Some (_, pr)) =>
      let pval := load_host m (host_ptr pr paddr) n in
      (Some pval, track_dread m paddr paddr pval (bits n) false)
  | _ => (None, m)
  end.

(** ** Address translation *)

(** The checks on a leaf PTE at level [j] ([levels - 1 - i] of the source). *)
Definition leaf_ok (s : RISCVCPUState) (p : Z) (access : riscv_memory_access_t) (pte j : Z) : bool :=
  let xwr := (pte >> 1) .& 7 in
  negb ((xwr =? 2) || (xwr =? 6))
  && (if p =? PRV_S then negb (has pte PTE_U_MASK && negb (has (mstatus s) MSTATUS_SUM))
      else has pte PTE_U_MASK)
  && (let xwr := if has (mstatus s) MSTATUS_MXR then xwr .| (xwr >> 2) else xwr in
      negb (((xwr >> access_idx access) .& 1) =? 0))
  && (let ppn := u32 (pte >> 10) in negb (has ((1 << j) - 1) ppn))
  && has pte PTE_A_MASK
  && (match access with ACCESS_WRITE => has pte PTE_D_MASK | _ => true end).

(** The loop of the walk, from the level [j] down to 0 ([fuel] is [j + 1]). *)
Fixpoint walk (m : machine) (p va : Z) (access : riscv_memory_access_t) (pte_addr j : Z) (fuel : nat)
  : xlate * machine :=
  match fuel with
  | O => (XFault, m)
  | S fuel' =>
      let vaddr_shift := PG_SHIFT + 9 * j in
      let pte_idx := (va >> vaddr_shift) .& 511 in
      let pte_addr := u64 (pte_addr + (pte_idx << 3)) in
      match riscv_phys_read 3 m pte_addr with
      | (None, m) => (XIllegal, m)
      | (Some pte, m) =>
          if negb (has pte PTE_V_MASK) then (XFault, m)
          else
            let paddr := u64 ((pte >> 10) << PG_SHIFT) in
            let xwr := (pte >> 1) .& 7 in
            if nz xwr then
              if leaf_ok (cpu m) p access pte j then
                let vaddr_mask := (1 << vaddr_shift) - 1 in
                (XOk ((paddr .&~ vaddr_mask) .| (va .& vaddr_mask)), m)
              else (XFault, m)
            else walk m p va access paddr (j - 1) fuel'
      end
  end.

Definition is_code (access : riscv_memory_access_t) : bool :=
  match access with ACCESS_CODE => true | _ => false end.

Definition satp_mode (s : RISCVCPUState) : Z := (satp s >> 60) .& 0xf.

(** [((target_long)va << sh) >> sh == (target_long)va]. *)
Definition canonical (va sh : Z) : bool := (i64 (va << sh) >> sh) =? i64 va.

Definition riscv_cpu_get_phys_addr (m : machine) (va : Z) (access : riscv_memory_access_t)
  : xlate * machine :=
  let s := cpu m in
  let p := effective_priv s (is_code access) in
  if p =? PRV_M then (XOk va, m)
  else
    let mode := satp_mode s in
    if mode =? 0 then (XOk va, m)
    else
      let levels := mode - 8 + 3 in
      if negb (canonical va (64 - (PG_SHIFT + levels * 9))) then (XFault, m)
      else
        let pte_addr := u64 ((satp s .& ((1 << 44) - 1)) << PG_SHIFT) in
        walk m p va access pte_addr (levels - 1) (Z.to_nat levels).

(** ** Loads *)

Definition set_pending (cause tval : Z) : M (D := D) fault unit :=
  mods (fun s => s <| pending_tval := tval |> <| pending_exception := cause |>).

Definition fail_with {A} (cause tval : Z) : M (D := D) fault A :=
  set_pending cause tval ;;; throw Fault.

Definition tlb_index (addr : Z) : Z := (addr >> PG_SHIFT) .& (TLB_SIZE - 1).
Definition page_of (addr : Z) : Z := addr .&~ PG_MASK.

(** [addr & ~(PG_MASK & ~(size - 1))]: the page of an aligned access. *)
Definition tlb_tag (addr n : Z) : Z := addr .&~ (PG_MASK .&~ (bytes n - 1)).

Definition unaligned (addr n : Z) : bool := nz (addr .& (bytes n - 1)).

Definition fill_tlb_read (addr paddr ptr : Z) (s : RISCVCPUState) : RISCVCPUState :=
  s <| tlb_read ::= fun l => aset l (tlb_index addr) (mkTLB (page_of addr) (u64 (ptr - addr))) |>
    <| tlb_read_paddr_addend ::= fun l => aset l (tlb_index addr) (u64 (paddr - addr)) |>.

Definition fill_tlb_write (addr paddr ptr : Z) (s : RISCVCPUState) : RISCVCPUState :=
  s <| tlb_write ::= fun l => aset l (tlb_index addr) (mkTLB (page_of addr) (u64 (ptr - addr))) |>
    <| tlb_write_paddr_addend ::= fun l => aset l (tlb_index addr) (u64 (paddr - addr)) |>.

(** The callbacks take a 32-bit offset and value and return [uint32_t]. *)
Definition device_read (pr : PhysMemoryRange) (paddr n : Z) : M (D := D) fault Z := fun m =>
  let offset := u64 (paddr - pr_addr pr) in
  if nz ((devio_flags pr >> n) .& 1) then
    let '(v, m) := dev_read (opaque pr) (u32 offset) n m in (inr (u32 v), m)
  else if has (devio_flags pr) DEVIO_SIZE32 && (n =? 3) then
    let '(lo, m) := dev_read (opaque pr) (u32 offset) 2 m in
    let '(hi, m) := dev_read (opaque pr) (u32 (offset + 4)) 2 m in
    (inr (u32 lo .| (u32 hi << 32)), m)
  else (inr 0, m).

Definition device_write (pr : PhysMemoryRange) (paddr val n : Z) (m : machine) : machine :=
  let offset := u64 (paddr - pr_addr pr) in
  if nz ((devio_flags pr >> n) .& 1) then dev_write (opaque pr) (u32 offset) (u32 val) n m
  else if has (devio_flags pr) DEVIO_SIZE32 && (n =? 3) then
    let m := dev_write (opaque pr) (u32 offset) (val .& 0xffffffff) 2 m in
    dev_write (opaque pr) (u32 (offset + 4)) ((val >> 32) .& 0xffffffff) 2 m
  else m.

(** The access proper, after translation and the PMP check. *)
Definition read_mapped (addr paddr n : Z) (pr : option (nat * PhysMemoryRange)) : M (D := D) fault Z :=
  match pr with
  | None => ret 0
  | Some (_, pr) =>
      if is_ram pr then
        let ptr := host_ptr pr paddr in
        mods (fill_tlb_read addr paddr ptr) ;;;
        m <- getm ;; ret (load_host m ptr n)
      else device_read pr paddr n
  end.

Definition riscv_cpu_read_memory (addr n : Z) : M (D := D) fault Z :=
  if unaligned addr n then fail_with CAUSE_MISALIGNED_LOAD addr
  else fun m =>
    match riscv_cpu_get_phys_addr m addr ACCESS_READ with
    | (XFault, m) => fail_with CAUSE_LOAD_PAGE_FAULT addr m
    | (XIllegal, m) => fail_with CAUSE_FAULT_LOAD addr m
    | (XOk paddr, m) =>
        match get_phys_mem_range_pmp m paddr (bytes n) PMPCFG_R with
        | inl tt => fail_with CAUSE_FAULT_LOAD addr m
        | inr pr =>
            (v <- read_mapped addr paddr n pr ;;
             modm (fun m => track_dread m addr paddr v (bits n) true) ;;; ret v) m
        end
    end.

(** [target_read_u8/16/32/64]. *)
Definition target_read (addr n : Z) : M (D := D) fault Z := fun m =>
  match check_triggers (cpu m) MCONTROL_LOAD addr with
  | (true, s) => (inl Fault, m <| cpu := s |>)
  | (false, s) =>
      if unaligned addr n then fail_with CAUSE_MISALIGNED_LOAD addr m
      else
        let idx := tlb_index addr in
        let e := aget no_tlb (tlb_read (cpu m)) idx in
        if vaddr e =? tlb_tag addr n then
          let data := load_host m (u64 (mem_addend e + addr)) n in
          let paddr := u64 (aget 0 (tlb_read_paddr_addend (cpu m)) idx + addr) in
          (inr data, track_dread m addr paddr data (bits n) true)
        else (v <- riscv_cpu_read_memory addr n ;; ret (trunc (bits n) v)) m
  end.

(** ** Stores *)

(** [++machine->memseqno; ++s->load_res_memseqno]. *)
Definition bump_memseqno (m : machine) : machine :=
  m <| memseqno ::= fun n => u64 (n + 1) |>
    <| cpu ::= fun s => s <| load_res_memseqno ::= fun n => u64 (n + 1) |> |>.

Definition write_mapped (addr paddr val n : Z) (pr : option (nat * PhysMemoryRange)) (m : machine)
  : machine :=
  match pr with
  | None => m
  | Some (i, pr) =>
      if is_ram pr then
        let m := m <| mem_map ::= <[i := phys_mem_set_dirty_bit pr (u64 (paddr - pr_addr pr))]> |> in
        let ptr := host_ptr pr paddr in
        let m := m <| cpu ::= fill_tlb_write addr paddr ptr |> in
        bump_memseqno (store_host m ptr n val)
      else device_write pr paddr val n m
  end.

Definition riscv_cpu_write_memory (addr val n : Z) : M (D := D) fault unit :=
  if unaligned addr n then fail_with CAUSE_MISALIGNED_STORE addr
  else fun m =>
    match riscv_cpu_get_phys_addr m addr ACCESS_WRITE with
    | (XFault, m) => fail_with CAUSE_STORE_PAGE_FAULT addr m
    | (XIllegal, m) => fail_with CAUSE_FAULT_STORE addr m
    | (XOk paddr, m) =>
        match get_phys_mem_range_pmp m paddr (bytes n) PMPCFG_W with
        | inl tt => fail_with CAUSE_FAULT_STORE addr m
        | inr pr =>
            (inr tt, track_write (write_mapped addr paddr val n pr m) addr paddr val (bits n) true)
        end
    end.

(** [target_write_u8/16/32/64]; [val] is of the access width. *)
Definition target_write (addr val n : Z) : M (D := D) fault unit := fun m =>
  match check_triggers (cpu m) MCONTROL_STORE addr with
  | (true, s) => (inl Fault, m <| cpu := s |>)
  | (false, s) =>
      if unaligned addr n then fail_with CAUSE_MISALIGNED_STORE addr m
      else
        let idx := tlb_index addr in
        let e := aget no_tlb (tlb_write (cpu m)) idx in
        if vaddr e =? tlb_tag addr n then
          let m := bump_memseqno (store_host m (u64 (mem_addend e + addr)) n val) in
          let paddr := u64 (aget 0 (tlb_write_paddr_addend (cpu m)) idx + addr) in
          (inr tt, track_write m addr paddr val (bits n) true)
        else riscv_cpu_write_memory addr val n m
  end.

(** ** Instruction fetch *)

Definition fill_tlb_code (addr paddr ptr : Z) (s : RISCVCPUState) : RISCVCPUState :=
  s <| tlb_code ::= fun l => aset l (tlb_index addr) (mkTLB (page_of addr) (u64 (ptr - addr))) |>
    <| tlb_code_paddr_addend ::= fun l => aset l (tlb_index addr) (u64 (paddr - addr)) |>.

(** Translation and checks of one fetch; faults report [tval]. *)
Definition fetch_ptr (addr size tval : Z) : M (D := D) fault (Z * Z) := fun m =>
  match riscv_cpu_get_phys_addr m addr ACCESS_CODE with
  | (XFault, m) => fail_with CAUSE_FETCH_PAGE_FAULT tval m
  | (XIllegal, m) => fail_with CAUSE_FAULT_FETCH tval m
  | (XOk paddr, m) =>
      match get_phys_mem_range_pmp m paddr size PMPCFG_X with
      | inr (Some (_, pr)) =>
          if is_ram pr then (inr (paddr, host_ptr pr paddr), m)
          else fail_with CAUSE_FAULT_FETCH tval m
      | _ => fail_with CAUSE_FAULT_FETCH tval m
      end
  end.

(** [size] is 16 or 32. *)
Definition target_read_insn_slow (size addr : Z) : M (D := D) fault Z :=
  let_ '(paddr, ptr) <- fetch_ptr addr (size / 8) addr ;;
  m <- getm ;;
  (if riscv_cpu_pmp_access_ok (cpu m) (page_of paddr) (PG_MASK + 1) PMPCFG_X
   then mods (fill_tlb_code addr paddr ptr) else ret tt) ;;;
  if negb (tlb_index addr =? tlb_index (u64 (addr + 2))) && (size =? 32) then
    let_ '(_, ptr_cross) <- fetch_ptr (u64 (addr + 2)) 2 addr ;;
    m <- getm ;;
    ret (load_host m ptr 1 .| (load_host m ptr_cross 1 << 16))
  else
    m <- getm ;; ret (if size =? 32 then load_host m ptr 2 else load_host m ptr 1).

Definition target_read_insn_u16 (addr : Z) : M (D := D) fault Z := fun m =>
  let e := aget no_tlb (tlb_code (cpu m)) (tlb_index addr) in
  if vaddr e =? page_of addr then (inr (load_host m (u64 (mem_addend e + addr)) 1), m)
  else (v <- target_read_insn_slow 16 addr ;; ret (u16 v)) m.

(** [riscv_read_insn]: a fetch for a debugger or tracer, which restores the pending
    exception; [None] is a failed fetch. *)
Definition riscv_read_insn (addr : Z) (m : machine) : option Z * machine :=
  let saved_pending_exception := pending_exception (cpu m) in
  let saved_pending_tval := pending_tval (cpu m) in
  let '(res, m) := target_read_insn_slow 32 addr m in
  (match res with inl _ => None | inr insn => Some insn end,
   m <| cpu ::= fun s => s <| pending_exception := saved_pending_exception |>
                           <| pending_tval := saved_pending_tval |> |>).

(** ** Frames

    What the checks of an access depend on; neither tracking nor a TLB fill
    touches it. *)

Definition access_ctx (s : RISCVCPUState) :=
  ((priv s, mstatus s, satp s, physical_addr_len s), (pmp_n s, pmp s, pmpcfg s),
   (debug_mode s, tdata1 s, tdata2 s)).

Lemma access_ctx_fields s s' :
  access_ctx s' = access_ctx s ->
  priv s' = priv s /\ mstatus s' = mstatus s /\ satp s' = satp s /\
  physical_addr_len s' = physical_addr_len s /\ pmp_n s' = pmp_n s /\ pmp s' = pmp s /\
  pmpcfg s' = pmpcfg s /\ debug_mode s' = debug_mode s /\ tdata1 s' = tdata1 s /\
  tdata2 s' = tdata2 s.
Proof. unfold access_ctx. intros [= ]. repeat split; assumption. Qed.

Lemma pmp_loop_ext s s' p a sz perm i k :
  pmp s' = pmp s -> pmpcfg s' = pmpcfg s ->
  pmp_loop s' p a sz perm i k = pmp_loop s p a sz perm i k.
Proof.
  intros E1 E2. revert i. induction k as [|k IH]; intros i; [done|]. cbn [pmp_loop].
  by rewrite E1, E2, IH.
Qed.

Lemma effective_priv_ext s s' c :
  access_ctx s' = access_ctx s -> effective_priv s' c = effective_priv s c.
Proof.
  intros (E1 & E2 & _)%access_ctx_fields. unfold effective_priv. by rewrite E1, E2.
Qed.

Lemma pmp_access_ext s s' a sz perm :
  access_ctx s' = access_ctx s ->
  riscv_cpu_pmp_access_ok s' a sz perm = riscv_cpu_pmp_access_ok s a sz perm.
Proof.
  intros E. unfold riscv_cpu_pmp_access_ok. rewrite (effective_priv_ext s s') by done.
  apply access_ctx_fields in E as (_ & _ & _ & -> & -> & E1 & E2 & _).
  by rewrite (pmp_loop_ext s s').
Qed.

(** No trigger fires on the address. *)
Definition untriggered (s : RISCVCPUState) (t_mctl addr : Z) : Prop :=
  check_triggers s t_mctl addr = (false, s).

Lemma untriggered_ext s s' t_mctl addr :
  access_ctx s' = access_ctx s -> untriggered s t_mctl addr -> untriggered s' t_mctl addr.
Proof.
  intros (E1 & _ & _ & _ & _ & _ & _ & E2 & E3 & E4)%access_ctx_fields.
  unfold untriggered, check_triggers. rewrite E2, E1. destruct (debug_mode s); [done|].
  change (Z.to_nat MAX_TRIGGERS) with 1%nat. cbn [trigger_loop]. rewrite E3, E4.
  destruct (_ && _); [|done]. by destruct (_ && _).
Qed.

(** Translation off: M mode, or [satp] in bare mode. *)
Definition untranslated (s : RISCVCPUState) : Prop :=
  effective_priv s false = PRV_M \/ satp_mode s = 0.

Lemma untranslated_ext s s' : access_ctx s' = access_ctx s -> untranslated s -> untranslated s'.
Proof.
  intros E H. unfold untranslated, satp_mode. rewrite (effective_priv_ext s s') by done.
  by apply access_ctx_fields in E as (_ & _ & -> & _).
Qed.

Lemma untranslated_identity m va access :
  is_code access = false -> untranslated (cpu m) ->
  riscv_cpu_get_phys_addr m va access = (XOk va, m).
Proof.
  intros Ec H. unfold riscv_cpu_get_phys_addr. rewrite Ec.
  destruct H as [-> | ->]; [done|]. by destruct (_ =? PRV_M).
Qed.

(** What an access leaves alone, tracking aside. *)
Definition mem_view (m : machine) :=
  (host m, mem_map m, access_ctx (cpu m), tlb_read (cpu m), tlb_write (cpu m)).

Lemma track_write_view m va pa data size t : mem_view (track_write m va pa data size t) = mem_view m.
Proof.
  unfold track_write. mach_simpl. destruct (_ && _); [|done]. by destruct (_ <=? _).
Qed.

Lemma track_dread_view m va pa data size t : mem_view (track_dread m va pa data size t) = mem_view m.
Proof.
  unfold track_dread. mach_simpl. destruct (_ && _); [|done]. by destruct (_ && _).
Qed.

End Mmu.

(** ** Page arithmetic *)

Lemma PG_MASK_ones : PG_MASK = Z.ones 12.
Proof. done. Qed.

Lemma page_of_eq a : page_of a = a - a mod 4096.
Proof.
  unfold page_of. rewrite PG_MASK_ones, Z.ldiff_ones_r, Z.shiftl_mul_pow2, Z.shiftr_div_pow2 by lia.
  change (2 ^ 12) with 4096. pose proof (Z.div_mod a 4096). lia.
Qed.

Lemma page_of_range a : page_of a <= a < page_of a + 4096 /\ page_of a mod 4096 = 0.
Proof.
  rewrite page_of_eq. pose proof (Z.mod_pos_bound a 4096).
  split; [lia|]. rewrite Zminus_mod_idemp_r, Z.sub_diag. done.
Qed.

Lemma page_of_not_invalid a : page_of a <> TLB_INVALID.
Proof. destruct (page_of_range a) as [_ H]. intros E. rewrite E in H. done. Qed.

Lemma page_of_idemp a : page_of (page_of a) = page_of a.
Proof. destruct (page_of_range a) as [_ H]. rewrite page_of_eq, H. lia. Qed.

Lemma tlb_tag_aligned addr n : unaligned addr n = false -> tlb_tag addr n = page_of addr.
Proof.
  intros H. apply negb_false_iff, Z.eqb_eq in H. unfold tlb_tag, page_of.
  apply Z.bits_inj'. intros i Hi. rewrite !Z.ldiff_spec.
  assert (Z.testbit (addr .& (bytes n - 1)) i = false) as E by (rewrite H; apply Z.bits_0).
  rewrite Z.land_spec in E.
  by destruct (Z.testbit addr i), (Z.testbit PG_MASK i), (Z.testbit (bytes n - 1) i).
Qed.

Lemma tlb_index_range a : 0 <= tlb_index a < 256.
Proof.
  unfold tlb_index. change (TLB_SIZE - 1) with (Z.ones 8). rewrite Z.land_ones by lia.
  apply Z.mod_pos_bound. lia.
Qed.

(** ** Memory maps of whole pages *)

Definition range_ok (pr : PhysMemoryRange) : Prop :=
  0 <= pr_addr pr /\ pr_addr pr mod 4096 = 0 /\ 0 <= pr_size pr /\ pr_size pr mod 4096 = 0 /\
  pr_addr pr + pr_size pr < 2 ^ 64 /\ 0 <= phys_mem pr /\ phys_mem pr + pr_size pr < 2 ^ 64.

Definition map_ok (mm : PhysMemoryMap) : Prop := Forall range_ok mm.

Lemma mod_0_div a d : 0 < d -> a mod d = 0 -> a = d * (a / d).
Proof. intros ? E. pose proof (Z.div_mod a d). lia. Qed.

Lemma range_has_page pr a : range_ok pr -> range_has pr (page_of a) = range_has pr a.
Proof.
  intros (H1 & H2 & H3 & H4 & H5 & _). unfold range_has. rewrite trunc_small by (unfold fits; lia).
  apply mod_0_div in H2, H4; [|lia..]. destruct (page_of_range a) as [Hr Hp].
  apply mod_0_div in Hp; [|lia].
  apply eq_true_iff_eq. rewrite !andb_true_iff, !Z.leb_le, !Z.ltb_lt. lia.
Qed.

Lemma get_range_page mm a : map_ok mm -> get_phys_mem_range mm (page_of a) = get_phys_mem_range mm a.
Proof.
  intros Hm. unfold get_phys_mem_range. generalize (length mm). intros n.
  induction n as [|n IH]; [done|]. cbn [get_range_loop].
  destruct (mm !! n) as [pr|] eqn:E; [|done].
  rewrite range_has_page by (eapply Forall_lookup in Hm; eauto). by destruct (range_has pr a).
Qed.

Lemma get_range_found mm a i pr :
  map_ok mm -> get_phys_mem_range mm a = Some (i, pr) ->
  mm !! i = Some pr /\ range_ok pr /\ pr_addr pr <= a < pr_addr pr + pr_size pr.
Proof.
  intros Hm H. unfold get_phys_mem_range in H. apply get_range_loop_spec in H as (_ & Hi & Hr & _); [|lia].
  assert (range_ok pr) as Hok by (eapply Forall_lookup in Hm; eauto).
  split; [done|]. split; [done|]. unfold range_has in Hr.
  destruct Hok as (? & ? & ? & ? & ? & _). rewrite trunc_small in Hr by (unfold fits; lia).
  rewrite andb_true_iff, Z.leb_le, Z.ltb_lt in Hr. lia.
Qed.

(** The host address of an in-range physical address. *)
Lemma host_ptr_eq pr a :
  range_ok pr -> pr_addr pr <= a < pr_addr pr + pr_size pr ->
  host_ptr pr a = phys_mem pr + (a - pr_addr pr).
Proof.
  intros (? & ? & ? & ? & ? & ? & ?) Ha. unfold host_ptr. rewrite !trunc_small; [done|..];
    unfold fits; rewrite ?trunc_small; unfold fits; lia.
Qed.

(** ** The TLBs as a cache of the memory map *)

(** A valid entry points at the RAM of its page. *)
Definition tlb_entry_ok (mm : PhysMemoryMap) (e : TLBEntry) : Prop :=
  vaddr e <> TLB_INVALID ->
  page_of (vaddr e) = vaddr e /\
  exists i pr, get_phys_mem_range mm (vaddr e) = Some (i, pr) /\ is_ram pr = true /\
    u64 (mem_addend e + vaddr e) = host_ptr pr (vaddr e).

Lemma tlb_hit_ptr mm e addr :
  map_ok mm -> tlb_entry_ok mm e -> vaddr e = page_of addr ->
  exists i pr, get_phys_mem_range mm addr = Some (i, pr) /\ is_ram pr = true /\
    u64 (mem_addend e + addr) = host_ptr pr addr.
Proof.
  intros Hm He Ha. destruct He as (_ & i & pr & Hg & Hr & Hp).
  { rewrite Ha. apply page_of_not_invalid. }
  rewrite Ha, get_range_page in Hg by done. exists i, pr. split; [done|]. split; [done|].
  destruct (get_range_found _ _ _ _ Hm Hg) as (_ & Hok & Hin).
  pose proof Hg as Hg'. rewrite <- get_range_page in Hg' by done.
  destruct (get_range_found _ _ _ _ Hm Hg') as (_ & _ & Hin').
  rewrite Ha in Hp. rewrite (host_ptr_eq pr addr) by done. rewrite (host_ptr_eq pr (page_of addr)) in Hp by done.
  replace (mem_addend e + addr) with (mem_addend e + page_of addr + (addr - page_of addr)) by lia.
  rewrite <- trunc_add_l, Hp by lia. destruct Hok as (? & ? & ? & ? & ? & ? & ?).
  rewrite trunc_small; [lia|]. pose proof (page_of_range addr). unfold fits. lia.
Qed.

Lemma tlb_fill_ok mm addr i pr :
  map_ok mm -> get_phys_mem_range mm addr = Some (i, pr) -> is_ram pr = true ->
  tlb_entry_ok mm (mkTLB (page_of addr) (u64 (host_ptr pr addr - addr))).
Proof.
  intros Hm Hg Hr _. cbn [vaddr mem_addend]. split; [apply page_of_idemp|].
  exists i, pr. rewrite get_range_page by done. split; [done|]. split; [done|].
  destruct (get_range_found _ _ _ _ Hm Hg) as (_ & Hok & Hin).
  pose proof Hg as Hg'. rewrite <- get_range_page in Hg' by done.
  destruct (get_range_found _ _ _ _ Hm Hg') as (_ & _ & Hin').
  rewrite !host_ptr_eq by done. rewrite trunc_add_l by lia.
  destruct Hok as (? & ? & ? & ? & ? & ? & ?).
  rewrite trunc_small; [lia|]. unfold fits. lia.
Qed.

(** *** Dirty bits do not move ranges *)

Definition same_geom (pr q : PhysMemoryRange) : Prop :=
  pr_addr q = pr_addr pr /\ pr_size q = pr_size pr /\ is_ram q = is_ram pr /\
  phys_mem q = phys_mem pr.

Lemma same_geom_refl pr : same_geom pr pr.
Proof. done. Qed.

Lemma dirty_same_geom pr off : same_geom pr (phys_mem_set_dirty_bit pr off).
Proof. unfold phys_mem_set_dirty_bit. by destruct (dirty_bits pr). Qed.

Lemma get_range_agree mm mm' a :
  Forall2 same_geom mm mm' ->
  forall i pr, get_phys_mem_range mm a = Some (i, pr) ->
  exists q, get_phys_mem_range mm' a = Some (i, q) /\ same_geom pr q.
Proof.
  intros H. unfold get_phys_mem_range. rewrite <- (Forall2_length _ _ _ H).
  generalize (length mm). intros n. induction n as [|n IH]; intros i pr; [done|].
  cbn [get_range_loop]. destruct (mm !! n) as [p|] eqn:E.
  - destruct (Forall2_lookup_l _ _ _ _ _ H E) as (q & -> & Hq).
    assert (range_has q a = range_has p a) as ->.
    { destruct Hq as (E1 & E2 & _). unfold range_has. by rewrite E1, E2. }
    destruct (range_has p a); [|apply IH]. intros [= <- <-]. by exists q.
  - apply (Forall2_length) in H as Hl. rewrite lookup_ge_None in E.
    assert (mm' !! n = None) as -> by (apply lookup_ge_None; lia). apply IH.
Qed.

Lemma same_geom_host pr q a : same_geom pr q -> host_ptr q a = host_ptr pr a.
Proof. intros (E1 & _ & _ & E2). unfold host_ptr. by rewrite E1, E2. Qed.

Lemma insert_same_geom mm i pr q :
  mm !! i = Some pr -> same_geom pr q -> Forall2 same_geom mm (<[i := q]> mm).
Proof.
  intros Hi Hq. rewrite <- (list_insert_id mm i pr) at 1 by done.
  apply Forall2_insert; [|done]. apply Forall_Forall2_diag, Forall_true, same_geom_refl.
Qed.

Lemma map_ok_agree mm mm' : Forall2 same_geom mm mm' -> map_ok mm -> map_ok mm'.
Proof.
  intros H. unfold map_ok. induction H as [|p q mm mm' Hpq _ IH]; intros Hm; [constructor|].
  inversion_clear Hm. constructor; [|by apply IH]. destruct Hpq as (E1 & E2 & _ & E3).
  unfold range_ok. by rewrite E1, E2, E3.
Qed.

Lemma tlb_entry_agree mm mm' e :
  Forall2 same_geom mm mm' -> tlb_entry_ok mm e -> tlb_entry_ok mm' e.
Proof.
  intros H He Hv. destruct (He Hv) as (Hp & i & pr & Hg & Hr & Hh). split; [done|].
  destruct (get_range_agree _ _ _ H _ _ Hg) as (q & Hq & Hs). exists i, q.
  rewrite (same_geom_host pr q) by done. destruct Hs as (_ & _ & -> & _). auto.
Qed.

Section RamAccess.
Context {D : Type} {dv : Devices D}.
Abbreviation machine := (RISCVMachine D).

Definition tlb_ok (mm : PhysMemoryMap) (t : list TLBEntry) : Prop :=
  length t = 256%nat /\ Forall (tlb_entry_ok mm) t.

Definition tlbs_ok (m : machine) : Prop :=
  tlb_ok (mem_map m) (tlb_read (cpu m)) /\ tlb_ok (mem_map m) (tlb_write (cpu m)).

(** An aligned access to RAM that the checks let through, translation off. *)
Record ram_access (m : machine) (addr n perm t_mctl : Z) (i : nat) (pr : PhysMemoryRange) : Prop := {
  ra_untranslated : untranslated (cpu m);
  ra_untriggered : untriggered (cpu m) t_mctl addr;
  ra_aligned : unaligned addr n = false;
  ra_range : get_phys_mem_range (mem_map m) addr = Some (i, pr);
  ra_ram : is_ram pr = true;
  ra_pmp : riscv_cpu_pmp_access_ok (cpu m) addr (bytes n) perm = true
}.

Lemma ram_access_ext m m' addr n perm t_mctl i pr :
  access_ctx (cpu m') = access_ctx (cpu m) -> Forall2 same_geom (mem_map m) (mem_map m') ->
  ram_access m addr n perm t_mctl i pr ->
  exists q, ram_access m' addr n perm t_mctl i q /\ same_geom pr q.
Proof.
  intros Hc Hm []. destruct (get_range_agree _ _ _ Hm _ _ ra_range0) as (q & Hq & Hs).
  exists q. split; [|done]. split; eauto using untranslated_ext, untriggered_ext.
  - destruct Hs as (_ & _ & -> & _). done.
  - by rewrite (pmp_access_ext (cpu m)).
Qed.

Lemma tlbs_ok_ext m m' :
  mem_map m' = mem_map m -> tlb_read (cpu m') = tlb_read (cpu m) ->
  tlb_write (cpu m') = tlb_write (cpu m) -> tlbs_ok m -> tlbs_ok m'.
Proof. unfold tlbs_ok. by intros -> -> ->. Qed.

Lemma tlb_lookup_ok mm t addr : tlb_ok mm t -> tlb_entry_ok mm (aget no_tlb t (tlb_index addr)).
Proof.
  intros [Hl Ht]. pose proof (tlb_index_range addr). unfold aget. rewrite nth_lookup.
  destruct (lookup_lt_is_Some_2 t (Z.to_nat (tlb_index addr))) as [e He]; [lia|].
  rewrite He. cbn. eapply Forall_lookup in Ht; eauto.
Qed.

Lemma tlb_update_ok mm t addr i pr :
  map_ok mm -> get_phys_mem_range mm addr = Some (i, pr) -> is_ram pr = true -> tlb_ok mm t ->
  tlb_ok mm (aset t (tlb_index addr) (mkTLB (page_of addr) (u64 (host_ptr pr addr - addr)))).
Proof.
  intros Hm Hg Hr [Hl Ht]. split; [by rewrite length_aset|].
  apply Forall_aset; [done|]. by apply (tlb_fill_ok _ _ i).
Qed.

(** What a load leaves: RAM, the map and the checks as they were. *)
Definition read_keeps (m m' : machine) : Prop :=
  host m' = host m /\ mem_map m' = mem_map m /\ access_ctx (cpu m') = access_ctx (cpu m) /\
  (map_ok (mem_map m) -> tlbs_ok m -> tlbs_ok m').

Lemma mem_view_fields (m m' : machine) :
  mem_view m' = mem_view m ->
  host m' = host m /\ mem_map m' = mem_map m /\ access_ctx (cpu m') = access_ctx (cpu m) /\
  tlb_read (cpu m') = tlb_read (cpu m) /\ tlb_write (cpu m') = tlb_write (cpu m).
Proof.
  intros H. split; [exact (f_equal (fun x => x.1.1.1.1) H)|].
  split; [exact (f_equal (fun x => x.1.1.1.2) H)|]. split; [exact (f_equal (fun x => x.1.1.2) H)|].
  split; [exact (f_equal (fun x => x.1.2) H)|exact (f_equal (fun x => x.2) H)].
Qed.

Lemma read_keeps_track m va pa data size t : read_keeps m (track_dread m va pa data size t).
Proof.
  destruct (mem_view_fields _ _ (track_dread_view m va pa data size t)) as (H1 & H2 & H3 & H4 & H5).
  split; [done|]. split; [done|]. split; [done|]. intros _. by apply tlbs_ok_ext.
Qed.

Lemma read_keeps_trans m1 m2 m3 : read_keeps m1 m2 -> read_keeps m2 m3 -> read_keeps m1 m3.
Proof.
  intros (A1 & A2 & A3 & A4) (B1 & B2 & B3 & B4). split; [congruence|]. split; [congruence|].
  split; [congruence|]. intros Hm Ht. apply B4; [by rewrite A2|by apply A4].
Qed.

Lemma read_keeps_fill m addr i pr :
  get_phys_mem_range (mem_map m) addr = Some (i, pr) -> is_ram pr = true ->
  read_keeps m (m <| cpu ::= fill_tlb_read addr addr (host_ptr pr addr) |>).
Proof.
  intros Hg Hr. split; [done|]. split; [done|]. split; [done|]. intros Hm [H1 H2].
  split; [|exact H2]. by apply (tlb_update_ok _ _ _ i).
Qed.

Lemma load_host_trunc (m : machine) p n :
  0 <= n -> trunc (bits n) (load_host m p n) = load_host m p n.
Proof.
  intros Hn. apply trunc_small. unfold bits, load_host.
  replace (bytes n) with (Z.of_nat (Z.to_nat (bytes n))) at 1; [apply load_le_fits|].
  unfold bytes. rewrite Z2Nat.id; [done|]. rewrite Z.shiftl_1_l. apply Z.pow_nonneg. lia.
Qed.

(** A load of RAM, by either path, returns the bytes of RAM. *)
Lemma target_read_ram m addr n i pr :
  map_ok (mem_map m) -> tlbs_ok m -> 0 <= n ->
  ram_access m addr n PMPCFG_R MCONTROL_LOAD i pr ->
  exists m', target_read addr n m = (inr (load_host m (host_ptr pr addr) n), m') /\ read_keeps m m'.
Proof.
  intros Hm Ht Hn []. unfold target_read. rewrite ra_untriggered0, ra_aligned0.
  rewrite tlb_tag_aligned by done.
  destruct (Z.eqb_spec (vaddr (aget no_tlb (tlb_read (cpu m)) (tlb_index addr))) (page_of addr)) as [E|E].
  - destruct (tlb_hit_ptr (mem_map m) (aget no_tlb (tlb_read (cpu m)) (tlb_index addr)) addr)
      as (j & q & Hg & _ & ->); [done|apply tlb_lookup_ok, Ht|done|].
    rewrite Hg in ra_range0. injection ra_range0 as -> ->. eexists. split; [done|].
    apply read_keeps_track.
  - unfold riscv_cpu_read_memory, bind. rewrite ra_aligned0, untranslated_identity by done.
    unfold get_phys_mem_range_pmp. rewrite ra_pmp0, ra_range0. cbn [negb].
    unfold read_mapped, bind. rewrite ra_ram0. cbn [mods getm ret modm].
    eexists. split; [|eapply read_keeps_trans; [by eapply read_keeps_fill|apply read_keeps_track]].
    unfold load_host at 1. mach_simpl. fold (load_host m (host_ptr pr addr) n).
    by rewrite load_host_trunc.
Qed.
(** What a store leaves: [v] at host address [p], the map up to dirty bits. *)
Definition write_effect (m m' : machine) (p n v : Z) : Prop :=
  host m' = store_le (host m) p (Z.to_nat (bytes n)) v /\
  Forall2 same_geom (mem_map m) (mem_map m') /\ access_ctx (cpu m') = access_ctx (cpu m) /\
  (map_ok (mem_map m) -> tlbs_ok m -> tlbs_ok m').

Lemma same_geom_all mm : Forall2 same_geom mm mm.
Proof. apply Forall_Forall2_diag, Forall_true, same_geom_refl. Qed.

Lemma write_effect_track m m' p n v va pa data size t :
  write_effect m m' p n v -> write_effect m (track_write m' va pa data size t) p n v.
Proof.
  intros (A1 & A2 & A3 & A4).
  destruct (mem_view_fields _ _ (track_write_view m' va pa data size t)) as (H1 & H2 & H3 & H4 & H5).
  split; [congruence|]. split; [by rewrite H2|]. split; [congruence|]. intros Hm Ht.
  eapply tlbs_ok_ext; [exact H2|exact H4|exact H5|by apply A4].
Qed.

Lemma write_effect_fast m p n v : write_effect m (bump_memseqno (store_host m p n v)) p n v.
Proof. split; [done|]. split; [apply same_geom_all|]. by split. Qed.

Lemma write_effect_slow m addr n v i pr :
  get_phys_mem_range (mem_map m) addr = Some (i, pr) -> is_ram pr = true ->
  write_effect m (write_mapped addr addr v n (Some (i, pr)) m) (host_ptr pr addr) n v.
Proof.
  intros Hg Hr. unfold write_mapped. rewrite Hr.
  assert (mem_map m !! i = Some pr) as Hi.
  { unfold get_phys_mem_range in Hg. apply get_range_loop_spec in Hg as (_ & ? & _); [done|lia]. }
  set (d := phys_mem_set_dirty_bit pr (u64 (addr - pr_addr pr))).
  assert (Forall2 same_geom (mem_map m) (<[i := d]> (mem_map m))) as Hs
      by (apply (insert_same_geom _ _ pr); [done|apply dirty_same_geom]).
  split; [done|]. split; [exact Hs|]. split; [done|]. intros Hm [[L1 T1] [L2 T2]].
  assert (forall t, Forall (tlb_entry_ok (mem_map m)) t ->
            Forall (tlb_entry_ok (<[i := d]> (mem_map m))) t) as Hagree.
  { intros t Hall. eapply Forall_impl; [exact Hall|]. intros e. by apply tlb_entry_agree. }
  split; [exact (conj L1 (Hagree _ T1))|].
  destruct (get_range_agree _ _ _ Hs _ _ Hg) as (q & Hq & Hqs).
  pose proof (same_geom_host _ _ addr Hqs) as Hh. destruct Hqs as (_ & _ & Hqr & _).
  pose proof (tlb_update_ok (<[i := d]> (mem_map m)) (tlb_write (cpu m)) addr i q) as Hu.
  rewrite Hh in Hu. apply Hu; [by eapply map_ok_agree|done|congruence|].
  exact (conj L2 (Hagree _ T2)).
Qed.

(** A store to RAM, by either path, changes exactly its bytes. *)
Lemma target_write_ram m addr v n i pr :
  map_ok (mem_map m) -> tlbs_ok m ->
  ram_access m addr n PMPCFG_W MCONTROL_STORE i pr ->
  exists m', target_write addr v n m = (inr tt, m') /\ write_effect m m' (host_ptr pr addr) n v.
Proof.
  intros Hm Ht []. unfold target_write. rewrite ra_untriggered0, ra_aligned0.
  rewrite tlb_tag_aligned by done.
  destruct (Z.eqb_spec (vaddr (aget no_tlb (tlb_write (cpu m)) (tlb_index addr))) (page_of addr)) as [E|E].
  - destruct (tlb_hit_ptr (mem_map m) (aget no_tlb (tlb_write (cpu m)) (tlb_index addr)) addr)
      as (j & q & Hg & _ & ->); [done|apply tlb_lookup_ok, Ht|done|].
    rewrite Hg in ra_range0. injection ra_range0 as -> ->. eexists. split; [done|].
    apply write_effect_track, write_effect_fast.
  - unfold riscv_cpu_write_memory. rewrite ra_aligned0, untranslated_identity by done.
    unfold get_phys_mem_range_pmp. rewrite ra_pmp0, ra_range0. cbn [negb].
    eexists. split; [done|]. apply write_effect_track. by apply write_effect_slow.
Qed.

End RamAccess.

(** *** A machine with 64 kB of RAM at 0x80000000, for the witnesses *)

Definition demo_cpu : RISCVCPUState :=
  tlb_init (zero_cpu <| priv := PRV_M |> <| physical_addr_len := 56 |>).

Definition demo_map : PhysMemoryMap :=
  [mkRange 0x80000000 0x10000 0x10000 true 0 0x1000000 false [] 0%nat 0 0].

Definition demo_machine (s : RISCVCPUState) : RISCVMachine unit :=
  mkMachine unit s 0%nat [s] demo_map ∅ 0 no_hooks (-1) false (mkExt true true true true)
    false false false 3 0 0 0 tt.

Lemma invalid_tlb_ok mm : tlb_ok mm (replicate 256 (mkTLB TLB_INVALID 0)).
Proof.
  split; [apply length_replicate|]. apply Forall_replicate. intros H. by destruct H.
Qed.

Lemma demo_tlbs_ok : tlbs_ok (demo_machine demo_cpu).
Proof.
  unfold tlbs_ok, demo_machine. mach_simpl.
  replace (tlb_read demo_cpu) with (replicate 256 (mkTLB TLB_INVALID 0)) by (vm_compute; reflexivity).
  replace (tlb_write demo_cpu) with (replicate 256 (mkTLB TLB_INVALID 0)) by (vm_compute; reflexivity).
  split; apply invalid_tlb_ok.
Qed.

Lemma demo_map_ok : map_ok demo_map.
Proof. repeat constructor; cbn; lia. Qed.

Lemma untriggered_none s t_mctl addr :
  tdata1 s = [0] -> 0 < t_mctl -> untriggered s t_mctl addr.
Proof.
  intros E Ht. unfold untriggered, check_triggers. destruct (debug_mode s); [done|].
  change (Z.to_nat MAX_TRIGGERS) with 1%nat. cbn [trigger_loop]. rewrite E.
  change (aget 0 [0] 0) with 0. rewrite Z.land_0_l.
  destruct (Z.eqb_spec 0 (t_mctl .| u64 (MCONTROL_U << priv s))) as [E0|]; [|done].
  symmetry in E0. apply Z.lor_eq_0_iff in E0 as [-> _]. lia.
Qed.

Lemma demo_cpu_tdata1 : tdata1 demo_cpu = [0].
Proof. vm_compute. reflexivity. Qed.

Lemma demo_ram_access perm t_mctl addr n :
  perm = PMPCFG_R \/ perm = PMPCFG_W -> t_mctl = MCONTROL_LOAD \/ t_mctl = MCONTROL_STORE ->
  unaligned addr n = false -> 0x80000000 <= addr < 0x80010000 ->
  ram_access (demo_machine demo_cpu) addr n perm t_mctl 0
    (mkRange 0x80000000 0x10000 0x10000 true 0 0x1000000 false [] 0%nat 0 0).
Proof.
  intros Hp Ht Ha Hr. split.
  - left. reflexivity.
  - apply untriggered_none; [exact demo_cpu_tdata1|]. destruct Ht as [-> | ->]; reflexivity.
  - done.
  - unfold get_phys_mem_range, demo_machine, demo_map. mach_simpl. cbn [length get_range_loop lookup list_lookup].
    unfold range_has. cbn [pr_addr pr_size]. rewrite trunc_small by (unfold fits; lia).
    destruct (Z.leb_spec 0x80000000 addr), (Z.ltb_spec addr (0x80000000 + 0x10000)); done || lia.
  - done.
  - unfold riscv_cpu_pmp_access_ok. replace (addr >> physical_addr_len _) with 0; [by destruct Hp as [-> | ->]|].
    change (physical_addr_len (cpu (demo_machine demo_cpu))) with 56.
    rewrite Z.shiftr_div_pow2, Z.div_small by lia. done.
Qed.


(** ** The page walk *)

Section Walk.
Context {D : Type}.
Abbreviation machine := (RISCVMachine D).

(** The value of the PTE at a physical address, if it can be read. *)
Definition pte_read (m : machine) (a : Z) : option Z := (riscv_phys_read 3 m a).1.

Definition pte_slot (base va j : Z) : Z :=
  u64 (base + (((va >> (PG_SHIFT + 9 * j)) .& 511) << 3)).

Definition pte_base (pte : Z) : Z := u64 ((pte >> 10) << PG_SHIFT).

(** The leaf that the tree of tables rooted at [base] (of level [j]) holds for
    [va], with its level. *)
Inductive leaf_of (m : machine) (va : Z) : Z -> Z -> Z -> Z -> Prop :=
| leaf_here base j pte :
    0 <= j -> pte_read m (pte_slot base va j) = Some pte ->
    has pte PTE_V_MASK = true -> (pte >> 1) .& 7 <> 0 -> leaf_of m va base j pte j
| leaf_next base j pte leaf k :
    0 < j -> pte_read m (pte_slot base va j) = Some pte ->
    has pte PTE_V_MASK = true -> (pte >> 1) .& 7 = 0 ->
    leaf_of m va (pte_base pte) (j - 1) leaf k -> leaf_of m va base j leaf k.

(** The physical address a leaf of level [k] gives. *)
Definition leaf_addr (pte va k : Z) : Z :=
  let mask := (1 << (PG_SHIFT + 9 * k)) - 1 in (pte_base pte .&~ mask) .| (va .& mask).

Lemma phys_read_view n (m : machine) a :
  mem_view (riscv_phys_read n m a).2 = mem_view m.
Proof.
  unfold riscv_phys_read. destruct (get_phys_mem_range_pmp _ _ _ _) as [|[[? ?]|]]; cbn [snd];
    auto using track_dread_view.
Qed.

Lemma pte_read_ext (m m' : machine) a : mem_view m' = mem_view m -> pte_read m' a = pte_read m a.
Proof.
  intros H. destruct (mem_view_fields _ _ H) as (H1 & H2 & H3 & _).
  unfold pte_read, riscv_phys_read, get_phys_mem_range_pmp.
  rewrite (pmp_access_ext (cpu m)), H2 by done. destruct (negb _); [done|].
  destruct (get_phys_mem_range _ _) as [[? ?]|]; [|done]. cbn [fst]. unfold load_host. by rewrite H1.
Qed.

Lemma leaf_of_ext (m m' : machine) va base j pte k :
  mem_view m' = mem_view m -> leaf_of m va base j pte k -> leaf_of m' va base j pte k.
Proof.
  intros H. induction 1.
  - apply leaf_here; try done. by rewrite (pte_read_ext m).
  - eapply leaf_next; try done. by rewrite (pte_read_ext m).
Qed.

Lemma leaf_ok_ext s s' p access pte j :
  access_ctx s' = access_ctx s -> leaf_ok s' p access pte j = leaf_ok s p access pte j.
Proof. intros (_ & E & _)%access_ctx_fields. unfold leaf_ok. by rewrite E. Qed.

Lemma walk_view (m : machine) p va access base j k : mem_view (walk m p va access base j k).2 = mem_view m.
Proof.
  revert m base j. induction k as [|k IH]; intros m base j; [done|]. cbn [walk].
  fold (pte_slot base va j). pose proof (phys_read_view 3 m (pte_slot base va j)) as Hv.
  destruct (riscv_phys_read 3 m (pte_slot base va j)) as [[pte|] m1]; [|done]. cbn [snd] in Hv.
  destruct (negb _); [done|]. destruct (nz _); [by destruct (leaf_ok _ _ _ _ _)|].
  by rewrite IH.
Qed.

(** One step of the loop. *)
Lemma walk_step (m : machine) p va access base j k :
  exists m1, mem_view m1 = mem_view m /\
  walk m p va access base j (S k) =
    match pte_read m (pte_slot base va j) with
    | None => (XIllegal, m1)
    | Some pte =>
        if negb (has pte PTE_V_MASK) then (XFault, m1)
        else if nz ((pte >> 1) .& 7) then
          if leaf_ok (cpu m) p access pte j then (XOk (leaf_addr pte va j), m1) else (XFault, m1)
        else walk m1 p va access (pte_base pte) (j - 1) k
    end.
Proof.
  exists (riscv_phys_read 3 m (pte_slot base va j)).2. pose proof (phys_read_view 3 m (pte_slot base va j)) as Hv.
  split; [done|]. cbn [walk]. fold (pte_slot base va j). unfold pte_read.
  destruct (riscv_phys_read 3 m (pte_slot base va j)) as [[pte|] m1]; [|done]. cbn [fst snd] in *.
  destruct (mem_view_fields _ _ Hv) as (_ & _ & Hc & _). by rewrite (leaf_ok_ext (cpu m)).
Qed.

(** The loop finds the leaf, and only that. *)
Lemma walk_iff (m : machine) p va access base j pa :
  0 <= j ->
  (walk m p va access base j (Z.to_nat (j + 1))).1 = XOk pa <->
  exists pte k, leaf_of m va base j pte k /\ leaf_ok (cpu m) p access pte k = true /\
    pa = leaf_addr pte va k.
Proof.
  intros Hj. revert m base. pattern j. apply natlike_ind; [..|done]; clear j Hj.
  - intros m base. change (Z.to_nat (0 + 1)) with 1%nat.
    destruct (walk_step m p va access base 0 0) as (m1 & Hv & ->). split.
    + destruct (pte_read _ _) as [pte|] eqn:Ep; [|done]. destruct (negb _) eqn:Ev; [done|].
      destruct (nz _) eqn:Ex; [|done]. destruct (leaf_ok _ _ _ _ _) eqn:El; [|done].
      intros [= <-]. exists pte, 0. split; [|done].
      apply leaf_here; [lia|done|by apply negb_false_iff in Ev|by apply has_true in Ex].
    + intros (pte & k & Hl & Hok & ->). inversion Hl as [? ? ? ? Hr Hv' Hx|]; subst; [|lia].
      rewrite Hr, Hv'. cbn [negb]. apply Z.eqb_neq in Hx. unfold nz. rewrite Hx. cbn [negb].
      by rewrite Hok.
  - intros j Hj IH m base. replace (Z.to_nat (Z.succ j + 1)) with (S (Z.to_nat (j + 1))) by lia.
    destruct (walk_step m p va access base (Z.succ j) (Z.to_nat (j + 1))) as (m1 & Hv & ->).
    destruct (mem_view_fields _ _ Hv) as (_ & _ & Hc & _).
    replace (Z.succ j - 1) with j by lia. split.
    + destruct (pte_read _ _) as [pte|] eqn:Ep; [|done]. destruct (negb _) eqn:Ev; [done|].
      apply negb_false_iff in Ev. destruct (nz _) eqn:Ex.
      * destruct (leaf_ok _ _ _ _ _) eqn:El; [|done]. intros [= <-]. exists pte, (Z.succ j). split; [|done].
        apply leaf_here; [lia|done|done|by apply has_true in Ex].
      * intros H. apply IH in H as (leaf & k & Hl & Hok & ->). exists leaf, k.
        rewrite (leaf_ok_ext (cpu m)) in Hok by done. split; [|done].
        apply (leaf_next m va base (Z.succ j) pte); [lia|done|done| |].
        { by apply has_false in Ex. }
        replace (Z.succ j - 1) with j by lia. by apply (leaf_of_ext m1).
    + intros (leaf & k & Hl & Hok & ->).
      inversion Hl as [? ? ? ? Hr Hv' Hx|? ? pte ? ? ? Hr Hv' Hx Hl']; subst;
        rewrite Hr, Hv'; cbn [negb]; unfold nz.
      * apply Z.eqb_neq in Hx. rewrite Hx. cbn [negb]. by rewrite Hok.
      * rewrite Hx. cbn [negb Z.eqb]. apply IH. exists leaf, k.
        rewrite (leaf_ok_ext (cpu m)) by done. split; [|done].
        replace (Z.succ j - 1) with j in Hl' by lia. by apply (leaf_of_ext m).
Qed.
(** The root table and the number of levels of [satp]. *)
Definition satp_root (s : RISCVCPUState) : Z := u64 ((satp s .& ((1 << 44) - 1)) << PG_SHIFT).
Definition satp_levels (s : RISCVCPUState) : Z := satp_mode s - 8 + 3.

(** Translation is on: below M mode, with [satp] in Sv39 or Sv48 mode. *)
Definition translated (s : RISCVCPUState) (access : riscv_memory_access_t) : Prop :=
  effective_priv s (is_code access) <> PRV_M /\ (satp_mode s = 8 \/ satp_mode s = 9).

Lemma get_phys_addr_walk (m : machine) va access :
  translated (cpu m) access ->
  riscv_cpu_get_phys_addr m va access =
    if negb (canonical va (64 - (PG_SHIFT + satp_levels (cpu m) * 9))) then (XFault, m)
    else walk m (effective_priv (cpu m) (is_code access)) va access (satp_root (cpu m))
           (satp_levels (cpu m) - 1) (Z.to_nat (satp_levels (cpu m))).
Proof.
  intros [Hp Hm]. unfold riscv_cpu_get_phys_addr.
  destruct (Z.eqb_spec (effective_priv (cpu m) (is_code access)) PRV_M); [done|].
  destruct (Z.eqb_spec (satp_mode (cpu m)) 0); [lia|]. done.
Qed.

Lemma get_phys_addr_leaf (m : machine) va access pa :
  translated (cpu m) access ->
  (riscv_cpu_get_phys_addr m va access).1 = XOk pa <->
  canonical va (64 - (PG_SHIFT + satp_levels (cpu m) * 9)) = true /\
  exists pte k,
    leaf_of m va (satp_root (cpu m)) (satp_levels (cpu m) - 1) pte k /\
    leaf_ok (cpu m) (effective_priv (cpu m) (is_code access)) access pte k = true /\
    pa = leaf_addr pte va k.
Proof.
  intros Ht. rewrite get_phys_addr_walk by done. destruct Ht as [_ Hm].
  destruct (canonical _ _); cbn [negb].
  - assert (0 <= satp_levels (cpu m) - 1) by (unfold satp_levels; lia).
    replace (Z.to_nat (satp_levels (cpu m))) with (Z.to_nat (satp_levels (cpu m) - 1 + 1)) by (f_equal; lia).
    rewrite walk_iff by done. split; [by intros Hw|by intros [_ Hw]].
  - split; [done|by intros [Hw _]].
Qed.


(** *** Permissions *)

(** The R, W and X bits of a PTE as a number. *)
Lemma xwr_cases pte :
  (pte >> 1) .& 7 =
  b2z (Z.testbit pte 1) + 2 * b2z (Z.testbit pte 2) + 4 * b2z (Z.testbit pte 3).
Proof.
  change 7 with (Z.ones 3).
  assert (forall i, 0 <= i < 3 -> Z.testbit ((pte >> 1) .& Z.ones 3) i = Z.testbit pte (i + 1)) as Hb.
  { intros i Hi. rewrite Z.land_spec, Z.shiftr_spec, Z.testbit_ones_nonneg by lia.
    destruct (Z.ltb_spec i 3); [apply andb_true_r|lia]. }
  pose proof (Hb 0 ltac:(lia)) as B0. pose proof (Hb 1 ltac:(lia)) as B1. pose proof (Hb 2 ltac:(lia)) as B2.
  change (0 + 1) with 1 in B0. change (1 + 1) with 2 in B1. change (2 + 1) with 3 in B2.
  rewrite <- B0, <- B1, <- B2.
  pose proof (field_range pte 1 3 ltac:(lia)) as Hf. revert Hf. generalize ((pte >> 1) .& Z.ones 3).
  intros y [? ?]. change (2 ^ 3) with 8 in *.
  assert (y = 0 \/ y = 1 \/ y = 2 \/ y = 3 \/ y = 4 \/ y = 5 \/ y = 6 \/ y = 7) as Hy by lia.
  by repeat destruct Hy as [-> | Hy]; [..|subst].
Qed.

(** The permission that an access needs, on the bits of the leaf. *)
Definition leaf_permits (s : RISCVCPUState) (access : riscv_memory_access_t) (pte : Z) : Prop :=
  match access with
  | ACCESS_READ => Z.testbit pte 1 = true \/
                   (has (mstatus s) MSTATUS_MXR = true /\ Z.testbit pte 3 = true)
  | ACCESS_WRITE => Z.testbit pte 2 = true /\ has pte PTE_D_MASK = true
  | ACCESS_CODE => Z.testbit pte 3 = true
  end.

Lemma xwr_permits s pte access :
  let xwr := (pte >> 1) .& 7 in
  let xwr := if has (mstatus s) MSTATUS_MXR then xwr .| (xwr >> 2) else xwr in
  negb (((xwr >> access_idx access) .& 1) =? 0) = true ->
  match access with ACCESS_WRITE => has pte PTE_D_MASK | _ => true end = true ->
  leaf_permits s access pte.
Proof.
  cbn zeta. rewrite xwr_cases. intros H Hd.
  destruct access; cbn [access_idx leaf_permits] in *;
    destruct (Z.testbit pte 1), (Z.testbit pte 2), (Z.testbit pte 3), (has (mstatus s) MSTATUS_MXR);
    cbn in H; auto; discriminate.
Qed.

Lemma leaf_ok_permits s p access pte k :
  leaf_ok s p access pte k = true ->
  leaf_permits s access pte /\ has pte PTE_A_MASK = true /\
  (p = PRV_S -> has pte PTE_U_MASK = true -> has (mstatus s) MSTATUS_SUM = true) /\
  (p <> PRV_S -> has pte PTE_U_MASK = true) /\
  (Z.testbit pte 2 = true -> Z.testbit pte 1 = true).
Proof.
  unfold leaf_ok. rewrite !andb_true_iff. intros [[[[[H1 H2] H3] _] H5] H6].
  split; [by apply xwr_permits|]. split; [done|]. rewrite xwr_cases in H1.
  assert (Z.testbit pte 2 = true -> Z.testbit pte 1 = true) as Hw.
  { intros E2. rewrite E2 in H1. by destruct (Z.testbit pte 1), (Z.testbit pte 3). }
  destruct (Z.eqb_spec p PRV_S) as [->|]; [|by repeat split].
  split; [|by split]. intros _ Hu. rewrite Hu in H2. by destruct (has (mstatus s) MSTATUS_SUM).
Qed.

Lemma leaf_addr_offset pte va k :
  0 <= k -> 0 <= va -> leaf_addr pte va k mod 2 ^ (12 + 9 * k) = va mod 2 ^ (12 + 9 * k).
Proof.
  intros Hk Hva. unfold leaf_addr, PG_SHIFT. rewrite Z.shiftl_1_l.
  replace (2 ^ (12 + 9 * k) - 1) with (Z.ones (12 + 9 * k)) by (rewrite Z.ones_equiv; lia).
  rewrite <- !Z.land_ones by lia. apply Z.bits_inj'. intros i Hi. push_testbit.
  by destruct (Z.testbit (pte_base pte) i), (Z.testbit va i), (i <? 12 + 9 * k).
Qed.

Lemma leaf_of_level (m : machine) va base j pte k : leaf_of m va base j pte k -> 0 <= k <= j.
Proof. induction 1; lia. Qed.

Lemma leaf_of_valid (m : machine) va base j pte k :
  leaf_of m va base j pte k -> has pte PTE_V_MASK = true.
Proof. by induction 1. Qed.

(** C4 Memory protection: whatever the page tables hold, a successful translation
    rests on a valid leaf PTE with the permission that the access needs (R, or X
    under MXR, to read; W with D to write; X to fetch), the A bit, a U bit that
    agrees with the privilege (SUM for S-mode access to U pages), never the
    reserved W-without-R encoding; and the page offset, of 12 bits plus 9 per
    superpage level, is that of the virtual address. *)
Theorem translation_is_permitted (m : machine) va access pa :
  translated (cpu m) access -> 0 <= va ->
  (riscv_cpu_get_phys_addr m va access).1 = XOk pa ->
  exists pte k,
    leaf_of m va (satp_root (cpu m)) (satp_levels (cpu m) - 1) pte k /\
    has pte PTE_V_MASK = true /\ leaf_permits (cpu m) access pte /\ has pte PTE_A_MASK = true /\
    (let p := effective_priv (cpu m) (is_code access) in
     (p = PRV_S -> has pte PTE_U_MASK = true -> has (mstatus (cpu m)) MSTATUS_SUM = true) /\
     (p <> PRV_S -> has pte PTE_U_MASK = true)) /\
    (Z.testbit pte 2 = true -> Z.testbit pte 1 = true) /\
    pa mod 2 ^ (12 + 9 * k) = va mod 2 ^ (12 + 9 * k).
Proof.
  intros Ht Hva H. apply get_phys_addr_leaf in H as (_ & pte & k & Hl & Hok & ->); [|done].
  destruct (leaf_ok_permits _ _ _ _ _ Hok) as (H1 & H2 & H3 & H4 & H5).
  exists pte, k. split; [done|]. split; [by eapply leaf_of_valid|].
  split; [done|]. split; [done|]. split; [done|]. split; [done|].
  apply leaf_addr_offset; [|done]. apply leaf_of_level in Hl. lia.
Qed.
End Walk.

(** *** A user-mode machine under Sv39, for the witnesses *)

(** PMP entry 0 grants everything; the root table is at 0x80001000. *)
Definition user_cpu : RISCVCPUState :=
  (tlb_init (csr_write_pmpcfg (csr_write_pmpaddr demo_cpu 0 (2 ^ 38 - 1)) 0 0x1f))
    <| priv := PRV_U |> <| satp := (8 << 60) .| 0x80001 |>.

(** Virtual gigabyte 0 maps to 0x80000000 by a level-2 leaf; gigabyte 1 points to
    a level-1 table at 0x80002000, whose entry 0 is a leaf with PPN 0x80002. *)
Definition user_machine : RISCVMachine unit :=
  (demo_machine user_cpu)
    <| host ::= fun h =>
         store_le (store_le (store_le h 0x1001000 8 ((0x80000 << 10) .| 0xdf))
                     0x1001008 8 ((0x80002 << 10) .| 1))
           0x1002000 8 ((0x80002 << 10) .| 0xdf) |>.

Lemma user_translated access : translated (cpu user_machine) access.
Proof. split; [destruct access; vm_compute; discriminate|left; vm_compute; reflexivity]. Qed.

Lemma user_xlate :
  (riscv_cpu_get_phys_addr user_machine 0x4321 ACCESS_WRITE).1 = XOk 0x80004321.
Proof. vm_compute. reflexivity. Qed.


Lemma translation_is_permitted_witness :
  exists pte k, leaf_of user_machine 0x4321 (satp_root (cpu user_machine)) 2 pte k /\
    leaf_permits (cpu user_machine) ACCESS_WRITE pte.
Proof.
  destruct (translation_is_permitted user_machine 0x4321 ACCESS_WRITE 0x80004321
              (user_translated ACCESS_WRITE) ltac:(lia) user_xlate)
    as (pte & k & H1 & _ & H2 & _). exists pte, k. exact (conj H1 H2).
Defined.

(** The superpage alignment check looks at [k] bits of the PPN instead of
    [9 * k]: a level-1 leaf whose PPN is not a multiple of 512, which the
    architecture makes a page fault, is translated (to the enclosing 2 MB
    region). *)
Theorem misaligned_superpage_accepted :
  exists pte,
    leaf_of user_machine 0x40000123 (satp_root (cpu user_machine)) 2 pte 1 /\
    (pte >> 10) .& (2 ^ 9 - 1) <> 0 /\
    (riscv_cpu_get_phys_addr user_machine 0x40000123 ACCESS_READ).1 = XOk 0x80000123.
Proof.
  exists ((0x80002 << 10) .| 0xdf). split; [|split; [discriminate|vm_compute; reflexivity]].
  apply (leaf_next _ _ _ _ ((0x80002 << 10) .| 1)); [lia|vm_compute; reflexivity..|].
  apply leaf_here; [lia|vm_compute; reflexivity|reflexivity|discriminate].
Qed.

(** ** Error paths *)



(** U mode, no translation, PMP grants reads of the 8 bytes at 0x80000000 only. *)
Definition subpage_machine : RISCVMachine unit :=
  demo_machine
    ((tlb_init (csr_write_pmpcfg (csr_write_pmpaddr demo_cpu 0 0x20000000) 0 0x19))
       <| priv := PRV_U |>).

(** The data TLBs are filled without regard to PMP regions smaller than a
    page: after a permitted load, a load from another part of the page, which PMP
    denies and which faults when made first, succeeds through the TLB. *)
Lemma pmp_bypassed_within_page :
  let m1 := (target_read 0x80000000 3 subpage_machine).2 in
  riscv_cpu_pmp_access_ok (cpu m1) 0x80000800 8 PMPCFG_R = false /\
  (target_read 0x80000800 3 subpage_machine).1 = inl Fault /\
  (target_read 0x80000000 3 subpage_machine).1 = inr 0 /\
  (target_read 0x80000800 3 m1).1 = inr 0.
Proof. repeat split; vm_compute; reflexivity. Qed.

(** The trigger action is taken from the address register: [check_triggers]
    tests the action field in [tdata2] instead of [tdata1], so a debug-mode
    trigger whose [tdata1] requests action "enter debug mode" raises an ordinary
    breakpoint when bits 17:12 of the matched address are clear. *)
Theorem trigger_action_ignored s addr t1 :
  debug_mode s = false -> tdata1 s = [t1] -> tdata2 s = [addr] ->
  has t1 MCONTROL_DMODE = true -> has t1 MCONTROL_ACTION = true ->
  t1 .& MCONTROL_MATCH = 0 ->
  let want := MCONTROL_LOAD .| u64 (MCONTROL_U << priv s) in
  t1 .& want = want -> has addr MCONTROL_ACTION = false ->
  let r := check_triggers s MCONTROL_LOAD addr in
  r.1 = true /\ debug_mode r.2 = false /\ pending_exception r.2 = CAUSE_BREAKPOINT.
Proof.
  intros Hd E1 E2 _ _ Hm want Hw Ha r. subst r. unfold check_triggers. rewrite Hd.
  change (Z.to_nat MAX_TRIGGERS) with 1%nat. cbn [trigger_loop].
  rewrite E1, E2. change (aget 0 [t1] 0) with t1. change (aget 0 [addr] 0) with addr.
  fold want. rewrite Hw, Z.eqb_refl, Ha. unfold trigger_match. rewrite Hm.
  change ((0 >> 7) =? MCONTROL_MATCH_EQUAL) with true. rewrite Z.eqb_refl. cbn [andb orb fst snd].
  by cpu_simpl.
Qed.

Lemma trigger_action_ignored_witness :
  let s := zero_cpu <| tdata1 := [MCONTROL_DMODE .| (1 << 12) .| MCONTROL_U .| MCONTROL_LOAD] |>
                    <| tdata2 := [0x80000000] |> in
  debug_mode (check_triggers s MCONTROL_LOAD 0x80000000).2 = false.
Proof.
  apply (trigger_action_ignored
    (zero_cpu <| tdata1 := [MCONTROL_DMODE .| (1 << 12) .| MCONTROL_U .| MCONTROL_LOAD] |>
              <| tdata2 := [0x80000000] |>) 0x80000000
    (MCONTROL_DMODE .| (1 << 12) .| MCONTROL_U .| MCONTROL_LOAD)); reflexivity.
Defined.
