(* ===== verification/Alu.v ===== *)
(** * Integer helpers of the interpreter ([include/dromajo_template.h], lines 88-302)

    The template is instantiated for XLEN 32 and 64; [w] is XLEN.  Signed
    arguments and results are [Z] values of the signed type. *)

From S2P Require Import Prelude.

(** ** Division *)

Definition INT_MIN (w : Z) : Z := - 2 ^ (w - 1).

(** C++ signed division truncates toward zero. *)
Definition div_x (w a b : Z) : Z :=
  if b =? 0 then -1
  else if (a =? INT_MIN w) && (b =? -1) then a
  else Z.quot a b.

Definition divu_x (w a b : Z) : Z := if b =? 0 then 2 ^ w - 1 else a / b.

Definition rem_x (w a b : Z) : Z :=
  if b =? 0 then a
  else if (a =? INT_MIN w) && (b =? -1) then 0
  else Z.rem a b.

Definition remu_x (w a b : Z) : Z := if b =? 0 then a else a mod b.

(** ** Carry-less multiplication *)

(** [for (i = lo; i < lo + k; ++i) if ((v2 >> i) & 1) val ^= f(i)]. *)
Fixpoint xor_loop (f : Z -> Z) (v2 i : Z) (k : nat) (val : Z) : Z :=
  match k with
  | O => val
  | S k' => xor_loop f v2 (i + 1) k' (if nz ((v2 >> i) .& 1) then val .^ f i else val)
  end.

Definition clmul (w v1 v2 : Z) : Z := xor_loop (fun i => trunc w (v1 << i)) v2 0 (Z.to_nat w) 0.
Definition clmulh (w v1 v2 : Z) : Z := xor_loop (fun i => v1 >> (w - i)) v2 1 (Z.to_nat (w - 1)) 0.
Definition clmulr (w v1 v2 : Z) : Z :=
  xor_loop (fun i => v1 >> (w - i - 1)) v2 0 (Z.to_nat w) 0.

(** ** Bit counting *)

(** [__builtin_popcount]: the number of set bits among the low [k]. *)
Fixpoint popcount (v : Z) (k : nat) : Z :=
  match k with
  | O => 0
  | S k' => b2z (Z.testbit v (Z.of_nat k')) + popcount v k'
  end.

Definition cpop (v : Z) : Z := popcount v 64.
Definition cpopw (v : Z) : Z := popcount (u32 v) 32.

(** [__builtin_ctz]: the index of the lowest set bit; undefined at 0. *)
Fixpoint ctz_from (v i : Z) (k : nat) : option Z :=
  match k with
  | O => None
  | S k' => if Z.testbit v i then Some i else ctz_from v (i + 1) k'
  end.

Definition builtin_ctz (w v : Z) : option Z := ctz_from v 0 (Z.to_nat w).

(** [None] is undefined behaviour. *)
Definition ctz_x (v : Z) : option Z := if v =? 0 then Some 64 else builtin_ctz 64 v.
Definition ctzw (v : Z) : option Z := builtin_ctz 32 (u32 v).
Definition clz_x (v : Z) : option Z := if v =? 0 then Some 64 else builtin_ctz 64 v.
Definition clzw (v : Z) : option Z := if v =? 0 then Some 32 else builtin_ctz 32 (u32 v).

(** [tmp = val << (XLEN - n); tmp >> (XLEN - n)] on the signed type. *)
Definition sext_h (v : Z) : Z := i64 (v << (64 - 16)) >> (64 - 16).
Definition sext_b (v : Z) : Z := i64 (v << (64 - 8)) >> (64 - 8).

(** ** High multiplication *)

(** [((int128_t)a * (int128_t)b) >> 64], converted to [uint64_t]. *)
Definition mulh64 (a b : Z) : Z := u64 (sgn 128 (a * b) >> 64).
Definition mulhsu64 (a b : Z) : Z := u64 (sgn 128 (a * b) >> 64).
Definition mulhu64 (a b : Z) : Z := u64 (sgn 128 (a * b) >> 64).

(** The portable version on half words, used without [HAVE_INT128]. *)
Definition mulhu_words (a0 a1 b0 b1 : Z) : Z :=
  let r00 := u64 (a0 * b0) in
  let r01 := u64 (a0 * b1) in
  let r10 := u64 (a1 * b0) in
  let r11 := u64 (a1 * b1) in
  let c := u64 ((r00 >> 32) + u32 r01 + u32 r10) in
  let c := u64 ((c >> 32) + (r01 >> 32) + (r10 >> 32) + u32 r11) in
  let r2 := u32 c in
  let r3 := u32 ((c >> 32) + (r11 >> 32)) in
  u64 (r3 << 32) .| r2.

Definition mulhu_half (a b : Z) : Z :=
  mulhu_words (u32 a) (u32 (a >> 32)) (u32 b) (u32 (b >> 32)).

Definition mulh_half (a b : Z) : Z :=
  let r1 := mulhu_half (u64 a) (u64 b) in
  let r1 := if a <? 0 then u64 (r1 - a) else r1 in
  if b <? 0 then u64 (r1 - b) else r1.

Definition mulhsu_half (a b : Z) : Z :=
  let r1 := mulhu_half (u64 a) b in
  if a <? 0 then u64 (r1 - a) else r1.

(** ** Properties *)

Definition signed (w x : Z) : Prop := - 2 ^ (w - 1) <= x < 2 ^ (w - 1).

(** Quotient and remainder outside the special cases. *)
Lemma quot_rem_ok w a b :
  signed w a -> signed w b -> b <> 0 -> ~ (a = INT_MIN w /\ b = -1) ->
  signed w (Z.quot a b) /\ signed w (Z.rem a b) /\ a = b * Z.quot a b + Z.rem a b /\
  Z.abs (Z.rem a b) < Z.abs b /\ (Z.rem a b = 0 \/ Z.sgn (Z.rem a b) = Z.sgn a).
Proof.
  unfold signed, INT_MIN. intros Ha Hb Hb0 Hov.
  pose proof (Z.quot_rem' a b) as E. pose proof (Z.rem_bound_abs a b Hb0) as Hr.
  assert (Z.abs (Z.quot a b) <= Z.abs a) as Hq.
  { rewrite <- Z.quot_abs by done. apply Z.quot_le_upper_bound; lia || nia. }
  split; [|split; [lia|split; [done|split; [done|]]]].
  - assert (b = 1 \/ b = -1 \/ 2 <= Z.abs b) as [-> | [-> | Hb2]] by lia.
    + by rewrite Z.quot_1_r.
    + replace (Z.quot a (-1)) with (- a) by lia. lia.
    + assert (2 * Z.abs (Z.quot a b) <= Z.abs a); [|lia].
      assert (Z.abs b * Z.abs (Z.quot a b) <= Z.abs a); [|nia].
      rewrite <- Z.abs_mul. pose proof (Z.mul_quot_le (Z.abs a) (Z.abs b)).
      rewrite Z.abs_mul, <- Z.quot_abs by done. lia.
  - destruct (Z.eq_dec (Z.rem a b) 0); [by left|right; by apply Z.rem_sign_nz].
Qed.

(** Division never traps and satisfies the division identity of the ISA on
    every input, the two special cases included: quotient and remainder are
    representable, [a = b * q + r] holds modulo 2^w, and outside division by zero
    and overflow it holds exactly, the quotient truncated toward zero. *)
Lemma div_rem_identity w a b :
  0 < w -> signed w a -> signed w b ->
  let q := div_x w a b in
  let r := rem_x w a b in
  signed w q /\ signed w r /\ trunc w (b * q + r) = trunc w a /\
  (b <> 0 -> ~ (a = INT_MIN w /\ b = -1) ->
   a = b * q + r /\ Z.abs r < Z.abs b /\ (r = 0 \/ Z.sgn r = Z.sgn a)).
Proof.
  intros Hw Ha Hb. unfold div_x, rem_x.
  destruct (Z.eqb_spec b 0) as [->|Hb0].
  - unfold signed in *. assert (0 < 2 ^ (w - 1)) by (apply pow2_pos; lia).
    split; [lia|]. split; [done|]. split; [f_equal; lia|done].
  - destruct ((a =? INT_MIN w) && (b =? -1)) eqn:Eo.
    + apply andb_true_iff in Eo as [->%Z.eqb_eq ->%Z.eqb_eq]. unfold signed, INT_MIN in *.
      split; [done|]. split; [lia|]. split; [|tauto].
      replace (-1 * - 2 ^ (w - 1) + 0) with (- 2 ^ (w - 1) + 1 * 2 ^ w); [apply trunc_period; lia|].
      replace (2 ^ w) with (2 * 2 ^ (w - 1)) by (rewrite <- Z.pow_succ_r; [f_equal|]; lia). lia.
    + assert (~ (a = INT_MIN w /\ b = -1)) as Hno.
      { intros [-> ->]. by rewrite !Z.eqb_refl in Eo. }
      destruct (quot_rem_ok w a b) as (H1 & H2 & H3 & H4 & H5); try done.
      repeat (split; [done|]). split; [by rewrite <- H3|]. auto.
Qed.

Lemma div_rem_identity_witness :
  signed 64 (div_x 64 (- 2 ^ 63) (-1)) /\ trunc 64 (-1 * div_x 64 (- 2 ^ 63) (-1) + 0) = 2 ^ 63.
Proof.
  destruct (div_rem_identity 64 (- 2 ^ 63) (-1)) as (H1 & _ & H2 & _); unfold signed; [lia..|].
  exact (conj H1 H2).
Defined.

(** *** Carry-less products *)

(** The carry-less product of [v1] and the low [k] bits of [v2]. *)
Fixpoint clprod (v1 v2 : Z) (k : nat) : Z :=
  match k with
  | O => 0
  | S k' => clprod v1 v2 k' .^ (if Z.testbit v2 (Z.of_nat k') then v1 << Z.of_nat k' else 0)
  end.

Lemma xor_loop_acc f v2 i k val :
  0 <= i -> xor_loop f v2 i k val = val .^ xor_loop f v2 i k 0.
Proof.
  revert i val. induction k as [|k IH]; intros i val Hi; cbn [xor_loop]; [by rewrite Z.lxor_0_r|].
  rewrite IH, (IH (i + 1) (if nz ((v2 >> i) .& 1) then 0 .^ f i else 0)) by lia. destruct (nz _).
  - by rewrite Z.lxor_0_l, Z.lxor_assoc.
  - by rewrite Z.lxor_0_l.
Qed.

(** The loop over [i .. i + k - 1], last step first. *)
Lemma xor_loop_snoc f v2 i k :
  0 <= i ->
  xor_loop f v2 i (S k) 0
  = xor_loop f v2 i k 0 .^ (if Z.testbit v2 (i + Z.of_nat k) then f (i + Z.of_nat k) else 0).
Proof.
  revert i. induction k as [|k IH]; intros i Hi.
  - cbn [xor_loop]. rewrite bit_test, Z.add_0_r by lia. by destruct (Z.testbit v2 i).
  - remember (S k) as k1. cbn [xor_loop]. rewrite xor_loop_acc by lia. subst k1.
    rewrite IH by lia. cbn [xor_loop]. rewrite (xor_loop_acc f v2 (i + 1) k (if nz ((v2 >> i) .& 1) then 0 .^ f i else 0)) by lia.
    replace (i + 1 + Z.of_nat k) with (i + Z.of_nat (S k)) by lia.
    by rewrite Z.lxor_assoc.
Qed.

Lemma xor_loop_skip f v2 i k : f i = 0 -> xor_loop f v2 i (S k) 0 = xor_loop f v2 (i + 1) k 0.
Proof. intros E. cbn [xor_loop]. rewrite E. by destruct (nz _). Qed.

(** Any map that distributes over XOR and maps the partial products. *)
Lemma xor_loop_clprod (g : Z -> Z) f v1 v2 k :
  g 0 = 0 -> (forall x y, g (x .^ y) = g x .^ g y) ->
  (forall i, 0 <= i < Z.of_nat k -> f i = g (v1 << i)) ->
  xor_loop f v2 0 k 0 = g (clprod v1 v2 k).
Proof.
  intros G0 Gx Hf. induction k as [|k IH]; [done|].
  rewrite xor_loop_snoc, IH by (lia || (intros; apply Hf; lia)). cbn [clprod]. rewrite Gx. f_equal.
  rewrite Z.add_0_l. destruct (Z.testbit v2 (Z.of_nat k)); [apply Hf; lia|done].
Qed.

Lemma trunc_lxor w x y : 0 <= w -> trunc w (x .^ y) = trunc w x .^ trunc w y.
Proof. intros. bitwise. Qed.

(** The three carry-less multiplications return the low, the high and the
    reversed (bits 63 up) words of one carry-less product. *)
Lemma clmul_words v1 v2 :
  fits 64 v1 ->
  clmul 64 v1 v2 = u64 (clprod v1 v2 64) /\
  clmulh 64 v1 v2 = clprod v1 v2 64 >> 64 /\
  clmulr 64 v1 v2 = clprod v1 v2 64 >> 63.
Proof.
  intros H1. split; [|split].
  - apply (xor_loop_clprod u64); [done|intros; apply trunc_lxor; lia|done].
  - transitivity (xor_loop (fun i => v1 >> (64 - i)) v2 0 64 0).
    + unfold clmulh. change (Z.to_nat (64 - 1)) with 63%nat.
      rewrite (xor_loop_skip _ v2 0 63); [done|].
      rewrite Z.shiftr_div_pow2 by lia. by apply Z.div_small.
    + apply (xor_loop_clprod (fun x => x >> 64)); [done|intros; apply Z.shiftr_lxor|].
      intros i Hi. symmetry. rewrite Z.shiftr_shiftl_r by lia. done.
  - apply (xor_loop_clprod (fun x => x >> 63)); [done|intros; apply Z.shiftr_lxor|].
    intros i Hi. symmetry. rewrite Z.shiftr_shiftl_r by lia. f_equal. lia.
Qed.

Lemma clmul_words_witness : clmulh 64 (2 ^ 63 + 1) 6 = clprod (2 ^ 63 + 1) 6 64 >> 64.
Proof. apply (clmul_words (2 ^ 63 + 1) 6). unfold fits. lia. Defined.

(** *** High multiplication *)

Lemma high_word x : u64 (sgn 128 x >> 64) = u64 (x >> 64).
Proof.
  apply Z.bits_inj'. intros i Hi. rewrite !testbit_trunc, !Z.shiftr_spec, testbit_sgn by lia.
  destruct (Z.ltb_spec i 64); [|done]. cbn [andb]. f_equal. lia.
Qed.

(** Schoolbook multiplication on half words of base [B]. *)
Lemma half_words B a0 a1 b0 b1 :
  0 < B -> 0 <= a0 < B -> 0 <= a1 < B -> 0 <= b0 < B -> 0 <= b1 < B ->
  let c1 := a0 * b0 / B + (a0 * b1) mod B + (a1 * b0) mod B in
  (a1 * B + a0) * (b1 * B + b0) / (B * B)
  = c1 / B + a0 * b1 / B + a1 * b0 / B + a1 * b1.
Proof.
  intros HB H0 H1 H2 H3 c1.
  pose proof (Z.div_mod (a0 * b1) B ltac:(lia)) as E01.
  pose proof (Z.div_mod (a1 * b0) B ltac:(lia)) as E10.
  rewrite <- Z.div_div by lia.
  replace ((a1 * B + a0) * (b1 * B + b0))
    with (a0 * b0 + (a1 * b1 * B + a0 * b1 + a1 * b0) * B) by ring.
  rewrite Z.div_add by lia.
  replace (a0 * b0 / B + (a1 * b1 * B + a0 * b1 + a1 * b0))
    with (c1 + (a1 * b1 + a0 * b1 / B + a1 * b0 / B) * B) by (unfold c1; lia).
  rewrite Z.div_add by lia. lia.
Qed.

Lemma half_bounds B x y : 0 < B -> 0 <= x < B -> 0 <= y < B -> 0 <= x * y <= (B - 1) * (B - 1).
Proof. intros. nia. Qed.

(** The halves of a 64-bit word. *)
Lemma word_halves a : fits 64 a ->
  u32 a = a mod 2 ^ 32 /\ u32 (a >> 32) = a / 2 ^ 32 /\ a = a / 2 ^ 32 * 2 ^ 32 + a mod 2 ^ 32 /\
  0 <= a / 2 ^ 32 < 2 ^ 32 /\ 0 <= a mod 2 ^ 32 < 2 ^ 32.
Proof.
  intros [H0 H1]. pose proof (Z.div_mod a (2 ^ 32) ltac:(lia)).
  pose proof (Z.mod_pos_bound a (2 ^ 32) ltac:(lia)).
  assert (0 <= a / 2 ^ 32 < 2 ^ 32) as Hd
      by (split; [apply Z.div_pos; lia|apply Z.div_lt_upper_bound; lia]).
  split; [done|]. split; [rewrite Z.shiftr_div_pow2 by lia; by apply trunc_small|].
  split; [lia|]. split; [done|lia].
Qed.

Lemma join_words h l : 0 <= h -> 0 <= l < 2 ^ 32 -> (h << 32) .| l = h * 2 ^ 32 + l.
Proof.
  intros Hh Hl. rewrite <- Z.shiftl_mul_pow2 by lia. symmetry. apply Z.add_nocarry_lor, land_shiftl_low; [lia|done].
Qed.

Lemma high_range N x y : 0 <= x < N -> 0 <= y < N -> 0 <= x * y / N < N.
Proof.
  intros Hx Hy. split; [apply Z.div_pos; [apply Z.mul_nonneg_nonneg|]; lia|].
  apply Z.div_lt_upper_bound; [lia|]. apply Z.mul_lt_mono_nonneg; lia.
Qed.

Lemma mulhu_words_eq a0 a1 b0 b1 :
  0 <= a0 < 2 ^ 32 -> 0 <= a1 < 2 ^ 32 -> 0 <= b0 < 2 ^ 32 -> 0 <= b1 < 2 ^ 32 ->
  mulhu_words a0 a1 b0 b1 = (a1 * 2 ^ 32 + a0) * (b1 * 2 ^ 32 + b0) / (2 ^ 32 * 2 ^ 32).
Proof.
  intros A0 A1 B0 B1. pose proof (half_words (2 ^ 32) a0 a1 b0 b1 ltac:(lia) A0 A1 B0 B1) as HT.
  cbn zeta in HT. set (T := _ / (2 ^ 32 * 2 ^ 32)) in *.
  assert (0 <= T < 2 ^ 32 * 2 ^ 32) as HTr.
  { apply high_range; lia. }
  pose proof (half_bounds (2 ^ 32) _ _ eq_refl A0 B0). pose proof (half_bounds (2 ^ 32) _ _ eq_refl A0 B1).
  pose proof (half_bounds (2 ^ 32) _ _ eq_refl A1 B0). pose proof (half_bounds (2 ^ 32) _ _ eq_refl A1 B1).
  clearbody T. clear A0 A1 B0 B1. unfold mulhu_words.
  revert HT H H0 H1 H2. generalize (a0 * b0) (a0 * b1) (a1 * b0) (a1 * b1).
  intros r00 r01 r10 r11 HT R00 R01 R10 R11.
  assert (forall x, 0 <= x < 2 ^ 64 -> u64 x = x) as Hs by (intros; by apply trunc_small).
  rewrite !(Hs r00), !(Hs r01), !(Hs r10), !(Hs r11) by lia.
  assert (forall x, u32 x = x mod 2 ^ 32) as H32 by done. rewrite !H32, !Z.shiftr_div_pow2 by lia.
  pose proof (Z.mod_pos_bound r01 (2 ^ 32) ltac:(lia)). pose proof (Z.mod_pos_bound r10 (2 ^ 32) ltac:(lia)).
  pose proof (Z.div_mod r11 (2 ^ 32) ltac:(lia)) as E11. pose proof (Z.mod_pos_bound r11 (2 ^ 32) ltac:(lia)).
  assert (forall r, 0 <= r <= (2 ^ 32 - 1) * (2 ^ 32 - 1) -> 0 <= r / 2 ^ 32 < 2 ^ 32) as Hd.
  { intros r Hr. split; [apply Z.div_pos; lia|apply Z.div_lt_upper_bound; lia]. }
  pose proof (Hd r00 R00). pose proof (Hd r01 R01). pose proof (Hd r10 R10). pose proof (Hd r11 R11).
  set (c1 := r00 / 2 ^ 32 + r01 mod 2 ^ 32 + r10 mod 2 ^ 32) in *.
  assert (0 <= c1 < 2 ^ 34) as Hc1 by (unfold c1; lia). rewrite (Hs c1) by lia.
  assert (0 <= c1 / 2 ^ 32 < 4) by (split; [apply Z.div_pos; lia|apply Z.div_lt_upper_bound; lia]).
  set (c2 := c1 / 2 ^ 32 + r01 / 2 ^ 32 + r10 / 2 ^ 32 + r11 mod 2 ^ 32) in *.
  assert (0 <= c2 < 2 ^ 64) as Hc2 by (unfold c2; lia). rewrite (Hs c2) by done.
  assert (T = c2 + r11 / 2 ^ 32 * 2 ^ 32) as ET by (unfold c2; lia).
  assert (c2 / 2 ^ 32 + r11 / 2 ^ 32 = T / 2 ^ 32) as -> by (rewrite ET, Z.div_add by lia; done).
  assert (c2 mod 2 ^ 32 = T mod 2 ^ 32) as -> by (rewrite ET, Z_mod_plus_full; done).
  assert (0 <= T / 2 ^ 32 < 2 ^ 32) by (split; [apply Z.div_pos; lia|apply Z.div_lt_upper_bound; lia]).
  rewrite (Z.mod_small (T / 2 ^ 32)) by done. pose proof (Z.div_mod T (2 ^ 32) ltac:(lia)).
  pose proof (Z.mod_pos_bound T (2 ^ 32) ltac:(lia)).
  rewrite Hs, join_words by (rewrite ?Z.shiftl_mul_pow2 by lia; lia). lia.
Qed.

Lemma mulhu_half_eq a b : fits 64 a -> fits 64 b -> mulhu_half a b = (a * b) >> 64.
Proof.
  intros Ha Hb. destruct (word_halves a Ha) as (Ea0 & Ea1 & Ea & A1 & A0).
  destruct (word_halves b Hb) as (Eb0 & Eb1 & Eb & B1 & B0).
  unfold mulhu_half. rewrite Ea0, Ea1, Eb0, Eb1, mulhu_words_eq, <- Ea, <- Eb by done.
  by rewrite Z.shiftr_div_pow2 by lia.
Qed.

(** The high multiplications return bits 127:64 of the exact product, for the
    signed, mixed and unsigned readings of the operands, although the unsigned
    one multiplies in a signed 128-bit type; and the portable half-word [mulhu]
    computes the same without a 128-bit type. *)
Lemma mulh_high_word a b :
  mulh64 (i64 a) (i64 b) = u64 (i64 a * i64 b / 2 ^ 64) /\
  mulhsu64 (i64 a) (u64 b) = u64 (i64 a * u64 b / 2 ^ 64) /\
  mulhu64 (u64 a) (u64 b) = u64 a * u64 b / 2 ^ 64 /\
  mulhu_half (u64 a) (u64 b) = mulhu64 (u64 a) (u64 b).
Proof.
  unfold mulh64, mulhsu64, mulhu64. rewrite !high_word, !Z.shiftr_div_pow2 by lia.
  pose proof (trunc_fits 64 a ltac:(lia)) as Ha. pose proof (trunc_fits 64 b ltac:(lia)) as Hb.
  assert (u64 (u64 a * u64 b / 2 ^ 64) = u64 a * u64 b / 2 ^ 64) as E
      by (apply trunc_small, high_range; assumption).
  rewrite E. repeat split. by rewrite mulhu_half_eq, Z.shiftr_div_pow2 by (done || lia).
Qed.

(** The portable [mulh] and [mulhsu] subtract the wrong operand (the ISA
    correction for a negative [a] subtracts [b], not [a]): without a 128-bit host
    type, -1 * 1 has the high word 1 instead of -1. *)
Theorem portable_mulh_wrong :
  mulh_half (-1) 1 = 1 /\ mulh64 (-1) 1 = 2 ^ 64 - 1 /\
  mulhsu_half (-1) 1 = 1 /\ mulhsu64 (-1) 1 = 2 ^ 64 - 1.
Proof. repeat split. Qed.

(** *** Counting zeros *)

Lemma ctz_from_spec v i k n :
  ctz_from v i k = Some n ->
  i <= n < i + Z.of_nat k /\ Z.testbit v n = true /\ (forall j, i <= j < n -> Z.testbit v j = false).
Proof.
  revert i. induction k as [|k IH]; intros i; [done|]. cbn [ctz_from].
  destruct (Z.testbit v i) eqn:E.
  - intros [= ->]. split; [lia|]. split; [done|]. lia.
  - intros (H1 & H2 & H3)%IH. split; [lia|]. split; [done|]. intros j Hj.
    destruct (Z.eq_dec j i) as [->|]; [done|apply H3; lia].
Qed.

(** [clz] counts trailing zeros: on every non-zero operand it returns the index
    of the lowest set bit, exactly as [ctz] does, so that clz(1) is 0 where the
    ISA requires 63. *)
Theorem clz_counts_trailing_zeros v n :
  v <> 0 -> clz_x v = Some n ->
  ctz_x v = Some n /\ Z.testbit v n = true /\ (forall j, 0 <= j < n -> Z.testbit v j = false) /\
  clz_x 1 = Some 0.
Proof.
  intros Hv. unfold clz_x at 1, ctz_x. apply Z.eqb_neq in Hv. rewrite Hv. intros H.
  split; [done|]. apply ctz_from_spec in H as (_ & H1 & H2). auto.
Qed.

Lemma clz_counts_trailing_zeros_witness : clz_x 8 = Some 3 /\ ctz_x 8 = Some 3.
Proof.
  split; [reflexivity|]. apply (clz_counts_trailing_zeros 8 3); [discriminate|reflexivity].
Defined.
