(* ===== verification/Softfp.v ===== *)
(** * The soft-float library ([include/softfp_template.h], [include/softfp_template_icvt.h],
    [src/softfp.cpp])

    The template is included once for each float size; here it is a family over a
    [Format], with the three instances of the library.  A float is its bit pattern,
    an unsigned integer of [F_SIZE] bits ([F_UINT]); the accrued exception flags
    ([*pfflags]) are passed and returned.  Exponents are C [int]s that stay far
    from the limits of the type, and are plain integers here. *)

From S2P Require Import Prelude Cpu.

Definition RM_RNE : Z := 0.
Definition RM_RTZ : Z := 1.
Definition RM_RDN : Z := 2.
Definition RM_RUP : Z := 3.
Definition RM_RMM : Z := 4.

Definition FFLAG_INVALID_OP : Z := 1 << 4.
Definition FFLAG_DIVIDE_ZERO : Z := 1 << 3.
Definition FFLAG_OVERFLOW : Z := 1 << 2.
Definition FFLAG_UNDERFLOW : Z := 1 << 1.
Definition FFLAG_INEXACT : Z := 1 << 0.

Definition FCLASS_NINF : Z := 1 << 0.
Definition FCLASS_NNORMAL : Z := 1 << 1.
Definition FCLASS_NSUBNORMAL : Z := 1 << 2.
Definition FCLASS_NZERO : Z := 1 << 3.
Definition FCLASS_PZERO : Z := 1 << 4.
Definition FCLASS_PSUBNORMAL : Z := 1 << 5.
Definition FCLASS_PNORMAL : Z := 1 << 6.
Definition FCLASS_PINF : Z := 1 << 7.
Definition FCLASS_SNAN : Z := 1 << 8.
Definition FCLASS_QNAN : Z := 1 << 9.

(** The macros of a float size; [F_ULONG] says whether a double-width integer type
    exists. *)
Class Format := mkFormat { MANT_SIZE : Z; EXP_SIZE : Z; F_ULONG : bool }.

Definition sf32 : Format := mkFormat 23 8 true.
Definition sf64 : Format := mkFormat 52 11 true.
Definition sf128 : Format := mkFormat 112 15 false.

(** [__builtin_clz] on [n] bits, [n] for 0. *)
Definition clz_n (n a : Z) : Z := if a =? 0 then n else n - 1 - Z.log2 a.

Section Template.
Context {fmt : Format}.

Definition F_SIZE : Z := 1 + EXP_SIZE + MANT_SIZE.
Definition EXP_MASK : Z := (1 << EXP_SIZE) - 1.
Definition MANT_MASK : Z := (1 << MANT_SIZE) - 1.
Definition SIGN_MASK : Z := 1 << (F_SIZE - 1).
Definition IMANT_SIZE : Z := F_SIZE - 2.
Definition RND_SIZE : Z := IMANT_SIZE - MANT_SIZE.
Definition QNAN_MASK : Z := 1 << (MANT_SIZE - 1).
Definition F_QNAN : Z := (EXP_MASK << MANT_SIZE) .| (1 << (MANT_SIZE - 1)).

(** Conversion to [F_UINT]. *)
Definition F_UINT (x : Z) : Z := trunc F_SIZE x.

Definition clz (a : Z) : Z := clz_n F_SIZE a.

Definition pack_sf (a_sign a_exp a_mant : Z) : Z :=
  F_UINT (a_sign << (F_SIZE - 1)) .| F_UINT (a_exp << MANT_SIZE) .| (a_mant .& MANT_MASK).

Definition sign_sf (a : Z) : Z := a >> (F_SIZE - 1).
Definition exp_sf (a : Z) : Z := (a >> MANT_SIZE) .& EXP_MASK.
Definition mant_sf (a : Z) : Z := a .& MANT_MASK.

Definition unpack_sf (a : Z) : Z * Z * Z := (sign_sf a, exp_sf a, mant_sf a).

Definition rshift_rnd (a d : Z) : Z :=
  if d =? 0 then a
  else if F_SIZE <=? d then b2z (nz a)
  else (a >> d) .| b2z (has a ((1 << d) - 1)).

(** The [switch (rm)] of the rounding code. *)
Definition rnd_addend (a_sign rm : Z) : Z :=
  if (rm =? RM_RNE) || (rm =? RM_RMM) then 1 << (RND_SIZE - 1)
  else if rm =? RM_RTZ then 0
  else if nz (a_sign .^ (rm .& 1)) then (1 << RND_SIZE) - 1 else 0.

Definition rnd_mask : Z := (1 << RND_SIZE) - 1.

(** [a_mant = (a_mant + addend) >> RND_SIZE], then the even result half way. *)
Definition round_mant (rm addend a_mant : Z) : Z :=
  let rnd_bits := a_mant .& rnd_mask in
  let a_mant := F_UINT (a_mant + addend) >> RND_SIZE in
  if (rm =? RM_RNE) && (rnd_bits =? (1 << (RND_SIZE - 1))) then a_mant .&~ 1 else a_mant.

Definition round_pack_sf (a_sign a_exp a_mant rm fflags : Z) : Z * Z :=
  let addend := rnd_addend a_sign rm in
  let '(a_exp, a_mant, fflags) :=
    if a_exp <=? 0 then
      let is_subnormal := (a_exp <? 0) || (F_UINT (a_mant + addend) <? (1 << (F_SIZE - 1))) in
      let diff := 1 - a_exp in
      let a_mant := rshift_rnd a_mant diff in
      let rnd_bits := a_mant .& rnd_mask in
      (1, a_mant, if is_subnormal && nz rnd_bits then fflags .| FFLAG_UNDERFLOW else fflags)
    else (a_exp, a_mant, fflags) in
  let rnd_bits := a_mant .& rnd_mask in
  let fflags := if nz rnd_bits then fflags .| FFLAG_INEXACT else fflags in
  let a_mant := round_mant rm addend a_mant in
  let a_exp := a_exp + (a_mant >> (MANT_SIZE + 1)) in
  if a_mant <=? MANT_MASK then (pack_sf a_sign 0 a_mant, fflags)
  else if EXP_MASK <=? a_exp then
    ((if addend =? 0 then pack_sf a_sign (EXP_MASK - 1) MANT_MASK else pack_sf a_sign EXP_MASK 0),
     fflags .| (FFLAG_OVERFLOW .| FFLAG_INEXACT))
  else (pack_sf a_sign a_exp a_mant, fflags).

(** The [assert]s on [shift] are lemmas below the callers. *)
Definition normalize_sf (a_sign a_exp a_mant rm fflags : Z) : Z * Z :=
  let shift := clz a_mant - (F_SIZE - 1 - IMANT_SIZE) in
  round_pack_sf a_sign (a_exp - shift) (F_UINT (a_mant << shift)) rm fflags.

Definition normalize2_sf (a_sign a_exp a_mant1 a_mant0 rm fflags : Z) : Z * Z :=
  let l := if a_mant1 =? 0 then F_SIZE + clz a_mant0 else clz a_mant1 in
  let shift := l - (F_SIZE - 1 - IMANT_SIZE) in
  let a_mant1 :=
    if shift =? 0 then a_mant1 .| b2z (nz a_mant0)
    else if shift <? F_SIZE then
      (F_UINT (a_mant1 << shift) .| (a_mant0 >> (F_SIZE - shift))) .| b2z (nz (F_UINT (a_mant0 << shift)))
    else F_UINT (a_mant0 << (shift - F_SIZE)) in
  round_pack_sf a_sign (a_exp - shift) a_mant1 rm fflags.

Definition issignan_sf (a : Z) : bool :=
  let a_exp1 := (a >> (MANT_SIZE - 1)) .& ((1 << (EXP_SIZE + 1)) - 1) in
  (a_exp1 =? 2 * EXP_MASK) && nz (mant_sf a).

Definition isnan_sf (a : Z) : bool := (exp_sf a =? EXP_MASK) && nz (mant_sf a).

Definition raise_if (b : bool) (flag fflags : Z) : Z := if b then fflags .| flag else fflags.

(** The part of [add_sf] for finite operands. *)
Definition add_finite (a_sign a_exp a_mant b_sign b_exp b_mant rm fflags : Z) : Z * Z :=
  let '(a_exp, a_mant) :=
    if a_exp =? 0 then (1, a_mant) else (a_exp, a_mant .| (1 << (MANT_SIZE + 3))) in
  let '(b_exp, b_mant) :=
    if b_exp =? 0 then (1, b_mant) else (b_exp, b_mant .| (1 << (MANT_SIZE + 3))) in
  let b_mant := rshift_rnd b_mant (a_exp - b_exp) in
  let '(a_sign, a_mant) :=
    if a_sign =? b_sign then (a_sign, F_UINT (a_mant + b_mant))
    else
      let a_mant := F_UINT (a_mant - b_mant) in
      (if a_mant =? 0 then b2z (rm =? RM_RDN) else a_sign, a_mant) in
  normalize_sf a_sign (a_exp + (RND_SIZE - 3)) a_mant rm fflags.

Definition add_sf (a b rm fflags : Z) : Z * Z :=
  let '(a, b) := if (a .&~ SIGN_MASK) <? (b .&~ SIGN_MASK) then (b, a) else (a, b) in
  let a_sign := sign_sf a in
  let b_sign := sign_sf b in
  let a_exp := exp_sf a in
  let b_exp := exp_sf b in
  let a_mant := mant_sf a << 3 in
  let b_mant := mant_sf b << 3 in
  if a_exp =? EXP_MASK then
    if nz a_mant then
      (F_QNAN, raise_if (negb (has a_mant (QNAN_MASK << 3)) || issignan_sf b) FFLAG_INVALID_OP fflags)
    else if (b_exp =? EXP_MASK) && negb (a_sign =? b_sign) then (F_QNAN, fflags .| FFLAG_INVALID_OP)
    else (a, fflags)
  else add_finite a_sign a_exp a_mant b_sign b_exp b_mant rm fflags.

Definition sub_sf (a b rm fflags : Z) : Z * Z := add_sf a (b .^ SIGN_MASK) rm fflags.

(** The new exponent and the shifted mantissa. *)
Definition normalize_subnormal_sf (a_mant : Z) : Z * Z :=
  let shift := MANT_SIZE - (F_SIZE - 1 - clz a_mant) in
  (1 - shift, F_UINT (a_mant << shift)).

(** *** Double-width arithmetic: the high and the low word *)

Definition mul_u_wide (a b : Z) : Z * Z :=
  let r := a * b in (F_UINT (r >> F_SIZE), F_UINT r).

Definition FH_SIZE : Z := F_SIZE / 2.
Definition F_UHALF (x : Z) : Z := trunc FH_SIZE x.

Definition mul_u_half (a b : Z) : Z * Z :=
  let a0 := F_UHALF a in
  let a1 := F_UHALF (a >> FH_SIZE) in
  let b0 := F_UHALF b in
  let b1 := F_UHALF (b >> FH_SIZE) in
  let r00 := F_UINT (a0 * b0) in
  let r01 := F_UINT (a0 * b1) in
  let r10 := F_UINT (a1 * b0) in
  let r11 := F_UINT (a1 * b1) in
  let r0 := F_UHALF r00 in
  let c := F_UINT ((r00 >> FH_SIZE) + F_UHALF r01 + F_UHALF r10) in
  let r1 := F_UHALF c in
  let c := F_UINT ((c >> FH_SIZE) + (r01 >> FH_SIZE) + (r10 >> FH_SIZE) + F_UHALF r11) in
  let r2 := F_UHALF c in
  let r3 := F_UHALF ((c >> FH_SIZE) + (r11 >> FH_SIZE)) in
  (F_UINT (r3 << FH_SIZE) .| r2, F_UINT (r1 << FH_SIZE) .| r0).

Definition mul_u (a b : Z) : Z * Z := if F_ULONG then mul_u_wide a b else mul_u_half a b.

(** The mantissa with its leading bit at [MANT_SIZE], for a nonzero finite float. *)
Definition norm_mant (a_exp a_mant : Z) : Z * Z :=
  if a_exp =? 0 then normalize_subnormal_sf a_mant else (a_exp, a_mant .| (1 << MANT_SIZE)).

Definition mul_sf (a b rm fflags : Z) : Z * Z :=
  let r_sign := sign_sf a .^ sign_sf b in
  let a_exp := exp_sf a in
  let b_exp := exp_sf b in
  let a_mant := mant_sf a in
  let b_mant := mant_sf b in
  if (a_exp =? EXP_MASK) || (b_exp =? EXP_MASK) then
    if isnan_sf a || isnan_sf b then
      (F_QNAN, raise_if (issignan_sf a || issignan_sf b) FFLAG_INVALID_OP fflags)
    else if ((a_exp =? EXP_MASK) && ((b_exp =? 0) && (b_mant =? 0)))
            || ((b_exp =? EXP_MASK) && ((a_exp =? 0) && (a_mant =? 0)))
    then (F_QNAN, fflags .| FFLAG_INVALID_OP)
    else (pack_sf r_sign EXP_MASK 0, fflags)
  else if (a_exp =? 0) && (a_mant =? 0) then (pack_sf r_sign 0 0, fflags)
  else
    let '(a_exp, a_mant) := norm_mant a_exp a_mant in
    if (b_exp =? 0) && (b_mant =? 0) then (pack_sf r_sign 0 0, fflags)
    else
      let '(b_exp, b_mant) := norm_mant b_exp b_mant in
      let r_exp := a_exp + b_exp - (1 << (EXP_SIZE - 1)) + 2 in
      let '(r_mant, r_mant_low) := mul_u (F_UINT (a_mant << RND_SIZE)) (F_UINT (b_mant << (RND_SIZE + 1))) in
      normalize_sf r_sign r_exp (r_mant .| b2z (nz r_mant_low)) rm fflags.

(** The right shift of the smaller operand of [fma_sf]. *)
Definition fma_shift (c_mant1 c_mant0 shift : Z) : Z * Z :=
  if 2 * F_SIZE <=? shift then (0, b2z (nz (c_mant0 .| c_mant1)))
  else if F_SIZE + 1 <=? shift then (0, rshift_rnd c_mant1 (shift - F_SIZE))
  else if shift =? F_SIZE then (0, c_mant1 .| b2z (nz c_mant0))
  else if nz shift then
    (c_mant1 >> shift,
     F_UINT (c_mant1 << (F_SIZE - shift)) .| (c_mant0 >> shift) .| b2z (has c_mant0 ((1 << shift) - 1)))
  else (c_mant1, c_mant0).

(** [fma_sf] after the multiplication, with operands in order of magnitude. *)
Definition fma_add (r_sign r_exp r_mant1 r_mant0 c_sign c_exp c_mant1 c_mant0 rm fflags : Z) : Z * Z :=
  let '(c_mant1, c_mant0) := fma_shift c_mant1 c_mant0 (r_exp - c_exp) in
  let '(r_sign, r_mant1, r_mant0) :=
    if r_sign =? c_sign then
      let r_mant0 := F_UINT (r_mant0 + c_mant0) in
      (r_sign, F_UINT (r_mant1 + (c_mant1 + b2z (r_mant0 <? c_mant0))), r_mant0)
    else
      let tmp := r_mant0 in
      let r_mant0 := F_UINT (r_mant0 - c_mant0) in
      let r_mant1 := F_UINT (r_mant1 - c_mant1 - b2z (tmp <? r_mant0)) in
      ((if r_mant0 .| r_mant1 =? 0 then b2z (rm =? RM_RDN) else r_sign), r_mant1, r_mant0) in
  normalize2_sf r_sign r_exp r_mant1 r_mant0 rm fflags.

(** [fma_sf] for finite operands with a nonzero product. *)
Definition fma_finite (r_sign a_exp a_mant b_exp b_mant c_sign c_exp c_mant rm fflags : Z) : Z * Z :=
  let '(a_exp, a_mant) := norm_mant a_exp a_mant in
  let '(b_exp, b_mant) := norm_mant b_exp b_mant in
  let r_exp := a_exp + b_exp - (1 << (EXP_SIZE - 1)) + 3 in
  let '(r_mant1, r_mant0) := mul_u (F_UINT (a_mant << RND_SIZE)) (F_UINT (b_mant << RND_SIZE)) in
  let '(r_exp, r_mant1, r_mant0) :=
    if r_mant1 <? (1 << (F_SIZE - 3))
    then (r_exp - 1, F_UINT (r_mant1 << 1) .| (r_mant0 >> (F_SIZE - 1)), F_UINT (r_mant0 << 1))
    else (r_exp, r_mant1, r_mant0) in
  if (c_exp =? 0) && (c_mant =? 0) then
    normalize_sf r_sign r_exp (r_mant1 .| b2z (nz r_mant0)) rm fflags
  else
    let '(c_exp, c_mant) := norm_mant c_exp c_mant in
    let c_exp := c_exp + 1 in
    let c_mant1 := F_UINT (c_mant << (RND_SIZE - 1)) in
    if (c_exp <? r_exp) || ((r_exp =? c_exp) && (c_mant1 <=? r_mant1))
    then fma_add r_sign r_exp r_mant1 r_mant0 c_sign c_exp c_mant1 0 rm fflags
    else fma_add c_sign c_exp c_mant1 0 r_sign r_exp r_mant1 r_mant0 rm fflags.

Definition fma_sf (a b c rm fflags : Z) : Z * Z :=
  let c_sign := sign_sf c in
  let r_sign := sign_sf a .^ sign_sf b in
  let a_exp := exp_sf a in
  let b_exp := exp_sf b in
  let c_exp := exp_sf c in
  let a_mant := mant_sf a in
  let b_mant := mant_sf b in
  let c_mant := mant_sf c in
  let a_zero := (a_exp =? 0) && (a_mant =? 0) in
  let b_zero := (b_exp =? 0) && (b_mant =? 0) in
  if (a_exp =? EXP_MASK) || (b_exp =? EXP_MASK) || (c_exp =? EXP_MASK) then
    if (a_zero && (b_exp =? EXP_MASK) && (b_mant =? 0)) || (b_zero && (a_exp =? EXP_MASK) && (a_mant =? 0))
    then (F_QNAN, fflags .| FFLAG_INVALID_OP)
    else if isnan_sf a || isnan_sf b || isnan_sf c then
      (F_QNAN, raise_if (issignan_sf a || issignan_sf b || issignan_sf c) FFLAG_INVALID_OP fflags)
    else if ((a_exp =? EXP_MASK) && b_zero) || ((b_exp =? EXP_MASK) && a_zero)
            || (((a_exp =? EXP_MASK) || (b_exp =? EXP_MASK)) && ((c_exp =? EXP_MASK) && negb (r_sign =? c_sign)))
    then (F_QNAN, fflags .| FFLAG_INVALID_OP)
    else if c_exp =? EXP_MASK then (pack_sf c_sign EXP_MASK 0, fflags)
    else (pack_sf r_sign EXP_MASK 0, fflags)
  else if a_zero || b_zero then
    if (c_exp =? 0) && (c_mant =? 0) then
      (pack_sf (if c_sign =? r_sign then r_sign else b2z (rm =? RM_RDN)) 0 0, fflags)
    else (c, fflags)
  else fma_finite r_sign a_exp a_mant b_exp b_mant c_sign c_exp c_mant rm fflags.

(** *** Division: the quotient and the remainder *)

Definition divrem_u_wide (ah al b : Z) : Z * Z :=
  let a := (ah << F_SIZE) .| al in (F_UINT (a / b), F_UINT (a mod b)).

(** [n] iterations of the loop on [a1] and [a0]. *)
Fixpoint divrem_loop (n : nat) (a1 a0 b : Z) : Z * Z :=
  match n with
  | O => (a0, a1)
  | S n =>
      let ab := a1 >> (F_SIZE - 1) in
      let a1 := F_UINT (a1 << 1) .| (a0 >> (F_SIZE - 1)) in
      if nz ab || (b <=? a1)
      then divrem_loop n (F_UINT (a1 - b)) (F_UINT (a0 << 1) .| 1) b
      else divrem_loop n a1 (F_UINT (a0 << 1) .| 0) b
  end.

Definition divrem_u_loop (a1 a0 b : Z) : Z * Z := divrem_loop (Z.to_nat F_SIZE) a1 a0 b.

Definition divrem_u (ah al b : Z) : Z * Z :=
  if F_ULONG then divrem_u_wide ah al b else divrem_u_loop ah al b.

Definition div_sf (a b rm fflags : Z) : Z * Z :=
  let r_sign := sign_sf a .^ sign_sf b in
  let a_exp := exp_sf a in
  let b_exp := exp_sf b in
  let a_mant := mant_sf a in
  let b_mant := mant_sf b in
  let nan_flags := raise_if (issignan_sf a || issignan_sf b) FFLAG_INVALID_OP fflags in
  if a_exp =? EXP_MASK then
    if nz a_mant || isnan_sf b then (F_QNAN, nan_flags)
    else if b_exp =? EXP_MASK then (F_QNAN, fflags .| FFLAG_INVALID_OP)
    else (pack_sf r_sign EXP_MASK 0, fflags)
  else if b_exp =? EXP_MASK then
    if nz b_mant then (F_QNAN, nan_flags) else (pack_sf r_sign 0 0, fflags)
  else if (b_exp =? 0) && (b_mant =? 0) then
    if (a_exp =? 0) && (a_mant =? 0) then (F_QNAN, fflags .| FFLAG_INVALID_OP)
    else (pack_sf r_sign EXP_MASK 0, fflags .| FFLAG_DIVIDE_ZERO)
  else
    let '(b_exp, b_mant) := norm_mant b_exp b_mant in
    if (a_exp =? 0) && (a_mant =? 0) then (pack_sf r_sign 0 0, fflags)
    else
      let '(a_exp, a_mant) := norm_mant a_exp a_mant in
      let r_exp := a_exp - b_exp + (1 << (EXP_SIZE - 1)) - 1 in
      let '(r_mant, r) := divrem_u a_mant 0 (F_UINT (b_mant << 2)) in
      normalize_sf r_sign r_exp (if nz r then r_mant .| 1 else r_mant) rm fflags.

(** *** Square root: the root and whether it is inexact

    [None]: the loop does not end within [fuel] iterations. *)

Fixpoint newton_wide (fuel : nat) (a u : Z) : option Z :=
  match fuel with
  | O => None
  | S fuel => let s := u in let u := (a / s + s) / 2 in if s <=? u then Some s else newton_wide fuel a u
  end.

Fixpoint newton (fuel : nat) (a1 a0 u : Z) : option Z :=
  match fuel with
  | O => None
  | S fuel =>
      let s := u in
      let '(q, _) := divrem_u a1 a0 s in
      let u := F_UINT (q + s) / 2 in
      if s <=? u then Some s else newton fuel a1 a0 u
  end.

Definition sqrt_bits (ah al : Z) : Z :=
  if nz ah then 2 * F_SIZE - clz (ah - 1) else F_SIZE - clz (al - 1).

Definition sqrt_fuel : nat := Z.to_nat (F_SIZE + 3).

Definition sqrtrem_u (ah al : Z) : option (Z * bool) :=
  if (ah =? 0) && (al =? 0) then Some (0, false)
  else
    let l := sqrt_bits ah al in
    if F_ULONG then
      let a := (ah << F_SIZE) .| al in
      s ← newton_wide sqrt_fuel a (1 << ((l + 1) / 2));
      Some (F_UINT s, nz (trunc (2 * F_SIZE) (a - s * s)))
    else
      s ← newton sqrt_fuel ah al (F_UINT (1 << ((l + 1) / 2)));
      let '(sq1, sq0) := mul_u s s in
      Some (s, negb (sq0 =? al) || negb (sq1 =? ah)).

Definition sqrt_sf (a rm fflags : Z) : option (Z * Z) :=
  let a_sign := sign_sf a in
  let a_exp := exp_sf a in
  let a_mant := mant_sf a in
  if a_exp =? EXP_MASK then
    if nz a_mant then Some (F_QNAN, raise_if (issignan_sf a) FFLAG_INVALID_OP fflags)
    else if nz a_sign then Some (F_QNAN, fflags .| FFLAG_INVALID_OP)
    else Some (a, fflags)
  else if nz a_sign then
    if (a_exp =? 0) && (a_mant =? 0) then Some (a, fflags) else Some (F_QNAN, fflags .| FFLAG_INVALID_OP)
  else if (a_exp =? 0) && (a_mant =? 0) then Some (pack_sf 0 0 0, fflags)
  else
    let '(a_exp, a_mant) := norm_mant a_exp a_mant in
    let a_exp := a_exp - EXP_MASK / 2 in
    let '(a_exp, a_mant) := if has a_exp 1 then (a_exp - 1, F_UINT (a_mant << 1)) else (a_exp, a_mant) in
    let a_exp := (a_exp >> 1) + EXP_MASK / 2 in
    let a_mant := F_UINT (a_mant << (F_SIZE - 4 - MANT_SIZE)) in
    match sqrtrem_u a_mant 0 with
    | None => None
    | Some (a_mant, inexact) =>
        Some (normalize_sf a_sign a_exp (if inexact then a_mant .| 1 else a_mant) rm fflags)
    end.

(** *** Comparisons and classification *)

Definition any_nan (a b : Z) : bool := isnan_sf a || isnan_sf b.
Definition any_signan (a b : Z) : bool := issignan_sf a || issignan_sf b.

Definition min_sf (a b fflags : Z) : Z * Z :=
  if any_nan a b then
    ((if isnan_sf a then if isnan_sf b then F_QNAN else b else a),
     raise_if (any_signan a b) FFLAG_INVALID_OP fflags)
  else
    let a_sign := sign_sf a in
    let b_sign := sign_sf b in
    ((if negb (a_sign =? b_sign) then if nz a_sign then a else b
      else if nz (b2z (a <? b) .^ a_sign) then a else b), fflags).

Definition max_sf (a b fflags : Z) : Z * Z :=
  if any_nan a b then
    ((if isnan_sf a then if isnan_sf b then F_QNAN else b else a),
     raise_if (any_signan a b) FFLAG_INVALID_OP fflags)
  else
    let a_sign := sign_sf a in
    let b_sign := sign_sf b in
    ((if negb (a_sign =? b_sign) then if nz a_sign then b else a
      else if nz (b2z (a <? b) .^ a_sign) then b else a), fflags).

Definition eq_quiet_sf (a b fflags : Z) : bool * Z :=
  if any_nan a b then (false, raise_if (any_signan a b) FFLAG_INVALID_OP fflags)
  else if F_UINT ((a .| b) << 1) =? 0 then (true, fflags)
  else (a =? b, fflags).

Definition le_sf (a b fflags : Z) : bool * Z :=
  if any_nan a b then (false, fflags .| FFLAG_INVALID_OP)
  else
    let a_sign := sign_sf a in
    let b_sign := sign_sf b in
    ((if negb (a_sign =? b_sign) then nz a_sign || (F_UINT ((a .| b) << 1) =? 0)
      else if nz a_sign then b <=? a else a <=? b), fflags).

Definition lt_sf (a b fflags : Z) : bool * Z :=
  if any_nan a b then (false, fflags .| FFLAG_INVALID_OP)
  else
    let a_sign := sign_sf a in
    let b_sign := sign_sf b in
    ((if negb (a_sign =? b_sign) then nz a_sign && nz (F_UINT ((a .| b) << 1))
      else if nz a_sign then b <? a else a <? b), fflags).

Definition fclass_sf (a : Z) : Z :=
  let a_sign := sign_sf a in
  let a_exp := exp_sf a in
  let a_mant := mant_sf a in
  if a_exp =? EXP_MASK then
    if nz a_mant then if has a_mant QNAN_MASK then FCLASS_QNAN else FCLASS_SNAN
    else if nz a_sign then FCLASS_NINF else FCLASS_PINF
  else if a_exp =? 0 then
    if a_mant =? 0 then if nz a_sign then FCLASS_NZERO else FCLASS_PZERO
    else if nz a_sign then FCLASS_NSUBNORMAL else FCLASS_PSUBNORMAL
  else if nz a_sign then FCLASS_NNORMAL else FCLASS_PNORMAL.

(** *** Conversions to and from integers of [n] bits *)

Definition internal_cvt_sf_i (n a rm fflags : Z) (is_unsigned : bool) : Z * Z :=
  let a_exp := exp_sf a in
  let a_mant := mant_sf a in
  let a_sign := if (a_exp =? EXP_MASK) && nz a_mant then 0 else sign_sf a in
  let '(a_exp, a_mant) := if a_exp =? 0 then (1, a_mant) else (a_exp, a_mant .| (1 << MANT_SIZE)) in
  let a_mant := F_UINT (a_mant << RND_SIZE) in
  let a_exp := a_exp - EXP_MASK / 2 - MANT_SIZE in
  let r_max := if is_unsigned then trunc n (a_sign - 1) else trunc n ((1 << (n - 1)) - (a_sign .^ 1)) in
  let overflow := (sgn n r_max, fflags .| FFLAG_INVALID_OP) in
  let negate r := sgn n (if nz a_sign then trunc n (- r) else r) in
  if 0 <=? a_exp then
    if a_exp <=? n - 1 - MANT_SIZE then
      let r := trunc n (trunc n (a_mant >> RND_SIZE) << a_exp) in
      if r_max <? r then overflow else (negate r, fflags)
    else overflow
  else
    let a_mant := rshift_rnd a_mant (- a_exp) in
    let rnd_bits := a_mant .& rnd_mask in
    let a_mant := round_mant rm (rnd_addend a_sign rm) a_mant in
    if r_max <? a_mant then overflow
    else (negate (trunc n a_mant), if nz rnd_bits then fflags .| FFLAG_INEXACT else fflags).

Definition cvt_sf_i (n a rm fflags : Z) : Z * Z := internal_cvt_sf_i n a rm fflags false.

Definition cvt_sf_u (n a rm fflags : Z) : Z * Z :=
  let '(r, fflags) := internal_cvt_sf_i n a rm fflags true in (trunc n r, fflags).

(** [a] is an [ICVT_INT]. *)
Definition internal_cvt_i_sf (n a rm fflags : Z) (is_unsigned : bool) : Z * Z :=
  let '(a_sign, r) := if negb is_unsigned && (a <? 0) then (1, trunc n (- a)) else (0, trunc n a) in
  let a_exp := EXP_MASK / 2 + F_SIZE - 2 in
  let l := n - clz_n n r - (F_SIZE - 1) in
  let '(r, a_exp) :=
    if 0 <? l then
      let mask := r .& ((1 << l) - 1) in ((r >> l) .| b2z (has r mask), a_exp + l)
    else (r, a_exp) in
  normalize_sf a_sign a_exp (F_UINT r) rm fflags.

Definition cvt_i_sf (n a rm fflags : Z) : Z * Z := internal_cvt_i_sf n (sgn n a) rm fflags false.
Definition cvt_u_sf (n a rm fflags : Z) : Z * Z := internal_cvt_i_sf n (sgn n a) rm fflags true.

End Template.

(** *** Conversions between formats *)

(** [cvt_sf32_sf] and [cvt_sf64_sf]: from the format [src] to a larger one. *)
Definition cvt_widen (src dst : Format) (a fflags : Z) : Z * Z :=
  let '(a_sign, a_exp, a_mant) := unpack_sf (fmt := src) a in
  if a_exp =? EXP_MASK (fmt := src) then
    if nz a_mant then (F_QNAN (fmt := dst), raise_if (issignan_sf (fmt := src) a) FFLAG_INVALID_OP fflags)
    else (pack_sf (fmt := dst) a_sign (EXP_MASK (fmt := dst)) 0, fflags)
  else if (a_exp =? 0) && (a_mant =? 0) then (pack_sf (fmt := dst) a_sign 0 0, fflags)
  else
    let '(a_exp, a_mant) :=
      if a_exp =? 0 then normalize_subnormal_sf (fmt := src) a_mant else (a_exp, a_mant) in
    let a_exp := a_exp - EXP_MASK (fmt := src) / 2 + EXP_MASK (fmt := dst) / 2 in
    let a_mant := F_UINT (fmt := dst) (a_mant << (MANT_SIZE (Format := dst) - MANT_SIZE (Format := src))) in
    (pack_sf (fmt := dst) a_sign a_exp a_mant, fflags).

(** [cvt_sf64_sf32], [cvt_sf128_sf32] and [cvt_sf128_sf64]; the shifted mantissa of
    a subnormal is dropped. *)
Definition cvt_narrow (src dst : Format) (a rm fflags : Z) : Z * Z :=
  let '(a_sign, a_exp, a_mant) := unpack_sf (fmt := src) a in
  if a_exp =? EXP_MASK (fmt := src) then
    if nz a_mant then (F_QNAN (fmt := dst), raise_if (issignan_sf (fmt := src) a) FFLAG_INVALID_OP fflags)
    else (pack_sf (fmt := dst) a_sign (EXP_MASK (fmt := dst)) 0, fflags)
  else if (a_exp =? 0) && (a_mant =? 0) then (pack_sf (fmt := dst) a_sign 0 0, fflags)
  else
    let '(a_exp, a_mant) :=
      if a_exp =? 0 then (fst (normalize_subnormal_sf (fmt := src) a_mant), a_mant)
      else (a_exp, a_mant .| (1 << MANT_SIZE (Format := src))) in
    let a_exp := a_exp - EXP_MASK (fmt := src) / 2 + EXP_MASK (fmt := dst) / 2 in
    let a_mant := rshift_rnd (fmt := src) a_mant (MANT_SIZE (Format := src) - (F_SIZE (fmt := dst) - 2)) in
    normalize_sf (fmt := dst) a_sign a_exp (F_UINT (fmt := dst) a_mant) rm fflags.

Definition cvt_sf32_sf64 (a fflags : Z) : Z * Z := cvt_widen sf32 sf64 a fflags.
Definition cvt_sf32_sf128 (a fflags : Z) : Z * Z := cvt_widen sf32 sf128 a fflags.
Definition cvt_sf64_sf128 (a fflags : Z) : Z * Z := cvt_widen sf64 sf128 a fflags.

Definition cvt_sf64_sf32 (a rm fflags : Z) : Z * Z := cvt_narrow sf64 sf32 a rm fflags.
Definition cvt_sf128_sf32 (a rm fflags : Z) : Z * Z := cvt_narrow sf128 sf32 a rm fflags.
Definition cvt_sf128_sf64 (a rm fflags : Z) : Z * Z := cvt_narrow sf128 sf64 a rm fflags.
