(* ===== verification/Insn.v ===== *)
(** * Instruction fields, registers and exits ([include/dromajo_template.h])

    What the instructions of the interpreter share: the fields and immediates of an
    instruction word, the accesses to the register files and to memory, and the
    ways an instruction can leave the [switch]. *)

From S2P Require Import Prelude Iomem Cpu Pmp Csr Trap Machine Mmu.

(** How an instruction leaves the [switch]. *)
Inductive next := NextInsn | CNextInsn | JumpInsn.

(** [goto exception], [illegal_insn] and [done_interp] of an instruction;
    [E_undefined] is a failed [assert] or undefined behaviour of the host code. *)
Inductive exit := E_exception | E_illegal | E_done | E_undefined.

(** ** Decoding *)

(** [sext(val, n)]: [(val << (32 - n)) >> (32 - n)] on [int32_t]. *)
Definition sext (v n : Z) : Z := i32 (v << (32 - n)) >> (32 - n).

(** The shifted mask is of type [uint32_t]; the [assert] that the field is not
    empty holds at every call. *)
Definition get_field1 (v src_pos dst_pos dst_pos_max : Z) : Z :=
  let mask := u32 (((1 << (dst_pos_max - dst_pos + 1)) - 1) << dst_pos) in
  if src_pos <=? dst_pos then u32 (v << (dst_pos - src_pos)) .& mask
  else (v >> (src_pos - dst_pos)) .& mask.

Definition ctf_of_num (k : Z) : RISCVCTFInfo :=
  if k =? 0 then ctf_taken_jalr
  else if k =? 1 then ctf_taken_jalr_pop
  else if k =? 2 then ctf_taken_jalr_push
  else ctf_taken_jalr_pop_push.

Definition ctf_compute_hint (rd rs1 : Z) : RISCVCTFInfo :=
  let rd_link := (rd =? 1) || (rd =? 5) in
  let rs1_link := (rs1 =? 1) || (rs1 =? 5) in
  let k := ctf_of_num (b2z rd_link * 2 + b2z rs1_link) in
  match k with
  | ctf_taken_jalr_pop_push => if rs1 =? rd then ctf_taken_jalr_push else k
  | _ => k
  end.

Definition op_of (insn : Z) : Z := insn .& 0x7f.
Definition rd_of (insn : Z) : Z := (insn >> 7) .& 0x1f.
Definition rs1_of (insn : Z) : Z := (insn >> 15) .& 0x1f.
Definition rs2_of (insn : Z) : Z := (insn >> 20) .& 0x1f.
Definition funct3_of (insn : Z) : Z := (insn >> 12) .& 7.

(** [(int32_t)insn >> 20]. *)
Definition imm_i (insn : Z) : Z := i32 insn >> 20.

Definition imm_s (insn : Z) : Z :=
  i32 ((rd_of insn .| ((insn >> (25 - 5)) .& 0xfe0)) << 20) >> 20.

Definition imm_b (insn : Z) : Z :=
  i32 ((((insn >> (31 - 12)) .& (1 << 12)) .| ((insn >> (25 - 5)) .& 0x7e0)
        .| ((insn >> (8 - 1)) .& 0x1e) .| (u32 (insn << (11 - 7)) .& (1 << 11))) << 19) >> 19.

Definition imm_j (insn : Z) : Z :=
  i32 ((((insn >> (31 - 20)) .& (1 << 20)) .| ((insn >> (21 - 1)) .& 0x7fe)
        .| ((insn >> (20 - 11)) .& (1 << 11)) .| (insn .& 0xff000)) << 11) >> 11.

(** [(int32_t)(insn & 0xfffff000)]. *)
Definition imm_u (insn : Z) : Z := i32 (insn .& 0xfffff000).

(** Immediates of the compressed formats. *)
Definition c_imm_addi4spn (insn : Z) : Z :=
  get_field1 insn 11 4 5 .| get_field1 insn 7 6 9 .| get_field1 insn 6 2 2 .| get_field1 insn 5 3 3.
Definition c_imm_d (insn : Z) : Z := get_field1 insn 10 3 5 .| get_field1 insn 5 6 7.
Definition c_imm_w (insn : Z) : Z :=
  get_field1 insn 10 3 5 .| get_field1 insn 6 2 2 .| get_field1 insn 5 6 6.
Definition c_imm6u (insn : Z) : Z := get_field1 insn 12 5 5 .| get_field1 insn 2 0 4.
Definition c_imm6 (insn : Z) : Z := sext (c_imm6u insn) 6.
Definition c_imm_addi16sp (insn : Z) : Z :=
  sext (get_field1 insn 12 9 9 .| get_field1 insn 6 4 4 .| get_field1 insn 5 6 6
        .| get_field1 insn 3 7 8 .| get_field1 insn 2 5 5) 10.
Definition c_imm_lui (insn : Z) : Z :=
  sext (get_field1 insn 12 17 17 .| get_field1 insn 2 12 16) 18.
Definition c_imm_j (insn : Z) : Z :=
  sext (get_field1 insn 12 11 11 .| get_field1 insn 11 4 4 .| get_field1 insn 9 8 9
        .| get_field1 insn 8 10 10 .| get_field1 insn 7 6 6 .| get_field1 insn 6 7 7
        .| get_field1 insn 3 1 3 .| get_field1 insn 2 5 5) 12.
Definition c_imm_b (insn : Z) : Z :=
  sext (get_field1 insn 12 8 8 .| get_field1 insn 10 3 4 .| get_field1 insn 5 6 7
        .| get_field1 insn 3 1 2 .| get_field1 insn 2 5 5) 9.
Definition c_imm_ldsp (insn rs2 : Z) : Z :=
  get_field1 insn 12 5 5 .| (rs2 .& (3 << 3)) .| get_field1 insn 2 6 8.
Definition c_imm_lwsp (insn rs2 : Z) : Z :=
  get_field1 insn 12 5 5 .| (rs2 .& (7 << 2)) .| get_field1 insn 2 6 7.
Definition c_imm_sdsp (insn : Z) : Z := get_field1 insn 10 3 5 .| get_field1 insn 7 6 8.
Definition c_imm_swsp (insn : Z) : Z := get_field1 insn 9 2 5 .| get_field1 insn 7 6 7.

Section Insn.
Context {D : Type} {dv : Devices D}.
Abbreviation X := (M (D := D) exit).

(** ** Registers *)

Definition read_reg (x : Z) : X Z :=
  m <- getm ;;
  (if stf_in_traceable_region m
   then mods (fun s => s <| stf_read_regs ::= fun l => l ++ [x] |>) else ret tt) ;;;
  gets (fun s => aget 0 (reg s) x).

Definition write_reg (x v : Z) : X unit :=
  m <- getm ;;
  (if stf_in_traceable_region m
   then mods (fun s => s <| stf_write_regs ::= fun l => l ++ [x] |>) else ret tt) ;;;
  mods (fun s => s <| most_recently_written_reg := x |>
                   <| reg_prior ::= fun p => aset p x (aget 0 (reg s) x) |>
                   <| reg ::= fun r => aset r x (u64 v) |>).

(** [if (rd != 0) write_reg(rd, v)]. *)
Definition write_rd (rd v : Z) : X unit := if nz rd then write_reg rd v else ret tt.

Definition read_fp_reg (x : Z) : X Z :=
  m <- getm ;;
  (if stf_in_traceable_region m
   then mods (fun s => s <| stf_read_fp_regs ::= fun l => l ++ [x] |>) else ret tt) ;;;
  gets (fun s => aget 0 (fp_reg s) x).

Definition write_fp_reg (x v : Z) : X unit :=
  m <- getm ;;
  (if stf_in_traceable_region m
   then mods (fun s => s <| stf_write_fp_regs ::= fun l => l ++ [x] |>) else ret tt) ;;;
  mods (fun s => s <| most_recently_written_fp_reg := x |>
                   <| fp_reg ::= fun r => aset r x (u64 v) |> <| fs := 3 |>).

Definition load (addr n : Z) : X Z := catch (target_read addr n) (fun _ => E_exception).
Definition store (addr v n : Z) : X unit :=
  catch (target_write addr (trunc (bits n) v) n) (fun _ => E_exception).

Definition illegal {A} : X A := throw E_illegal.

(** A helper whose host code has undefined behaviour on some inputs. *)
Definition defined {A} (o : option A) : X A :=
  match o with Some v => ret v | None => throw E_undefined end.

Definition raise (cause tval : Z) : X next :=
  mods (fun s => s <| pending_exception := cause |> <| pending_tval := tval |>) ;;;
  throw E_exception.

(** [if (s->fs == 0) ILLEGAL_INSTR]. *)
Definition need_fs : X unit := f <- gets fs ;; if f =? 0 then illegal else ret tt.

Definition jump_insn (kind : RISCVCTFInfo) : X next :=
  mods (fun s => s <| info := kind |> <| next_addr := pc s |>) ;;; ret JumpInsn.

Definition set_pc (v : Z) : X unit := mods (fun s => s <| pc := u64 v |>).
End Insn.
