(* ===== verification/Fp.v ===== *)
(** * Floating-point instructions ([include/dromajo_fp_template.h],
    [include/dromajo_template.h])

    The instructions of opcode 0x53, a template that is included for single and for
    double precision, and the fused multiply-adds.  FLEN is 64: a single is held
    NaN-boxed, with ones in the upper half of the register. *)

From S2P Require Import Prelude Iomem Cpu Pmp Csr Trap Machine Mmu Softfp Insn.

(** -1 for an invalid rounding mode. *)
Definition get_insn_rm (s : RISCVCPUState) (rm : Z) : Z :=
  let rm := if rm =? 7 then frm s else rm in if 5 <=? rm then -1 else rm.

Definition f_qnan32 : Z := 0x7fc00000.

Definition f_unbox32 (r : Z) : Z := if negb ((r .& F32_HIGH) =? F32_HIGH) then f_qnan32 else r.
Definition f_unbox64 (r : Z) : Z := r.

(** The operand of the single fused multiply-adds. *)
Definition chkfp32 (a : Z) : Z :=
  if negb ((a .& 0xFFFFFFFF00000000) =? 0xFFFFFFFF00000000) then u32 ((2 ^ 32 - 1) << 22) else u32 a.

(** [1 << 31] is a negative [int], which is extended to 64 bits. *)
Definition FSIGN_MASK32 : Z := u64 (i32 (1 << 31)).
Definition FSIGN_MASK64 : Z := 1 << 63.

Section Fp.
Context {D : Type} {dv : Devices D}.
Abbreviation X := (M (D := D) exit).

(** [rm = get_insn_rm(s, rm); if (rm < 0) goto illegal_insn]. *)
Definition insn_rm (rm : Z) : X Z :=
  rm <- gets (fun s => get_insn_rm s rm) ;; if rm <? 0 then illegal else ret rm.

(** A call of the soft-float library with [&s->fflags]. *)
Definition softfp {A} (f : Z -> A * Z) : X A :=
  fl <- gets fflags ;;
  let '(r, fl) := f fl in
  mods (fun s => s <| fflags := fl |>) ;;; ret r.

Definition set_fs : X unit := mods (fun s => s <| fs := 3 |>).

(** ** The template, for [F_SIZE] 32 and 64 *)

Section Template.
Context {fmt : Format}.

Definition F_HIGH : Z := if F_SIZE =? 32 then F32_HIGH else F64_HIGH.
Definition unbox (r : Z) : Z := if F_SIZE =? 32 then f_unbox32 r else f_unbox64 r.
Definition FSIGN_MASK : Z := if F_SIZE =? 32 then FSIGN_MASK32 else FSIGN_MASK64.

(** [unbox(read_fp_reg(r))]. *)
Definition read_unboxed (r : Z) : X Z := v <- read_fp_reg r ;; ret (unbox v).

Definition write_boxed (rd v : Z) : X unit := write_fp_reg rd (v .| F_HIGH).

(** [fadd], [fsub], [fmul] and [fdiv]. *)
Definition fp_arith (op : Z -> Z -> Z -> Z -> Z * Z) (rd rs1 rs2 rm : Z) : X unit :=
  rm <- insn_rm rm ;;
  a <- read_unboxed rs1 ;; b <- read_unboxed rs2 ;;
  r <- softfp (op (F_UINT a) (F_UINT b) rm) ;;
  write_boxed rd r ;;; set_fs.

Definition fp_sqrt (rd rs1 rs2 rm : Z) : X unit :=
  rm <- insn_rm rm ;;
  if nz rs2 then illegal
  else
    a <- read_unboxed rs1 ;; fl <- gets fflags ;;
    let_ '(r, fl) <- defined (sqrt_sf (F_UINT a) rm fl) ;;
    mods (fun s => s <| fflags := fl |>) ;;;
    write_boxed rd r ;;; set_fs.

Definition fp_sgnj (rd rs1 rs2 rm : Z) : X unit :=
  (if rm =? 0 then
     a <- read_unboxed rs1 ;; b <- read_unboxed rs2 ;;
     write_boxed rd ((a .&~ FSIGN_MASK) .| (b .& FSIGN_MASK))
   else if rm =? 1 then
     a <- read_unboxed rs1 ;; b <- read_unboxed rs2 ;;
     write_boxed rd ((a .&~ FSIGN_MASK) .| ((b .& FSIGN_MASK) .^ FSIGN_MASK))
   else if rm =? 2 then
     a <- read_unboxed rs1 ;; b <- read_unboxed rs2 ;;
     write_boxed rd (a .^ (b .& FSIGN_MASK))
   else illegal) ;;;
  set_fs.

Definition fp_minmax (rd rs1 rs2 rm : Z) : X unit :=
  (if (rm =? 0) || (rm =? 1) then
     a <- read_unboxed rs1 ;; b <- read_unboxed rs2 ;;
     r <- softfp ((if rm =? 0 then min_sf else max_sf) (F_UINT a) (F_UINT b)) ;;
     write_boxed rd r
   else illegal) ;;;
  set_fs.

(** [fcvt.w], [fcvt.wu], [fcvt.l] and [fcvt.lu]. *)
Definition fp_to_int (rd rs1 rs2 rm : Z) : X unit :=
  rm <- insn_rm rm ;;
  v <- (if rs2 =? 0 then a <- read_unboxed rs1 ;; softfp (cvt_sf_i 32 (F_UINT a) rm)
        else if rs2 =? 1 then a <- read_unboxed rs1 ;; v <- softfp (cvt_sf_u 32 (F_UINT a) rm) ;; ret (i32 v)
        else if rs2 =? 2 then a <- read_unboxed rs1 ;; softfp (cvt_sf_i 64 (F_UINT a) rm)
        else if rs2 =? 3 then a <- read_unboxed rs1 ;; v <- softfp (cvt_sf_u 64 (F_UINT a) rm) ;; ret (i64 v)
        else illegal) ;;
  write_rd rd v ;;; set_fs.

Definition fp_compare (rd rs1 rs2 rm : Z) : X unit :=
  v <- (if rm =? 0 then a <- read_unboxed rs1 ;; b <- read_unboxed rs2 ;; softfp (le_sf (F_UINT a) (F_UINT b))
        else if rm =? 1 then a <- read_unboxed rs1 ;; b <- read_unboxed rs2 ;; softfp (lt_sf (F_UINT a) (F_UINT b))
        else if rm =? 2 then a <- read_unboxed rs1 ;; b <- read_unboxed rs2 ;; softfp (eq_quiet_sf (F_UINT a) (F_UINT b))
        else illegal) ;;
  write_rd rd (b2z v) ;;; set_fs.

(** [fcvt.s.w] and the like. *)
Definition fp_from_int (rd rs1 rs2 rm : Z) : X unit :=
  rm <- insn_rm rm ;;
  (if rs2 =? 0 then a <- read_reg rs1 ;; r <- softfp (cvt_i_sf 32 a rm) ;; write_boxed rd r
   else if rs2 =? 1 then a <- read_reg rs1 ;; r <- softfp (cvt_u_sf 32 a rm) ;; write_boxed rd r
   else if rs2 =? 2 then a <- read_reg rs1 ;; r <- softfp (cvt_i_sf 64 a rm) ;; write_boxed rd r
   else if rs2 =? 3 then a <- read_reg rs1 ;; r <- softfp (cvt_u_sf 64 a rm) ;; write_boxed rd r
   else illegal) ;;;
  set_fs.

(** [fcvt.s.d] for [F_SIZE] 32 and [fcvt.d.s] for 64. *)
Definition fp_convert (rd rs1 rs2 rm : Z) : X unit :=
  rm <- insn_rm rm ;;
  (if (F_SIZE =? 32) && (rs2 =? 1) then
     a <- read_fp_reg rs1 ;; r <- softfp (cvt_sf64_sf32 a rm) ;; write_fp_reg rd (r .| F32_HIGH)
   else if (F_SIZE =? 64) && (rs2 =? 0) then
     v <- read_fp_reg rs1 ;;
     let v := if negb ((v .& F32_HIGH) =? F32_HIGH) then f_qnan32 else v in
     r <- softfp (cvt_sf32_sf64 (u32 v)) ;; write_fp_reg rd (r .| F64_HIGH)
   else illegal) ;;;
  set_fs.

(** [fmv.x.w], [fmv.x.d] and [fclass]: they leave [fs] alone. *)
Definition fp_move_x (rd rs1 rs2 rm : Z) : X unit :=
  if nz rs2 then illegal
  else
    v <- (if rm =? 0 then a <- read_fp_reg rs1 ;; ret (sgn F_SIZE a)
          else if rm =? 1 then a <- read_unboxed rs1 ;; ret (fclass_sf (F_UINT a))
          else illegal) ;;
    write_rd rd v.

(** [fmv.w.x] and [fmv.d.x]. *)
Definition fp_move_f (rd rs1 rs2 rm : Z) : X unit :=
  if nz rs2 || nz rm then illegal
  else a <- read_reg rs1 ;; write_boxed rd (u64 (sgn F_SIZE a)) ;;; set_fs.

(** The cases of the template, by the upper five bits of [imm]. *)
Definition fp_template (op rd rs1 rs2 rm : Z) : X unit :=
  if op =? 0x00 then fp_arith add_sf rd rs1 rs2 rm
  else if op =? 0x01 then fp_arith sub_sf rd rs1 rs2 rm
  else if op =? 0x02 then fp_arith mul_sf rd rs1 rs2 rm
  else if op =? 0x03 then fp_arith div_sf rd rs1 rs2 rm
  else if op =? 0x0b then fp_sqrt rd rs1 rs2 rm
  else if op =? 0x04 then fp_sgnj rd rs1 rs2 rm
  else if op =? 0x05 then fp_minmax rd rs1 rs2 rm
  else if op =? 0x18 then fp_to_int rd rs1 rs2 rm
  else if op =? 0x14 then fp_compare rd rs1 rs2 rm
  else if op =? 0x1a then fp_from_int rd rs1 rs2 rm
  else if op =? 0x08 then fp_convert rd rs1 rs2 rm
  else if op =? 0x1c then fp_move_x rd rs1 rs2 rm
  else if op =? 0x1e then fp_move_f rd rs1 rs2 rm
  else illegal.
End Template.

(** ** Fused multiply-add *)

(** [fma_sf32] and [fma_sf64] with the product and the addend negated or not. *)
Definition fp_fma (neg_product neg_addend : bool) (insn : Z) : X next :=
  need_fs ;;;
  let funct3 := (insn >> 25) .& 3 in
  let rs3 := insn >> 27 in
  rm <- insn_rm ((insn >> 12) .& 7) ;;
  let flip (b : bool) mask v := if b then v .^ mask else v in
  (if funct3 =? 0 then
     a <- read_fp_reg (rs1_of insn) ;; b <- read_fp_reg (rs2_of insn) ;; c <- read_fp_reg rs3 ;;
     r <- softfp (fma_sf (fmt := sf32) (flip neg_product (u32 FSIGN_MASK32) (chkfp32 a)) (chkfp32 b)
                    (flip neg_addend (u32 FSIGN_MASK32) (chkfp32 c)) rm) ;;
     write_fp_reg (rd_of insn) (r .| F32_HIGH)
   else if funct3 =? 1 then
     a <- read_fp_reg (rs1_of insn) ;; b <- read_fp_reg (rs2_of insn) ;; c <- read_fp_reg rs3 ;;
     r <- softfp (fma_sf (fmt := sf64) (flip neg_product FSIGN_MASK64 a) b (flip neg_addend FSIGN_MASK64 c) rm) ;;
     write_fp_reg (rd_of insn) (r .| F64_HIGH)
   else illegal) ;;;
  ret NextInsn.

Definition exec_fmadd : Z -> X next := fp_fma false false.
Definition exec_fmsub : Z -> X next := fp_fma false true.
Definition exec_fnmsub : Z -> X next := fp_fma true false.
Definition exec_fnmadd : Z -> X next := fp_fma true true.

(** ** Opcode 0x53, dispatch *)

Definition exec_op_fp (insn : Z) : X next :=
  need_fs ;;;
  let imm := insn >> 25 in
  let rm := (insn >> 12) .& 7 in
  (if (imm .& 3) =? 0 then fp_template (fmt := sf32) (imm >> 2) (rd_of insn) (rs1_of insn) (rs2_of insn) rm
   else if (imm .& 3) =? 1 then fp_template (fmt := sf64) (imm >> 2) (rd_of insn) (rs1_of insn) (rs2_of insn) rm
   else illegal) ;;;
  ret NextInsn.

Definition exec_fp (insn : Z) : X next :=
  let opcode := op_of insn in
  if opcode =? 0x43 then exec_fmadd insn
  else if opcode =? 0x47 then exec_fmsub insn
  else if opcode =? 0x4b then exec_fnmsub insn
  else if opcode =? 0x4f then exec_fnmadd insn
  else exec_op_fp insn.
End Fp.
