(* ===== verification/Vector.v ===== *)
(** * Vector instructions ([include/vector_template.h], [src/riscv_cpu.cpp],
    [include/dromajo_template.h])

    [VLEN] is 128 and MASK_AGNOSTIC_FILL is off, as in the default build.  The code
    addresses the vector registers by byte pointers into [s->v_reg]; here a pointer
    is an offset into its 512 bytes, and an access outside them is undefined
    behaviour of the host code ([E_undefined]). *)

From S2P Require Import Prelude Iomem Cpu Pmp Csr Trap Machine Mmu Insn.

Definition VILL : Z := 1 << 63.
Definition SEW_SHIFT : Z := 3.
Definition SEW_MASK : Z := 7.
Definition LMUL_MASK : Z := 7.
Definition LMUL_BOUNDARY : Z := 1 << 2.

Inductive width_config := SINGLE_WIDTH | WIDEN_VD_VS2 | WIDEN_VD | WIDEN_VS2.

Definition IS_PO2 (n : Z) : bool := nz n && ((n .& (n - 1)) =? 0).

(** In eighths; [None]: the shift by -1 of the reserved encoding 4. *)
Definition get_lmul (s : RISCVCPUState) : option Z :=
  let lmul := vtype s .& LMUL_MASK in
  if has lmul LMUL_BOUNDARY then
    if lmul =? LMUL_BOUNDARY then None else Some (1 << (lmul - LMUL_BOUNDARY - 1))
  else Some (1 << (lmul + 3)).

Definition get_sew (s : RISCVCPUState) : Z := 1 << (((vtype s >> SEW_SHIFT) .& SEW_MASK) + 3).

Definition get_vlmax (s : RISCVCPUState) : Z :=
  let vlmul := vtype s .& LMUL_MASK in
  if has vlmul LMUL_BOUNDARY then VLEN / get_sew s / (16 >> (vlmul - LMUL_BOUNDARY))
  else (1 << vlmul) * VLEN / get_sew s.

(** ** The bytes of the vector registers *)

Definition VREG_BYTES : Z := VLEN / 8.

Definition v_byte (s : RISCVCPUState) (off : Z) : Z :=
  aget 0 (aget [] (v_reg s) (off / VREG_BYTES)) (off mod VREG_BYTES).

Definition v_set_byte (off v : Z) (s : RISCVCPUState) : RISCVCPUState :=
  s <| v_reg ::= fun r =>
       let i := off / VREG_BYTES in aset r i (aset (aget [] r i) (off mod VREG_BYTES) (u8 v)) |>.

(** [n] bytes at an offset, little endian. *)
Fixpoint v_get (n : nat) (s : RISCVCPUState) (off : Z) : Z :=
  match n with
  | O => 0
  | S n => v_byte s off + (v_get n s (off + 1) << 8)
  end.

Fixpoint v_set (n : nat) (off v : Z) (s : RISCVCPUState) : RISCVCPUState :=
  match n with
  | O => s
  | S n => v_set n (off + 1) (v >> 8) (v_set_byte off v s)
  end.

(** [&s->v_reg[reg][elm]]. *)
Definition v_ptr (reg elm : Z) : Z := reg * VREG_BYTES + elm.

Definition v_valid (off n : Z) : bool := (0 <=? off) && (off + n <=? 32 * VREG_BYTES).

(** The bytes of an element of [w] bits. *)
Definition v_bytes (w : Z) : nat := Z.to_nat (w / 8).

(** ** Element operations *)

(** An operation on elements: the widths of the destination and the operands, and the
    function on the unsigned operands; [None] where a signed sum overflows. *)
Record vop := mkVop { vd_w : Z; vs2_w : Z; val_w : Z; v_fun : Z -> Z -> option Z }.

Definition is_eew (eew : Z) : bool := (eew =? 8) || (eew =? 16) || (eew =? 32) || (eew =? 64).
Definition is_widen_eew (eew : Z) : bool := (eew =? 8) || (eew =? 16) || (eew =? 32).

Definition no_overflow (w r : Z) : option Z := if (- 2 ^ (w - 1) <=? r) && (r <? 2 ^ (w - 1)) then Some r else None.

Definition v_add_config (eew : Z) : option vop :=
  if is_eew eew then Some (mkVop eew eew eew (fun vs2 val => Some (vs2 + val))) else None.

(** The sum of two [uint32_t] is a [uint32_t]; smaller operands are promoted to [int]. *)
Definition vw_addu_config (eew : Z) : option vop :=
  if is_widen_eew eew
  then Some (mkVop (2 * eew) eew eew (fun vs2 val => Some (if eew =? 32 then u32 (vs2 + val) else vs2 + val)))
  else None.

Definition vw_adduw_config (eew : Z) : option vop :=
  if is_widen_eew eew then Some (mkVop (2 * eew) (2 * eew) eew (fun vs2 val => Some (vs2 + val))) else None.

(** Signed sums are computed in [int], or in [int64_t] when the wider operand is one. *)
Definition vw_add_config (eew : Z) : option vop :=
  if is_widen_eew eew
  then Some (mkVop (2 * eew) eew eew (fun vs2 val => no_overflow 32 (sgn eew vs2 + sgn eew val)))
  else None.

Definition vw_addw_config (eew : Z) : option vop :=
  if is_widen_eew eew
  then Some (mkVop (2 * eew) (2 * eew) eew
               (fun vs2 val => no_overflow (Z.max 32 (2 * eew)) (sgn (2 * eew) vs2 + sgn eew val)))
  else None.

(** What [vs1_ptr] points to: the argument [vs1], or an element. *)
Inductive vptr := PVal (v : Z) | PReg (off : Z).

(** The local variables of [vmem_op] that its cases set; [vm_index] is [index_vstart]
    and [index_vec_size] of an indexed access. *)
Record vmem := mkVmem {
  vm_eew : Z; vm_emul : Z; vm_nf : Z; vm_vl : Z; vm_byte_advance : Z; vm_vec_size : Z;
  vm_mem_advance : Z; vm_fault_first : bool; vm_index : option (Z * Z)
}.

Definition vmem_width (insn : Z) : option Z :=
  let width := (insn >> 12) .& 7 in
  if width =? 7 then Some 64
  else if width =? 6 then Some 32
  else if width =? 5 then Some 16
  else if width =? 0 then Some 8
  else None.

(** The test on [emul], [nf] and a register group that makes an access illegal. *)
Definition vmem_bad (emul nf r : Z) : bool :=
  (emul =? 0) || (64 <? emul) || (64 <? emul * nf)
  || (32 <? r + nf * emul / 8) || (32 <? r + nf)
  || ((8 <=? emul) && nz ((r * 8) mod emul)).

(** [emul < 8 ? 1 : emul / 8]. *)
Definition whole_regs (emul : Z) : Z := if emul <? 8 then 1 else emul / 8.

Section Vector.
Context {D : Type} {dv : Devices D}.
Abbreviation X := (M (D := D) exit).

Definition v_read (w off : Z) : X Z :=
  if v_valid off (w / 8) then gets (fun s => v_get (v_bytes w) s off) else throw E_undefined.

Definition v_write (w off v : Z) : X unit :=
  if v_valid off (w / 8) then mods (v_set (v_bytes w) off v) else throw E_undefined.

Definition v_read_ptr (w : Z) (p : vptr) : X Z :=
  match p with PVal v => ret (trunc w v) | PReg off => v_read w off end.

Definition v_apply (op : vop) (vd vs2 : Z) (vs1 : vptr) : X unit :=
  val <- v_read_ptr (val_w op) vs1 ;; a <- v_read (vs2_w op) vs2 ;;
  r <- defined (v_fun op a val) ;;
  v_write (vd_w op) vd r.

(** Whether bit [vstart] of the mask register is set. *)
Definition v0_mask : X bool :=
  i <- gets vstart ;; b <- v_read 8 (i / 8) ;; ret (has (b >> (i mod 8)) 1).

Definition vstart_next : X unit := mods (fun s => s <| vstart ::= fun v => u16 (v + 1) |>).

Definition mark_vreg (i : Z) : X unit :=
  if (0 <=? i) && (i <? 32)
  then mods (fun s => s <| most_recently_written_vregs ::= fun l => aset l i true |>)
  else throw E_undefined.

(** [for (i = ...; ...; i += step)] with [n] iterations, local variables [a], and an early
    [return]. *)
Fixpoint for_ {A R} (n : nat) (i step : Z) (a : A) (body : Z -> A -> X (A + R)) : X (A + R) :=
  match n with
  | O => ret (inl a)
  | S n => r <- body i a ;; match r with inl a => for_ n (i + step) step a body | inr c => ret (inr c) end
  end.

(** The number of iterations of [for (j = start; j < stop; j += step)]. *)
Definition iterations (start stop step : Z) : nat := Z.to_nat ((stop - start + step - 1) / step).

(** A computation whose early exit is a value. *)
Definition attempt {E A} (x : M (D := D) E A) : X (option A) := fun m =>
  match x m with
  | (inl _, m') => (inr None, m')
  | (inr a, m') => (inr (Some a), m')
  end.

(** The [n] of the memory accesses of [w] bits. *)
Definition size_of (w : Z) : Z := Z.log2 (w / 8).

(** [v_load_e*] and [v_store_e*] on the element at [off]: true on an exception. *)
Definition v_load (w addr off : Z) : X bool :=
  r <- attempt (target_read addr (size_of w)) ;;
  match r with None => ret true | Some v => v_write w off v ;;; ret false end.

Definition v_store (w addr off : Z) : X bool :=
  v <- v_read w off ;; r <- attempt (target_write addr v (size_of w)) ;;
  match r with None => ret true | Some _ => ret false end.

(** ** Loads and stores *)

(** The [switch] on [mop]; [None]: return 1. *)
Definition vmem_setup (insn eew : Z) (ld : bool) : X (option vmem) :=
  s <- gets (fun s => s) ;;
  let emul := 8 * get_vlmax s * eew / VLEN in
  let width := (insn >> 12) .& 7 in
  let rd := rd_of insn in
  let rs2 := rs2_of insn in
  let vm := has (insn >> 25) 1 in
  let mop := (insn >> 26) .& 3 in
  let nf := ((insn >> 29) .& 7) + 1 in
  let vl := i32 (vl s) in
  let byte_advance := eew / 8 in
  let vec_size := VLEN / eew in
  if (nz mop || negb (rs2 =? 8)) && (vtype s =? VILL) then ret None
  else if mop =? 0 then
    let mem_advance := eew / 8 in
    if rs2 =? 0 then ret (Some (mkVmem eew emul nf vl byte_advance vec_size mem_advance false None))
    else if rs2 =? 8 then (* whole registers *)
      if (negb ld && nz width) || negb vm || negb (IS_PO2 nf) then ret None
      else ret (Some (mkVmem eew (nf * 8) 1 vl byte_advance vec_size mem_advance false None))
    else if rs2 =? 11 then (* mask *)
      let vl := if vl <? 8 then 1 else vl / 8 in
      ret (Some (mkVmem 8 8 nf vl byte_advance vec_size mem_advance false None))
    else if rs2 =? 16 then (* fault only first *)
      if negb ld then ret None
      else ret (Some (mkVmem eew emul nf vl byte_advance vec_size mem_advance true None))
    else ret None
  else if mop =? 2 then (* constant stride *)
    a <- read_reg rs2 ;;
    ret (Some (mkVmem eew emul nf vl byte_advance vec_size (i32 a) false None))
  else (* indexed *)
    if vmem_bad emul nf rs2 then ret None
    else
      lmul <- defined (get_lmul s) ;;
      let vs2_emul := whole_regs emul in
      let emul := whole_regs lmul in
      let last := rd + (nf - 1) * emul in
      let vs2_last := rs2 + (nf - 1) * vs2_emul in
      if ld && (1 <? nf) && (((rs2 <=? rd) && (rd <=? vs2_last)) || ((rs2 <=? last) && (last <=? vs2_last)))
      then ret None
      else
        ret (Some (mkVmem eew lmul nf vl (get_sew s / 8) (VLEN / get_sew s) 0 false
                     (Some (rs2 * VLEN / eew + vstart s, VLEN / eew)))).

(** A call of [v_op] for the element at [off]; the function pointer is [NULL] for a width
    that is not an element width. *)
Definition vmem_access (ld : bool) (w addr off : Z) : X bool :=
  if is_eew w then (if ld then v_load w addr off else v_store w addr off) else throw E_undefined.

Definition vmem_active (insn : Z) : X bool := if has (insn >> 25) 1 then ret true else v0_mask.

(** The [k] loop for one segment: [addr] on, or the value to return. *)
Definition vmem_segment (insn : Z) (ld : bool) (c : vmem) (w i j addr index : Z) : X (Z + Z) :=
  let rd := rd_of insn in
  let scaled_emul := whole_regs (vm_emul c) in
  for_ (Z.to_nat (vm_nf c)) 0 1 addr (fun k addr =>
    match vm_index c with
    | Some (_, index_vec_size) =>
        active <- vmem_active insn ;;
        if active : bool then
          x <- v_read (vm_eew c) (v_ptr (index / index_vec_size) (index mod index_vec_size * (vm_eew c / 8))) ;;
          fault <- vmem_access ld w (u64 (addr + x + k * vm_byte_advance c)) (v_ptr (rd + i + k * scaled_emul) j) ;;
          ret (if fault : bool then inr 2 else inl addr)
        else ret (inl addr)
    | None =>
        active <- vmem_active insn ;;
        fault <- (if active : bool then vmem_access ld w addr (v_ptr (rd + i + k * (vm_nf c - 1)) j) else ret false) ;;
        if fault : bool then
          if vm_fault_first c then
            mods (fun s => s <| vl := vstart s |> <| pending_tval := 0 |> <| pending_exception := -1 |> <| vstart := 0 |>) ;;;
            ret (inr 0)
          else ret (inr 2)
        else ret (inl (u64 (addr + vm_mem_advance c)))
    end).

(** The [j] loop over the elements of register [i] of the group. *)
Definition vmem_register (insn : Z) (ld : bool) (c : vmem) (w vec_size i index : Z) : X (Z + Z) :=
  vs <- gets vstart ;;
  let elm_start := vs - vec_size * i in
  if elm_start <? vec_size then
    a <- read_reg (rs1_of insn) ;;
    addr <- match vm_index c with
            | Some _ => ret a
            | None =>
                off <- defined (no_overflow 32 (elm_start * vm_mem_advance c)) ;;
                off <- defined (no_overflow 32 (off + vm_nf c * i * VLEN / 8)) ;; ret (u64 (a + off))
            end ;;
    let step := vm_byte_advance c in
    let start := elm_start * step in
    r <- for_ (iterations start (vec_size * step) step) start step (addr, index) (fun j '(addr, index) =>
           r <- vmem_segment insn ld c w i j addr index ;;
           match r with
           | inl addr => vstart_next ;;; ret (inl (addr, index + 1))
           | inr code => ret (inr code)
           end) ;;
    ret (match r with inl (_, index) => inl index | inr code => inr code end)
  else ret (inl index).

(** 0, 1 for an illegal instruction, 2 for another exception. *)
Definition vmem_op (insn : Z) (ld : bool) : X Z :=
  match vmem_width insn with
  | None => ret 1
  | Some eew =>
      c <- vmem_setup insn eew ld ;;
      match c with
      | None => ret 1
      | Some c =>
          let rd := rd_of insn in
          if vmem_bad (vm_emul c) (vm_nf c) rd then ret 1
          else
            sew <- gets get_sew ;;
            let w := match vm_index c with Some _ => sew | None => vm_eew c end in
            vs <- gets vstart ;;
            first <- (if vm_fault_first c && (vs =? 0) then
                        a <- read_reg (rs1_of insn) ;; r <- attempt (target_read a (size_of w)) ;;
                        match r with
                        | None => ret true
                        | Some _ => if w =? 8 then ret false else throw E_undefined (* [dummy] is one byte *)
                        end
                      else ret false) ;;
            if first : bool then ret 2
            else
              let scaled_emul := whole_regs (vm_emul c) in
              (if ld then
                 for_ (R := Z) (Z.to_nat scaled_emul) 0 1 tt (fun i _ =>
                   for_ (Z.to_nat (vm_nf c)) 1 1 tt (fun j _ => mark_vreg (rd + i + scaled_emul * (j - 1)) ;;; ret (inl tt)))
               else ret (inl tt)) ;;;
              let vec_size := Z.min (vm_vec_size c) (vm_vl c) in
              let index := match vm_index c with Some (index_vstart, _) => index_vstart | None => 0 end in
              r <- for_ (Z.to_nat scaled_emul) 0 1 index (fun i index => vmem_register insn ld c w vec_size i index) ;;
              match r with
              | inr code => ret code
              | inl _ => mods (fun s => s <| vstart := 0 |>) ;;; ret 0
              end
      end
  end.

(** Vector loads (opcode 0x07) and stores (0x27). *)
Definition exec_vmem (insn : Z) (ld : bool) : X next :=
  v <- gets vs ;;
  if v =? 0 then illegal
  else
    r <- vmem_op insn ld ;;
    if r =? 2 then throw E_exception
    else if r =? 1 then mods (fun s => s <| vtype := VILL |>) ;;; illegal
    else ret NextInsn.

(** ** Arithmetic *)

(** The registers of the group relative to [vd], with the element width of [vd]; [None]: a
    misaligned register. *)
Definition v_group (wc : width_config) (vv : bool) (vd vs2 vs1 lmul sew : Z) : option (Z * Z) :=
  let lmul_scaled := lmul / 8 in
  if lmul_scaled =? 0 then Some (1, sew)
  else if vv && nz (vs1 mod lmul_scaled) then None
  else
    match wc with
    | SINGLE_WIDTH => if nz (vd mod lmul_scaled) || nz (vs2 mod lmul_scaled) then None else Some (lmul_scaled, sew)
    | WIDEN_VS2 => if nz (vs2 mod (lmul_scaled * 2)) then None else Some (lmul_scaled, sew)
    | WIDEN_VD_VS2 =>
        if nz (vs2 mod (lmul_scaled * 2)) || nz (vd mod (lmul_scaled * 2)) then None
        else Some (lmul_scaled << 1, sew << 1)
    | WIDEN_VD => if nz (vd mod (lmul_scaled * 2)) then None else Some (lmul_scaled << 1, sew << 1)
    end.

(** [vs1_mod], [vs1_elm_mod], [vs2_mod] and [vs2_elm_mod]. *)
Definition v_mods (wc : width_config) (i j : Z) : Z * Z * Z * Z :=
  let m := - (i / 2 + i mod 2) in
  let e := if nz (i mod 2) then (VREG_BYTES >> 1) - (j >> 1) else Z.quot (- j) 2 in
  match wc with
  | SINGLE_WIDTH => (0, 0, 0, 0)
  | WIDEN_VD_VS2 => (m, e, 0, 0)
  | WIDEN_VD => (m, e, m, e)
  | WIDEN_VS2 => (0, 0, 2 * j / VREG_BYTES, j)
  end.

(** One element of register [i] of the group. *)
Definition v_element (op : vop) (wc : width_config) (vv vm : bool) (vd vs2 vs1 i j : Z) : X unit :=
  let '(vs1_mod, vs1_elm_mod, vs2_mod, vs2_elm_mod) := v_mods wc i j in
  let vs1_ptr := if vv then PReg (v_ptr (vs1 + i + vs1_mod) (j + vs1_elm_mod)) else PVal vs1 in
  let vs2_ptr := v_ptr (vs2 + i + vs2_mod) (j + vs2_elm_mod) in
  active <- (if vm then ret true else v0_mask) ;;
  (if active : bool then v_apply op (v_ptr (vd + i) j) vs2_ptr vs1_ptr else ret tt) ;;;
  vstart_next.

Definition v_register (op : vop) (wc : width_config) (vv vm : bool) (vd vs2 vs1 sew i : Z) : X unit :=
  let byte_advance := sew / 8 in
  let vec_size := VLEN / sew in
  vs <- gets vstart ;;
  let elm_start := vs - vec_size * i in
  if elm_start <? vec_size then
    mark_vreg (vd + i) ;;;
    let start := elm_start * byte_advance in
    for_ (R := Empty_set) (iterations start (VLEN / 8) byte_advance) start byte_advance tt (fun j _ =>
      v_element op wc vv vm vd vs2 vs1 i j ;;; ret (inl tt)) ;;;
    ret tt
  else ret tt.

(** True if the instruction is illegal. *)
Definition vectorize_arithmetic (vs2 vd vs1 : Z) (wc : width_config) (vv vm : bool) (config : Z -> option vop) : X bool :=
  s <- gets (fun s => s) ;;
  if vtype s =? VILL then ret true
  else
    match config (get_sew s) with
    | None => ret true
    | Some op =>
        lmul <- defined (get_lmul s) ;;
        match v_group wc vv vd vs2 vs1 lmul (get_sew s) with
        | None => ret true
        | Some (n, sew) =>
            for_ (R := Empty_set) (Z.to_nat n) 0 1 tt (fun i _ => v_register op wc vv vm vd vs2 vs1 sew i ;;; ret (inl tt)) ;;;
            mods (fun s => s <| vstart := 0 |>) ;;; ret false
        end
    end.

(** [vsetvli], [vsetvl] and [vsetivli]. *)
Definition exec_vset (insn : Z) : X unit :=
  let rd := rd_of insn in
  let rs1 := rs1_of insn in
  let vset := (insn >> 30) .& 3 in
  old_vl <- gets vl ;;
  let pick_avl : X Z :=
    if nz rs1 then read_reg rs1 else if nz rd then ret (2 ^ 64 - 1) else ret old_vl in
  avl <- (if vset =? 3 then
            mods (fun s => s <| vtype := (insn >> 20) .& 0x3ff |>) ;;; ret ((insn >> 15) .& 0x1f)
          else if vset =? 2 then
            let rs2 := rs2_of insn in
            if nz rs2 then
              v <- read_reg rs2 ;;
              if (0xff <? v) || has v 0x20 || has v 0x4 then mods (fun s => s <| vtype := VILL |>) ;;; ret 0
              else mods (fun s => s <| vtype := v |>) ;;; pick_avl
            else pick_avl
          else mods (fun s => s <| vtype := (insn >> 20) .& 0x7ff |>) ;;; pick_avl) ;;
  s <- gets (fun s => s) ;;
  lmul <- defined (get_lmul s) ;;
  (if VLEN * lmul / 8 <=? get_sew s then mods (fun s => s <| vtype := VILL |> <| vl := 0 |>)
   else if avl <=? get_vlmax s then mods (fun s => s <| vl := avl |>)
   else mods (fun s => s <| vl := get_vlmax s |>)) ;;;
  v <- gets vl ;; write_rd rd v.

(** Opcode 0x57; other values of [funct3] do nothing. *)
Definition exec_v_arith (insn : Z) : X next :=
  v <- gets vs ;;
  if v =? 0 then illegal
  else
    mods (fun s => s <| vs := 3 |>) ;;;
    let vm := has (insn >> 25) 1 in
    let funct3 := (insn >> 12) .& 7 in
    let funct6 := (insn >> 26) .& 0x3f in
    let rd := rd_of insn in
    let rs1 := rs1_of insn in
    let rs2 := rs2_of insn in
    let or_illegal (x : X bool) : X unit := bad <- x ;; if bad : bool then illegal else ret tt in
    let widening (vv : bool) (vs1 : X Z) : X unit :=
      if funct6 =? 0x30 then v <- vs1 ;; or_illegal (vectorize_arithmetic rs2 rd v WIDEN_VD vv vm vw_addu_config)
      else if funct6 =? 0x31 then v <- vs1 ;; or_illegal (vectorize_arithmetic rs2 rd v WIDEN_VD vv vm vw_add_config)
      else if funct6 =? 0x34 then v <- vs1 ;; or_illegal (vectorize_arithmetic rs2 rd v WIDEN_VD_VS2 vv vm vw_adduw_config)
      else if funct6 =? 0x35 then v <- vs1 ;; or_illegal (vectorize_arithmetic rs2 rd v WIDEN_VD_VS2 vv vm vw_addw_config)
      else illegal in
    (if funct3 =? 0 then (* OPIVV *)
       if funct6 =? 0 then or_illegal (vectorize_arithmetic rs2 rd rs1 SINGLE_WIDTH true vm v_add_config) else illegal
     else if funct3 =? 2 then widening true (ret rs1) (* OPMVV *)
     else if funct3 =? 3 then (* OPIVI *)
       if funct6 =? 0
       then or_illegal (vectorize_arithmetic rs2 rd (u64 (i32 (rs1 << 27) >> 27)) SINGLE_WIDTH false vm v_add_config)
       else illegal
     else if funct3 =? 4 then (* OPIVX *)
       if funct6 =? 0
       then v <- read_reg rs1 ;; or_illegal (vectorize_arithmetic rs2 rd v SINGLE_WIDTH false vm v_add_config)
       else illegal
     else if funct3 =? 6 then widening false (read_reg rs1) (* OPMVX *)
     else if funct3 =? 7 then exec_vset insn
     else ret tt) ;;;
    ret NextInsn.

Definition exec_vector (insn : Z) : X next :=
  let opcode := op_of insn in
  if opcode =? 0x07 then exec_vmem insn true
  else if opcode =? 0x27 then exec_vmem insn false
  else exec_v_arith insn.
End Vector.
