(* ===== verification/Interp.v ===== *)
(** * The interpreter ([include/dromajo_template.h], lines 344-2215, XLEN 64)

    [exec_insn] executes one decoded instruction word; [interp_loop] is the fetch
    and dispatch loop with its host code pointer, and [riscv_cpu_interp64] the
    entry point.  Floating-point arithmetic and vector instructions are in [Fp.v] and
    [Vector.v].  STF tracing is off
    ([common.stf_trace] is [NULL]). *)

From S2P Require Import Prelude Iomem Cpu Pmp Csr Trap Machine Mmu Alu Insn Fp Vector.

(** How an iteration of the loop leaves it: by an [exit] or by [goto the_end]. *)
Inductive label := Goto (e : exit) | The_end.

(** The local variables of [riscv_cpu_interp64] that live across instructions.
    [code_ptr] and [code_end] are host pointers, 0 is [NULL]. *)
Record interp_locals := mkLocals {
  code_ptr : Z;
  code_end : Z;
  code_to_pc_addend : Z;
  n_cycles : Z;
  insn_counter_addend : Z;
  insn_executed : Z
}.

Definition locals_eta (l : interp_locals) : interp_locals :=
  mkLocals (code_ptr l) (code_end l) (code_to_pc_addend l) (n_cycles l) (insn_counter_addend l)
    (insn_executed l).

#[export] Instance upd_code_ptr : Setter code_ptr := ltac:(setter_of locals_eta).
#[export] Instance upd_code_end : Setter code_end := ltac:(setter_of locals_eta).
#[export] Instance upd_code_to_pc_addend : Setter code_to_pc_addend := ltac:(setter_of locals_eta).
#[export] Instance upd_n_cycles : Setter n_cycles := ltac:(setter_of locals_eta).
#[export] Instance upd_insn_counter_addend : Setter insn_counter_addend :=
  ltac:(setter_of locals_eta).
#[export] Instance upd_insn_executed : Setter insn_executed := ltac:(setter_of locals_eta).

(** Computes projections of updated locals. *)
Ltac locals_simpl :=
  cbn [upd upd_code_ptr upd_code_end upd_code_to_pc_addend upd_n_cycles upd_insn_counter_addend
       upd_insn_executed code_ptr code_end code_to_pc_addend n_cycles insn_counter_addend
       insn_executed].

Definition GET_PC (l : interp_locals) : Z := u64 (code_ptr l + code_to_pc_addend l).
Definition GET_INSN_COUNTER (l : interp_locals) : Z := u64 (insn_counter_addend l - n_cycles l).

Section Interp.
Context {D : Type} {dv : Devices D}.
Abbreviation X := (M (D := D) exit).

(** ** Compressed instructions *)

Definition exec_c0 (insn : Z) : X next :=
  let funct3 := (insn >> 13) .& 7 in
  let rd := ((insn >> 2) .& 7) .| 8 in
  let rs1 := ((insn >> 7) .& 7) .| 8 in
  (if funct3 =? 0 then (* c.addi4spn *)
     let imm := c_imm_addi4spn insn in
     if imm =? 0 then illegal
     else sp <- read_reg 2 ;; write_reg rd (sp + imm)
   else if funct3 =? 1 then (* c.fld *)
     need_fs ;;;
     a <- read_reg rs1 ;; v <- load (u64 (a + c_imm_d insn)) 3 ;;
     write_fp_reg rd (v .| F64_HIGH)
   else if funct3 =? 2 then (* c.lw *)
     a <- read_reg rs1 ;; v <- load (u64 (a + c_imm_w insn)) 2 ;;
     write_reg rd (i32 v)
   else if funct3 =? 3 then (* c.ld *)
     a <- read_reg rs1 ;; v <- load (u64 (a + c_imm_d insn)) 3 ;;
     write_reg rd (i64 v)
   else if funct3 =? 5 then (* c.fsd *)
     need_fs ;;;
     a <- read_reg rs1 ;; v <- read_fp_reg rd ;; store (u64 (a + c_imm_d insn)) v 3
   else if funct3 =? 6 then (* c.sw *)
     a <- read_reg rs1 ;; v <- read_reg rd ;; store (u64 (a + c_imm_w insn)) v 2
   else if funct3 =? 7 then (* c.sd *)
     a <- read_reg rs1 ;; v <- read_reg rd ;; store (u64 (a + c_imm_d insn)) v 3
   else illegal) ;;;
  ret CNextInsn.

(** [c.srli], [c.srai], [c.andi] and the register-register group. *)
Definition exec_c1_alu (insn : Z) : X unit :=
  let funct2 := (insn >> 10) .& 3 in
  let rd := ((insn >> 7) .& 7) .| 8 in
  if funct2 =? 0 then v <- read_reg rd ;; write_reg rd (v >> c_imm6u insn)
  else if funct2 =? 1 then v <- read_reg rd ;; write_reg rd (i64 v >> c_imm6u insn)
  else if funct2 =? 2 then v <- read_reg rd ;; write_reg rd (v .& c_imm6 insn)
  else
    let rs2 := ((insn >> 2) .& 7) .| 8 in
    let f := ((insn >> 5) .& 3) .| ((insn >> (12 - 2)) .& 4) in
    if 5 <? f then illegal
    else
      a <- read_reg rd ;; b <- read_reg rs2 ;;
      write_reg rd
        (if f =? 0 then a - b
         else if f =? 1 then a .^ b
         else if f =? 2 then a .| b
         else if f =? 3 then a .& b
         else if f =? 4 then i32 (a - b)
         else i32 (a + b)).

Definition exec_c1 (insn : Z) : X next :=
  let funct3 := (insn >> 13) .& 7 in
  let rd := rd_of insn in
  let rs1 := ((insn >> 7) .& 7) .| 8 in
  let branch (taken : Z -> bool) :=
    a <- read_reg rs1 ;;
    if taken a then
      cur <- gets pc ;; set_pc (cur + c_imm_b insn) ;;; jump_insn ctf_taken_branch
    else ret CNextInsn in
  if funct3 =? 0 then (* c.addi/c.nop *)
    (if nz rd then v <- read_reg rd ;; write_reg rd (v + c_imm6 insn) else ret tt) ;;; ret CNextInsn
  else if funct3 =? 1 then (* c.addiw *)
    if rd =? 0 then illegal
    else v <- read_reg rd ;; write_reg rd (i32 (v + c_imm6 insn)) ;;; ret CNextInsn
  else if funct3 =? 2 then (* c.li *)
    write_rd rd (c_imm6 insn) ;;; ret CNextInsn
  else if funct3 =? 3 then
    (if rd =? 2 then (* c.addi16sp *)
       let imm := c_imm_addi16sp insn in
       if imm =? 0 then illegal else sp <- read_reg 2 ;; write_reg 2 (sp + imm)
     else if nz rd then (* c.lui *)
       let imm := c_imm_lui insn in
       if imm =? 0 then illegal else write_reg rd imm
     else if c_imm_lui insn =? 0 then illegal else ret tt) ;;; ret CNextInsn
  else if funct3 =? 4 then exec_c1_alu insn ;;; ret CNextInsn
  else if funct3 =? 5 then (* c.j *)
    cur <- gets pc ;; set_pc (cur + c_imm_j insn) ;;; jump_insn ctf_taken_jump
  else if funct3 =? 6 then branch (fun a => a =? 0) (* c.beqz *)
  else branch (fun a => nz a) (* c.bnez *).

(** [c.jr], [c.mv], [c.ebreak], [c.jalr] and [c.add]. *)
Definition exec_c2_jr (insn : Z) : X next :=
  let rd := rd_of insn in
  let rs2 := (insn >> 2) .& 0x1f in
  if ((insn >> 12) .& 1) =? 0 then
    if rs2 =? 0 then (* c.jr *)
      if rd =? 0 then illegal
      else a <- read_reg rd ;; set_pc (a .&~ 1) ;;; jump_insn (ctf_compute_hint 0 rd)
    else (* c.mv *)
      (if nz rd then v <- read_reg rs2 ;; write_reg rd v else ret tt) ;;; ret CNextInsn
  else
    if rs2 =? 0 then
      if rd =? 0 then raise CAUSE_BREAKPOINT 0 (* c.ebreak *)
      else (* c.jalr *)
        cur <- gets pc ;; a <- read_reg rd ;;
        set_pc (a .&~ 1) ;;; write_reg 1 (cur + 2) ;;; jump_insn (ctf_compute_hint 1 rd)
    else (* c.add *)
      (if nz rd then a <- read_reg rd ;; b <- read_reg rs2 ;; write_reg rd (a + b) else ret tt) ;;;
      ret CNextInsn.

Definition exec_c2 (insn : Z) : X next :=
  let funct3 := (insn >> 13) .& 7 in
  let rd := rd_of insn in
  let rs2 := (insn >> 2) .& 0x1f in
  if funct3 =? 4 then exec_c2_jr insn
  else
    (if funct3 =? 0 then (* c.slli *)
       let imm := get_field1 insn 12 5 5 .| rs2 in
       if nz rd then v <- read_reg rd ;; write_reg rd (v << imm) else ret tt
     else if funct3 =? 1 then (* c.fldsp *)
       need_fs ;;; sp <- read_reg 2 ;; v <- load (u64 (sp + c_imm_ldsp insn rs2)) 3 ;;
       write_fp_reg rd (v .| F64_HIGH)
     else if funct3 =? 2 then (* c.lwsp *)
       if rd =? 0 then illegal
       else sp <- read_reg 2 ;; v <- load (u64 (sp + c_imm_lwsp insn rs2)) 2 ;; write_reg rd (i32 v)
     else if funct3 =? 3 then (* c.ldsp *)
       if rd =? 0 then illegal
       else sp <- read_reg 2 ;; v <- load (u64 (sp + c_imm_ldsp insn rs2)) 3 ;; write_reg rd (i64 v)
     else if funct3 =? 5 then (* c.fsdsp *)
       need_fs ;;; sp <- read_reg 2 ;; v <- read_fp_reg rs2 ;; store (u64 (sp + c_imm_sdsp insn)) v 3
     else if funct3 =? 6 then (* c.swsp *)
       sp <- read_reg 2 ;; v <- read_reg rs2 ;; store (u64 (sp + c_imm_swsp insn)) v 2
     else (* c.sdsp *)
       sp <- read_reg 2 ;; v <- read_reg rs2 ;; store (u64 (sp + c_imm_sdsp insn)) v 3) ;;;
    ret CNextInsn.

(** ** Control transfer *)

(** [if (!(s->misa & MCPUID_C) && (new_pc & 3) != 0)]: misaligned target. *)
Definition check_target (target : Z) : X unit :=
  c <- gets (fun s => has (misa s) MCPUID_C) ;;
  if negb c && has target 3 then raise CAUSE_MISALIGNED_FETCH 0 ;;; ret tt else ret tt.

Definition exec_jal (insn : Z) : X next :=
  let imm := imm_j insn in
  cur <- gets pc ;;
  check_target (cur + imm) ;;;
  write_rd (rd_of insn) (cur + 4) ;;;
  set_pc (cur + imm) ;;;
  jump_insn ctf_taken_jump.

Definition exec_jalr (insn : Z) : X next :=
  if nz (funct3_of insn) then illegal
  else
    let imm := imm_i insn in
    cur <- gets pc ;;
    a <- read_reg (rs1_of insn) ;;
    check_target ((a + imm) .&~ 1) ;;;
    a <- read_reg (rs1_of insn) ;;
    set_pc ((a + imm) .&~ 1) ;;;
    write_rd (rd_of insn) (cur + 4) ;;;
    jump_insn (ctf_compute_hint (rd_of insn) (rs1_of insn)).

(** The comparison of [beq], [blt] and [bltu], by [funct3 >> 1]. *)
Definition branch_cond (kind a b : Z) : bool :=
  if kind =? 0 then a =? b
  else if kind =? 2 then i64 a <? i64 b
  else a <? b.

Definition exec_branch (insn : Z) : X next :=
  let funct3 := funct3_of insn in
  if (funct3 >> 1) =? 1 then illegal
  else
    a <- read_reg (rs1_of insn) ;;
    b <- read_reg (rs2_of insn) ;;
    if xorb (branch_cond (funct3 >> 1) a b) (nz (funct3 .& 1)) then
      let imm := imm_b insn in
      cur <- gets pc ;;
      check_target (cur + imm) ;;;
      set_pc (cur + imm) ;;;
      jump_insn ctf_taken_branch
    else ret NextInsn.

(** ** Loads and stores *)

Definition exec_load (insn : Z) : X next :=
  let funct3 := funct3_of insn in
  a <- read_reg (rs1_of insn) ;;
  let addr := u64 (a + imm_i insn) in
  v <- (if funct3 =? 0 then v <- load addr 0 ;; ret (i8 v)
        else if funct3 =? 1 then v <- load addr 1 ;; ret (i16 v)
        else if funct3 =? 2 then v <- load addr 2 ;; ret (i32 v)
        else if funct3 =? 4 then load addr 0
        else if funct3 =? 5 then load addr 1
        else if funct3 =? 3 then v <- load addr 3 ;; ret (i64 v)
        else if funct3 =? 6 then load addr 2
        else illegal) ;;
  write_rd (rd_of insn) v ;;; ret NextInsn.

Definition exec_store (insn : Z) : X next :=
  let funct3 := funct3_of insn in
  a <- read_reg (rs1_of insn) ;;
  let addr := u64 (a + imm_s insn) in
  v <- read_reg (rs2_of insn) ;;
  (if funct3 <=? 3 then store addr v funct3 else illegal) ;;;
  ret NextInsn.

(** ** Integer operations *)

(** [EN_ZBA], [EN_ZBB], [EN_ZBC] and [EN_ZBS]; [EN_ZBC] tests [zbb]. *)
Definition EN_ZBA (f : ExtensionFlags) : bool := zba f.
Definition EN_ZBB (f : ExtensionFlags) : bool := zbb f.
Definition EN_ZBC (f : ExtensionFlags) : bool := zbb f.
Definition EN_ZBS (f : ExtensionFlags) : bool := zbs f.
Definition HALF_WORD_MASK : Z := 0xFFFF.

Definition exec_op_imm (insn : Z) : X next :=
  f <- (m <- getm ;; ret (ext_flags m)) ;;
  let funct3 := funct3_of insn in
  let imm := imm_i insn in
  let rs1 := rs1_of insn in
  let funct12 := (insn >> 20) .& 0xfff in
  let funct6 := (insn >> 26) .& 0x3f in
  let shamt := (insn >> 20) .& 0x3f in
  v <- read_reg rs1 ;;
  v <- (if funct3 =? 0 then a <- read_reg rs1 ;; ret (a + imm)
        else if funct3 =? 1 then
          if EN_ZBB f && (funct12 =? 0x601) then a <- read_reg rs1 ;; defined (ctz_x a)
          else if EN_ZBB f && (funct12 =? 0x600) then a <- read_reg rs1 ;; defined (clz_x a)
          else if EN_ZBB f && (funct12 =? 0x602) then a <- read_reg rs1 ;; ret (cpop a)
          else if EN_ZBB f && (funct12 =? 0x605) then a <- read_reg rs1 ;; ret (sext_h a)
          else if EN_ZBB f && (funct12 =? 0x604) then a <- read_reg rs1 ;; ret (sext_b a)
          else if EN_ZBS f && (funct6 =? 0x0a) then ret (v .| (1 << shamt))
          else if EN_ZBS f && (funct6 =? 0x12) then ret (v .&~ (1 << shamt))
          else if EN_ZBS f && (funct6 =? 0x1a) then ret (v .^ (1 << shamt))
          else if nz (imm .&~ 63) then illegal
          else a <- read_reg rs1 ;; ret (a << (imm .& 63))
        else if funct3 =? 2 then a <- read_reg rs1 ;; ret (b2z (i64 a <? imm))
        else if funct3 =? 3 then a <- read_reg rs1 ;; ret (b2z (a <? u64 imm))
        else if funct3 =? 4 then a <- read_reg rs1 ;; ret (a .^ imm)
        else if funct3 =? 5 then
          if EN_ZBS f && (funct6 =? 0x12) then ret ((v >> shamt) .& 1)
          else if nz (imm .&~ (63 .| 0x400)) then illegal
          else if has imm 0x400 then a <- read_reg rs1 ;; ret (i64 a >> (imm .& 63))
          else a <- read_reg rs1 ;; ret (a >> (imm .& 63))
        else if funct3 =? 6 then a <- read_reg rs1 ;; ret (a .| imm)
        else a <- read_reg rs1 ;; ret (a .& imm)) ;;
  write_rd (rd_of insn) v ;;; ret NextInsn.

Definition exec_op_imm_32 (insn : Z) : X next :=
  f <- (m <- getm ;; ret (ext_flags m)) ;;
  let funct3 := funct3_of insn in
  let imm := imm_i insn in
  let rs1 := rs1_of insn in
  let funct12 := (insn >> 20) .& 0xfff in
  let funct6 := (insn >> 26) .& 0x3f in
  let shamt := (insn >> 20) .& 0x3f in
  v <- read_reg rs1 ;;
  v <- (if funct3 =? 0 then ret (i32 (v + imm))
        else if funct3 =? 1 then
          if EN_ZBA f && (funct6 =? 0x2) then ret (u32 v << shamt)
          else if EN_ZBB f && (funct12 =? 0x601) then a <- read_reg rs1 ;; defined (ctzw a)
          else if EN_ZBB f && (funct12 =? 0x602) then a <- read_reg rs1 ;; ret (cpopw a)
          else if EN_ZBB f && (funct12 =? 0x600) then a <- read_reg rs1 ;; defined (clzw a)
          else if nz (imm .&~ 31) then illegal
          else ret (i32 (v << (imm .& 31)))
        else if funct3 =? 5 then
          if nz (imm .&~ (31 .| 0x400)) then illegal
          else if has imm 0x400 then ret (i32 v >> (imm .& 31))
          else ret (i32 (u32 v >> (imm .& 31)))
        else illegal) ;;
  write_rd (rd_of insn) v ;;; ret NextInsn.

(** The M extension, by [funct3]. *)
Definition mul_div (funct3 a b : Z) : Z :=
  if funct3 =? 0 then i64 a * i64 b
  else if funct3 =? 1 then mulh64 (i64 a) (i64 b)
  else if funct3 =? 2 then mulhsu64 (i64 a) b
  else if funct3 =? 3 then mulhu64 a b
  else if funct3 =? 4 then div_x 64 (i64 a) (i64 b)
  else if funct3 =? 5 then divu_x 64 a b
  else if funct3 =? 6 then rem_x 64 (i64 a) (i64 b)
  else remu_x 64 a b.

(** The base operations, by [funct3] with bit 30 of the instruction at 8. *)
Definition base_op (funct3 a b : Z) : X Z :=
  if funct3 =? 0 then ret (a + b)
  else if funct3 =? 8 then ret (a - b)
  else if funct3 =? 1 then ret (a << (b .& 63))
  else if funct3 =? 2 then ret (b2z (i64 a <? i64 b))
  else if funct3 =? 3 then ret (b2z (a <? b))
  else if funct3 =? 4 then ret (a .^ b)
  else if funct3 =? 5 then ret (a >> (b .& 63))
  else if funct3 =? 13 then ret (i64 a >> (b .& 63))
  else if funct3 =? 6 then ret (a .| b)
  else if funct3 =? 7 then ret (a .& b)
  else illegal.

Definition funct3_30 (insn : Z) : Z := funct3_of insn .| ((insn >> (30 - 3)) .& (1 << 3)).

(** [sh1add]/[sh2add]/[sh3add]. *)
Definition zba_op (funct3 a b : Z) : X Z :=
  if funct3 =? 2 then ret ((a << 1) + b)
  else if funct3 =? 4 then ret ((a << 2) + b)
  else if funct3 =? 6 then ret ((a << 3) + b)
  else illegal.

(** [sub]/[xnor]/[orn]/[andn] under Zbb, [funct7] 0x20. *)
Definition zbb_not_op (funct3 a b : Z) : X Z :=
  if funct3 =? 0 then ret (a - b)
  else if funct3 =? 4 then ret (Z.lnot (a .^ b))
  else if funct3 =? 6 then ret (a .| Z.lnot b)
  else if funct3 =? 7 then ret (a .& Z.lnot b)
  else illegal.

Definition exec_op (insn : Z) : X next :=
  f <- (m <- getm ;; ret (ext_flags m)) ;;
  let funct7 := insn >> 25 in
  let funct3 := funct3_of insn in
  a <- read_reg (rs1_of insn) ;;
  b <- read_reg (rs2_of insn) ;;
  v <- (if EN_ZBA f && (funct7 =? 0x10) then zba_op funct3 a b
        else if EN_ZBB f && (funct7 =? 0x05) && (funct3 =? 4) then ret (if i64 a <? i64 b then a else b)
        else if EN_ZBB f && (funct7 =? 0x05) && (funct3 =? 5) then ret (if a <? b then a else b)
        else if EN_ZBB f && (funct7 =? 0x05) && (funct3 =? 6) then ret (if i64 a <? i64 b then b else a)
        else if EN_ZBB f && (funct7 =? 0x05) && (funct3 =? 7) then ret (if a <? b then b else a)
        else if EN_ZBB f && (funct7 =? 0x20) then zbb_not_op funct3 a b
        else if EN_ZBC f && (funct7 =? 0x05) && (funct3 =? 1) then ret (clmul 64 a b)
        else if EN_ZBC f && (funct7 =? 0x05) && (funct3 =? 2) then ret (clmulr 64 a b)
        else if EN_ZBC f && (funct7 =? 0x05) && (funct3 =? 3) then ret (clmulh 64 a b)
        else if EN_ZBS f && (funct7 =? 0x14) && (funct3 =? 1) then ret (a .| (1 << (b .& 63)))
        else if EN_ZBS f && (funct7 =? 0x24) && (funct3 =? 1) then ret (a .&~ (1 << (b .& 63)))
        else if EN_ZBS f && (funct7 =? 0x24) && (funct3 =? 5) then ret ((a >> (b .& 63)) .& 1)
        else if EN_ZBS f && (funct7 =? 0x34) && (funct3 =? 1) then ret (a .^ (1 << (b .& 63)))
        else if funct7 =? 1 then ret (mul_div funct3 a b)
        else if nz (funct7 .&~ 0x20) then illegal
        else base_op (funct3_30 insn) a b) ;;
  write_rd (rd_of insn) v ;;; ret NextInsn.

Definition mul_div_32 (funct3 a b : Z) : X Z :=
  if funct3 =? 0 then ret (i32 (i32 a * i32 b))
  else if funct3 =? 4 then ret (div_x 32 (i32 a) (i32 b))
  else if funct3 =? 5 then ret (i32 (divu_x 32 (u32 a) (u32 b)))
  else if funct3 =? 6 then ret (rem_x 32 (i32 a) (i32 b))
  else if funct3 =? 7 then ret (i32 (remu_x 32 (u32 a) (u32 b)))
  else illegal.

Definition base_op_32 (funct3 a b : Z) : X Z :=
  if funct3 =? 0 then ret (i32 (a + b))
  else if funct3 =? 8 then ret (i32 (a - b))
  else if funct3 =? 1 then ret (i32 (u32 a << (b .& 31)))
  else if funct3 =? 5 then ret (i32 (u32 a >> (b .& 31)))
  else if funct3 =? 13 then ret (i32 a >> (b .& 31))
  else illegal.

Definition exec_op_32 (insn : Z) : X next :=
  f <- (m <- getm ;; ret (ext_flags m)) ;;
  let funct7 := insn >> 25 in
  let funct12 := (insn >> 20) .& 0xfff in
  let funct3 := funct3_of insn in
  a <- read_reg (rs1_of insn) ;;
  b <- read_reg (rs2_of insn) ;;
  v <- (if EN_ZBA f && (funct7 =? 0x10) && (funct3 =? 2) then ret ((u32 a << 1) + b)
        else if EN_ZBA f && (funct7 =? 0x10) && (funct3 =? 4) then ret ((u32 a << 2) + b)
        else if EN_ZBA f && (funct7 =? 0x10) && (funct3 =? 6) then ret ((u32 a << 3) + b)
        else if EN_ZBA f && (funct7 =? 0x04) && (funct3 =? 0) then ret (u32 a + b)
        else if EN_ZBB f && (funct12 =? 0x080) && (funct3 =? 4) then ret (a .& HALF_WORD_MASK)
        else if funct7 =? 1 then mul_div_32 funct3 a b
        else if nz (funct7 .&~ 0x20) then illegal
        else base_op_32 (funct3_30 insn) a b) ;;
  write_rd (rd_of insn) v ;;; ret NextInsn.

(** ** System instructions *)

(** [icount] is [GET_INSN_COUNTER()], [start] is [insn_counter_start]. *)
Definition count_insns (icount start : Z) : X unit :=
  mods (fun s => s <| insn_counter := icount |>) ;;;
  stop <- gets stop_the_counter ;;
  if stop then ret tt
  else
    let delta := i32 (icount - start) in
    if delta <? 0 then throw E_undefined
    else mods (fun s => s <| mcycle ::= fun c => u64 (c + delta) |>
                          <| minstret ::= fun c => u64 (c + delta) |>).

Definition do_csr_read (funct3 csr : Z) (will_write : bool) : X Z := fun m =>
  match csr_read (hooks m) (cpu m) funct3 csr will_write with
  | (s, Some v) => (inr (u64 v), m <| cpu := s |>)
  | (s, None) => (inl E_illegal, m <| cpu := s |>)
  end.

(** Whether the write flushed the TLBs ([err == 2]); [csr_write] returns neither
    1 nor -2. *)
Definition do_csr_write (funct3 csr v : Z) : X bool := fun m =>
  match csr_write (hooks m) (cpu m) funct3 csr v with
  | (CsrOk, s) => (inr false, m <| cpu := s |>)
  | (CsrFlushed, s) => (inr true, m <| cpu := s |>)
  | (CsrInvalid, s) => (inl E_illegal, m <| cpu := s |>)
  end.

(** [s->pc = GET_PC() + 4; JUMP_INSN(ctf_nop)]. *)
Definition resync : X next :=
  cur <- gets pc ;; set_pc (cur + 4) ;;; jump_insn ctf_nop.

Definition csr_operand (insn : Z) : X Z :=
  if has (funct3_of insn) 4 then ret (rs1_of insn) else read_reg (rs1_of insn).

Definition exec_csrrw (insn icount start : Z) : X next :=
  let csr := insn >> 20 in
  v <- csr_operand insn ;;
  count_insns icount start ;;;
  old <- do_csr_read 1 csr true ;;
  flushed <- do_csr_write 1 csr v ;;
  write_rd (rd_of insn) old ;;;
  if flushed then resync else ret NextInsn.

(** [csrrs] ([funct3] 2) and [csrrc] (3). *)
Definition exec_csrrs (insn funct3 icount start : Z) : X next :=
  let csr := insn >> 20 in
  let rs1 := rs1_of insn in
  v <- csr_operand insn ;;
  count_insns icount start ;;;
  old <- do_csr_read funct3 csr (nz rs1) ;;
  flushed <- (if nz rs1 then do_csr_write funct3 csr (if funct3 =? 2 then old .| v else old .&~ v)
              else ret false) ;;
  write_rd (rd_of insn) old ;;;
  if flushed then resync else ret NextInsn.

(** [if (insn & mask) ILLEGAL_INSTR]. *)
Definition reserved_zero (insn mask : Z) : X unit := if has insn mask then illegal else ret tt.

Definition illegal_if (b : RISCVCPUState -> bool) : X unit :=
  c <- gets b ;; if c then illegal else ret tt.

Definition exec_ecall (insn : Z) : X next :=
  reserved_zero insn 0x000fff80 ;;;
  p <- gets priv ;;
  mods (fun s => s <| pending_exception := CAUSE_USER_ECALL + p |> <| pending_tval := 0 |>) ;;;
  ignore <- gets ignore_sbi_shutdown ;;
  (if negb ignore && (p =? PRV_M) then
     v <- read_reg 0x17 ;;
     if v =? SBI_SHUTDOWN then mods (fun s => s <| terminate_simulation := true |>) else ret tt
   else ret tt) ;;;
  throw E_exception.

Definition exec_wfi (insn : Z) : X next :=
  reserved_zero insn 0x00007f80 ;;;
  illegal_if (fun s => priv s =? PRV_U) ;;;
  illegal_if (fun s => (priv s =? PRV_S) && has (mstatus s) MSTATUS_TW) ;;;
  m <- getm ;;
  if (negb (has (mip (cpu m)) (mie (cpu m))) && (pending_interrupt m =? -1)) || negb (cosim m) then
    cur <- gets pc ;;
    mods (fun s => s <| power_down_flag := true |> <| pc := u64 (cur + 4) |>) ;;; throw E_done
  else ret NextInsn.

Definition exec_sfence (insn : Z) : X next :=
  reserved_zero insn 0x00007f80 ;;;
  illegal_if (fun s => priv s =? PRV_U) ;;;
  illegal_if (fun s => (priv s =? PRV_S) && has (mstatus s) MSTATUS_TVM) ;;;
  (if rs1_of insn =? 0 then mods tlb_flush_all
   else va <- read_reg (rs1_of insn) ;; mods (fun s => tlb_flush_vaddr s va)) ;;;
  resync.

(** [funct3] 0. *)
Definition exec_priv (insn : Z) : X next :=
  let imm := insn >> 20 in
  if imm =? 0x000 then exec_ecall insn
  else if imm =? 0x001 then (* ebreak *)
    reserved_zero insn 0x000fff80 ;;; raise CAUSE_BREAKPOINT 0
  else if imm =? 0x102 then (* sret *)
    reserved_zero insn 0x000fff80 ;;;
    illegal_if (fun s => priv s <? PRV_S) ;;;
    illegal_if (fun s => (priv s =? PRV_S) && has (mstatus s) MSTATUS_TSR) ;;;
    mods handle_sret ;;; throw E_done
  else if imm =? 0x302 then (* mret *)
    reserved_zero insn 0x000fff80 ;;;
    illegal_if (fun s => priv s <? PRV_M) ;;;
    mods handle_mret ;;; throw E_done
  else if imm =? 0x7b2 then (* dret *)
    illegal_if (fun s => negb (debug_mode s)) ;;;
    reserved_zero insn 0x000fff80 ;;;
    illegal_if (fun s => priv s <? PRV_M) ;;;
    mods handle_dret ;;; throw E_done
  else if imm =? 0x105 then exec_wfi insn
  else if (imm >> 5) =? 0x09 then exec_sfence insn
  else illegal.

Definition exec_system (insn icount start : Z) : X next :=
  let funct3 := funct3_of insn .& 3 in
  if funct3 =? 1 then exec_csrrw insn icount start
  else if funct3 =? 0 then csr_operand insn ;;; exec_priv insn
  else exec_csrrs insn funct3 icount start.

Definition exec_misc_mem (insn : Z) : X next :=
  if funct3_of insn <=? 1 then ret NextInsn (* fence, fence.i *) else illegal.

(** ** Atomics ([OP_A], width [8 << n] bits) *)

Definition amo_ops : list Z := [1; 0; 4; 0xc; 0x8; 0x10; 0x14; 0x18; 0x1c].

(** The value an AMO stores, by [funct5] in [amo_ops]; [v] is the old memory
    value, sign-extended, and [v2] the register operand. *)
Definition amo_value (w op v v2 : Z) : Z :=
  if op =? 1 then v2
  else if op =? 0 then sgn w (v + v2)
  else if op =? 4 then sgn w (v .^ v2)
  else if op =? 0xc then sgn w (v .& v2)
  else if op =? 0x8 then sgn w (v .| v2)
  else if op =? 0x10 then if sgn w v <? sgn w v2 then sgn w v else v2
  else if op =? 0x14 then if sgn w v2 <? sgn w v then sgn w v else v2
  else if op =? 0x18 then if trunc w v <? trunc w v2 then sgn w v else v2
  else if trunc w v2 <? trunc w v then sgn w v else v2.

Definition exec_lr (insn n : Z) : X Z :=
  addr <- read_reg (rs1_of insn) ;;
  if nz (rs2_of insn) then illegal
  else
    v <- load addr n ;;
    m <- getm ;;
    mods (fun s => s <| load_res := addr |> <| load_res_memseqno := memseqno m |>) ;;;
    ret (sgn (bits n) v).

Definition exec_sc (insn n : Z) : X Z :=
  addr <- read_reg (rs1_of insn) ;;
  if unaligned addr n then raise CAUSE_MISALIGNED_STORE addr ;;; ret 0
  else
    m <- getm ;;
    if (load_res (cpu m) =? addr) && (load_res_memseqno (cpu m) =? memseqno m) then
      v <- read_reg (rs2_of insn) ;;
      store addr v n ;;;
      mods (fun s => s <| load_res := 2 ^ 64 - 1 |> <| load_res_memseqno := 0 |>) ;;;
      ret 0
    else ret 1.

(** A failed load of an AMO is reported as a store ([pending_exception += 2]). *)
Definition amo_load (addr n : Z) : X Z := fun m =>
  match load addr n m with
  | (inl e, m) =>
      (inl e, m <| cpu ::= fun s => if pending_exception s =? CAUSE_BREAKPOINT then s
                                    else s <| pending_exception ::= fun c => c + 2 |> |>)
  | r => r
  end.

Definition exec_rmw (insn op n : Z) : X Z :=
  addr <- read_reg (rs1_of insn) ;;
  if existsb (Z.eqb op) amo_ops then
    v <- amo_load addr n ;;
    let v := sgn (bits n) v in
    v2 <- read_reg (rs2_of insn) ;;
    store addr (amo_value (bits n) op v v2) n ;;;
    ret v
  else illegal.

Definition exec_amo (insn : Z) : X next :=
  let n := funct3_of insn in
  if (n =? 2) || (n =? 3) then
    let op := insn >> 27 in
    v <- (if op =? 2 then exec_lr insn n
          else if op =? 3 then exec_sc insn n
          else exec_rmw insn op n) ;;
    write_rd (rd_of insn) v ;;; ret NextInsn
  else illegal.

(** ** Floating-point loads and stores, dispatch *)

(** The [funct3] of vector loads and stores. *)
Definition is_vmem (funct3 : Z) : bool := (funct3 =? 0) || (5 <=? funct3).

Definition exec_fload (insn : Z) : X next :=
  let funct3 := funct3_of insn in
  a <- read_reg (rs1_of insn) ;;
  let addr := u64 (a + imm_i insn) in
  if funct3 =? 2 then (* flw *)
    need_fs ;;; v <- load addr 2 ;; write_fp_reg (rd_of insn) (v .| F32_HIGH) ;;; ret NextInsn
  else if funct3 =? 3 then (* fld *)
    need_fs ;;; v <- load addr 3 ;; write_fp_reg (rd_of insn) (v .| F64_HIGH) ;;; ret NextInsn
  else if is_vmem funct3 then exec_vector insn
  else illegal.

Definition exec_fstore (insn : Z) : X next :=
  let funct3 := funct3_of insn in
  a <- read_reg (rs1_of insn) ;;
  let addr := u64 (a + imm_s insn) in
  if (funct3 =? 2) || (funct3 =? 3) then (* fsw, fsd *)
    need_fs ;;; v <- read_fp_reg (rs2_of insn) ;; store addr v funct3 ;;; ret NextInsn
  else if is_vmem funct3 then exec_vector insn
  else illegal.

(** The [switch] of the loop on an instruction at [s->pc]. *)
Definition exec_insn (insn icount start : Z) : X next :=
  let opcode := op_of insn in
  if (insn .& 3) =? 0 then exec_c0 insn
  else if (insn .& 3) =? 1 then exec_c1 insn
  else if (insn .& 3) =? 2 then exec_c2 insn
  else if opcode =? 0x37 then write_rd (rd_of insn) (imm_u insn) ;;; ret NextInsn (* lui *)
  else if opcode =? 0x17 then (* auipc *)
    cur <- gets pc ;; write_rd (rd_of insn) (cur + imm_u insn) ;;; ret NextInsn
  else if opcode =? 0x6f then exec_jal insn
  else if opcode =? 0x67 then exec_jalr insn
  else if opcode =? 0x63 then exec_branch insn
  else if opcode =? 0x03 then exec_load insn
  else if opcode =? 0x23 then exec_store insn
  else if opcode =? 0x13 then exec_op_imm insn
  else if opcode =? 0x1b then exec_op_imm_32 insn
  else if opcode =? 0x33 then exec_op insn
  else if opcode =? 0x3b then exec_op_32 insn
  else if opcode =? 0x73 then exec_system insn icount start
  else if opcode =? 0x0f then exec_misc_mem insn
  else if opcode =? 0x2f then exec_amo insn
  else if opcode =? 0x07 then exec_fload insn
  else if opcode =? 0x27 then exec_fstore insn
  else if (opcode =? 0x43) || (opcode =? 0x47) || (opcode =? 0x4b) || (opcode =? 0x4f)
          || (opcode =? 0x53) then exec_fp insn
  else if opcode =? 0x57 then exec_vector insn
  else illegal.

(** ** The loop *)

Definition irq_pending (m : RISCVMachine D) : bool :=
  has (mip (cpu m)) (mie (cpu m)) && (negb (pending_interrupt m =? -1) || negb (cosim m)).

(** Takes a pending interrupt; whether one was taken. *)
Definition take_interrupt : X bool := fun m =>
  if irq_pending m then
    match raise_interrupt (cpu m) with
    | Some s => (inr true, m <| cpu := s |>)
    | None => (inr false, m)
    end
  else (inr false, m).

(** The instruction word at [s->pc], by the host code pointer when it is inside
    its page, else through the code TLB or the slow path. *)
Definition fetch (l : interp_locals) : M (D := D) label (Z * interp_locals) :=
  if code_ptr l <? code_end l then m <- getm ;; ret (load_host m (code_ptr l) 2, l)
  else
    taken <- catch take_interrupt Goto ;;
    if taken then throw The_end
    else
      addr <- gets pc ;;
      e <- gets (fun s => aget no_tlb (tlb_code s) (tlb_index addr)) ;;
      if vaddr e =? page_of addr then
        let ptr := u64 (mem_addend e + addr) in
        let l := l <| code_ptr := ptr |>
                   <| code_end := u64 (mem_addend e + (page_of addr + PG_MASK - 1)) |>
                   <| code_to_pc_addend := u64 (addr - ptr) |> in
        m <- getm ;;
        if code_end l <=? code_ptr l then
          let insn := load_host m ptr 1 in
          if (insn .& 3) =? 3 then
            hi <- catch (target_read_insn_u16 (u64 (addr + 2))) (fun _ => Goto E_exception) ;;
            ret (insn .| (hi << 16), l)
          else ret (insn, l)
        else ret (load_host m ptr 2, l)
      else
        insn <- catch (target_read_insn_slow 32 addr) (fun _ => Goto E_exception) ;; ret (insn, l).

(** [NEXT_INSN], [C_NEXT_INSN] and [JUMP_INSN]; [cur] is [s->pc]. *)
Definition advance (nx : next) (cur : Z) (l : interp_locals) : interp_locals :=
  match nx with
  | NextInsn => l <| code_ptr ::= fun p => u64 (p + 4) |>
  | CNextInsn => l <| code_ptr ::= fun p => u64 (p + 2) |>
  | JumpInsn => l <| code_ptr := 0 |> <| code_end := 0 |> <| code_to_pc_addend := cur |>
  end.

(** [insn_counter_addend = s->insn_counter + n_cycles] at the end of [csrrw]. *)
Definition recount (insn : Z) (s : RISCVCPUState) (l : interp_locals) : interp_locals :=
  if (op_of insn =? 0x73) && ((funct3_of insn .& 3) =? 1)
  then l <| insn_counter_addend := u64 (insn_counter s + n_cycles l) |> else l.

(** [if (check_triggers(s, MCONTROL_EXECUTE, s->pc)) goto exception]. *)
Definition check_execute : X unit := fun m =>
  let '(hit, s) := check_triggers (cpu m) MCONTROL_EXECUTE (pc (cpu m)) in
  (if hit then inl E_exception else inr tt, m <| cpu := s |>).

(** One iteration; an early exit carries the locals.  [GET_PC()] is the same
    before and after a fetch, so that the exits of [fetch] and of [exec_insn] may
    carry the locals before it. *)
Definition interp_iter (start : Z) (l : interp_locals) : M (label * interp_locals) interp_locals :=
  mods (fun s => s <| last_pc := pc s |> <| pc := GET_PC l |>) ;;;
  let l := l <| n_cycles ::= fun n => n - 1 |> in
  if n_cycles l =? 0 then throw (The_end, l)
  else
    let l := l <| insn_executed ::= fun n => n + 1 |> in
    catch check_execute (fun e => (Goto e, l)) ;;;
    let_ '(insn, l') <- catch (fetch l) (fun e => (e, l)) ;;
    nx <- catch (exec_insn insn (GET_INSN_COUNTER l') start) (fun e => (Goto e, l')) ;;
    s <- gets id ;;
    ret (advance nx (pc s) (recount insn s l')).

(** [None]: more than [fuel] iterations. *)
Fixpoint interp_loop (fuel : nat) (start : Z) (l : interp_locals) (m : RISCVMachine D)
  : option (label * interp_locals * RISCVMachine D) :=
  match fuel with
  | O => None
  | S fuel' =>
      match interp_iter start l m with
      | (inl (e, l'), m') => Some (e, l', m')
      | (inr l', m') => interp_loop fuel' start l' m'
      end
  end.

(** From the label [exception] to [done_interp]. *)
Definition do_exception (l : interp_locals) : X interp_locals :=
  mods (fun s => s <| pc := GET_PC l |>) ;;;
  s <- gets id ;;
  let cause := pending_exception s in
  if 0 <=? cause then
    mods (fun s => raise_exception2 s cause (pending_tval s)) ;;;
    ret (if (cause <? CAUSE_USER_ECALL) || (CAUSE_USER_ECALL + 3 <? cause)
         then l <| insn_counter_addend ::= fun n => u64 (n - 1) |>
                <| insn_executed ::= fun n => n - 1 |>
         else l)
  else ret l.

(** From a label to [the_end]. *)
Definition leave (e : label) (l : interp_locals) : X interp_locals :=
  let done_interp l := ret (l <| n_cycles ::= fun n => n - 1 |>) in
  match e with
  | Goto E_illegal =>
      mods (fun s => s <| pending_exception := CAUSE_ILLEGAL_INSTRUCTION |> <| pending_tval := 0 |>) ;;;
      l <- do_exception l ;; done_interp l
  | Goto E_exception => l <- do_exception l ;; done_interp l
  | Goto E_done => done_interp l
  | Goto E_undefined => throw E_undefined
  | The_end => ret l
  end.

Definition the_end (start : Z) (l : interp_locals) : X Z :=
  count_insns (GET_INSN_COUNTER l) start ;;; ret (insn_executed l).

(** [inl E_undefined]: undefined behaviour or failed assertion.  The loop makes at
    most [n + 1] iterations. *)
Definition riscv_cpu_interp64 (n : Z) : X Z :=
  start <- gets insn_counter ;;
  mods (fun s => (clear_most_recently_written_vregs s) <| most_recently_written_reg := -1 |>
                   <| most_recently_written_fp_reg := -1 |> <| info := ctf_nop |>) ;;;
  if n =? 0 then ret 0
  else
    let addend := u64 (start + n) in
    taken <- take_interrupt ;;
    if taken then
      l <- leave (Goto E_done) (mkLocals 0 0 0 n (u64 (addend - 1)) 0) ;; the_end start l
    else
      mods (fun s => s <| pending_exception := -1 |> <| last_data_vaddr := 2 ^ 64 - 1 |>) ;;;
      cur <- gets pc ;;
      fun m =>
        match interp_loop (Z.to_nat (n + 1)) start (mkLocals 0 0 cur (n + 1) addend 0) m with
        | None => (inl E_undefined, m)
        | Some (e, l, m') => (l <- leave e l ;; the_end start l) m'
        end.
End Interp.
