(* ===== verification/SafeInsn.v ===== *)
(** * Safety of the accesses an instruction makes

    The invariant of a hart between instructions ([idle]) and after an exit ([stopped]),
    and that memory accesses, fetches and register accesses respect it. *)

From S2P Require Import Prelude Iomem Cpu Pmp Csr Trap Machine Mmu Alu Insn.

(** Hooks keep harts well formed, raise no exception of their own and leave the
    instruction counter alone. *)
Record hooks_ok (h : RISCVMachineHooks) : Prop := {
  hook_read_ok : forall f s f3 c, hook_csr_read h = Some f -> cpu_ok s ->
    cpu_ok (f s f3 c).1 /\ pending_exception (f s f3 c).1 = pending_exception s;
  hook_write_ok : forall f s f3 c v, hook_csr_write h = Some f -> cpu_ok s ->
    cpu_ok (f s f3 c v).1 /\ pending_exception (f s f3 c v).1 = pending_exception s;
  hook_read_count : forall f s f3 c, hook_csr_read h = Some f ->
    insn_counter (f s f3 c).1 = insn_counter s;
  hook_write_count : forall f s f3 c v, hook_csr_write h = Some f ->
    insn_counter (f s f3 c v).1 = insn_counter s
}.

(** The number of harts, and the one that is running. *)
Class Geometry := mkGeometry { num_harts : nat; this_hart : nat }.

(** The rest of the machine, as far as the running hart relies on it: the hooks
    and the other harts. *)
Definition env_ok {G : Geometry} {D} (m : RISCVMachine D) : Prop :=
  hooks_ok (hooks m) /\ Forall cpu_ok (harts m) /\ length (harts m) = num_harts /\ hartid m = this_hart.

(** A hart with [pending_exception] at [p]. *)
Record idle_at {G : Geometry} {D} (p : Z) (m : RISCVMachine D) : Prop := {
  idle_cpu : cpu_ok (cpu m);
  idle_env : env_ok m;
  idle_pending : pending_exception (cpu m) = p
}.

(** A hart between two instructions: no exception is pending. *)
Abbreviation idle := (idle_at (-1)).

(** A hart that stopped on an exception of cause at most [k] (-1: none). *)
Record stopped {G : Geometry} {D} (k : Z) (m : RISCVMachine D) : Prop := {
  stopped_cpu : cpu_ok (cpu m);
  stopped_env : env_ok m;
  stopped_pending : -1 <= pending_exception (cpu m) <= k
}.

(** What the interpreter relies on from the device models. *)
Class SafeDevices (D : Type) {dv : Devices D} := {
  dev_read_safe : forall (G : Geometry) i off n (m : RISCVMachine D), idle m -> idle (dev_read i off n m).2;
  dev_write_safe : forall (G : Geometry) i off v n (m : RISCVMachine D), idle m -> idle (dev_write i off v n m)
}.

#[export] Instance no_devices_safe : SafeDevices unit.
Proof. by split. Qed.

Lemma idle_stopped {G : Geometry} {D} k (m : RISCVMachine D) : -1 <= k -> idle m -> stopped k m.
Proof. intros Hk []. split; [done|done|lia]. Qed.

Lemma stopped_mono {G : Geometry} {D} j k (m : RISCVMachine D) : j <= k -> stopped j m -> stopped k m.
Proof. intros Hk []. split; [done|done|lia]. Qed.

(** ** Updates of the hart *)

Lemma idle_upd {G : Geometry} {D p} (m : RISCVMachine D) f :
  (forall s, cpu_ok s -> cpu_ok (f s) /\ pending_exception (f s) = pending_exception s) ->
  (idle_at p) m -> (idle_at p) (m <| cpu ::= f |>).
Proof.
  intros Hf []. destruct (Hf _ idle_cpu0) as [H1 H2]. split; mach_simpl; [done|done|congruence].
Qed.

Lemma stop_upd {G : Geometry} {D p} k (m : RISCVMachine D) cause tval :
  0 <= cause <= k -> fits 64 tval -> (idle_at p) m ->
  stopped k (m <| cpu ::= fun s => s <| pending_tval := tval |> <| pending_exception := cause |> |>).
Proof.
  intros Hc Ht []. split; mach_simpl; [|done|cpu_simpl; lia].
  generalize dependent (cpu m). intros s H _. cpu_ok_split H.
Qed.

(** Closes [cpu_ok] of an update that [cpu_ok] does not look at. *)
Ltac frame_update :=
  intros; split; [match goal with H : cpu_ok _ |- _ => cpu_ok_split H end|done].

(** ** Frames

    What neither CSR writes nor trap returns touch. *)
Definition run_frame (s : RISCVCPUState) :=
  (pending_exception s, insn_counter s, reg s, (load_res s, load_res_memseqno s)).

Lemma tlb_flush_all_frame s : run_frame (tlb_flush_all s) = run_frame s.
Proof. done. Qed.

Lemma unpack_fold_frame l s : run_frame (fold_left unpack_step l s) = run_frame s.
Proof.
  revert s. induction l as [|i l IH]; intros s; [done|]. cbn [fold_left]. rewrite IH.
  unfold unpack_step. by destruct (pmp_entry s i).
Qed.

Lemma unpack_pmpaddrs_frame s : run_frame (unpack_pmpaddrs s) = run_frame s.
Proof. unfold unpack_pmpaddrs. rewrite tlb_flush_all_frame, unpack_fold_frame. done. Qed.

Lemma set_mstatus_frame s v : run_frame (set_mstatus s v) = run_frame s.
Proof. unfold set_mstatus. cbv zeta. by destruct (_ || _). Qed.

Lemma csr_write_switch_frame s csr v : run_frame (csr_write_switch s csr v).2 = run_frame s.
Proof.
  unfold csr_write_switch. destruct (csr_of_num csr) as [id|]; [|done].
  destruct id; cbn [csr_write_case snd]; try done; try apply set_mstatus_frame.
  all: try (by destruct (vs s =? 0)); try (by destruct (debug_mode s)).
  - destruct (_ && _); [done|]. cbv zeta. cbn [snd]. rewrite tlb_flush_all_frame. by destruct (_ || _).
  - unfold csr_write_tdata1. by destruct (_ || _).
  - by destruct (_ || _).
  - unfold csr_write_pmpcfg. destruct (_ <=? _); [done|]. by rewrite unpack_pmpaddrs_frame.
  - unfold csr_write_pmpaddr. destruct (_ <=? _); [done|]. destruct (has _ _); [done|].
    destruct (_ && _); [done|]. by rewrite unpack_pmpaddrs_frame.
Qed.

Lemma set_priv_frame s p : run_frame (set_priv s p) = run_frame s.
Proof. unfold set_priv. by destruct (negb _). Qed.

Lemma upd_pc_frame s v : run_frame (s <| pc := v |>) = run_frame s.
Proof. done. Qed.

Lemma trap_return_frame s :
  run_frame (handle_sret s) = run_frame s /\ run_frame (handle_mret s) = run_frame s /\
  run_frame (handle_dret s) = run_frame s.
Proof.
  unfold handle_sret, handle_mret, handle_dret. cbv zeta.
  by rewrite !upd_pc_frame, !set_priv_frame.
Qed.

Lemma run_frame_pending s s' : run_frame s' = run_frame s -> pending_exception s' = pending_exception s.
Proof. intros E. exact (f_equal (fun x => x.1.1.1) E). Qed.

Section Memory.
Context {G : Geometry} {D : Type} {dv : Devices D} {sd : SafeDevices D}.
Abbreviation machine := (RISCVMachine D).

Lemma get_pending_same s t_mctl addr b s' :
  cpu_ok s -> fits 64 addr -> check_triggers s t_mctl addr = (b, s') ->
  cpu_ok s' /\ (b = false -> s' = s) /\
  (pending_exception s' = pending_exception s \/ pending_exception s' = CAUSE_BREAKPOINT).
Proof.
  intros H Ha. unfold check_triggers. destruct (debug_mode s); [intros [= <- <-]; auto|].
  change (Z.to_nat MAX_TRIGGERS) with 1%nat. cbn [trigger_loop].
  destruct (_ && _); [|intros [= <- <-]; auto]. destruct (_ && _); intros [= <- <-].
  - split; [|split; [done|by left]]. unfold riscv_set_debug_mode. cpu_ok_split H. vm_decide.
  - split; [|split; [done|by right]]. cpu_ok_split H.
Qed.

Lemma track_dread_idle {p} (m : machine) va pa data size t : (idle_at p) m -> (idle_at p) (track_dread m va pa data size t).
Proof.
  intros H. unfold track_dread. cbv zeta.
  assert ((idle_at p) (m <| cpu ::= fun s => s <| last_data_paddr := pa |> <| last_data_vaddr := va |>
     <| last_data_size := track_size m size |> <| last_data_type := 0 |> |>)) as H1.
  { apply idle_upd; [frame_update|done]. }
  destruct (_ && _); [|done]. destruct (_ && _); [|done]. apply idle_upd; [frame_update|done].
Qed.

Lemma track_write_idle (m : machine) va pa data size t : idle m -> idle (track_write m va pa data size t).
Proof.
  intros H. unfold track_write. cbv zeta.
  assert (idle (m <| cpu ::= fun s => s <| last_data_paddr := pa |> <| last_data_vaddr := va |>
     <| last_data_size := track_size m size |> <| last_data_type := 1 |> |>)) as H1.
  { apply idle_upd; [frame_update|done]. }
  destruct (_ && _); [|done]. destruct (_ <=? _); [|done]. apply idle_upd; [frame_update|done].
Qed.

Lemma phys_read_idle {p} n (m : machine) a : (idle_at p) m -> (idle_at p) (riscv_phys_read n m a).2.
Proof.
  intros H. unfold riscv_phys_read. destruct (get_phys_mem_range_pmp _ _ _ _) as [|[[]|]]; [done| |done].
  by apply track_dread_idle.
Qed.

Lemma walk_idle {p} (m : machine) pr va access base j k : (idle_at p) m -> (idle_at p) (walk m pr va access base j k).2.
Proof.
  revert m base j. induction k as [|k IH]; intros m base j H; [done|]. cbn [walk]. cbv zeta.
  pose proof (phys_read_idle 3 m (u64 (base + (((va >> (PG_SHIFT + 9 * j)) .& 511) << 3))) H) as H1.
  destruct (riscv_phys_read _ _ _) as [[pte|] m']; [|done].
  destruct (negb _); [done|]. destruct (nz _); [by destruct (leaf_ok _ _ _ _ _)|by apply IH].
Qed.

Lemma get_phys_addr_idle {p} (m : machine) va access : (idle_at p) m -> (idle_at p) (riscv_cpu_get_phys_addr m va access).2.
Proof.
  intros H. unfold riscv_cpu_get_phys_addr. cbv zeta. destruct (_ =? _); [done|].
  destruct (_ =? 0); [done|]. destruct (negb _); [done|]. by apply walk_idle.
Qed.

Lemma fail_with_safe {p} {A} k cause tval (V : A -> Prop) :
  0 <= cause <= k -> fits 64 tval -> safe (idle_at p) (fun _ => stopped k) V (fail_with (D := D) cause tval).
Proof. intros Hc Ht m H. unfold fail_with, bind, set_pending, mods, throw, wp. by eapply stop_upd. Qed.

Lemma fill_tlb_ok (t : list TLBEntry) a e : length t = 256%nat -> length (aset t a e) = 256%nat.
Proof. by rewrite length_aset. Qed.

Ltac fill_update :=
  let s := fresh "s" in let Hs := fresh "Hs" in
  intros s Hs; split; [destruct (ok_tlb s Hs) as (? & ? & ?); cpu_ok_split Hs; rewrite ?length_aset; auto|done].

Lemma device_read_safe pr paddr n k : safe idle (fun _ => stopped k) whatever (device_read (dv := dv) pr paddr n).
Proof.
  intros m H. unfold device_read, wp. cbv zeta. destruct (nz _).
  - pose proof (dev_read_safe _ (opaque pr) (u32 (u64 (paddr - pr_addr pr))) n m H) as H1.
    by destruct (dev_read _ _ _ m).
  - destruct (_ && _); [|done].
    pose proof (dev_read_safe _ (opaque pr) (u32 (u64 (paddr - pr_addr pr))) 2 m H) as H1.
    destruct (dev_read _ _ _ m) as [lo m1].
    pose proof (dev_read_safe _ (opaque pr) (u32 (u64 (paddr - pr_addr pr) + 4)) 2 m1 H1) as H2.
    by destruct (dev_read _ _ _ m1).
Qed.

Lemma device_write_idle pr paddr v n (m : machine) : idle m -> idle (device_write pr paddr v n m).
Proof.
  intros H. unfold device_write. cbv zeta. destruct (nz _); [by apply dev_write_safe|].
  destruct (_ && _); [|done]. by apply dev_write_safe, dev_write_safe.
Qed.

Lemma read_mapped_safe addr paddr n pr k :
  safe idle (fun _ => stopped k) whatever (read_mapped (dv := dv) addr paddr n pr).
Proof.
  unfold read_mapped. destruct pr as [[i pr]|]; [|by apply safe_ret].
  destruct (is_ram pr); [|apply device_read_safe].
  eapply safe_bind; [apply safe_mods; intros m; apply idle_upd; unfold fill_tlb_read; fill_update|].
  intros _ _. eapply safe_bind; [apply safe_getm|]. intros. by apply safe_ret.
Qed.

Lemma read_memory_safe addr n :
  fits 64 addr -> safe idle (fun _ => stopped 13) whatever (riscv_cpu_read_memory (dv := dv) addr n).
Proof.
  intros Ha. unfold riscv_cpu_read_memory.
  destruct (unaligned addr n); [apply fail_with_safe; [done|done]|]. intros m H. unfold wp at 1.
  pose proof (get_phys_addr_idle m addr ACCESS_READ H) as H1.
  destruct (riscv_cpu_get_phys_addr m addr ACCESS_READ) as [[paddr| |] m1]; cbn [snd] in H1.
  - destruct (get_phys_mem_range_pmp _ _ _ _) as [[]|pr].
    + by hnf; eapply stop_upd.
    + revert m1 H1. apply (safe_bind _ _ whatever); [apply read_mapped_safe|]. intros v _.
      apply (safe_bind _ _ whatever); [|intros; by apply safe_ret].
      apply safe_modm. intros. by apply track_dread_idle.
  - by hnf; eapply stop_upd.
  - by hnf; eapply stop_upd.
Qed.

Lemma triggered_stopped (m : machine) t_mctl addr s' :
  idle m -> fits 64 addr -> check_triggers (cpu m) t_mctl addr = (true, s') ->
  stopped 13 (m <| cpu := s' |>).
Proof.
  intros [] Ha E. apply get_pending_same in E as (H1 & _ & H2); [|done|done].
  split; mach_simpl; [done|done|]. rewrite idle_pending0 in H2. unfold CAUSE_BREAKPOINT in H2. lia.
Qed.

Lemma target_read_safe addr n :
  fits 64 addr -> safe idle (fun _ => stopped 13) whatever (target_read (dv := dv) addr n).
Proof.
  intros Ha m H. unfold target_read, wp.
  destruct (check_triggers _ _ _) as [[|] s'] eqn:E; [by eapply triggered_stopped|].
  destruct (unaligned addr n); [by hnf; eapply stop_upd|].
  cbv zeta. destruct (_ =? _).
  - split; [done|]. by apply track_dread_idle.
  - revert m H E. clear - Ha sd. intros m H _. revert m H. apply (safe_bind _ _ whatever).
    + by apply read_memory_safe.
    + intros. by apply safe_ret.
Qed.

Lemma store_idle (m : machine) p n v : idle m -> idle (bump_memseqno (store_host m p n v)).
Proof. intros []. split; mach_simpl; [cpu_ok_split idle_cpu0|done|done]. Qed.

Lemma write_mapped_idle addr paddr v n pr (m : machine) :
  idle m -> idle (write_mapped addr paddr v n pr m).
Proof.
  intros H. unfold write_mapped. destruct pr as [[i pr]|]; [|done].
  destruct (is_ram pr); [|by apply device_write_idle]. cbv zeta. apply store_idle.
  apply idle_upd; [unfold fill_tlb_write; fill_update|]. by destruct H.
Qed.

Lemma write_memory_safe addr v n :
  fits 64 addr -> safe idle (fun _ => stopped 15) whatever (riscv_cpu_write_memory (dv := dv) addr v n).
Proof.
  intros Ha. unfold riscv_cpu_write_memory.
  destruct (unaligned addr n); [apply fail_with_safe; [done|done]|]. intros m H. unfold wp.
  pose proof (get_phys_addr_idle m addr ACCESS_WRITE H) as H1.
  destruct (riscv_cpu_get_phys_addr m addr ACCESS_WRITE) as [[paddr| |] m1]; cbn [snd] in H1.
  - destruct (get_phys_mem_range_pmp _ _ _ _) as [[]|pr].
    + by hnf; eapply stop_upd.
    + split; [done|]. by apply track_write_idle, write_mapped_idle.
  - by hnf; eapply stop_upd.
  - by hnf; eapply stop_upd.
Qed.

Lemma target_write_safe addr v n :
  fits 64 addr -> safe idle (fun _ => stopped 15) whatever (target_write (dv := dv) addr v n).
Proof.
  intros Ha m H. unfold target_write, wp.
  destruct (check_triggers _ _ _) as [[|] s'] eqn:E.
  { eapply stopped_mono; [|by eapply triggered_stopped]. done. }
  destruct (unaligned addr n); [by hnf; eapply stop_upd|].
  cbv zeta. destruct (_ =? _).
  - split; [done|]. by apply track_write_idle, store_idle.
  - by apply write_memory_safe.
Qed.

(** ** Fetch *)

Lemma fetch_ptr_safe {p} addr size tval :
  fits 64 tval -> safe (idle_at p) (fun _ => stopped 15) whatever (fetch_ptr (D := D) addr size tval).
Proof.
  intros Ht m H. unfold fetch_ptr, wp.
  pose proof (get_phys_addr_idle m addr ACCESS_CODE H) as H1.
  destruct (riscv_cpu_get_phys_addr m addr ACCESS_CODE) as [[paddr| |] m1]; cbn [snd] in H1.
  - destruct (get_phys_mem_range_pmp _ _ _ _) as [[]|[[i pr]|]]; [| |].
    + by hnf; eapply stop_upd.
    + destruct (is_ram pr); [done|].
      by hnf; eapply stop_upd.
    + by hnf; eapply stop_upd.
  - by hnf; eapply stop_upd.
  - by hnf; eapply stop_upd.
Qed.

Lemma read_insn_slow_safe {p} size addr :
  fits 64 addr -> safe (idle_at p) (fun _ => stopped 15) whatever (target_read_insn_slow (D := D) size addr).
Proof.
  intros Ha. unfold target_read_insn_slow.
  apply (safe_bind _ _ whatever); [by apply fetch_ptr_safe|]. intros [paddr ptr] _.
  eapply safe_bind; [apply safe_getm|]. intros m0 _.
  apply (safe_bind _ _ whatever).
  { destruct (riscv_cpu_pmp_access_ok _ _ _ _); [|by apply safe_ret].
    apply safe_mods. intros m. apply idle_upd. unfold fill_tlb_code. fill_update. }
  intros _ _. destruct (_ && _).
  - apply (safe_bind _ _ whatever); [by apply fetch_ptr_safe|]. intros [q1 q2] _.
    eapply safe_bind; [apply safe_getm|]. intros. by apply safe_ret.
  - eapply safe_bind; [apply safe_getm|]. intros. by apply safe_ret.
Qed.

Lemma read_insn_u16_safe addr :
  fits 64 addr -> safe idle (fun _ => stopped 15) whatever (target_read_insn_u16 (D := D) addr).
Proof.
  intros Ha m H. unfold target_read_insn_u16, wp. cbv zeta. destruct (_ =? _); [done|].
  revert m H. apply (safe_bind _ _ whatever); [by apply read_insn_slow_safe|]. intros. by apply safe_ret.
Qed.
End Memory.

Lemma irq_num_range mask : fits 32 mask -> mask <> 0 -> 0 <= get_irq_num mask < 32.
Proof.
  intros Hm Hz. destruct (get_irq_num_first mask Hm Hz) as (pre & suf & E & _).
  assert (Forall (fun j => 0 <= j < 32) irq_order) as H by vm_decide.
  rewrite E in H. apply Forall_app in H as [_ H]. by inversion H.
Qed.

Lemma trap_frame s cause tval : run_frame (raise_exception2 s cause tval) = run_frame s.
Proof.
  unfold raise_exception2. destruct (delegated s cause); cbv zeta; rewrite upd_pc_frame;
    unfold trap_to_s, trap_to_m; cbv zeta; by rewrite set_priv_frame.
Qed.

Lemma raise_interrupt_ok s s' :
  raise_interrupt s = Some s' -> cpu_ok s -> cpu_ok s' /\ run_frame s' = run_frame s.
Proof.
  unfold raise_interrupt, raise_exception. cbv zeta. intros E H.
  destruct (Z.eqb_spec (get_pending_irq_mask s) 0) as [|Hz]; [done|]. injection E as <-.
  split; [|apply trap_frame]. apply raise_exception2_ok; [done|].
  pose proof (irq_num_range _ (get_pending_irq_mask_fits s H) Hz) as Hr.
  apply fits_lor; [lia| |vm_decide]. unfold fits. lia.
Qed.

(** ** Instructions *)

Section Exec.
Context {G : Geometry} {D : Type} {dv : Devices D} {sd : SafeDevices D}.
Abbreviation ok := (safe (D := D) (E := exit) idle (fun _ => stopped 15)).

Lemma mods_ok f :
  (forall s, cpu_ok s -> cpu_ok (f s) /\ pending_exception (f s) = pending_exception s) ->
  ok whatever (mods f).
Proof. intros Hf. apply safe_mods. intros m. by apply idle_upd. Qed.

Lemma log_ok (b : RISCVMachine D -> bool) f m :
  (forall s, cpu_ok s -> cpu_ok (f s) /\ pending_exception (f s) = pending_exception s) ->
  ok whatever (if b m then mods f else ret tt).
Proof. intros Hf. destruct (b m); [by apply mods_ok|by apply safe_ret]. Qed.

Lemma read_reg_ok x : ok (fits 64) (read_reg x).
Proof.
  eapply safe_bind; [apply safe_getm|]. intros m0 _. eapply safe_bind; [apply log_ok; frame_update|].
  intros _ _. apply safe_gets. intros m H. apply fits_aget; [lia|]. apply H.
Qed.

Lemma write_reg_ok x v : 0 < x -> ok whatever (write_reg x v).
Proof.
  intros Hx. eapply safe_bind; [apply safe_getm|]. intros m0 _.
  eapply safe_bind; [apply log_ok; frame_update|]. intros _ _. apply mods_ok.
  intros s H. split; [|done]. cpu_ok_split H.
  - by rewrite length_aset.
  - apply Forall_aset; [done|width].
  - by rewrite aget_aset_ne by lia.
Qed.

Lemma write_rd_ok rd v : 0 <= rd -> ok whatever (write_rd rd v).
Proof.
  intros. unfold write_rd, nz. destruct (Z.eqb_spec rd 0); cbn [negb]; [by apply safe_ret|].
  apply write_reg_ok. lia.
Qed.

Lemma read_fp_reg_ok x : ok (fits 64) (read_fp_reg x).
Proof.
  eapply safe_bind; [apply safe_getm|]. intros m0 _. eapply safe_bind; [apply log_ok; frame_update|].
  intros _ _. apply safe_gets. intros m H. apply fits_aget; [lia|]. apply H.
Qed.

Lemma write_fp_reg_ok x v : ok whatever (write_fp_reg x v).
Proof.
  eapply safe_bind; [apply safe_getm|]. intros m0 _.
  eapply safe_bind; [apply log_ok; frame_update|]. intros _ _. apply mods_ok.
  intros s H. split; [|done]. cpu_ok_split H.
  - by rewrite length_aset.
  - apply Forall_aset; [done|width].
  - vm_decide.
Qed.

Lemma load_ok addr n : fits 64 addr -> ok whatever (load addr n).
Proof.
  intros. eapply safe_catch; [by apply target_read_safe|]. intros e m. by apply stopped_mono.
Qed.

Lemma store_ok addr v n : fits 64 addr -> ok whatever (store addr v n).
Proof. intros. eapply safe_catch; [by apply target_write_safe|]. done. Qed.

Lemma illegal_ok {A} (V : A -> Prop) : ok V illegal.
Proof. apply safe_throw. intros m. by apply idle_stopped. Qed.

Lemma raise_ok cause tval V : 0 <= cause <= 15 -> fits 64 tval -> ok V (raise cause tval).
Proof.
  intros Hc Ht m []. hnf. split; mach_simpl; [|done|cpu_simpl; lia].
  revert idle_cpu0. generalize (cpu m). intros s H. cpu_ok_split H.
Qed.

Lemma need_fs_ok : ok whatever need_fs.
Proof.
  eapply (safe_bind _ _ whatever); [by apply safe_gets|]. intros f _.
  destruct (f =? 0); [apply illegal_ok|by apply safe_ret].
Qed.

Lemma jump_insn_ok kind : ok whatever (jump_insn kind).
Proof. eapply safe_bind; [apply mods_ok; frame_update|]. intros. by apply safe_ret. Qed.

Lemma set_pc_ok v : ok whatever (set_pc v).
Proof. apply mods_ok. intros s H. split; [|done]. apply upd_pc_ok; [done|width]. Qed.

Lemma gets_ok {A} (f : RISCVCPUState -> A) : ok whatever (gets f).
Proof. by apply safe_gets. Qed.

Lemma getm_ok : ok whatever getm.
Proof. eapply safe_weaken, safe_getm. Qed.

Lemma defined_ok {A} (o : option A) : ok whatever (defined o).
Proof. destruct o; [by apply safe_ret|]. apply safe_throw. intros m. by apply idle_stopped. Qed.

Lemma rd_of_nonneg insn : 0 <= rd_of insn.
Proof. unfold rd_of. apply Z.land_nonneg. lia. Qed.

Lemma reg8_pos x : 0 < (x .& 7) .| 8.
Proof.
  assert (0 <= (x .& 7) .| 8) as H by (apply Z.lor_nonneg; split; [apply Z.land_nonneg|]; lia).
  destruct (Z.eq_dec ((x .& 7) .| 8) 0) as [E|]; [|lia]. by apply Z.lor_eq_0_iff in E as [_ E].
Qed.

(** [if (rd != 0) write_reg(rd, ...)] written out. *)
Lemma rd_pos insn : nz (rd_of insn) = true -> 0 < rd_of insn.
Proof.
  unfold nz. pose proof (rd_of_nonneg insn). destruct (Z.eqb_spec (rd_of insn) 0); [done|lia].
Qed.

Lemma rd_pos' insn : (rd_of insn =? 0) = false -> 0 < rd_of insn.
Proof. intros E. apply rd_pos. unfold nz. by rewrite E. Qed.

Lemma rd_is_2 insn : (rd_of insn =? 2) = true -> 0 < rd_of insn.
Proof. intros E%Z.eqb_eq. lia. Qed.
End Exec.

(** One step of the safety proof of an instruction. *)
Ltac ok_step :=
  lazymatch goal with
  | |- safe _ _ _ (bind (read_reg _) _) => eapply safe_bind; [apply read_reg_ok|intros ? ?]
  | |- safe _ _ _ (bind _ _) => apply (safe_bind _ _ whatever); [|intros ? _]
  | |- safe _ _ _ (if ?b then _ else _) => destruct b eqn:?
  | |- safe _ _ _ (ret _) => apply safe_ret; done
  | |- safe _ _ _ (read_reg _) => eapply safe_weaken, read_reg_ok
  | |- safe _ _ _ (read_fp_reg _) => eapply safe_weaken, read_fp_reg_ok
  | |- safe _ _ _ (write_reg (_ .| 8) _) => apply write_reg_ok, reg8_pos
  | |- safe _ _ _ (write_reg (Zpos _) _) => apply write_reg_ok; lia
  | |- safe _ _ _ (write_rd (rd_of _) _) => apply write_rd_ok, rd_of_nonneg
  | |- safe _ _ _ (write_fp_reg _ _) => apply write_fp_reg_ok
  | |- safe _ _ _ (load _ _) => apply load_ok; first [assumption|width]
  | |- safe _ _ _ (store _ _ _) => apply store_ok; first [assumption|width]
  | |- safe _ _ _ illegal => apply illegal_ok
  | |- safe _ _ _ (raise _ _) => apply raise_ok; [vm_decide|first [assumption|vm_decide]]
  | |- safe _ _ _ need_fs => apply need_fs_ok
  | |- safe _ _ _ (jump_insn _) => apply jump_insn_ok
  | |- safe _ _ _ (set_pc _) => apply set_pc_ok
  | |- safe _ _ _ (gets _) => apply gets_ok
  | |- safe _ _ _ getm => apply getm_ok
  | |- safe _ _ _ (defined _) => apply defined_ok
  end.
Ltac ok_go := cbv zeta; repeat ok_step.

Ltac ok_rd :=
  apply write_reg_ok; first [by apply rd_pos|by apply rd_pos'|by apply rd_is_2].
