(* ===== verification/SafeFp.v ===== *)
(** * Safety of the floating-point instructions

    The soft-float operations only add flags to [fflags], and the instructions built on
    them keep the hart well formed. *)

From S2P Require Import Prelude Iomem Cpu Pmp Csr Trap Machine Mmu Alu Softfp Insn Fp SafeInsn.

(** ** The flags stay within their register *)

Definition keeps_flags {A} (f : Z -> A * Z) : Prop := forall fl, fits 32 fl -> fits 32 (f fl).2.

Lemma raise_flags fl b k : fits 32 fl -> fits 32 k -> fits 32 (raise_if b k fl).
Proof. intros. unfold raise_if. destruct b; [apply fits_lor; [lia|done..]|done]. Qed.

Lemma flag_lor fl k : fits 32 fl -> fits 32 k -> fits 32 (fl .| k).
Proof. intros. apply fits_lor; [lia|done..]. Qed.

Lemma flags_fit :
  fits 32 FFLAG_INVALID_OP /\ fits 32 FFLAG_DIVIDE_ZERO /\ fits 32 FFLAG_UNDERFLOW /\ fits 32 FFLAG_INEXACT /\
  fits 32 (FFLAG_OVERFLOW .| FFLAG_INEXACT).
Proof. split_and!; vm_decide. Qed.

(** Decides the flags of an operation by its branches. *)
Ltac flags :=
  intros;
  repeat first
    [ progress cbn [snd fst]
    | assumption
    | apply raise_flags | apply flag_lor
    | match goal with |- fits 32 (let '(_, _) := ?x in _).2 => destruct x end
    | match goal with |- fits 32 (if ?b then _ else _).2 => destruct b end
    | match goal with |- fits 32 (if ?b then _ else _) => destruct b end
    | apply flags_fit ].

Section Flags.
Context {fmt : Format}.

Lemma round_pack_flags s e m rm : keeps_flags (round_pack_sf s e m rm).
Proof.
  intros fl Hfl. unfold round_pack_sf. cbv zeta.
  match goal with |- context [let '(_, _) := ?x in _] => assert (fits 32 x.2) as Hx; [|destruct x as [[e' m'] fl']] end; flags.
Qed.

Lemma normalize_flags s e m rm : keeps_flags (normalize_sf s e m rm).
Proof. intros fl Hfl. by apply round_pack_flags. Qed.

Lemma normalize2_flags s e m1 m0 rm : keeps_flags (normalize2_sf s e m1 m0 rm).
Proof. intros fl Hfl. by apply round_pack_flags. Qed.

Ltac fp_flags := unfold keeps_flags; intros; cbv zeta; flags; try (by apply normalize_flags); try (by apply normalize2_flags).

Lemma add_finite_flags sa ea ma sb eb mb rm : keeps_flags (add_finite sa ea ma sb eb mb rm).
Proof. unfold add_finite. fp_flags. Qed.

Lemma add_flags a b rm : keeps_flags (add_sf a b rm).
Proof. unfold add_sf. fp_flags. by apply add_finite_flags. Qed.

Lemma sub_flags a b rm : keeps_flags (sub_sf a b rm).
Proof. apply add_flags. Qed.

Lemma mul_flags a b rm : keeps_flags (mul_sf a b rm).
Proof. unfold mul_sf. fp_flags. Qed.

Lemma div_flags a b rm : keeps_flags (div_sf a b rm).
Proof. unfold div_sf. fp_flags. Qed.

Lemma fma_add_flags rs re r1 r0 cs ce c1 c0 rm : keeps_flags (fma_add rs re r1 r0 cs ce c1 c0 rm).
Proof. unfold fma_add. fp_flags. Qed.

Lemma fma_finite_flags rs ea ma eb mb cs ce cm rm : keeps_flags (fma_finite rs ea ma eb mb cs ce cm rm).
Proof. unfold fma_finite. fp_flags; by apply fma_add_flags. Qed.

Lemma fma_flags a b c rm : keeps_flags (fma_sf a b c rm).
Proof. unfold fma_sf. fp_flags. by apply fma_finite_flags. Qed.

Lemma sqrt_flags a rm fl : fits 32 fl -> match sqrt_sf a rm fl with Some p => fits 32 p.2 | None => True end.
Proof.
  intros Hfl. unfold sqrt_sf. cbv zeta. destruct (_ =? EXP_MASK); [destruct (nz (mant_sf a)), (nz (sign_sf a)); flags|].
  destruct (nz _); [destruct (_ && _); flags|]. destruct (_ && _); [flags|]. destruct (norm_mant _ _). cbv zeta. destruct (if has _ _ then _ else _).
  destruct (sqrtrem_u _ _) as [[? ?]|]; [|done]. by apply normalize_flags.
Qed.

Lemma min_flags a b : keeps_flags (min_sf a b).
Proof. unfold min_sf. fp_flags. Qed.

Lemma max_flags a b : keeps_flags (max_sf a b).
Proof. unfold max_sf. fp_flags. Qed.

Lemma compare_flags a b : keeps_flags (le_sf a b) /\ keeps_flags (lt_sf a b) /\ keeps_flags (eq_quiet_sf a b).
Proof. split_and!; [unfold le_sf|unfold lt_sf|unfold eq_quiet_sf]; fp_flags. Qed.

Lemma internal_to_int_flags n a rm u : keeps_flags (fun fl => internal_cvt_sf_i n a rm fl u).
Proof. unfold internal_cvt_sf_i. fp_flags. Qed.

Lemma to_int_flags n a rm : keeps_flags (cvt_sf_i n a rm) /\ keeps_flags (cvt_sf_u n a rm).
Proof.
  split; intros fl Hfl; [by apply internal_to_int_flags|]. unfold cvt_sf_u.
  pose proof (internal_to_int_flags n a rm true fl Hfl) as H. cbv beta in H. by destruct (internal_cvt_sf_i _ _ _ _ _).
Qed.

Lemma from_int_flags n a rm : keeps_flags (cvt_i_sf n a rm) /\ keeps_flags (cvt_u_sf n a rm).
Proof. unfold cvt_i_sf, cvt_u_sf, internal_cvt_i_sf. split; fp_flags. Qed.
End Flags.

Lemma widen_flags src dst a : keeps_flags (cvt_widen src dst a).
Proof. unfold cvt_widen. intros ? ?. cbv zeta. flags. Qed.

Lemma narrow_flags src dst a rm : keeps_flags (cvt_narrow src dst a rm).
Proof. unfold cvt_narrow. intros ? ?. cbv zeta. flags; by apply normalize_flags. Qed.

(** ** The instructions *)

Section FpOk.
Context {G : Geometry} {D : Type} {dv : Devices D} {sd : SafeDevices D}.
Abbreviation ok := (safe (D := D) (E := exit) idle (fun _ => stopped 15)).

Lemma softfp_ok {A} (f : Z -> A * Z) : keeps_flags f -> ok whatever (softfp f).
Proof.
  intros Hf. eapply (safe_bind _ _ (fits 32)); [apply safe_gets; intros m H; apply H|]. intros fl Hfl.
  pose proof (Hf fl Hfl) as Hr. destruct (f fl) as [r fl']. eapply safe_bind; [|intros; by apply safe_ret].
  apply mods_ok. intros s H. split; [|done]. cpu_ok_split H.
Qed.

Lemma set_fs_ok : ok whatever set_fs.
Proof. apply mods_ok. intros s H. split; [|done]. cpu_ok_split H. vm_decide. Qed.

Lemma insn_rm_ok rm : ok whatever (insn_rm rm).
Proof. unfold insn_rm. ok_go. Qed.

Ltac fp_step :=
  lazymatch goal with
  | |- safe _ _ _ set_fs => apply set_fs_ok
  | |- safe _ _ _ (insn_rm _) => apply insn_rm_ok
  | |- safe _ _ _ (softfp (if ?b then _ else _)) => destruct b
  | |- safe _ _ _ (softfp ((if ?b then _ else _) _ _)) => destruct b
  | |- safe _ _ _ (softfp _) =>
      apply softfp_ok;
      first [ assumption | apply add_flags | apply sub_flags | apply mul_flags | apply div_flags | apply fma_flags | apply min_flags
            | apply max_flags | apply compare_flags | apply to_int_flags | apply from_int_flags
            | apply widen_flags | apply narrow_flags ]
  | |- safe _ _ _ (write_rd _ _) => apply write_rd_ok; (assumption || apply rd_of_nonneg)
  | _ => ok_step
  end.
Ltac fp_go := unfold write_boxed, read_unboxed; cbv zeta; repeat fp_step.

Section Template.
Context {fmt : Format} (rd rs1 rs2 rm : Z) (rd_ok : 0 <= rd).

Lemma fp_arith_ok op : (forall a b rm, keeps_flags (op a b rm)) -> ok whatever (fp_arith op rd rs1 rs2 rm).
Proof. intros Hop. unfold fp_arith. fp_go. apply softfp_ok, Hop. Qed.

Lemma fp_sqrt_ok : ok whatever (fp_sqrt rd rs1 rs2 rm).
Proof.
  unfold fp_sqrt. fp_step; [fp_go|]. fp_step; [fp_go|]. fp_step; [fp_go|].
  eapply (safe_bind _ _ (fits 32)); [apply safe_gets; intros m H; apply H|]. intros fl Hfl.
  pose proof (sqrt_flags (F_UINT a0) a fl Hfl) as Hs. destruct (sqrt_sf _ _ _) as [[r fl']|].
  2: { eapply (safe_bind _ _ (fun _ => False)); [apply safe_throw; intros m; by apply idle_stopped|done]. }
  cbn [defined]. eapply (safe_bind _ _ (eq (r, fl'))); [by apply safe_ret|]. intros ? <-. fp_step.
  - apply mods_ok. intros s H. split; [|done]. cpu_ok_split H.
  - fp_go.
Qed.

Lemma fp_template_ok op : ok whatever (fp_template op rd rs1 rs2 rm).
Proof.
  unfold fp_template. repeat (destruct (_ =? _);
    [first [apply fp_arith_ok; intros; first [apply add_flags|apply sub_flags|apply mul_flags|apply div_flags]
           | apply fp_sqrt_ok
           | unfold fp_sgnj, fp_minmax, fp_to_int, fp_compare, fp_from_int, fp_convert, fp_move_x, fp_move_f; fp_go ]|]).
  apply illegal_ok.
Qed.
End Template.

Lemma fp_fma_ok np na insn : ok whatever (fp_fma np na insn).
Proof. unfold fp_fma. fp_go. Qed.

Lemma exec_fp_ok insn : ok whatever (exec_fp insn).
Proof.
  unfold exec_fp. cbv zeta. repeat (destruct (_ =? _); [apply fp_fma_ok|]).
  unfold exec_op_fp. ok_go; apply fp_template_ok, rd_of_nonneg.
Qed.
End FpOk.
