(* ===== verification/SafeVec.v ===== *)
(** * Safety of the vector instructions

    The vector registers keep their shape, and an access that faults leaves the hart
    stopped on its exception, unless a fault-only-first load has cleared it. *)

From S2P Require Import Prelude Iomem Cpu Pmp Csr Trap Machine Mmu Alu Insn Vector SafeInsn.

Lemma v_set_byte_ok off v s : cpu_ok s -> cpu_ok (v_set_byte off v s).
Proof.
  intros H. unfold v_set_byte. cpu_ok_split H; [by rewrite length_aset|].
  destruct (decide (Z.to_nat (off / VREG_BYTES) < 32)%nat) as [Hi|Hi].
  - apply Forall_aset; [done|]. unfold aget.
    rewrite Forall_forall in ok_v_reg. destruct (ok_v_reg (nth (Z.to_nat (off / VREG_BYTES)) (v_reg s) [])) as [H1 H2].
    { apply list_elem_of_In, nth_In. lia. }
    rewrite length_aset. split; [done|]. apply Forall_aset; [done|width].
  - unfold aset at 1. rewrite list_insert_ge by lia. done.
Qed.

Lemma v_set_ok n off v s : cpu_ok s -> cpu_ok (v_set n off v s) /\ pending_exception (v_set n off v s) = pending_exception s.
Proof.
  revert off v s. induction n as [|n IH]; intros off v s H; [done|]. cbn [v_set].
  destruct (IH (off + 1) (v >> 8) (v_set_byte off v s)) as [H1 H2]; [by apply v_set_byte_ok|]. by rewrite H2.
Qed.

Lemma get_vlmax_fits s : fits 64 (get_vlmax s).
Proof.
  unfold get_vlmax, get_sew. cbv zeta.
  assert (forall x, 0 <= x .& 7 < 8) as H7.
  { intros x. change 7 with (Z.ones 3). rewrite Z.land_ones by lia. apply Z.mod_pos_bound. lia. }
  pose proof (H7 (vtype s)) as H1. pose proof (H7 (vtype s >> SEW_SHIFT)) as H2. revert H1 H2.
  unfold LMUL_MASK, SEW_MASK. generalize (vtype s .& 7), ((vtype s >> SEW_SHIFT) .& 7). intros l w Hl Hw.
  assert (l = 0 \/ l = 1 \/ l = 2 \/ l = 3 \/ l = 4 \/ l = 5 \/ l = 6 \/ l = 7) as Hl' by lia.
  assert (w = 0 \/ w = 1 \/ w = 2 \/ w = 3 \/ w = 4 \/ w = 5 \/ w = 6 \/ w = 7) as Hw' by lia.
  clear Hl Hw. destruct_or! Hl'; destruct_or! Hw'; subst; vm_decide.
Qed.

Section VecOk.
Context {G : Geometry} {D : Type} {dv : Devices D} {sd : SafeDevices D}.
Abbreviation X := (M (D := D) exit).
Abbreviation ok := (safe (D := D) (E := exit) idle (fun _ => stopped 15)).

(** From a hart between two instructions, [x] ends as [S] says, or leaves early. *)
Definition leads {A} (S : A -> RISCVMachine D -> Prop) (x : X A) : Prop :=
  forall m, idle m -> wp x S (fun _ => stopped 15) m.

Lemma leads_ret {A} (S : A -> RISCVMachine D -> Prop) a : (forall m, idle m -> S a m) -> leads S (ret a).
Proof. intros H m Hm. by apply H. Qed.

Lemma leads_bind {A B} (S : A -> RISCVMachine D -> Prop) (T : B -> RISCVMachine D -> Prop) (x : X A) f :
  leads S x -> (forall a m, S a m -> wp (f a) T (fun _ => stopped 15) m) -> leads T (bind x f).
Proof. intros Hx Hf m Hm. apply wp_bind. eapply wp_mono; [by apply Hx|exact Hf|done]. Qed.

Lemma leads_after {A B} V (T : B -> RISCVMachine D -> Prop) (x : X A) f :
  ok V x -> (forall a, V a -> leads T (f a)) -> leads T (bind x f).
Proof. intros Hx Hf. apply (leads_bind _ _ _ _ Hx). intros a m [Ha Hm]. by apply Hf. Qed.

Lemma leads_safe {A} (S : A -> RISCVMachine D -> Prop) V (x : X A) :
  ok V x -> (forall a m, idle m -> S a m) -> leads S x.
Proof. intros Hx HS m Hm. eapply wp_mono; [by apply Hx|intros a m' [_ H]; by apply HS|done]. Qed.

(** A fault leaves the hart stopped. *)
Definition faulting (fault : bool) (m : RISCVMachine D) : Prop := if fault then stopped 15 m else idle m.

(** 2: the hart is stopped; the other codes leave it between instructions. *)
Definition coded (code : Z) (m : RISCVMachine D) : Prop := if code =? 2 then stopped 15 m else idle m.

(** A loop goes on with local variables that satisfy [P], or returns a code. *)
Definition looping {A} (P : A -> Prop) (r : A + Z) (m : RISCVMachine D) : Prop :=
  match r with inl a => P a /\ idle m | inr code => coded code m end.

Lemma for_leads {A} (P : A -> Prop) n i step a body :
  P a -> (forall j b, P b -> leads (looping P) (body j b)) -> leads (looping P) (for_ n i step a body).
Proof.
  intros Ha Hb. revert i a Ha. induction n as [|n IH]; intros i a Ha; [by apply leads_ret|]. cbn [for_].
  eapply leads_bind; [by apply Hb|]. intros [b|c] m Hm; [by apply IH; apply Hm|exact Hm].
Qed.

Lemma for_ok {A R} n i step (a : A) (body : Z -> A -> X (A + R)) :
  (forall j b, ok whatever (body j b)) -> ok whatever (for_ n i step a body).
Proof.
  intros Hb. revert i a. induction n as [|n IH]; intros i a; [by apply safe_ret|]. cbn [for_].
  eapply (safe_bind _ _ whatever); [apply Hb|]. intros [b|c] _; [apply IH|by apply safe_ret].
Qed.

Lemma attempt_leads {E A} k (x : M (D := D) E A) :
  k <= 15 -> safe idle (fun _ => stopped k) whatever x ->
  leads (fun r => faulting (bool_decide (r = None))) (attempt x).
Proof.
  intros Hk Hx m Hm. specialize (Hx m Hm). unfold wp, attempt in *.
  destruct (x m) as [[e|a] m']; cbn; [by eapply stopped_mono|apply Hx].
Qed.

Lemma undefined_ok {A} (V : A -> Prop) : ok V (throw E_undefined).
Proof. apply safe_throw. intros m. by apply idle_stopped. Qed.

Lemma undefined_leads {A} (S : A -> RISCVMachine D -> Prop) : leads S (throw E_undefined).
Proof. intros m Hm. by apply idle_stopped. Qed.

Lemma v_read_ok w off : ok whatever (v_read w off).
Proof. unfold v_read. destruct (v_valid _ _); [apply gets_ok|apply undefined_ok]. Qed.

Lemma v_write_ok w off v : ok whatever (v_write w off v).
Proof. unfold v_write. destruct (v_valid _ _); [|apply undefined_ok]. apply mods_ok. intros. by apply v_set_ok. Qed.

Lemma v0_mask_ok : ok whatever v0_mask.
Proof. unfold v0_mask. repeat (apply v_read_ok || ok_step). Qed.

Lemma vstart_next_ok : ok whatever vstart_next.
Proof. apply mods_ok. intros s H. split; [|done]. cpu_ok_split H. width. Qed.

Lemma vstart_zero_ok : ok whatever (mods (fun s => s <| vstart := 0 |>)).
Proof. apply mods_ok. intros s H. split; [|done]. cpu_ok_split H. vm_decide. Qed.

Lemma mark_vreg_ok i : ok whatever (mark_vreg i).
Proof. unfold mark_vreg. destruct (_ && _); [apply mods_ok; frame_update|apply undefined_ok]. Qed.

Lemma v_apply_ok op vd vs2 vs1 : ok whatever (v_apply op vd vs2 vs1).
Proof.
  unfold v_apply, v_read_ptr. ok_step; [destruct vs1; [by apply safe_ret|apply v_read_ok]|].
  ok_step; [apply v_read_ok|]. ok_step; [apply defined_ok|]. apply v_write_ok.
Qed.

(** ** Loads and stores *)

Lemma v_load_leads w addr off : fits 64 addr -> leads faulting (v_load w addr off).
Proof.
  intros Ha. unfold v_load. eapply leads_bind; [apply (attempt_leads 13); [lia|by apply target_read_safe]|].
  intros [v|] m Hm; [|exact Hm]. eapply (leads_after whatever); [apply v_write_ok| |exact Hm].
  intros. by apply leads_ret.
Qed.

Lemma v_store_leads w addr off : fits 64 addr -> leads faulting (v_store w addr off).
Proof.
  intros Ha. unfold v_store. eapply (leads_after whatever); [apply v_read_ok|]. intros v _.
  eapply leads_bind; [apply (attempt_leads 15); [lia|by apply target_write_safe]|].
  by intros [u|] m Hm.
Qed.

Lemma vmem_access_leads ld w addr off : fits 64 addr -> leads faulting (vmem_access ld w addr off).
Proof.
  intros Ha. unfold vmem_access. destruct (is_eew w); [|apply undefined_leads].
  destruct ld; [by apply v_load_leads|by apply v_store_leads].
Qed.

Lemma vmem_active_ok insn : ok whatever (vmem_active insn).
Proof. unfold vmem_active. destruct (has _ _); [by apply safe_ret|apply v0_mask_ok]. Qed.

(** The exception of a fault-only-first load is dropped. *)
Lemma clear_fault (m : RISCVMachine D) :
  stopped 15 m ->
  idle (m <| cpu ::= fun s => s <| vl := vstart s |> <| pending_tval := 0 |> <| pending_exception := -1 |> <| vstart := 0 |> |>).
Proof.
  intros [Hc He _]. split; mach_simpl; [|done|done]. revert Hc. generalize (cpu m). intros s H. cpu_ok_split H; [vm_decide| |vm_decide].
  unfold fits in *. lia.
Qed.

Lemma vmem_segment_leads insn ld c w i j addr index :
  fits 64 addr -> leads (looping (fits 64)) (vmem_segment insn ld c w i j addr index).
Proof.
  intros Ha. unfold vmem_segment. apply for_leads; [done|]. intros k a Hk.
  destruct (vm_index c) as [[start size]|]; (eapply (leads_after whatever); [apply vmem_active_ok|]); intros act _.
  - destruct act; [|by apply leads_ret]. eapply (leads_after whatever); [apply v_read_ok|]. intros x _.
    eapply leads_bind; [apply vmem_access_leads; width|]. by intros [] m Hm.
  - eapply (leads_bind faulting); [destruct act; [by apply vmem_access_leads|by apply leads_ret]|].
    intros [] m Hm; [|split; [width|exact Hm]]. destruct (vm_fault_first c); [|exact Hm]. by apply clear_fault.
Qed.

Lemma vmem_register_leads insn ld c w size i index : leads (looping whatever) (vmem_register insn ld c w size i index).
Proof.
  unfold vmem_register. eapply (leads_after whatever); [apply gets_ok|]. intros vs _. cbv zeta.
  destruct (_ <? _); [|by apply leads_ret]. eapply leads_after; [apply read_reg_ok|]. intros a Ha.
  eapply (leads_after (fits 64)).
  { destruct (vm_index c); [by apply safe_ret|]. ok_step; [apply defined_ok|]. ok_step; [apply defined_ok|].
    apply safe_ret. width. }
  intros addr Haddr. eapply leads_bind; [apply (for_leads (fun p => fits 64 p.1))|].
  - done.
  - intros j [b x] Hb. eapply leads_bind; [by apply vmem_segment_leads|]. intros [a'|code] m Hm; [|exact Hm].
    destruct Hm as [H1 H2]. eapply (leads_after whatever); [apply vstart_next_ok| |exact H2]. intros. by apply leads_ret.
  - intros [[b x]|code] m Hm; [by split; [|apply Hm]|exact Hm].
Qed.

Lemma vmem_setup_ok insn eew ld : ok whatever (vmem_setup insn eew ld).
Proof. unfold vmem_setup. ok_go. Qed.

Lemma vmem_op_leads insn ld : leads coded (vmem_op insn ld).
Proof.
  unfold vmem_op. destruct (vmem_width insn) as [eew|]; [|by apply leads_ret].
  eapply (leads_after whatever); [apply vmem_setup_ok|]. intros [c|] _; [|by apply leads_ret]. cbv zeta.
  destruct (vmem_bad _ _ _); [by apply leads_ret|].
  eapply (leads_after whatever); [apply gets_ok|]. intros sew _.
  eapply (leads_after whatever); [apply gets_ok|]. intros vs _.
  eapply (leads_bind faulting).
  { destruct (_ && _); [|by apply leads_ret]. eapply leads_after; [apply read_reg_ok|]. intros a Ha.
    eapply leads_bind; [apply (attempt_leads 13); [lia|by apply target_read_safe]|].
    intros [v|] m Hm; [|exact Hm]. destruct (_ =? 8); [exact Hm|by apply undefined_leads]. }
  intros [] m Hm; [exact Hm|]. revert m Hm. eapply (leads_after whatever).
  { destruct ld; [|by apply safe_ret]. apply for_ok. intros i _. apply for_ok. intros j _.
    eapply (safe_bind _ _ whatever); [apply mark_vreg_ok|]. intros. by apply safe_ret. }
  intros _ _. eapply leads_bind; [apply (for_leads whatever); [done|]; intros; apply vmem_register_leads|].
  intros [x|code] m Hm; [|exact Hm]. destruct Hm as [_ Hm]. revert m Hm.
  eapply (leads_after whatever); [apply vstart_zero_ok|]. intros. by apply leads_ret.
Qed.

Lemma set_vill_ok : ok whatever (mods (fun s => s <| vtype := VILL |>)).
Proof. apply mods_ok. intros s H. split; [|done]. cpu_ok_split H. vm_decide. Qed.

Lemma exec_vmem_ok insn ld : ok whatever (exec_vmem insn ld).
Proof.
  unfold exec_vmem. ok_step; [apply gets_ok|]. ok_step; [apply illegal_ok|].
  eapply leads_bind; [apply vmem_op_leads|]. unfold coded. intros code m Hm.
  destruct (code =? 2); [exact Hm|]. revert m Hm. destruct (code =? 1); [|by apply safe_ret].
  eapply (safe_bind _ _ whatever); [apply set_vill_ok|]. intros. apply illegal_ok.
Qed.

(** ** Arithmetic *)

Lemma v_element_ok op wc vv vm vd vs2 vs1 i j : ok whatever (v_element op wc vv vm vd vs2 vs1 i j).
Proof.
  unfold v_element. destruct (v_mods wc i j) as [[[? ?] ?] ?]. cbv zeta.
  ok_step; [destruct vm; [by apply safe_ret|apply v0_mask_ok]|].
  ok_step; [|apply vstart_next_ok]. destruct a; [apply v_apply_ok|by apply safe_ret].
Qed.

Lemma v_register_ok op wc vv vm vd vs2 vs1 sew i : ok whatever (v_register op wc vv vm vd vs2 vs1 sew i).
Proof.
  unfold v_register. repeat first [apply mark_vreg_ok|ok_step]. apply for_ok. intros j _.
  ok_step; [apply v_element_ok|by apply safe_ret].
Qed.

Lemma vectorize_ok vs2 vd vs1 wc vv vm config : ok whatever (vectorize_arithmetic vs2 vd vs1 wc vv vm config).
Proof.
  unfold vectorize_arithmetic. ok_step; [apply gets_ok|]. ok_step; [by apply safe_ret|].
  destruct (config _) as [op|]; [|by apply safe_ret]. ok_step; [apply defined_ok|].
  destruct (v_group _ _ _ _ _ _ _) as [[n sew]|]; [|by apply safe_ret].
  ok_step; [|ok_step; [apply vstart_zero_ok|by apply safe_ret]]. apply for_ok. intros i _.
  ok_step; [apply v_register_ok|by apply safe_ret].
Qed.

Lemma set_vtype_ok v : fits 64 v -> ok whatever (mods (fun s => s <| vtype := v |>)).
Proof. intros Hv. apply mods_ok. intros s H. split; [|done]. cpu_ok_split H. Qed.

Lemma set_vl_ok f : (forall s, cpu_ok s -> fits 64 (f s)) -> ok whatever (mods (fun s => s <| vl := f s |>)).
Proof. intros Hf. apply mods_ok. intros s H. pose proof (Hf s H). split; [|done]. cpu_ok_split H. Qed.

Lemma exec_vset_ok insn : ok whatever (exec_vset insn).
Proof.
  unfold exec_vset. cbv zeta.
  eapply (safe_bind _ _ (fits 64)); [apply safe_gets; intros m H; apply H|]. intros old Hold.
  assert (ok (fits 64) (if nz (rs1_of insn) then read_reg (rs1_of insn)
                        else if nz (rd_of insn) then ret (2 ^ 64 - 1) else ret old)) as Hpick.
  { destruct (nz _); [apply read_reg_ok|]. destruct (nz _); apply safe_ret; [vm_decide|done]. }
  eapply (safe_bind _ _ (fits 64)).
  - destruct (_ =? 3).
    { eapply safe_bind; [apply set_vtype_ok; width|]. intros. apply safe_ret. width. }
    destruct (_ =? 2); [|eapply safe_bind; [apply set_vtype_ok; width|done]].
    destruct (nz (rs2_of insn)); [|done]. eapply safe_bind; [apply read_reg_ok|]. intros v Hv.
    destruct (_ || _); (eapply safe_bind; [apply set_vtype_ok; done || vm_decide|]); intros; [|done].
    apply safe_ret. vm_decide.
  - intros avl Havl. ok_step; [apply gets_ok|]. ok_step; [apply defined_ok|].
    ok_step; [|ok_step; [apply gets_ok|apply write_rd_ok, rd_of_nonneg]].
    destruct (_ <=? _); [|destruct (_ <=? _); apply set_vl_ok; intros; [done|apply get_vlmax_fits]].
    apply mods_ok. intros s H. split; [|done]. cpu_ok_split H; vm_decide.
Qed.

Lemma exec_v_arith_ok insn : ok whatever (exec_v_arith insn).
Proof.
  unfold exec_v_arith. ok_step; [apply gets_ok|]. ok_step; [apply illegal_ok|].
  ok_step; [apply mods_ok; intros s H; split; [cpu_ok_split H; vm_decide|done]|].
  cbv zeta. repeat lazymatch goal with
    | |- safe _ _ _ (exec_vset _) => apply exec_vset_ok
    | |- safe _ _ _ (vectorize_arithmetic _ _ _ _ _ _ _) => apply vectorize_ok
    | _ => ok_step
    end.
Qed.

Lemma exec_vector_ok insn : ok whatever (exec_vector insn).
Proof.
  unfold exec_vector. cbv zeta. destruct (_ =? 7); [apply exec_vmem_ok|].
  destruct (_ =? 0x27); [apply exec_vmem_ok|apply exec_v_arith_ok].
Qed.
End VecOk.
