(* ===== verification/Safety.v ===== *)
(** * Well-formedness of the running hart

    Every computation of the interpreter keeps the hart well formed: no register
    leaves its width, no array changes its length, [x0] stays zero, and an exit to
    the label [exception] carries a cause that [raise_exception2] accepts.  The
    platform's CSR hooks and device models are assumed to respect the hart
    ([hooks_ok], [SafeDevices]). *)

From S2P Require Import Prelude Iomem Cpu Pmp Csr Trap Machine Mmu Alu Insn Fp Vector Interp SafeInsn SafeFp SafeVec.

Section Exec.
Context {G : Geometry} {D : Type} {dv : Devices D} {sd : SafeDevices D}.
Abbreviation ok := (safe (D := D) (E := exit) idle (fun _ => stopped 15)).

Lemma exec_c0_ok insn : ok whatever (exec_c0 insn).
Proof. unfold exec_c0. ok_go. Qed.

Lemma exec_c1_ok insn : ok whatever (exec_c1 insn).
Proof. unfold exec_c1, exec_c1_alu. ok_go; ok_rd. Qed.

Lemma exec_c2_ok insn : ok whatever (exec_c2 insn).
Proof. unfold exec_c2, exec_c2_jr. ok_go; ok_rd. Qed.
Lemma check_target_ok target : ok whatever (check_target target).
Proof. unfold check_target. ok_go. Qed.

Lemma exec_jal_ok insn : ok whatever (exec_jal insn).
Proof. unfold exec_jal. ok_go. apply check_target_ok. Qed.

Lemma exec_jalr_ok insn : ok whatever (exec_jalr insn).
Proof. unfold exec_jalr. ok_go. apply check_target_ok. Qed.

Lemma exec_branch_ok insn : ok whatever (exec_branch insn).
Proof. unfold exec_branch. ok_go. apply check_target_ok. Qed.

Lemma exec_load_ok insn : ok whatever (exec_load insn).
Proof. unfold exec_load. ok_go. Qed.

Lemma exec_store_ok insn : ok whatever (exec_store insn).
Proof. unfold exec_store. ok_go. Qed.

Lemma exec_op_imm_ok insn : ok whatever (exec_op_imm insn).
Proof. unfold exec_op_imm. ok_go. Qed.

Lemma exec_op_imm_32_ok insn : ok whatever (exec_op_imm_32 insn).
Proof. unfold exec_op_imm_32. ok_go. Qed.

Lemma exec_op_ok insn : ok whatever (exec_op insn).
Proof. unfold exec_op, zba_op, zbb_not_op, base_op. ok_go. Qed.

Lemma exec_op_32_ok insn : ok whatever (exec_op_32 insn).
Proof. unfold exec_op_32, mul_div_32, base_op_32. ok_go. Qed.

(** *** System instructions *)

Lemma count_insns_ok icount start : ok whatever (count_insns icount start).
Proof.
  unfold count_insns. apply (safe_bind _ _ whatever); [apply mods_ok; frame_update|]. intros _ _.
  apply (safe_bind _ _ whatever); [apply gets_ok|]. intros stop _. cbv zeta.
  destruct stop; [by apply safe_ret|]. destruct (_ <? 0).
  - apply safe_throw. intros m. by apply idle_stopped.
  - apply mods_ok. intros s H. split; [|done]. cpu_ok_split H; width.
Qed.

Lemma set_cpu_idle (m : RISCVMachine D) s :
  cpu_ok s -> pending_exception s = pending_exception (cpu m) -> idle m -> idle (m <| cpu := s |>).
Proof. intros H Hp []. split; mach_simpl; [done|done|congruence]. Qed.

Lemma set_cpu_stopped (m : RISCVMachine D) s :
  cpu_ok s -> pending_exception s = pending_exception (cpu m) -> idle m -> stopped 15 (m <| cpu := s |>).
Proof. intros. apply idle_stopped; [done|]. by apply set_cpu_idle. Qed.

Lemma csr_read_hook_ok h s f3 csr w :
  hooks_ok h -> cpu_ok s ->
  cpu_ok (csr_read h s f3 csr w).1 /\ pending_exception (csr_read h s f3 csr w).1 = pending_exception s.
Proof.
  intros Hh H. unfold csr_read. destruct (_ && w); [done|]. destruct (_ <? _); [done|].
  destruct (hook_csr_read h) as [f|] eqn:E; [|done].
  destruct (hook_read_ok h Hh f s f3 csr E H) as [H1 H2].
  by destruct (f s f3 csr) as [s' [v|]].
Qed.

Lemma do_csr_read_ok f3 csr w : ok (fits 64) (do_csr_read f3 csr w).
Proof.
  intros m H. unfold do_csr_read, wp.
  destruct (csr_read_hook_ok (hooks m) (cpu m) f3 csr w) as [H1 H2]; [apply H..|].
  destruct (csr_read _ _ _ _ _) as [s [v|]]; cbn [fst] in H1, H2.
  - split; [width|]. by apply set_cpu_idle.
  - by apply set_cpu_stopped.
Qed.

Lemma csr_write_hook_ok h s f3 csr v :
  hooks_ok h -> cpu_ok s -> fits 64 v ->
  cpu_ok (csr_write h s f3 csr v).2 /\
  pending_exception (csr_write h s f3 csr v).2 = pending_exception s.
Proof.
  intros Hh H Hv. unfold csr_write. destruct (hook_csr_write h) as [f|] eqn:E.
  - destruct (hook_write_ok h Hh f s f3 csr v E H) as [H1 H2].
    destruct (f s f3 csr v) as [s' [u|]]; [done|]. cbn [fst] in H1, H2.
    split; [by apply csr_write_switch_ok|]. rewrite <- H2.
    apply run_frame_pending, csr_write_switch_frame.
  - split; [by apply csr_write_switch_ok|]. apply run_frame_pending, csr_write_switch_frame.
Qed.

Lemma do_csr_write_ok f3 csr v : fits 64 v -> ok whatever (do_csr_write f3 csr v).
Proof.
  intros Hv m H. unfold do_csr_write, wp.
  destruct (csr_write_hook_ok (hooks m) (cpu m) f3 csr v) as [H1 H2]; [apply H..|done|].
  destruct (csr_write _ _ _ _ _) as [[| |] s]; cbn [snd] in H1, H2.
  - split; [done|]. by apply set_cpu_idle.
  - split; [done|]. by apply set_cpu_idle.
  - by apply set_cpu_stopped.
Qed.

Lemma csr_operand_ok insn : ok (fits 64) (csr_operand insn).
Proof.
  unfold csr_operand. destruct (has _ _); [|apply read_reg_ok]. apply safe_ret. unfold rs1_of. width.
Qed.

Lemma resync_ok : ok whatever resync.
Proof. unfold resync. ok_go. Qed.

Lemma exec_csrrw_ok insn icount start : ok whatever (exec_csrrw insn icount start).
Proof.
  unfold exec_csrrw. cbv zeta. eapply safe_bind; [apply csr_operand_ok|]. intros v Hv.
  eapply safe_bind; [apply count_insns_ok|]. intros _ _.
  eapply safe_bind; [apply do_csr_read_ok|]. intros old Hold.
  eapply safe_bind; [by apply do_csr_write_ok|]. intros fl _. ok_go. apply resync_ok.
Qed.

Lemma exec_csrrs_ok insn f3 icount start : ok whatever (exec_csrrs insn f3 icount start).
Proof.
  unfold exec_csrrs. cbv zeta. eapply safe_bind; [apply csr_operand_ok|]. intros v Hv.
  eapply safe_bind; [apply count_insns_ok|]. intros _ _.
  eapply safe_bind; [apply do_csr_read_ok|]. intros old Hold. ok_go; [|apply resync_ok].
  apply do_csr_write_ok. destruct (_ =? 2); width.
Qed.

Lemma reserved_zero_ok insn mask : ok whatever (reserved_zero insn mask).
Proof. unfold reserved_zero. ok_go. Qed.

Lemma illegal_if_ok b : ok whatever (illegal_if b).
Proof. unfold illegal_if. ok_go. Qed.

Lemma throw_done_ok {A} (V : A -> Prop) : ok V (throw E_done).
Proof. apply safe_throw. intros m. by apply idle_stopped. Qed.

Lemma stopped_upd k (m : RISCVMachine D) f :
  (forall s, cpu_ok s -> cpu_ok (f s) /\ pending_exception (f s) = pending_exception s) ->
  stopped k m -> stopped k (m <| cpu ::= f |>).
Proof.
  intros Hf []. destruct (Hf _ stopped_cpu) as [H1 H2]. split; mach_simpl; [done|done|lia].
Qed.

Lemma read_reg_stopped x k (m : RISCVMachine D) : stopped k m -> stopped k (read_reg x m).2.
Proof.
  intros H. unfold read_reg, bind, getm, gets. destruct (stf_in_traceable_region m); cbn [mods ret snd].
  - apply stopped_upd; [frame_update|done].
  - done.
Qed.

Lemma exec_ecall_ok insn : ok whatever (exec_ecall insn).
Proof.
  unfold exec_ecall. eapply safe_bind; [apply reserved_zero_ok|]. intros _ _ m H.
  unfold wp, bind at 1, gets at 1. unfold bind at 1, mods at 1.
  assert (stopped 15 (m <| cpu ::= fun s => s <| pending_exception := CAUSE_USER_ECALL + priv (cpu m) |>
     <| pending_tval := 0 |> |>)) as H1.
  { destruct H. pose proof (ok_priv _ idle_cpu) as Hp. split; mach_simpl; [|done|].
    - revert idle_cpu. generalize (priv (cpu m)), (cpu m). intros p s H. cpu_ok_split H. vm_decide.
    - cpu_simpl. unfold fits in Hp. unfold CAUSE_USER_ECALL. lia. }
  revert H1. generalize (priv (cpu m)). intros p. generalize (m <| cpu ::= fun s =>
    s <| pending_exception := CAUSE_USER_ECALL + p |> <| pending_tval := 0 |> |>). intros m1 H1.
  unfold bind at 1, gets. destruct (negb _ && _); [|exact H1]. unfold bind.
  pose proof (read_reg_stopped 0x17 15 m1 H1) as H2.
  destruct (read_reg 0x17 m1) as [[e|v] m2]; [exact H2|]. cbn [snd] in H2.
  destruct (v =? SBI_SHUTDOWN); [|exact H2]. cbn [mods throw]. apply stopped_upd; [frame_update|done].
Qed.

Lemma exec_wfi_ok insn : ok whatever (exec_wfi insn).
Proof.
  unfold exec_wfi. ok_go; try apply reserved_zero_ok; try apply illegal_if_ok; [|apply throw_done_ok].
  apply mods_ok. intros s H. split; [|done]. cpu_ok_split H. width.
Qed.

Lemma exec_sfence_ok insn : ok whatever (exec_sfence insn).
Proof.
  unfold exec_sfence. ok_go; try apply reserved_zero_ok; try apply illegal_if_ok; try apply resync_ok.
  - apply mods_ok. intros s Hs. split; [by apply tlb_flush_all_ok|done].
  - apply mods_ok. intros s Hs. split; [by apply tlb_flush_all_ok|done].
Qed.

Lemma trap_return_ok f :
  (forall s, cpu_ok s -> cpu_ok (f s)) -> (forall s, run_frame (f s) = run_frame s) ->
  ok whatever (mods f).
Proof.
  intros Hf Hr. apply mods_ok. intros s H. split; [by apply Hf|]. apply run_frame_pending, Hr.
Qed.

Lemma exec_priv_ok insn : ok whatever (exec_priv insn).
Proof.
  unfold exec_priv. ok_go; try apply reserved_zero_ok; try apply illegal_if_ok; try apply throw_done_ok.
  - apply exec_ecall_ok.
  - apply trap_return_ok; [apply handle_sret_ok|apply trap_return_frame].
  - apply trap_return_ok; [apply handle_mret_ok|apply trap_return_frame].
  - apply trap_return_ok; [apply handle_dret_ok|apply trap_return_frame].
  - apply exec_wfi_ok.
  - apply exec_sfence_ok.
Qed.

Lemma exec_system_ok insn icount start : ok whatever (exec_system insn icount start).
Proof.
  unfold exec_system. cbv zeta. destruct (_ =? 1); [apply exec_csrrw_ok|].
  destruct (_ =? 0); [|apply exec_csrrs_ok].
  eapply safe_bind; [apply csr_operand_ok|]. intros _ _. apply exec_priv_ok.
Qed.

(** *** Atomics *)

Lemma exec_lr_ok insn n : ok whatever (exec_lr insn n).
Proof.
  unfold exec_lr. ok_go. apply mods_ok. frame_update.
Qed.

Lemma exec_sc_ok insn n : ok whatever (exec_sc insn n).
Proof.
  unfold exec_sc. ok_go. apply mods_ok. frame_update.
Qed.

Lemma amo_load_ok addr n : fits 64 addr -> ok whatever (amo_load addr n).
Proof.
  intros Ha m H. pose proof (target_read_safe addr n Ha m H) as H1. unfold wp in H1.
  unfold amo_load, load, catch, wp. destruct (target_read addr n m) as [[e|v] m']; [|exact H1].
  destruct H1. split; mach_simpl; [|done|]; destruct (Z.eqb_spec (pending_exception (cpu m')) CAUSE_BREAKPOINT);
    try assumption; try lia.
  - revert stopped_cpu. generalize (cpu m'). intros s H1. cpu_ok_split H1.
  - cpu_simpl. lia.
Qed.

Lemma exec_rmw_ok insn op n : ok whatever (exec_rmw insn op n).
Proof. unfold exec_rmw. ok_go. by apply amo_load_ok. Qed.

Lemma exec_amo_ok insn : ok whatever (exec_amo insn).
Proof. unfold exec_amo. ok_go; [apply exec_lr_ok|apply exec_sc_ok|apply exec_rmw_ok]. Qed.
(** ** The loop *)

Lemma exec_fload_ok insn : ok whatever (exec_fload insn).
Proof. unfold exec_fload. cbv zeta. repeat ok_step. apply exec_vector_ok. Qed.

Lemma exec_fstore_ok insn : ok whatever (exec_fstore insn).
Proof.
  unfold exec_fstore. cbv zeta. repeat ok_step. apply exec_vector_ok.
Qed.

Lemma exec_misc_mem_ok insn : ok whatever (exec_misc_mem insn).
Proof. unfold exec_misc_mem. ok_go. Qed.

Lemma exec_insn_ok insn icount start : ok whatever (exec_insn insn icount start).
Proof.
  unfold exec_insn. cbv zeta.
  destruct (_ =? 0); [apply exec_c0_ok|]. destruct (_ =? 1); [apply exec_c1_ok|].
  destruct (_ =? 2); [apply exec_c2_ok|]. destruct (_ =? 0x37); [ok_go|].
  destruct (_ =? 0x17); [ok_go|]. destruct (_ =? 0x6f); [apply exec_jal_ok|].
  destruct (_ =? 0x67); [apply exec_jalr_ok|]. destruct (_ =? 0x63); [apply exec_branch_ok|].
  destruct (_ =? 0x03); [apply exec_load_ok|]. destruct (_ =? 0x23); [apply exec_store_ok|].
  destruct (_ =? 0x13); [apply exec_op_imm_ok|]. destruct (_ =? 0x1b); [apply exec_op_imm_32_ok|].
  destruct (_ =? 0x33); [apply exec_op_ok|]. destruct (_ =? 0x3b); [apply exec_op_32_ok|].
  destruct (_ =? 0x73); [apply exec_system_ok|]. destruct (_ =? 0x0f); [apply exec_misc_mem_ok|].
  destruct (_ =? 0x2f); [apply exec_amo_ok|]. destruct (_ =? 0x07); [apply exec_fload_ok|].
  destruct (_ =? 0x27); [apply exec_fstore_ok|]. destruct (_ || _); [apply exec_fp_ok|].
  destruct (_ =? 0x57); [apply exec_vector_ok|apply illegal_ok].
Qed.

Lemma take_interrupt_idle (m : RISCVMachine D) :
  idle m -> exists b m', take_interrupt m = (inr b, m') /\ idle m'.
Proof.
  intros H. unfold take_interrupt. destruct (irq_pending m); [|eauto].
  destruct (raise_interrupt (cpu m)) as [s|] eqn:E; [|eauto].
  apply raise_interrupt_ok in E as [H1 H2]; [|apply H]. eexists _, _. split; [done|].
  apply set_cpu_idle; [done|by apply run_frame_pending|done].
Qed.

Lemma take_interrupt_safe : ok whatever take_interrupt.
Proof.
  intros m H. destruct (take_interrupt_idle m H) as (b & m' & E & H'). unfold wp. by rewrite E.
Qed.

Lemma fetch_ok l : safe idle (fun _ => stopped 15) whatever (fetch (D := D) l).
Proof.
  unfold fetch. destruct (_ <? _).
  { eapply safe_bind; [apply safe_getm|]. intros. by apply safe_ret. }
  eapply safe_bind; [eapply safe_catch; [apply take_interrupt_safe|done]|].
  intros taken _. destruct taken; [apply safe_throw; intros m; by apply idle_stopped|].
  eapply safe_bind; [apply (safe_gets _ _ (fits 64)); intros m H; apply H|]. intros addr Ha.
  apply (safe_bind _ _ whatever); [by apply safe_gets|]. intros e _. cbv zeta. destruct (_ =? _).
  - eapply safe_bind; [apply safe_getm|]. intros m0 _. destruct (_ <=? _); [|by apply safe_ret].
    destruct (_ =? 3); [|by apply safe_ret].
    apply (safe_bind _ _ whatever); [|intros; by apply safe_ret].
    eapply safe_catch; [apply read_insn_u16_safe; width|done].
  - apply (safe_bind _ _ whatever); [|intros; by apply safe_ret].
    eapply safe_catch; [by apply read_insn_slow_safe|done].
Qed.

Lemma check_execute_ok : ok whatever check_execute.
Proof.
  intros m H. unfold check_execute, wp.
  destruct (check_triggers _ _ _) as [[|] s] eqn:E.
  - eapply stopped_mono; [|eapply triggered_stopped; [done|apply H|exact E]]. done.
  - apply get_pending_same in E as (_ & E & _); [|apply H..]. rewrite (E eq_refl).
    split; [done|]. by apply set_cpu_idle; [apply H|..].
Qed.

Lemma interp_iter_ok start l :
  safe idle (fun _ => stopped 15) whatever (interp_iter start l).
Proof.
  unfold interp_iter. apply (safe_bind _ _ whatever).
  { apply safe_mods. intros m. apply idle_upd. intros s H. split; [|done]. cpu_ok_split H.
    unfold GET_PC. width. }
  intros _ _. cbv zeta. destruct (_ =? 0).
  { apply safe_throw. intros m. by apply idle_stopped. }
  apply (safe_bind _ _ whatever); [eapply safe_catch; [apply check_execute_ok|done]|]. intros _ _.
  apply (safe_bind _ _ whatever); [eapply safe_catch; [apply fetch_ok|done]|]. intros [insn l'] _.
  apply (safe_bind _ _ whatever); [eapply safe_catch; [apply exec_insn_ok|done]|]. intros nx _.
  apply (safe_bind _ _ whatever); [by apply safe_gets|]. intros s _. by apply safe_ret.
Qed.

Lemma interp_loop_stopped fuel start l m e l' m' :
  idle m -> interp_loop fuel start l m = Some (e, l', m') -> stopped 15 m'.
Proof.
  revert l m. induction fuel as [|fuel IH]; intros l m H; [done|]. cbn [interp_loop].
  pose proof (interp_iter_ok start l m H) as Hi. unfold wp in Hi.
  destruct (interp_iter _ _ _) as [[[e1 l1]|l1] m1].
  - by intros [= <- <- <-].
  - apply IH, Hi.
Qed.

(** A well-formed hart, whatever its pending exception. *)
Definition hart_ok (m : RISCVMachine D) : Prop := cpu_ok (cpu m) /\ env_ok m.

Lemma hart_upd m f : (forall s, cpu_ok s -> cpu_ok (f s)) -> hart_ok m -> hart_ok (m <| cpu ::= f |>).
Proof. intros Hf []. split; mach_simpl; auto. Qed.

Lemma count_insns_hart icount start m : hart_ok m -> hart_ok (count_insns icount start m).2.
Proof.
  intros H. unfold count_insns, bind, mods at 1, gets.
  assert (hart_ok (m <| cpu ::= fun s => s <| insn_counter := icount |> |>)) as H1.
  { apply hart_upd; [|done]. intros s Hs. cpu_ok_split Hs. }
  destruct (stop_the_counter _); [done|]. cbv zeta. destruct (_ <? 0); [done|].
  apply hart_upd; [|done]. intros s Hs. cpu_ok_split Hs; width.
Qed.

Lemma do_exception_hart l m : stopped 15 m -> hart_ok (do_exception l m).2.
Proof.
  intros []. unfold do_exception, bind, mods at 1, gets. unfold id. mach_simpl. cpu_simpl.
  assert (cpu_ok ((cpu m) <| pc := GET_PC l |>)) as H1 by (apply upd_pc_ok; [done|unfold GET_PC; width]).
  destruct (Z.leb_spec 0 (pending_exception (cpu m))); [|done].
  split; [|done]. cbn [mods ret snd]. mach_simpl. apply raise_exception2_ok; [done|]. unfold fits. lia.
Qed.

Lemma leave_hart e l m : stopped 15 m -> hart_ok (leave e l m).2.
Proof.
  intros H. unfold leave. cbv zeta.
  assert (forall m', stopped 15 m' -> hart_ok (bind (do_exception l)
    (fun l => ret (E := exit) (l <| n_cycles ::= fun n => n - 1 |>)) m').2) as Hd.
  { intros m' H'. unfold bind. pose proof (do_exception_hart l m' H') as H1.
    by destruct (do_exception l m') as [[e'|l'] m1]. }
  destruct e as [[]|]; try (by destruct H).
  - by apply Hd.
  - apply Hd. destruct H. split; mach_simpl; [|done|cpu_simpl; unfold CAUSE_ILLEGAL_INSTRUCTION; lia].
    revert stopped_cpu. generalize (cpu m). intros s H. cpu_ok_split H. vm_decide.
Qed.

Lemma leave_end_hart e l start m : stopped 15 m -> hart_ok ((l <- leave e l ;; the_end start l) m).2.
Proof.
  intros H. unfold bind at 1. pose proof (leave_hart e l m H) as H1.
  destruct (leave e l m) as [[e'|l'] m1]; [done|]. unfold the_end, bind.
  pose proof (count_insns_hart (GET_INSN_COUNTER l') start m1 H1) as H2.
  by destruct (count_insns _ _ m1) as [[e''|u] m2].
Qed.
(** The code of [riscv_cpu_interp64] after the interrupt check at its entry. *)
Lemma interp64_unfold n (m : RISCVMachine D) :
  n <> 0 ->
  let start := insn_counter (cpu m) in
  let m1 := m <| cpu ::= fun s => (clear_most_recently_written_vregs s) <| most_recently_written_reg := -1 |>
              <| most_recently_written_fp_reg := -1 |> <| info := ctf_nop |> |> in
  riscv_cpu_interp64 n m =
    match take_interrupt m1 with
    | (inl e, m2) => (inl e, m2)
    | (inr true, m2) =>
        (l <- leave (Goto E_done) (mkLocals 0 0 0 n (u64 (u64 (start + n) - 1)) 0) ;; the_end start l) m2
    | (inr false, m2) =>
        let m3 := m2 <| cpu ::= fun s => s <| pending_exception := -1 |> <| last_data_vaddr := 2 ^ 64 - 1 |> |> in
        match interp_loop (Z.to_nat (n + 1)) start
                (mkLocals 0 0 (pc (cpu m3)) (n + 1) (u64 (start + n)) 0) m3 with
        | None => (inl E_undefined, m3)
        | Some (e, l, m') => (l <- leave e l ;; the_end start l) m'
        end
    end.
Proof.
  intros Hn. apply Z.eqb_neq in Hn. unfold riscv_cpu_interp64, bind at 1, gets at 1. cbv zeta.
  unfold bind at 1, mods at 1. rewrite Hn. unfold bind at 1.
  by destruct (take_interrupt _) as [[e|[|]] m2].
Qed.

Lemma take_interrupt_hart m : hart_ok m -> hart_ok (take_interrupt m).2.
Proof.
  intros H. unfold take_interrupt. destruct (irq_pending m); [|done].
  destruct (raise_interrupt (cpu m)) as [s|] eqn:E; [|done].
  apply raise_interrupt_ok in E as [H1 _]; [|apply H]. by split; [|apply H].
Qed.

Lemma the_end_hart start l m : hart_ok m -> hart_ok (the_end start l m).2.
Proof.
  intros H. unfold the_end, bind.
  pose proof (count_insns_hart (GET_INSN_COUNTER l) start m H) as H2.
  by destruct (count_insns _ _ m) as [[e''|u] m2].
Qed.

Lemma start_idle m :
  hart_ok m ->
  idle (m <| cpu ::= fun s => s <| pending_exception := -1 |> <| last_data_vaddr := 2 ^ 64 - 1 |> |>).
Proof.
  intros [H1 H2]. split; mach_simpl; [|done|done].
  revert H1. generalize (cpu m). intros s H. cpu_ok_split H.
Qed.

Lemma interp_keeps_hart n m :
  hart_ok m -> hart_ok (riscv_cpu_interp64 n m).2.
Proof.
  intros H. destruct (Z.eq_dec n 0) as [->|Hn].
  { apply hart_upd; [|done]. intros s Hs. cpu_ok_split Hs. }
  rewrite interp64_unfold by done. cbv zeta.
  match goal with |- context [take_interrupt ?x] => assert (hart_ok x) as H1; [|generalize dependent x] end.
  { apply hart_upd; [|done]. intros s Hs. cpu_ok_split Hs. }
  intros m1 H1. apply take_interrupt_hart in H1.
  destruct (take_interrupt m1) as [[e|[|]] m2]; [done|by apply the_end_hart|].
  cbn [snd] in H1. apply start_idle in H1. revert H1.
  match goal with |- idle ?x -> _ => generalize x end. intros m3 H3.
  destruct (interp_loop _ _ _ m3) as [[[e l] m4]|] eqn:E.
  - apply leave_end_hart. by eapply interp_loop_stopped.
  - by destruct H3.
Qed.

(** C1 Running a hart for any number of cycles keeps it well formed, whatever the
    program, its memory, the page tables and the interrupts: every register and
    CSR stays within its width, the register file, PMP and TLB arrays keep their
    lengths and [x0] stays zero, also when the run ends in a trap; the harts that
    are not running stay well formed too, whatever devices do to them, and the
    number of harts and the index of the running one do not change. *)
Theorem interp_preserves_hart_ok n m :
  hart_ok m -> hart_ok (riscv_cpu_interp64 n m).2.
Proof. apply interp_keeps_hart. Qed.
End Exec.

(** A hart as [riscv_cpu_init] leaves it, over the demonstration memory. *)
Definition reset_cpu : RISCVCPUState := riscv_cpu_init 0x80000000 false false 0.

Lemma no_hooks_ok : hooks_ok no_hooks.
Proof. by split. Qed.

Definition one_hart : Geometry := mkGeometry 1 0.

Lemma reset_hart_ok : hart_ok (G := one_hart) (demo_machine reset_cpu).
Proof.
  assert (cpu_ok reset_cpu) as H by (apply riscv_cpu_init_ok; vm_decide).
  split; [done|]. split; [apply no_hooks_ok|]. split; [by constructor|done].
Qed.

Lemma interp_preserves_hart_ok_witness :
  hart_ok (G := one_hart)
    (riscv_cpu_interp64 100 (demo_machine reset_cpu)).2.
Proof.
  apply (interp_preserves_hart_ok (sd := no_devices_safe)). exact reset_hart_ok.
Defined.
