(* ===== verification/Run.v ===== *)
(** * Termination and instruction accounting of [riscv_cpu_interp64]

    The loop ends within its cycle budget, and the number of instructions it
    reports agrees with the instruction counter. *)

From S2P Require Import Prelude Iomem Cpu Pmp Csr Trap Machine Mmu Alu Insn Fp Vector Interp SafeInsn Safety.

Section Run.
Context {G : Geometry} {D : Type} {dv : Devices D}.
Abbreviation ok := (safe (D := D) (E := exit) idle (fun _ => stopped 15)).

(** ** The counter during [csrrw] *)

(** The state during the instruction: the counter has been set to [ic]. *)
Definition counted (ic : Z) (m : RISCVMachine D) : Prop :=
  insn_counter (cpu m) = ic /\ hooks_ok (hooks m).

Abbreviation counts ic := (safe (D := D) (E := exit) (counted ic) (fun _ _ => True)).

Lemma counted_mods ic f :
  (forall s, insn_counter (f s) = insn_counter s) -> counts ic whatever (mods f).
Proof. intros Hf. apply safe_mods. intros m []. split; mach_simpl; [by rewrite Hf|done]. Qed.

Lemma counted_csr_read ic f3 csr w : counts ic whatever (do_csr_read f3 csr w).
Proof.
  intros m [H Hh]. unfold do_csr_read, wp, csr_read.
  destruct (_ && w); [done|]. destruct (_ <? _); [done|].
  destruct (hook_csr_read (hooks m)) as [f|] eqn:E.
  - pose proof (hook_read_count _ Hh f (cpu m) f3 csr E) as H1.
    destruct (f (cpu m) f3 csr) as [s o]. cbn [fst] in H1.
    assert (counted ic (m <| cpu := s |>)) by (split; mach_simpl; [congruence|done]).
    destruct o; [done|]. by destruct (csr_read_switch s csr).
  - by destruct (csr_read_switch (cpu m) csr).
Qed.

Lemma run_frame_counter s s' : run_frame s' = run_frame s -> insn_counter s' = insn_counter s.
Proof. intros E. exact (f_equal (fun x => x.1.1.2) E). Qed.

Lemma counted_csr_write ic f3 csr v : counts ic whatever (do_csr_write f3 csr v).
Proof.
  intros m [H Hh]. unfold do_csr_write, wp.
  assert (insn_counter (csr_write (hooks m) (cpu m) f3 csr v).2 = ic) as H1.
  { rewrite <- H. unfold csr_write. destruct (hook_csr_write (hooks m)) as [f|] eqn:E.
    - pose proof (hook_write_count _ Hh f (cpu m) f3 csr v E) as H1.
      destruct (f (cpu m) f3 csr v) as [s [u|]]; [exact H1|]. cbn [fst] in H1. rewrite <- H1.
      apply run_frame_counter, csr_write_switch_frame.
    - apply run_frame_counter, csr_write_switch_frame. }
  by destruct (csr_write _ _ _ _ _) as [[| |] s].
Qed.

Lemma counted_write_rd ic rd v : counts ic whatever (write_rd rd v).
Proof.
  unfold write_rd. destruct (nz rd); [|by apply safe_ret].
  eapply safe_bind; [apply safe_getm|]. intros m0 _. eapply (safe_bind _ _ whatever).
  - destruct (stf_in_traceable_region m0); [by apply counted_mods|by apply safe_ret].
  - intros _ _. by apply counted_mods.
Qed.

Lemma counted_resync ic : counts ic whatever resync.
Proof.
  eapply (safe_bind _ _ whatever); [by apply safe_gets|]. intros cur _.
  eapply (safe_bind _ _ whatever); [by apply counted_mods|]. intros _ _.
  eapply (safe_bind _ _ whatever); [by apply counted_mods|]. intros _ _. by apply safe_ret.
Qed.

Lemma csr_operand_hooks insn (m : RISCVMachine D) : hooks (csr_operand insn m).2 = hooks m.
Proof.
  unfold csr_operand. destruct (has _ _); [done|]. unfold read_reg, bind, getm, gets.
  by destruct (stf_in_traceable_region m).
Qed.

Lemma csrrw_counter insn icount start (m m' : RISCVMachine D) nx :
  hooks_ok (hooks m) -> exec_csrrw insn icount start m = (inr nx, m') ->
  insn_counter (cpu m') = icount.
Proof.
  intros Hh. unfold exec_csrrw. cbv zeta. unfold bind at 1.
  pose proof (csr_operand_hooks insn m) as Ho. destruct (csr_operand insn m) as [[e|v] m1]; [done|].
  cbn [snd] in Ho. unfold bind at 1.
  assert (wp (count_insns icount start) (fun _ m2 => counted icount m2) (fun _ _ => True) m1) as Hc.
  { unfold wp, count_insns, bind, mods at 1, gets. destruct (stop_the_counter _); cbn [ret].
    - split; [done|]. mach_simpl. by rewrite Ho.
    - cbv zeta. destruct (_ <? 0); [done|]. split; [done|]. mach_simpl. by rewrite Ho. }
  unfold wp in Hc. destruct (count_insns icount start m1) as [[e|u] m2]; [done|].
  intros E. enough (wp (old <- do_csr_read 1 (insn >> 20) true ;; flushed <- do_csr_write 1 (insn >> 20) v ;;
    write_rd (rd_of insn) old ;;; if flushed then resync else ret NextInsn)
    (fun _ m' => True /\ counted icount m') (fun _ _ => True) m2) as Hw.
  { unfold wp in Hw. rewrite E in Hw. apply Hw. }
  revert Hc. generalize m2. apply (safe_bind _ _ whatever); [apply counted_csr_read|]. intros old _.
  apply (safe_bind _ _ whatever); [apply counted_csr_write|]. intros fl _.
  apply (safe_bind _ _ whatever); [apply counted_write_rd|]. intros _ _.
  destruct fl; [apply counted_resync|by apply safe_ret].
Qed.

(** ** Locals *)

Lemma take_interrupt_inv m r m' :
  take_interrupt (D := D) m = (r, m') ->
  (r = inr false /\ m' = m) \/
  (r = inr true /\ irq_pending m = true /\ exists s, raise_interrupt (cpu m) = Some s /\ m' = m <| cpu := s |>).
Proof.
  unfold take_interrupt. destruct (irq_pending m) eqn:Ei; [|intros [= <- <-]; auto].
  destruct (raise_interrupt (cpu m)) as [s|]; intros [= <- <-]; [right|left]; eauto.
Qed.

(** What an iteration may not change in the locals before the instruction. *)
Definition same_counts (l l' : interp_locals) : Prop :=
  n_cycles l' = n_cycles l /\ insn_counter_addend l' = insn_counter_addend l /\
  insn_executed l' = insn_executed l.

(** A fetch leaves the counts alone; it ends the run only by an interrupt. *)
Lemma fetch_counts l (m m' : RISCVMachine D) r :
  fetch l m = (r, m') ->
  match r with
  | inr (_, l') => same_counts l l'
  | inl The_end => irq_pending m = true /\ exists s, raise_interrupt (cpu m) = Some s /\ m' = m <| cpu := s |>
  | inl (Goto e) => e = E_exception
  end.
Proof.
  unfold fetch. destruct (_ <? _); [by intros [= <- <-]|]. unfold bind at 1, catch at 1.
  destruct (take_interrupt m) as [r1 m1] eqn:E.
  apply take_interrupt_inv in E as [[-> ->] | (-> & Hi & Hs)]; [|by intros [= <- <-]].
  unfold bind at 1, gets at 1. unfold bind at 1, gets at 1. cbv zeta. destruct (_ =? _).
  - unfold bind at 1, getm. destruct (_ <=? _); [|by intros [= <- <-]].
    destruct (_ =? 3); [|by intros [= <- <-]]. unfold bind, catch.
    destruct (target_read_insn_u16 _ m) as [[e|hi] m2]; by intros [= <- <-].
  - unfold bind, catch. destruct (target_read_insn_slow _ _ m) as [[e|w] m2]; by intros [= <- <-].
Qed.

Lemma op_of_quadrant insn : insn .& 3 = op_of insn .& 3.
Proof. unfold op_of. by rewrite <- Z.land_assoc. Qed.

Lemma exec_insn_csrrw insn icount start :
  (op_of insn =? 0x73) && ((funct3_of insn .& 3) =? 1) = true ->
  exec_insn insn icount start = exec_csrrw insn icount start.
Proof.
  intros [Ho Hf]%andb_true_iff. unfold exec_insn. rewrite op_of_quadrant. cbv zeta.
  apply Z.eqb_eq in Ho. rewrite Ho. cbn [Z.land Z.eqb Pos.land Pos.eqb Pos.succ Pos.pred_N Pos.Nsucc_double Pos.Ndouble Z.of_N].
  unfold exec_system. cbv zeta. by rewrite Hf.
Qed.

(** The instructions counted by [insn_counter_addend] and not by
    [insn_executed]. *)
Definition balance (l : interp_locals) : Z :=
  u64 (insn_counter_addend l - n_cycles l - insn_executed l).

Lemma balance_same l l' : same_counts l l' -> balance l' = balance l.
Proof. unfold balance. by intros (-> & -> & ->). Qed.

Lemma balance_tick l :
  balance (l <| n_cycles ::= fun n => n - 1 |> <| insn_executed ::= fun n => n + 1 |>) = balance l.
Proof. unfold balance. locals_simpl. f_equal. lia. Qed.

Lemma same_counts_advance nx cur l : same_counts l (advance nx cur l).
Proof. by destruct nx. Qed.

(** Recomputing the addend from the counter changes nothing. *)
Lemma recount_balance insn s l :
  ((op_of insn =? 0x73) && ((funct3_of insn .& 3) =? 1) = true -> insn_counter s = GET_INSN_COUNTER l) ->
  n_cycles (recount insn s l) = n_cycles l /\ insn_executed (recount insn s l) = insn_executed l /\
  balance (recount insn s l) = balance l.
Proof.
  intros H. unfold recount. destruct (_ && _); [|done]. rewrite H by done. locals_simpl.
  split; [done|]. split; [done|]. unfold balance, GET_INSN_COUNTER. locals_simpl.
  replace (u64 (u64 (insn_counter_addend l - n_cycles l) + n_cycles l) - n_cycles l - insn_executed l)
    with (u64 (u64 (insn_counter_addend l - n_cycles l) + n_cycles l) + (- n_cycles l - insn_executed l)) by lia.
  rewrite trunc_add_l by lia. rewrite <- Z.add_assoc, trunc_add_l by lia. f_equal. lia.
Qed.

Context {sd : SafeDevices D}.

(** The locals after an instruction: the counts as before it. *)
Lemma execute_counts start insn l m r m' :
  hooks_ok (hooks m) ->
  (nx <- catch (exec_insn insn (GET_INSN_COUNTER l) start) (fun e => (Goto e, l)) ;;
   s <- gets id ;; ret (advance nx (pc s) (recount insn s l))) m = (r, m') ->
  match r with
  | inl (lab, l') => l' = l /\ exists e m1, lab = Goto e /\
      exec_insn insn (GET_INSN_COUNTER l) start m = (inl e, m1)
  | inr l' => n_cycles l' = n_cycles l /\ insn_executed l' = insn_executed l /\ balance l' = balance l
  end.
Proof.
  intros Hh. unfold bind at 1, catch.
  destruct (exec_insn _ _ _ m) as [[e|nx] m1] eqn:E; [intros [= <- <-]; eauto|].
  unfold bind, gets, ret. intros [= <- <-]. unfold id.
  destruct (recount_balance insn (cpu m1) l) as (H1 & H2 & H3).
  { intros Hc. rewrite exec_insn_csrrw in E by done. by eapply csrrw_counter. }
  pose proof (same_counts_advance nx (pc (cpu m1)) (recount insn (cpu m1) l)) as Hs.
  rewrite (balance_same _ _ Hs). destruct Hs as (-> & _ & ->). auto.
Qed.

(** Some instruction met undefined behaviour of the host code. *)
Definition undefined_insn (start : Z) : Prop :=
  exists insn icount m m', exec_insn insn icount start m = (inl E_undefined, m').

(** How an iteration moves the counts; [m'] is the machine it ends in. *)
Definition iter_post (start : Z) (l : interp_locals) (r : label * interp_locals + interp_locals) (m' : RISCVMachine D)
  : Prop :=
  let ticked l' :=
    n_cycles l' = n_cycles l - 1 /\ insn_executed l' = insn_executed l + 1 /\ balance l' = balance l in
  match r with
  | inr l' => ticked l' /\ n_cycles l' <> 0
  | inl (Goto e, l') => ticked l' /\ n_cycles l' <> 0 /\ (e = E_undefined -> undefined_insn start)
  | inl (The_end, l') =>
      (l' = l <| n_cycles ::= fun n => n - 1 |> /\ n_cycles l' = 0) \/
      (ticked l' /\ n_cycles l' <> 0 /\
       exists m0 s, irq_pending m0 = true /\ raise_interrupt (cpu m0) = Some s /\ m' = m0 <| cpu := s |>)
  end.

Lemma interp_iter_counts start l m r m' :
  idle m -> interp_iter start l m = (r, m') -> iter_post start l r m'.
Proof.
  intros Hm. unfold interp_iter, bind at 1, mods at 1. cbv zeta.
  assert (idle (m <| cpu ::= fun s => s <| last_pc := pc s |> <| pc := GET_PC l |> |>)) as H1.
  { apply idle_upd; [|done]. intros s H. split; [|done]. cpu_ok_split H. unfold GET_PC. width. }
  revert H1. generalize (m <| cpu ::= fun s => s <| last_pc := pc s |> <| pc := GET_PC l |> |>).
  clear m Hm. intros m Hm.
  destruct (Z.eqb_spec (n_cycles (l <| n_cycles ::= fun n => n - 1 |>)) 0) as [E0|E0].
  { intros [= <- <-]. by left. }
  pose proof (balance_tick l) as Hb.
  assert (n_cycles (l <| n_cycles ::= fun n => n - 1 |> <| insn_executed ::= fun n => n + 1 |>)
          = n_cycles l - 1) as Hn by done.
  assert (insn_executed (l <| n_cycles ::= fun n => n - 1 |> <| insn_executed ::= fun n => n + 1 |>)
          = insn_executed l + 1) as Hx by done.
  revert Hb Hn Hx. generalize (l <| n_cycles ::= fun n => n - 1 |> <| insn_executed ::= fun n => n + 1 |>).
  intros l1 Hb Hn Hx. change (n_cycles l - 1 <> 0) in E0.
  unfold bind at 1, catch at 1. pose proof (check_execute_ok m Hm) as H1. unfold wp in H1.
  destruct (check_execute m) as [[e|[]] m1] eqn:Ec.
  { intros [= <- <-]. split; [done|]. split; [by rewrite Hn|]. intros ->. revert Ec. unfold check_execute. by destruct (check_triggers _ _ _) as [[|] s]. }
  unfold bind at 1, catch at 1. destruct H1 as [_ H1]. pose proof (fetch_ok l1 m1 H1) as H2. unfold wp in H2.
  destruct (fetch l1 m1) as [r1 m2] eqn:Ef. apply fetch_counts in Ef.
  destruct r1 as [[e|]|[insn l2]].
  { intros [= <- <-]. split; [done|]. split; [by rewrite Hn|]. by intros ->. }
  { intros [= <- <-]. right. split; [done|]. split; [by rewrite Hn|]. destruct Ef as [Hi (s & Hs & ->)]. eauto. }
  intros E. apply execute_counts in E; [|apply H2].
  pose proof (balance_same _ _ Ef) as Hb2. destruct Ef as (En & Ea & Ex).
  destruct r as [[[e|] l3]|l3].
  - destruct E as (-> & e' & m3 & [= <-] & E). split; [split; [by rewrite En|split; congruence]|].
    split; [by rewrite En, Hn|]. intros ->. by repeat eexists.
  - by destruct E as (_ & e' & m3 & ? & _).
  - destruct E as (E1 & E2 & E3). split; [|by rewrite E1, En, Hn]. split; [congruence|]. split; congruence.
Qed.

(** ** The loop *)

Lemma interp_loop_counts fuel start l m :
  idle m -> 0 < n_cycles l <= Z.of_nat fuel ->
  exists e l' m', interp_loop fuel start l m = Some (e, l', m') /\ stopped 15 m' /\
    0 <= n_cycles l' < n_cycles l /\ insn_executed l' + n_cycles l' <= insn_executed l + n_cycles l /\
    match e with
    | Goto e => (balance l' = balance l /\ insn_executed l < insn_executed l' /\ 0 < n_cycles l') /\
        (e = E_undefined -> undefined_insn start)
    | The_end =>
        (balance l' = u64 (balance l + 1) /\
         insn_executed l <= insn_executed l' < insn_executed l + n_cycles l) \/
        (balance l' = balance l /\ insn_executed l < insn_executed l' /\ 0 < n_cycles l' /\
         exists m0 s, irq_pending m0 = true /\ raise_interrupt (cpu m0) = Some s /\ m' = m0 <| cpu := s |>)
    end.
Proof.
  revert l m. induction fuel as [|fuel IH]; intros l m Hm Hn; [lia|]. cbn [interp_loop].
  pose proof (interp_iter_ok start l m Hm) as Hok. unfold wp in Hok.
  destruct (interp_iter start l m) as [r m1] eqn:E.
  pose proof (interp_iter_counts start l m r m1 Hm E) as Hp. clear E.
  destruct r as [[[e|] l1]|l1]; cbn [iter_post] in Hp.
  - destruct Hp as ((H1 & H2 & H3) & H4 & H5). eexists _, _, _. split; [done|]. split; [done|].
    split; [lia|]. split; [lia|]. split; [lia|done].
  - eexists _, _, _. split; [done|]. split; [done|]. destruct Hp as [[-> H1] | ((H1 & H2 & H3) & H4 & H5)].
    + cbn in H1 |- *. split; [lia|]. split; [lia|]. left. split; [|lia]. unfold balance. locals_simpl.
      rewrite trunc_add_l by lia. f_equal. lia.
    + split; [lia|]. split; [lia|]. right. split; [done|]. split; [lia|split; [lia|done]].
  - destruct Hp as ((H1 & H2 & H3) & H4). destruct (IH l1 m1) as (e & l' & m' & E & Hs & Hr & Hr2 & Hq); [apply Hok|lia|].
    eexists _, _, _. split; [done|]. split; [done|]. split; [lia|]. split; [lia|].
    rewrite H3 in Hq. destruct e; [split; [lia|apply Hq]|]. destruct Hq as [Hq|(Hq1 & Hq2 & Hq3)]; [left; lia|right].
    split; [done|]. split; [lia|done].
Qed.

(** ** The end of the run *)

Lemma do_exception_counts l m l' m' :
  do_exception (D := D) l m = (inr l', m') ->
  n_cycles l' = n_cycles l /\ balance l' = balance l /\
  insn_executed l - 1 <= insn_executed l' <= insn_executed l.
Proof.
  unfold do_exception, bind, mods at 1, gets, id. mach_simpl. cpu_simpl. destruct (0 <=? _).
  - cbn [mods ret]. intros [= <- <-]. destruct (_ || _); [|lia]. locals_simpl. split; [done|].
    split; [|lia]. unfold balance. locals_simpl.
    replace (u64 (insn_counter_addend l - 1) - n_cycles l - (insn_executed l - 1))
      with (u64 (insn_counter_addend l - 1) + (1 - n_cycles l - insn_executed l)) by lia.
    rewrite trunc_add_l by lia. f_equal. lia.
  - intros [= <- <-]. lia.
Qed.

Lemma done_interp_balance l :
  balance (l <| n_cycles ::= fun n => n - 1 |>) = u64 (balance l + 1).
Proof. unfold balance. locals_simpl. rewrite trunc_add_l by lia. f_equal. lia. Qed.

Lemma leave_counts e l m :
  match leave (D := D) (Goto e) l m with
  | (inl e', _) => e = E_undefined /\ e' = E_undefined
  | (inr l', _) => balance l' = u64 (balance l + 1) /\
      insn_executed l - 1 <= insn_executed l' <= insn_executed l
  end.
Proof.
  assert (forall m, match bind (do_exception (D := D) l)
      (fun l => ret (E := exit) (l <| n_cycles ::= fun n => n - 1 |>)) m with
    | (inl e', _) => False
    | (inr l', _) => balance l' = u64 (balance l + 1) /\
        insn_executed l - 1 <= insn_executed l' <= insn_executed l
    end) as Hd.
  { intros m1. unfold bind. destruct (do_exception l m1) as [[e1|l1] m2] eqn:E.
    - revert E. unfold do_exception, bind, mods at 1, gets. by destruct (0 <=? _).
    - apply do_exception_counts in E as (H1 & H2 & H3). cbn [ret]. by rewrite done_interp_balance, H2. }
  unfold leave. cbv zeta. destruct e.
  - specialize (Hd m). by destruct (bind _ _ m) as [[]].
  - unfold bind at 1, mods. match goal with |- context [bind _ _ ?x] => specialize (Hd x) end.
    by destruct (bind _ _ _) as [[]].
  - cbn [ret]. rewrite done_interp_balance. split; [done|]. locals_simpl. lia.
  - done.
Qed.

Lemma trunc_32_64 x y : u32 (u64 x + y) = u32 (x + y).
Proof.
  unfold trunc at 2. rewrite (Z.mod_eq x (2 ^ 64)) by done.
  replace (x - 2 ^ 64 * (x / 2 ^ 64) + y) with (x + y + (- (2 ^ 32 * (x / 2 ^ 64))) * 2 ^ 32) by lia.
  by apply trunc_period.
Qed.

Lemma get_counter_balance l : GET_INSN_COUNTER l = u64 (balance l + insn_executed l).
Proof. unfold GET_INSN_COUNTER, balance. rewrite trunc_add_l by lia. f_equal. lia. Qed.

(** The assertion [delta >= 0] holds and the counter is written back. *)
Lemma the_end_counts start l k (m : RISCVMachine D) :
  GET_INSN_COUNTER l = u64 (start + k) -> 0 <= k < 2 ^ 31 ->
  exists m', the_end start l m = (inr (insn_executed l), m') /\
    insn_counter (cpu m') = u64 (start + k) /\ pc (cpu m') = pc (cpu m).
Proof.
  intros Hg Hk. unfold the_end, count_insns, bind, mods at 1, gets. rewrite Hg.
  assert (i32 (u64 (start + k) - start) = k) as Hd.
  { rewrite <- (sgn_id 32 k) at 2 by lia. apply sgn_eq; [lia|].
    replace (u64 (start + k) - start) with (u64 (start + k) + - start) by lia.
    rewrite trunc_32_64. f_equal. lia. }
  destruct (stop_the_counter _); [by eexists|]. cbv zeta. rewrite Hd.
  destruct (Z.ltb_spec k 0); [lia|]. by eexists.
Qed.

(** The interrupt that ended the run, when one did: it was taken in [m0]. *)
Definition taken_at (pc' : Z) (m0 : RISCVMachine D) : Prop :=
  irq_pending m0 = true /\ exists s, raise_interrupt (cpu m0) = Some s /\ pc' = pc s.

Lemma interp_loop_end n start m3 :
  idle m3 -> 0 < n < 2 ^ 31 - 1 -> fits 64 start ->
  match interp_loop (Z.to_nat (n + 1)) start
          (mkLocals 0 0 (pc (cpu m3)) (n + 1) (u64 (start + n)) 0) m3 with
  | None => False
  | Some (e, l, m4) =>
      match (l <- leave e l ;; the_end start l) m4 with
      | (inl e, _) => e = E_undefined /\ undefined_insn start
      | (inr k, m') => 0 <= k <= n /\
          (insn_counter (cpu m') = u64 (start + k) \/
           0 < k /\ insn_counter (cpu m') = u64 (start + k - 1) /\ exists m0, taken_at (pc (cpu m')) m0)
      end
  end.
Proof.
  intros H3 Hn Hs.
  destruct (interp_loop_counts (Z.to_nat (n + 1)) start (mkLocals 0 0 (pc (cpu m3)) (n + 1) (u64 (start + n)) 0) m3)
    as (e & l & m4 & -> & _ & Hr & Hr2 & Hq); [done|cbn [n_cycles]; lia|].
  assert (balance (mkLocals 0 0 (pc (cpu m3)) (n + 1) (u64 (start + n)) 0) = u64 (start - 1)) as Hb0.
  { unfold balance. cbn [insn_counter_addend n_cycles insn_executed].
    replace (u64 (start + n) - (n + 1) - 0) with (u64 (start + n) + (- n - 1)) by lia.
    rewrite trunc_add_l by lia. f_equal. lia. }
  assert (u64 (u64 (start - 1) + 1) = start) as Hb1.
  { rewrite trunc_add_l by lia. rewrite <- (trunc_small 64 start) at 2 by done. f_equal. lia. }
  rewrite Hb0, Hb1 in Hq. cbn [n_cycles insn_executed] in Hr, Hr2, Hq. unfold bind.
  destruct e as [e|].
  - destruct Hq as [Hq Hu]. pose proof (leave_counts e l m4) as Hl.
    destruct (leave (Goto e) l m4) as [[e'|l'] m5]; [by destruct Hl as [-> ->]; auto|].
    destruct Hl as [Hl1 Hl2]. destruct Hq as (Hq1 & Hq2 & Hq3). rewrite Hq1, Hb1 in Hl1.
    destruct (the_end_counts start l' (insn_executed l') m5) as (m' & -> & Hc & _); [|lia|].
    { by rewrite get_counter_balance, Hl1. }
    split; [lia|]. by left.
  - cbn [leave ret]. destruct Hq as [(Hq1 & Hq2) | (Hq1 & Hq2 & Hq3 & m0 & s & Hi & Hra & ->)].
    + destruct (the_end_counts start l (insn_executed l) m4) as (m' & -> & Hc & _); [|lia|].
      { by rewrite get_counter_balance, Hq1. }
      split; [lia|]. by left.
    + destruct (the_end_counts start l (insn_executed l - 1) (m0 <| cpu := s |>)) as (m' & -> & Hc & Hp); [|lia|].
      { rewrite get_counter_balance, Hq1, trunc_add_l by lia. f_equal. lia. }
      split; [lia|]. right. split; [lia|]. split; [by replace (start + insn_executed l - 1) with (start + (insn_executed l - 1)) by lia|].
      exists m0. split; [done|]. eauto.
Qed.

End Run.

