(* ===== verification/Decode.v ===== *)
(** * Immediate formats

    The immediates that the interpreter extracts, against the formats of the ISA
    manual: [gather x [p0; p1; ...]] is the number whose bit [i] is bit [p_i] of
    the instruction ([-1]: zero). *)

From S2P Require Import Prelude Iomem Cpu Pmp Csr Trap Machine Mmu Alu Insn Interp.

Fixpoint gather (x : Z) (l : list Z) : Z :=
  match l with
  | [] => 0
  | p :: l' => b2z (Z.testbit x p) + 2 * gather x l'
  end.

Lemma testbit_gather x l i : 0 <= i -> Z.testbit (gather x l) i = Z.testbit x (nth (Z.to_nat i) l (-1)).
Proof.
  revert i. induction l as [|p l IH]; intros i Hi; cbn [gather].
  - rewrite Z.bits_0. by destruct (Z.to_nat i); rewrite Z.testbit_neg_r.
  - rewrite Z.add_comm. destruct (Z.eq_dec i 0) as [->|Hz].
    + change (nth (Z.to_nat 0) (p :: l) (-1)) with p. destruct (Z.testbit x p); cbn [b2z].
      * apply Z.testbit_odd_0.
      * rewrite Z.add_0_r. apply Z.testbit_even_0.
    + replace (Z.to_nat i) with (S (Z.to_nat (i - 1))) by lia. cbn [nth]. rewrite <- IH by lia.
      replace i with (Z.succ (i - 1)) at 1 by lia. destruct (Z.testbit x p); cbn [b2z].
      * by rewrite Z.testbit_odd_succ by lia.
      * rewrite Z.add_0_r. by rewrite Z.testbit_even_succ by lia.
Qed.

Lemma sgn_bits_ext w x y :
  0 < w -> Forall (fun i => Z.testbit x i = Z.testbit y i) (seqZ 0 w) -> sgn w x = sgn w y.
Proof.
  intros Hw H. apply Z.bits_inj'. intros i Hi. rewrite !testbit_sgn by lia.
  rewrite Forall_forall in H. apply H, elem_of_seqZ. lia.
Qed.

(** [(int32_t)(x << (32 - n)) >> (32 - n)]. *)
Lemma sext_sgn n x : 0 < n <= 32 -> sext x n = sgn n x.
Proof.
  intros Hn. unfold sext. apply Z.bits_inj'. intros i Hi.
  rewrite Z.shiftr_spec, !testbit_sgn, Z.shiftl_spec by lia. f_equal. lia.
Qed.

Lemma imm_i_sgn insn : imm_i insn = sgn 12 (insn >> 20).
Proof.
  unfold imm_i. apply Z.bits_inj'. intros i Hi. rewrite Z.shiftr_spec, !testbit_sgn, Z.shiftr_spec by lia.
  f_equal. lia.
Qed.

Lemma trunc_bits_ext w x y :
  0 <= w -> fits w x -> fits w y -> Forall (fun i => Z.testbit x i = Z.testbit y i) (seqZ 0 w) -> x = y.
Proof.
  intros Hw Hx Hy H. apply Z.bits_inj'. intros i Hi. destruct (Z.ltb_spec i w).
  - rewrite Forall_forall in H. apply H, elem_of_seqZ. lia.
  - apply fits_testbit in Hx as [_ ->]; [|lia..]. by apply fits_testbit in Hy as [_ ->]; [|lia..].
Qed.

Lemma gather_fits x l : fits (Z.of_nat (length l)) (gather x l).
Proof.
  induction l as [|p l IH]; [done|]. cbn [gather length].
  rewrite Nat2Z.inj_succ. unfold fits in *. rewrite Z.pow_succ_r by lia.
  assert (0 <= b2z (Z.testbit x p) <= 1) by (by destruct (Z.testbit x p)). lia.
Qed.

(** Evaluates bit [i], a literal, of expressions over masks that are literals. *)
Ltac literal_bits :=
  repeat first
    [ progress push_testbit
    | match goal with
      | |- context [?a + ?b] => let c := eval vm_compute in (a + b) in change (a + b) with c
      | |- context [?a - ?b] => let c := eval vm_compute in (a - b) in change (a - b) with c
      | |- context [?a <? ?b] => let c := eval vm_compute in (a <? b) in change (a <? b) with c
      | |- context [Z.testbit (Zpos ?p) ?i] =>
          let c := eval vm_compute in (Z.testbit (Zpos p) i) in change (Z.testbit (Zpos p) i) with c
      | |- context [Z.testbit ?x (Zneg ?p)] => rewrite (Z.testbit_neg_r x (Zneg p)) by lia
      | |- context [Zpos ?p << ?n] =>
          let c := eval vm_compute in (Zpos p << n) in change (Zpos p << n) with c
      end ];
  rewrite ?andb_true_r, ?andb_false_r, ?andb_true_l, ?andb_false_l, ?orb_false_r, ?orb_false_l;
  try reflexivity.

Ltac as_sext :=
  lazymatch goal with
  | |- i32 (?x << ?k) >> ?k = sgn ?n ?y => change (sext x n = sgn n y); rewrite (sext_sgn n) by lia
  | |- sext _ ?n = _ => rewrite (sext_sgn n) by lia
  end.

Ltac gathered_bit :=
  rewrite testbit_gather by lia;
  match goal with
  | |- context [nth ?n ?l (-1)] => let c := eval vm_compute in (nth n l (-1)) in change (nth n l (-1)) with c
  end.

Ltac each_bit := repeat constructor; gathered_bit; literal_bits.

Ltac literal_lists :=
  repeat match goal with
         | |- context [seqZ ?a ?n] => let l := eval vm_compute in (seqZ a n) in change (seqZ a n) with l
         | |- context [replicate ?n (-1)] => let l := eval vm_compute in (replicate n (-1)) in
                                             change (replicate n (-1)) with l
         end; cbn [app].

(** [get_field1] at literal positions. *)
Ltac literal_fields :=
  unfold get_field1; cbv zeta;
  repeat match goal with
         | |- context [if ?a <=? ?b then _ else _] =>
             let c := eval vm_compute in (a <=? b) in change (a <=? b) with c; cbv iota
         | |- context [u32 (((1 << ?a) - 1) << ?d)] =>
             let c := eval vm_compute in (u32 (((1 << a) - 1) << d)) in
             change (u32 (((1 << a) - 1) << d)) with c
         end.

Ltac unsigned_format n :=
  apply (trunc_bits_ext n); [lia| |apply gather_fits|];
  literal_fields;
  [ repeat match goal with |- context [Zpos ?p << ?k] =>
      let c := eval vm_compute in (Zpos p << k) in change (Zpos p << k) with c end; width
  | literal_lists; each_bit ].

Ltac signed_format := as_sext; apply sgn_bits_ext; [lia|]; literal_fields; literal_lists; each_bit.

Lemma imm_s_gather insn : imm_s insn = sgn 12 (gather insn (seqZ 7 5 ++ seqZ 25 7)).
Proof. unfold imm_s, rd_of. signed_format. Qed.

Lemma imm_b_gather insn : imm_b insn = sgn 13 (gather insn ([-1] ++ seqZ 8 4 ++ seqZ 25 6 ++ [7; 31])).
Proof. unfold imm_b. signed_format. Qed.

Lemma imm_j_gather insn :
  imm_j insn = sgn 21 (gather insn ([-1] ++ seqZ 21 10 ++ [20] ++ seqZ 12 8 ++ [31])).
Proof. unfold imm_j. signed_format. Qed.

(** The immediates of the base formats are those of the ISA manual, for every
    instruction word: I, S, B, U and J, sign-extended. *)
Lemma base_immediates insn :
  imm_i insn = sgn 12 (gather insn (seqZ 20 12)) /\
  imm_s insn = sgn 12 (gather insn (seqZ 7 5 ++ seqZ 25 7)) /\
  imm_b insn = sgn 13 (gather insn ([-1] ++ seqZ 8 4 ++ seqZ 25 6 ++ [7; 31])) /\
  imm_u insn = sgn 32 (gather insn (replicate 12 (-1) ++ seqZ 12 20)) /\
  imm_j insn = sgn 21 (gather insn ([-1] ++ seqZ 21 10 ++ [20] ++ seqZ 12 8 ++ [31])).
Proof.
  split; [|split; [|split; [|split]]].
  - rewrite imm_i_sgn. apply sgn_bits_ext; [lia|]. literal_lists. each_bit.
  - apply imm_s_gather.
  - apply imm_b_gather.
  - unfold imm_u. apply sgn_bits_ext; [lia|]. literal_lists. each_bit.
  - apply imm_j_gather.
Qed.

(** The compressed formats, one by one. *)
Section Formats.
Context (insn : Z).

Lemma c_imm_addi4spn_gather :
  c_imm_addi4spn insn = gather insn [-1; -1; 6; 5; 11; 12; 7; 8; 9; 10].
Proof. unfold c_imm_addi4spn. unsigned_format 10. Qed.

Lemma c_imm_w_gather : c_imm_w insn = gather insn [-1; -1; 6; 10; 11; 12; 5].
Proof. unfold c_imm_w. unsigned_format 7. Qed.

Lemma c_imm_d_gather : c_imm_d insn = gather insn [-1; -1; -1; 10; 11; 12; 5; 6].
Proof. unfold c_imm_d. unsigned_format 8. Qed.

Lemma c_imm6u_gather : c_imm6u insn = gather insn [2; 3; 4; 5; 6; 12].
Proof. unfold c_imm6u. unsigned_format 6. Qed.

Lemma c_imm6_gather : c_imm6 insn = sgn 6 (gather insn [2; 3; 4; 5; 6; 12]).
Proof. unfold c_imm6. by rewrite c_imm6u_gather, sext_sgn by lia. Qed.

Lemma c_imm_addi16sp_gather :
  c_imm_addi16sp insn = sgn 10 (gather insn [-1; -1; -1; -1; 6; 2; 5; 3; 4; 12]).
Proof. unfold c_imm_addi16sp. signed_format. Qed.

Lemma c_imm_lui_gather :
  c_imm_lui insn = sgn 18 (gather insn (replicate 12 (-1) ++ [2; 3; 4; 5; 6; 12])).
Proof. unfold c_imm_lui. signed_format. Qed.

Lemma c_imm_j_gather : c_imm_j insn = sgn 12 (gather insn [-1; 3; 4; 5; 11; 2; 7; 6; 9; 10; 8; 12]).
Proof. unfold c_imm_j. signed_format. Qed.

Lemma c_imm_b_gather : c_imm_b insn = sgn 9 (gather insn [-1; 3; 4; 10; 11; 2; 5; 6; 12]).
Proof. unfold c_imm_b. signed_format. Qed.

Lemma c_imm_ldsp_gather :
  c_imm_ldsp insn ((insn >> 2) .& 0x1f) = gather insn [-1; -1; -1; 5; 6; 12; 2; 3; 4].
Proof. unfold c_imm_ldsp. unsigned_format 9. Qed.

Lemma c_imm_lwsp_gather :
  c_imm_lwsp insn ((insn >> 2) .& 0x1f) = gather insn [-1; -1; 4; 5; 6; 12; 2; 3].
Proof. unfold c_imm_lwsp. unsigned_format 8. Qed.

Lemma c_imm_sdsp_gather : c_imm_sdsp insn = gather insn [-1; -1; -1; 10; 11; 12; 7; 8; 9].
Proof. unfold c_imm_sdsp. unsigned_format 9. Qed.

Lemma c_imm_swsp_gather : c_imm_swsp insn = gather insn [-1; -1; 9; 10; 11; 12; 7; 8].
Proof. unfold c_imm_swsp. unsigned_format 8. Qed.
End Formats.

(** The immediates of the compressed formats are those of the ISA manual. *)
Lemma compressed_immediates insn :
  c_imm_addi4spn insn = gather insn [-1; -1; 6; 5; 11; 12; 7; 8; 9; 10] /\
  c_imm_w insn = gather insn [-1; -1; 6; 10; 11; 12; 5] /\
  c_imm_d insn = gather insn [-1; -1; -1; 10; 11; 12; 5; 6] /\
  c_imm6 insn = sgn 6 (gather insn [2; 3; 4; 5; 6; 12]) /\
  c_imm_addi16sp insn = sgn 10 (gather insn [-1; -1; -1; -1; 6; 2; 5; 3; 4; 12]) /\
  c_imm_lui insn = sgn 18 (gather insn (replicate 12 (-1) ++ [2; 3; 4; 5; 6; 12])) /\
  c_imm_j insn = sgn 12 (gather insn [-1; 3; 4; 5; 11; 2; 7; 6; 9; 10; 8; 12]) /\
  c_imm_b insn = sgn 9 (gather insn [-1; 3; 4; 10; 11; 2; 5; 6; 12]) /\
  c_imm_ldsp insn ((insn >> 2) .& 0x1f) = gather insn [-1; -1; -1; 5; 6; 12; 2; 3; 4] /\
  c_imm_lwsp insn ((insn >> 2) .& 0x1f) = gather insn [-1; -1; 4; 5; 6; 12; 2; 3] /\
  c_imm_sdsp insn = gather insn [-1; -1; -1; 10; 11; 12; 7; 8; 9] /\
  c_imm_swsp insn = gather insn [-1; -1; 9; 10; 11; 12; 7; 8].
Proof.
  repeat split; auto using c_imm_addi4spn_gather, c_imm_w_gather, c_imm_d_gather, c_imm6_gather,
    c_imm_addi16sp_gather, c_imm_lui_gather, c_imm_j_gather, c_imm_b_gather, c_imm_ldsp_gather,
    c_imm_lwsp_gather, c_imm_sdsp_gather, c_imm_swsp_gather.
Qed.
