(* ===== verification/Encode.v ===== *)
(** * Encoders of the base instruction formats

    [enc_x] assembles a 32-bit word from its fields; decoding it with the field
    extractors of the interpreter gives the fields back. *)

From S2P Require Import Prelude Iomem Cpu Pmp Csr Trap Machine Mmu Alu Insn Interp Decode.

(** ** Encoders of the base formats *)

Definition enc_r (op rd f3 rs1 rs2 f7 : Z) : Z :=
  op .| (rd << 7) .| (f3 << 12) .| (rs1 << 15) .| (rs2 << 20) .| (f7 << 25).

Definition enc_i (op rd f3 rs1 imm : Z) : Z :=
  op .| (rd << 7) .| (f3 << 12) .| (rs1 << 15) .| ((imm .& 0xfff) << 20).

Definition enc_s (op f3 rs1 rs2 imm : Z) : Z :=
  op .| ((imm .& 0x1f) << 7) .| (f3 << 12) .| (rs1 << 15) .| (rs2 << 20) .| (((imm >> 5) .& 0x7f) << 25).

Definition enc_b (op f3 rs1 rs2 imm : Z) : Z :=
  op .| (((imm >> 11) .& 1) << 7) .| (((imm >> 1) .& 0xf) << 8) .| (f3 << 12) .| (rs1 << 15)
  .| (rs2 << 20) .| (((imm >> 5) .& 0x3f) << 25) .| (((imm >> 12) .& 1) << 31).

Definition enc_u (op rd imm : Z) : Z := op .| (rd << 7) .| (imm .& 0xfffff000).

Definition enc_j (op rd imm : Z) : Z :=
  op .| (rd << 7) .| (((imm >> 12) .& 0xff) << 12) .| (((imm >> 11) .& 1) << 20)
  .| (((imm >> 1) .& 0x3ff) << 21) .| (((imm >> 20) .& 1) << 31).

(** *** Decoding what they encode *)

Lemma fits_high w v k : fits w v -> (0 <=? w) && (w <=? k) = true -> Z.testbit v k = false.
Proof. intros H Hk. apply fits_testbit in H as [_ H]; [apply H|]; lia. Qed.

(** Drops the bits above the widths of the fields. *)
Ltac drop_high :=
  repeat match goal with
         | H : fits ?w ?v |- context [Z.testbit ?v (Zpos ?k)] =>
             rewrite (fits_high w v (Zpos k) H) by reflexivity
         end;
  rewrite ?andb_true_r, ?andb_false_r, ?orb_false_r, ?orb_false_l; try reflexivity.

(** A field of [n] bits of an encoded instruction. *)
Ltac enc_field n :=
  apply (trunc_bits_ext n); [lia|first [by width | by unfold fits; cbn; lia]|first [assumption|by width]|];
  literal_lists; repeat constructor; literal_bits; drop_high.

Ltac enc_signed' :=
  apply sgn_bits_ext; [lia|]; literal_lists; repeat constructor; literal_bits; drop_high.
Ltac enc_gather :=
  apply sgn_bits_ext; [lia|]; literal_lists; repeat constructor; gathered_bit;
  literal_bits; drop_high.

Ltac enc_fits :=
  repeat first [apply fits_lor; [lia| |] | apply fits_shiftl; [lia|]
               | apply (fits_mono 7); [lia|assumption] | apply (fits_mono 5); [lia|assumption]
               | apply (fits_mono 3); [lia|assumption] | apply fits_land_r; [lia|unfold fits; lia]].

Lemma enc_i_fits op rd f3 rs1 imm :
  fits 7 op -> fits 5 rd -> fits 3 f3 -> fits 5 rs1 -> fits 32 (enc_i op rd f3 rs1 imm).
Proof. intros. unfold enc_i. enc_fits. Qed.

Lemma enc_r_fits op rd f3 rs1 rs2 f7 :
  fits 7 op -> fits 5 rd -> fits 3 f3 -> fits 5 rs1 -> fits 5 rs2 -> fits 7 f7 ->
  fits 32 (enc_r op rd f3 rs1 rs2 f7).
Proof. intros. unfold enc_r. enc_fits. Qed.

Ltac dec_fields := unfold enc_r, enc_i, enc_s, enc_b, enc_u, enc_j, op_of, rd_of, funct3_of, rs1_of, rs2_of.

Lemma dec_i op rd f3 rs1 imm :
  fits 7 op -> fits 5 rd -> fits 3 f3 -> fits 5 rs1 ->
  let w := enc_i op rd f3 rs1 imm in
  op_of w = op /\ rd_of w = rd /\ funct3_of w = f3 /\ rs1_of w = rs1 /\ imm_i w = sgn 12 imm /\
  (w >> 20) .& 0xfff = imm .& 0xfff.
Proof.
  intros Ho Hr Hf H1. cbv zeta. dec_fields.
  split; [enc_field 7|]. split; [enc_field 5|]. split; [enc_field 3|]. split; [enc_field 5|].
  split; [|enc_field 12]. rewrite imm_i_sgn. enc_signed'.
Qed.

Lemma dec_r op rd f3 rs1 rs2 f7 :
  fits 7 op -> fits 5 rd -> fits 3 f3 -> fits 5 rs1 -> fits 5 rs2 -> fits 7 f7 ->
  let w := enc_r op rd f3 rs1 rs2 f7 in
  op_of w = op /\ rd_of w = rd /\ funct3_of w = f3 /\ rs1_of w = rs1 /\ rs2_of w = rs2 /\ w >> 25 = f7.
Proof.
  intros Ho Hr Hf H1 H2 H7. cbv zeta. dec_fields.
  split; [enc_field 7|]. split; [enc_field 5|]. split; [enc_field 3|]. split; [enc_field 5|].
  split; [enc_field 5|].
  apply (trunc_bits_ext 7); [lia| |done|literal_lists; repeat constructor; literal_bits; drop_high].
  by apply (fits_shiftr_sub 32 25), enc_r_fits.
Qed.

Lemma dec_s op f3 rs1 rs2 imm :
  fits 7 op -> fits 3 f3 -> fits 5 rs1 -> fits 5 rs2 ->
  let w := enc_s op f3 rs1 rs2 imm in
  op_of w = op /\ funct3_of w = f3 /\ rs1_of w = rs1 /\ rs2_of w = rs2 /\ imm_s w = sgn 12 imm.
Proof.
  intros Ho Hf H1 H2. cbv zeta. rewrite imm_s_gather. dec_fields.
  split; [enc_field 7|]. split; [enc_field 3|]. split; [enc_field 5|]. split; [enc_field 5|enc_gather].
Qed.

Lemma dec_b op f3 rs1 rs2 imm :
  fits 7 op -> fits 3 f3 -> fits 5 rs1 -> fits 5 rs2 -> Z.testbit imm 0 = false ->
  let w := enc_b op f3 rs1 rs2 imm in
  op_of w = op /\ funct3_of w = f3 /\ rs1_of w = rs1 /\ rs2_of w = rs2 /\ imm_b w = sgn 13 imm.
Proof.
  intros Ho Hf H1 H2 Hi. cbv zeta. rewrite imm_b_gather. dec_fields.
  split; [enc_field 7|]. split; [enc_field 3|]. split; [enc_field 5|]. split; [enc_field 5|enc_gather; by rewrite Hi].
Qed.

Lemma dec_u op rd imm :
  fits 7 op -> fits 5 rd ->
  let w := enc_u op rd imm in
  op_of w = op /\ rd_of w = rd /\ imm_u w = i32 (imm .& 0xfffff000).
Proof.
  intros Ho Hr. cbv zeta. unfold imm_u. dec_fields.
  split; [enc_field 7|]. split; [enc_field 5|enc_signed'].
Qed.

Lemma dec_j op rd imm :
  fits 7 op -> fits 5 rd -> Z.testbit imm 0 = false ->
  let w := enc_j op rd imm in
  op_of w = op /\ rd_of w = rd /\ imm_j w = sgn 21 imm.
Proof.
  intros Ho Hr Hi. cbv zeta. rewrite imm_j_gather. dec_fields.
  split; [enc_field 7|]. split; [enc_field 5|enc_gather; by rewrite Hi].
Qed.
