(* ===== verification/Compressed.v ===== *)
(** * The compressed instructions are short forms of base instructions

    [expand] gives the 32-bit instruction that the ISA manual assigns to a 16-bit
    one; the interpreter, which decodes and executes the two separately, does the
    same for both. *)

From S2P Require Import Prelude Iomem Cpu Pmp Csr Trap Machine Mmu Alu Insn Fp Vector Interp SafeInsn Safety Decode Encode.

(** ** What the base instructions do

    With STF recording off, reading a register has no effect. *)

Section Base.
Context {D : Type} {dv : Devices D} (icount start : Z).
Implicit Types m : RISCVMachine D.
Abbreviation step := (exec_insn ).

Lemma read_reg_off x m :
  stf_in_traceable_region m = false -> read_reg x m = (inr (aget 0 (reg (cpu m)) x), m).
Proof. intros E. unfold read_reg, bind, getm. by rewrite E. Qed.

Lemma read_fp_reg_off x m :
  stf_in_traceable_region m = false -> read_fp_reg x m = (inr (aget 0 (fp_reg (cpu m)) x), m).
Proof. intros E. unfold read_fp_reg, bind, getm. by rewrite E. Qed.

Lemma low_bits insn op : op_of insn = op -> insn .& 3 = op .& 3.
Proof. intros <-. unfold op_of. by rewrite <- Z.land_assoc. Qed.

(** The dispatch on a literal opcode. *)
Lemma exec_insn_op insn op :
  op_of insn = op -> op .& 3 = 3 ->
  step insn icount start =
    (if op =? 0x37 then write_rd (rd_of insn) (imm_u insn) ;;; ret NextInsn
     else if op =? 0x17 then
       cur <- gets pc ;; write_rd (rd_of insn) (cur + imm_u insn) ;;; ret NextInsn
     else if op =? 0x6f then exec_jal insn
     else if op =? 0x67 then exec_jalr insn
     else if op =? 0x63 then exec_branch insn
     else if op =? 0x03 then exec_load insn
     else if op =? 0x23 then exec_store insn
     else if op =? 0x13 then exec_op_imm insn
     else if op =? 0x1b then exec_op_imm_32 insn
     else if op =? 0x33 then exec_op insn
     else if op =? 0x3b then exec_op_32 insn
     else if op =? 0x73 then exec_system insn icount start
     else if op =? 0x0f then exec_misc_mem insn
     else if op =? 0x2f then exec_amo insn
     else if op =? 0x07 then exec_fload insn
     else if op =? 0x27 then exec_fstore insn
     else if (op =? 0x43) || (op =? 0x47) || (op =? 0x4b) || (op =? 0x4f) || (op =? 0x53)
       then exec_fp insn
     else if op =? 0x57 then exec_vector insn
     else illegal).
Proof.
  intros Ho H3. unfold exec_insn. rewrite (low_bits _ _ Ho), H3, Ho. reflexivity.
Qed.

Context (m : RISCVMachine D) (Hoff : stf_in_traceable_region m = false).
Abbreviation x r := (aget 0 (reg (cpu m)) r).

(** Decodes the encoded instruction and dispatches on its opcode. *)
Ltac small := first [assumption | by unfold fits; lia].
Ltac fields_of :=
  intros;
  match goal with
  | |- context [enc_i ?op ?rd ?f3 ?rs1 ?imm] =>
      destruct (dec_i op rd f3 rs1 imm) as (Ho & Hd & Hf & Ha & Hi & Hi'); [small..|]
  | |- context [enc_r ?op ?rd ?f3 ?rs1 ?rs2 ?f7] =>
      destruct (dec_r op rd f3 rs1 rs2 f7) as (Ho & Hd & Hf & Ha & Hb & H7); [small..|]
  | |- context [enc_s ?op ?f3 ?rs1 ?rs2 ?imm] =>
      destruct (dec_s op f3 rs1 rs2 imm) as (Ho & Hf & Ha & Hb & Hi); [small..|]
  | |- context [enc_b ?op ?f3 ?rs1 ?rs2 ?imm] =>
      destruct (dec_b op f3 rs1 rs2 imm) as (Ho & Hf & Ha & Hb & Hi); [small..|]
  | |- context [enc_u ?op ?rd ?imm] =>
      destruct (dec_u op rd imm) as (Ho & Hd & Hi); [small..|]
  | |- context [enc_j ?op ?rd ?imm] =>
      destruct (dec_j op rd imm) as (Ho & Hd & Hi); [small..|]
  end;
  match goal with
  | H : op_of _ = _ |- _ => rewrite (exec_insn_op _ _ H) by reflexivity; cbn [Z.eqb Pos.eqb orb]
  end.

Ltac by_fields :=
  repeat match goal with
         | H : rd_of _ = _ |- _ => rewrite H; clear H
         | H : rs1_of _ = _ |- _ => rewrite !H; clear H
         | H : rs2_of _ = _ |- _ => rewrite !H; clear H
         | H : funct3_30 _ = _ |- _ => rewrite !H; clear H
         | H : funct3_of _ = _ |- _ => rewrite !H; clear H
         | H : _ >> 25 = _ |- _ => rewrite !H; clear H
         | H : imm_i _ = _ |- _ => rewrite !H; clear H
         | H : imm_s _ = _ |- _ => rewrite !H; clear H
         | H : imm_b _ = _ |- _ => rewrite !H; clear H
         | H : imm_j _ = _ |- _ => rewrite !H; clear H
         | H : imm_u _ = _ |- _ => rewrite !H; clear H
         | H : (_ >> 20) .& 0xfff = _ |- _ => rewrite !H; clear H
         end.

(** Runs the reads at the head of a computation. *)
Ltac reads :=
  repeat first
    [ rewrite !read_reg_off by assumption | rewrite !read_fp_reg_off by assumption
    | progress unfold bind, getm, gets, ret ].

Lemma addi_eq rd rs1 imm :
  fits 5 rd -> fits 5 rs1 ->
  step (enc_i 0x13 rd 0 rs1 imm) icount start m =
    (write_rd rd (x rs1 + sgn 12 imm) ;;; ret NextInsn) m.
Proof.
  fields_of. unfold exec_op_imm. by_fields. cbn [Z.eqb]. reads. done.
Qed.

Lemma addiw_eq rd rs1 imm :
  fits 5 rd -> fits 5 rs1 ->
  step (enc_i 0x1b rd 0 rs1 imm) icount start m =
    (write_rd rd (i32 (x rs1 + sgn 12 imm)) ;;; ret NextInsn) m.
Proof.
  fields_of. unfold exec_op_imm_32. by_fields. cbn [Z.eqb]. reads. done.
Qed.

Lemma andi_eq rd rs1 imm :
  fits 5 rd -> fits 5 rs1 ->
  step (enc_i 0x13 rd 7 rs1 imm) icount start m =
    (write_rd rd (x rs1 .& sgn 12 imm) ;;; ret NextInsn) m.
Proof.
  fields_of. unfold exec_op_imm. by_fields. cbn [Z.eqb Pos.eqb]. reads. done.
Qed.

Lemma lui_eq rd imm :
  fits 5 rd ->
  step (enc_u 0x37 rd imm) icount start m =
    (write_rd rd (i32 (imm .& 0xfffff000)) ;;; ret NextInsn) m.
Proof. fields_of. by by_fields. Qed.

Lemma lw_eq rd rs1 imm :
  fits 5 rd -> fits 5 rs1 ->
  step (enc_i 0x03 rd 2 rs1 imm) icount start m =
    (v <- load (u64 (x rs1 + sgn 12 imm)) 2 ;; write_rd rd (i32 v) ;;; ret NextInsn) m.
Proof.
  fields_of. unfold exec_load. by_fields. cbn [Z.eqb Pos.eqb]. reads.
  by destruct (load _ _ _) as [[e|v] m'].
Qed.

Lemma ld_eq rd rs1 imm :
  fits 5 rd -> fits 5 rs1 ->
  step (enc_i 0x03 rd 3 rs1 imm) icount start m =
    (v <- load (u64 (x rs1 + sgn 12 imm)) 3 ;; write_rd rd (i64 v) ;;; ret NextInsn) m.
Proof.
  fields_of. unfold exec_load. by_fields. cbn [Z.eqb Pos.eqb]. reads.
  by destruct (load _ _ _) as [[e|v] m'].
Qed.

Lemma fld_eq rd rs1 imm :
  fits 5 rd -> fits 5 rs1 ->
  step (enc_i 0x07 rd 3 rs1 imm) icount start m =
    (need_fs ;;; v <- load (u64 (x rs1 + sgn 12 imm)) 3 ;; write_fp_reg rd (v .| F64_HIGH) ;;;
     ret NextInsn) m.
Proof.
  fields_of. unfold exec_fload. by_fields. cbn [Z.eqb Pos.eqb]. reads. done.
Qed.

Lemma store_eq n rs1 rs2 imm :
  fits 5 rs1 -> fits 5 rs2 -> 0 <= n <= 3 ->
  step (enc_s 0x23 n rs1 rs2 imm) icount start m =
    (store (u64 (x rs1 + sgn 12 imm)) (x rs2) n ;;; ret NextInsn) m.
Proof.
  fields_of. unfold exec_store. by_fields.
  rewrite (proj2 (Z.leb_le n 3)) by lia. reads. done.
Qed.

Lemma fsd_eq rs1 rs2 imm :
  fits 5 rs1 -> fits 5 rs2 ->
  step (enc_s 0x27 3 rs1 rs2 imm) icount start m =
    (need_fs ;;; store (u64 (x rs1 + sgn 12 imm)) (aget 0 (fp_reg (cpu m)) rs2) 3 ;;; ret NextInsn) m.
Proof.
  fields_of. unfold exec_fstore. by_fields. cbn [Z.eqb Pos.eqb orb]. unfold need_fs, illegal.
  reads. destruct (_ =? 0); reads; done.
Qed.

Lemma funct3_30_of insn f7 :
  insn >> 25 = f7 -> funct3_30 insn = funct3_of insn .| ((f7 >> 2) .& 8).
Proof. intros <-. unfold funct3_30. by rewrite Z.shiftr_shiftr by lia. Qed.

Ltac op_fields :=
  fields_of; match goal with H : _ >> 25 = _ |- _ => pose proof (funct3_30_of _ _ H) as H30 end;
  unfold exec_op, exec_op_32; by_fields; cbn [Z.eqb Pos.eqb].

Ltac off := rewrite ?andb_false_r, ?andb_false_l.

Lemma op_eq f3 rd rs1 rs2 :
  fits 3 f3 -> fits 5 rd -> fits 5 rs1 -> fits 5 rs2 ->
  step (enc_r 0x33 rd f3 rs1 rs2 0) icount start m =
    (v <- base_op f3 (x rs1) (x rs2) ;; write_rd rd v ;;; ret NextInsn) m.
Proof.
  op_fields. rewrite Z.lor_0_r. reads. off. done.
Qed.

(** [sub], which Zbb decodes with [andn], [orn] and [xnor]. *)
Lemma sub_eq rd rs1 rs2 :
  fits 5 rd -> fits 5 rs1 -> fits 5 rs2 ->
  step (enc_r 0x33 rd 0 rs1 rs2 0x20) icount start m =
    (write_rd rd (x rs1 - x rs2) ;;; ret NextInsn) m.
Proof.
  op_fields. reads. off. by destruct (EN_ZBB (ext_flags m)).
Qed.

Lemma subw_eq rd rs1 rs2 :
  fits 5 rd -> fits 5 rs1 -> fits 5 rs2 ->
  step (enc_r 0x3b rd 0 rs1 rs2 0x20) icount start m =
    (write_rd rd (i32 (x rs1 - x rs2)) ;;; ret NextInsn) m.
Proof. op_fields. reads. off. done. Qed.

Lemma addw_eq rd rs1 rs2 :
  fits 5 rd -> fits 5 rs1 -> fits 5 rs2 ->
  step (enc_r 0x3b rd 0 rs1 rs2 0) icount start m =
    (write_rd rd (i32 (x rs1 + x rs2)) ;;; ret NextInsn) m.
Proof. op_fields. reads. off. done. Qed.

(** *** Shifts *)

(** The immediate of a shift: its amount and, at bit 10, the arithmetic flag. *)
Definition shift_facts (sh h : Z) : Prop :=
  let i := sh .| h in
  sgn 12 i = i /\ (i .& 0xfff) >> 6 = h >> 6 /\ i .& 63 = sh /\ i .&~ (63 .| 0x400) = 0 /\
  has i 0x400 = nz h /\ (h = 0 -> i .& 0xfff = sh /\ i .&~ 63 = 0).

#[local] Instance shift_facts_dec sh h : Decision (shift_facts sh h).
Proof. unfold shift_facts. apply _. Defined.

Lemma shift_facts_hold sh h : fits 6 sh -> h = 0 \/ h = 0x400 -> shift_facts sh h.
Proof.
  intros Hs Hh.
  assert (Forall (fun s => shift_facts s 0 /\ shift_facts s 0x400) (seqZ 0 64)) as Hall by vm_decide.
  rewrite Forall_forall in Hall. destruct (Hall sh) as [H0 H4].
  { apply elem_of_seqZ. unfold fits in Hs. lia. }
  by destruct Hh as [-> | ->].
Qed.

Lemma funct6_of insn : (insn >> 26) .& 0x3f = ((insn >> 20) .& 0xfff) >> 6.
Proof.
  rewrite Z.shiftr_land, Z.shiftr_shiftr by lia. reflexivity.
Qed.

Lemma shift_eqb_false sh k : fits 6 sh -> 64 <= k -> (sh =? k) = false.
Proof. unfold fits. intros. destruct (Z.eqb_spec sh k); lia. Qed.

Lemma slli_eq rd rs1 sh :
  fits 5 rd -> fits 5 rs1 -> fits 6 sh ->
  step (enc_i 0x13 rd 1 rs1 sh) icount start m = (write_rd rd (x rs1 << sh) ;;; ret NextInsn) m.
Proof.
  intros Hr H1 Hs. destruct (shift_facts_hold sh 0 Hs) as (Fs & F6 & Fm & _ & _ & Fz); [by left|].
  rewrite Z.lor_0_r in *. destruct (Fz eq_refl) as [Fi Fz']. clear Fz.
  fields_of. unfold exec_op_imm. rewrite funct6_of. by_fields. rewrite F6, Fi, Fs, Fm, Fz'.
  change (0 >> 6) with 0. cbn [Z.eqb Pos.eqb nz negb].
  rewrite !(shift_eqb_false sh) by (done || lia). reads. off. reads. done.
Qed.

Lemma srli_eq rd rs1 sh :
  fits 5 rd -> fits 5 rs1 -> fits 6 sh ->
  step (enc_i 0x13 rd 5 rs1 sh) icount start m = (write_rd rd (x rs1 >> sh) ;;; ret NextInsn) m.
Proof.
  intros Hr H1 Hs. destruct (shift_facts_hold sh 0 Hs) as (Fs & F6 & Fm & Fr & Fh & _); [by left|].
  rewrite Z.lor_0_r in *. fields_of. unfold exec_op_imm. rewrite funct6_of. by_fields.
  rewrite F6, Fs, Fm, Fr, Fh. change (0 >> 6) with 0. cbn [Z.eqb Pos.eqb nz negb]. reads. off. reads. done.
Qed.

Lemma srai_eq rd rs1 sh :
  fits 5 rd -> fits 5 rs1 -> fits 6 sh ->
  step (enc_i 0x13 rd 5 rs1 (sh .| 0x400)) icount start m =
    (write_rd rd (i64 (x rs1) >> sh) ;;; ret NextInsn) m.
Proof.
  intros Hr H1 Hs. destruct (shift_facts_hold sh 0x400 Hs) as (Fs & F6 & Fm & Fr & Fh & _); [by right|].
  fields_of. unfold exec_op_imm. rewrite funct6_of. by_fields.
  rewrite F6, Fs, Fm, Fr, Fh. change ((0x400 >> 6) =? 0x12) with false.
  cbn [Z.eqb Pos.eqb nz negb]. reads. off. reads. done.
Qed.

(** *** Control transfer, where targets need not be aligned to 4 *)

Context (Hc : has (misa (cpu m)) MCPUID_C = true).

Ltac no_check := unfold check_target; reads; rewrite Hc; cbn [negb andb].

Lemma jal_x0_eq imm :
  Z.testbit imm 0 = false ->
  step (enc_j 0x6f 0 imm) icount start m =
    (set_pc (pc (cpu m) + sgn 21 imm) ;;; jump_insn ctf_taken_jump) m.
Proof.
  fields_of. unfold exec_jal. by_fields. no_check. reads. done.
Qed.

Lemma jalr_x0_eq rs1 :
  fits 5 rs1 ->
  step (enc_i 0x67 0 0 rs1 0) icount start m =
    (set_pc (x rs1 .&~ 1) ;;; jump_insn (ctf_compute_hint 0 rs1)) m.
Proof.
  fields_of. unfold exec_jalr. by_fields. change (sgn 12 0) with 0. cbn [nz negb Z.eqb].
  no_check. reads. by rewrite Z.add_0_r.
Qed.

(** [beq] and [bne]. *)
Lemma branch_eq (ne : bool) rs1 rs2 imm :
  fits 5 rs1 -> fits 5 rs2 -> Z.testbit imm 0 = false ->
  step (enc_b 0x63 (b2z ne) rs1 rs2 imm) icount start m =
    (if xorb (x rs1 =? x rs2) ne
     then (set_pc (pc (cpu m) + sgn 13 imm) ;;; jump_insn ctf_taken_branch) m
     else (inr NextInsn, m)).
Proof.
  intros. assert (fits 3 (b2z ne)) by (by destruct ne). fields_of. unfold exec_branch, branch_cond. by_fields.
  replace (b2z ne >> 1) with 0 by (by destruct ne).
  replace (nz (b2z ne .& 1)) with ne by (by destruct ne). cbn [Z.eqb]. reads.
  destruct (xorb _ _); [|done]. no_check. reads. done.
Qed.

Lemma ebreak_eq : step 0x00100073 icount start m = raise CAUSE_BREAKPOINT 0 m.
Proof.
  rewrite (exec_insn_op 0x00100073 0x73) by reflexivity. cbn [Z.eqb Pos.eqb orb].
  unfold exec_system, csr_operand, exec_priv, reserved_zero.
  change (funct3_of 0x00100073) with 0. change (rs1_of 0x00100073) with 0.
  change (0x00100073 >> 20) with 1. change (has 0x00100073 0x000fff80) with false.
  change (has 0 4) with false. change (0 .& 3) with 0. cbn [Z.eqb Pos.eqb]. reads. done.
Qed.
End Base.

(** ** The expansion of the ISA manual

    [None] is a reserved encoding; [c.jalr], whose link register is the address of
    the next compressed instruction, has no 32-bit equivalent. *)

Definition c_rd (h : Z) : Z := ((h >> 2) .& 7) .| 8.
Definition c_rs1 (h : Z) : Z := ((h >> 7) .& 7) .| 8.
Definition c_rs2 (h : Z) : Z := (h >> 2) .& 0x1f.
Definition c_funct3 (h : Z) : Z := (h >> 13) .& 7.
Definition c_uimm_w (h : Z) : Z := gather h [-1; -1; 6; 10; 11; 12; 5].
Definition c_uimm_d (h : Z) : Z := gather h [-1; -1; -1; 10; 11; 12; 5; 6].
Definition c_shamt (h : Z) : Z := gather h [2; 3; 4; 5; 6; 12].

Definition expand0 (h : Z) : option Z :=
  match c_funct3 h with
  | 0 => let imm := gather h [-1; -1; 6; 5; 11; 12; 7; 8; 9; 10] in
         if imm =? 0 then None else Some (enc_i 0x13 (c_rd h) 0 2 imm)
  | 1 => Some (enc_i 0x07 (c_rd h) 3 (c_rs1 h) (c_uimm_d h))
  | 2 => Some (enc_i 0x03 (c_rd h) 2 (c_rs1 h) (c_uimm_w h))
  | 3 => Some (enc_i 0x03 (c_rd h) 3 (c_rs1 h) (c_uimm_d h))
  | 5 => Some (enc_s 0x27 3 (c_rs1 h) (c_rd h) (c_uimm_d h))
  | 6 => Some (enc_s 0x23 2 (c_rs1 h) (c_rd h) (c_uimm_w h))
  | 7 => Some (enc_s 0x23 3 (c_rs1 h) (c_rd h) (c_uimm_d h))
  | _ => None
  end.

Definition expand1_alu (h : Z) : option Z :=
  let rd := c_rs1 h in
  match (h >> 10) .& 3 with
  | 0 => Some (enc_i 0x13 rd 5 rd (c_shamt h))
  | 1 => Some (enc_i 0x13 rd 5 rd (c_shamt h .| 0x400))
  | 2 => Some (enc_i 0x13 rd 7 rd (sgn 6 (c_shamt h)))
  | _ =>
      match gather h [5; 6; 12] with
      | 0 => Some (enc_r 0x33 rd 0 rd (c_rd h) 0x20)
      | 1 => Some (enc_r 0x33 rd 4 rd (c_rd h) 0)
      | 2 => Some (enc_r 0x33 rd 6 rd (c_rd h) 0)
      | 3 => Some (enc_r 0x33 rd 7 rd (c_rd h) 0)
      | 4 => Some (enc_r 0x3b rd 0 rd (c_rd h) 0x20)
      | 5 => Some (enc_r 0x3b rd 0 rd (c_rd h) 0)
      | _ => None
      end
  end.

Definition expand1 (h : Z) : option Z :=
  let rd := rd_of h in
  let imm6 := sgn 6 (c_shamt h) in
  let branch ne :=
    enc_b 0x63 (b2z ne) (c_rs1 h) 0 (sgn 9 (gather h [-1; 3; 4; 10; 11; 2; 5; 6; 12])) in
  match c_funct3 h with
  | 0 => Some (enc_i 0x13 rd 0 rd imm6)
  | 1 => if rd =? 0 then None else Some (enc_i 0x1b rd 0 rd imm6)
  | 2 => Some (enc_i 0x13 rd 0 0 imm6)
  | 3 =>
      if rd =? 2 then
        let imm := sgn 10 (gather h [-1; -1; -1; -1; 6; 2; 5; 3; 4; 12]) in
        if imm =? 0 then None else Some (enc_i 0x13 2 0 2 imm)
      else
        let imm := sgn 18 (gather h (replicate 12 (-1) ++ [2; 3; 4; 5; 6; 12])) in
        if imm =? 0 then None else Some (enc_u 0x37 rd imm)
  | 4 => expand1_alu h
  | 5 => Some (enc_j 0x6f 0 (sgn 12 (gather h [-1; 3; 4; 5; 11; 2; 7; 6; 9; 10; 8; 12])))
  | 6 => Some (branch false)
  | _ => Some (branch true)
  end.

Definition is_c_jalr (h : Z) : bool :=
  (h .& 3 =? 2) && (c_funct3 h =? 4) && Z.testbit h 12 && (c_rs2 h =? 0) && negb (rd_of h =? 0).

Definition expand2 (h : Z) : option Z :=
  let rd := rd_of h in
  let rs2 := c_rs2 h in
  let uimm_sp := gather h [-1; -1; -1; 10; 11; 12; 7; 8; 9] in
  match c_funct3 h with
  | 0 => Some (enc_i 0x13 rd 1 rd (c_shamt h))
  | 1 => Some (enc_i 0x07 rd 3 2 (gather h [-1; -1; -1; 5; 6; 12; 2; 3; 4]))
  | 2 => if rd =? 0 then None else Some (enc_i 0x03 rd 2 2 (gather h [-1; -1; 4; 5; 6; 12; 2; 3]))
  | 3 => if rd =? 0 then None
         else Some (enc_i 0x03 rd 3 2 (gather h [-1; -1; -1; 5; 6; 12; 2; 3; 4]))
  | 4 =>
      if Z.testbit h 12 then
        if rs2 =? 0 then if rd =? 0 then Some 0x00100073 else None
        else Some (enc_r 0x33 rd 0 rd rs2 0)
      else
        if rs2 =? 0 then if rd =? 0 then None else Some (enc_i 0x67 0 0 rd 0)
        else Some (enc_r 0x33 rd 0 0 rs2 0)
  | 5 => Some (enc_s 0x27 3 2 rs2 uimm_sp)
  | 6 => Some (enc_s 0x23 2 2 rs2 (gather h [-1; -1; 9; 10; 11; 12; 7; 8]))
  | _ => Some (enc_s 0x23 3 2 rs2 uimm_sp)
  end.

Definition expand (h : Z) : option Z :=
  match h .& 3 with
  | 0 => expand0 h
  | 1 => expand1 h
  | 2 => expand2 h
  | _ => None
  end.

(** *** Immediates survive the re-encoding *)

Lemma sgn_gather w h l : 0 < w -> Z.of_nat (length l) < w -> sgn w (gather h l) = gather h l.
Proof.
  intros Hw Hl. pose proof (gather_fits h l) as [H0 H1]. apply sgn_id; [done|].
  assert (2 ^ Z.of_nat (length l) <= 2 ^ (w - 1)) by (apply Z.pow_le_mono_r; lia). lia.
Qed.

Lemma sgn_sgn w n v : 0 < n <= w -> sgn w (sgn n v) = sgn n v.
Proof.
  intros Hn. pose proof (sgn_range n v ltac:(lia)). apply sgn_id; [lia|].
  assert (2 ^ (n - 1) <= 2 ^ (w - 1)) by (apply Z.pow_le_mono_r; lia). lia.
Qed.

Lemma sgn_gather_even w h l : 1 < w -> Z.testbit (sgn w (gather h (-1 :: l))) 0 = false.
Proof.
  intros Hw. rewrite testbit_sgn, Z.min_l, testbit_gather by lia. by apply Z.testbit_neg_r.
Qed.

Lemma lui_imm h l :
  Z.of_nat (length l) < 20 ->
  i32 (sgn 18 (gather h (replicate 12 (-1) ++ l)) .& 0xfffff000) = sgn 18 (gather h (replicate 12 (-1) ++ l)).
Proof.
  intros Hl. set (v := sgn 18 _). transitivity (i32 v); [|by apply sgn_sgn].
  apply sgn_eq; [lia|]. apply Z.bits_inj'. intros i Hi. rewrite !testbit_trunc by lia.
  destruct (Z.ltb_spec i 32); cbn [andb]; [|done]. rewrite Z.land_spec.
  destruct (Z.ltb_spec i 12) as [Hlow|Hhigh].
  - assert (Z.testbit v i = false) as ->; [|done]. unfold v.
    rewrite testbit_sgn, Z.min_l, testbit_gather by lia.
    rewrite app_nth1 by (rewrite length_replicate; lia). rewrite nth_lookup.
    rewrite lookup_replicate_2 by lia. by apply Z.testbit_neg_r.
  - replace (Z.testbit 0xfffff000 i) with true; [by rewrite andb_true_r|].
    change 0xfffff000 with (Z.ones 20 << 12).
    rewrite Z.shiftl_spec, Z.testbit_ones_nonneg by lia. symmetry. apply Z.ltb_lt. lia.
Qed.

Lemma fits_lor8 h : fits 5 ((h .& 7) .| 8).
Proof. width. Qed.

Lemma nz_lor8 v : nz (v .| 8) = true.
Proof.
  unfold nz. destruct (Z.eqb_spec (v .| 8) 0) as [E|]; [|done]. by apply Z.lor_eq_0_iff in E as [_ ?].
Qed.

Lemma c_rd_fits h : fits 5 (c_rd h).
Proof. apply fits_lor8. Qed.
Lemma c_rs1_fits h : fits 5 (c_rs1 h).
Proof. apply fits_lor8. Qed.
Lemma c_rs2_fits h : fits 5 (c_rs2 h).
Proof. unfold c_rs2. width. Qed.
Lemma rd_of_fits h : fits 5 (rd_of h).
Proof. unfold rd_of. width. Qed.
Lemma c_shamt_fits h : fits 6 (c_shamt h).
Proof. apply (gather_fits h [2; 3; 4; 5; 6; 12]). Qed.

Create HintDb expand.
#[local] Hint Resolve c_rd_fits c_rs1_fits c_rs2_fits rd_of_fits c_shamt_fits : expand.

Lemma gather_alu h : ((h >> 5) .& 3) .| ((h >> (12 - 2)) .& 4) = gather h [5; 6; 12].
Proof. unsigned_format 3. Qed.

Lemma c_slli_shamt h : get_field1 h 12 5 5 .| c_rs2 h = c_shamt h.
Proof. unfold c_rs2, c_shamt. unsigned_format 6. Qed.

Lemma bit12 h : negb (Z.testbit h 12) = (((h >> 12) .& 1) =? 0).
Proof.
  change 1 with (Z.ones 1). rewrite Z.land_ones, Z.shiftr_div_pow2 by lia.
  change (2 ^ 1) with 2. rewrite <- Z.testbit_spec' by lia. by destruct (Z.testbit h 12).
Qed.

Lemma fits_3_cases v : fits 3 v -> v = 0 \/ v = 1 \/ v = 2 \/ v = 3 \/ v = 4 \/ v = 5 \/ v = 6 \/ v = 7.
Proof. unfold fits. lia. Qed.

(** ** The interpreter follows the expansion *)

Section Expand.
Context {D : Type} {dv : Devices D} (icount start : Z).
Abbreviation step := (exec_insn ).

(** The next instruction is two bytes on, not four. *)
Definition short (r : (exit + next) * RISCVMachine D) : (exit + next) * RISCVMachine D :=
  match r with
  | (inr NextInsn, m) => (inr CNextInsn, m)
  | _ => r
  end.

Definition expands_to (h : Z) (o : option Z) (m : RISCVMachine D) : Prop :=
  step h icount start m =
    match o with
    | Some w => short (step w icount start m)
    | None => (inl E_illegal, m)
    end.

Context (m : RISCVMachine D) (Hoff : stf_in_traceable_region m = false)
  (Hc : has (misa (cpu m)) MCPUID_C = true) (Hx0 : aget 0 (reg (cpu m)) 0 = 0).

(** Runs both sides to the first access that may fail and compares what is left. *)
Ltac run :=
  repeat first
    [ reflexivity
    | rewrite !read_reg_off by assumption | rewrite !read_fp_reg_off by assumption
    | rewrite !nz_lor8 | progress change (nz 2) with true | match goal with H : nz _ = true |- _ => rewrite !H end
    | progress unfold bind, getm, gets, ret, need_fs, illegal, throw, short, write_rd
    | match goal with
      | |- context [match ?t with _ => _ end] =>
          lazymatch t with context [match _ with _ => _ end] => fail | _ => destruct t end
      end ].

Ltac side := first [assumption | solve [auto with expand] | by unfold fits; lia].
Ltac imm := unfold c_uimm_w, c_uimm_d; rewrite ?sgn_gather by (cbn; lia); rewrite ?sgn_sgn by lia.

Lemma expand0_ok h : h .& 3 = 0 -> expands_to h (expand0 h) m.
Proof.
  intros H3. unfold expands_to. unfold exec_insn at 1. rewrite H3. cbn [Z.eqb].
  unfold exec_c0. rewrite c_imm_addi4spn_gather, c_imm_w_gather, c_imm_d_gather. unfold expand0.
  change ((h >> 13) .& 7) with (c_funct3 h). fold (c_rd h) (c_rs1 h) (c_uimm_w h) (c_uimm_d h).
  assert (fits 3 (c_funct3 h)) as Hf by (unfold c_funct3; width).
  assert (nz (c_rd h) = true) as Hnz by apply nz_lor8.
  apply fits_3_cases in Hf as [E|[E|[E|[E|[E|[E|[E|E]]]]]]]; rewrite E; cbn [Z.eqb Pos.eqb].
  - destruct (_ =? 0) eqn:Ei; [by run|]. rewrite addi_eq by side. imm. run.
  - rewrite fld_eq by side. imm. run.
  - rewrite lw_eq by side. imm. run.
  - rewrite ld_eq by side. imm. run.
  - run.
  - rewrite fsd_eq by side. imm. run.
  - rewrite store_eq by side. imm. run.
  - rewrite store_eq by side. imm. run.
Qed.

Lemma fits_2_cases' v : fits 2 v -> v = 0 \/ v = 1 \/ v = 2 \/ v = 3.
Proof. unfold fits. lia. Qed.

(** What [expand1_alu] leaves to say, once the compressed side is unfolded. *)
Lemma expand1_alu_ok h :
  (exec_c1_alu h ;;; ret CNextInsn) m =
    match expand1_alu h with
    | Some w => short (step w icount start m)
    | None => (inl E_illegal, m)
    end.
Proof.
  unfold exec_c1_alu. cbv zeta. rewrite gather_alu, c_imm6u_gather, c_imm6_gather. unfold expand1_alu.
  fold (c_rd h) (c_rs1 h) (c_shamt h).
  assert (nz (c_rs1 h) = true) as Hnz by apply nz_lor8.
  assert (fits 2 ((h >> 10) .& 3)) as Hf by width.
  apply fits_2_cases' in Hf as [E|[E|[E|E]]]; rewrite E; cbn [Z.eqb Pos.eqb].
  - rewrite srli_eq by side. run.
  - rewrite srai_eq by side. run.
  - rewrite andi_eq by side. imm. run.
  - pose proof (gather_fits h [5; 6; 12]) as Hg. cbn [length Z.of_nat Pos.of_succ_nat Pos.succ] in Hg.
    apply fits_3_cases in Hg as [G|[G|[G|[G|[G|[G|[G|G]]]]]]]; rewrite G; cbn [Z.eqb Pos.eqb Z.ltb Z.compare Pos.compare Pos.compare_cont];
      [rewrite sub_eq by side|rewrite op_eq by side..|rewrite subw_eq by side|rewrite addw_eq by side| |];
      unfold base_op; cbn [Z.eqb Pos.eqb]; run.
Qed.

Lemma expand1_ok h : h .& 3 = 1 -> expands_to h (expand1 h) m.
Proof.
  intros H3. unfold expands_to. unfold exec_insn at 1. rewrite H3. cbn [Z.eqb Pos.eqb].
  unfold exec_c1. rewrite c_imm6_gather, c_imm_addi16sp_gather, c_imm_lui_gather, c_imm_j_gather, c_imm_b_gather.
  unfold expand1. change ((h >> 13) .& 7) with (c_funct3 h). fold (c_rs1 h) (c_shamt h).
  assert (fits 3 (c_funct3 h)) as Hf by (unfold c_funct3; width).
  apply fits_3_cases in Hf as [E|[E|[E|[E|[E|[E|[E|E]]]]]]]; rewrite E; cbn [Z.eqb Pos.eqb].
  - rewrite addi_eq by side. imm. run.
  - destruct (rd_of h =? 0) eqn:Er; [by run|]. rewrite addiw_eq by side. imm.
    assert (nz (rd_of h) = true) by (unfold nz; by rewrite Er). run.
  - rewrite addi_eq by side. rewrite Hx0, Z.add_0_l. imm. run.
  - destruct (rd_of h =? 2) eqn:E2.
    + destruct (_ =? 0) eqn:Ei; [by run|]. rewrite addi_eq by side. imm. run.
    + destruct (_ =? 0) eqn:Ei; [by run|]. rewrite lui_eq by side. rewrite lui_imm by (cbn; lia). run.
  - apply expand1_alu_ok.
  - rewrite jal_x0_eq by first [side|by apply sgn_gather_even]. imm. run.
  - rewrite branch_eq by first [side|by apply sgn_gather_even]. rewrite Hx0. imm. run.
  - rewrite branch_eq by first [side|by apply sgn_gather_even]. rewrite Hx0, xorb_true_r. imm. unfold nz. run.
Qed.

Lemma expand2_ok h : h .& 3 = 2 -> is_c_jalr h = false -> expands_to h (expand2 h) m.
Proof.
  intros H3 Hj. unfold expands_to. unfold exec_insn at 1. rewrite H3. cbn [Z.eqb Pos.eqb].
  unfold exec_c2, exec_c2_jr. rewrite c_imm_ldsp_gather, c_imm_lwsp_gather, c_imm_sdsp_gather, c_imm_swsp_gather.
  unfold expand2, is_c_jalr in *. change ((h >> 13) .& 7) with (c_funct3 h). fold (c_rs2 h).
  replace (get_field1 h 12 5 5 .| c_rs2 h) with (c_shamt h) by (symmetry; apply c_slli_shamt).
  replace (((h >> 12) .& 1) =? 0) with (negb (Z.testbit h 12)) by apply bit12.
  assert (fits 3 (c_funct3 h)) as Hf by (unfold c_funct3; width).
  apply fits_3_cases in Hf as [E|[E|[E|[E|[E|[E|[E|E]]]]]]]; rewrite E in *; cbn [Z.eqb Pos.eqb].
  - rewrite slli_eq by side. run.
  - rewrite fld_eq by side. imm. run.
  - destruct (rd_of h =? 0) eqn:Er; [by run|]. rewrite lw_eq by side. imm.
    assert (nz (rd_of h) = true) by (unfold nz; by rewrite Er). run.
  - destruct (rd_of h =? 0) eqn:Er; [by run|]. rewrite ld_eq by side. imm.
    assert (nz (rd_of h) = true) by (unfold nz; by rewrite Er). run.
  - rewrite H3 in Hj. destruct (Z.testbit h 12); cbn [negb Z.eqb Pos.eqb andb] in *.
    + destruct (c_rs2 h =? 0); [destruct (rd_of h =? 0); [|done]; by rewrite ebreak_eq by side|].
      rewrite op_eq by side. change (base_op 0) with (fun a b : Z => ret (E := exit) (D := D) (a + b)). run.
    + destruct (c_rs2 h =? 0).
      * destruct (rd_of h =? 0); [by run|]. rewrite jalr_x0_eq by side. run.
      * rewrite op_eq by side. rewrite Hx0. unfold base_op. cbn [Z.eqb]. rewrite Z.add_0_l. run.
  - rewrite fsd_eq by side. imm. run.
  - rewrite store_eq by side. imm. run.
  - rewrite store_eq by side. imm. run.
Qed.
End Expand.

(** C7 Every compressed instruction is the base instruction that the ISA manual
    assigns to it: for each 16-bit word other than [c.jalr], executing it has the
    result of executing its expansion, exceptions included, except that the next
    instruction is 2 bytes on; a word without expansion is illegal and changes
    nothing. *)
Theorem compressed_is_expansion {D : Type} {dv : Devices D}  icount start h
  (m : RISCVMachine D) :
  cpu_ok (cpu m) -> stf_in_traceable_region m = false -> has (misa (cpu m)) MCPUID_C = true ->
  h .& 3 <> 3 -> is_c_jalr h = false ->
  exec_insn h icount start m =
    match expand h with
    | Some w => short (exec_insn w icount start m)
    | None => (inl E_illegal, m)
    end.
Proof.
  intros Hok Hoff Hc H3 Hj. pose proof (ok_x0 _ Hok) as Hx0. unfold expand.
  assert (fits 2 (h .& 3)) as Hf by width.
  apply fits_2_cases' in Hf as [E|[E|[E|E]]]; [| | |done]; rewrite E.
  - by apply expand0_ok.
  - by apply expand1_ok.
  - by apply expand2_ok.
Qed.

(** [c.li a0, 1] after a reset. *)
Lemma compressed_is_expansion_witness :
  expand 0x4505 = Some (enc_i 0x13 10 0 0 1) /\
  exec_insn 0x4505 0 0 (demo_machine reset_cpu) =
    short (exec_insn (enc_i 0x13 10 0 0 1) 0 0
             (demo_machine reset_cpu)).
Proof.
  split; [vm_compute; reflexivity|].
  exact (compressed_is_expansion 0 0 0x4505 (demo_machine reset_cpu)
           (proj1 reset_hart_ok) eq_refl eq_refl ltac:(discriminate) eq_refl).
Defined.
