(* ===== verification/Platform.v ===== *)
(** * Platform devices ([src/riscv_machine.cpp], [src/dw_apb_uart.cpp])

    The device models that [virt_machine_init] registers: a SiFive UART, two
    DesignWare UARTs, the CLINT and the PLIC.  [platform] is their state,
    [platform_devices] makes them an instance of the interface [Devices] that the
    memory accesses of a hart are written against.

    The console ([CharacterDevice]) is a host stream: the bytes [read_data] has to
    give and those [write_data] was given.  [vm_error] only logs and has no place
    in the model.  A failed [assert] of a callback, or its use of a hart that does
    not exist ([cpu_state[i]] is [NULL]), ends the simulator: it sets [aborted],
    after which the state means nothing. *)

From S2P Require Import Prelude Iomem Cpu Pmp Csr Trap Machine Mmu Insn Interp SafeInsn Safety.

(** ** State *)

Record CharacterDevice := mkConsole { con_in : list Z; con_out : list Z }.

Record SiFiveUARTState := mkUart {
  rx_fifo_len : Z;
  uart_ie : Z;
  txctrl : Z;
  rxctrl : Z;
  uart_div : Z
}.

Record DW_apb_uart_state := mkDw {
  last_irq_level : Z;
  div_latch : Z;
  rhr : Z;
  ier : Z;
  isr : Z;
  lcr : Z;
  mcr : Z;
  lsr : Z;
  msr : Z;
  spr : Z
}.

Record platform := mkPlatform {
  console : CharacterDevice;
  uart : SiFiveUARTState;
  dw_apb_uart : DW_apb_uart_state;
  dw_apb_uart1 : DW_apb_uart_state;
  plic_priority : list Z;
  aborted : bool
}.

Definition console_eta (c : CharacterDevice) := mkConsole (con_in c) (con_out c).
Definition uart_eta (s : SiFiveUARTState) :=
  mkUart (rx_fifo_len s) (uart_ie s) (txctrl s) (rxctrl s) (uart_div s).
Definition dw_eta (s : DW_apb_uart_state) :=
  mkDw (last_irq_level s) (div_latch s) (rhr s) (ier s) (isr s) (lcr s) (mcr s) (lsr s) (msr s) (spr s).
Definition platform_eta (p : platform) :=
  mkPlatform (console p) (uart p) (dw_apb_uart p) (dw_apb_uart1 p) (plic_priority p) (aborted p).

#[export] Instance upd_con_in : Setter con_in := ltac:(setter_of console_eta).
#[export] Instance upd_con_out : Setter con_out := ltac:(setter_of console_eta).
#[export] Instance upd_uart_ie : Setter uart_ie := ltac:(setter_of uart_eta).
#[export] Instance upd_txctrl : Setter txctrl := ltac:(setter_of uart_eta).
#[export] Instance upd_rxctrl : Setter rxctrl := ltac:(setter_of uart_eta).
#[export] Instance upd_uart_div : Setter uart_div := ltac:(setter_of uart_eta).
#[export] Instance upd_last_irq_level : Setter last_irq_level := ltac:(setter_of dw_eta).
#[export] Instance upd_div_latch : Setter div_latch := ltac:(setter_of dw_eta).
#[export] Instance upd_rhr : Setter rhr := ltac:(setter_of dw_eta).
#[export] Instance upd_ier : Setter ier := ltac:(setter_of dw_eta).
#[export] Instance upd_isr : Setter isr := ltac:(setter_of dw_eta).
#[export] Instance upd_lcr : Setter lcr := ltac:(setter_of dw_eta).
#[export] Instance upd_mcr : Setter mcr := ltac:(setter_of dw_eta).
#[export] Instance upd_lsr : Setter lsr := ltac:(setter_of dw_eta).
#[export] Instance upd_msr : Setter msr := ltac:(setter_of dw_eta).
#[export] Instance upd_spr : Setter spr := ltac:(setter_of dw_eta).
#[export] Instance upd_console : Setter console := ltac:(setter_of platform_eta).
#[export] Instance upd_uart : Setter uart := ltac:(setter_of platform_eta).
#[export] Instance upd_dw_apb_uart : Setter dw_apb_uart := ltac:(setter_of platform_eta).
#[export] Instance upd_dw_apb_uart1 : Setter dw_apb_uart1 := ltac:(setter_of platform_eta).
#[export] Instance upd_plic_priority : Setter plic_priority := ltac:(setter_of platform_eta).
#[export] Instance upd_aborted : Setter aborted := ltac:(setter_of platform_eta).

(** Computes projections of updated device states. *)
Ltac dev_simpl :=
  cbn [upd upd_con_in upd_con_out upd_uart_ie upd_txctrl upd_rxctrl upd_uart_div upd_last_irq_level
       upd_div_latch upd_rhr upd_ier upd_isr upd_lcr upd_mcr upd_lsr upd_msr upd_spr upd_console
       upd_uart upd_dw_apb_uart upd_dw_apb_uart1 upd_plic_priority upd_aborted con_in con_out
       rx_fifo_len uart_ie txctrl rxctrl uart_div last_irq_level div_latch rhr ier isr lcr mcr lsr
       msr spr console uart dw_apb_uart dw_apb_uart1 plic_priority aborted].

Abbreviation machine := (RISCVMachine platform).

Definition ncpus (m : machine) : nat := length (harts m).

(** A failed [assert] or the use of a [NULL] hart. *)
Definition abort (m : machine) : machine := m <| devs ::= fun p => p <| aborted := true |> |>.

(** [cs->read_data(cs->opaque, &r, 1)]. *)
Definition read_data (m : machine) : option Z * machine :=
  match con_in (console (devs m)) with
  | [] => (None, m)
  | c :: l => (Some c, m <| devs ::= fun p => p <| console ::= fun k => k <| con_in := l |> |> |>)
  end.

Definition write_data (m : machine) (c : Z) : machine :=
  m <| devs ::= fun p => p <| console ::= fun k => k <| con_out ::= fun l => l ++ [c] |> |> |>.

(** Sets or clears lines of the [mip] of hart [i]. *)
Definition raise_mip (m : machine) (i : nat) (mask : Z) : machine :=
  set_hart m i (riscv_cpu_set_mip (pending_interrupt m) (cosim m) (get_hart m i) mask).

Definition lower_mip (m : machine) (i : nat) (mask : Z) : machine :=
  set_hart m i (riscv_cpu_reset_mip (get_hart m i) mask).

(** ** SiFive UART *)

Definition SIFIVE_UART_TXFIFO : Z := 0.
Definition SIFIVE_UART_RXFIFO : Z := 4.
Definition SIFIVE_UART_TXCTRL : Z := 8.
Definition SIFIVE_UART_RXCTRL : Z := 12.
Definition SIFIVE_UART_IE : Z := 16.
Definition SIFIVE_UART_IP : Z := 20.
Definition SIFIVE_UART_DIV : Z := 24.
Definition SIFIVE_UART_IP_RXWM : Z := 2.

Definition uart_read (m : machine) (offset : Z) : Z * machine :=
  let s := uart (devs m) in
  if offset =? SIFIVE_UART_RXFIFO then
    match read_data m with
    | (Some r, m) => (r, m)
    | (None, m) => (0x80000000, m)
    end
  else if offset =? SIFIVE_UART_TXFIFO then (0, m)
  else if offset =? SIFIVE_UART_IE then (uart_ie s, m)
  else if offset =? SIFIVE_UART_IP then (if nz (rx_fifo_len s) then SIFIVE_UART_IP_RXWM else 0, m)
  else if offset =? SIFIVE_UART_TXCTRL then (txctrl s, m)
  else if offset =? SIFIVE_UART_RXCTRL then (rxctrl s, m)
  else if offset =? SIFIVE_UART_DIV then (uart_div s, m)
  else (0, m).

(** [uart_update_irq] only logs. *)
Definition uart_write (m : machine) (offset val : Z) : machine :=
  let set f := m <| devs ::= fun p => p <| uart ::= f |> |> in
  if offset =? SIFIVE_UART_TXFIFO then write_data m (u8 val)
  else if offset =? SIFIVE_UART_IE then set (fun s => s <| uart_ie := val |>)
  else if offset =? SIFIVE_UART_TXCTRL then set (fun s => s <| txctrl := val |>)
  else if offset =? SIFIVE_UART_RXCTRL then set (fun s => s <| rxctrl := val |>)
  else if offset =? SIFIVE_UART_DIV then set (fun s => s <| uart_div := val |>)
  else m.

(** ** CLINT *)

Definition RTC_FREQ_DIV : Z := 2000000000 / 1000000.

Definition rtc_get_time (m : machine) : Z := mcycle (get_hart m 0) / RTC_FREQ_DIV.

(** The mask of the [switch] on [size_log2]. *)
Definition clint_size_mask (val size_log2 : Z) : Z :=
  if size_log2 =? 1 then val .& 0xffff
  else if size_log2 =? 2 then val .& 0xffffffff
  else val.

Definition clint_read (m : machine) (offset size_log2 : Z) : Z :=
  let val :=
    if offset <? 0x4000 then
      let hartid := Z.to_nat (offset >> 2) in
      if (ncpus m <=? hartid)%nat then 0
      else b2z (has (riscv_cpu_get_mip (get_hart m hartid)) MIP_MSIP)
    else if offset =? 0xbff8 then u32 (mcycle (get_hart m 0) / RTC_FREQ_DIV)
    else if offset =? 0xbffc then u32 ((mcycle (get_hart m 0) / RTC_FREQ_DIV) >> 32)
    else if offset <? 0xbff8 then
      let hartid := Z.to_nat ((offset - 0x4000) >> 3) in
      if (ncpus m <=? hartid)%nat then 0
      else if has (offset >> 2) 1 then u32 (timecmp (get_hart m hartid) >> 32)
      else u32 (timecmp (get_hart m hartid))
    else 0 in
  clint_size_mask val size_log2.

(** [m->cpu_state[0]->mcycle = mtime * RTC_FREQ_DIV]. *)
Definition clint_set_mtime (m : machine) (mtime : Z) : machine :=
  set_hart m 0 ((get_hart m 0) <| mcycle := u64 (mtime * RTC_FREQ_DIV) |>).

(** [0xffffffff] is of type [unsigned int], so that [~0xffffffff] is 0. *)
Definition clint_low_mask : Z := u32 (Z.lnot 0xffffffff).

Definition clint_write (m : machine) (offset val size_log2 : Z) : machine :=
  let val := clint_size_mask val size_log2 in
  if offset <? 0x4000 then
    let hartid := Z.to_nat (offset >> 2) in
    if (ncpus m <=? hartid)%nat then m
    else if has val 1 then raise_mip m hartid MIP_MSIP
    else lower_mip m hartid MIP_MSIP
  else if offset =? 0xbff8 then
    clint_set_mtime m (u64 ((rtc_get_time m .& 0xFFFFFFFF00000000) + val))
  else if offset =? 0xbffc then
    clint_set_mtime m (u64 ((rtc_get_time m .& 0x00000000FFFFFFFF) + (val << 32)))
  else if offset <? 0xbff8 then
    let hartid := Z.to_nat ((offset - 0x4000) >> 3) in
    if (ncpus m <=? hartid)%nat then m
    else
      let s := get_hart m hartid in
      let t := if has (offset >> 2) 1 then (timecmp s .& 0xffffffff) .| (val << 32)
               else (timecmp s .& clint_low_mask) .| val in
      lower_mip (set_hart m hartid (s <| timecmp := t |>)) hartid MIP_MTIP
  else m.

(** ** PLIC *)

Definition PLIC_NUM_SOURCES : Z := 127.
Definition PLIC_PRIORITY_BASE : Z := 4.
Definition PLIC_PENDING_BASE : Z := 0x1000.
Definition PLIC_ENABLE_BASE : Z := 0x2000.
Definition PLIC_ENABLE_STRIDE : Z := 0x80.
Definition PLIC_CONTEXT_BASE : Z := 0x200000.
Definition PLIC_CONTEXT_STRIDE : Z := 0x1000.
Definition MAX_CPUS : Z := 8.

(** [s->plic_pending_irq & ~s->plic_served_irq]. *)
Definition plic_mask (m : machine) : Z := plic_pending_irq m .&~ plic_served_irq m.

(** The body of the loop on the two contexts of a hart. *)
Definition plic_update_ctx (i : nat) (m : machine) (ctx : Z) : machine :=
  let mip_mask := if ctx =? 0 then MIP_SEIP else MIP_MEIP in
  if has (plic_mask m) (aget 0 (plic_enable_irq (get_hart m i)) ctx) then raise_mip m i mip_mask
  else lower_mip m i mip_mask.

Definition plic_update_mip (m : machine) (i : nat) : machine :=
  if (i <? ncpus m)%nat then foldl (plic_update_ctx i) m [0; 1] else abort m.

Definition in_range (base len offset : Z) : bool := (base <=? offset) && (offset <? base + len).

(** The index of the lowest bit that is set, 32 if there is none. *)
Definition ctz32 (val : Z) : Z :=
  match list_find (fun i => Z.testbit val i = true) (seqZ 0 32) with
  | Some (_, i) => i
  | None => 32
  end.

Definition plic_claim (m : machine) (hartid : nat) : Z * machine :=
  if nz (plic_mask m) then
    let i := ctz32 (plic_mask m) in
    let m := m <| plic_served_irq ::= fun v => v .| (1 << i) |>
               <| plic_pending_irq ::= fun v => v .&~ (1 << i) |> in
    (i, plic_update_mip m hartid)
  else (0, m).

Definition plic_read (m : machine) (offset size_log2 : Z) : Z * machine :=
  if negb (size_log2 =? 2) then (0, abort m)
  else if in_range PLIC_PRIORITY_BASE (PLIC_NUM_SOURCES << 2) offset then
    (aget 0 (plic_priority (devs m)) ((offset - PLIC_PRIORITY_BASE) >> 2), m)
  else if in_range PLIC_PENDING_BASE (PLIC_NUM_SOURCES >> 3) offset then
    (if offset =? PLIC_PENDING_BASE then plic_pending_irq m else 0, m)
  else if in_range PLIC_ENABLE_BASE (PLIC_ENABLE_STRIDE * MAX_CPUS) offset then
    let addrid := (offset - PLIC_ENABLE_BASE) / PLIC_ENABLE_STRIDE in
    let hartid := Z.to_nat (addrid / 2) in
    (if (hartid <? ncpus m)%nat then aget 0 (plic_enable_irq (get_hart m hartid)) (addrid mod 2)
     else 0, m)
  else if in_range PLIC_CONTEXT_BASE (PLIC_CONTEXT_STRIDE * MAX_CPUS) offset then
    let hartid := (offset - PLIC_CONTEXT_BASE) / PLIC_CONTEXT_STRIDE in
    let wordid := (offset .& (PLIC_CONTEXT_STRIDE - 1)) >> 2 in
    if wordid =? 1 then plic_claim m (Z.to_nat hartid) else (0, m)
  else (0, m).

Definition plic_set_priority (m : machine) (irq v : Z) : machine :=
  m <| devs ::= fun p => p <| plic_priority ::= fun l => aset l irq v |> |>.

(** [s->plic_served_irq &= ~(1 << (val & 31))]. *)
Definition plic_complete (m : machine) (val : Z) : machine :=
  m <| plic_served_irq ::= fun v => v .&~ (1 << (val .& 31)) |>.

Definition plic_write (m : machine) (offset val size_log2 : Z) : machine :=
  if negb (size_log2 =? 2) then abort m
  else if in_range PLIC_PRIORITY_BASE (PLIC_NUM_SOURCES << 2) offset then
    plic_set_priority m ((offset - PLIC_PRIORITY_BASE) >> 2) (val .& 7)
  else if in_range PLIC_PENDING_BASE (PLIC_NUM_SOURCES >> 3) offset then m
  else if in_range PLIC_ENABLE_BASE (PLIC_ENABLE_STRIDE * MAX_CPUS) offset then
    let addrid := (offset - PLIC_ENABLE_BASE) / PLIC_ENABLE_STRIDE in
    let hartid := Z.to_nat (addrid / 2) in
    if (hartid <? ncpus m)%nat then
      set_hart m hartid
        ((get_hart m hartid) <| plic_enable_irq ::= fun l => aset l (addrid mod 2) val |>)
    else m
  else if in_range PLIC_CONTEXT_BASE (PLIC_CONTEXT_STRIDE * MAX_CPUS) offset then
    let wordid := (offset .& (PLIC_CONTEXT_STRIDE - 1)) >> 2 in
    if wordid =? 0 then plic_set_priority m wordid val
    else if wordid =? 1 then plic_complete m val
    else m
  else m.

Definition plic_set_irq (m : machine) (irq_num state : Z) : machine :=
  let mask := u32 (1 << irq_num) in
  let m := if nz state then m <| plic_pending_irq ::= fun v => v .| mask |>
           else m <| plic_pending_irq ::= fun v => v .&~ mask |> in
  foldl plic_update_mip m (seq 0 (ncpus m)).

(** ** DesignWare UARTs

    [second] selects [dw_apb_uart1]. *)

Definition DW_APB_UART0_IRQ : Z := 3.
Definition DW_APB_UART1_IRQ : Z := 15.

Section Dw.
Context (second : bool).

Definition get_dw (m : machine) : DW_apb_uart_state :=
  if second then dw_apb_uart1 (devs m) else dw_apb_uart (devs m).

Definition set_dw (m : machine) (s : DW_apb_uart_state) : machine :=
  m <| devs ::= fun p => if second then p <| dw_apb_uart1 := s |> else p <| dw_apb_uart := s |> |>.

Definition dw_irq : Z := if second then DW_APB_UART1_IRQ else DW_APB_UART0_IRQ.

(** The interrupt identification of [update_isr], by priority. *)
Definition isr_nibble (s : DW_apb_uart_state) : Z :=
  if has (ier s) 4 && has (lsr s) 30 then 6
  else if has (ier s) 1 && has (lsr s) 1 then 4
  else if has (ier s) 2 && has (lsr s) 32 then 2
  else if has (ier s) 8 && negb (msr s .& 15 =? 15) then 0
  else 1.

Definition update_isr (m : machine) : machine :=
  let s := get_dw m in
  let s := s <| isr := u8 ((isr s .& 0xF0) + isr_nibble s) |> in
  let irq_level := b2z (negb (has (isr s) 1)) in
  if last_irq_level s =? irq_level then set_dw m s
  else plic_set_irq (set_dw m (s <| last_irq_level := irq_level |>)) dw_irq irq_level.

Definition dlab (m : machine) : bool := has (lcr (get_dw m)) (1 << 7).

Definition read_rhr (m : machine) : Z * machine :=
  let s := get_dw m in
  if dlab m then (div_latch s .& 255, m)
  else (rhr s, update_isr (set_dw m (s <| lsr ::= fun v => (v .&~ 1) .&~ 30 |>))).

Definition dw_apb_uart_poll (m : machine) : machine :=
  if has (lsr (get_dw m)) 1 then m
  else
    match read_data m with
    | (Some c, m) => update_isr (set_dw m ((get_dw m) <| rhr := c |> <| lsr ::= fun v => v .| 1 |>))
    | (None, m) => update_isr m
    end.

Definition write_thr (m : machine) (val : Z) : machine :=
  if dlab m then set_dw m ((get_dw m) <| div_latch ::= fun d => u16 ((d .&~ 255) + val) |>)
  else dw_apb_uart_poll (write_data m val).

Definition read_ier (m : machine) : Z :=
  if dlab m then u8 (div_latch (get_dw m) >> 8) else ier (get_dw m).

Definition write_ier (m : machine) (val : Z) : machine :=
  if dlab m then set_dw m ((get_dw m) <| div_latch ::= fun d => u16 ((d .& 255) + val * 256) |>)
  else update_isr (set_dw m ((get_dw m) <| ier := val .& 0xFF |>)).

Definition read_lsr (m : machine) : Z * machine :=
  let m := set_dw m ((get_dw m) <| lsr ::= fun v => (v .| 0x60) .&~ 0x9e |>) in
  let m := update_isr (dw_apb_uart_poll m) in
  (lsr (get_dw m), m).

Definition read_msr (m : machine) : Z * machine :=
  let s := get_dw m in
  (msr s, update_isr (set_dw m (s <| msr ::= fun v => v .&~ 15 |>))).

Definition dw_apb_uart_read (m : machine) (offset : Z) : Z * machine :=
  if negb (offset mod 4 =? 0) || negb (offset <? 256) then (0, abort m)
  else
    let r := offset / 4 in
    if r =? 0 then read_rhr m
    else if r =? 1 then (read_ier m, m)
    else if r =? 2 then (isr (get_dw m), m)
    else if r =? 3 then (lcr (get_dw m), m)
    else if r =? 4 then (mcr (get_dw m), m)
    else if r =? 5 then read_lsr m
    else if r =? 6 then read_msr m
    else if r =? 7 then (spr (get_dw m), m)
    else (0, m).

(** [write_fcr] does nothing. *)
Definition dw_apb_uart_write (m : machine) (offset val : Z) : machine :=
  let val := val .& 255 in
  if negb (offset mod 4 =? 0) || negb (offset <? 256) then abort m
  else
    let r := offset / 4 in
    if r =? 0 then write_thr m val
    else if r =? 1 then write_ier m val
    else if r =? 3 then set_dw m ((get_dw m) <| lcr := val |>)
    else if r =? 4 then set_dw m ((get_dw m) <| mcr := val |>)
    else if r =? 7 then set_dw m ((get_dw m) <| spr := val |>)
    else m.
End Dw.

(** ** The platform as an instance of the device interface

    Handles of the ranges that [virt_machine_init] registers. *)

Definition H_UART : Z := 1.
Definition H_DW0 : Z := 2.
Definition H_DW1 : Z := 3.
Definition H_CLINT : Z := 4.
Definition H_PLIC : Z := 5.

Definition platform_read (handle offset size_log2 : Z) (m : machine) : Z * machine :=
  if handle =? H_UART then uart_read m offset
  else if handle =? H_DW0 then dw_apb_uart_read false m offset
  else if handle =? H_DW1 then dw_apb_uart_read true m offset
  else if handle =? H_CLINT then (clint_read m offset size_log2, m)
  else if handle =? H_PLIC then plic_read m offset size_log2
  else (0, m).

Definition platform_write (handle offset val size_log2 : Z) (m : machine) : machine :=
  if handle =? H_UART then uart_write m offset val
  else if handle =? H_DW0 then dw_apb_uart_write false m offset val
  else if handle =? H_DW1 then dw_apb_uart_write true m offset val
  else if handle =? H_CLINT then clint_write m offset val size_log2
  else if handle =? H_PLIC then plic_write m offset val size_log2
  else m.

#[export] Instance platform_devices : Devices platform := {
  dev_read := platform_read;
  dev_write := platform_write
}.

(** Reset state ([calloc]). *)
Definition zero_dw : DW_apb_uart_state := mkDw 0 0 0 0 0 0 0 0 0 0.
Definition zero_platform : platform :=
  mkPlatform (mkConsole [] []) (mkUart 0 0 0 0 0) zero_dw zero_dw (replicate 128 0) false.

(** ** The devices respect the harts *)

Create HintDb devices.

Section Respect.
Context {G : Geometry}.

Lemma idle_devs {p} (m : machine) f : idle_at p m -> idle_at p (m <| devs ::= f |>).
Proof. by intros []. Qed.

Lemma idle_plic_pending {p} (m : machine) f : idle_at p m -> idle_at p (m <| plic_pending_irq ::= f |>).
Proof. by intros []. Qed.

Lemma idle_plic_served {p} (m : machine) f : idle_at p m -> idle_at p (m <| plic_served_irq ::= f |>).
Proof. by intros []. Qed.

Lemma idle_set_hart {p} (m : machine) i f :
  (forall s, cpu_ok s -> cpu_ok (f s) /\ pending_exception (f s) = pending_exception s) ->
  idle_at p m -> idle_at p (set_hart m i (f (get_hart m i))).
Proof.
  intros Hf H. unfold set_hart, get_hart. destruct (Nat.eqb i (hartid m)).
  - by apply (idle_upd m f Hf).
  - destruct H as [H1 (H2 & H3 & H4 & H5) H6]. split; mach_simpl; [done| |done].
    split; mach_simpl; [done|]. rewrite length_insert. split; [|done].
    destruct (decide (i < length (harts m))%nat) as [Hi|Hi].
    + apply Forall_insert; [done|]. apply Hf. by apply Forall_nth.
    + by rewrite list_insert_ge by lia.
Qed.

Lemma raise_mip_idle {p} m i mask : fits 32 mask -> idle_at p m -> idle_at p (raise_mip m i mask).
Proof.
  intros Hm. apply (idle_set_hart m i (fun s => riscv_cpu_set_mip (pending_interrupt m) (cosim m) s mask)).
  intros s Hs. unfold riscv_cpu_set_mip. cbv zeta.
  assert (cpu_ok (s <| mip ::= fun v => v .| mask |>)) as H1 by (cpu_ok_split Hs; width).
  destruct (_ && _); [|done]. split; [|done]. cpu_ok_split H1.
Qed.

Lemma lower_mip_idle {p} m i mask : idle_at p m -> idle_at p (lower_mip m i mask).
Proof.
  apply (idle_set_hart m i (fun s => riscv_cpu_reset_mip s mask)). intros s Hs.
  split; [|done]. unfold riscv_cpu_reset_mip. cpu_ok_split Hs; width.
Qed.

#[local] Hint Resolve idle_devs idle_plic_pending idle_plic_served lower_mip_idle : devices.

Lemma plic_update_ctx_idle i m ctx : idle m -> idle (plic_update_ctx i m ctx).
Proof.
  intros H. unfold plic_update_ctx. destruct (has _ _); [|by apply lower_mip_idle].
  apply raise_mip_idle; [|done]. by destruct (ctx =? 0).
Qed.

Lemma plic_update_mip_idle m i : idle m -> idle (plic_update_mip m i).
Proof.
  intros H. unfold plic_update_mip, abort. destruct (_ <? _)%nat; [|auto with devices]. cbn [foldl].
  by do 2 apply plic_update_ctx_idle.
Qed.
#[local] Hint Resolve plic_update_mip_idle : devices.

Lemma plic_set_irq_idle m irq state : idle m -> idle (plic_set_irq m irq state).
Proof.
  intros H. unfold plic_set_irq.
  assert (forall l m', idle m' -> idle (foldl plic_update_mip m' l)) as Hfold.
  { intros l. induction l as [|i l IH]; intros m' H'; cbn [foldl]; auto with devices. }
  destruct (nz state); auto with devices.
Qed.

Lemma set_dw_idle b m s : idle m -> idle (set_dw b m s).
Proof. apply idle_devs. Qed.

Lemma update_isr_idle b m : idle m -> idle (update_isr b m).
Proof.
  intros H. unfold update_isr. cbv zeta.
  destruct (_ =? _); [by apply set_dw_idle|by apply plic_set_irq_idle, set_dw_idle].
Qed.

Lemma read_data_idle m : idle m -> idle (read_data m).2.
Proof. intros H. unfold read_data. destruct (con_in _); cbn [snd]; auto with devices. Qed.
#[local] Hint Resolve set_dw_idle update_isr_idle : devices.

Lemma poll_idle b m : idle m -> idle (dw_apb_uart_poll b m).
Proof.
  intros H. unfold dw_apb_uart_poll. destruct (has _ _); [done|].
  pose proof (read_data_idle m H) as H1. destruct (read_data m) as [[c|] m1]; auto with devices.
Qed.
#[local] Hint Resolve poll_idle : devices.

Lemma dw_read_idle b m off : idle m -> idle (dw_apb_uart_read b m off).2.
Proof.
  intros H. unfold dw_apb_uart_read, read_rhr, read_lsr, read_msr, abort. cbv zeta.
  repeat case_match; cbn [snd]; auto 6 with devices.
Qed.

Lemma dw_write_idle b m off v : idle m -> idle (dw_apb_uart_write b m off v).
Proof.
  intros H. unfold dw_apb_uart_write, write_thr, write_ier, write_data, abort. cbv zeta.
  repeat case_match; auto 6 with devices.
Qed.

Lemma clint_write_idle m off v n : idle m -> idle (clint_write m off v n).
Proof.
  intros H. unfold clint_write, clint_set_mtime. cbv zeta.
  repeat case_match; auto with devices; try (by apply raise_mip_idle).
  - apply (idle_set_hart m 0 (fun s => s <| mcycle := _ |>)); [|done].
    intros s Hs. split; [|done]. cpu_ok_split Hs; width.
  - apply (idle_set_hart m 0 (fun s => s <| mcycle := _ |>)); [|done].
    intros s Hs. split; [|done]. cpu_ok_split Hs; width.
  - apply lower_mip_idle, (idle_set_hart m _ (fun s => s <| timecmp := _ |>)); [|done].
    intros s Hs. split; [|done]. cpu_ok_split Hs.
  - apply lower_mip_idle, (idle_set_hart m _ (fun s => s <| timecmp := _ |>)); [|done].
    intros s Hs. split; [|done]. cpu_ok_split Hs.
Qed.

Lemma plic_read_idle m off n : idle m -> idle (plic_read m off n).2.
Proof.
  intros H. unfold plic_read, plic_claim, abort. cbv zeta. repeat case_match; cbn [snd]; auto with devices.
Qed.

Lemma plic_write_idle m off v n : idle m -> idle (plic_write m off v n).
Proof.
  intros H. unfold plic_write, plic_set_priority, plic_complete, abort. cbv zeta.
  repeat case_match; auto with devices.
  apply (idle_set_hart m _ (fun s => s <| plic_enable_irq ::= _ |>)); [|done].
  intros s Hs. split; [|done]. cpu_ok_split Hs.
Qed.

End Respect.

(** What the interpreter relies on, discharged by the platform. *)
#[export] Instance platform_safe : SafeDevices platform.
Proof.
  split; intros G i off; [intros n m H|intros v n m H]; cbn [dev_read dev_write platform_devices];
    unfold platform_read, platform_write, uart_read, uart_write, write_data.
  - pose proof (read_data_idle m H) as H1.
    repeat case_match; simplify_eq/=; auto using dw_read_idle, plic_read_idle.
  - repeat case_match; simplify_eq/=; auto using dw_write_idle, plic_write_idle, clint_write_idle, idle_devs.
Qed.
