(* ===== verification/Devices.v ===== *)
(** * What the platform devices promise

    The PLIC: its lines to the harts, and the claim protocol over arbitrary
    sequences of accesses.  The CLINT: its registers read back what was written.
    The DesignWare UARTs: the interrupt line follows the enabled conditions, and
    the receiver delivers the console's bytes in order. *)

From S2P Require Import Prelude Iomem Cpu Pmp Csr Trap Machine Mmu Alu Insn Interp SafeInsn Safety Platform.

(** ** Harts under device operations *)

Lemma ncpus_set_hart m i s : ncpus (set_hart m i s) = ncpus m.
Proof. unfold ncpus, set_hart. destruct (Nat.eqb _ _); mach_simpl; [done|apply length_insert]. Qed.

Lemma set_hart_plic (m : machine) i s :
  plic_pending_irq (set_hart m i s) = plic_pending_irq m /\
  plic_served_irq (set_hart m i s) = plic_served_irq m /\ devs (set_hart m i s) = devs m /\
  hartid (set_hart m i s) = hartid m.
Proof. unfold set_hart. by destruct (Nat.eqb _ _). Qed.

(** The running hart has an entry of its own. *)
Definition harts_ok (m : machine) : Prop := (hartid m < ncpus m)%nat.

(** Operations that touch nothing but [mip] and [power_down_flag] of the harts. *)
Definition lines_only (m m' : machine) : Prop :=
  ncpus m' = ncpus m /\ hartid m' = hartid m /\ plic_pending_irq m' = plic_pending_irq m /\
  plic_served_irq m' = plic_served_irq m /\ devs m' = devs m /\
  forall j, plic_enable_irq (get_hart m' j) = plic_enable_irq (get_hart m j).

Lemma lines_only_refl m : lines_only m m.
Proof. done. Qed.

Lemma lines_only_trans m1 m2 m3 : lines_only m1 m2 -> lines_only m2 m3 -> lines_only m1 m3.
Proof.
  intros (A1 & A2 & A3 & A4 & A5 & A6) (B1 & B2 & B3 & B4 & B5 & B6).
  repeat split; congruence.
Qed.

(** [set_hart] where the entry may not exist: the write is dropped. *)
Lemma get_set_hart_gen (m : machine) i j s :
  get_hart (set_hart m i s) j =
    if Nat.eqb i j && (Nat.eqb i (hartid m) || (i <? ncpus m)%nat) then s else get_hart m j.
Proof.
  unfold get_hart, set_hart, ncpus.
  destruct (Nat.eqb_spec i j) as [<-|Hij]; cbn [andb].
  - destruct (Nat.eqb_spec i (hartid m)) as [E|E]; cbn [orb]; mach_simpl.
    + by rewrite (proj2 (Nat.eqb_eq _ _) E).
    + rewrite (proj2 (Nat.eqb_neq _ _) E). destruct (Nat.ltb_spec i (length (harts m))).
      * by rewrite nth_lookup, list_lookup_insert_eq.
      * by rewrite list_insert_ge by lia.
  - destruct (Nat.eqb_spec i (hartid m)); mach_simpl; destruct (Nat.eqb_spec j (hartid m)); try done; [congruence|].
    by rewrite !nth_lookup, list_lookup_insert_ne.
Qed.

Lemma set_hart_lines m i s :
  plic_enable_irq s = plic_enable_irq (get_hart m i) -> lines_only m (set_hart m i s).
Proof.
  intros E. destruct (set_hart_plic m i s) as (H1 & H2 & H3 & H4).
  repeat split; auto using ncpus_set_hart. intros j. rewrite get_set_hart_gen.
  destruct (Nat.eqb_spec i j) as [<-|]; [|done]. by destruct (_ || _).
Qed.

Lemma raise_mip_lines m i mask : lines_only m (raise_mip m i mask).
Proof.
  apply set_hart_lines. unfold riscv_cpu_set_mip. cbv zeta. by destruct (_ && _ && _).
Qed.

Lemma lower_mip_lines m i mask : lines_only m (lower_mip m i mask).
Proof. by apply set_hart_lines. Qed.

(** *** The lines of one hart *)

Definition mip_of (m : machine) (i : nat) : Z := mip (get_hart m i).

Lemma raise_mip_bits m i j mask :
  (i < ncpus m)%nat -> mip_of (raise_mip m i mask) j = if Nat.eqb i j then mip_of m j .| mask else mip_of m j.
Proof.
  intros Hi. unfold mip_of, raise_mip. rewrite get_set_hart_gen. rewrite (proj2 (Nat.ltb_lt _ _) Hi), orb_true_r, andb_true_r.
  destruct (Nat.eqb_spec i j) as [<-|]; [|done]. unfold riscv_cpu_set_mip. cbv zeta. by destruct (_ && _ && _).
Qed.

Lemma lower_mip_bits m i j mask :
  (i < ncpus m)%nat -> mip_of (lower_mip m i mask) j = if Nat.eqb i j then mip_of m j .&~ mask else mip_of m j.
Proof.
  intros Hi. unfold mip_of, lower_mip. rewrite get_set_hart_gen. rewrite (proj2 (Nat.ltb_lt _ _) Hi), orb_true_r, andb_true_r.
  by destruct (Nat.eqb_spec i j) as [<-|].
Qed.

(** A context asks for an interrupt. *)
Definition requested (m : machine) (i : nat) (ctx : Z) : bool :=
  has (plic_mask m) (aget 0 (plic_enable_irq (get_hart m i)) ctx).

(** A line after its update: [b] at the bit [k], the other bits as before. *)
Definition put_bit (v k : Z) (b : bool) : Z := if b then v .| (1 << k) else v .&~ (1 << k).

Lemma plic_update_ctx_bits m i j ctx :
  (i < ncpus m)%nat ->
  lines_only m (plic_update_ctx i m ctx) /\
  mip_of (plic_update_ctx i m ctx) j =
    if Nat.eqb i j then put_bit (mip_of m j) (if ctx =? 0 then 9 else 11) (requested m i ctx)
    else mip_of m j.
Proof.
  intros Hi. unfold plic_update_ctx. fold (requested m i ctx).
  destruct (requested m i ctx) eqn:E; split; auto using raise_mip_lines, lower_mip_lines.
  - rewrite raise_mip_bits by done. by destruct (Nat.eqb _ _), (ctx =? 0).
  - rewrite lower_mip_bits by done. by destruct (Nat.eqb _ _), (ctx =? 0).
Qed.

Lemma requested_lines m m' i ctx : lines_only m m' -> requested m' i ctx = requested m i ctx.
Proof.
  intros (_ & _ & H1 & H2 & _ & H3). unfold requested, plic_mask. by rewrite H1, H2, H3.
Qed.

Lemma plic_update_mip_bits m i j :
  (i < ncpus m)%nat ->
  lines_only m (plic_update_mip m i) /\
  mip_of (plic_update_mip m i) j =
    if Nat.eqb i j then put_bit (put_bit (mip_of m j) 9 (requested m i 0)) 11 (requested m i 1)
    else mip_of m j.
Proof.
  intros Hi. unfold plic_update_mip. rewrite (proj2 (Nat.ltb_lt _ _) Hi). cbn [foldl].
  destruct (plic_update_ctx_bits m i j 0 Hi) as [L0 B0].
  destruct (plic_update_ctx_bits (plic_update_ctx i m 0) i j 1) as [L1 B1]; [by rewrite (proj1 L0)|].
  split; [by eapply lines_only_trans|]. rewrite B1, B0, (requested_lines _ _ _ _ L0).
  by destruct (Nat.eqb i j).
Qed.

Lemma plic_update_all_bits n m j :
  (n <= ncpus m)%nat ->
  lines_only m (foldl plic_update_mip m (seq 0 n)) /\
  mip_of (foldl plic_update_mip m (seq 0 n)) j =
    if (j <? n)%nat then put_bit (put_bit (mip_of m j) 9 (requested m j 0)) 11 (requested m j 1)
    else mip_of m j.
Proof.
  intros Hn. induction n as [|n IH]; [done|]. rewrite seq_S, foldl_app. cbn [foldl Nat.add].
  destruct IH as [L B]; [lia|].
  destruct (plic_update_mip_bits (foldl plic_update_mip m (seq 0 n)) n j) as [L' B']; [rewrite (proj1 L); lia|].
  split; [by eapply lines_only_trans|]. rewrite B', B, !(requested_lines _ _ _ _ L).
  destruct (Nat.eqb_spec n j) as [->|]; [by rewrite Nat.ltb_irrefl, (proj2 (Nat.ltb_lt _ _)) by lia|].
  destruct (Nat.ltb_spec j n), (Nat.ltb_spec j (S n)); done || lia.
Qed.

Lemma testbit_put_bit v k b i :
  0 <= k -> 0 <= i -> Z.testbit (put_bit v k b) i = if i =? k then b else Z.testbit v i.
Proof.
  intros Hk Hi. unfold put_bit. rewrite Z.shiftl_1_l.
  destruct b; [rewrite Z.lor_spec|rewrite Z.ldiff_spec]; rewrite Z.pow2_bits_eqb by lia;
    rewrite (Z.eqb_sym k i); destruct (i =? k);
    rewrite ?orb_true_r, ?orb_false_r, ?andb_false_r, ?andb_true_r; done.
Qed.

(** The PLIC's lines: after a device moved its interrupt line, the pending bit
    of that source, and of no other, is the level of the line, and on every hart
    the two external interrupt lines are up exactly if an enabled source is pending
    and not in service; the other bits of [mip] are as before. *)
Lemma plic_set_irq_lines m irq state i :
  (i < ncpus m)%nat -> 0 < irq < 32 ->
  let m' := plic_set_irq m irq state in
  (forall k, 0 <= k -> Z.testbit (plic_pending_irq m') k =
     if k =? irq then nz state else Z.testbit (plic_pending_irq m) k) /\
  Z.testbit (mip_of m' i) 9 = requested m' i 0 /\
  Z.testbit (mip_of m' i) 11 = requested m' i 1 /\
  (forall k, 0 <= k -> k <> 9 -> k <> 11 -> Z.testbit (mip_of m' i) k = Z.testbit (mip_of m i) k).
Proof.
  intros Hi Hirq m'. unfold m', plic_set_irq.
  assert (u32 (1 << irq) = 1 << irq) as ->.
  { apply trunc_small. rewrite Z.shiftl_1_l. split; [apply Z.lt_le_incl, pow2_pos; lia|apply Z.pow_lt_mono_r; lia]. }
  set (m0 := if nz state then _ else _).
  assert (plic_pending_irq m0 = put_bit (plic_pending_irq m) irq (nz state)) as E0
    by (unfold m0; by destruct (nz state)).
  assert (ncpus m0 = ncpus m) as En by (unfold m0; by destruct (nz state)).
  assert (mip_of m0 i = mip_of m i) as Em by (unfold m0; by destruct (nz state)).
  destruct (plic_update_all_bits (ncpus m0) m0 i) as [L B]; [done|].
  rewrite En, (proj2 (Nat.ltb_lt _ _) Hi) in B. rewrite <- En in *. rewrite !(requested_lines _ _ _ _ L).
  destruct L as (_ & _ & Lp & _). rewrite Lp, E0, En in *.
  split; [intros k Hk; by apply testbit_put_bit; lia|].
  rewrite B, Em. split; [by rewrite !testbit_put_bit by lia|]. split; [by rewrite testbit_put_bit by lia|].
  intros k Hk H9 H11. rewrite !testbit_put_bit by lia. by rewrite !(proj2 (Z.eqb_neq _ _)) by lia.
Qed.

(** ** The claim protocol

    Accesses of harts to the devices, interrupt lines that devices outside the
    platform raise and lower, and input that arrives on the console. *)

Inductive event :=
| Ev_read (handle offset size_log2 : Z)
| Ev_write (handle offset val size_log2 : Z)
| Ev_line (irq level : Z)
| Ev_input (c : Z).

Definition run_event (m : machine) (e : event) : machine :=
  match e with
  | Ev_read h off n => (platform_read h off n m).2
  | Ev_write h off v n => platform_write h off v n m
  | Ev_line irq level => plic_set_irq m irq level
  | Ev_input c => m <| devs ::= fun p => p <| console ::= fun k => k <| con_in ::= fun l => l ++ [c] |> |> |>
  end.

(** The claim/complete register of a context. *)
Definition claim_reg (offset : Z) : Prop :=
  in_range PLIC_CONTEXT_BASE (PLIC_CONTEXT_STRIDE * MAX_CPUS) offset = true /\
  (offset .& (PLIC_CONTEXT_STRIDE - 1)) >> 2 = 1.

Definition completes (i : Z) (e : event) : Prop :=
  match e with
  | Ev_write h off v n => h = H_PLIC /\ claim_reg off /\ v .& 31 = i
  | _ => False
  end.

Definition served (m : machine) (i : Z) : bool := Z.testbit (plic_served_irq m) i.

Lemma served_plic_update_mip m i : plic_served_irq (plic_update_mip m i) = plic_served_irq m.
Proof.
  destruct (decide (i < ncpus m)%nat) as [Hi|Hi].
  - by destruct (plic_update_mip_bits m i i Hi) as [(_ & _ & _ & H & _) _].
  - unfold plic_update_mip. by rewrite (proj2 (Nat.ltb_ge _ _)) by lia.
Qed.

Lemma served_plic_set_irq m irq l : plic_served_irq (plic_set_irq m irq l) = plic_served_irq m.
Proof.
  unfold plic_set_irq. set (m0 := if nz l then _ else _).
  transitivity (plic_served_irq m0); [|unfold m0; by destruct (nz l)].
  by destruct (plic_update_all_bits (ncpus m0) m0 0) as [(_ & _ & _ & H & _) _].
Qed.

Lemma served_set_dw b m s : plic_served_irq (set_dw b m s) = plic_served_irq m.
Proof. done. Qed.

Lemma served_update_isr b m : plic_served_irq (update_isr b m) = plic_served_irq m.
Proof. unfold update_isr. cbv zeta. destruct (_ =? _); [done|]. by rewrite served_plic_set_irq. Qed.

Lemma served_poll b m : plic_served_irq (dw_apb_uart_poll b m) = plic_served_irq m.
Proof.
  unfold dw_apb_uart_poll, read_data. destruct (has _ _); [done|].
  destruct (con_in _); by rewrite served_update_isr.
Qed.

Lemma served_set_hart (m : machine) i s : plic_served_irq (set_hart m i s) = plic_served_irq m.
Proof. apply set_hart_plic. Qed.

Create Rewrite HintDb served.
#[export] Hint Rewrite served_plic_update_mip served_plic_set_irq served_set_dw served_update_isr
  served_poll served_set_hart : served.

Lemma served_dw_read b m off : plic_served_irq (dw_apb_uart_read b m off).2 = plic_served_irq m.
Proof.
  unfold dw_apb_uart_read, read_rhr, read_lsr, read_msr. cbv zeta.
  repeat case_match; cbn [snd]; by autorewrite with served.
Qed.

Lemma served_dw_write b m off v : plic_served_irq (dw_apb_uart_write b m off v) = plic_served_irq m.
Proof.
  unfold dw_apb_uart_write, write_thr, write_ier. cbv zeta. repeat case_match; by autorewrite with served.
Qed.

Lemma served_clint_write m off v n : plic_served_irq (clint_write m off v n) = plic_served_irq m.
Proof.
  unfold clint_write, clint_set_mtime, raise_mip, lower_mip. cbv zeta.
  repeat case_match; by autorewrite with served.
Qed.

Lemma served_claim m j i : served m i = true -> served (plic_claim m j).2 i = true.
Proof.
  intros H. unfold plic_claim, served. destruct (nz _); cbn [snd]; [|done].
  rewrite served_plic_update_mip. mach_simpl. rewrite Z.lor_spec. unfold served in H. by rewrite H.
Qed.

Lemma served_read m h off n i : served m i = true -> served (platform_read h off n m).2 i = true.
Proof.
  intros H. unfold platform_read.
  destruct (h =? H_UART); [unfold uart_read, read_data; repeat case_match; by simplify_eq/=|].
  destruct (h =? H_DW0); [unfold served; by rewrite served_dw_read|].
  destruct (h =? H_DW1); [unfold served; by rewrite served_dw_read|].
  destruct (h =? H_CLINT); [done|]. destruct (h =? H_PLIC); [|done].
  unfold plic_read. cbv zeta. repeat case_match; cbn [snd]; try done. by apply served_claim.
Qed.

Lemma served_write m h off v n i :
  0 <= i -> ~ completes i (Ev_write h off v n) ->
  served m i = true -> served (platform_write h off v n m) i = true.
Proof.
  intros Hi Hc H. unfold platform_write, served.
  destruct (h =? H_UART); [unfold uart_write, write_data; cbv zeta; repeat case_match; done|].
  destruct (h =? H_DW0); [by rewrite served_dw_write|].
  destruct (h =? H_DW1); [by rewrite served_dw_write|].
  destruct (h =? H_CLINT); [by rewrite served_clint_write|].
  destruct (Z.eqb_spec h H_PLIC) as [->|]; [|done].
  unfold plic_write. cbv zeta. repeat case_match; try done; [by rewrite served_set_hart|].
  unfold plic_complete. mach_simpl. rewrite Z.ldiff_spec, Z.shiftl_1_l.
  unfold served in H. rewrite H, Z.pow2_bits_eqb by (apply Z.land_nonneg; lia).
  destruct (Z.eqb_spec (v .& 31) i) as [E|]; [|done]. destruct Hc. split; [done|].
  split; [|done]. split; [done|]. by apply Z.eqb_eq.
Qed.

Lemma served_run evs m i :
  0 <= i -> Forall (fun e => ~ completes i e) evs -> served m i = true -> served (foldl run_event m evs) i = true.
Proof.
  intros Hi Hf. revert m. induction Hf as [|e evs He Hf IH]; intros m H; cbn [foldl]; [done|].
  apply IH. destruct e as [h off n|h off v n|irq l|c]; cbn [run_event].
  - by apply served_read.
  - by apply served_write.
  - unfold served. by rewrite served_plic_set_irq.
  - done.
Qed.

(** *** What a claim returns *)

Lemma ctz32_bit v : ctz32 v <> 32 -> Z.testbit v (ctz32 v) = true.
Proof.
  unfold ctz32. destruct (list_find _ _) as [[k i]|] eqn:E; [|done].
  by apply list_find_Some in E as (_ & Hb & _).
Qed.

Lemma ctz32_spec v :
  fits 32 v -> v <> 0 ->
  0 <= ctz32 v < 32 /\ Z.testbit v (ctz32 v) = true /\ forall j, 0 <= j < ctz32 v -> Z.testbit v j = false.
Proof.
  intros Hf Hn. unfold ctz32. destruct (list_find _ _) as [[k i]|] eqn:E.
  - apply list_find_Some in E as (Hk & Hb & Hlt). apply lookup_seqZ in Hk as [-> Hk].
    split; [lia|]. split; [done|]. intros j Hj.
    destruct (Z.testbit v j) eqn:Ej; [|done]. exfalso. apply (Hlt (Z.to_nat j) j); [|lia|done].
    apply lookup_seqZ. lia.
  - apply list_find_None in E. exfalso. apply Hn, Z.bits_inj'. intros j Hj. rewrite Z.bits_0.
    destruct (Z.ltb_spec j 32); [|by apply fits_testbit in Hf as [_ ->]; lia].
    rewrite Forall_forall in E. apply not_true_is_false, E, elem_of_seqZ. lia.
Qed.

Lemma plic_read_claim m off :
  claim_reg off ->
  plic_read m off 2 = plic_claim m (Z.to_nat ((off - PLIC_CONTEXT_BASE) / PLIC_CONTEXT_STRIDE)).
Proof.
  intros [Hr Hw]. unfold plic_read. cbn [Z.eqb Pos.eqb negb]. rewrite Hr, Hw.
  unfold in_range in *. apply andb_true_iff in Hr as [H1 H2]. apply Z.leb_le in H1.
  assert (forall b l, b + l <= PLIC_CONTEXT_BASE -> (b <=? off) && (off <? b + l) = false) as Hb.
  { intros b l Hbl. rewrite (proj2 (Z.ltb_ge off (b + l))) by lia. apply andb_false_r. }
  rewrite !Hb by (vm_compute; discriminate). done.
Qed.

(** C8 The claim register hands out an interrupt to one hart at a time: a claim
    returns the lowest source that is pending and not in service; from then on,
    whatever accesses and interrupts follow, no claim through any context returns
    that source again before it is completed. *)
Theorem plic_claim_exclusive m off off' i evs :
  fits 32 (plic_pending_irq m) -> claim_reg off -> claim_reg off' ->
  (plic_read m off 2).1 = i -> i <> 0 ->
  Forall (fun e => ~ completes i e) evs ->
  Z.testbit (plic_pending_irq m) i = true /\ served m i = false /\
  (forall j, 0 <= j < i -> Z.testbit (plic_pending_irq m) j = true -> served m j = true) /\
  (plic_read (foldl run_event (plic_read m off 2).2 evs) off' 2).1 <> i.
Proof.
  intros Hf H1 H2 Hi Hn Hev. rewrite plic_read_claim in * by done. rewrite plic_read_claim by done.
  set (j := Z.to_nat _) in *. unfold plic_claim in Hi. destruct (nz (plic_mask m)) eqn:En; cbn [fst] in Hi; [|done].
  assert (plic_mask m <> 0) as Hm by (intros E; by rewrite E in En).
  destruct (ctz32_spec (plic_mask m)) as (Hr & Hb & Hlow); [unfold plic_mask; width|done|].
  rewrite Hi in *. unfold plic_mask in Hb, Hlow. rewrite Z.ldiff_spec in Hb.
  apply andb_true_iff in Hb as [Hp Hs]. apply negb_true_iff in Hs. split; [done|]. split; [done|]. split.
  - intros k Hk Hpk. specialize (Hlow k Hk). rewrite Z.ldiff_spec, Hpk in Hlow. by apply negb_false_iff in Hlow.
  - assert (served (plic_claim m j).2 i = true) as Hserved.
    { unfold plic_claim, served. rewrite En. cbn [snd]. rewrite served_plic_update_mip, Hi. mach_simpl.
      by rewrite Z.lor_spec, Z.shiftl_1_l, Z.pow2_bits_true, orb_true_r by lia. }
    apply (served_run evs) in Hserved; [|lia|done]. set (m' := foldl _ _ _) in *.
    unfold plic_claim. destruct (nz (plic_mask m')); cbn [fst]; [|done]. intros E.
    pose proof (ctz32_bit (plic_mask m') ltac:(lia)) as Hb'. rewrite E in Hb'. unfold plic_mask in Hb'.
    rewrite Z.ldiff_spec in Hb'. unfold served in Hserved. by rewrite Hserved, andb_false_r in Hb'.
Qed.

(** ** CLINT registers over the bus *)

Lemma get_set_same (m : machine) i s : (i < ncpus m)%nat -> get_hart (set_hart m i s) i = s.
Proof. intros Hi. rewrite get_set_hart_gen, Nat.eqb_refl, (proj2 (Nat.ltb_lt _ _) Hi), orb_true_r. done. Qed.

Lemma clint_mask_word v : fits 32 v -> clint_size_mask v 2 = v.
Proof.
  intros Hv. unfold clint_size_mask. cbn [Z.eqb Pos.eqb]. change 0xffffffff with (Z.ones 32).
  rewrite Z.land_ones by lia. by apply Z.mod_small.
Qed.

Section Clint.
Context (m : machine) (i : nat) (Hi : (i < ncpus m)%nat) (Hmax : (i < 8)%nat).

Lemma msip_offset : (4 * Z.of_nat i) >> 2 = Z.of_nat i.
Proof. rewrite Z.shiftr_div_pow2 by lia. change (2 ^ 2) with 4. by rewrite Z.mul_comm, Z.div_mul. Qed.

Lemma mtimecmp_offset k : 0 <= k < 8 -> (0x4000 + 8 * Z.of_nat i + k - 0x4000) >> 3 = Z.of_nat i.
Proof.
  intros Hk. rewrite Z.shiftr_div_pow2 by lia. change (2 ^ 3) with 8. symmetry.
  apply (Z.div_unique _ _ _ k); lia.
Qed.

Lemma mtimecmp_half b : has ((0x4000 + 8 * Z.of_nat i + 4 * b2z b) >> 2) 1 = b.
Proof.
  unfold has. change 1 with (Z.ones 1). rewrite Z.land_ones, Z.shiftr_div_pow2 by lia.
  replace ((0x4000 + 8 * Z.of_nat i + 4 * b2z b) / 2 ^ 2) with (b2z b + (0x800 + Z.of_nat i) * 2).
  - change (2 ^ 1) with 2. rewrite Z_mod_plus_full. by destruct b.
  - symmetry. change (2 ^ 2) with 4. replace (0x4000 + 8 * Z.of_nat i + 4 * b2z b) with ((b2z b + (0x800 + Z.of_nat i) * 2) * 4) by lia.
    by rewrite Z.div_mul.
Qed.

(** A write to half of a [mtimecmp]. *)
Lemma clint_write_mtimecmp b v :
  fits 32 v ->
  clint_write m (0x4000 + 8 * Z.of_nat i + 4 * b2z b) v 2 =
    lower_mip (set_hart m i ((get_hart m i)
      <| timecmp := if b then (timecmp (get_hart m i) .& 0xffffffff) .| (v << 32) else v |>)) i MIP_MTIP.
Proof.
  intros Hv. unfold clint_write. cbv zeta. rewrite mtimecmp_half, mtimecmp_offset, Nat2Z.id by (destruct b; cbn; lia).
  rewrite (proj2 (Nat.leb_gt (ncpus m) i)) by lia.
  assert (0 <= b2z b <= 1) by (by destruct b).
  set (off := 0x4000 + _ + _). assert (0x4000 <= off < 0xbff8) as Ho by (unfold off; lia).
  rewrite (proj2 (Z.ltb_ge off 0x4000)), (proj2 (Z.eqb_neq off 0xbff8)), (proj2 (Z.eqb_neq off 0xbffc)),
    (proj2 (Z.ltb_lt off 0xbff8)) by lia.
  rewrite clint_mask_word by done. change clint_low_mask with 0. by rewrite Z.land_0_r, Z.lor_0_l.
Qed.

Lemma clint_read_mtimecmp b :
  clint_read m (0x4000 + 8 * Z.of_nat i + 4 * b2z b) 2 =
    u32 (if b then timecmp (get_hart m i) >> 32 else timecmp (get_hart m i)).
Proof.
  unfold clint_read. cbv zeta. rewrite mtimecmp_half, mtimecmp_offset, Nat2Z.id by (destruct b; cbn; lia).
  rewrite (proj2 (Nat.leb_gt (ncpus m) i)) by lia.
  assert (0 <= b2z b <= 1) by (by destruct b).
  set (off := 0x4000 + _ + _). assert (0x4000 <= off < 0xbff8) as Ho by (unfold off; lia).
  rewrite (proj2 (Z.ltb_ge off 0x4000)), (proj2 (Z.eqb_neq off 0xbff8)), (proj2 (Z.eqb_neq off 0xbffc)),
    (proj2 (Z.ltb_lt off 0xbff8)) by lia.
  rewrite clint_mask_word; [by destruct b|]. destruct b; width.
Qed.

Lemma clint_write_msip v :
  fits 32 v ->
  clint_write m (4 * Z.of_nat i) v 2 =
    if has v 1 then raise_mip m i MIP_MSIP else lower_mip m i MIP_MSIP.
Proof.
  intros Hv. unfold clint_write. cbv zeta. rewrite (proj2 (Z.ltb_lt _ _)) by lia.
  rewrite msip_offset, Nat2Z.id, (proj2 (Nat.leb_gt (ncpus m) i)) by lia. by rewrite clint_mask_word.
Qed.

Lemma clint_read_msip :
  clint_read m (4 * Z.of_nat i) 2 = b2z (has (mip_of m i) MIP_MSIP).
Proof.
  unfold clint_read. cbv zeta. rewrite (proj2 (Z.ltb_lt _ _)) by lia.
  rewrite msip_offset, Nat2Z.id, (proj2 (Nat.leb_gt (ncpus m) i)) by lia. apply clint_mask_word. by destruct (has _ _).
Qed.
End Clint.

Lemma has_low_bit v : has (u32 v) 1 = Z.testbit v 0.
Proof. rewrite has_1, testbit_trunc by lia. done. Qed.

Lemma land_1 v : v .& 1 = b2z (Z.testbit v 0).
Proof.
  change 1 with (Z.ones 1) at 1. rewrite Z.land_ones by lia. change (2 ^ 1) with 2.
  rewrite <- (Z.bit0_mod v). by destruct (Z.testbit v 0).
Qed.

(** A range registered for the CLINT, as [virt_machine_init] does. *)
Definition clint_range (pr : PhysMemoryRange) : Prop :=
  opaque pr = H_CLINT /\ devio_flags pr = DEVIO_SIZE32 .| DEVIO_SIZE16 .| DEVIO_SIZE8 /\
  0 <= pr_addr pr < 2 ^ 64 - 0x10000.

Section Bus.
Context (pr : PhysMemoryRange) (Hpr : clint_range pr) (off : Z) (Hoff : 0 <= off < 0xc000).

Lemma bus_offset k : 0 <= k <= 4 -> u32 (u64 (pr_addr pr + off - pr_addr pr) + k) = off + k.
Proof.
  intros Hk. replace (pr_addr pr + off - pr_addr pr) with off by lia.
  rewrite (trunc_small 64) by (unfold fits; lia). apply trunc_small. unfold fits. lia.
Qed.

Lemma bus_offset_0 : u32 (u64 (pr_addr pr + off - pr_addr pr)) = off.
Proof. pose proof (bus_offset 0 ltac:(lia)) as E. by rewrite !Z.add_0_r in E. Qed.

(** A 64-bit store is two 32-bit ones, the low half first. *)
Lemma clint_store64 v m :
  device_write pr (pr_addr pr + off) v 3 m =
    clint_write (clint_write m off (u32 v) 2) (off + 4) (u32 (v >> 32)) 2.
Proof.
  destruct Hpr as (Ho & Hf & _). unfold device_write. rewrite Ho, Hf, bus_offset_0, bus_offset by lia.
  change 0xffffffff with (Z.ones 32). rewrite <- !trunc_ones by lia. done.
Qed.

Lemma clint_load64 m :
  device_read pr (pr_addr pr + off) 3 m =
    (inr (u32 (clint_read m off 2) .| (u32 (clint_read m (off + 4) 2) << 32)), m).
Proof.
  destruct Hpr as (Ho & Hf & _). unfold device_read. rewrite Ho, Hf, bus_offset_0, bus_offset by lia. done.
Qed.

Lemma clint_store32 v m : device_write pr (pr_addr pr + off) v 2 m = clint_write m off (u32 v) 2.
Proof.
  destruct Hpr as (Ho & Hf & _). unfold device_write. rewrite Ho, Hf, bus_offset_0. done.
Qed.

Lemma clint_load32 m : device_read pr (pr_addr pr + off) 2 m = (inr (u32 (clint_read m off 2)), m).
Proof.
  destruct Hpr as (Ho & Hf & _). unfold device_read. rewrite Ho, Hf, bus_offset_0. done.
Qed.
End Bus.

Lemma halves_sum v : fits 64 v -> u32 v + (u32 (v >> 32) << 32) = v.
Proof.
  intros Hv. destruct (word_halves v Hv) as (E0 & E1 & E & _). rewrite E0, E1, Z.shiftl_mul_pow2 by lia. lia.
Qed.

Lemma halves_join v : fits 64 v -> u32 v .| (u32 (v >> 32) << 32) = v.
Proof.
  intros Hv. rewrite <- (halves_sum v) at 3 by done. rewrite <- Z.lxor_lor, <- Z.add_nocarry_lxor; [done|..];
    (apply Z.bits_inj'; intros k Hk; rewrite Z.land_spec, Z.shiftl_spec, !testbit_trunc, Z.bits_0 by lia;
     destruct (Z.ltb_spec k 32); [rewrite (Z.testbit_neg_r _ (k - 32)) by lia; by rewrite !andb_false_r|done]).
Qed.

(** The machine after both halves of a [mtimecmp] are written. *)
Lemma mtimecmp_set m i v :
  (i < ncpus m)%nat -> (i < 8)%nat -> fits 64 v ->
  let m' := clint_write (clint_write m (0x4000 + 8 * Z.of_nat i) (u32 v) 2)
              (0x4000 + 8 * Z.of_nat i + 4) (u32 (v >> 32)) 2 in
  ncpus m' = ncpus m /\ timecmp (get_hart m' i) = v /\ Z.testbit (mip_of m' i) 7 = false.
Proof.
  intros Hi H8 Hv. pose proof (clint_write_mtimecmp m i Hi H8 false (u32 v) ltac:(width)) as E.
  rewrite Z.add_0_r in E. rewrite E. clear E. set (m1 := lower_mip _ _ _). assert (ncpus m1 = ncpus m) as E1.
  { unfold m1, lower_mip. by rewrite !ncpus_set_hart. }
  assert (timecmp (get_hart m1 i) = u32 v) as Et.
  { unfold m1, lower_mip. rewrite !get_set_same by (rewrite ?ncpus_set_hart; done). done. }
  pose proof (clint_write_mtimecmp m1 i ltac:(lia) H8 true (u32 (v >> 32)) ltac:(width)) as E.
  change (4 * b2z true) with 4 in E. rewrite E, Et. clear E. cbv zeta.
  split; [unfold lower_mip; by rewrite !ncpus_set_hart|]. unfold lower_mip, mip_of.
  rewrite !get_set_same by (rewrite ?ncpus_set_hart; lia). unfold riscv_cpu_reset_mip. cpu_simpl. split.
  - transitivity (u32 v .| (u32 (v >> 32) << 32)); [|by apply halves_join]. f_equal. change 0xffffffff with (Z.ones 32).
    rewrite <- trunc_ones by lia. apply trunc_idemp. lia.
  - rewrite Z.ldiff_spec. apply andb_false_r.
Qed.

(** The machine after both halves of [mtime] are written. *)
Lemma mtime_write m b v :
  fits 32 v ->
  clint_write m (0xbff8 + 4 * b2z b) v 2 =
    clint_set_mtime m (u64 (if b then (rtc_get_time m .& 0xffffffff) + (v << 32)
                            else (rtc_get_time m .& 0xFFFFFFFF00000000) + v)).
Proof. intros Hv. unfold clint_write. cbv zeta. rewrite clint_mask_word by done. by destruct b. Qed.

Lemma rtc_set_mtime m t :
  (0 < ncpus m)%nat -> 0 <= t < 2 ^ 53 ->
  ncpus (clint_set_mtime m t) = ncpus m /\ rtc_get_time (clint_set_mtime m t) = t.
Proof.
  intros H0 Ht. unfold clint_set_mtime, rtc_get_time. rewrite ncpus_set_hart, get_set_same by done.
  split; [done|]. cpu_simpl. change RTC_FREQ_DIV with 2000. rewrite trunc_small by (unfold fits; lia).
  by apply Z.div_mul.
Qed.

Lemma high_part t v :
  0 <= t < 2 ^ 53 -> fits 32 v -> 0 <= (t .& 0xFFFFFFFF00000000) + v < 2 ^ 53 /\
  ((t .& 0xFFFFFFFF00000000) + v) .& 0xffffffff = v.
Proof.
  intros Ht Hv. replace (t .& 0xFFFFFFFF00000000) with (t / 2 ^ 32 * 2 ^ 32).
  - assert (0 <= t / 2 ^ 32 < 2 ^ 21) by (split; [apply Z.div_pos; lia|apply Z.div_lt_upper_bound; lia]).
    unfold fits in Hv. split; [lia|]. change 0xffffffff with (Z.ones 32). rewrite Z.land_ones by lia.
    rewrite Z.add_comm, Z_mod_plus_full. by apply Z.mod_small.
  - rewrite <- Z.shiftr_div_pow2, <- Z.shiftl_mul_pow2 by lia. rewrite <- Z.ldiff_ones_r by lia.
    apply Z.bits_inj'. intros k Hk. rewrite Z.ldiff_spec, Z.land_spec, Z.testbit_ones_nonneg by lia.
    change 0xFFFFFFFF00000000 with (Z.ones 32 << 32).
    rewrite Z.shiftl_spec by lia. destruct (Z.ltb_spec k 32); cbn [negb].
    + by rewrite (Z.testbit_neg_r _ (k - 32)) by lia.
    + destruct (Z.testbit t k) eqn:E; [|done]. rewrite Z.testbit_ones_nonneg by lia.
      symmetry. apply Z.ltb_lt. destruct (Z.ltb_spec k 53); [lia|].
      assert (fits 53 t) as Hf by done. apply fits_testbit in Hf as [_ Hf]; [|lia]. by rewrite Hf in E.
Qed.

Lemma mtime_set m v :
  (0 < ncpus m)%nat -> 0 <= rtc_get_time m < 2 ^ 53 -> 0 <= v < 2 ^ 53 ->
  rtc_get_time (clint_write (clint_write m 0xbff8 (u32 v) 2) (0xbff8 + 4) (u32 (v >> 32)) 2) = v.
Proof.
  intros H0 Ht Hv. assert (fits 64 v) as Hv64 by (unfold fits; lia).
  destruct (high_part (rtc_get_time m) (u32 v)) as [Hr Hlow]; [done|width|].
  pose proof (mtime_write m false (u32 v) ltac:(width)) as E. cbn [b2z] in E. rewrite Z.add_0_r in E. rewrite E.
  rewrite (trunc_small 64) by (unfold fits; lia). clear E.
  destruct (rtc_set_mtime m _ H0 Hr) as [En Er]. set (m1 := clint_set_mtime m _) in *.
  pose proof (mtime_write m1 true (u32 (v >> 32)) ltac:(width)) as E. change (4 * b2z true) with 4 in E.
  rewrite E, Er, Hlow. clear E.
  rewrite halves_sum, trunc_small by done. apply rtc_set_mtime; lia.
Qed.

Lemma clint_read_mtime m b :
  clint_read m (0xbff8 + 4 * b2z b) 2 = u32 (if b then rtc_get_time m >> 32 else rtc_get_time m).
Proof. unfold clint_read. cbv zeta. destruct b; apply clint_mask_word; width. Qed.


(** ** The DesignWare UARTs *)

Create HintDb uarts.

(** The line is up iff one of the enabled conditions of [update_isr] holds. *)
Definition irq_line_ok (s : DW_apb_uart_state) : Prop :=
  last_irq_level s = if isr_nibble s =? 1 then 0 else 1.

Lemma devs_set_hart (m : machine) i s : devs (set_hart m i s) = devs m.
Proof. apply set_hart_plic. Qed.

Lemma devs_plic_set_irq m irq l : devs (plic_set_irq m irq l) = devs m.
Proof.
  unfold plic_set_irq. set (m0 := if nz l then _ else _).
  transitivity (devs m0); [|unfold m0; by destruct (nz l)].
  by destruct (plic_update_all_bits (ncpus m0) m0 0) as [(_ & _ & _ & _ & H & _) _].
Qed.

Lemma get_set_dw b m s : get_dw b (set_dw b m s) = s.
Proof. by destruct b. Qed.

Lemma get_set_dw_other b m s : get_dw (negb b) (set_dw b m s) = get_dw (negb b) m.
Proof. by destruct b. Qed.

Lemma isr_low_bit s : has (u8 ((isr s .& 0xF0) + isr_nibble s)) 1 = (isr_nibble s =? 1).
Proof.
  rewrite has_1, testbit_trunc by lia. cbn [Z.ltb Z.compare andb].
  rewrite Z.add_bit0, Z.land_spec. change (Z.testbit 0xF0 0) with false. rewrite andb_false_r.
  unfold isr_nibble. by repeat case_match.
Qed.

Lemma get_dw_plic_set_irq b m irq l : get_dw b (plic_set_irq m irq l) = get_dw b m.
Proof. unfold get_dw. by rewrite devs_plic_set_irq. Qed.

(** What [update_isr] leaves in the UART. *)
Definition updated (s : DW_apb_uart_state) : DW_apb_uart_state :=
  s <| isr := u8 ((isr s .& 0xF0) + isr_nibble s) |>
    <| last_irq_level := if isr_nibble s =? 1 then 0 else 1 |>.

Lemma updated_ok s : irq_line_ok (updated s).
Proof. done. Qed.

Lemma update_isr_spec b m :
  get_dw b (update_isr b m) = updated (get_dw b m) /\
  get_dw (negb b) (update_isr b m) = get_dw (negb b) m /\
  console (devs (update_isr b m)) = console (devs m).
Proof.
  unfold update_isr, updated. cbv zeta. set (s := get_dw b m). dev_simpl. rewrite isr_low_bit.
  replace (b2z (negb (isr_nibble s =? 1))) with (if isr_nibble s =? 1 then 0 else 1) by (by destruct (_ =? _)).
  destruct (Z.eqb_spec (last_irq_level s) (if isr_nibble s =? 1 then 0 else 1)) as [E|E].
  - rewrite get_set_dw, get_set_dw_other, <- E. split; [done|]. split; [done|by destruct b].
  - rewrite !get_dw_plic_set_irq, get_set_dw, get_set_dw_other, devs_plic_set_irq. by destruct b.
Qed.

(** Both UARTs. *)
Definition uarts_ok (m : machine) : Prop := forall b, irq_line_ok (get_dw b m).

Lemma uarts_ok_split b m :
  irq_line_ok (get_dw b m) -> irq_line_ok (get_dw (negb b) m) -> uarts_ok m.
Proof. by destruct b; intros ? ? []. Qed.

Lemma update_isr_uarts b m : irq_line_ok (get_dw (negb b) m) -> uarts_ok (update_isr b m).
Proof.
  intros H. destruct (update_isr_spec b m) as (E1 & E2 & _). apply (uarts_ok_split b); [by rewrite E1|by rewrite E2].
Qed.

Lemma uarts_ok_devs m m' : devs m' = devs m -> uarts_ok m -> uarts_ok m'.
Proof. intros E H b. specialize (H b). unfold get_dw in *. by rewrite E. Qed.

Lemma set_dw_uarts b m s :
  uarts_ok m -> last_irq_level s = last_irq_level (get_dw b m) -> isr_nibble s = isr_nibble (get_dw b m) ->
  uarts_ok (set_dw b m s).
Proof.
  intros H E1 E2. apply (uarts_ok_split b); rewrite ?get_set_dw, ?get_set_dw_other; [|apply H].
  unfold irq_line_ok. rewrite E1, E2. apply H.
Qed.

Lemma update_set_uarts b m s : uarts_ok m -> uarts_ok (update_isr b (set_dw b m s)).
Proof. intros H. apply update_isr_uarts. rewrite get_set_dw_other. apply H. Qed.

Lemma update_uarts b m : uarts_ok m -> uarts_ok (update_isr b m).
Proof. intros H. apply update_isr_uarts, H. Qed.

Lemma read_data_uarts m : uarts_ok m -> uarts_ok (read_data m).2.
Proof. intros H b. specialize (H b). unfold read_data. by destruct (con_in _), b. Qed.

Lemma poll_uarts_cleared b m :
  irq_line_ok (get_dw (negb b) m) -> has (lsr (get_dw b m)) 1 = false -> uarts_ok (dw_apb_uart_poll b m).
Proof.
  intros H E. unfold dw_apb_uart_poll, read_data. rewrite E. destruct (con_in _) as [|c l].
  - by apply update_isr_uarts.
  - apply update_isr_uarts. rewrite get_set_dw_other. by destruct b.
Qed.

Lemma poll_uarts b m : uarts_ok m -> uarts_ok (dw_apb_uart_poll b m).
Proof.
  intros H. destruct (has (lsr (get_dw b m)) 1) eqn:E; [|by apply poll_uarts_cleared].
  unfold dw_apb_uart_poll. by rewrite E.
Qed.

Lemma poll_other b m : get_dw (negb b) (dw_apb_uart_poll b m) = get_dw (negb b) m.
Proof.
  unfold dw_apb_uart_poll, read_data. destruct (has _ _); [done|].
  destruct (con_in _); destruct (update_isr_spec b m) as (_ & E & _); [done|].
  match goal with |- get_dw _ (update_isr b ?x) = _ => destruct (update_isr_spec b x) as (_ & -> & _) end.
  by destruct b.
Qed.
#[local] Hint Resolve update_set_uarts update_uarts poll_uarts : uarts.

Lemma dw_read_uarts b m off : uarts_ok m -> uarts_ok (dw_apb_uart_read b m off).2.
Proof.
  intros H. unfold dw_apb_uart_read, read_rhr, read_lsr, read_msr. cbv zeta.
  repeat case_match; cbn [snd]; auto with uarts; try (by intros b'; specialize (H b'); destruct b').
  apply update_isr_uarts. rewrite poll_other, get_set_dw_other. apply H.
Qed.

Lemma dw_write_uarts b m off v : uarts_ok m -> uarts_ok (dw_apb_uart_write b m off v).
Proof.
  intros H. unfold dw_apb_uart_write, write_thr, write_ier. cbv zeta.
  repeat case_match; auto with uarts; by apply set_dw_uarts.
Qed.

Lemma devs_clint_write m off v n : devs (clint_write m off v n) = devs m.
Proof.
  unfold clint_write, clint_set_mtime, raise_mip, lower_mip. cbv zeta.
  repeat case_match; rewrite ?devs_set_hart; done.
Qed.

Lemma devs_plic_update_mip m i :
  exists a, devs (plic_update_mip m i) = (devs m) <| aborted := a |>.
Proof.
  exists (if (i <? ncpus m)%nat then aborted (devs m) else true). unfold plic_update_mip.
  destruct (Nat.ltb_spec i (ncpus m)) as [Hi|]; [|done].
  destruct (plic_update_mip_bits m i i Hi) as [(_ & _ & _ & _ & H & _) _]. unfold plic_update_mip in H.
  rewrite (proj2 (Nat.ltb_lt _ _) Hi) in H. rewrite H. by destruct (devs m).
Qed.

Lemma plic_update_mip_uarts m i : uarts_ok m -> uarts_ok (plic_update_mip m i).
Proof.
  intros H b. specialize (H b). destruct (devs_plic_update_mip m i) as [a E]. unfold get_dw in *. rewrite E.
  by destruct b.
Qed.

Lemma plic_uarts m off n : uarts_ok m -> uarts_ok (plic_read m off n).2.
Proof.
  intros H. unfold plic_read, plic_claim. cbv zeta. repeat case_match; cbn [snd]; auto.
  by apply plic_update_mip_uarts.
Qed.

Lemma plic_write_uarts m off v n : uarts_ok m -> uarts_ok (plic_write m off v n).
Proof.
  intros H. unfold plic_write, plic_set_priority, plic_complete. cbv zeta.
  repeat case_match; auto; try (by intros b'; specialize (H b'); destruct b').
  eapply uarts_ok_devs; [apply devs_set_hart|done].
Qed.

Lemma event_uarts m e : uarts_ok m -> uarts_ok (run_event m e).
Proof.
  intros H. destruct e as [h off n|h off v n|irq l|c]; cbn [run_event].
  - unfold platform_read, uart_read. pose proof (read_data_uarts m H) as H1.
    repeat case_match; simplify_eq/=; auto using dw_read_uarts, plic_uarts.
  - unfold platform_write, uart_write, write_data. cbv zeta.
    repeat case_match; auto using dw_write_uarts, plic_write_uarts; try (by intros b'; specialize (H b'); destruct b').
    eapply uarts_ok_devs; [apply devs_clint_write|done].
  - eapply uarts_ok_devs; [apply devs_plic_set_irq|done].
  - by intros b'; specialize (H b'); destruct b'.
Qed.

(** The interrupt line of a UART is level-triggered and never stale: after any
    sequence of accesses, interrupts and console input from reset, the level the
    UART last drove on its PLIC source is 1 exactly if an enabled receive, line
    status, transmit or modem condition holds. *)
Lemma uart_irq_level m evs b :
  devs m = zero_platform ->
  let s := get_dw b (foldl run_event m evs) in
  last_irq_level s = 1 <->
    (has (ier s) 4 = true /\ has (lsr s) 30 = true) \/ (has (ier s) 1 = true /\ has (lsr s) 1 = true) \/
    (has (ier s) 2 = true /\ has (lsr s) 32 = true) \/ (has (ier s) 8 = true /\ msr s .& 15 <> 15).
Proof.
  intros H0. assert (uarts_ok m) as H by (intros []; unfold get_dw; by rewrite H0).
  assert (uarts_ok (foldl run_event m evs)) as H'.
  { clear H0. revert m H. induction evs as [|e evs IH]; intros m H; cbn [foldl]; [done|].
    by apply IH, event_uarts. }
  cbv zeta. specialize (H' b). set (s := get_dw b _) in *. unfold irq_line_ok, isr_nibble in H'. rewrite H'.
  rewrite <- (Z.eqb_neq (msr s .& 15) 15).
  destruct (has (ier s) 4), (has (ier s) 1), (has (ier s) 2), (has (ier s) 8), (has (lsr s) 30), (has (lsr s) 1),
    (has (lsr s) 32), (msr s .& 15 =? 15); cbn [andb negb Z.eqb Pos.eqb]; clear; intuition congruence.
Qed.

(** *** The data path

    What the receiver has yet to deliver: the byte it holds, then the console's
    input. *)

Definition rx_stream (b : bool) (m : machine) : list Z :=
  (if has (lsr (get_dw b m)) 1 then [rhr (get_dw b m)] else []) ++ con_in (console (devs m)).

(** How a polling driver receives: the status register, then, if it says so, the
    holding register. *)
Definition recv (b : bool) (m : machine) : option Z * machine :=
  let '(l, m) := dw_apb_uart_read b m 20 in
  if has l 1 then let '(c, m) := dw_apb_uart_read b m 0 in (Some c, m) else (None, m).

(** What the data path depends on. *)
Definition rx_view (b : bool) (m : machine) :=
  (has (lsr (get_dw b m)) 1, rhr (get_dw b m), lcr (get_dw b m), console (devs m)).

Lemma rx_view_update b m : rx_view b (update_isr b m) = rx_view b m.
Proof. destruct (update_isr_spec b m) as (E & _ & Ec). unfold rx_view. by rewrite E, Ec. Qed.

Lemma console_set_dw b m s : console (devs (set_dw b m s)) = console (devs m).
Proof. by destruct b. Qed.

Lemma rx_view_set b m s :
  rx_view b (set_dw b m s) = (has (lsr s) 1, rhr s, lcr s, console (devs m)).
Proof. unfold rx_view. by rewrite get_set_dw, console_set_dw. Qed.

(** The view after a poll: an empty holding register takes the next input byte. *)
Lemma poll_view b m :
  rx_view b (dw_apb_uart_poll b m) =
    if has (lsr (get_dw b m)) 1 then rx_view b m
    else match con_in (console (devs m)) with
         | [] => rx_view b m
         | c :: l => (true, c, lcr (get_dw b m), (console (devs m)) <| con_in := l |>)
         end.
Proof.
  unfold dw_apb_uart_poll, read_data. destruct (has (lsr (get_dw b m)) 1); [done|].
  destruct (con_in _) as [|c l] eqn:E; [apply rx_view_update|].
  rewrite rx_view_update, rx_view_set. dev_simpl. rewrite !has_1, Z.lor_spec, orb_true_r. by destruct b.
Qed.

Lemma rx_stream_view b m m' : rx_view b m' = rx_view b m -> rx_stream b m' = rx_stream b m.
Proof. unfold rx_view, rx_stream. intros E. by simplify_eq; rewrite ?H, ?H0, ?H2. Qed.

Lemma lsr_read_bit v : has ((v .| 0x60) .&~ 0x9e) 1 = has v 1.
Proof. rewrite !has_1, Z.ldiff_spec, Z.lor_spec. by rewrite orb_false_r, andb_true_r. Qed.

Lemma read_lsr_view b m :
  has (read_lsr b m).1 1 = has (lsr (get_dw b (read_lsr b m).2)) 1 /\
  rx_view b (read_lsr b m).2 = rx_view b (dw_apb_uart_poll b m).
Proof.
  unfold read_lsr. cbv zeta. cbn [fst snd]. split; [done|].
  rewrite rx_view_update, !poll_view, rx_view_set, get_set_dw, console_set_dw. dev_simpl.
  by rewrite lsr_read_bit.
Qed.

Lemma read_rhr_view b m :
  has (lcr (get_dw b m)) 128 = false ->
  (read_rhr b m).1 = rhr (get_dw b m) /\
  rx_view b (read_rhr b m).2 = (false, rhr (get_dw b m), lcr (get_dw b m), console (devs m)).
Proof.
  intros E. unfold read_rhr, dlab. change (1 << 7) with 128. rewrite E. cbn [fst snd]. split; [done|].
  rewrite rx_view_update, rx_view_set. dev_simpl.
  by rewrite has_1, !Z.ldiff_spec, andb_false_r.
Qed.

Lemma recv_ready b m c lc con :
  rx_view b m = (true, c, lc, con) -> has lc 128 = false ->
  let '(r, m') := dw_apb_uart_read b m 0 in
  r = c /\ rx_stream b m' = con_in con /\ con_out (console (devs m')) = con_out con /\
  lcr (get_dw b m') = lc.
Proof.
  intros Hv E. injection Hv as H1 H2 H3 H4. change (dw_apb_uart_read b m 0) with (read_rhr b m).
  destruct (read_rhr_view b m) as [Hr Hv]; [by rewrite H3|]. destruct (read_rhr b m) as [r m'].
  cbn [fst snd] in Hr, Hv. injection Hv as K1 K2 K3 K4.
  unfold rx_stream. by rewrite K1, K4, H4, Hr, H2, K3.
Qed.

(** The UART is a queue: with the divisor latch closed, receiving by polling
    takes the next byte of the receive stream, or reports that there is none, and
    leaves the rest of it; transmitting appends the byte to the console output and
    loses no received byte. *)
Lemma uart_stream b m c :
  has (lcr (get_dw b m)) 128 = false ->
  (let '(r, m') := recv b m in
   r = head (rx_stream b m) /\ rx_stream b m' = tail (rx_stream b m) /\
   con_out (console (devs m')) = con_out (console (devs m)) /\ lcr (get_dw b m') = lcr (get_dw b m)) /\
  (let m' := dw_apb_uart_write b m 0 c in
   con_out (console (devs m')) = con_out (console (devs m)) ++ [c .& 255] /\
   rx_stream b m' = rx_stream b m /\ lcr (get_dw b m') = lcr (get_dw b m)).
Proof.
  intros E. split.
  - unfold recv. change (dw_apb_uart_read b m 20) with (read_lsr b m).
    destruct (read_lsr_view b m) as [Hl Hv]. destruct (read_lsr b m) as [l m1]. cbn [fst snd] in Hl, Hv.
    rewrite poll_view in Hv. rewrite Hl. unfold rx_stream at 1 3.
    destruct (has (lsr (get_dw b m)) 1) eqn:Eb; [|destruct (con_in (console (devs m))) as [|c0 l0] eqn:Ec].
    + unfold rx_view at 2 in Hv. rewrite Eb in Hv.
      assert (has (lsr (get_dw b m1)) 1 = true) as -> by (by injection Hv).
      pose proof (recv_ready _ _ _ _ _ Hv E) as Hr. destruct (dw_apb_uart_read b m1 0) as [r m2].
      destruct Hr as (-> & Hr). done.
    + unfold rx_view in Hv. injection Hv as H1 H2 H3 H4. rewrite H1, Eb. unfold rx_stream.
      by rewrite H1, Eb, H4, Ec, H3.
    + assert (has (lsr (get_dw b m1)) 1 = true) as -> by (by injection Hv).
      pose proof (recv_ready _ _ _ _ _ Hv E) as Hr. destruct (dw_apb_uart_read b m1 0) as [r m2].
      destruct Hr as (-> & Hr). done.
  - change (dw_apb_uart_write b m 0 c) with (write_thr b m (c .& 255)). set (v := c .& 255).
    unfold write_thr, dlab. change (1 << 7) with 128. rewrite E. cbv zeta.
    pose proof (poll_view b (write_data m v)) as Hv. set (m' := dw_apb_uart_poll _ _) in *.
    assert (get_dw b (write_data m v) = get_dw b m) as Eg by (by destruct b). unfold rx_view in Hv. rewrite Eg in Hv.
    unfold rx_stream. destruct (has (lsr (get_dw b m)) 1) eqn:Eb.
    + injection Hv as -> -> -> ->. done.
    + change (con_in (console (devs (write_data m v)))) with (con_in (console (devs m))) in Hv.
      destruct (con_in (console (devs m))) eqn:Ec; injection Hv as H1 H2 H3 H4;
        rewrite H1, ?H2, H3, H4; [|done]. split; [done|]. split; [exact Ec|done].
Qed.

(** ** Defects *)

(** The claim register of context 1 (the second context of hart 0) is taken for
    hart 1: on a machine with one hart, reading it while an interrupt is pending
    dereferences [cpu_state[1]], which is [NULL]. *)
Lemma plic_second_context_crashes m :
  ncpus m = 1%nat -> nz (plic_mask m) = true ->
  aborted (devs (plic_read m (PLIC_CONTEXT_BASE + PLIC_CONTEXT_STRIDE + 4) 2).2) = true.
Proof.
  intros Hn Hm. rewrite plic_read_claim by (by split).
  change (Z.to_nat _) with 1%nat. unfold plic_claim. rewrite Hm. cbn [snd]. unfold plic_update_mip.
  change (ncpus (upd _ _ _)) with (ncpus m). by rewrite Hn.
Qed.

(** *** Witnesses *)

Definition demo_platform : machine :=
  mkMachine platform reset_cpu 0%nat [reset_cpu] demo_map ∅ 0 no_hooks (-1) false (mkExt true true true true)
    false false false 3 0 0 0 zero_platform.

Definition demo_pending : machine := demo_platform <| plic_pending_irq := 0x10 |>.

Lemma plic_second_context_crashes_witness :
  aborted (devs (plic_read demo_pending (PLIC_CONTEXT_BASE + PLIC_CONTEXT_STRIDE + 4) 2).2) = true.
Proof. apply (plic_second_context_crashes demo_pending); vm_compute; reflexivity. Defined.

Lemma plic_set_irq_lines_witness :
  Z.testbit (mip_of (plic_set_irq demo_platform 3 1) 0) 11 = requested (plic_set_irq demo_platform 3 1) 0 1.
Proof.
  destruct (plic_set_irq_lines demo_platform 3 1 0) as (_ & _ & H & _); [vm_compute; lia|lia|exact H].
Defined.

Lemma plic_claim_exclusive_witness :
  (plic_read demo_pending 0x200004 2).1 = 4 /\
  (plic_read (foldl run_event (plic_read demo_pending 0x200004 2).2 [Ev_line 4 1; Ev_read H_PLIC 0x200004 2])
     0x200004 2).1 <> 4.
Proof.
  split; [vm_compute; reflexivity|].
  apply (plic_claim_exclusive demo_pending 0x200004 0x200004 4 [Ev_line 4 1; Ev_read H_PLIC 0x200004 2]).
  - vm_compute. split; congruence.
  - split; reflexivity.
  - split; reflexivity.
  - vm_compute. reflexivity.
  - discriminate.
  - repeat constructor; intros [].
Defined.

Definition demo_clint : PhysMemoryRange :=
  mkRange 0x02000000 0xc0000 0xc0000 false 0 0 false [] 0%nat H_CLINT (DEVIO_SIZE32 .| DEVIO_SIZE16 .| DEVIO_SIZE8).


Lemma uart_irq_level_witness :
  last_irq_level (get_dw false (foldl run_event demo_platform [Ev_write H_DW0 4 1 2; Ev_input 65; Ev_read H_DW0 20 2])) = 1.
Proof.
  apply (uart_irq_level demo_platform [Ev_write H_DW0 4 1 2; Ev_input 65; Ev_read H_DW0 20 2] false).
  - reflexivity.
  - right. left. split; vm_compute; reflexivity.
Defined.

Lemma uart_stream_witness :
  (recv false (run_event demo_platform (Ev_input 65))).1 = Some 65.
Proof.
  pose proof (uart_stream false (run_event demo_platform (Ev_input 65)) 0 eq_refl) as [H _].
  destruct (recv false (run_event demo_platform (Ev_input 65))) as [r m']. destruct H as [H _].
  rewrite H. reflexivity.
Defined.
