(* ===== verification/Main.v ===== *)
(** * The simulator ([src/dromajo.cpp], [src/dromajo_main.cpp])

    [virt_machine_run] gives a hart a slice of cycles, [iterate_core] accounts for
    it against [maxinsns], [round] is the [for] loop over the harts and
    [main_loop] the [do]/[while] loop of [main].  STF tracing is off
    ([stf_has_exit_pending] stays false), and what is printed is left out. *)

From S2P Require Import Prelude Iomem Cpu Pmp Csr Trap Machine Mmu Alu Insn Fp Vector Interp SafeInsn Safety Platform Devices.

Definition MAX_SLEEP_TIME : Z := 10.

(** The simulator: the machine and the budget of [VirtMachine]. *)
Record sim := mkSim { sim_machine : machine; maxinsns : Z; trace : Z }.

(** [ms_delay1] is an [int64_t]: the unsigned difference is read as signed. *)
Definition virt_machine_get_sleep_duration (m : machine) (i : nat) (ms_delay : Z) : Z * machine :=
  let s := get_hart m i in
  let '(ms_delay, m) :=
    if negb (has (riscv_cpu_get_mip s) MIP_MTIP) && (0 <? rtc_get_time m) then
      let ms_delay1 := i64 (timecmp s - rtc_get_time m) in
      if ms_delay1 <=? 0 then (0, raise_mip m i MIP_MTIP)
      else
        let ms_delay1 := Z.quot ms_delay1 1000 in
        (if ms_delay1 <? ms_delay then ms_delay1 else ms_delay, m)
    else (ms_delay, m) in
  (if riscv_cpu_get_power_down (get_hart m i) then ms_delay else 0, m).

Section Simulator.

(** Whether to keep going; [None]: undefined behaviour or an abort. *)
Definition virt_machine_run (i : nat) (n_cycles budget : Z) (m : machine) : option (bool * machine) :=
  let m := (virt_machine_get_sleep_duration m i MAX_SLEEP_TIME).2 in
  match riscv_cpu_interp64 n_cycles (focus m i) with
  | (inl _, _) => None
  | (inr _, m) =>
      if aborted (devs m) then None
      else
        let alive m := negb (terminate_simulation (cpu m)) && (0 <? budget) in
        if nz (htif_tohost_addr m) then
          match riscv_phys_read 2 m (htif_tohost_addr m) with
          | (Some tohost, m) =>
              if has tohost 1 then
                Some (false, if tohost =? 1 then m
                             else m <| cpu ::= fun s => s <| benchmark_exit_code := i32 tohost |> |>)
              else Some (alive m, m)
          | (None, m) => Some (alive m, m)
          end
        else Some (alive m, m)
  end.

(** [maxinsns] is unsigned: [maxinsns <= 0] holds at 0 only. *)
Definition iterate_core (i : nat) (n_cycles : Z) (s : sim) : option (bool * sim) :=
  let budget := u64 (maxinsns s - n_cycles) in
  if budget <=? 0 then Some (false, mkSim (sim_machine s) budget (trace s))
  else
    let m := focus (sim_machine s) i in
    let m := (riscv_read_insn (pc (cpu m)) m).2 in
    let n := if stf_tracing_enabled m then 1 else n_cycles in
    let '(n, trace) := if trace s <? n then (1, trace s) else (n, trace s - n) in
    match virt_machine_run i n budget m with
    | None => None
    | Some (keep_going, m) => Some (keep_going, mkSim m budget trace)
    end.

(** The [for] loop from hart [i]; [k] bounds the iterations. *)
Fixpoint round (k i : nat) (n_cycles : Z) (keep_going : bool) (s : sim) : option (bool * sim) :=
  match k with
  | O => Some (keep_going, s)
  | S k' =>
      if (i <? ncpus (sim_machine s))%nat then
        match iterate_core i n_cycles s with
        | None => None
        | Some (b, s) => round k' (S i) n_cycles (keep_going || b) s
        end
      else Some (keep_going, s)
  end.

Inductive outcome := Finished (s : sim) | Undefined | Out_of_fuel (s : sim).

(** [virt_machine_init] refuses more than [MAX_CPUS] harts. *)
Fixpoint main_loop (fuel : nat) (n_cycles : Z) (s : sim) : outcome :=
  match fuel with
  | O => Out_of_fuel s
  | S fuel' =>
      match round (Z.to_nat MAX_CPUS) 0 n_cycles false s with
      | None => Undefined
      | Some (true, s) => main_loop fuel' n_cycles s
      | Some (false, s) => Finished s
      end
  end.
End Simulator.

(** ** The simulation keeps every hart well formed *)

(** All harts of a machine with [n] harts, whichever is running. *)
Definition all_harts_ok (n : nat) (m : machine) : Prop := exists i, hart_ok (G := mkGeometry n i) m.

Lemma hart_idle_at {G : Geometry} {D} (m : RISCVMachine D) :
  hart_ok m <-> idle_at (pending_exception (cpu m)) m.
Proof. split; intros []; by split. Qed.

Lemma idle_at_hart {G : Geometry} {D} p (m : RISCVMachine D) : idle_at p m -> hart_ok m.
Proof. intros []. by split. Qed.

Lemma focus_hart n m i :
  all_harts_ok n m -> (i < n)%nat -> hart_ok (G := mkGeometry n i) (focus m i).
Proof.
  intros [j [H1 (H2 & H3 & H4 & H5)]] Hi. cbn [num_harts this_hart] in *.
  unfold focus. cbv zeta. split; [|split; [|split; [|split]]]; mach_simpl; [|done| |by rewrite length_insert|done].
  - unfold get_hart. destruct (Nat.eqb_spec i (hartid m)); [done|]. apply Forall_nth; [done|]. lia.
  - destruct (decide (hartid m < length (harts m))%nat).
    + by apply Forall_insert.
    + by rewrite list_insert_ge by lia.
Qed.

Lemma sleep_hart {G : Geometry} m i d : hart_ok m -> hart_ok (virt_machine_get_sleep_duration m i d).2.
Proof.
  intros H. unfold virt_machine_get_sleep_duration. cbv zeta. destruct (_ && _); [|done].
  destruct (_ <=? _); cbn [snd]; [|done]. apply hart_idle_at in H. eapply idle_at_hart.
  by apply raise_mip_idle; [vm_decide|].
Qed.

Lemma read_insn_hart {G : Geometry} {D} {dv : Devices D} {sd : SafeDevices D} addr (m : RISCVMachine D) :
  fits 64 addr -> hart_ok m -> hart_ok (riscv_read_insn addr m).2.
Proof.
  intros Ha H. unfold riscv_read_insn. cbv zeta.
  pose proof (ok_tval _ (proj1 H)) as Ht. apply hart_idle_at in H.
  pose proof (read_insn_slow_safe 32 addr Ha m H) as Hs. unfold wp in Hs.
  destruct (target_read_insn_slow 32 addr m) as [[e|v] m1]; cbn [snd].
  - destruct Hs as [H1 H2 _]. split; mach_simpl; [|done]. cpu_ok_split H1.
  - destruct Hs as [_ [H1 H2 _]]. split; mach_simpl; [|done]. cpu_ok_split H1.
Qed.

Section SimOk.
Abbreviation ok := (safe (D := platform) (E := exit) idle (fun _ => stopped 15)).

Lemma run_hart_ok h i n b m r :
  all_harts_ok h m -> (i < h)%nat -> virt_machine_run i n b m = Some r ->
  all_harts_ok h r.2.
Proof.
  intros [j H] Hi. unfold virt_machine_run. cbv zeta.
  apply (sleep_hart m i MAX_SLEEP_TIME) in H.
  assert (all_harts_ok h (virt_machine_get_sleep_duration m i MAX_SLEEP_TIME).2) as H1 by (by exists j).
  apply (focus_hart _ _ i) in H1; [|done]. clear H. revert H1.
  generalize (focus (virt_machine_get_sleep_duration m i MAX_SLEEP_TIME).2 i). intros m1 H1.
  apply (interp_keeps_hart n) in H1.
  destruct (riscv_cpu_interp64 _ _) as [[e|x] m2]; [done|]. cbn [snd] in H1.
  destruct (aborted _); [done|]. destruct (nz _); [|by intros [= <-]; exists i].
  apply hart_idle_at in H1. apply (phys_read_idle 2 m2 (htif_tohost_addr m2)), idle_at_hart in H1.
  destruct (riscv_phys_read _ _ _) as [[v|] m3]; cbn [snd] in H1; [|by intros [= <-]; exists i].
  destruct (has v 1); intros [= <-]; exists i; cbn [snd]; [|done]. destruct (v =? 1); [done|].
  apply hart_upd; [|done]. intros s Hs. cpu_ok_split Hs.
Qed.

Lemma iterate_core_ok h i n s r :
  all_harts_ok h (sim_machine s) -> (i < h)%nat ->
  iterate_core i n s = Some r -> all_harts_ok h (sim_machine r.2).
Proof.
  intros H Hi. unfold iterate_core. cbv zeta. destruct (_ <=? 0); [by intros [= <-]|].
  apply (focus_hart _ _ i) in H; [|done]. revert H. generalize (focus (sim_machine s) i). intros m1 H.
  apply (read_insn_hart (pc (cpu m1))) in H; [|apply H]. revert H.
  generalize (riscv_read_insn (pc (cpu m1)) m1).2. intros m2 H.
  match goal with |- context [let '(_, _) := ?x in _] => destruct x as [k t] end.
  destruct (virt_machine_run _ _ _ _) as [[b m3]|] eqn:E; [|done]. intros [= <-].
  apply (run_hart_ok h) in E; [done|by exists i|done].
Qed.

Lemma all_harts_ncpus h m : all_harts_ok h m -> ncpus m = h.
Proof. by intros [j [_ (_ & _ & H & _)]]. Qed.

Lemma round_ok h k i n b s r :
  all_harts_ok h (sim_machine s) -> round k i n b s = Some r ->
  all_harts_ok h (sim_machine r.2).
Proof.
  revert i b s. induction k as [|k IH]; intros i b s H; cbn [round]; [by intros [= <-]|].
  rewrite (all_harts_ncpus _ _ H). destruct (Nat.ltb_spec i h); [|by intros [= <-]].
  destruct (iterate_core _ _ _) as [[b' s']|] eqn:E; [|done].
  apply (iterate_core_ok h) in E; [|done..]. by apply IH.
Qed.


(** ** The instruction budget *)

Lemma iterate_core_budget i n s b s' :
  iterate_core i n s = Some (b, s') ->
  maxinsns s' = u64 (maxinsns s - n) /\ (maxinsns s' = 0 -> b = false).
Proof.
  unfold iterate_core. cbv zeta. pose proof (trunc_fits 64 (maxinsns s - n) ltac:(lia)) as Hf.
  destruct (Z.leb_spec (u64 (maxinsns s - n)) 0); [by intros [= <- <-]|].
  match goal with |- context [let '(_, _) := ?x in _] => destruct x as [k t] end.
  destruct (virt_machine_run _ _ _ _) as [[c m]|]; [|done]. intros [= <- <-]. cbn [maxinsns]. split; [done|lia].
Qed.

(** With one hart, a round is one call of [iterate_core]. *)
Lemma round_single n s :
  all_harts_ok 1 (sim_machine s) ->
  round (Z.to_nat MAX_CPUS) 0 n false s = iterate_core 0 n s.
Proof.
  intros H. change (Z.to_nat MAX_CPUS) with 8%nat. cbn [round]. rewrite (all_harts_ncpus _ _ H). cbn [Nat.ltb Nat.leb].
  destruct (iterate_core _ _ _) as [[b s']|] eqn:E; [|done].
  apply (iterate_core_ok 1) in E; [|done|lia]. cbn [snd] in E. by rewrite (all_harts_ncpus _ _ E).
Qed.

(** With one hart and a budget that is a multiple of the slice, the main loop
    ends: after at most [k] slices of [n] cycles, whatever the program does. *)
Lemma budget_terminates k n s :
  all_harts_ok 1 (sim_machine s) -> 0 < n -> maxinsns s = Z.of_nat k * n -> 0 < maxinsns s < 2 ^ 64 ->
  forall s', main_loop k n s <> Out_of_fuel s'.
Proof.
  revert s. induction k as [|k IH]; intros s H Hn Hm Hr s'; [lia|]. cbn [main_loop].
  rewrite round_single by done. destruct (iterate_core _ _ _) as [[[|] s1]|] eqn:E; [|done..].
  pose proof (iterate_core_ok 1 0 n s _ H ltac:(lia) E) as H1. apply iterate_core_budget in E as [Hb Hz].
  assert (maxinsns s - n = Z.of_nat k * n) as Hs by (rewrite Hm; lia).
  assert (maxinsns s1 = Z.of_nat k * n) as Hm1 by (rewrite Hb, Hs; apply trunc_small; unfold fits; nia).
  apply IH; [done..|]. destruct (Z.eq_dec (maxinsns s1) 0) as [E0|]; [by specialize (Hz E0)|]. nia.
Qed.

(** Any other budget is lost: the subtraction is unsigned, so that a hart that
    gets a slice when less than a slice is left, be it 0 because another hart used
    up the budget, leaves almost 2^64 of it. *)
Lemma budget_wraps i n s :
  0 <= maxinsns s < n -> n < 2 ^ 63 ->
  match iterate_core i n s with
  | Some (_, s') => maxinsns s' = 2 ^ 64 - (n - maxinsns s) /\ 2 ^ 63 < maxinsns s'
  | None => True
  end.
Proof.
  intros Hm Hn. destruct (iterate_core _ _ _) as [[b s']|] eqn:E; [|done].
  apply iterate_core_budget in E as [-> _].
  assert (u64 (maxinsns s - n) = 2 ^ 64 - (n - maxinsns s)) as ->; [|lia].
  unfold trunc. symmetry. apply Z.mod_unique with (-1); lia.
Qed.
End SimOk.

(** *** Witnesses *)

Lemma demo_all_ok : all_harts_ok 1 demo_platform.
Proof.
  exists 0%nat. destruct reset_hart_ok as [H _]. split; [exact H|]. split; [apply no_hooks_ok|].
  split; [by constructor|done].
Qed.

Definition demo_sim (budget : Z) : sim := mkSim demo_platform budget 1000000.


Lemma budget_terminates_witness :
  main_loop 3 10 (demo_sim 30) <> Out_of_fuel (demo_sim 0).
Proof.
  apply (budget_terminates 3 10 (demo_sim 30) demo_all_ok); [lia|reflexivity|cbn [maxinsns demo_sim]; lia].
Defined.

Lemma budget_wraps_witness :
  match iterate_core 0 10 (demo_sim 4) with
  | Some (_, s') => maxinsns s' = 2 ^ 64 - 6 /\ 2 ^ 63 < maxinsns s'
  | None => True
  end.
Proof. apply (budget_wraps 0 10 (demo_sim 4)); cbn [maxinsns demo_sim]; lia. Defined.
