(* ===== verification/Bootrom.v ===== *)
(** * The boot ROM of a snapshot ([src/riscv_cpu.cpp], lines 2429-2745)

    [riscv_cpu_serialize] writes a ROM whose code, run after a reset, restores the
    hart: [create_boot_rom].  The ROM holds code from its start and data from
    0xB00 on; a [create_*_recovery] appends the instructions that load a value from
    the data area and put it in a register or a CSR.  [create_boot_rom] is a
    sequence of such calls, [recovery_list], folded over the two positions.

    LIVECACHE builds are left out, and so is writing the file. *)

From Stdlib Require Import Btauto.
From S2P Require Import Prelude Iomem Cpu Pmp Csr Trap Machine Mmu Alu Insn Fp Vector Interp SafeInsn Safety Decode Encode Compressed.

Definition ROM_SIZE : Z := 0x00002000.
Definition ROM_BASE_ADDR : Z := 0x00010000.
Definition BOOT_BASE_ADDR : Z := 0x00010000.

(** ** Encoders *)

Definition create_csrrw (rs csrn : Z) : Z := 0x1073 .| ((csrn .& 0xFFF) << 20) .| ((rs .& 0x1F) << 15).

Definition create_csrrs (rd csrn : Z) : Z := 0x2073 .| ((csrn .& 0xFFF) << 20) .| ((rd .& 0x1F) << 7).

Definition create_auipc (rd addr : Z) : Z :=
  let addr := if has addr 0x800 then u32 (addr + 0x800) else addr in
  0x17 .| ((rd .& 0x1F) << 7) .| ((addr >> 12) << 12).

Definition create_addi (rd addr : Z) : Z :=
  let pos := addr .& 0xFFF in
  0x13 .| ((rd .& 0x1F) << 7) .| ((rd .& 0x1F) << 15) .| ((pos .& 0xFFF) << 20).

Definition create_seti (rd data : Z) : Z := 0x13 .| ((rd .& 0x1F) << 7) .| ((data .& 0xFFF) << 20).

Definition create_ld (rd rs1 : Z) : Z := 3 .| ((rd .& 0x1F) << 7) .| (3 << 12) .| ((rs1 .& 0x1F) << 15).

Definition create_sd (rs1 rs2 : Z) : Z := 0x23 .| ((rs2 .& 0x1F) << 20) .| (3 << 12) .| ((rs1 .& 0x1F) << 15).

Definition create_fld (rd rs1 : Z) : Z := 7 .| ((rd .& 0x1F) << 7) .| (0x3 << 12) .| ((rs1 .& 0x1F) << 15).

(** ** Emission

    [rom], [code_pos] and [data_pos]; the array has [ROM_SIZE / 4] words. *)

Record rom_state := mkRom { rom : list Z; code_pos : Z; data_pos : Z }.

(** [rom[code_pos++] = w]. *)
Definition code (st : rom_state) (w : Z) : rom_state :=
  mkRom (aset (rom st) (code_pos st) w) (code_pos st + 1) (data_pos st).

(** [rom[data_pos++] = w]. *)
Definition data (st : rom_state) (w : Z) : rom_state :=
  mkRom (aset (rom st) (data_pos st) w) (code_pos st) (data_pos st + 1).

Definition data64 (st : rom_state) (v : Z) : rom_state := data (data st (v .& 0xFFFFFFFF)) (v >> 32).

(** [sizeof(uint32_t) * (data_pos - code_pos)]. *)
Definition data_off (st : rom_state) : Z := u32 (4 * (data_pos st - code_pos st)).

Definition create_csr12_recovery (st : rom_state) (csrn val : Z) : rom_state :=
  code (code st (create_seti 1 (u16 val .& 0xFFF))) (create_csrrw 1 csrn).

Definition create_csr64_recovery (st : rom_state) (csrn val : Z) : rom_state :=
  let off := data_off st in
  let st := code (code (code st (create_auipc 1 off)) (create_addi 1 off)) (create_ld 1 1) in
  data64 (code st (create_csrrw 1 csrn)) val.

Definition create_reg_recovery (st : rom_state) (rn val : Z) : rom_state :=
  let off := data_off st in
  data64 (code (code (code st (create_auipc rn off)) (create_addi rn off)) (create_ld rn rn)) val.

Definition create_io64_recovery (st : rom_state) (addr val : Z) : rom_state :=
  let off := data_off st in
  let st := data64 (code (code (code st (create_auipc 1 off)) (create_addi 1 off)) (create_ld 1 1)) addr in
  let off2 := data_off st in
  let st := code (code (code st (create_auipc 2 off2)) (create_addi 2 off2)) (create_ld 2 2) in
  data64 (code st (create_sd 1 2)) val.

(** The loop body for an FP register: the data words are given separately. *)
Definition create_fp_recovery (st : rom_state) (i lo hi : Z) : rom_state :=
  let off := data_off st in
  data (data (code (code (code st (create_auipc 1 off)) (create_addi 1 off)) (create_fld i 1)) lo) hi.

Definition create_hang_nonzero_hart (st : rom_state) : rom_state :=
  foldl code st [0xf1402573; 0x00050663; 0x10500073; 0xffdff06f].

(** ** The calls of [create_boot_rom] *)

Inductive recovery :=
| Hang
| Csr12 (csrn val : Z)
| Csr64 (csrn val : Z)
| Reg (rn val : Z)
| Io64 (addr val : Z)
| Fpr (i lo hi : Z)
| Raw (w : Z).

Definition emit (st : rom_state) (r : recovery) : rom_state :=
  match r with
  | Hang => create_hang_nonzero_hart st
  | Csr12 n v => create_csr12_recovery st n v
  | Csr64 n v => create_csr64_recovery st n v
  | Reg rn v => create_reg_recovery st rn v
  | Io64 a v => create_io64_recovery st a v
  | Fpr i lo hi => create_fp_recovery st i lo hi
  | Raw w => code st w
  end.

(** FP flags and registers; the high word is taken from the integer register. *)
Definition fp_recovery (s : RISCVCPUState) : list recovery :=
  [Csr12 0x001 (fflags s); Csr12 0x002 (frm s); Csr12 0x003 (fflags s .| (frm s << 5))]
  ++ ((fun i => Fpr i (u32 (aget 0 (fp_reg s) i)) (aget 0 (reg s) i >> 32)) <$> seqZ 0 32).

Definition recovery_list (s : RISCVCPUState) (ncpus : nat) (clint_base_addr : Z) : list recovery :=
  (if Nat.eqb ncpus 1 then [Hang] else [])
  ++ [Csr64 0x7b1 (pc s); Csr12 0x7b0 (0x600 .| priv s)]
  ++ [Csr64 0x300 (get_mstatus s (2 ^ 64 - 1)); Csr64 0x301 (misa s .| (2 << 62))]
  ++ (if nz (fs s) then fp_recovery s else [])
  ++ mjoin ((fun i => [Csr12 (0xb00 + i) 0; Csr64 (0x320 + i) (aget 0 (mhpmevent s) i)]) <$> seqZ 3 29)
  ++ [Csr64 0x7a0 (tselect s); Csr64 0x302 (medeleg s); Csr64 0x303 (mideleg s); Csr64 0x304 (mie s);
      Csr64 0x305 (mtvec s); Csr64 0x105 (stvec s); Csr12 0x320 (mcountinhibit s);
      Csr12 0x306 (mcounteren s); Csr12 0x106 (scounteren s)]
  ++ ((fun i => Csr64 (CSR_PMPADDR i) (aget 0 (csr_pmpaddr s) i)) <$> seqZ 0 16)
  ++ ((fun i => Csr64 (CSR_PMPCFG i) (aget 0 (csr_pmpcfg s) i)) <$> [0; 2])
  ++ [Csr64 0x340 (mscratch s); Csr64 0x341 (mepc s); Csr64 0x342 (mcause s); Csr64 0x343 (mtval s);
      Csr64 0x140 (sscratch s); Csr64 0x141 (sepc s); Csr64 0x142 (scause s); Csr64 0x143 (stval s);
      Csr64 0x344 (mip s)]
  ++ ((fun i => Reg i (aget 0 (reg s) i)) <$> seqZ 3 29)
  ++ [Io64 (u64 (clint_base_addr + 0x4000)) (timecmp s); Csr64 0xb02 (minstret s); Csr64 0xb00 (mcycle s);
      Io64 (u64 (clint_base_addr + 0xbff8)) (mcycle s / 2000)]
  ++ ((fun i => Reg i (aget 0 (reg s) i)) <$> [1; 2])
  ++ [Raw (create_csrrw 1 0x7b2); Csr64 0x180 (satp s); Raw (create_csrrs 1 0x7b2); Raw 0x7b200073].

Definition rom_start : rom_state :=
  mkRom (replicate (Z.to_nat (ROM_SIZE / 4)) 0) ((BOOT_BASE_ADDR - ROM_BASE_ADDR) / 4) (0xB00 / 4).

(** [None]: [exit], for H mode or for a ROM that is too small. *)
Definition create_boot_rom (s : RISCVCPUState) (ncpus : nat) (clint_base_addr : Z) : option (list Z) :=
  if priv s =? 2 then None
  else
    let st := foldl emit rom_start (recovery_list s ncpus clint_base_addr) in
    if (ROM_SIZE / 4 <=? data_pos st) || (data_pos rom_start <=? code_pos st) then None
    else Some (rom st).

(** ** The encoders are those of the base formats *)

Lemma land_5 v : fits 5 v -> v .& 0x1F = v.
Proof. intros Hv. change 0x1F with (Z.ones 5). rewrite Z.land_ones by lia. by apply Z.mod_small. Qed.

(** Equality of disjunctions up to order. *)
Ltac lor_ac := apply Z.bits_inj'; intros ? _; rewrite ?Z.lor_spec, ?Z.bits_0; btauto.

Lemma create_csrrw_enc rs n : fits 5 rs -> create_csrrw rs n = enc_i 0x73 0 1 rs n.
Proof.
  intros H. unfold create_csrrw, enc_i. rewrite land_5 by done.
  change 0x1073 with (0x73 .| (0 << 7) .| (1 << 12)). lor_ac.
Qed.

Lemma create_csrrs_enc rd n : fits 5 rd -> create_csrrs rd n = enc_i 0x73 rd 2 0 n.
Proof.
  intros H. unfold create_csrrs, enc_i. rewrite land_5 by done.
  change 0x2073 with (0x73 .| (2 << 12) .| (0 << 15)). lor_ac.
Qed.

Lemma create_addi_enc rd v : fits 5 rd -> create_addi rd v = enc_i 0x13 rd 0 rd v.
Proof.
  intros H. unfold create_addi, enc_i. rewrite land_5 by done. cbv zeta.
  rewrite <- Z.land_assoc. change (0xFFF .& 0xFFF) with 0xfff. change (0 << 12) with 0. lor_ac.
Qed.

Lemma create_seti_enc rd v : fits 5 rd -> create_seti rd v = enc_i 0x13 rd 0 0 v.
Proof.
  intros H. unfold create_seti, enc_i. rewrite land_5 by done. change (0 << 12) with 0. change (0 << 15) with 0. lor_ac.
Qed.

Lemma create_ld_enc rd rs : fits 5 rd -> fits 5 rs -> create_ld rd rs = enc_i 0x03 rd 3 rs 0.
Proof.
  intros H1 H2. unfold create_ld, enc_i. rewrite !land_5 by done. change ((0 .& 0xfff) << 20) with 0. lor_ac.
Qed.

Lemma create_fld_enc rd rs : fits 5 rd -> fits 5 rs -> create_fld rd rs = enc_i 0x07 rd 3 rs 0.
Proof.
  intros H1 H2. unfold create_fld, enc_i. rewrite !land_5 by done. change ((0 .& 0xfff) << 20) with 0. lor_ac.
Qed.

Lemma create_sd_enc rs1 rs2 : fits 5 rs1 -> fits 5 rs2 -> create_sd rs1 rs2 = enc_s 0x23 3 rs1 rs2 0.
Proof.
  intros H1 H2. unfold create_sd, enc_s. rewrite !land_5 by done.
  change ((0 .& 0x1f) << 7) with 0. change (((0 >> 5) .& 0x7f) << 25) with 0. lor_ac.
Qed.

(** The upper part of a pc-relative offset, rounded for the signed lower part. *)
Definition hi20 (off : Z) : Z := if has off 0x800 then u32 (off + 0x800) else off.

Lemma create_auipc_enc rd off : fits 5 rd -> fits 32 off -> create_auipc rd off = enc_u 0x17 rd (hi20 off).
Proof.
  intros H1 H2. unfold create_auipc, enc_u. cbv zeta. rewrite land_5 by done. fold (hi20 off). f_equal.
  assert (fits 32 (hi20 off)) as Hh by (unfold hi20; destruct (has off 0x800); width).
  change 0xfffff000 with (Z.ones 20 << 12). apply Z.bits_inj'. intros k Hk.
  rewrite Z.land_spec, !Z.shiftl_spec by lia. destruct (Z.ltb_spec k 12).
  - rewrite !(Z.testbit_neg_r _ (k - 12)) by lia. by rewrite andb_false_r.
  - rewrite Z.shiftr_spec, Z.testbit_ones_nonneg by lia. replace (k - 12 + 12) with k by lia.
    destruct (Z.ltb_spec (k - 12) 20); [by rewrite andb_true_r|].
    apply fits_testbit in Hh as [_ ->]; [done|lia|lia].
Qed.

Lemma page_part v : fits 32 v -> v .& 0xfffff000 = v - v mod 4096.
Proof.
  intros Hv. change 4096 with (2 ^ 12). rewrite <- (Z.land_ones v 12), Z.sub_land_same_l by lia.
  apply Z.bits_inj'. intros k Hk. rewrite !Z.land_spec, Z.lnot_spec, Z.testbit_ones_nonneg by lia.
  change 0xfffff000 with (Z.ones 20 << 12). rewrite Z.shiftl_spec by lia.
  destruct (Z.ltb_spec k 12); [by rewrite (Z.testbit_neg_r _ (k - 12)) by lia|].
  rewrite Z.testbit_ones_nonneg by lia. destruct (Z.ltb_spec (k - 12) 20); [done|].
  by rewrite (fits_high 32 v k) by (first [done | apply andb_true_intro; split; apply Z.leb_le; lia]).
Qed.

(** Upper and lower part add up to the offset. *)
Lemma hi_lo_sum off : 0 <= off < 2 ^ 31 - 0x1000 -> i32 (hi20 off .& 0xfffff000) + sgn 12 off = off.
Proof.
  intros Hoff. unfold hi20, sgn at 2.
  assert (has off 0x800 = negb (trunc 12 off <? 2048)) as ->.
  { change 2048 with (2 ^ (12 - 1)). rewrite <- (testbit_top 12 (trunc 12 off)), testbit_trunc by (first [lia | apply trunc_fits; lia]).
    apply (has_bit off 11). lia. }
  unfold trunc. change (2 ^ 12) with 4096. change (2 ^ (12 - 1)) with 2048.
  assert (0 <= off mod 4096 < 4096) by (apply Z.mod_pos_bound; lia).
  pose proof (Z.div_mod off 4096 ltac:(lia)) as Hq.
  destruct (Z.ltb_spec (off mod 4096) 2048); cbn [negb].
  - rewrite page_part by (unfold fits; lia). rewrite sgn_id by lia. lia.
  - rewrite (Z.mod_small (off + 2048)) by lia. rewrite page_part by (unfold fits; lia).
    replace ((off + 2048) mod 4096) with (off mod 4096 - 2048)
      by (apply (Z.mod_unique_pos _ _ (off / 4096 + 1)); lia).
    rewrite sgn_id by lia. lia.
Qed.

(** ** The emitted code at work *)

Section Emitted.
Context {D : Type} {dv : Devices D} (icount start : Z).
Implicit Types m : RISCVMachine D.

(** Executes the words of [ws] at successive addresses. *)
Fixpoint run_words (ws : list Z) : M (D := D) exit unit :=
  match ws with
  | [] => ret tt
  | w :: ws =>
      exec_insn w icount start ;;;
      cur <- gets pc ;; set_pc (cur + 4) ;;; run_words ws
  end.

Lemma auipc_eq rd imm m :
  fits 5 rd ->
  exec_insn (enc_u 0x17 rd imm) icount start m =
    (write_rd rd (pc (cpu m) + i32 (imm .& 0xfffff000)) ;;; ret NextInsn) m.
Proof.
  intros Hd. destruct (dec_u 0x17 rd imm) as (Ho & Hrd & Hi); [by unfold fits; lia|done|].
  rewrite (exec_insn_op _ _ _ _ Ho) by done. cbn [Z.eqb Pos.eqb]. rewrite Hrd, Hi. done.
Qed.

(** Writing a register with STF recording off. *)
Definition put_reg (x v : Z) (s : RISCVCPUState) : RISCVCPUState :=
  s <| most_recently_written_reg := x |>
    <| reg_prior ::= fun p => aset p x (aget 0 (reg s) x) |>
    <| reg ::= fun r => aset r x (u64 v) |>.

Lemma write_rd_off x v m :
  stf_in_traceable_region m = false -> nz x = true ->
  write_rd x v m = (inr tt, m <| cpu ::= put_reg x v |>).
Proof. intros E Hx. unfold write_rd. rewrite Hx. unfold write_reg, bind, getm. by rewrite E. Qed.

Lemma trunc_add_trunc a b : u64 (u64 a + b) = u64 (a + b).
Proof. by rewrite trunc_add_l. Qed.

(** The hart before the [ld] of a recovery: [rn] holds the address of the data. *)
Definition addressed (rn off : Z) (s : RISCVCPUState) : RISCVCPUState :=
  let s := put_reg rn (pc s + i32 (hi20 off .& 0xfffff000)) s in
  let s := s <| pc := u64 (pc s + 4) |> in
  let s := put_reg rn (aget 0 (reg s) rn + sgn 12 off) s in
  s <| pc := u64 (pc s + 4) |>.

Lemma addressed_reg rn off s :
  fits 5 rn -> length (reg s) = 32%nat -> 0 <= off < 2 ^ 31 - 0x1000 ->
  aget 0 (reg (addressed rn off s)) rn = u64 (pc s + off).
Proof.
  intros Hr Hl Ho. unfold fits in Hr. unfold addressed, put_reg. cbv zeta. cpu_simpl.
  rewrite !aget_aset_eq by (rewrite ?length_aset, Hl; lia). rewrite trunc_add_trunc.
  by rewrite <- Z.add_assoc, hi_lo_sum.
Qed.

(** The three instructions that load a word of the data area. *)
Definition fetch_words (rn off : Z) : list Z := [create_auipc rn off; create_addi rn off; create_ld rn rn].

Lemma fetch_words_eq rn off rest m :
  stf_in_traceable_region m = false -> fits 5 rn -> nz rn = true -> length (reg (cpu m)) = 32%nat ->
  0 <= off < 2 ^ 31 - 0x1000 ->
  run_words (fetch_words rn off ++ rest) m =
    (v <- load (u64 (pc (cpu m) + off)) 3 ;; write_rd rn (i64 v) ;;;
     cur <- gets pc ;; set_pc (cur + 4) ;;; run_words rest) (m <| cpu ::= addressed rn off |>).
Proof.
  intros Hoff Hr Hn Hl Ho. cbn [fetch_words run_words app].
  rewrite create_auipc_enc, create_addi_enc, create_ld_enc by (first [done | unfold fits; lia]).
  unfold bind at 1. rewrite auipc_eq by done. unfold bind at 1. rewrite write_rd_off by done.
  unfold bind at 1 2 3, gets at 1, set_pc at 1, mods at 1, ret at 1. unfold bind at 1.
  rewrite addi_eq by done. unfold bind at 1. rewrite write_rd_off by done.
  unfold bind at 1 2 3, gets at 1, set_pc at 1, mods at 1, ret at 1. unfold bind at 1.
  rewrite ld_eq by done.
  match goal with
  | |- context [load (u64 (aget 0 (reg (cpu ?m1)) _ + _)) 3] => change m1 with (m <| cpu ::= addressed rn off |>)
  end.
  change (cpu (m <| cpu ::= addressed rn off |>)) with (addressed rn off (cpu m)).
  rewrite addressed_reg, trunc_add_trunc by done. change (sgn 12 0) with 0. rewrite Z.add_0_r.
  unfold bind at 1. unfold bind at 1. symmetry. unfold bind at 1.
  destruct (load _ _ _) as [[e|v] m']; [done|]. unfold bind. by destruct (write_rd _ _ m') as [[e|[]] ?].
Qed.

End Emitted.

(** ** What a recovery leaves in the ROM *)

(** The words of [r] from position [c] on begin with [ws]. *)
Fixpoint holds (r : list Z) (c : Z) (ws : list Z) : Prop :=
  match ws with [] => True | w :: ws => aget 0 r c = w /\ holds r (c + 1) ws end.

(** Code and data of a recovery; [off] is the distance from its code to its data. *)
Definition code_of (r : recovery) (off : Z) : list Z :=
  match r with
  | Hang => [0xf1402573; 0x00050663; 0x10500073; 0xffdff06f]
  | Csr12 n v => [create_seti 1 (u16 v .& 0xFFF); create_csrrw 1 n]
  | Csr64 n _ => fetch_words 1 off ++ [create_csrrw 1 n]
  | Reg rn _ => fetch_words rn off
  | Io64 _ _ => fetch_words 1 off ++ fetch_words 2 (u32 (off - 4)) ++ [create_sd 1 2]
  | Fpr i _ _ => [create_auipc 1 off; create_addi 1 off; create_fld i 1]
  | Raw w => [w]
  end.

Definition words64 (v : Z) : list Z := [v .& 0xFFFFFFFF; v >> 32].

Definition data_of (r : recovery) : list Z :=
  match r with
  | Csr64 _ v | Reg _ v => words64 v
  | Io64 a v => words64 a ++ words64 v
  | Fpr _ lo hi => [lo; hi]
  | _ => []
  end.

(** *** Appending words

    [writes st st' cw dw]: from [st] to [st'] the words [cw] are appended to the
    code and [dw] to the data, and nothing else changes. *)

(** The code stays below the data and both inside the array. *)
Record placed (st : rom_state) (nc nd : nat) : Prop := {
  placed_code : 0 <= code_pos st;
  placed_gap : code_pos st + Z.of_nat nc <= data_pos st;
  placed_data : data_pos st + Z.of_nat nd <= Z.of_nat (length (rom st));
}.

Record appended (st st' : rom_state) (cw dw : list Z) : Prop := {
  app_code : code_pos st' = code_pos st + Z.of_nat (length cw);
  app_data : data_pos st' = data_pos st + Z.of_nat (length dw);
  app_length : length (rom st') = length (rom st);
  app_frame i :
    0 <= i -> i < code_pos st \/ code_pos st' <= i < data_pos st \/ data_pos st' <= i ->
    aget 0 (rom st') i = aget 0 (rom st) i;
  app_code_words : holds (rom st') (code_pos st) cw;
  app_data_words : holds (rom st') (data_pos st) dw;
}.

Definition writes (st st' : rom_state) (cw dw : list Z) : Prop :=
  placed st (length cw) (length dw) -> appended st st' cw dw.

Lemma holds_ext r r' c ws :
  (forall i, c <= i < c + Z.of_nat (length ws) -> aget 0 r' i = aget 0 r i) -> holds r c ws -> holds r' c ws.
Proof.
  revert c. induction ws as [|w ws IH]; intros c Hi; [done|]. cbn [holds length] in *. intros [Hw Hws]. split.
  - rewrite Hi; [done|lia].
  - apply IH; [intros; apply Hi; lia|done].
Qed.

Lemma holds_app r c ws ws' : holds r c (ws ++ ws') <-> holds r c ws /\ holds r (c + Z.of_nat (length ws)) ws'.
Proof.
  revert c. induction ws as [|w ws IH]; intros c; cbn [holds length app].
  - by rewrite Z.add_0_r, (left_id True and).
  - rewrite IH. replace (c + 1 + Z.of_nat (length ws)) with (c + Z.of_nat (S (length ws))) by lia. tauto.
Qed.

Lemma writes_code st w : writes st (code st w) [w] [].
Proof.
  intros [? ? ?]. cbn [length] in *.
  split; cbn [code rom code_pos data_pos length holds]; rewrite ?length_aset; try done; try lia.
  - intros i ? ?. apply aget_aset_ne; lia.
  - split; [apply aget_aset_eq; lia|done].
Qed.

Lemma writes_data st w : writes st (data st w) [] [w].
Proof.
  intros [? ? ?]. cbn [length] in *.
  split; cbn [data rom code_pos data_pos length holds]; rewrite ?length_aset; try done; try lia.
  - intros i ? ?. apply aget_aset_ne; lia.
  - split; [apply aget_aset_eq; lia|done].
Qed.

Lemma writes_refl st : writes st st [] [].
Proof. intros [? ? ?]. split; cbn; try done; lia. Qed.

Lemma writes_trans st st1 st2 cw1 dw1 cw2 dw2 :
  writes st st1 cw1 dw1 -> writes st1 st2 cw2 dw2 -> writes st st2 (cw1 ++ cw2) (dw1 ++ dw2).
Proof.
  intros H1 H2 [Hc Hg Hd]. rewrite !length_app in *.
  destruct H1 as [C1 D1 L1 F1 WC1 WD1]; [split; lia|].
  destruct H2 as [C2 D2 L2 F2 WC2 WD2]; [split; lia|].
  split; rewrite ?length_app; try lia.
  - intros i Hi ?. rewrite F2, F1 by lia. done.
  - apply holds_app. rewrite <- C1. split; [|done]. apply holds_ext with (rom st1); [|done]. intros; apply F2; lia.
  - apply holds_app. rewrite <- D1. split; [|done]. apply holds_ext with (rom st1); [|done]. intros; apply F2; lia.
Qed.

Lemma writes_eq st st' cw cw' dw dw' :
  writes st st' cw dw -> cw = cw' -> dw = dw' -> writes st st' cw' dw'.
Proof. by intros ? <- <-. Qed.

Lemma writes_code_r st st' w cw dw : writes st st' cw dw -> writes st (code st' w) (cw ++ [w]) dw.
Proof. intros. rewrite <- (app_nil_r dw). by eapply writes_trans, writes_code. Qed.

Lemma writes_data_r st st' w cw dw : writes st st' cw dw -> writes st (data st' w) cw (dw ++ [w]).
Proof. intros. rewrite <- (app_nil_r cw). by eapply writes_trans, writes_data. Qed.

(** The second offset of [create_io64_recovery]: two words of data and three of code later. *)
Lemma data_off_io st w1 w2 w3 w4 w5 :
  data_off (data (data (code (code (code st w1) w2) w3) w4) w5) = u32 (data_off st - 4).
Proof. unfold data_off. cbn. rewrite trunc_sub_l by lia. f_equal. lia. Qed.

Ltac append_words :=
  eapply writes_eq;
  [ unfold emit, create_hang_nonzero_hart, create_csr12_recovery, create_csr64_recovery,
      create_reg_recovery, create_io64_recovery, create_fp_recovery, data64; cbv zeta; cbn [foldl];
    repeat first [apply writes_code_r | apply writes_data_r]; apply writes_refl | .. ].

Lemma writes_emit st r : writes st (emit st r) (code_of r (data_off st)) (data_of r).
Proof.
  destruct r; append_words; try reflexivity. cbn [app code_of fetch_words]. by rewrite data_off_io.
Qed.

(** *** Sequences of recoveries *)

Fixpoint total (len : recovery -> nat) (l : list recovery) : nat :=
  match l with [] => 0 | r :: l => len r + total len l end.

Definition code_len (r : recovery) : nat := length (code_of r 0).
Definition data_len (r : recovery) : nat := length (data_of r).

Lemma code_of_length r off : length (code_of r off) = code_len r.
Proof. by destruct r. Qed.

Lemma total_app len l l' : total len (l ++ l') = (total len l + total len l')%nat.
Proof. induction l as [|r l IH]; [done|]. cbn [total app]. lia. Qed.

Lemma writes_emits l st :
  exists cw dw, writes st (foldl emit st l) cw dw /\ length cw = total code_len l /\ length dw = total data_len l.
Proof.
  revert st. induction l as [|r l IH]; intros st; cbn [foldl total].
  - exists [], []. split; [apply writes_refl|done].
  - destruct (IH (emit st r)) as (cw & dw & Hw & Hc & Hd). eexists _, _.
    split; [eapply writes_trans; [apply writes_emit|exact Hw]|].
    rewrite !length_app, code_of_length, Hc, Hd. done.
Qed.

(** Each recovery of a sequence is in the ROM, at the sum of the lengths before it. *)
Lemma emits_layout pre r post st :
  let l := pre ++ r :: post in
  placed st (total code_len l) (total data_len l) ->
  let c := code_pos st + Z.of_nat (total code_len pre) in
  let d := data_pos st + Z.of_nat (total data_len pre) in
  holds (rom (foldl emit st l)) c (code_of r (u32 (4 * (d - c)))) /\ holds (rom (foldl emit st l)) d (data_of r).
Proof.
  intros l Hp c d. subst l.
  rewrite !total_app in Hp. cbn [total] in Hp. destruct Hp as [Hc Hg Hd]. rewrite foldl_app. cbn [foldl].
  destruct (writes_emits pre st) as (cw1 & dw1 & H1 & Lc1 & Ld1). set (st1 := foldl emit st pre) in *.
  destruct (writes_emits post (emit st1 r)) as (cw3 & dw3 & H3 & Lc3 & Ld3).
  destruct H1 as [C1 D1 L1 _ _ _]; [split; lia|].
  pose proof (writes_emit st1 r) as H2. rewrite <- (code_of_length r (data_off st1)) in *. unfold data_len in *.
  destruct H2 as [C2 D2 L2 _ WC WD]; [split; lia|].
  destruct H3 as [C3 D3 L3 F3 _ _]; [split; lia|].
  assert (c = code_pos st1) as -> by lia. assert (d = data_pos st1) as -> by lia.
  change (u32 (4 * (data_pos st1 - code_pos st1))) with (data_off st1).
  split; (eapply holds_ext; [|eassumption]); intros; apply F3; lia.
Qed.

(** ** The boot ROM *)

Ltac count_words := unfold recovery_list; destruct (Nat.eqb _ 1), (nz _); lazy; lia.

(** The longest boot code and data. *)
Lemma boot_code_bound s n clint : (total code_len (recovery_list s n clint) <= 554)%nat.
Proof. count_words. Qed.

Lemma boot_data_bound s n clint : (total data_len (recovery_list s n clint) <= 270)%nat.
Proof. count_words. Qed.


(** Two consecutive words, read as the 64-bit value they store. *)
Definition word64_at (r : list Z) (d : Z) : Z := aget 0 r d .| (aget 0 r (d + 1) << 32).

Lemma words64_read r d v : fits 64 v -> holds r d (words64 v) -> word64_at r d = v.
Proof.
  intros Hv (E1 & E2 & _). unfold word64_at. rewrite E1, E2.
  change 0xFFFFFFFF with (Z.ones 32). apply Z.bits_inj'. intros k Hk.
  rewrite Z.lor_spec, Z.land_spec, Z.testbit_ones_nonneg, Z.shiftl_spec by lia.
  destruct (Z.ltb_spec k 32).
  - rewrite (Z.testbit_neg_r _ (k - 32)) by lia. by rewrite andb_true_r, orb_false_r.
  - rewrite Z.shiftr_spec, andb_false_r by lia. cbn [orb]. f_equal. lia.
Qed.

(** The words of [r] from [c] on, [n] of them. *)
Fixpoint slice (r : list Z) (c : Z) (n : nat) : list Z :=
  match n with O => [] | S n => aget 0 r c :: slice r (c + 1) n end.

Lemma slice_holds r c ws : holds r c ws -> slice r c (length ws) = ws.
Proof.
  revert c. induction ws as [|w ws IH]; intros c; [done|]. intros [E H]. cbn [length slice].
  by rewrite E, IH.
Qed.

Section Restore.
Context {D : Type} {dv : Devices D} (icount start : Z).

(** The code of a register recovery, run where it was placed, restores the value.
    With the ROM [r] mapped at [base] (so that the load of the two data words
    yields what [r] holds there), executing the three words at position [c] of the
    ROM leaves the saved value in the register and the pc after the code. *)
Lemma reg_recovery_restores r base c d rn val (m m2 : RISCVMachine D) :
  holds r c (code_of (Reg rn val) (u32 (4 * (d - c)))) -> holds r d (data_of (Reg rn val)) ->
  0 <= c <= d -> d < 2048 -> fits 5 rn -> nz rn = true -> fits 64 val ->
  stf_in_traceable_region m = false -> length (reg (cpu m)) = 32%nat -> pc (cpu m) = u64 (base + 4 * c) ->
  load (u64 (base + 4 * d)) 3 (m <| cpu ::= addressed rn (4 * (d - c)) |>) = (inr (word64_at r d), m2) ->
  stf_in_traceable_region m2 = false -> length (reg (cpu m2)) = 32%nat ->
  exists m', run_words icount start (slice r c 3) m = (inr tt, m') /\
    aget 0 (reg (cpu m')) rn = val /\ pc (cpu m') = u64 (pc (cpu m2) + 4).
Proof.
  intros Hc Hd Hcd Hd2 Hr Hn Hv Hoff Hl Hpc Hload Hoff2 Hl2.
  assert (u32 (4 * (d - c)) = 4 * (d - c)) as Eo by (apply trunc_small; unfold fits; lia). rewrite Eo in Hc.
  rewrite (words64_read r d val Hv Hd) in Hload.
  pose proof (slice_holds _ _ _ Hc) as Hs. change (length _) with 3%nat in Hs. rewrite Hs. cbn [code_of].
  rewrite <- (app_nil_r (fetch_words _ _)), fetch_words_eq by (first [done | lia]).
  rewrite Hpc, trunc_add_trunc. replace (base + 4 * c + 4 * (d - c)) with (base + 4 * d) by lia.
  unfold bind at 1. rewrite Hload. unfold bind at 1. rewrite write_rd_off by done.
  eexists. split; [reflexivity|]. cbn -[aset aget]. unfold put_reg. cpu_simpl. unfold fits in Hr.
  rewrite aget_aset_eq by (rewrite Hl2; lia). rewrite trunc_sgn, trunc_small by done. done.
Qed.
End Restore.

(** *** Witnesses *)


(** [t0] saved in a ROM at 0x80000000. *)
Definition demo_rom : list Z := rom (emit rom_start (Reg 5 0x123456789abcdef0)).

Definition demo_boot : RISCVMachine unit :=
  store_host (demo_machine (demo_cpu <| pc := 0x80000000 |>)) (0x1000000 + 4 * 0x2c0) 3 0x123456789abcdef0.

Definition demo_loaded : RISCVMachine unit :=
  snd (load 0x80000b00 3 (demo_boot <| cpu ::= addressed 5 (4 * (0x2c0 - 0)) |>)).

Lemma reg_recovery_restores_witness :
  exists m', run_words 0 0 (slice demo_rom 0 3) demo_boot = (inr tt, m') /\
    aget 0 (reg (cpu m')) 5 = 0x123456789abcdef0 /\ pc (cpu m') = u64 (pc (cpu demo_loaded) + 4).
Proof.
  apply (reg_recovery_restores 0 0 demo_rom 0x80000000 0 0x2c0 5
           0x123456789abcdef0 demo_boot demo_loaded);
    try (vm_compute; reflexivity); try (vm_compute; split_and!; reflexivity); try lia; try (vm_compute; split; [discriminate|reflexivity]).
Defined.
