(* ===== verification/Rounding.v ===== *)
(** * Rounding

    What the soft-float code promises: the IEEE 754 result of rounding a real number
    ([correctly_rounded]), and the two facts on which the library rests, that a
    mantissa with a sticky bit rounds like the real number it stands for
    ([round_mant_correct]) and that [round_pack_sf] and [normalize_sf] round
    correctly ([round_pack_correct], [normalize_correct]).

    Magnitudes are real numbers in units of the least subnormal, 2^(2 - 2^(EXP_SIZE-1)
    - MANT_SIZE). *)

From Stdlib Require Import Reals Lra.
From S2P Require Import Prelude Cpu Softfp.

Local Open Scope R_scope.
Local Open Scope Z_scope.

(** ** Powers of two *)

Definition p2 (z : Z) : R := powerRZ 2 z.

Lemma p2_pos z : (0 < p2 z)%R.
Proof. apply powerRZ_lt. lra. Qed.

Lemma p2_add a b : p2 (a + b) = (p2 a * p2 b)%R.
Proof. apply powerRZ_add. lra. Qed.

Lemma p2_Z z : 0 <= z -> p2 z = IZR (2 ^ z).
Proof. intros Hz. unfold p2. rewrite <- (Z2Nat.id z) by done. rewrite <- pow_powerRZ, pow_IZR. done. Qed.

Lemma p2_0 : p2 0 = 1%R.
Proof. done. Qed.

Lemma p2_1 : p2 1 = 2%R.
Proof. apply powerRZ_1. Qed.

Lemma p2_opp z : (p2 z * p2 (- z) = 1)%R.
Proof. rewrite <- p2_add, Z.add_opp_diag_r. done. Qed.

Lemma p2_le a b : a <= b -> (p2 a <= p2 b)%R.
Proof.
  intros H. replace b with (a + (b - a)) by lia. rewrite p2_add, (p2_Z (b - a)) by lia.
  pose proof (p2_pos a). assert (1 <= IZR (2 ^ (b - a)))%R by (apply IZR_le; pose proof (pow2_pos (b - a)); lia). nra.
Qed.

Lemma p2_lt a b : a < b -> (p2 a < p2 b)%R.
Proof.
  intros H. apply Rlt_le_trans with (p2 (a + 1)); [|apply p2_le; lia].
  rewrite p2_add. change (p2 1) with (2 * 1)%R. pose proof (p2_pos a). lra.
Qed.

(** ** Rounding a magnitude to an integer

    [s] is the sign of the number, on which the directed modes depend. *)

Definition away (rm s : Z) : bool := ((rm =? RM_RDN) && (s =? 1)) || ((rm =? RM_RUP) && (s =? 0)).

Definition rounds_to (rm s : Z) (x : R) (n : Z) : Prop :=
  if rm =? RM_RNE then (IZR n - / 2 <= x <= IZR n + / 2)%R /\ (x = IZR n - / 2 \/ x = IZR n + / 2 -> Z.even n = true)%R
  else if rm =? RM_RMM then (IZR n - / 2 <= x < IZR n + / 2)%R
  else if away rm s then (IZR n - 1 < x <= IZR n)%R
  else (IZR n <= x < IZR n + 1)%R.

Lemma IZR_lt_1 a b : (IZR a < IZR b + 1)%R -> a <= b.
Proof. intros H. rewrite <- plus_IZR in H. apply lt_IZR in H. lia. Qed.

Lemma rounds_to_unique rm s x n n' : rounds_to rm s x n -> rounds_to rm s x n' -> n = n'.
Proof.
  unfold rounds_to. destruct (rm =? RM_RNE).
  - intros [H1 E1] [H2 E2].
    assert (n <= n' + 1) by (apply IZR_lt_1; rewrite plus_IZR; lra).
    assert (n' <= n + 1) by (apply IZR_lt_1; rewrite plus_IZR; lra).
    destruct (decide (n = n' + 1)) as [->|]; [|destruct (decide (n' = n + 1)) as [->|]; [|lia]].
    + rewrite plus_IZR in *. assert (x = IZR n' + / 2)%R as -> by lra.
      assert (Z.even (n' + 1) = true) by (apply E1; lra). assert (Z.even n' = true) by (apply E2; lra).
      rewrite Z.even_add in *. by destruct (Z.even n').
    + rewrite plus_IZR in *. assert (x = IZR n + / 2)%R as -> by lra.
      assert (Z.even (n + 1) = true) by (apply E2; lra). assert (Z.even n = true) by (apply E1; lra).
      rewrite Z.even_add in *. by destruct (Z.even n).
  - destruct (rm =? RM_RMM); [|destruct (away rm s)]; intros H1 H2;
      (assert (n <= n') by (apply IZR_lt_1; lra)); (assert (n' <= n) by (apply IZR_lt_1; lra)); lia.
Qed.

(** ** Sticky mantissas

    The integer [M] stands for the real number [y] on the grid of multiples of [2^p]:
    it compares with them as [y] does. *)

Definition stands_for (p M : Z) (y : R) : Prop :=
  forall t, (2 ^ p | t) -> (M < t -> (y < IZR t)%R) /\ (t < M -> (IZR t < y)%R) /\ (M = t -> y = IZR t).

Lemma stands_exact p M : stands_for p M (IZR M).
Proof. intros t _. split_and!; [by apply IZR_lt..|by intros ->]. Qed.

Lemma stands_mono p p' M y : 0 <= p <= p' -> stands_for p M y -> stands_for p' M y.
Proof.
  intros Hp H t Ht. apply H. apply Z.divide_trans with (2 ^ p'); [|done].
  exists (2 ^ (p' - p)). rewrite <- Z.pow_add_r by lia. f_equal. lia.
Qed.

Lemma stands_le p M y t : stands_for p M y -> (2 ^ p | t) -> t <= M -> (IZR t <= y)%R.
Proof.
  intros H Ht Hle. destruct (H t Ht) as (_ & Hgt & Heq). destruct (decide (t = M)) as [->|].
  - rewrite Heq by done. lra.
  - apply Rlt_le, Hgt. lia.
Qed.

Lemma stands_ge p M y t : stands_for p M y -> (2 ^ p | t) -> M <= t -> (y <= IZR t)%R.
Proof.
  intros H Ht Hle. destruct (H t Ht) as (Hlt & _ & Heq). destruct (decide (t = M)) as [->|].
  - rewrite Heq by done. lra.
  - apply Rlt_le, Hlt. lia.
Qed.

(** Scaling, and adding a multiple of the grid. *)
Lemma stands_shiftl p M y k : 0 <= p -> 0 <= k -> stands_for p M y -> stands_for (p + k) (M * 2 ^ k) (y * p2 k).
Proof.
  intros Hp Hk H t [q ->]. rewrite Z.pow_add_r, Z.mul_assoc by lia. pose proof (pow2_pos k Hk).
  destruct (H (q * 2 ^ p) ltac:(by exists q)) as (Hlt & Hgt & Heq). rewrite p2_Z, (mult_IZR (q * 2 ^ p)) by lia.
  assert (0 < IZR (2 ^ k))%R by (apply IZR_lt; lia). split_and!; intros.
  - apply Rmult_lt_compat_r; [done|]. apply Hlt. nia.
  - apply Rmult_lt_compat_r; [done|]. apply Hgt. nia.
  - rewrite Heq; [done|]. nia.
Qed.

Lemma stands_add p M y A : (2 ^ p | A) -> stands_for p M y -> stands_for p (A + M) (IZR A + y).
Proof.
  intros HA H t Ht. destruct (H (t - A)) as (Hlt & Hgt & Heq); [by apply Z.divide_sub_r|].
  rewrite minus_IZR in *. split_and!; intros.
  - enough (y < IZR t - IZR A)%R by lra. apply Hlt. lia.
  - enough (IZR t - IZR A < y)%R by lra. apply Hgt. lia.
  - enough (y = IZR t - IZR A)%R by lra. apply Heq. lia.
Qed.

Lemma stands_sub p M y A : (2 ^ p | A) -> stands_for p M y -> stands_for p (A - M) (IZR A - y).
Proof.
  intros HA H t Ht. destruct (H (A - t)) as (Hlt & Hgt & Heq); [by apply Z.divide_sub_r|].
  rewrite minus_IZR in *. split_and!; intros.
  - enough (IZR A - IZR t < y)%R by lra. apply Hgt. lia.
  - enough (y < IZR A - IZR t)%R by lra. apply Hlt. lia.
  - enough (y = IZR A - IZR t)%R by lra. apply Heq. lia.
Qed.

(** *** Shifting right with a sticky bit *)

Lemma lor_bit q b : q .| b2z b = if b then q + 1 - q mod 2 else q.
Proof.
  destruct b; [|by rewrite Z.lor_0_r]. cbn [b2z]. pose proof (Z.add_lor_land q 1) as H.
  change 1 with (Z.ones 1) in H at 2. rewrite Z.land_ones in H by lia. change (2 ^ 1) with 2 in H. lia.
Qed.

Definition sticky (M d : Z) : Z := (M >> d) .| b2z (nz (M mod 2 ^ d)).

Lemma land_low a n : 0 <= n -> a .& ((1 << n) - 1) = a mod 2 ^ n.
Proof. intros Hn. by rewrite <- Z.land_ones, Z.ones_equiv, Z.shiftl_1_l. Qed.

Lemma has_ones a d : 0 <= d -> has a ((1 << d) - 1) = nz (a mod 2 ^ d).
Proof. intros Hd. unfold has. by rewrite land_low. Qed.

Lemma sticky_cases M d :
  0 <= d ->
  let q := M / 2 ^ d in let r := M mod 2 ^ d in
  M = q * 2 ^ d + r /\ 0 <= r < 2 ^ d /\ sticky M d = if nz r then q + 1 - q mod 2 else q.
Proof.
  intros Hd. cbv zeta. pose proof (pow2_pos d Hd). split_and!.
  - pose proof (Z.div_mod M (2 ^ d)). lia.
  - apply Z.mod_pos_bound. lia.
  - apply Z.mod_pos_bound. lia.
  - unfold sticky. by rewrite lor_bit, Z.shiftr_div_pow2.
Qed.

(** [sticky M d] compares with even numbers as [M / 2^d] does. *)
Lemma sticky_cmp M d t :
  0 <= d ->
  (sticky M d < 2 * t -> M < 2 * t * 2 ^ d) /\ (2 * t < sticky M d -> 2 * t * 2 ^ d < M) /\
  (sticky M d = 2 * t -> M = 2 * t * 2 ^ d).
Proof.
  intros Hd. destruct (sticky_cases M d Hd) as (E & Hr & ->).
  set (q := M / 2 ^ d) in *. set (r := M mod 2 ^ d) in *. pose proof (Z.mod_pos_bound q 2 ltac:(lia)).
  pose proof (Z.div_mod q 2 ltac:(lia)). unfold nz. destruct (Z.eqb_spec r 0); cbn [negb]; split_and!; intros; try nia.
Qed.

Lemma stands_sticky p M u d :
  0 <= p -> 0 <= d -> stands_for p M (u * p2 d) -> stands_for (Z.max 1 (p - d)) (sticky M d) u.
Proof.
  intros Hp Hd H t Ht.
  assert (Hdiv : forall k, 0 <= k <= Z.max 1 (p - d) -> (2 ^ k | t)).
  { intros k Hk. apply Z.divide_trans with (2 ^ Z.max 1 (p - d)); [|done].
    exists (2 ^ (Z.max 1 (p - d) - k)). rewrite <- Z.pow_add_r by lia. f_equal. lia. }
  destruct (Hdiv 1) as [q Eq]; [lia|]. change (2 ^ 1) with 2 in Eq. rewrite (Z.mul_comm q 2) in Eq. subst t.
  destruct (sticky_cmp M d q Hd) as (Hlt & Hgt & Heq). destruct (H (2 * q * 2 ^ d)) as (Hlt' & Hgt' & Heq').
  { destruct (decide (p <= d)).
    - apply Z.divide_mul_r. exists (2 ^ (d - p)). rewrite <- Z.pow_add_r by lia. f_equal. lia.
    - destruct (Hdiv (p - d)) as [m ->]; [lia|]. exists m. rewrite <- Z.mul_assoc, <- Z.pow_add_r by lia. do 2 f_equal. lia. }
  rewrite (mult_IZR (2 * q)), <- p2_Z in * by lia. pose proof (p2_pos d). split_and!; intros.
  - apply Rmult_lt_reg_r with (p2 d); [done|]. by apply Hlt', Hlt.
  - apply Rmult_lt_reg_r with (p2 d); [done|]. by apply Hgt', Hgt.
  - apply Rmult_eq_reg_r with (p2 d); [by apply Heq', Heq|lra].
Qed.

(** A shift that drops only zeros. *)
Lemma stands_shiftr p M u d :
  0 <= d <= p -> (2 ^ d | M) -> stands_for p M (u * p2 d) -> stands_for (p - d) (M / 2 ^ d) u.
Proof.
  intros Hd [m ->] H t [q ->]. pose proof (pow2_pos d ltac:(lia)). rewrite Z.div_mul by lia.
  destruct (H (q * 2 ^ p)) as (Hlt' & Hgt' & Heq'); [by exists q|].
  assert (q * 2 ^ p = q * 2 ^ (p - d) * 2 ^ d) as E.
  { rewrite <- Z.mul_assoc, <- Z.pow_add_r by lia. do 2 f_equal. lia. }
  rewrite E, (mult_IZR _ (2 ^ d)), <- p2_Z in * by lia. pose proof (p2_pos d). split_and!; intros.
  - apply Rmult_lt_reg_r with (p2 d); [done|]. apply Hlt'. nia.
  - apply Rmult_lt_reg_r with (p2 d); [done|]. apply Hgt'. nia.
  - apply Rmult_eq_reg_r with (p2 d); [|lra]. apply Heq'. nia.
Qed.

(** ** Formats *)

Class FormatOk (fmt : Format) : Prop := {
  exp_size_ok : 5 <= EXP_SIZE;
  mant_size_ok : EXP_SIZE <= MANT_SIZE;
  mant_exp_ok : MANT_SIZE <= 2 ^ (EXP_SIZE - 1);
  size_even : 2 * (F_SIZE / 2) = F_SIZE;
}.

#[export] Instance sf32_ok : FormatOk sf32.
Proof. by split. Qed.
#[export] Instance sf64_ok : FormatOk sf64.
Proof. by split. Qed.
#[export] Instance sf128_ok : FormatOk sf128.
Proof. by split. Qed.

(** Linear facts about the sizes. *)
Ltac sizes := pose proof exp_size_ok; pose proof mant_size_ok; unfold RND_SIZE, IMANT_SIZE, F_SIZE in *; lia.

Ltac eval_nz :=
  repeat match goal with
         | |- context [nz ?x] => let v := eval vm_compute in (nz x) in change (nz x) with v; cbn [negb]
         end.

Section Round.
Context {fmt : Format} {ok : FormatOk fmt}.

Lemma rshift_rnd_sticky M d : fits F_SIZE M -> 0 < d -> rshift_rnd M d = sticky M d.
Proof.
  intros [H0 H1] Hd. unfold rshift_rnd, sticky. rewrite (proj2 (Z.eqb_neq d 0)) by lia.
  destruct (Z.leb_spec F_SIZE d).
  - assert (2 ^ F_SIZE <= 2 ^ d) by (apply Z.pow_le_mono_r; lia).
    rewrite Z.mod_small, Z.shiftr_div_pow2, Z.div_small by lia. done.
  - by rewrite has_ones by lia.
Qed.

Lemma rshift_exact M d : fits F_SIZE M -> 0 <= d -> (2 ^ d | M) -> rshift_rnd M d = M / 2 ^ d.
Proof.
  intros HM Hd [m ->]. assert (2 ^ d <> 0) by (apply Z.pow_nonzero; lia). destruct (decide (d = 0)) as [->|].
  - unfold rshift_rnd. cbn. by rewrite Z.div_1_r.
  - rewrite rshift_rnd_sticky by (done || lia). unfold sticky. rewrite Z.mod_mul by done. cbn [nz negb Z.eqb b2z].
    by rewrite Z.lor_0_r, Z.shiftr_div_pow2.
Qed.

Lemma stands_rshift p M u d :
  fits F_SIZE M -> 0 <= p -> 0 <= d -> stands_for p M (u * p2 d) ->
  exists p', 0 <= p' <= Z.max 1 p /\ stands_for p' (rshift_rnd M d) u.
Proof.
  intros HM Hp Hd H. destruct (decide (d = 0)) as [->|].
  - exists p. split; [lia|]. rewrite p2_0, Rmult_1_r in H. done.
  - exists (Z.max 1 (p - d)). split; [lia|]. rewrite rshift_rnd_sticky by (done || lia). by apply stands_sticky.
Qed.

Lemma pow_RND : 2 ^ RND_SIZE = 2 * 2 ^ (RND_SIZE - 1).
Proof. rewrite <- Z.pow_succ_r by sizes. f_equal. lia. Qed.

Lemma half_pos : 0 < 2 ^ (RND_SIZE - 1).
Proof. apply pow2_pos. sizes. Qed.

(** Comparing with the halves of the integers. *)
Lemma stands_halves p M u j :
  0 <= p <= RND_SIZE - 1 -> stands_for p M (u * p2 RND_SIZE) ->
  let h := 2 ^ (RND_SIZE - 1) in
  (M < j * h -> (u < IZR j / 2)%R) /\ (j * h < M -> (IZR j / 2 < u)%R) /\ (M = j * h -> (u = IZR j / 2)%R).
Proof.
  intros Hp H h. destruct (stands_mono p (RND_SIZE - 1) M _ Hp H (j * h)) as (Hlt & Hgt & Heq); [by exists j|].
  rewrite p2_Z, pow_RND, !mult_IZR in * by sizes. fold h in Hlt, Hgt, Heq.
  assert (0 < IZR h)%R by (apply IZR_lt, pow2_pos; sizes). split_and!; intros Hc.
  - specialize (Hlt Hc). apply Rmult_lt_reg_r with (2 * IZR h)%R; lra.
  - specialize (Hgt Hc). apply Rmult_lt_reg_r with (2 * IZR h)%R; lra.
  - specialize (Heq Hc). apply Rmult_eq_reg_r with (2 * IZR h)%R; lra.
Qed.

Lemma ldiff_1 x : x .&~ 1 = x - x mod 2.
Proof.
  pose proof (Z.sub_land_same_l x 1) as H. change 1 with (Z.ones 1) in H at 1. rewrite Z.land_ones in H by lia.
  rewrite Z.ldiff_land. change (2 ^ 1) with 2 in H. lia.
Qed.

Lemma rnd_mask_mod M : M .& rnd_mask = M mod 2 ^ RND_SIZE.
Proof. apply land_low. sizes. Qed.

Lemma rnd_addend_range s rm : s = 0 \/ s = 1 -> 0 <= rnd_addend s rm < 2 ^ RND_SIZE.
Proof.
  intros Hs. unfold rnd_addend. rewrite !Z.shiftl_1_l. pose proof pow_RND. pose proof half_pos.
  repeat case_match; lia.
Qed.

Lemma carry_div m q r a : 0 <= r < m -> 0 <= a < m -> (m * q + r + a) / m = if m <=? r + a then q + 1 else q.
Proof.
  intros. destruct (Z.leb_spec m (r + a)).
  - symmetry. apply (Z.div_unique_pos _ _ _ (r + a - m)); lia.
  - symmetry. apply (Z.div_unique_pos _ _ _ (r + a)); lia.
Qed.

(** Where [u] lies between [q] and [q + 1], for a fraction [r / (2 * h)] of its stand-in. *)
Record lies (u : R) (q r h : Z) : Prop := {
  lies_lo : r = 0 -> u = IZR q;
  lies_in : 0 < r -> (IZR q < u < IZR q + 1)%R;
  lies_lt : r < h -> (u < IZR q + / 2)%R;
  lies_eq : r = h -> (u = IZR q + / 2)%R;
  lies_gt : h < r -> (IZR q + / 2 < u)%R;
}.

Lemma stands_lies p M u :
  0 <= p <= RND_SIZE - 1 -> stands_for p M (u * p2 RND_SIZE) ->
  lies u (M / 2 ^ RND_SIZE) (M mod 2 ^ RND_SIZE) (2 ^ (RND_SIZE - 1)).
Proof.
  intros Hp H. pose proof half_pos. pose proof (Z.div_mod M (2 ^ RND_SIZE)) as E.
  pose proof (Z.mod_pos_bound M (2 ^ RND_SIZE)) as Hr. pose proof (stands_halves p M u) as Hj.
  set (q := M / 2 ^ RND_SIZE) in *. set (r := M mod 2 ^ RND_SIZE) in *. rewrite pow_RND in *.
  set (h := 2 ^ (RND_SIZE - 1)) in *. clearbody q r h. cbv zeta in Hj.
  destruct (Hj (2 * q) Hp H) as (L0 & G0 & E0). destruct (Hj (2 * q + 1) Hp H) as (L1 & G1 & E1).
  destruct (Hj (2 * q + 2) Hp H) as (L2 & G2 & E2). rewrite !plus_IZR, !mult_IZR in *.
  split; intros.
  - specialize (E0 ltac:(lia)). lra.
  - specialize (G0 ltac:(lia)). specialize (L2 ltac:(lia)). lra.
  - specialize (L1 ltac:(lia)). lra.
  - specialize (E1 ltac:(lia)). lra.
  - specialize (G1 ltac:(lia)). lra.
Qed.

Lemma IZR_neq_between u q n : (IZR q < u < IZR q + 1)%R -> u <> IZR n.
Proof.
  intros H ->. rewrite <- plus_IZR in H. destruct H as [H1%lt_IZR H2%lt_IZR]. lia.
Qed.

(** The rounding of [q + r / (2 * h)]. *)
Definition round_int (rm s q r h : Z) : Z :=
  if rm =? RM_RNE then if (r <? h) || ((r =? h) && Z.even q) then q else q + 1
  else if rm =? RM_RMM then if r <? h then q else q + 1
  else if away rm s then if r =? 0 then q else q + 1
  else q.

Lemma round_int_correct rm s u q r h :
  0 <= r < 2 * h -> lies u q r h ->
  let n := round_int rm s q r h in
  rounds_to rm s u n /\ (r = 0 <-> u = IZR n) /\ q <= n <= q + 1.
Proof.
  intros Hr [L0 L1 L2 L3 L4] n. split; [|split; [split|unfold n, round_int; repeat case_match; lia]].
  - unfold n, rounds_to, round_int. destruct (rm =? RM_RNE).
    + destruct (Z.ltb_spec r h); cbn [orb].
      * specialize (L2 ltac:(lia)). destruct (decide (r = 0)); [rewrite L0 by done|specialize (L1 ltac:(lia))];
          (split; [lra|intros [?|?]; lra]).
      * destruct (Z.eqb_spec r h); cbn [andb]; [rewrite L3 by done|specialize (L4 ltac:(lia)); specialize (L1 ltac:(lia))].
        -- destruct (Z.even q) eqn:Eq; [split; [lra|done]|]. rewrite plus_IZR. split; [lra|].
           intros _. by rewrite Z.even_add, Eq.
        -- rewrite plus_IZR. split; [lra|intros [?|?]; lra].
    + destruct (rm =? RM_RMM); [|destruct (away rm s)].
      * destruct (Z.ltb_spec r h); [specialize (L2 ltac:(lia))|].
        -- destruct (decide (r = 0)); [rewrite L0 by done|specialize (L1 ltac:(lia))]; lra.
        -- rewrite plus_IZR. specialize (L1 ltac:(lia)).
           destruct (decide (r = h)); [rewrite L3 by done|specialize (L4 ltac:(lia))]; lra.
      * destruct (Z.eqb_spec r 0); [rewrite L0 by done; lra|]. rewrite plus_IZR. specialize (L1 ltac:(lia)). lra.
      * destruct (decide (r = 0)); [rewrite L0 by done|specialize (L1 ltac:(lia))]; lra.
  - intros ->. rewrite L0 by done. unfold n, round_int. rewrite (proj2 (Z.ltb_lt 0 h)) by lia. cbn [orb Z.eqb].
    by repeat case_match.
  - destruct (decide (r = 0)); [done|]. intros Eu. by destruct (IZR_neq_between u q n (L1 ltac:(lia))).
Qed.

Lemma addend_no_wrap rm s M :
  s = 0 \/ s = 1 -> fits (F_SIZE - 1) M -> F_UINT (M + rnd_addend s rm) = M + rnd_addend s rm.
Proof.
  intros Hs [H0 H1]. pose proof (rnd_addend_range s rm Hs). apply trunc_small. split; [lia|].
  assert (2 ^ F_SIZE = 2 * 2 ^ (F_SIZE - 1)) by (rewrite <- Z.pow_succ_r by sizes; f_equal; lia).
  assert (2 ^ RND_SIZE <= 2 ^ (F_SIZE - 1)) by (apply Z.pow_le_mono_r; sizes). lia.
Qed.

Lemma round_mant_int rm s M :
  0 <= rm <= 4 -> s = 0 \/ s = 1 -> fits (F_SIZE - 1) M ->
  round_mant rm (rnd_addend s rm) M =
    round_int rm s (M / 2 ^ RND_SIZE) (M mod 2 ^ RND_SIZE) (2 ^ (RND_SIZE - 1)).
Proof.
  intros Hrm Hs HM. pose proof (rnd_addend_range s rm Hs) as Ha. unfold round_mant. rewrite rnd_mask_mod. cbv zeta.
  rewrite addend_no_wrap, Z.shiftr_div_pow2, ldiff_1 by (done || sizes). rewrite !Z.shiftl_1_l.
  assert (0 < 2 ^ RND_SIZE) as Hpos by (apply pow2_pos; sizes).
  pose proof (Z.mod_pos_bound M (2 ^ RND_SIZE) Hpos) as Hr.
  assert (forall a, 0 <= a < 2 ^ RND_SIZE -> (M + a) / 2 ^ RND_SIZE =
    if 2 ^ RND_SIZE <=? M mod 2 ^ RND_SIZE + a then M / 2 ^ RND_SIZE + 1 else M / 2 ^ RND_SIZE) as Hq.
  { intros a Hla. rewrite (Z.div_mod M (2 ^ RND_SIZE)) at 1 by lia. by apply carry_div. }
  rewrite !Hq by done. clear Hq.
  set (q := M / 2 ^ RND_SIZE). set (r := M mod 2 ^ RND_SIZE) in *. clearbody q r.
  unfold rnd_addend in *. rewrite !Z.shiftl_1_l in *. pose proof half_pos. rewrite pow_RND in *.
  set (h := 2 ^ (RND_SIZE - 1)) in *. clearbody h. unfold round_int, away.
  assert (rm = 0 \/ rm = 1 \/ rm = 2 \/ rm = 3 \/ rm = 4) as [ -> | [ -> | [ -> | [ -> | -> ]]]] by lia;
    destruct Hs as [-> | ->]; cbn [Z.eqb Pos.eqb andb orb] in *;
    unfold RM_RNE, RM_RTZ, RM_RDN, RM_RUP, RM_RMM in *; cbn in *;
    repeat match goal with
           | _ => progress eval_nz
           | |- context [?a <=? ?b] => destruct (Z.leb_spec a b); try lia
           | |- context [?a <? ?b] => destruct (Z.ltb_spec a b); try lia
           | |- context [?a =? ?b] => destruct (Z.eqb_spec a b); try lia
           end; cbn [andb orb]; try lia; rewrite Zmod_even, Z.even_add; destruct (Z.even q); cbn; lia.
Qed.

Lemma round_mant_correct rm s M p u :
  0 <= rm <= 4 -> s = 0 \/ s = 1 -> fits (F_SIZE - 1) M -> 0 <= p <= RND_SIZE - 1 ->
  stands_for p M (u * p2 RND_SIZE) ->
  let n := round_mant rm (rnd_addend s rm) M in
  rounds_to rm s u n /\ (M .& rnd_mask = 0 <-> u = IZR n) /\ M / 2 ^ RND_SIZE <= n <= M / 2 ^ RND_SIZE + 1.
Proof.
  intros Hrm Hs HM Hp H n. unfold n. rewrite round_mant_int, rnd_mask_mod by done.
  apply round_int_correct; [rewrite <- pow_RND; apply Z.mod_pos_bound, pow2_pos; sizes|by apply (stands_lies p)].
Qed.

(** ** Correctly rounded results

    [binade k x]: the floats around [x] are the multiples of [2^k]. *)
Definition binade (k : Z) (x : R) : Prop :=
  0 <= k /\ (x < p2 (MANT_SIZE + 1 + k))%R /\ (k = 0 \/ (p2 (MANT_SIZE + k) <= x)%R).

(** The result is tiny: rounded with an unbounded exponent, it is below the least
    normal number. *)
Definition tiny (rm s : Z) (x : R) : Prop :=
  exists j n u, j < 0 /\ x = (u * p2 j)%R /\ (p2 MANT_SIZE <= u < p2 (MANT_SIZE + 1))%R /\
    rounds_to rm s u n /\ (IZR n * p2 j < p2 MANT_SIZE)%R.

(** Infinity without its sign; the bit patterns below it are the finite magnitudes,
    in order. *)
Definition INF : Z := EXP_MASK * 2 ^ MANT_SIZE.

(** The pattern of a magnitude with a sign. *)
Definition signed (s bits : Z) : Z := s * 2 ^ (F_SIZE - 1) + bits.

(** In the directed modes an overflow stops at the largest finite number. *)
Definition overflow_bits (rm s : Z) : Z :=
  if (rm =? RM_RNE) || (rm =? RM_RMM) || away rm s then INF else INF - 1.

(** [r] and [fflags'] are the result and the flags of rounding the magnitude [x] with
    sign [s]: the multiple [n * 2^k] of the spacing [2^k] at [x], the overflow
    result if that is too large; the flags accrue. *)
Definition correctly_rounded (rm s : Z) (x : R) (fflags r fflags' : Z) : Prop :=
  exists k n u (inexact underflow : bool),
    binade k x /\ x = (u * p2 k)%R /\ rounds_to rm s u n /\
    (inexact = true <-> u <> IZR n) /\ (underflow = true <-> tiny rm s x) /\
    let bits := k * 2 ^ MANT_SIZE + n in
    if bits <? INF then
      r = signed s bits /\
      fflags' = fflags .| (if inexact then FFLAG_INEXACT .| (if underflow then FFLAG_UNDERFLOW else 0) else 0)
    else r = signed s (overflow_bits rm s) /\ fflags' = fflags .| (FFLAG_OVERFLOW .| FFLAG_INEXACT).

Lemma binade_unique k k' x : binade k x -> binade k' x -> k = k'.
Proof.
  intros (Hk & Hlt & Hge) (Hk' & Hlt' & Hge').
  assert (forall a b, 0 <= b -> (p2 (MANT_SIZE + a) <= x)%R -> (x < p2 (MANT_SIZE + 1 + b))%R -> a <= b) as Hm.
  { intros a b Hb H1 H2. destruct (decide (a <= b)); [done|]. exfalso.
    assert (p2 (MANT_SIZE + 1 + b) <= p2 (MANT_SIZE + a))%R by (apply p2_le; lia). lra. }
  destruct Hge as [->|Hge], Hge' as [->|Hge']; [done| | |]; [pose proof (Hm k' 0)|pose proof (Hm k 0)|
    pose proof (Hm k k'); pose proof (Hm k' k)]; intuition lia.
Qed.

Lemma p2_cancel a b k : (a * p2 k = b * p2 k -> a = b)%R.
Proof. pose proof (p2_pos k). intros Heq. apply Rmult_eq_reg_r with (p2 k); lra. Qed.

Lemma correctly_rounded_unique rm s x fl r fl' r2 fl2 :
  correctly_rounded rm s x fl r fl' -> correctly_rounded rm s x fl r2 fl2 -> r = r2 /\ fl' = fl2.
Proof.
  intros (k & n & u & ix & un & Hk & -> & Hn & Hix & Hun & H) (k2 & n2 & u2 & ix2 & un2 & Hk2 & E & Hn2 & Hix2 & Hun2 & H2).
  pose proof (binade_unique _ _ _ Hk Hk2) as <-. apply p2_cancel in E as <-.
  pose proof (rounds_to_unique _ _ _ _ _ Hn Hn2) as <-.
  assert (ix = ix2) as <- by (apply eq_bool_prop_intro; rewrite !Is_true_true; tauto).
  assert (un = un2) as <- by (apply eq_bool_prop_intro; rewrite !Is_true_true; tauto).
  cbv zeta in *. destruct (_ <? _); destruct H as [-> ->], H2 as [-> ->]; done.
Qed.

(** ** [pack_sf] *)

Lemma pow_F : 2 ^ (F_SIZE - 1) = 2 ^ EXP_SIZE * 2 ^ MANT_SIZE.
Proof. rewrite <- Z.pow_add_r by sizes. f_equal. sizes. Qed.

Lemma pow_F2 : 2 ^ F_SIZE = 2 * 2 ^ (F_SIZE - 1).
Proof. rewrite <- Z.pow_succ_r by sizes. f_equal. lia. Qed.

Lemma mant_pos : 0 < 2 ^ MANT_SIZE.
Proof. apply pow2_pos. sizes. Qed.

Lemma exp_pos : 32 <= 2 ^ EXP_SIZE.
Proof. apply (Z.pow_le_mono_r 2 5). lia. sizes. Qed.

Lemma EXP_MASK_eq : EXP_MASK = 2 ^ EXP_SIZE - 1.
Proof. unfold EXP_MASK. by rewrite Z.shiftl_1_l. Qed.

Lemma MANT_MASK_eq : MANT_MASK = 2 ^ MANT_SIZE - 1.
Proof. unfold MANT_MASK. by rewrite Z.shiftl_1_l. Qed.

Lemma land_MANT_MASK a : a .& MANT_MASK = a mod 2 ^ MANT_SIZE.
Proof. apply land_low. sizes. Qed.

Lemma lor_disjoint a b m : 0 <= m -> fits m b -> (a << m) .| b = a * 2 ^ m + b.
Proof.
  intros Hm Hb. pose proof (Z.add_lor_land (a << m) b) as H. rewrite land_shiftl_low in H by done.
  rewrite Z.shiftl_mul_pow2 in * by done. lia.
Qed.

Lemma pack_sf_eq s e m :
  s = 0 \/ s = 1 -> 0 <= e <= EXP_MASK -> pack_sf s e m = signed s (e * 2 ^ MANT_SIZE + m mod 2 ^ MANT_SIZE).
Proof.
  intros Hs He. rewrite EXP_MASK_eq in He. unfold pack_sf, F_UINT, signed. rewrite land_MANT_MASK.
  pose proof mant_pos. pose proof pow_F. pose proof pow_F2. assert (0 <= MANT_SIZE) by sizes.
  assert (0 <= m mod 2 ^ MANT_SIZE < 2 ^ MANT_SIZE) by (apply Z.mod_pos_bound; lia).
  rewrite !trunc_small by (unfold fits; rewrite Z.shiftl_mul_pow2 by sizes; nia).
  rewrite <- Z.lor_assoc, (lor_disjoint e), lor_disjoint by (unfold fits; sizes || nia). done.
Qed.

(** ** [round_pack_sf]

    The part after the test for subnormal results. *)
Definition round_tail (a_sign a_exp a_mant rm fflags : Z) : Z * Z :=
  let addend := rnd_addend a_sign rm in
  let fflags := if nz (a_mant .& rnd_mask) then fflags .| FFLAG_INEXACT else fflags in
  let a_mant := round_mant rm addend a_mant in
  let a_exp := a_exp + (a_mant >> (MANT_SIZE + 1)) in
  if a_mant <=? MANT_MASK then (pack_sf a_sign 0 a_mant, fflags)
  else if EXP_MASK <=? a_exp then
    ((if addend =? 0 then pack_sf a_sign (EXP_MASK - 1) MANT_MASK else pack_sf a_sign EXP_MASK 0),
     fflags .| (FFLAG_OVERFLOW .| FFLAG_INEXACT))
  else (pack_sf a_sign a_exp a_mant, fflags).

Lemma round_pack_tail s e M rm fl :
  round_pack_sf s e M rm fl =
    if e <=? 0 then
      let M' := rshift_rnd M (1 - e) in
      let small := (e <? 0) || (F_UINT (M + rnd_addend s rm) <? (1 << (F_SIZE - 1))) in
      round_tail s 1 M' rm (if small && nz (M' .& rnd_mask) then fl .| FFLAG_UNDERFLOW else fl)
    else round_tail s e M rm fl.
Proof. unfold round_pack_sf. by destruct (e <=? 0). Qed.

Lemma addend_zero rm s :
  0 <= rm <= 4 -> s = 0 \/ s = 1 ->
  (rnd_addend s rm =? 0) = negb ((rm =? RM_RNE) || (rm =? RM_RMM) || away rm s).
Proof.
  intros Hrm Hs. unfold rnd_addend, away. pose proof half_pos. pose proof pow_RND. rewrite !Z.shiftl_1_l.
  assert (rm = 0 \/ rm = 1 \/ rm = 2 \/ rm = 3 \/ rm = 4) as [ -> | [ -> | [ -> | [ -> | -> ]]]] by lia;
    destruct Hs as [-> | ->]; cbn; try done; eval_nz; apply Z.eqb_neq; lia.
Qed.

Lemma overflow_pack rm s :
  0 <= rm <= 4 -> s = 0 \/ s = 1 ->
  (if rnd_addend s rm =? 0 then pack_sf s (EXP_MASK - 1) MANT_MASK else pack_sf s EXP_MASK 0) =
  signed s (overflow_bits rm s).
Proof.
  intros Hrm Hs. rewrite addend_zero by done. pose proof exp_pos. pose proof EXP_MASK_eq. pose proof mant_pos.
  rewrite !pack_sf_eq by lia. rewrite MANT_MASK_eq, (Z.mod_small (_ - 1)), Z.mod_0_l by lia. unfold overflow_bits, INF.
  destruct (_ || _); cbn [negb]; f_equal; lia.
Qed.

Lemma mant_bounds rm s M :
  0 <= rm <= 4 -> s = 0 \/ s = 1 -> fits (F_SIZE - 1) M ->
  let n := round_mant rm (rnd_addend s rm) M in
  0 <= n <= 2 * 2 ^ MANT_SIZE /\ (2 ^ (F_SIZE - 2) <= M -> 2 ^ MANT_SIZE <= n).
Proof.
  intros Hrm Hs HM n. destruct (round_mant_correct rm s M 0 (IZR M / p2 RND_SIZE)) as (_ & _ & Hn); [done..|sizes| |].
  { replace (IZR M / p2 RND_SIZE * p2 RND_SIZE)%R with (IZR M); [apply stands_exact|].
    pose proof (p2_pos RND_SIZE). field. lra. }
  destruct HM as [H0 H1]. fold n in Hn. assert (0 < 2 ^ RND_SIZE) by (apply pow2_pos; sizes).
  assert (2 ^ (F_SIZE - 1) = 2 * 2 ^ MANT_SIZE * 2 ^ RND_SIZE) as E1.
  { rewrite <- Z.pow_succ_r, <- Z.pow_add_r by sizes. f_equal. sizes. }
  assert (2 ^ (F_SIZE - 2) = 2 ^ MANT_SIZE * 2 ^ RND_SIZE) as E2 by (rewrite <- Z.pow_add_r by sizes; f_equal; sizes).
  assert (M / 2 ^ RND_SIZE < 2 * 2 ^ MANT_SIZE) by (apply Z.div_lt_upper_bound; lia).
  pose proof (Z.div_pos M (2 ^ RND_SIZE)). split; [lia|]. intros Hge.
  assert (2 ^ MANT_SIZE <= M / 2 ^ RND_SIZE) by (apply Z.div_le_lower_bound; lia). lia.
Qed.

Lemma round_tail_eq rm s e M fl :
  0 <= rm <= 4 -> s = 0 \/ s = 1 -> fits (F_SIZE - 1) M -> 1 <= e -> (e = 1 \/ 2 ^ (F_SIZE - 2) <= M) ->
  let n := round_mant rm (rnd_addend s rm) M in
  let bits := (e - 1) * 2 ^ MANT_SIZE + n in
  let fl' := if nz (M .& rnd_mask) then fl .| FFLAG_INEXACT else fl in
  round_tail s e M rm fl =
    if bits <? INF then (signed s bits, fl')
    else (signed s (overflow_bits rm s), fl' .| (FFLAG_OVERFLOW .| FFLAG_INEXACT)).
Proof.
  intros Hrm Hs HM He Hn. cbv zeta. unfold round_tail. rewrite overflow_pack by done.
  destruct (mant_bounds rm s M Hrm Hs HM) as [Hb Hge]. set (n := round_mant _ _ M) in *. cbv zeta in *.
  rewrite MANT_MASK_eq, Z.shiftr_div_pow2, Z.pow_add_r by sizes. change (2 ^ 1) with 2.
  pose proof mant_pos. pose proof exp_pos. pose proof EXP_MASK_eq as EM. unfold INF.
  destruct (Z.leb_spec n (2 ^ MANT_SIZE - 1)).
  - assert (e = 1) as -> by lia. rewrite (proj2 (Z.ltb_lt _ _)) by nia. rewrite pack_sf_eq by lia.
    do 2 f_equal. rewrite Z.mod_small by lia. lia.
  - assert (n / (2 ^ MANT_SIZE * 2) = if n =? 2 * 2 ^ MANT_SIZE then 1 else 0) as ->.
    { destruct (Z.eqb_spec n (2 * 2 ^ MANT_SIZE)) as [->|]; [rewrite Z.mul_comm; apply Z.div_same; lia|apply Z.div_small; lia]. }
    destruct (Z.eqb_spec n (2 * 2 ^ MANT_SIZE)) as [->|].
    + destruct (Z.leb_spec EXP_MASK (e + 1)).
      * rewrite (proj2 (Z.ltb_ge _ _)) by nia. done.
      * rewrite (proj2 (Z.ltb_lt _ _)) by nia. rewrite pack_sf_eq, Z.mod_mul by lia. do 2 f_equal. lia.
    + destruct (Z.leb_spec EXP_MASK (e + 0)).
      * rewrite (proj2 (Z.ltb_ge _ _)) by nia. done.
      * rewrite (proj2 (Z.ltb_lt _ _)) by nia. rewrite pack_sf_eq by lia. do 2 f_equal.
        replace (n mod 2 ^ MANT_SIZE) with (n - 2 ^ MANT_SIZE) by (apply (Z.mod_unique_pos _ _ 1); lia). lia.
Qed.

Lemma not_tiny rm s x : (p2 MANT_SIZE <= x)%R \/ x = 0%R -> ~ tiny rm s x.
Proof.
  intros Hx (j & n & u & Hj & -> & [Hu Hu'] & _). pose proof (p2_pos j). pose proof (p2_pos MANT_SIZE).
  destruct Hx as [Hx|Hx]; [|nra].
  assert (p2 (MANT_SIZE + 1 + j) <= p2 MANT_SIZE)%R by (apply p2_le; lia). rewrite (p2_add _ j) in *.
  assert (u * p2 j < p2 (MANT_SIZE + 1) * p2 j)%R by (by apply Rmult_lt_compat_r). lra.
Qed.

(** Below the normal numbers, tininess is decided by the unshifted mantissa. *)
Lemma tiny_iff rm s v n e :
  e <= 0 -> (p2 MANT_SIZE <= v < p2 (MANT_SIZE + 1))%R -> rounds_to rm s v n -> n <= 2 * 2 ^ MANT_SIZE ->
  tiny rm s (v * p2 (e - 1)) <-> e < 0 \/ n < 2 * 2 ^ MANT_SIZE.
Proof.
  intros He Hv Hn Hmax. pose proof (p2_pos (e - 1)) as Hp. assert (0 <= MANT_SIZE) by sizes.
  assert (forall j w, (w * p2 j = v * p2 (e - 1))%R -> (p2 MANT_SIZE <= w < p2 (MANT_SIZE + 1))%R -> j = e - 1) as Hj.
  { intros j w E Hw. destruct (Z.lt_trichotomy j (e - 1)) as [Hlt|[?|Hlt]]; [|done|]; exfalso.
    - assert (p2 (j + 1) <= p2 (e - 1))%R by (apply p2_le; lia). rewrite !p2_add in *. change (p2 1) with (2 * 1)%R in *.
      pose proof (p2_pos j). nra.
    - assert (p2 (e - 1 + 1) <= p2 j)%R by (apply p2_le; lia). rewrite !p2_add in *. change (p2 1) with (2 * 1)%R in *.
      pose proof (p2_pos j). nra. }
  assert ((IZR n * p2 (e - 1) < p2 MANT_SIZE)%R <-> e < 0 \/ n < 2 * 2 ^ MANT_SIZE) as Hlast.
  { rewrite (p2_Z MANT_SIZE) by lia. apply IZR_le in Hmax as Hmax'. rewrite mult_IZR in Hmax'.
    pose proof (IZR_lt _ _ mant_pos). split.
    - intros Hlt. destruct (decide (e < 0)); [by left|right]. assert (e = 0) as -> by lia.
      apply lt_IZR. rewrite mult_IZR. change (p2 (0 - 1)) with (/ (2 * 1))%R in Hlt. lra.
    - intros Hor. destruct (decide (e < 0)).
      + assert (p2 (e - 1) <= p2 (-2))%R by (apply p2_le; lia). change (p2 (-2)) with (/ (2 * (2 * 1)))%R in *. nra.
      + destruct Hor as [|Hor]; [lia|]. assert (e = 0) as -> by lia. apply IZR_lt in Hor. rewrite mult_IZR in Hor.
        change (p2 (0 - 1)) with (/ (2 * 1))%R. lra. }
  rewrite <- Hlast. split.
  - intros (j & n2 & u & _ & E & Hu & Hn2 & Hlt). pose proof (Hj j u (eq_sym E) Hu) as ->. apply p2_cancel in E as ->.
    by rewrite (rounds_to_unique _ _ _ _ _ Hn Hn2).
  - intros Hlt. exists (e - 1), n, v. split_and!; [lia|done|apply Hv..|done|done].
Qed.

(** A mantissa with its leading bit in place. *)
Definition normal (M : Z) : Prop := 2 ^ (F_SIZE - 2) <= M < 2 ^ (F_SIZE - 1).

Lemma normal_fits M : normal M -> fits (F_SIZE - 1) M.
Proof. intros [H1 H2]. split; [|done]. assert (0 < 2 ^ (F_SIZE - 2)) by (apply pow2_pos; sizes). lia. Qed.

Lemma divide_pow p q : 0 <= p <= q -> (2 ^ p | 2 ^ q).
Proof. intros H. exists (2 ^ (q - p)). rewrite <- Z.pow_add_r by lia. f_equal. lia. Qed.

Lemma normal_real M p v :
  normal M -> 0 <= p <= RND_SIZE - 1 -> stands_for p M (v * p2 RND_SIZE) ->
  (p2 MANT_SIZE <= v < p2 (MANT_SIZE + 1))%R.
Proof.
  intros [H1 H2] Hp H. pose proof (p2_pos RND_SIZE).
  assert (2 ^ p | 2 ^ (F_SIZE - 2)) as D1 by (apply divide_pow; sizes).
  assert (2 ^ p | 2 ^ (F_SIZE - 1)) as D2 by (apply divide_pow; sizes).
  pose proof (stands_le _ _ _ _ H D1 H1) as Hlo. destruct (H _ D2) as [Hhi _]. specialize (Hhi H2).
  rewrite <- !p2_Z in * by sizes.
  replace (F_SIZE - 2) with (MANT_SIZE + RND_SIZE) in Hlo by sizes.
  replace (F_SIZE - 1) with (MANT_SIZE + 1 + RND_SIZE) in Hhi by sizes. rewrite (p2_add MANT_SIZE) in Hlo. rewrite (p2_add (_ + 1)) in Hhi.
  split; [apply Rmult_le_reg_r with (p2 RND_SIZE)|apply Rmult_lt_reg_r with (p2 RND_SIZE)]; done.
Qed.

Lemma nz_iff (P : Prop) z : (z = 0 <-> P) -> (nz z = true <-> ~ P).
Proof. intros H. unfold nz. rewrite negb_true_iff, Z.eqb_neq. tauto. Qed.

Lemma round_tail_correct rm s e M p u fl (small : bool) :
  0 <= rm <= 4 -> s = 0 \/ s = 1 -> fits (F_SIZE - 1) M -> 1 <= e -> (e = 1 \/ 2 ^ (F_SIZE - 2) <= M) ->
  0 <= p <= RND_SIZE - 1 -> stands_for p M (u * p2 RND_SIZE) -> binade (e - 1) (u * p2 (e - 1)) ->
  (small = true <-> tiny rm s (u * p2 (e - 1))) ->
  let '(r, fl') :=
    round_tail s e M rm (if small && nz (M .& rnd_mask) then fl .| FFLAG_UNDERFLOW else fl) in
  correctly_rounded rm s (u * p2 (e - 1)) fl r fl'.
Proof.
  intros Hrm Hs HM He Hn Hp H Hb Ht. rewrite round_tail_eq by done.
  destruct (round_mant_correct rm s M p u Hrm Hs HM Hp H) as (Hr & Hx & _). cbv zeta in Hx.
  assert (Hres : forall r fl', (let bits := (e - 1) * 2 ^ MANT_SIZE + round_mant rm (rnd_addend s rm) M in
    if bits <? INF then r = signed s bits /\
      fl' = fl .| (if nz (M .& rnd_mask) then FFLAG_INEXACT .| (if small then FFLAG_UNDERFLOW else 0) else 0)
    else r = signed s (overflow_bits rm s) /\ fl' = fl .| (FFLAG_OVERFLOW .| FFLAG_INEXACT)) ->
    correctly_rounded rm s (u * p2 (e - 1)) fl r fl').
  { intros r fl' Hc. exists (e - 1), (round_mant rm (rnd_addend s rm) M), u, (nz (M .& rnd_mask)), small.
    split_and!; try done; try by apply Hb. by apply nz_iff. }
  cbv zeta in Hres. destruct (Z.ltb_spec ((e - 1) * 2 ^ MANT_SIZE + round_mant rm (rnd_addend s rm) M) INF) as [Hlt|Hge].
  - apply Hres. split; [done|]. destruct (nz _), small; cbn [andb]; rewrite ?Z.lor_0_r; try done.
    rewrite <- Z.lor_assoc. f_equal.
  - assert (small = false) as ->; [|apply Hres; split; [done|]; destruct (nz _); cbn [andb]; rewrite <- ?Z.lor_assoc; done].
    apply not_true_iff_false. rewrite Ht. apply not_tiny. left.
    destruct Hb as (_ & _ & [He1|Hb]).
    + destruct (mant_bounds rm s M Hrm Hs HM) as [[_ Hmax] _]. cbv zeta in Hmax. pose proof mant_pos. pose proof exp_pos.
      unfold INF in Hge. rewrite EXP_MASK_eq, He1 in Hge. nia.
    + eapply Rle_trans; [|exact Hb]. apply p2_le. lia.
Qed.

Lemma rshift_fits w M d : 1 <= w -> 0 <= d -> fits w M -> fits w (rshift_rnd M d).
Proof.
  intros Hw Hd HM. unfold rshift_rnd. destruct (d =? 0); [done|]. destruct (_ <=? d); [by apply fits_b2z|].
  apply fits_lor; [lia|apply fits_shiftr; done || lia|by apply fits_b2z].
Qed.

Lemma rshift_0 d : rshift_rnd 0 d = 0.
Proof. unfold rshift_rnd. repeat case_match; try done. by rewrite Z.shiftr_0_l. Qed.

(** The test for a carry out of the mantissa. *)
Lemma carry_test rm s M :
  0 <= rm <= 4 -> s = 0 \/ s = 1 -> fits (F_SIZE - 1) M ->
  F_UINT (M + rnd_addend s rm) < 2 ^ (F_SIZE - 1) <-> round_mant rm (rnd_addend s rm) M < 2 * 2 ^ MANT_SIZE.
Proof.
  intros Hrm Hs HM. rewrite addend_no_wrap by done. pose proof (rnd_addend_range s rm Hs).
  unfold round_mant. rewrite addend_no_wrap, Z.shiftr_div_pow2, ldiff_1 by (done || sizes).
  assert (0 < 2 ^ RND_SIZE) by (apply pow2_pos; sizes).
  assert (2 ^ (F_SIZE - 1) = 2 * 2 ^ MANT_SIZE * 2 ^ RND_SIZE) as ->.
  { rewrite <- Z.pow_succ_r, <- Z.pow_add_r by sizes. f_equal. sizes. }
  set (x := M + rnd_addend s rm). pose proof (Z.div_mod x (2 ^ RND_SIZE)). pose proof (Z.mod_pos_bound x (2 ^ RND_SIZE)).
  set (q := x / 2 ^ RND_SIZE) in *. pose proof (Z.div_mod q 2). pose proof (Z.mod_pos_bound q 2). cbv zeta.
  pose proof mant_pos. destruct (_ && _); split; intros; nia.
Qed.

Lemma stands_zero p y : stands_for p 0 y -> y = 0%R.
Proof. intros H. apply (H 0); [apply Z.divide_0_r|done]. Qed.

Lemma round_pack_subnormal rm s e M p v fl :
  0 <= rm <= 4 -> s = 0 \/ s = 1 -> normal M -> 0 <= p <= RND_SIZE - 1 -> e <= 0 ->
  stands_for p M (v * p2 RND_SIZE) ->
  let '(r, fl') := round_pack_sf s e M rm fl in correctly_rounded rm s (v * p2 (e - 1)) fl r fl'.
Proof.
  intros Hrm Hs HM Hp He H. rewrite round_pack_tail. rewrite (proj2 (Z.leb_le e 0)) by done. cbv zeta.
  pose proof (normal_fits M HM) as Hf.
  destruct (stands_rshift p M (v * p2 (e - 1) * p2 RND_SIZE) (1 - e)) as (p' & Hp' & H').
  { apply (fits_mono (F_SIZE - 1)); [lia|done]. }
  { lia. }
  { lia. }
  { rewrite Rmult_assoc, (Rmult_comm (p2 RND_SIZE)), <- Rmult_assoc, (Rmult_assoc v), <- p2_add.
    replace (e - 1 + (1 - e)) with 0 by lia. by rewrite p2_0, Rmult_1_r. }
  replace (v * p2 (e - 1))%R with (v * p2 (e - 1) * p2 (1 - 1))%R by (rewrite Z.sub_diag, p2_0; lra).
  assert (p2 (e - 1) <= p2 (-1))%R as Hhalf by (apply p2_le; lia). change (p2 (-1)) with (/ (2 * 1))%R in Hhalf.
  pose proof (p2_pos (e - 1)). pose proof (p2_pos (MANT_SIZE + 1)). assert (p' <= RND_SIZE - 1) by sizes.
  pose proof (normal_real _ _ _ HM Hp H) as Hv. pose proof (p2_pos MANT_SIZE).
  apply (round_tail_correct rm s 1 _ p'); try done; [apply rshift_fits; [sizes|lia|done]|by left|lia| |].
  - split; [lia|]. rewrite Z.sub_diag, p2_0, Rmult_1_r, Z.add_0_r. split; [nra|by left].
  - rewrite Z.sub_diag, p2_0, Rmult_1_r. destruct (round_mant_correct rm s M p v Hrm Hs Hf Hp H) as (Hn & _ & _).
    rewrite (tiny_iff _ _ _ _ _ He Hv Hn); [|apply (mant_bounds rm s M); done].
    rewrite orb_true_iff, !Z.ltb_lt, Z.shiftl_1_l, carry_test by done. done.
Qed.

Lemma round_pack_normal rm s e M p v fl :
  0 <= rm <= 4 -> s = 0 \/ s = 1 -> normal M -> 0 <= p <= RND_SIZE - 1 -> 1 <= e ->
  stands_for p M (v * p2 RND_SIZE) ->
  let '(r, fl') := round_pack_sf s e M rm fl in correctly_rounded rm s (v * p2 (e - 1)) fl r fl'.
Proof.
  intros Hrm Hs HM Hp He H. rewrite round_pack_tail. rewrite (proj2 (Z.leb_gt e 0)) by lia.
  pose proof (normal_real _ _ _ HM Hp H) as Hv. pose proof (p2_pos (e - 1)).
  assert (p2 (MANT_SIZE + (e - 1)) <= v * p2 (e - 1))%R as Hlo.
  { rewrite p2_add. apply Rmult_le_compat_r; [lra|apply Hv]. }
  pose proof (round_tail_correct rm s e M p v fl false) as Ht. cbn [andb] in Ht.
  apply Ht; try done; [by apply normal_fits|by right; apply HM| |].
  - split; [lia|]. split; [|by right]. rewrite p2_add. apply Rmult_lt_compat_r; [done|apply Hv].
  - split; [done|]. intros Ht'. exfalso. apply (not_tiny rm s (v * p2 (e - 1))); [|done]. left.
    eapply Rle_trans; [|exact Hlo]. apply p2_le. lia.
Qed.

(** A zero mantissa gives a zero, whatever the exponent. *)
Lemma round_pack_zero rm s e fl :
  0 <= rm <= 4 -> s = 0 \/ s = 1 -> round_pack_sf s e 0 rm fl = (signed s 0, fl).
Proof.
  intros Hrm Hs. assert (fits (F_SIZE - 1) 0) as Hf by (apply (fits_mono 0); [sizes|done]).
  assert (round_mant rm (rnd_addend s rm) 0 = 0) as En.
  { rewrite round_mant_int, Z.mod_0_l, Z.div_0_l by (done || apply Z.pow_nonzero; sizes). unfold round_int.
    rewrite (proj2 (Z.ltb_lt 0 _) half_pos). by repeat case_match. }
  rewrite round_pack_tail, rshift_0. unfold round_tail. rewrite En. cbn [Z.land nz negb Z.eqb]. rewrite andb_false_r.
  pose proof mant_pos. pose proof MANT_MASK_eq. rewrite (proj2 (Z.leb_le 0 MANT_MASK)) by lia.
  pose proof exp_pos. pose proof EXP_MASK_eq. rewrite pack_sf_eq, Z.mod_0_l by lia. by destruct (e <=? 0).
Qed.

Lemma zero_rounds rm s fl : correctly_rounded rm s 0 fl (signed s 0) fl.
Proof.
  exists 0, 0, 0%R, false, false. split_and!; try done; try (by rewrite p2_0, ?Rmult_1_r).
  - split; [done|]. split; [apply p2_pos|by left].
  - unfold rounds_to. repeat case_match; lra.
  - split; [done|]. intros Ht. exfalso. by apply (not_tiny rm s 0 (or_intror eq_refl)).
  - pose proof mant_pos. pose proof exp_pos. unfold INF. rewrite EXP_MASK_eq.
    cbv zeta. rewrite (proj2 (Z.ltb_lt _ _)) by nia. by rewrite Z.lor_0_r.
Qed.

(** [round_pack_sf] rounds the number its mantissa stands for. *)
Theorem round_pack_correct rm s e M p y fl :
  0 <= rm <= 4 -> s = 0 \/ s = 1 -> normal M \/ M = 0 -> 0 <= p <= RND_SIZE - 1 -> stands_for p M y ->
  let '(r, fl') := round_pack_sf s e M rm fl in
  correctly_rounded rm s (y * p2 (e - 1 - RND_SIZE)) fl r fl'.
Proof.
  intros Hrm Hs HM Hp H. destruct HM as [HM| -> ].
  2: { rewrite (stands_zero _ _ H), Rmult_0_l, round_pack_zero by done. apply zero_rounds. }
  set (v := (y * p2 (- RND_SIZE))%R).
  assert (y = v * p2 RND_SIZE)%R as Ey.
  { unfold v. rewrite Rmult_assoc, (Rmult_comm (p2 _)), p2_opp. lra. }
  assert (y * p2 (e - 1 - RND_SIZE) = v * p2 (e - 1))%R as ->.
  { rewrite Ey, Rmult_assoc, <- p2_add. do 2 f_equal. lia. }
  rewrite Ey in H. destruct (decide (e <= 0)).
  - by apply (round_pack_subnormal rm s e M p).
  - apply (round_pack_normal rm s e M p); try done. lia.
Qed.

(** ** [normalize_sf] *)

Lemma stands_0 M y : stands_for 0 M y -> y = IZR M.
Proof. intros H. apply (H M); [apply Z.divide_1_l|done]. Qed.

Lemma clz_shift M : 0 < M -> clz M - 1 = F_SIZE - 2 - Z.log2 M.
Proof. intros HM. unfold clz, clz_n. rewrite (proj2 (Z.eqb_neq M 0)) by lia. lia. Qed.

Lemma log2_lt M w : 0 < M < 2 ^ w -> 0 <= Z.log2 M < w.
Proof. intros [H1 H2]. split; [apply Z.log2_nonneg|by apply Z.log2_lt_pow2]. Qed.

Lemma normalized M : 0 < M -> fits (F_SIZE - 1) M -> normal (M * 2 ^ (F_SIZE - 2 - Z.log2 M)).
Proof.
  intros H0 [_ HM]. assert (0 <= Z.log2 M < F_SIZE - 1) by (apply log2_lt; lia). destruct (Z.log2_spec M H0) as [Hl Hu].
  assert (2 ^ (F_SIZE - 2) = 2 ^ Z.log2 M * 2 ^ (F_SIZE - 2 - Z.log2 M)) as E1
    by (rewrite <- Z.pow_add_r by lia; f_equal; lia).
  assert (2 ^ (F_SIZE - 1) = 2 ^ Z.succ (Z.log2 M) * 2 ^ (F_SIZE - 2 - Z.log2 M)) as E2
    by (rewrite <- Z.pow_add_r by lia; f_equal; lia).
  assert (0 < 2 ^ (F_SIZE - 2 - Z.log2 M)) by (apply pow2_pos; lia). split; nia.
Qed.

(** The assertion of [normalize_sf] holds for the mantissas it gets. *)
Lemma normalize_assert M : fits (F_SIZE - 1) M -> 0 <= clz M - (F_SIZE - 1 - IMANT_SIZE).
Proof.
  intros [H0 H1]. unfold IMANT_SIZE. destruct (decide (M = 0)) as [-> |].
  - unfold clz, clz_n. cbn [Z.eqb]. sizes.
  - replace (clz M - _) with (clz M - 1) by lia. rewrite clz_shift by lia.
    assert (0 <= Z.log2 M < F_SIZE - 1) by (apply log2_lt; lia). lia.
Qed.

Theorem normalize_correct rm s e M p y fl :
  0 <= rm <= 4 -> s = 0 \/ s = 1 -> fits (F_SIZE - 1) M -> 0 <= p -> stands_for p M y ->
  p = 0 \/ 2 ^ (F_SIZE - 1 - RND_SIZE + p) <= M ->
  let '(r, fl') := normalize_sf s e M rm fl in
  correctly_rounded rm s (y * p2 (e - 1 - RND_SIZE)) fl r fl'.
Proof.
  intros Hrm Hs HM Hp H Hpr. unfold normalize_sf, IMANT_SIZE. replace (F_SIZE - 1 - (F_SIZE - 2)) with 1 by lia.
  destruct (decide (M = 0)) as [-> |].
  { rewrite (stands_zero _ _ H), Rmult_0_l, Z.shiftl_0_l. unfold F_UINT, trunc.
    rewrite Z.mod_0_l by (apply Z.pow_nonzero; sizes). rewrite round_pack_zero by done. apply zero_rounds. }
  destruct HM as [H0 H1]. rewrite clz_shift by lia. assert (0 <= Z.log2 M < F_SIZE - 1) as Hl by (apply log2_lt; lia).
  pose proof (normalized M ltac:(lia) (conj H0 H1)) as HN. set (k := F_SIZE - 2 - Z.log2 M) in *.
  assert (0 <= k) by lia. rewrite Z.shiftl_mul_pow2 by done. unfold F_UINT.
  rewrite trunc_small by (apply (fits_mono (F_SIZE - 1)); [lia|by apply normal_fits]).
  assert (exists p', 0 <= p' <= RND_SIZE - 1 /\ stands_for p' (M * 2 ^ k) (y * p2 k)) as (p' & Hp' & H').
  { destruct Hpr as [-> | Hpr].
    - exists 0. split; [sizes|]. rewrite (stands_0 _ _ H), p2_Z, <- mult_IZR by done. apply stands_exact.
    - exists (p + k). split; [|by apply stands_shiftl]. split; [lia|].
      assert (F_SIZE - 1 - RND_SIZE + p <= Z.log2 M) by (apply Z.log2_le_pow2; lia). lia. }
  replace (y * p2 (e - 1 - RND_SIZE))%R with (y * p2 k * p2 (e - k - 1 - RND_SIZE))%R.
  - by apply (round_pack_correct rm s (e - k) (M * 2 ^ k) p'); [..|left| |].
  - rewrite Rmult_assoc, <- p2_add. do 2 f_equal. lia.
Qed.
End Round.
