(* ===== verification/FpArith.v ===== *)
(** * Addition, multiplication and division of floats

    A float is decoded into a sign and a not-a-number, an infinity or a finite
    magnitude; the specifications give the IEEE 754 result for each combination,
    with [correctly_rounded] where the operands are finite. *)

From Stdlib Require Import Reals Lra.
From S2P Require Import Prelude Cpu Softfp Rounding.

(** ** Decoding *)

Inductive fval := VNan (signaling : bool) | VInf | VFin (magnitude : Z).

Definition is_nan (u : fval) : bool := match u with VNan _ => true | _ => false end.
Definition is_signaling (u : fval) : bool := match u with VNan b => b | _ => false end.

Section Arith.
Context {fmt : Format} {ok : FormatOk fmt}.

(** The mantissa with its hidden bit and the exponent field of a finite float. *)
Definition sig_sf (a : Z) : Z := if exp_sf a =? 0 then mant_sf a else 2 ^ MANT_SIZE + mant_sf a.
Definition bexp_sf (a : Z) : Z := Z.max 1 (exp_sf a).

(** The magnitude of a finite float, in units of the least subnormal. *)
Definition mag_sf (a : Z) : Z := sig_sf a * 2 ^ (bexp_sf a - 1).

Definition decode (a : Z) : fval :=
  if exp_sf a =? EXP_MASK
  then if mant_sf a =? 0 then VInf else VNan (negb (Z.testbit a (MANT_SIZE - 1)))
  else VFin (mag_sf a).

(** A NaN operand: the canonical NaN; a signaling one raises the invalid flag. *)
Definition nan_result (signaling : bool) (fl r fl' : Z) : Prop :=
  r = F_QNAN /\ fl' = raise_if signaling FFLAG_INVALID_OP fl.

Definition signed_mag (s X : Z) : Z := if s =? 1 then - X else X.

Lemma sign_sf_range a : fits F_SIZE a -> sign_sf a = 0 \/ sign_sf a = 1.
Proof.
  intros Ha. assert (fits (F_SIZE - (F_SIZE - 1)) (sign_sf a)) as H by (apply fits_shiftr_sub; [sizes|done]).
  replace (F_SIZE - (F_SIZE - 1)) with 1 in H by lia. unfold fits in H. lia.
Qed.

Lemma land_EXP_MASK a : a .& EXP_MASK = a mod 2 ^ EXP_SIZE.
Proof. apply land_low. sizes. Qed.

Lemma exp_sf_range a : 0 <= exp_sf a <= EXP_MASK.
Proof.
  unfold exp_sf. rewrite land_EXP_MASK, EXP_MASK_eq. pose proof exp_pos.
  pose proof (Z.mod_pos_bound (a >> MANT_SIZE) (2 ^ EXP_SIZE)). lia.
Qed.

Lemma mant_sf_range a : 0 <= mant_sf a < 2 ^ MANT_SIZE.
Proof. unfold mant_sf. rewrite land_MANT_MASK. apply Z.mod_pos_bound, mant_pos. Qed.

(** The pattern without the sign. *)
Definition abs_sf (a : Z) : Z := exp_sf a * 2 ^ MANT_SIZE + mant_sf a.

Lemma abs_sf_mod a : abs_sf a = a mod 2 ^ (F_SIZE - 1).
Proof.
  unfold abs_sf, exp_sf, mant_sf. rewrite land_EXP_MASK, land_MANT_MASK, Z.shiftr_div_pow2, pow_F by sizes.
  pose proof mant_pos. pose proof exp_pos. rewrite (Z.mul_comm (2 ^ EXP_SIZE)), Z.rem_mul_r by lia. lia.
Qed.

Lemma unpack_eq a : fits F_SIZE a -> a = signed (sign_sf a) (abs_sf a).
Proof.
  intros Ha. unfold signed, sign_sf. rewrite abs_sf_mod, Z.shiftr_div_pow2 by sizes.
  rewrite Z.mul_comm. apply Z.div_mod, Z.pow_nonzero; sizes.
Qed.

(** *** What the tests of the code decide *)

Lemma isnan_decode a : isnan_sf a = match decode a with VNan _ => true | _ => false end.
Proof. unfold isnan_sf, decode, nz. destruct (_ =? EXP_MASK), (_ =? 0); done. Qed.

Lemma quiet_bit a : (a >> (MANT_SIZE - 1)) .& ((1 << (EXP_SIZE + 1)) - 1) = 2 * exp_sf a + b2z (Z.testbit a (MANT_SIZE - 1)).
Proof.
  rewrite land_low by sizes. unfold exp_sf. rewrite land_EXP_MASK.
  replace (a >> MANT_SIZE) with ((a >> (MANT_SIZE - 1)) / 2)
    by (change 2 with (2 ^ 1); rewrite <- Z.shiftr_div_pow2, Z.shiftr_shiftr by sizes; f_equal; lia).
  replace (b2z (Z.testbit a (MANT_SIZE - 1))) with ((a >> (MANT_SIZE - 1)) mod 2).
  - replace (EXP_SIZE + 1) with (Z.succ EXP_SIZE) by lia. rewrite Z.pow_succ_r by sizes. pose proof exp_pos.
    rewrite Z.rem_mul_r by lia. lia.
  - rewrite <- Z.bit0_mod, Z.shiftr_spec by lia. by rewrite Z.add_0_l.
Qed.

Lemma issignan_decode a : issignan_sf a = match decode a with VNan b => b | _ => false end.
Proof.
  unfold issignan_sf, decode, nz. rewrite quiet_bit. pose proof (exp_sf_range a).
  destruct (Z.eqb_spec (exp_sf a) EXP_MASK) as [->|], (mant_sf a =? 0), (Z.testbit a (MANT_SIZE - 1)); cbn [b2z negb];
    rewrite ?andb_false_r, ?andb_true_r; try done; first [apply Z.eqb_eq; lia | apply Z.eqb_neq; lia].
Qed.

Lemma decode_fin a : exp_sf a <> EXP_MASK -> decode a = VFin (mag_sf a).
Proof. intros H. unfold decode. by rewrite (proj2 (Z.eqb_neq _ _) H). Qed.

Lemma sig_range a : 0 <= sig_sf a < 2 * 2 ^ MANT_SIZE.
Proof. unfold sig_sf. pose proof (mant_sf_range a). case_match; lia. Qed.

Lemma mag_nonneg a : 0 <= mag_sf a.
Proof. unfold mag_sf, bexp_sf. pose proof (sig_range a). pose proof (pow2_pos (Z.max 1 (exp_sf a) - 1)). nia. Qed.

(** The magnitudes are ordered as the patterns. *)
Lemma mag_le a b : abs_sf b <= abs_sf a -> mag_sf b <= mag_sf a /\ exp_sf b <= exp_sf a.
Proof.
  intros H. pose proof (mant_sf_range a). pose proof (mant_sf_range b). pose proof (exp_sf_range a). pose proof (exp_sf_range b).
  assert (exp_sf b <= exp_sf a) by (unfold abs_sf in H; nia). split; [|done].
  unfold mag_sf. destruct (decide (bexp_sf a = bexp_sf b)) as [E|Hne].
  - rewrite E. apply Z.mul_le_mono_nonneg_r; [pose proof (pow2_pos (bexp_sf b - 1)); unfold bexp_sf in *; lia|].
    unfold sig_sf. unfold abs_sf, bexp_sf in *. destruct (Z.eqb_spec (exp_sf a) 0), (Z.eqb_spec (exp_sf b) 0); try lia.
    assert (exp_sf a = exp_sf b) as Ee by lia. rewrite Ee in H. lia.
  - assert (exp_sf a <> 0 /\ bexp_sf b + 1 <= bexp_sf a) as [Hn Hb] by (unfold bexp_sf in *; lia).
    pose proof (sig_range b). assert (2 ^ MANT_SIZE <= sig_sf a).
    { unfold sig_sf. rewrite (proj2 (Z.eqb_neq _ _) Hn). lia. }
    assert (1 <= bexp_sf b) by (unfold bexp_sf; lia).
    assert (2 * 2 ^ (bexp_sf b - 1) <= 2 ^ (bexp_sf a - 1)).
    { rewrite <- Z.pow_succ_r by lia. apply Z.pow_le_mono_r; lia. }
    pose proof (pow2_pos (bexp_sf b - 1)). nia.
Qed.

(** ** Exact results *)

Lemma rounds_exact rm s n : rounds_to rm s (IZR n) n.
Proof. unfold rounds_to. repeat case_match; lra. Qed.

(** A nonzero integer below the least normal number is tiny. *)
Lemma subnormal_tiny rm s m : 0 < m < 2 ^ MANT_SIZE -> tiny rm s (IZR m).
Proof.
  intros Hm. destruct (Z.log2_spec m) as [H1 H2]; [lia|]. assert (0 <= Z.log2 m < MANT_SIZE) as Hl by (by apply log2_lt).
  set (j := Z.log2 m - MANT_SIZE). assert (IZR m = IZR (m * 2 ^ (- j)) * p2 j)%R as E.
  { rewrite mult_IZR, <- p2_Z, Rmult_assoc, <- p2_add by lia. replace (- j + j) with 0 by lia. rewrite p2_0. lra. }
  exists j, (m * 2 ^ (- j)), (IZR (m * 2 ^ (- j))). split; [lia|]. split; [done|].
  rewrite !p2_Z by sizes. split; [|split; [apply rounds_exact|rewrite <- E; apply IZR_lt; lia]].
  assert (2 ^ MANT_SIZE = 2 ^ Z.log2 m * 2 ^ (- j)) as E1 by (rewrite <- Z.pow_add_r by lia; f_equal; lia).
  assert (2 ^ (MANT_SIZE + 1) = 2 ^ Z.succ (Z.log2 m) * 2 ^ (- j)) as E2 by (rewrite <- Z.pow_add_r by lia; f_equal; lia).
  pose proof (pow2_pos (- j) ltac:(lia)). split; [apply IZR_le|apply IZR_lt]; nia.
Qed.

(** A float is the rounding of its own value, without flags. *)
Lemma rounds_itself rm a fl :
  fits F_SIZE a -> exp_sf a <> EXP_MASK -> correctly_rounded rm (sign_sf a) (IZR (mag_sf a)) fl a fl.
Proof.
  intros Ha He. pose proof (mant_sf_range a) as Hm. pose proof (exp_sf_range a). pose proof mant_pos.
  assert (2 ^ (MANT_SIZE + 1) = 2 * 2 ^ MANT_SIZE) as Em by (rewrite Z.add_1_r; apply Z.pow_succ_r; sizes).
  pose proof (sig_range a). set (k := bexp_sf a - 1). assert (0 <= k) by (unfold k, bexp_sf; lia). pose proof (pow2_pos k).
  exists k, (sig_sf a), (IZR (sig_sf a)), false, ((exp_sf a =? 0) && nz (mant_sf a)).
  split_and!; [|..].
  - split; [done|]. unfold mag_sf. fold k. rewrite mult_IZR. rewrite !p2_Z by sizes.
    split; [rewrite <- mult_IZR; apply IZR_lt; rewrite Z.pow_add_r, Em by sizes; nia|].
    destruct (Z.eqb_spec (exp_sf a) 0) as [E|E]; [left; unfold k, bexp_sf; lia|right].
    rewrite <- mult_IZR. apply IZR_le. rewrite Z.pow_add_r by sizes. unfold sig_sf. rewrite (proj2 (Z.eqb_neq _ _) E). nia.
  - unfold mag_sf. fold k. by rewrite mult_IZR, p2_Z.
  - apply rounds_exact.
  - done.
  - unfold mag_sf, sig_sf, bexp_sf, nz. destruct (Z.eqb_spec (exp_sf a) 0) as [E|E]; cbn [negb andb orb].
    + rewrite E. change (2 ^ (Z.max 1 0 - 1)) with 1. rewrite Z.mul_1_r.
      destruct (Z.eqb_spec (mant_sf a) 0) as [-> |]; cbn [negb].
      * split; [done|]. intros Ht. exfalso. by apply (not_tiny rm (sign_sf a) 0); [right|].
      * split; [|done]. intros _. apply subnormal_tiny. lia.
    + split; [done|]. intros Ht. exfalso. apply (not_tiny rm (sign_sf a)) in Ht; [done|left].
      rewrite p2_Z by sizes. apply IZR_le. pose proof (pow2_pos (Z.max 1 (exp_sf a) - 1)). nia.
  - cbv zeta. assert (k * 2 ^ MANT_SIZE + sig_sf a = abs_sf a) as ->.
    { unfold k, bexp_sf, sig_sf, abs_sf. destruct (Z.eqb_spec (exp_sf a) 0) as [-> |]; [lia|]. rewrite Z.max_r by lia. lia. }
    rewrite (proj2 (Z.ltb_lt _ _)) by (unfold abs_sf, INF; nia). split; [by apply unpack_eq|]. by rewrite Z.lor_0_r.
Qed.

(** ** Addition *)

(** The sign of a sum: that of the exact value; an exact zero of opposite signs is
    negative in the mode towards minus infinity only. *)
Definition sum_sign (rm sa sb v : Z) : Z :=
  if v =? 0 then if sa =? sb then sa else b2z (rm =? RM_RDN) else b2z (v <? 0).

Definition add_spec (rm a b fl r fl' : Z) : Prop :=
  match decode a, decode b with
  | VNan x, VNan y => nan_result (x || y) fl r fl'
  | VNan x, _ | _, VNan x => nan_result x fl r fl'
  | VInf, VInf =>
      if sign_sf a =? sign_sf b then r = a /\ fl' = fl else nan_result true fl r fl'
  | VInf, VFin _ => r = a /\ fl' = fl
  | VFin _, VInf => r = b /\ fl' = fl
  | VFin X, VFin Y =>
      let v := signed_mag (sign_sf a) X + signed_mag (sign_sf b) Y in
      correctly_rounded rm (sum_sign rm (sign_sf a) (sign_sf b) v) (IZR (Z.abs v)) fl r fl'
  end.

(** The mantissa with three guard bits, for the exponent [bexp_sf]. *)
Lemma guarded a :
  (if exp_sf a =? 0 then (1, mant_sf a << 3) else (exp_sf a, (mant_sf a << 3) .| (1 << (MANT_SIZE + 3)))) =
  (bexp_sf a, 8 * sig_sf a).
Proof.
  unfold bexp_sf, sig_sf. pose proof (exp_sf_range a). pose proof (mant_sf_range a).
  destruct (Z.eqb_spec (exp_sf a) 0) as [E|E].
  - rewrite E, Z.shiftl_mul_pow2 by lia. f_equal. lia.
  - f_equal; [lia|]. rewrite Z.lor_comm, lor_disjoint.
    + rewrite Z.shiftl_mul_pow2, Z.pow_add_r by sizes. lia.
    + sizes.
    + unfold fits. rewrite Z.shiftl_mul_pow2, Z.pow_add_r by sizes. lia.
Qed.

Lemma pow_guard k : 0 <= k -> 2 ^ (MANT_SIZE + k) = 2 ^ k * 2 ^ MANT_SIZE.
Proof. intros Hk. rewrite Z.pow_add_r by sizes. lia. Qed.

Lemma guarded_fits a : fits F_SIZE (8 * sig_sf a).
Proof.
  pose proof (sig_range a). split; [lia|]. assert (2 ^ (MANT_SIZE + 4) <= 2 ^ F_SIZE) by (apply Z.pow_le_mono_r; sizes).
  rewrite pow_guard in * by lia. lia.
Qed.

(** The aligned smaller operand: exact, or with a sticky bit far below the larger one. *)
Lemma aligned a b :
  exp_sf b <= exp_sf a ->
  let d := bexp_sf a - bexp_sf b in
  let B := rshift_rnd (8 * sig_sf b) d in
  exists p, stands_for p B (IZR (8 * sig_sf b) * p2 (- d)) /\ 0 <= B < 16 * 2 ^ MANT_SIZE /\
    (p = 0 \/ p = 1 /\ B < 2 ^ MANT_SIZE <= sig_sf a).
Proof.
  intros He d B. assert (0 <= d) as Hd by (unfold d, bexp_sf; lia). pose proof (guarded_fits b) as Hf.
  pose proof (sig_range b) as Hs. pose proof mant_pos.
  assert (IZR (8 * sig_sf b) = IZR (8 * sig_sf b) * p2 (- d) * p2 d)%R as Ew.
  { rewrite Rmult_assoc, (Rmult_comm (p2 _)), p2_opp. lra. }
  assert (fits (MANT_SIZE + 4) B) as HB.
  { apply rshift_fits; [sizes|done|]. unfold fits. rewrite pow_guard by lia. lia. }
  unfold fits in HB. rewrite pow_guard in HB by lia. destruct (decide (d <= 3)).
  - exists 0. split; [|split; [lia|by left]]. unfold B.
    assert (2 ^ d | 8 * sig_sf b) as Hdiv by (apply Z.divide_mul_l, (divide_pow d 3); lia).
    rewrite rshift_exact by done. replace 0 with (d - d) by lia. apply stands_shiftr; [lia|done|].
    rewrite <- Ew. apply stands_exact.
  - exists 1. split; [|split; [lia|right]].
    + replace 1 with (Z.max 1 (0 - d)) by lia. unfold B. rewrite rshift_rnd_sticky by (done || lia).
      apply stands_sticky; [done|done|]. rewrite <- Ew. apply stands_exact.
    + split; [done|]. split.
      * unfold B. rewrite rshift_rnd_sticky by (done || lia). unfold sticky.
        assert (fits MANT_SIZE ((8 * sig_sf b) >> d)) as Hsh.
        { unfold fits. rewrite Z.shiftr_div_pow2 by lia. assert (2 ^ 4 <= 2 ^ d) by (apply Z.pow_le_mono_r; lia).
          split; [apply Z.div_pos; lia|]. apply Z.div_lt_upper_bound; [lia|]. nia. }
        assert (1 <= MANT_SIZE) by sizes. apply (fits_lor MANT_SIZE); [lia|done|by apply fits_b2z].
      * unfold sig_sf. assert (exp_sf a <> 0) as Hn by (unfold d, bexp_sf in *; pose proof (exp_sf_range b); lia).
        rewrite (proj2 (Z.eqb_neq _ _) Hn). pose proof (mant_sf_range a). lia.
Qed.

Lemma mag_real a : IZR (mag_sf a) = (IZR (sig_sf a) * p2 (bexp_sf a - 1))%R.
Proof. unfold mag_sf. rewrite mult_IZR, p2_Z; [done|]. unfold bexp_sf. lia. Qed.

Lemma guarded_real a : IZR (mag_sf a) = (IZR (8 * sig_sf a) * p2 (bexp_sf a - 4))%R.
Proof.
  rewrite mag_real, mult_IZR. replace (bexp_sf a - 1) with (3 + (bexp_sf a - 4)) by lia.
  rewrite p2_add. change (p2 3) with (2 * (2 * (2 * 1)))%R. lra.
Qed.

Lemma signed_mag_same s X Y : signed_mag s X + signed_mag s Y = signed_mag s (X + Y).
Proof. unfold signed_mag. case_match; lia. Qed.

Lemma signed_mag_opp s s' X Y :
  s = 0 \/ s = 1 -> s' = 0 \/ s' = 1 -> s <> s' -> signed_mag s X + signed_mag s' Y = signed_mag s (X - Y).
Proof. intros [-> | ->] [-> | ->] ?; unfold signed_mag; cbn [Z.eqb Pos.eqb]; lia. Qed.

Lemma abs_signed_mag s X : 0 <= X -> Z.abs (signed_mag s X) = X.
Proof. unfold signed_mag. case_match; lia. Qed.

Lemma sum_sign_nonzero rm s s' X :
  s = 0 \/ s = 1 -> 0 < X -> sum_sign rm s s' (signed_mag s X) = s.
Proof.
  intros [-> | ->] HX; unfold sum_sign, signed_mag; cbn [Z.eqb Pos.eqb].
  - rewrite (proj2 (Z.eqb_neq X 0)) by lia. by rewrite (proj2 (Z.ltb_ge X 0)) by lia.
  - rewrite (proj2 (Z.eqb_neq (- X) 0)) by lia. by rewrite (proj2 (Z.ltb_lt (- X) 0)) by lia.
Qed.

Lemma sum_sign_same rm s X : s = 0 \/ s = 1 -> 0 <= X -> sum_sign rm s s (signed_mag s X) = s.
Proof.
  intros Hs HX. destruct (decide (X = 0)) as [->|]; [|apply sum_sign_nonzero; lia].
  unfold sum_sign, signed_mag. rewrite Z.eqb_refl. by destruct (s =? 1).
Qed.

Lemma headroom : 32 * 2 ^ MANT_SIZE <= 2 ^ (F_SIZE - 1).
Proof. pose proof pow_F. pose proof exp_pos. pose proof mant_pos. nia. Qed.

Lemma add_finite_correct rm a b fl :
  0 <= rm <= 4 -> fits F_SIZE a -> fits F_SIZE b -> abs_sf b <= abs_sf a ->
  let '(r, fl') :=
    add_finite (sign_sf a) (exp_sf a) (mant_sf a << 3) (sign_sf b) (exp_sf b) (mant_sf b << 3) rm fl in
  let v := signed_mag (sign_sf a) (mag_sf a) + signed_mag (sign_sf b) (mag_sf b) in
  correctly_rounded rm (sum_sign rm (sign_sf a) (sign_sf b) v) (IZR (Z.abs v)) fl r fl'.
Proof.
  intros Hrm Ha Hb Hab. destruct (mag_le a b Hab) as [Hmag Hexp].
  pose proof (sign_sf_range a Ha) as Hsa. pose proof (sign_sf_range b Hb) as Hsb.
  destruct (aligned a b Hexp) as (p & Hst & HB & Hp). cbv zeta in *. unfold add_finite. rewrite !guarded.
  set (d := bexp_sf a - bexp_sf b) in *. set (B := rshift_rnd _ d) in *. set (A := 8 * sig_sf a).
  set (w := (IZR (8 * sig_sf b) * p2 (- d))%R) in *. pose proof mant_pos. pose proof (sig_range a).
  assert (IZR (mag_sf b) = w * p2 (bexp_sf a - 4))%R as Eb.
  { rewrite guarded_real. unfold w. rewrite Rmult_assoc, <- p2_add. do 2 f_equal. unfold d. lia. }
  assert (2 ^ p | A) as HA by (unfold A; destruct Hp as [->|[-> _]]; [apply Z.divide_1_l|exists (4 * sig_sf a); lia]).
  pose proof headroom. pose proof pow_F2.
  assert (0 <= A - B) as Hsub.
  { destruct Hp as [-> | [-> Hp]]; [|unfold A; lia]. apply le_IZR. rewrite minus_IZR, <- (stands_0 _ _ Hst).
    apply IZR_le in Hmag. rewrite Eb, guarded_real in Hmag. fold A in Hmag. pose proof (p2_pos (bexp_sf a - 4)). nra. }
  assert (Hres : forall s M y, s = 0 \/ s = 1 -> (M = A + B /\ y = (IZR A + w)%R \/ M = A - B /\ y = (IZR A - w)%R) ->
    let '(r, fl') := normalize_sf s (bexp_sf a + (RND_SIZE - 3)) (F_UINT M) rm fl in
    correctly_rounded rm s (y * p2 (bexp_sf a - 4)) fl r fl').
  { intros s M y Hs HM. unfold F_UINT. rewrite trunc_small by (unfold fits, A in *; lia).
    replace (bexp_sf a - 4) with (bexp_sf a + (RND_SIZE - 3) - 1 - RND_SIZE) by lia.
    apply (normalize_correct rm s _ M p); [done|done|unfold fits, A in *; lia|lia| |].
    - destruct HM as [[-> ->]|[-> ->]]; [by apply stands_add|by apply stands_sub].
    - destruct Hp as [-> | [-> Hp]]; [by left|right].
      replace (F_SIZE - 1 - RND_SIZE + 1) with (MANT_SIZE + 2) by sizes. rewrite pow_guard by lia. unfold A in *. lia. }
  pose proof (mag_nonneg b). destruct (Z.eqb_spec (sign_sf a) (sign_sf b)) as [Es|Es].
  - rewrite <- Es, signed_mag_same, abs_signed_mag by lia. rewrite sum_sign_same by (done || lia).
    rewrite plus_IZR, Eb, guarded_real, <- Rmult_plus_distr_r. by apply (Hres _ (A + B)); [|left].
  - rewrite signed_mag_opp, abs_signed_mag by (done || lia).
    destruct (stands_sub p B w A HA Hst 0 (Z.divide_0_r _)) as (_ & Hpos & Hzero).
    assert (IZR (mag_sf a - mag_sf b) = (IZR A - w) * p2 (bexp_sf a - 4))%R as Ediff.
    { rewrite minus_IZR, Eb, guarded_real. fold A. lra. }
    pose proof (p2_pos (bexp_sf a - 4)). unfold F_UINT in *.
    assert (trunc F_SIZE (A - B) = A - B) as ET by (apply trunc_small; unfold fits, A in *; lia).
    assert (forall b, b2z b = 0 \/ b2z b = 1) as Hbz by (intros []; auto).
    pose proof (Hres (if A - B =? 0 then b2z (rm =? RM_RDN) else sign_sf a) (A - B) _ ltac:(by destruct (A - B =? 0))
      (or_intror (conj eq_refl eq_refl))) as Hr.
    rewrite ET in *. replace (sum_sign _ _ _ _) with (if A - B =? 0 then b2z (rm =? RM_RDN) else sign_sf a).
    { rewrite Ediff. exact Hr. }
    destruct (Z.eqb_spec (A - B) 0) as [E0|E0].
    + assert (mag_sf a - mag_sf b = 0) as ->. { apply eq_IZR. rewrite Ediff, Hzero by done. lra. }
      unfold sum_sign, signed_mag. rewrite (proj2 (Z.eqb_neq _ _) Es). by destruct (sign_sf a =? 1).
    + rewrite sum_sign_nonzero; [done|done|]. apply lt_IZR. rewrite Ediff. specialize (Hpos ltac:(lia)). nra.
Qed.

Lemma abs_sf_ldiff a : fits F_SIZE a -> a .&~ SIGN_MASK = abs_sf a.
Proof.
  intros Ha. rewrite abs_sf_mod, <- Z.land_ones by sizes. unfold SIGN_MASK. apply Z.bits_inj'. intros k Hk.
  rewrite Z.ldiff_spec, shiftl_1_bit, Z.land_spec, Z.testbit_ones_nonneg by sizes.
  destruct (Z.ltb_spec k (F_SIZE - 1)).
  - by rewrite (proj2 (Z.eqb_neq _ _)) by lia.
  - destruct (Z.eqb_spec k (F_SIZE - 1)); [done|]. apply fits_testbit in Ha as [_ Ha]; [|sizes]. rewrite Ha by lia. done.
Qed.

Lemma decode_inf a : fits F_SIZE a -> decode a = VInf -> a = signed (sign_sf a) INF.
Proof.
  intros Ha H. rewrite (unpack_eq a Ha) at 1. f_equal. unfold decode in H. unfold abs_sf, INF.
  destruct (Z.eqb_spec (exp_sf a) EXP_MASK) as [->|]; [|done]. destruct (Z.eqb_spec (mant_sf a) 0) as [->|]; [lia|done].
Qed.

Lemma sum_sign_comm rm sa sb v : sum_sign rm sa sb v = sum_sign rm sb sa v.
Proof. unfold sum_sign. rewrite (Z.eqb_sym sb sa). by destruct (v =? 0), (Z.eqb_spec sa sb). Qed.

Lemma add_spec_comm rm a b fl r fl' :
  fits F_SIZE a -> fits F_SIZE b -> add_spec rm a b fl r fl' -> add_spec rm b a fl r fl'.
Proof.
  intros Ha Hb. unfold add_spec. destruct (decode a) eqn:Ea, (decode b) eqn:Eb; try done.
  - by rewrite orb_comm.
  - rewrite (Z.eqb_sym (sign_sf b)). destruct (Z.eqb_spec (sign_sf a) (sign_sf b)) as [E|]; [|done].
    intros [-> ->]. split; [|done]. rewrite (decode_inf a), (decode_inf b), E by done. done.
  - by rewrite sum_sign_comm, Z.add_comm.
Qed.

Lemma quiet_test a : has (mant_sf a << 3) (QNAN_MASK << 3) = Z.testbit a (MANT_SIZE - 1).
Proof.
  unfold has, QNAN_MASK, mant_sf. rewrite <- Z.shiftl_land. rewrite land_MANT_MASK.
  rewrite <- (has_bit a (MANT_SIZE - 1)) by sizes.
  replace (nz (((a mod 2 ^ MANT_SIZE) .& (1 << (MANT_SIZE - 1))) << 3)) with (has (a mod 2 ^ MANT_SIZE) (1 << (MANT_SIZE - 1))).
  - rewrite !has_bit by sizes. apply Z.mod_pow2_bits_low. lia.
  - unfold has, nz. f_equal. generalize ((a mod 2 ^ MANT_SIZE) .& (1 << (MANT_SIZE - 1))). intros x.
    rewrite Z.shiftl_mul_pow2 by lia. destruct (Z.eqb_spec x 0) as [->|]; [done|]. symmetry. apply Z.eqb_neq. lia.
Qed.

Lemma nz_shift3 x : nz (x << 3) = nz x.
Proof. unfold nz. f_equal. rewrite Z.shiftl_mul_pow2 by lia. destruct (Z.eqb_spec x 0) as [->|]; [done|apply Z.eqb_neq; lia]. Qed.

(** C33 Floating-point addition is IEEE 754 addition: for every pair of operands and
    every rounding mode, the result and the accrued flags are those of rounding
    the exact sum; NaNs, infinities, zeros and subnormals included. *)
Theorem add_sf_correct rm a b fl :
  0 <= rm <= 4 -> fits F_SIZE a -> fits F_SIZE b ->
  let '(r, fl') := add_sf a b rm fl in add_spec rm a b fl r fl'.
Proof.
  intros Hrm Ha Hb. unfold add_sf. rewrite !abs_sf_ldiff by done.
  assert (Hord : forall a b, fits F_SIZE a -> fits F_SIZE b -> abs_sf b <= abs_sf a ->
    let '(r, fl') :=
      if exp_sf a =? EXP_MASK then
        if nz (mant_sf a << 3) then
          (F_QNAN, raise_if (negb (has (mant_sf a << 3) (QNAN_MASK << 3)) || issignan_sf b) FFLAG_INVALID_OP fl)
        else if (exp_sf b =? EXP_MASK) && negb (sign_sf a =? sign_sf b) then (F_QNAN, fl .| FFLAG_INVALID_OP)
        else (a, fl)
      else add_finite (sign_sf a) (exp_sf a) (mant_sf a << 3) (sign_sf b) (exp_sf b) (mant_sf b << 3) rm fl in
    add_spec rm a b fl r fl').
  { clear a b Ha Hb. intros a b Ha Hb Hab. pose proof (mant_sf_range a). pose proof (mant_sf_range b).
    pose proof (exp_sf_range b). unfold add_spec. rewrite quiet_test, issignan_decode, nz_shift3.
    destruct (Z.eqb_spec (exp_sf a) EXP_MASK) as [Ea|Ea].
    - unfold nz, abs_sf in *. rewrite Ea in Hab. unfold decode. rewrite Ea, Z.eqb_refl.
      destruct (Z.eqb_spec (mant_sf a) 0) as [Ma|Ma]; cbn [negb].
      + destruct (Z.eqb_spec (exp_sf b) EXP_MASK) as [Eb|Eb]; cbn [andb]; [|done].
        rewrite Eb in Hab. rewrite (proj2 (Z.eqb_eq (mant_sf b) 0)) by lia.
        by destruct (sign_sf a =? sign_sf b).
      + destruct (exp_sf b =? EXP_MASK), (mant_sf b =? 0); unfold nan_result; rewrite ?orb_false_r; done.
    - assert (exp_sf b <> EXP_MASK) as Eb.
      { destruct (mag_le a b Hab) as [_ Hle]. pose proof (exp_sf_range a). lia. }
      rewrite !decode_fin by done. by apply add_finite_correct. }
  destruct (Z.ltb_spec (abs_sf a) (abs_sf b)).
  - specialize (Hord b a Hb Ha ltac:(lia)). cbv zeta in *. destruct (if _ =? _ then _ else _) as [r fl'].
    by apply add_spec_comm.
  - by apply (Hord a b).
Qed.

(** ** Multiplication *)

(** The exponent of the least subnormal. *)
Definition QMIN : Z := 2 - 2 ^ (EXP_SIZE - 1) - MANT_SIZE.

(** Operands that are not NaNs have [f]'s result. *)
Definition unless_nan (a b fl r fl' : Z) (f : fval -> fval -> Prop) : Prop :=
  match decode a, decode b with
  | VNan x, VNan y => nan_result (x || y) fl r fl'
  | VNan x, _ | _, VNan x => nan_result x fl r fl'
  | u, v => f u v
  end.

Definition mul_spec (rm a b fl r fl' : Z) : Prop :=
  let s := sign_sf a .^ sign_sf b in
  unless_nan a b fl r fl' (fun u v =>
    match u, v with
    | VFin X, VFin Y => correctly_rounded rm s (IZR X * IZR Y * p2 QMIN) fl r fl'
    | VFin X, _ | _, VFin X => if X =? 0 then nan_result true fl r fl' else r = signed s INF /\ fl' = fl
    | _, _ => r = signed s INF /\ fl' = fl
    end).

(** The normalised mantissa of a nonzero finite float. *)
Lemma norm_mant_eq a :
  mag_sf a <> 0 ->
  let '(e, m) := norm_mant (exp_sf a) (mant_sf a) in
  2 ^ MANT_SIZE <= m < 2 * 2 ^ MANT_SIZE /\ IZR (mag_sf a) = (IZR m * p2 (e - 1))%R.
Proof.
  intros Hnz. unfold norm_mant. pose proof (mant_sf_range a) as Hm. pose proof (exp_sf_range a). rewrite mag_real.
  unfold mag_sf, sig_sf, bexp_sf in *. destruct (Z.eqb_spec (exp_sf a) 0) as [E|E].
  - rewrite E in *. change (Z.max 1 0 - 1) with 0 in *. rewrite Z.mul_1_r in Hnz. unfold normalize_subnormal_sf, clz, clz_n.
    rewrite (proj2 (Z.eqb_neq _ _) Hnz). replace (MANT_SIZE - (F_SIZE - 1 - (F_SIZE - 1 - Z.log2 (mant_sf a))))
      with (MANT_SIZE - Z.log2 (mant_sf a)) by lia.
    assert (0 <= Z.log2 (mant_sf a) < MANT_SIZE) by (apply log2_lt; lia).
    assert (0 < mant_sf a) as Hpos by lia. destruct (Z.log2_spec _ Hpos) as [Hl Hu]. set (l := Z.log2 (mant_sf a)) in *.
    rewrite Z.shiftl_mul_pow2 by lia. assert (0 < 2 ^ (MANT_SIZE - l)) as Hk by (apply pow2_pos; lia).
    assert (2 ^ MANT_SIZE = 2 ^ l * 2 ^ (MANT_SIZE - l)) as Em by (rewrite <- Z.pow_add_r by lia; f_equal; lia).
    rewrite Z.pow_succ_r in Hu by lia. pose proof headroom. pose proof pow_F2. pose proof mant_pos.
    unfold F_UINT. rewrite trunc_small by (unfold fits; nia). split; [nia|].
    rewrite mult_IZR, <- p2_Z, Rmult_assoc, <- p2_add by lia. do 2 f_equal. lia.
  - split.
    + rewrite Z.lor_comm, lor_disjoint by (done || sizes). lia.
    + rewrite Z.lor_comm, lor_disjoint by (done || sizes). rewrite Z.mul_1_l. do 2 f_equal. lia.
Qed.

(** *** Double-width multiplication *)

Lemma lor_disjoint' a b m : 0 <= m -> fits m b -> (a * 2 ^ m) .| b = a * 2 ^ m + b.
Proof. intros Hm Hb. rewrite <- lor_disjoint by done. by rewrite Z.shiftl_mul_pow2. Qed.

(** Long multiplication in base [B]. *)
Lemma long_mul B a1 a0 b1 b0 :
  0 < B ->
  let r00 := a0 * b0 in let r01 := a0 * b1 in let r10 := a1 * b0 in let r11 := a1 * b1 in
  let c1 := r00 / B + r01 mod B + r10 mod B in
  let c2 := c1 / B + r01 / B + r10 / B + r11 mod B in
  ((c2 / B + r11 / B) * B + c2 mod B) * (B * B) + (c1 mod B * B + r00 mod B) = (a1 * B + a0) * (b1 * B + b0).
Proof.
  intros HB. cbv zeta. assert (forall x, x mod B = x - B * (x / B)) as E by (intros x; pose proof (Z.div_mod x B); lia).
  rewrite !E. ring.
Qed.

Lemma mul_u_half_correct a b :
  fits F_SIZE a -> fits F_SIZE b -> mul_u_half a b = (a * b / 2 ^ F_SIZE, a * b mod 2 ^ F_SIZE).
Proof.
  intros [Ha0 Ha1] [Hb0 Hb1]. pose proof size_even as Hev. fold FH_SIZE in Hev.
  assert (0 < FH_SIZE) by (pose proof exp_size_ok; pose proof mant_size_ok; unfold F_SIZE in *; lia).
  set (B := 2 ^ FH_SIZE). assert (2 ^ F_SIZE = B * B) as EB.
  { unfold B. rewrite <- Z.pow_add_r by lia. f_equal. lia. }
  assert (4 <= B) by (unfold B; apply (Z.pow_le_mono_r 2 2); sizes || (pose proof exp_size_ok; pose proof mant_size_ok; unfold F_SIZE in *; lia)).
  unfold mul_u_half, F_UINT, F_UHALF, trunc. rewrite !Z.shiftr_div_pow2, EB by lia. fold B. rewrite EB in *.
  assert (forall x, 0 <= x < B * B -> 0 <= x / B < B) as Hdiv.
  { intros x Hx. split; [apply Z.div_pos; lia|apply Z.div_lt_upper_bound; lia]. }
  assert (forall x, 0 <= x mod B < B) as Hmod by (intros; apply Z.mod_pos_bound; lia).
  pose proof (Hmod a). pose proof (Hmod b). rewrite (Z.mod_small (a / B)), (Z.mod_small (b / B)) by (apply Hdiv; lia).
  pose proof (Hdiv a ltac:(lia)). pose proof (Hdiv b ltac:(lia)).
  set (a1 := a / B) in *. set (a0 := a mod B) in *. set (b1 := b / B) in *. set (b0 := b mod B) in *.
  rewrite !(Z.mod_small (_ * _) (B * B)) by nia.
  pose proof (long_mul B a1 a0 b1 b0 ltac:(lia)) as HL. cbv zeta in HL.
  pose proof (Hdiv (a0 * b0) ltac:(nia)). pose proof (Hdiv (a0 * b1) ltac:(nia)). pose proof (Hdiv (a1 * b0) ltac:(nia)).
  pose proof (Hdiv (a1 * b1) ltac:(nia)).
  pose proof (Hmod (a0 * b1)). pose proof (Hmod (a1 * b0)). pose proof (Hmod (a1 * b1)). pose proof (Hmod (a0 * b0)).
  rewrite (Z.mod_small (a0 * b0 / B + _ + _)) by nia. set (c1 := a0 * b0 / B + _ + _) in *.
  assert (0 <= c1 / B < 4) by (split; [apply Z.div_pos|apply Z.div_lt_upper_bound]; lia).
  set (c2 := c1 / B + _ + _ + _) in *. assert (0 <= c2 < B * B) by (unfold c2; nia). rewrite (Z.mod_small c2) by lia.
  pose proof (Hmod c1). pose proof (Hmod c2). pose proof (Hdiv c2 ltac:(lia)).
  assert ((a1 * B + a0) * (b1 * B + b0) = a * b) as Eab.
  { f_equal; unfold a1, a0, b1, b0; rewrite Z.mul_comm; symmetry; apply Z.div_mod; lia. }
  rewrite Eab in HL. set (r3 := c2 / B + a1 * b1 / B) in *. set (lo := c1 mod B * B + a0 * b0 mod B) in *.
  assert (0 <= lo < B * B) by (unfold lo; nia). assert (0 <= r3 < B).
  { split; [lia|]. assert (a * b < (B * B) * (B * B)) by (apply Z.mul_lt_mono_nonneg; lia).
    destruct (Z.lt_ge_cases r3 B) as [|Hr3]; [done|]. exfalso. assert (B * B <= r3 * B) by (apply Z.mul_le_mono_nonneg_r; lia).
    assert ((B * B) * (B * B) <= (r3 * B + c2 mod B) * (B * B)) by (apply Z.mul_le_mono_nonneg_r; lia). lia. }
  assert (forall x, 0 <= x < B -> 0 <= x * B < B * B) as Hsh.
  { intros x Hx. split; [lia|]. apply Z.mul_lt_mono_pos_r; lia. }
  rewrite (Z.mod_small r3), !Z.shiftl_mul_pow2 by lia. fold B. rewrite !(Z.mod_small (_ * B)) by (by apply Hsh).
  assert (forall x y, 0 <= y < B -> (x * B) .| y = x * B + y) as Hlor by (intros; by apply lor_disjoint'; [lia|]).
  rewrite !Hlor by done. fold lo.
  f_equal; [apply (Z.div_unique_pos _ _ _ lo)|apply (Z.mod_unique_pos _ _ (r3 * B + c2 mod B))]; lia.
Qed.

Lemma mul_u_correct a b :
  fits F_SIZE a -> fits F_SIZE b -> mul_u a b = (a * b / 2 ^ F_SIZE, a * b mod 2 ^ F_SIZE).
Proof.
  intros Ha Hb. unfold mul_u. destruct F_ULONG; [|by apply mul_u_half_correct].
  unfold mul_u_wide, F_UINT, trunc. rewrite Z.shiftr_div_pow2 by sizes. destruct Ha, Hb.
  assert (0 < 2 ^ F_SIZE) by (apply pow2_pos; sizes). rewrite (Z.mod_small (_ / _)); [done|].
  split; [apply Z.div_pos; nia|apply Z.div_lt_upper_bound; nia].
Qed.

(** *** [mul_sf] *)

Lemma iszero_mag a : (exp_sf a =? 0) && (mant_sf a =? 0) = (mag_sf a =? 0).
Proof.
  unfold mag_sf, sig_sf, bexp_sf. pose proof (mant_sf_range a). pose proof (exp_sf_range a). pose proof mant_pos.
  pose proof (pow2_pos (Z.max 1 (exp_sf a) - 1)).
  destruct (Z.eqb_spec (exp_sf a) 0); cbn [andb]; symmetry.
  - destruct (Z.eqb_spec (mant_sf a) 0) as [-> |]; [done|]. apply Z.eqb_neq. nia.
  - apply Z.eqb_neq. nia.
Qed.

Lemma xor_sign s s' : s = 0 \/ s = 1 -> s' = 0 \/ s' = 1 -> s .^ s' = 0 \/ s .^ s' = 1.
Proof. intros [-> | ->] [-> | ->]; auto. Qed.

Lemma normal_shift m : 2 ^ MANT_SIZE <= m < 2 * 2 ^ MANT_SIZE -> normal (m * 2 ^ RND_SIZE).
Proof.
  intros Hm. unfold normal. replace (F_SIZE - 2) with (MANT_SIZE + RND_SIZE) by sizes.
  replace (F_SIZE - 1) with (Z.succ (MANT_SIZE + RND_SIZE)) by sizes. rewrite Z.pow_succ_r, Z.pow_add_r by sizes.
  assert (0 < 2 ^ RND_SIZE) by (apply pow2_pos; sizes). nia.
Qed.

Lemma prod_bounds A B a1 a2 b1 b2 : 0 <= a1 <= A -> A < a2 -> 0 <= b1 <= B -> B < b2 -> a1 * b1 <= A * B < a2 * b2.
Proof. intros. split; [apply Z.mul_le_mono_nonneg|apply Z.mul_lt_mono_nonneg]; lia. Qed.

Lemma mul_normal_correct rm s ea ma eb mb fl :
  0 <= rm <= 4 -> s = 0 \/ s = 1 -> 2 ^ MANT_SIZE <= ma < 2 * 2 ^ MANT_SIZE -> 2 ^ MANT_SIZE <= mb < 2 * 2 ^ MANT_SIZE ->
  let '(r, fl') :=
    let '(r_mant, r_mant_low) := mul_u (F_UINT (ma << RND_SIZE)) (F_UINT (mb << (RND_SIZE + 1))) in
    normalize_sf s (ea + eb - (1 << (EXP_SIZE - 1)) + 2) (r_mant .| b2z (nz r_mant_low)) rm fl in
  correctly_rounded rm s (IZR ma * p2 (ea - 1) * (IZR mb * p2 (eb - 1)) * p2 QMIN) fl r fl'.
Proof.
  intros Hrm Hs Ha Hb. assert (0 < 2 ^ RND_SIZE) by (apply pow2_pos; sizes). pose proof (normal_shift ma Ha) as [A1 A2].
  pose proof (normal_shift mb Hb) as [B1 B2]. pose proof pow_F2 as EF. pose proof mant_pos.
  assert (2 ^ (F_SIZE - 1) = 2 * 2 ^ (F_SIZE - 2)) as EF1 by (rewrite <- Z.pow_succ_r by sizes; f_equal; lia).
  rewrite !Z.shiftl_mul_pow2, Z.pow_add_r by sizes. change (2 ^ 1) with 2. rewrite (Z.mul_assoc mb).
  set (A := ma * 2 ^ RND_SIZE) in *. set (B := mb * 2 ^ RND_SIZE * 2). unfold F_UINT.
  rewrite !trunc_small by (unfold fits, B; nia). rewrite mul_u_correct by (unfold fits, B; nia).
  replace ((A * B / 2 ^ F_SIZE) .| b2z (nz (A * B mod 2 ^ F_SIZE))) with (sticky (A * B) F_SIZE)
    by (unfold sticky; rewrite Z.shiftr_div_pow2 by sizes; done).
  set (y := (IZR (A * B) * p2 (- F_SIZE))%R).
  assert (stands_for 1 (sticky (A * B) F_SIZE) y) as Hst.
  { replace 1 with (Z.max 1 (0 - F_SIZE)) by sizes. apply stands_sticky; [done|sizes|]. unfold y.
    rewrite Rmult_assoc, (Rmult_comm (p2 (- _))), p2_opp, Rmult_1_r. apply stands_exact. }
  assert (2 ^ (F_SIZE - 3) <= sticky (A * B) F_SIZE < 2 ^ (F_SIZE - 1)) as HM.
  { assert (2 ^ (F_SIZE - 2) = 2 * 2 ^ (F_SIZE - 3)) as EF3 by (rewrite <- Z.pow_succ_r by sizes; f_equal; lia).
    destruct (sticky_cases (A * B) F_SIZE) as (E & Hr & ->); [sizes|]. set (q := A * B / 2 ^ F_SIZE) in *.
    assert (2 ^ (F_SIZE - 3) <= q < 2 ^ (F_SIZE - 1)) as Hq.
    { destruct (prod_bounds A B (2 ^ (F_SIZE - 2)) (2 ^ (F_SIZE - 1)) (2 ^ (F_SIZE - 1)) (2 ^ F_SIZE)) as [P1 P2]; [unfold B; lia..|].
      rewrite EF3 in P1. split; [apply Z.div_le_lower_bound|apply Z.div_lt_upper_bound]; lia. }
    pose proof (Z.mod_pos_bound q 2 ltac:(lia)). pose proof (Z.div_mod q 2). destruct (nz _); lia. }
  replace (IZR ma * p2 (ea - 1) * (IZR mb * p2 (eb - 1)) * p2 QMIN)%R
    with (y * p2 (ea + eb - (1 * 2 ^ (EXP_SIZE - 1)) + 2 - 1 - RND_SIZE))%R.
  - apply (normalize_correct rm s _ _ 1); [done|done|unfold fits; lia|lia|done|right].
    assert (2 ^ (F_SIZE - 1 - RND_SIZE + 1) <= 2 ^ (F_SIZE - 3)) by (apply Z.pow_le_mono_r; sizes). lia.
  - unfold y, A, B. rewrite !mult_IZR, <- !p2_Z by sizes. rewrite <- p2_1.
    transitivity (IZR ma * IZR mb * (p2 RND_SIZE * p2 RND_SIZE * p2 1 * p2 (- F_SIZE) *
      p2 (ea + eb - 1 * 2 ^ (EXP_SIZE - 1) + 2 - 1 - RND_SIZE)))%R; [ring|].
    transitivity (IZR ma * IZR mb * (p2 (ea - 1) * p2 (eb - 1) * p2 QMIN))%R; [|ring]. f_equal.
    rewrite <- !p2_add. f_equal. unfold QMIN. sizes.
Qed.

Lemma nan_case a b fl f :
  isnan_sf a || isnan_sf b = true ->
  unless_nan a b fl F_QNAN (raise_if (issignan_sf a || issignan_sf b) FFLAG_INVALID_OP fl) f.
Proof.
  rewrite !isnan_decode, !issignan_decode. unfold unless_nan, nan_result.
  destruct (decode a), (decode b); try done; by rewrite ?orb_false_r.
Qed.

Lemma not_nan_case a b fl r fl' f :
  isnan_sf a || isnan_sf b = false -> f (decode a) (decode b) -> unless_nan a b fl r fl' f.
Proof. rewrite !isnan_decode. unfold unless_nan. by destruct (decode a), (decode b). Qed.

Lemma decode_not_nan a :
  isnan_sf a = false -> decode a = if exp_sf a =? EXP_MASK then VInf else VFin (mag_sf a).
Proof.
  rewrite isnan_decode. unfold decode. destruct (_ =? EXP_MASK); [|done]. by destruct (_ =? 0).
Qed.

Lemma inf_not_zero a : exp_sf a = EXP_MASK -> (mag_sf a =? 0) = false.
Proof.
  intros E. rewrite <- iszero_mag, E. pose proof EXP_MASK_eq. pose proof exp_pos.
  by rewrite (proj2 (Z.eqb_neq EXP_MASK 0)) by lia.
Qed.

Lemma pack_inf s : s = 0 \/ s = 1 -> pack_sf s EXP_MASK 0 = signed s INF.
Proof.
  intros Hs. pose proof EXP_MASK_eq. pose proof exp_pos. pose proof mant_pos.
  rewrite pack_sf_eq, Z.mod_0_l by lia. unfold INF. f_equal. lia.
Qed.

Lemma pack_zero s : s = 0 \/ s = 1 -> pack_sf s 0 0 = signed s 0.
Proof.
  intros Hs. pose proof EXP_MASK_eq. pose proof exp_pos. pose proof mant_pos. by rewrite pack_sf_eq, Z.mod_0_l by lia.
Qed.

(** C34 Floating-point multiplication is IEEE 754 multiplication, for all operands and
    rounding modes. *)
Theorem mul_sf_correct rm a b fl :
  0 <= rm <= 4 -> fits F_SIZE a -> fits F_SIZE b ->
  let '(r, fl') := mul_sf a b rm fl in mul_spec rm a b fl r fl'.
Proof.
  intros Hrm Ha Hb. unfold mul_sf, mul_spec. rewrite !iszero_mag.
  pose proof (xor_sign _ _ (sign_sf_range a Ha) (sign_sf_range b Hb)) as Hs. set (s := sign_sf a .^ sign_sf b) in *.
  rewrite pack_inf, pack_zero by done.
  destruct (isnan_sf a || isnan_sf b) eqn:En.
  { destruct ((exp_sf a =? EXP_MASK) || (exp_sf b =? EXP_MASK)) eqn:Ee; [by apply nan_case|]. exfalso.
    unfold isnan_sf in En. apply orb_false_iff in Ee as [E1 E2]. by rewrite E1, E2 in En. }
  assert (Hnn : forall r fl' f, f (decode a) (decode b) -> unless_nan a b fl r fl' f) by (intros; by apply not_nan_case).
  apply orb_false_iff in En as [Na Nb]. rewrite (decode_not_nan a), (decode_not_nan b) in Hnn by done.
  destruct (Z.eqb_spec (exp_sf a) EXP_MASK) as [Ea|Ea], (Z.eqb_spec (exp_sf b) EXP_MASK) as [Eb|Eb]; cbn [orb andb].
  - rewrite (inf_not_zero a), (inf_not_zero b) by done. by apply Hnn.
  - rewrite orb_false_r. destruct (mag_sf b =? 0) eqn:E; apply Hnn; by rewrite E.
  - destruct (mag_sf a =? 0) eqn:E; apply Hnn; by rewrite E.
  - destruct (Z.eqb_spec (mag_sf a) 0) as [Za|Za].
    { apply Hnn. rewrite Za, Rmult_0_l, Rmult_0_l. apply zero_rounds. }
    pose proof (norm_mant_eq a Za) as Ma. destruct (norm_mant (exp_sf a) (mant_sf a)) as [ea ma].
    destruct (Z.eqb_spec (mag_sf b) 0) as [Zb|Zb].
    { apply Hnn. rewrite Zb, Rmult_0_r, Rmult_0_l. apply zero_rounds. }
    pose proof (norm_mant_eq b Zb) as Mb. destruct (norm_mant (exp_sf b) (mant_sf b)) as [eb mb].
    destruct Ma as [Ma Ea'], Mb as [Mb Eb']. pose proof (mul_normal_correct rm s ea ma eb mb fl Hrm Hs Ma Mb) as Hm.
    rewrite <- Ea', <- Eb' in Hm. cbv zeta in *. destruct (mul_u _ _) as [hi lo]. destruct (normalize_sf _ _ _ _ _) as [r fl'].
    by apply Hnn.
Qed.
End Arith.

(** [1 + 2^-24] rounded up, in single precision. *)
Lemma add_sf_correct_witness :
  add_spec (fmt := sf32) RM_RUP 0x3f800000 0x33800000 0 0x3f800001 FFLAG_INEXACT.
Proof.
  assert (add_sf (fmt := sf32) 0x3f800000 0x33800000 RM_RUP 0 = (0x3f800001, FFLAG_INEXACT)) as E by (vm_compute; reflexivity).
  pose proof (add_sf_correct (fmt := sf32) RM_RUP 0x3f800000 0x33800000 0) as H. rewrite E in H.
  apply H; [unfold RM_RUP; lia|split; vm_compute; congruence..].
Defined.

(** The square of the smallest normal double underflows to zero. *)
Lemma mul_sf_correct_witness :
  mul_spec (fmt := sf64) RM_RNE (1 << 52) (1 << 52) 0 0 (FFLAG_UNDERFLOW .| FFLAG_INEXACT).
Proof.
  assert (mul_sf (fmt := sf64) (1 << 52) (1 << 52) RM_RNE 0 = (0, FFLAG_UNDERFLOW .| FFLAG_INEXACT)) as E
    by (vm_compute; reflexivity).
  pose proof (mul_sf_correct (fmt := sf64) RM_RNE (1 << 52) (1 << 52) 0) as H. rewrite E in H.
  apply H; [unfold RM_RNE; lia|split; vm_compute; congruence..].
Defined.
