(* ===== verification/FpDiv.v ===== *)
(** * Division and square root of floats *)

From Stdlib Require Import Reals Lra.
From S2P Require Import Prelude Cpu Softfp Rounding FpArith.

Section Div.
Context {fmt : Format} {ok : FormatOk fmt}.

(** ** Double-width division *)

Lemma shift_in x t : t = 0 \/ t = 1 -> F_UINT (x << 1) .| t = (2 * x + t) mod 2 ^ F_SIZE.
Proof.
  intros Ht. unfold F_UINT, trunc. pose proof pow_F2 as EF. assert (0 < 2 ^ (F_SIZE - 1)) by (apply pow2_pos; sizes).
  rewrite Z.shiftl_mul_pow2 by lia. change (2 ^ 1) with 2. rewrite EF, (Z.mul_comm x), Zmult_mod_distr_l.
  rewrite (Z.mul_comm 2 (x mod _)). pose proof (lor_disjoint' (x mod 2 ^ (F_SIZE - 1)) t 1) as HL.
  change (2 ^ 1) with 2 in HL. rewrite HL by (unfold fits; lia). assert (0 <= x mod 2 ^ (F_SIZE - 1) < 2 ^ (F_SIZE - 1)) by (apply Z.mod_pos_bound; lia).
  pose proof (Z.div_mod x (2 ^ (F_SIZE - 1))).
  apply (Z.mod_unique_pos _ _ (x / 2 ^ (F_SIZE - 1))); lia.
Qed.

Lemma divrem_loop_correct n : forall a1 a0 b D Q,
  Z.of_nat n <= F_SIZE -> 0 <= a1 < b -> b < 2 ^ F_SIZE ->
  a0 = D * 2 ^ (F_SIZE - Z.of_nat n) + Q -> 0 <= D < 2 ^ Z.of_nat n -> 0 <= Q < 2 ^ (F_SIZE - Z.of_nat n) ->
  divrem_loop n a1 a0 b =
    (Q * 2 ^ Z.of_nat n + (a1 * 2 ^ Z.of_nat n + D) / b, (a1 * 2 ^ Z.of_nat n + D) mod b).
Proof.
  induction n as [|n IH]; intros a1 a0 b D Q Hn Ha Hb E HD HQ.
  - cbn [divrem_loop]. change (Z.of_nat 0) with 0 in *. rewrite Z.pow_0_r in *. assert (D = 0) as -> by lia.
    rewrite Z.add_0_r, Z.div_small, Z.mod_small by lia. rewrite E. f_equal; lia.
  - cbn [divrem_loop]. rewrite Nat2Z.inj_succ in *. set (k := Z.of_nat n) in *.
    assert (0 <= k) by lia. rewrite Z.pow_succ_r in * by lia.
    assert (2 ^ (F_SIZE - k) = 2 * 2 ^ (F_SIZE - Z.succ k)) as Ek by (rewrite <- Z.pow_succ_r by lia; f_equal; lia).
    set (R := 2 ^ (F_SIZE - Z.succ k)) in *. assert (0 < R) by (apply pow2_pos; lia).
    assert (0 < 2 ^ k) by (apply pow2_pos; lia).
    assert (2 ^ F_SIZE = 2 * 2 ^ k * R) as EF.
    { unfold R. rewrite <- Z.pow_succ_r, <- Z.pow_add_r by lia. f_equal. lia. }
    set (t := D / 2 ^ k). set (D' := D mod 2 ^ k).
    assert (D = t * 2 ^ k + D') as ED by (unfold t, D'; pose proof (Z.div_mod D (2 ^ k)); lia).
    assert (0 <= D' < 2 ^ k) as HD' by (apply Z.mod_pos_bound; lia). assert (t = 0 \/ t = 1) as Ht by nia.
    assert (a0 >> (F_SIZE - 1) = t) as ->.
    { rewrite Z.shiftr_div_pow2 by sizes. symmetry. apply (Z.div_unique_pos _ _ _ (D' * R + Q)); [|].
      - pose proof pow_F2. nia.
      - pose proof pow_F2. subst a0. nia. }
    rewrite !shift_in by auto. set (v := 2 * a1 + t).
    assert (0 <= v < 2 * b) as Hv by (unfold v; lia). assert (2 ^ F_SIZE <> 0) by lia.
    assert (nz (a1 >> (F_SIZE - 1)) || (b <=? v mod 2 ^ F_SIZE) = (b <=? v)) as ->.
    { unfold nz. rewrite Z.shiftr_div_pow2 by sizes. pose proof pow_F2 as EF2.
      assert (0 < 2 ^ (F_SIZE - 1)) by (apply pow2_pos; sizes). destruct (Z.lt_ge_cases a1 (2 ^ (F_SIZE - 1))).
      - rewrite Z.div_small by lia. cbn [Z.eqb negb orb]. by rewrite Z.mod_small by (unfold v; lia).
      - assert (1 <= a1 / 2 ^ (F_SIZE - 1)) by (apply Z.div_le_lower_bound; lia).
        rewrite (proj2 (Z.eqb_neq _ _)) by lia. symmetry. apply Z.leb_le. unfold v. lia. }
    assert (Hstep : forall qb r, qb = 0 \/ qb = 1 -> 0 <= r < b -> v = qb * b + r ->
      divrem_loop n r ((2 * a0 + qb) mod 2 ^ F_SIZE) b =
      (Q * (2 * 2 ^ k) + (a1 * (2 * 2 ^ k) + D) / b, (a1 * (2 * 2 ^ k) + D) mod b)).
    { intros qb r Hqb Hr Ev. rewrite (IH r _ b D' (2 * Q + qb)); [|lia|done|done| |done|rewrite Ek; lia].
      2: { rewrite Ek. symmetry. apply (Z.mod_unique_pos _ _ t); [rewrite EF; nia|]. rewrite E, ED, EF. ring. }
      replace (a1 * (2 * 2 ^ k) + D) with (r * 2 ^ k + D' + qb * 2 ^ k * b) by (rewrite ED; unfold v in Ev; nia).
      rewrite Z.div_add, Z.mod_add by lia. f_equal. lia. }
    destruct (Z.leb_spec b v).
    + rewrite <- (Hstep 1 (v - b)) by (auto || lia). f_equal. unfold F_UINT, trunc. rewrite Zminus_mod_idemp_l. apply Z.mod_small. lia.
    + rewrite <- (Hstep 0 v) by (auto || lia). f_equal. apply Z.mod_small. lia.
Qed.

Lemma divrem_u_correct ah al b :
  0 <= ah < b -> b < 2 ^ F_SIZE -> fits F_SIZE al ->
  let a := ah * 2 ^ F_SIZE + al in divrem_u ah al b = (a / b, a mod b).
Proof.
  intros Ha Hb Hal. cbv zeta. unfold divrem_u. destruct F_ULONG.
  - unfold divrem_u_wide. rewrite lor_disjoint by (done || sizes). unfold F_UINT. destruct Hal.
    rewrite !trunc_small; [done| |].
    + pose proof (Z.mod_pos_bound (ah * 2 ^ F_SIZE + al) b). unfold fits. lia.
    + split; [apply Z.div_pos; nia|apply Z.div_lt_upper_bound; nia].
  - unfold divrem_u_loop. assert (0 <= F_SIZE) by sizes.
    rewrite (divrem_loop_correct (Z.to_nat F_SIZE) ah al b al 0); rewrite ?Z2Nat.id, ?Z.sub_diag by done; try done; lia.
Qed.

(** A quotient with a sticky bit stands for the exact quotient. *)
Definition sticky_quot (N b : Z) : Z := if nz (N mod b) then N / b + 1 - (N / b) mod 2 else N / b.

Lemma stands_quot N b y : 0 < b -> (y * IZR b = IZR N)%R -> stands_for 1 (sticky_quot N b) y.
Proof.
  intros Hb Ey t [m ->]. change (2 ^ 1) with 2. apply IZR_lt in Hb as Hb'.
  pose proof (Z.div_mod N b). pose proof (Z.mod_pos_bound N b Hb). unfold sticky_quot.
  set (q := N / b) in *. set (r := N mod b) in *. pose proof (Z.mod_pos_bound q 2 ltac:(lia)). pose proof (Z.div_mod q 2).
  assert (Hcmp : forall z, (N < z * b -> (y < IZR z)%R) /\ (z * b < N -> (IZR z < y)%R) /\ (N = z * b -> y = IZR z)).
  { intros z. split_and!; intros Hz.
    - apply IZR_lt in Hz. rewrite mult_IZR, <- Ey in Hz. by apply Rmult_lt_reg_r in Hz.
    - apply IZR_lt in Hz. rewrite mult_IZR, <- Ey in Hz. by apply Rmult_lt_reg_r in Hz.
    - rewrite Hz, mult_IZR in Ey. apply Rmult_eq_reg_r in Ey; lra. }
  destruct (Hcmp (m * 2)) as (C1 & C2 & C3). unfold nz. destruct (Z.eqb_spec r 0); cbn [negb];
    (split_and!; intros; [apply C1|apply C2|apply C3]; nia).
Qed.

Definition div_spec (rm a b fl r fl' : Z) : Prop :=
  let s := sign_sf a .^ sign_sf b in
  unless_nan a b fl r fl' (fun u v =>
    match u, v with
    | VFin X, VFin Y =>
        if Y =? 0 then
          if X =? 0 then nan_result true fl r fl' else r = signed s INF /\ fl' = fl .| FFLAG_DIVIDE_ZERO
        else correctly_rounded rm s (IZR X / IZR Y * p2 (- QMIN)) fl r fl'
    | VFin _, _ => r = signed s 0 /\ fl' = fl
    | _, VFin _ => r = signed s INF /\ fl' = fl
    | _, _ => nan_result true fl r fl'
    end).

Lemma div_normal_correct rm s ea ma eb mb fl :
  0 <= rm <= 4 -> s = 0 \/ s = 1 -> 2 ^ MANT_SIZE <= ma < 2 * 2 ^ MANT_SIZE -> 2 ^ MANT_SIZE <= mb < 2 * 2 ^ MANT_SIZE ->
  let '(r, fl') :=
    let '(r_mant, r) := divrem_u ma 0 (F_UINT (mb << 2)) in
    normalize_sf s (ea - eb + (1 << (EXP_SIZE - 1)) - 1) (if nz r then r_mant .| 1 else r_mant) rm fl in
  correctly_rounded rm s (IZR ma * p2 (ea - 1) / (IZR mb * p2 (eb - 1)) * p2 (- QMIN)) fl r fl'.
Proof.
  intros Hrm Hs Ha Hb. pose proof mant_pos. pose proof headroom. pose proof pow_F2.
  rewrite (Z.shiftl_mul_pow2 mb) by lia. change (2 ^ 2) with 4. unfold F_UINT. rewrite trunc_small by (unfold fits; lia).
  rewrite divrem_u_correct by (unfold fits; lia). rewrite Z.add_0_r. set (N := ma * 2 ^ F_SIZE). set (b := mb * 4).
  assert ((if nz (N mod b) then (N / b) .| 1 else N / b) = sticky_quot N b) as ->.
  { unfold sticky_quot. destruct (nz _); [|done]. apply (lor_bit _ true). }
  assert (IZR mb <> 0)%R by (apply not_0_IZR; lia). pose proof (p2_pos (ea - 1)). pose proof (p2_pos (eb - 1)).
  set (y := (IZR ma / IZR mb * p2 (F_SIZE - 2))%R).
  assert (stands_for 1 (sticky_quot N b) y) as Hst.
  { apply stands_quot; [unfold b; lia|]. unfold y, N, b. rewrite !mult_IZR, <- p2_Z by sizes.
    replace (p2 F_SIZE) with (p2 (F_SIZE - 2) * p2 2)%R by (rewrite <- p2_add; f_equal; lia).
    rewrite (p2_Z 2) by lia. change (2 ^ 2) with 4. field. done. }
  assert (2 ^ (F_SIZE - 3) <= sticky_quot N b < 2 ^ (F_SIZE - 1)) as HM.
  { assert (2 ^ (F_SIZE - 1) = 4 * 2 ^ (F_SIZE - 3)) as E3.
    { change 4 with (2 ^ 2). rewrite <- Z.pow_add_r by sizes. f_equal. lia. }
    assert (0 < 2 ^ (F_SIZE - 3)) by (apply pow2_pos; sizes).
    assert (2 ^ (F_SIZE - 3) <= N / b < 2 ^ (F_SIZE - 1)) as Hq.
    { split; [apply Z.div_le_lower_bound|apply Z.div_lt_upper_bound]; unfold N, b; try lia; nia. }
    unfold sticky_quot. pose proof (Z.mod_pos_bound (N / b) 2 ltac:(lia)). pose proof (Z.div_mod (N / b) 2).
    destruct (nz _); lia. }
  replace (IZR ma * p2 (ea - 1) / (IZR mb * p2 (eb - 1)) * p2 (- QMIN))%R
    with (y * p2 (ea - eb + (1 << (EXP_SIZE - 1)) - 1 - 1 - RND_SIZE))%R.
  - apply (normalize_correct rm s _ _ 1); [done|done|unfold fits; lia|lia|done|right].
    assert (2 ^ (F_SIZE - 1 - RND_SIZE + 1) <= 2 ^ (F_SIZE - 3)) by (apply Z.pow_le_mono_r; sizes). lia.
  - unfold y. rewrite Z.shiftl_1_l. replace (ea - 1) with ((ea - eb) + (eb - 1)) by lia. rewrite p2_add.
    transitivity (IZR ma / IZR mb * (p2 (ea - eb) * p2 (- QMIN)))%R; [|field; lra]. rewrite <- p2_add.
    rewrite Rmult_assoc, <- p2_add. do 2 f_equal. unfold QMIN. sizes.
Qed.

(** C35 Floating-point division is IEEE 754 division, for all operands and rounding
    modes, division by zero included. *)
Theorem div_sf_correct rm a b fl :
  0 <= rm <= 4 -> fits F_SIZE a -> fits F_SIZE b ->
  let '(r, fl') := div_sf a b rm fl in div_spec rm a b fl r fl'.
Proof.
  intros Hrm Ha Hb. unfold div_sf, div_spec. rewrite !iszero_mag.
  pose proof (xor_sign _ _ (sign_sf_range a Ha) (sign_sf_range b Hb)) as Hs. set (s := sign_sf a .^ sign_sf b) in *.
  rewrite pack_inf, pack_zero by done.
  destruct (isnan_sf a || isnan_sf b) eqn:En.
  { pose proof (fun f => nan_case a b fl f En) as Hn. unfold isnan_sf in *.
    destruct (exp_sf a =? EXP_MASK), (exp_sf b =? EXP_MASK), (nz (mant_sf a)), (nz (mant_sf b)); try done; apply Hn. }
  assert (Hnn : forall r fl' f, f (decode a) (decode b) -> unless_nan a b fl r fl' f) by (intros; by apply not_nan_case).
  apply orb_false_iff in En as [Na Nb]. rewrite (decode_not_nan a), (decode_not_nan b), Nb in * by done.
  unfold isnan_sf in Na, Nb.
  destruct (Z.eqb_spec (exp_sf a) EXP_MASK) as [Ea|Ea]; cbn [andb] in Na; [rewrite Na; cbn [orb]|].
  { by destruct (exp_sf b =? EXP_MASK); apply Hnn. }
  destruct (Z.eqb_spec (exp_sf b) EXP_MASK) as [Eb|Eb]; cbn [andb] in Nb; [rewrite Nb; by apply Hnn|].
  destruct (Z.eqb_spec (mag_sf b) 0) as [Zb|Zb].
  { rewrite Zb in Hnn. by destruct (mag_sf a =? 0) eqn:Za; apply Hnn; rewrite Za. }
  pose proof (norm_mant_eq b Zb) as Mb. destruct (norm_mant (exp_sf b) (mant_sf b)) as [eb mb].
  rewrite <- (Z.eqb_neq) in Zb.
  destruct (Z.eqb_spec (mag_sf a) 0) as [Za|Za].
  { apply Hnn. rewrite Zb, Za. unfold Rdiv. rewrite !Rmult_0_l. apply zero_rounds. }
  pose proof (norm_mant_eq a Za) as Ma. destruct (norm_mant (exp_sf a) (mant_sf a)) as [ea ma].
  destruct Ma as [Ma Ea'], Mb as [Mb Eb']. pose proof (div_normal_correct rm s ea ma eb mb fl Hrm Hs Ma Mb) as Hm.
  rewrite <- Ea', <- Eb' in Hm. cbv zeta in *. destruct (divrem_u _ _ _) as [hi lo]. destruct (normalize_sf _ _ _ _ _) as [r fl'].
  apply Hnn. by rewrite Zb.
Qed.

(** ** Square root

    Newton's iteration from above: each step keeps [s * s >= a] until the floor of the
    root, and more than halves the distance to it. *)

Lemma newton_step_ge a s : 0 <= a -> 0 < s -> Z.sqrt a <= (a / s + s) / 2.
Proof.
  intros Ha Hs. apply Z.div_le_lower_bound; [lia|]. set (q := a / s).
  assert (a = s * (a / s) + a mod s) as E by (apply Z.div_mod; lia). pose proof (Z.mod_pos_bound a s Hs). fold q in E.
  destruct (Z.sqrt_spec a Ha) as [Hlo _]. set (r := Z.sqrt a) in *. pose proof (Z.sqrt_nonneg a).
  assert (r * r < s * (q + 1)) by lia. destruct (Z.le_gt_cases (2 * r) (q + s)) as [|Hc]; [done|exfalso].
  assert (0 <= q) by (apply Z.div_pos; lia).
  assert ((q + 1 + s) * (q + 1 + s) <= (2 * r) * (2 * r)) by (apply Z.mul_le_mono_nonneg; lia).
  pose proof (Z.square_nonneg (q + 1 - s)). lia.
Qed.

Lemma newton_step_gap a s :
  0 <= a -> Z.sqrt a < s -> 2 * ((a / s + s) / 2 - Z.sqrt a) <= s - Z.sqrt a.
Proof.
  intros Ha Hs. pose proof (Z.sqrt_nonneg a). assert (a / s <= Z.sqrt a).
  { destruct (Z.sqrt_spec a Ha) as [_ Hhi]. apply Z.lt_succ_r. apply Z.div_lt_upper_bound; [lia|]. nia. }
  pose proof (Z.mul_div_le (a / s + s) 2). lia.
Qed.

Lemma newton_wide_correct n : forall a u,
  0 < a -> Z.sqrt a <= u -> u - Z.sqrt a < 2 ^ Z.of_nat n -> newton_wide (S n) a u = Some (Z.sqrt a).
Proof.
  induction n as [|n IH]; intros a u Ha Hu Hgap; pose proof (Z.sqrt_pos a) as Hp; cbn [newton_wide];
    pose proof (newton_step_ge a u ltac:(lia) ltac:(lia)).
  - assert (u = Z.sqrt a) as -> by lia. by rewrite (proj2 (Z.leb_le _ _)) by done.
  - destruct (decide (u = Z.sqrt a)) as [-> |Hne]; [by rewrite (proj2 (Z.leb_le _ _)) by done|].
    pose proof (newton_step_gap a u ltac:(lia) ltac:(lia)). rewrite (proj2 (Z.leb_gt _ _)) by lia.
    rewrite Nat2Z.inj_succ, Z.pow_succ_r in Hgap by lia. apply IH; lia.
Qed.

(** The portable iteration is the same one on double words. *)
Lemma newton_eq n : forall ah u,
  0 < ah < 2 ^ (F_SIZE - 2) -> Z.sqrt (ah * 2 ^ F_SIZE) <= u <= 2 ^ (F_SIZE - 1) ->
  newton n ah 0 u = newton_wide n (ah * 2 ^ F_SIZE) u.
Proof.
  induction n as [|n IH]; intros ah u Hah Hu; [done|]. cbn [newton newton_wide].
  set (a := ah * 2 ^ F_SIZE) in *. pose proof pow_F2 as EF. pose proof (Z.sqrt_spec a) as Hs. cbv zeta in Hs.
  assert (0 < 2 ^ (F_SIZE - 2)) by (apply pow2_pos; sizes).
  assert (2 ^ (F_SIZE - 1) = 2 * 2 ^ (F_SIZE - 2)) as EF1 by (rewrite <- Z.pow_succ_r by sizes; f_equal; lia).
  set (x := 2 ^ (F_SIZE - 2)) in *. assert (a <= 4 * x * (x - 1)) as Ha by (unfold a; nia). assert (0 < a) by (unfold a; nia).
  specialize (Hs ltac:(lia)). pose proof (Z.sqrt_pos a). set (r := Z.sqrt a) in *.
  assert (r <= 2 * x - 2) by nia. assert (ah < u) by (assert (ah * (4 * x) < (r + 1) * (r + 1)) by (unfold a in *; nia); nia).
  rewrite divrem_u_correct; [|lia|lia|apply (fits_mono 0); [sizes|done]]. rewrite Z.add_0_r. fold a.
  assert (a / u + u < 2 ^ F_SIZE) as Hsum.
  { destruct (decide (u = r)) as [-> |].
    - assert (a / r < r + 3) by (apply Z.div_lt_upper_bound; nia). lia.
    - assert (a / u < r + 1) by (apply Z.div_lt_upper_bound; nia). lia. }
  assert (0 <= a / u) by (apply Z.div_pos; lia). unfold F_UINT. rewrite trunc_small by (unfold fits; lia).
  destruct (Z.leb_spec u ((a / u + u) / 2)); [done|]. apply IH; [done|]. fold a r. split; [|lia].
  unfold r. apply newton_step_ge; lia.
Qed.

(** The first guess is at least the root. *)
Lemma sqrt_guess ah :
  0 < ah < 2 ^ (F_SIZE - 2) ->
  let u := 2 ^ ((sqrt_bits ah 0 + 1) / 2) in
  Z.sqrt (ah * 2 ^ F_SIZE) <= u <= 2 ^ (F_SIZE - 1).
Proof.
  intros Hah. cbv zeta. unfold sqrt_bits, clz, clz_n, nz. rewrite (proj2 (Z.eqb_neq ah 0)) by lia. cbn [negb].
  assert (exists l, (if ah - 1 =? 0 then F_SIZE else F_SIZE - 1 - Z.log2 (ah - 1)) = F_SIZE - l /\
    0 <= l <= F_SIZE - 2 /\ ah <= 2 ^ l) as (l & -> & Hl & Hp).
  { destruct (Z.eqb_spec (ah - 1) 0).
    - exists 0. split; [lia|]. split; [sizes|]. cbn. lia.
    - exists (Z.succ (Z.log2 (ah - 1))). destruct (Z.log2_spec (ah - 1)) as [H1 H2]; [lia|].
      assert (0 <= Z.log2 (ah - 1) < F_SIZE - 2) by (apply log2_lt; lia). split; [lia|]. split; lia. }
  replace (2 * F_SIZE - (F_SIZE - l) + 1) with (F_SIZE + l + 1) by lia. assert (0 <= F_SIZE) by sizes.
  set (h := (F_SIZE + l + 1) / 2). assert (F_SIZE + l <= 2 * h <= 2 * (F_SIZE - 1)).
  { unfold h. pose proof (Z.div_mod (F_SIZE + l + 1) 2 ltac:(lia)). pose proof (Z.mod_pos_bound (F_SIZE + l + 1) 2 ltac:(lia)). lia. }
  split; [|apply Z.pow_le_mono_r; lia].
  rewrite <- (Z.sqrt_square (2 ^ h)) by (apply Z.pow_nonneg; lia). apply Z.sqrt_le_mono.
  rewrite <- Z.pow_add_r by lia. transitivity (2 ^ (l + F_SIZE)); [|apply Z.pow_le_mono_r; lia].
  rewrite Z.pow_add_r by lia. apply Z.mul_le_mono_nonneg_r; [apply Z.pow_nonneg; lia|done].
Qed.

(** [sqrtrem_u] ends, with the integer square root and its exactness. *)
Lemma sqrtrem_u_correct ah :
  0 < ah < 2 ^ (F_SIZE - 2) ->
  let a := ah * 2 ^ F_SIZE in
  sqrtrem_u ah 0 = Some (Z.sqrt a, nz (a - Z.sqrt a * Z.sqrt a)).
Proof.
  intros Hah. cbv zeta. pose proof (sqrt_guess ah Hah) as Hg. cbv zeta in Hg. unfold sqrtrem_u.
  rewrite (proj2 (Z.eqb_neq ah 0)) by lia. cbn [andb]. rewrite Z.shiftl_1_l. set (u := 2 ^ ((sqrt_bits ah 0 + 1) / 2)) in *.
  set (a := ah * 2 ^ F_SIZE) in *. assert (0 < 2 ^ F_SIZE) by (apply pow2_pos; sizes). assert (0 < a) as Ha by (unfold a; nia).
  pose proof pow_F2. assert (2 ^ (F_SIZE - 2) < 2 ^ (F_SIZE - 1) ) by (apply Z.pow_lt_mono_r; sizes).
  assert (newton_wide sqrt_fuel a u = Some (Z.sqrt a)) as HN.
  { unfold sqrt_fuel. replace (Z.to_nat (F_SIZE + 3)) with (S (Z.to_nat (F_SIZE + 2))) by sizes.
    apply newton_wide_correct; [done|lia|]. rewrite Z2Nat.id by sizes. pose proof (Z.sqrt_nonneg a).
    assert (2 ^ (F_SIZE - 1) < 2 ^ (F_SIZE + 2)) by (apply Z.pow_lt_mono_r; sizes). lia. }
  destruct (Z.sqrt_spec a (Z.lt_le_incl _ _ Ha)) as [S1 S2]. pose proof (Z.sqrt_nonneg a). set (r := Z.sqrt a) in *.
  assert (fits F_SIZE r) as Hr by (unfold fits; lia).
  destruct F_ULONG.
  - rewrite Z.lor_0_r, Z.shiftl_mul_pow2 by sizes. fold a. rewrite HN. cbn [mbind option_bind]. unfold F_UINT.
    rewrite trunc_small by done. do 2 f_equal. f_equal. apply trunc_small. split; [lia|].
    replace (2 * F_SIZE) with (F_SIZE + F_SIZE) by lia. rewrite Z.pow_add_r by sizes. unfold a in *. nia.
  - unfold F_UINT. rewrite trunc_small by (unfold fits, u in *; split; [apply Z.pow_nonneg|]; lia).
    rewrite newton_eq by done. fold a. rewrite HN. cbn [mbind option_bind]. rewrite mul_u_correct by done.
    do 2 f_equal. unfold nz. rewrite <- negb_andb. f_equal.
    pose proof (Z.div_mod (r * r) (2 ^ F_SIZE)). pose proof (Z.mod_pos_bound (r * r) (2 ^ F_SIZE)).
    apply eq_bool_prop_intro. rewrite !Is_true_true, andb_true_iff, !Z.eqb_eq. unfold a. split; [nia|].
    intros E. assert (r * r = ah * 2 ^ F_SIZE) as -> by lia. rewrite Z.mod_mul, Z.div_mul by lia. done.
Qed.

(** The integer root with a sticky bit stands for the real root. *)
Lemma stands_sqrt a y :
  0 <= a -> (0 <= y)%R -> (y * y = IZR a)%R ->
  let r := Z.sqrt a in
  stands_for 1 (if nz (a - r * r) then r + 1 - r mod 2 else r) y.
Proof.
  intros Ha Hy Ey r t [m ->]. change (2 ^ 1) with 2. destruct (Z.sqrt_spec a Ha) as [S1 S2]. fold r in S1, S2.
  pose proof (Z.sqrt_nonneg a). fold r in H. pose proof (Z.mod_pos_bound r 2 ltac:(lia)). pose proof (Z.div_mod r 2).
  assert (Hcmp : forall z, 0 <= z -> (a < z * z -> (y < IZR z)%R) /\ (z * z < a -> (IZR z < y)%R) /\ (a = z * z -> y = IZR z)).
  { intros z Hz. apply IZR_le in Hz as Hz'. split_and!; intros Hc.
    - apply IZR_lt in Hc. rewrite mult_IZR, <- Ey in Hc. destruct (Rlt_le_dec y (IZR z)); [done|nra].
    - apply IZR_lt in Hc. rewrite mult_IZR, <- Ey in Hc. destruct (Rlt_le_dec (IZR z) y); [done|nra].
    - rewrite Hc, mult_IZR in Ey. nra. }
  destruct (Z.lt_ge_cases (m * 2) 0) as [Hneg|Hpos].
  - apply IZR_lt in Hneg as Hneg'. split_and!; intros; [|lra|]; exfalso; destruct (nz _); lia.
  - destruct (Hcmp (m * 2) Hpos) as (C1 & C2 & C3). unfold nz. destruct (Z.eqb_spec (a - r * r) 0); cbn [negb].
    + split_and!; intros; [apply C1|apply C2|apply C3]; nia.
    + split_and!; intros; [apply C1; nia|apply C2; nia|exfalso; lia].
Qed.

Definition sqrt_spec (rm a fl r fl' : Z) : Prop :=
  match decode a with
  | VNan x => nan_result x fl r fl'
  | VInf => if sign_sf a =? 1 then nan_result true fl r fl' else r = a /\ fl' = fl
  | VFin X =>
      if X =? 0 then r = a /\ fl' = fl
      else if sign_sf a =? 1 then nan_result true fl r fl'
      else correctly_rounded rm 0 (sqrt (IZR X * p2 (- QMIN))) fl r fl'
  end.

Lemma EXP_MASK_half : EXP_MASK / 2 = 2 ^ (EXP_SIZE - 1) - 1.
Proof.
  rewrite EXP_MASK_eq. replace EXP_SIZE with (Z.succ (EXP_SIZE - 1)) at 1 by lia. rewrite Z.pow_succ_r by sizes.
  symmetry. apply (Z.div_unique_pos _ _ _ 1); lia.
Qed.

(** The root of an aligned mantissa and an even exponent. *)
Lemma sqrt_even_correct rm e m fl :
  0 <= rm <= 4 -> 2 ^ MANT_SIZE <= m < 4 * 2 ^ MANT_SIZE ->
  exists M ix, sqrtrem_u (F_UINT (m << (F_SIZE - 4 - MANT_SIZE))) 0 = Some (M, ix) /\
    let '(r, fl') := normalize_sf 0 (e + EXP_MASK / 2) (if ix then M .| 1 else M) rm fl in
    correctly_rounded rm 0 (sqrt (IZR m * p2 (2 * e + 2 ^ (EXP_SIZE - 1) - 2 - QMIN))) fl r fl'.
Proof.
  intros Hrm Hm. pose proof pow_F2. assert (0 < 2 ^ (F_SIZE - 4)) by (apply pow2_pos; sizes).
  assert (2 ^ (F_SIZE - 4) = 2 ^ MANT_SIZE * 2 ^ (F_SIZE - 4 - MANT_SIZE)) as E4
    by (rewrite <- Z.pow_add_r by sizes; f_equal; lia).
  assert (forall k, 0 <= k <= 4 -> 2 ^ (F_SIZE - 4 + k) = 2 ^ (F_SIZE - 4) * 2 ^ k) as Ek
    by (intros; apply Z.pow_add_r; sizes).
  pose proof (Ek 2 ltac:(lia)) as E2. pose proof (Ek 3 ltac:(lia)) as E1.
  replace (F_SIZE - 4 + 2) with (F_SIZE - 2) in E2 by lia. replace (F_SIZE - 4 + 3) with (F_SIZE - 1) in E1 by lia.
  change (2 ^ 2) with 4 in E2. change (2 ^ 3) with 8 in E1. rewrite Z.shiftl_mul_pow2 by sizes.
  assert (0 < 2 ^ (F_SIZE - 4 - MANT_SIZE)) by (apply pow2_pos; sizes).
  set (ah := m * 2 ^ (F_SIZE - 4 - MANT_SIZE)). assert (2 ^ (F_SIZE - 4) <= ah < 2 ^ (F_SIZE - 2)) as Hah by (unfold ah; nia).
  unfold F_UINT. rewrite trunc_small by (unfold fits; lia). rewrite sqrtrem_u_correct by lia.
  eexists _, _. split; [done|]. set (a := ah * 2 ^ F_SIZE). set (r := Z.sqrt a).
  assert ((if nz (a - r * r) then r .| 1 else r) = if nz (a - r * r) then r + 1 - r mod 2 else r) as ->.
  { destruct (nz _); [apply (lor_bit _ true)|done]. }
  set (y := sqrt (IZR a)). assert (0 <= IZR a)%R by (apply IZR_le; unfold a; nia).
  pose proof (stands_sqrt a y ltac:(unfold a; nia) (sqrt_pos _) (sqrt_sqrt _ ltac:(done))) as Hst. cbv zeta in Hst. fold r in Hst.
  assert (2 ^ (F_SIZE - 2) <= r < 2 ^ (F_SIZE - 1)) as Hr.
  { unfold r. split.
    - rewrite <- (Z.sqrt_square (2 ^ (F_SIZE - 2))) by lia. apply Z.sqrt_le_mono. unfold a. nia.
    - apply Z.sqrt_lt_square; unfold a; nia. }
  assert (2 ^ (F_SIZE - 2) = 2 * (2 * 2 ^ (F_SIZE - 4))) as Eev by lia.
  set (M := if nz _ then _ else _) in *. assert (2 ^ (F_SIZE - 2) <= M < 2 ^ (F_SIZE - 1)) as HM.
  { unfold M. pose proof (Z.mod_pos_bound r 2 ltac:(lia)). pose proof (Z.div_mod r 2). destruct (nz _); lia. }
  replace (sqrt (IZR m * p2 (2 * e + 2 ^ (EXP_SIZE - 1) - 2 - QMIN)))
    with (y * p2 (e + EXP_MASK / 2 - 1 - RND_SIZE))%R.
  - apply (normalize_correct rm 0 _ _ 1); [done|by left|unfold fits; lia|lia|done|right].
    assert (2 ^ (F_SIZE - 1 - RND_SIZE + 1) <= 2 ^ (F_SIZE - 2)) by (apply Z.pow_le_mono_r; sizes). lia.
  - set (k := e + EXP_MASK / 2 - 1 - RND_SIZE). pose proof (p2_pos k).
    rewrite <- (sqrt_square (p2 k)) by lra. unfold y. rewrite <- sqrt_mult by (done || nra). f_equal.
    unfold a, ah. rewrite !mult_IZR, <- !p2_Z by sizes. rewrite !Rmult_assoc, <- !p2_add. do 2 f_equal.
    unfold k, QMIN. rewrite EXP_MASK_half. sizes.
Qed.

(** C36 The square root terminates within the iterations of [sqrt_fuel] and is the IEEE
    754 square root, for all operands and rounding modes. *)
Theorem sqrt_sf_correct rm a fl :
  0 <= rm <= 4 -> fits F_SIZE a ->
  exists r fl', sqrt_sf a rm fl = Some (r, fl') /\ sqrt_spec rm a fl r fl'.
Proof.
  intros Hrm Ha. unfold sqrt_sf, sqrt_spec. rewrite !iszero_mag, issignan_decode.
  pose proof (sign_sf_range a Ha) as Hs. assert (nz (sign_sf a) = (sign_sf a =? 1)) as -> by (by destruct Hs as [-> | ->]).
  destruct (Z.eqb_spec (exp_sf a) EXP_MASK) as [Ee|Ee].
  { unfold decode. rewrite Ee, Z.eqb_refl. unfold nz.
    destruct (mant_sf a =? 0); [destruct (sign_sf a =? 1)|]; eexists _, _; (split; [reflexivity|]); done. }
  rewrite decode_fin by done. destruct (Z.eqb_spec (mag_sf a) 0) as [Z0|Z0].
  { destruct (Z.eqb_spec (sign_sf a) 1); eexists _, _; (split; [reflexivity|]); [done|]. split; [|done].
    assert (sign_sf a = 0) as Es by lia. rewrite (unpack_eq a Ha), Es, pack_zero by auto. f_equal.
    rewrite <- Z.eqb_eq, <- iszero_mag, andb_true_iff, !Z.eqb_eq in Z0. unfold abs_sf. destruct Z0 as [-> ->]. lia. }
  destruct (Z.eqb_spec (sign_sf a) 1); [eexists _, _; split; [reflexivity|]; done|].
  assert (sign_sf a = 0) as -> by lia. pose proof (norm_mant_eq a Z0) as Hn. destruct (norm_mant _ _) as [ea ma].
  destruct Hn as [Hm ->]. pose proof EXP_MASK_half as EH. set (bias := EXP_MASK / 2) in *.
  assert (exists e m, (if has (ea - bias) 1 then (ea - bias - 1, F_UINT (ma << 1)) else (ea - bias, ma)) = (2 * e, m) /\
    2 ^ MANT_SIZE <= m < 4 * 2 ^ MANT_SIZE /\ (IZR m * p2 (2 * e) = IZR ma * p2 (ea - bias))%R) as (e & m & -> & Hm' & Er).
  { rewrite has_1, Z.bit0_odd. destruct (Z.odd (ea - bias)) eqn:Eo.
    - apply Z.odd_spec in Eo as [e Ee']. exists e, (ma * 2). pose proof headroom. pose proof pow_F2. pose proof mant_pos.
      rewrite Z.shiftl_mul_pow2 by lia. unfold F_UINT. rewrite trunc_small by (unfold fits; lia).
      split; [f_equal; lia|]. split; [lia|]. rewrite Ee', p2_add, p2_1, mult_IZR. ring.
    - assert (Z.even (ea - bias) = true) as Eo' by (by rewrite <- Z.negb_odd, Eo). apply Z.even_spec in Eo' as [e Ee'].
      exists e, ma. split; [f_equal; lia|]. split; [lia|]. by rewrite Ee'. }
  replace ((2 * e) >> 1) with e by (rewrite Z.shiftr_div_pow2 by lia; change (2 ^ 1) with 2; rewrite Z.mul_comm, Z.div_mul; lia).
  destruct (sqrt_even_correct rm e m fl Hrm Hm') as (M & ix & -> & Hc). fold bias in Hc.
  destruct (normalize_sf _ _ _ _ _) as [r fl']. eexists _, _. split; [reflexivity|].
  replace (IZR ma * p2 (ea - 1) * p2 (- QMIN))%R with (IZR m * p2 (2 * e + 2 ^ (EXP_SIZE - 1) - 2 - QMIN))%R; [done|].
  replace (2 * e + 2 ^ (EXP_SIZE - 1) - 2 - QMIN) with (2 * e + (2 ^ (EXP_SIZE - 1) - 2 + - QMIN)) by lia.
  rewrite p2_add, <- Rmult_assoc, Er, Rmult_assoc, <- p2_add, Rmult_assoc, <- p2_add. do 2 f_equal. lia.
Qed.
End Div.

(** [1 / 3] in single precision, and the division of the same by zero. *)
Lemma div_sf_correct_witness :
  div_spec (fmt := sf32) RM_RNE 0x3f800000 0x40400000 0 0x3eaaaaab FFLAG_INEXACT /\
  div_spec (fmt := sf32) RM_RNE 0x3f800000 0 0 0x7f800000 FFLAG_DIVIDE_ZERO.
Proof.
  split.
  - assert (div_sf (fmt := sf32) 0x3f800000 0x40400000 RM_RNE 0 = (0x3eaaaaab, FFLAG_INEXACT)) as E by (vm_compute; reflexivity).
    pose proof (div_sf_correct (fmt := sf32) RM_RNE 0x3f800000 0x40400000 0) as H. rewrite E in H.
    apply H; [unfold RM_RNE; lia|split; vm_compute; congruence..].
  - assert (div_sf (fmt := sf32) 0x3f800000 0 RM_RNE 0 = (0x7f800000, FFLAG_DIVIDE_ZERO)) as E by (vm_compute; reflexivity).
    pose proof (div_sf_correct (fmt := sf32) RM_RNE 0x3f800000 0 0) as H. rewrite E in H.
    apply H; [unfold RM_RNE; lia|split; vm_compute; congruence..].
Defined.

(** The square root of 2 in double precision. *)
Lemma sqrt_sf_correct_witness :
  exists r fl', sqrt_sf (fmt := sf64) (1 << 62) RM_RNE 0 = Some (r, fl') /\ sqrt_spec (fmt := sf64) RM_RNE (1 << 62) 0 r fl'.
Proof. apply (sqrt_sf_correct (fmt := sf64)); [unfold RM_RNE; lia|split; vm_compute; congruence]. Defined.
