(* ===== verification/FpFma.v ===== *)
(** * Fused multiply-add

    [fma_sf] keeps the exact product in two words, aligns the smaller operand with a
    sticky bit, and rounds once. *)

From Stdlib Require Import Reals Lra.
From S2P Require Import Prelude Cpu Softfp Rounding FpArith.

Section Fma.
Context {fmt : Format} {ok : FormatOk fmt}.

(** Two words as one number. *)
Definition dword (hi lo : Z) : Z := hi * 2 ^ F_SIZE + lo.

Lemma word_pos : 0 < 2 ^ F_SIZE.
Proof. apply pow2_pos. sizes. Qed.

Lemma pow_sub k : 0 <= k <= F_SIZE -> 2 ^ F_SIZE = 2 ^ k * 2 ^ (F_SIZE - k).
Proof. intros Hk. rewrite <- Z.pow_add_r by lia. f_equal. lia. Qed.

(** ** Normalising a double word *)

(** [normalize2_sf] keeps the leading word, with a sticky bit for the rest. *)
Lemma normalize2_eq s e hi lo rm fl :
  fits F_SIZE lo -> 0 <= hi -> 0 < dword hi lo < 2 ^ (2 * F_SIZE - 1) ->
  let k := 2 * F_SIZE - 2 - Z.log2 (dword hi lo) in
  normalize2_sf s e hi lo rm fl = round_pack_sf s (e - k) (sticky (dword hi lo * 2 ^ k) F_SIZE) rm fl.
Proof.
  intros Hlo Hhi HV. cbv zeta. unfold normalize2_sf, IMANT_SIZE. replace (F_SIZE - 1 - (F_SIZE - 2)) with 1 by lia.
  pose proof word_pos as HW. assert (0 <= Z.log2 (dword hi lo) < 2 * F_SIZE - 1) as Hl by (apply log2_lt; lia).
  destruct (Z.log2_spec (dword hi lo)) as [V1 V2]; [lia|]. destruct Hlo as [L0 L1].
  set (k := 2 * F_SIZE - 2 - Z.log2 (dword hi lo)).
  assert ((if hi =? 0 then F_SIZE + clz lo else clz hi) - 1 = k) as ->.
  { unfold clz, clz_n, k. destruct (Z.eqb_spec hi 0) as [-> |Hne].
    - unfold dword in *. rewrite Z.mul_0_l, Z.add_0_l in *. rewrite (proj2 (Z.eqb_neq lo 0)) by lia. lia.
    - assert (Z.log2 (dword hi lo) = Z.log2 hi + F_SIZE) as ->; [|lia].
      destruct (Z.log2_spec hi) as [H1 H2]; [lia|]. pose proof (Z.log2_nonneg hi). assert (0 <= F_SIZE) by sizes.
      apply Z.log2_unique; [lia|]. rewrite <- Z.add_succ_l, !Z.pow_add_r by lia. unfold dword. nia. }
  assert (0 <= k) as Hk by lia. assert (0 < 2 ^ k) by (apply pow2_pos; lia).
  assert (dword hi lo * 2 ^ k < 2 ^ (2 * F_SIZE - 1)) as HVk.
  { replace (2 * F_SIZE - 1) with (Z.succ (Z.log2 (dword hi lo)) + k) by lia. rewrite Z.pow_add_r by lia. nia. }
  replace (2 * F_SIZE - 1) with (F_SIZE - 1 + F_SIZE) in HVk by lia. rewrite Z.pow_add_r in HVk by sizes.
  pose proof pow_F2 as EF. f_equal. destruct (Z.eqb_spec k 0) as [Ek|Ek].
  - rewrite Ek, Z.mul_1_r. unfold sticky, dword. rewrite Z.shiftr_div_pow2 by sizes.
    rewrite Z.div_add_l, (Z.div_small lo), Z.add_0_r, Z.add_comm, Z.mod_add, Z.mod_small by lia. done.
  - destruct (Z.ltb_spec k F_SIZE).
    + assert (0 < 2 ^ (F_SIZE - k)) by (apply pow2_pos; lia). assert (0 <= k <= F_SIZE) as Hk' by lia.
      pose proof (pow_sub k Hk') as Ew. unfold sticky, F_UINT, trunc, dword in *. f_equal.
      * rewrite Z.shiftl_mul_pow2, !Z.shiftr_div_pow2 by lia. rewrite Z.mod_small by nia.
        rewrite lor_disjoint'; [|lia|split; [apply Z.div_pos; lia|apply Z.div_lt_upper_bound; lia]].
        replace ((hi * 2 ^ F_SIZE + lo) * 2 ^ k) with (hi * 2 ^ k * 2 ^ F_SIZE + lo * 2 ^ k) by ring.
        rewrite Z.div_add_l by lia. f_equal. rewrite Ew, (Z.mul_comm (2 ^ k)), Z.div_mul_cancel_r by lia. done.
      * rewrite Z.shiftl_mul_pow2 by lia. do 2 f_equal.
        replace ((hi * 2 ^ F_SIZE + lo) * 2 ^ k) with (lo * 2 ^ k + hi * 2 ^ k * 2 ^ F_SIZE) by ring.
        by rewrite Z.mod_add by lia.
    + assert (2 ^ k = 2 ^ (k - F_SIZE) * 2 ^ F_SIZE) as Ew by (rewrite <- Z.pow_add_r by sizes; f_equal; lia).
      assert (0 < 2 ^ (k - F_SIZE)) by (apply pow2_pos; lia). rewrite Ew in HVk |- *.
      assert (hi = 0) as ->.
      { assert (Z.succ (Z.log2 (dword hi lo)) <= F_SIZE) by lia.
        assert (2 ^ Z.succ (Z.log2 (dword hi lo)) <= 2 ^ F_SIZE) by (apply Z.pow_le_mono_r; lia). unfold dword in *. nia. }
      unfold sticky, dword in *. rewrite Z.mul_0_l, Z.add_0_l in *. rewrite Z.mul_assoc in *.
      rewrite Z.mod_mul, Z.shiftr_div_pow2, Z.div_mul by (lia || sizes). cbn [nz Z.eqb negb b2z]. rewrite Z.lor_0_r.
      rewrite Z.shiftl_mul_pow2 by lia. apply trunc_small. unfold fits. nia.
Qed.

(** ** Aligning the smaller operand *)

Lemma dword_lor h l b : fits F_SIZE l -> dword h (l .| b2z b) = dword h l .| b2z b.
Proof.
  intros Hl. rewrite !lor_bit. destruct b; [|done]. unfold dword. rewrite pow_F2.
  replace ((h * (2 * 2 ^ (F_SIZE - 1)) + l) mod 2) with (l mod 2); [lia|].
  replace (h * (2 * 2 ^ (F_SIZE - 1)) + l) with (l + h * 2 ^ (F_SIZE - 1) * 2) by ring. by rewrite Z.mod_add by lia.
Qed.

Lemma nz_mul x m : 0 < m -> nz (x * m) = nz x.
Proof. intros Hm. unfold nz. f_equal. destruct (Z.eqb_spec x 0) as [-> |]; [done|]. apply Z.eqb_neq. nia. Qed.

Lemma nz_lor x y : 0 <= x -> 0 <= y -> nz (x .| y) = nz x || nz y.
Proof.
  intros Hx Hy. unfold nz. rewrite <- negb_andb. f_equal. apply eq_bool_prop_intro.
  rewrite !Is_true_true, andb_true_iff, !Z.eqb_eq. apply Z.lor_eq_0_iff.
Qed.

Lemma fma_shift_sticky c1 c0 d :
  fits F_SIZE c1 -> fits F_SIZE c0 -> 0 <= d -> d <= F_SIZE \/ 2 * F_SIZE <= d \/ c0 = 0 ->
  let '(h, l) := fma_shift c1 c0 d in
  0 <= h /\ fits F_SIZE l /\ dword h l = sticky (dword c1 c0) d.
Proof.
  intros H1 H0 Hd Hc. pose proof word_pos as HW. assert (1 <= F_SIZE) as HF by sizes. unfold fma_shift.
  pose proof H1 as [C1 C1']. pose proof H0 as [C0 C0'].
  destruct (Z.leb_spec (2 * F_SIZE) d) as [Hlarge|].
  { split; [done|]. split; [by apply fits_b2z|]. unfold sticky. rewrite nz_lor by done.
    assert (dword c1 c0 < 2 ^ d).
    { assert (2 ^ (F_SIZE + F_SIZE) <= 2 ^ d) by (apply Z.pow_le_mono_r; lia). rewrite Z.pow_add_r in * by lia. unfold dword. nia. }
    rewrite Z.shiftr_div_pow2, Z.div_small, Z.mod_small by (unfold dword in *; nia).
    unfold dword at 1. cbn [Z.mul Z.add Z.lor]. f_equal. unfold nz, dword.
    destruct (Z.eqb_spec c0 0), (Z.eqb_spec c1 0), (Z.eqb_spec (c1 * 2 ^ F_SIZE + c0) 0); try done; nia. }
  destruct (Z.leb_spec (F_SIZE + 1) d) as [Hmid|].
  { destruct Hc as [?|[?| -> ]]; [lia|lia|]. split; [done|]. split; [apply rshift_fits; [lia|lia|done]|].
    rewrite rshift_rnd_sticky by (done || lia). unfold dword at 1. rewrite Z.mul_0_l, Z.add_0_l. unfold sticky, dword.
    rewrite Z.add_0_r, !Z.shiftr_div_pow2 by lia. assert (0 < 2 ^ (d - F_SIZE)) by (apply pow2_pos; lia).
    assert (2 ^ d = 2 ^ (d - F_SIZE) * 2 ^ F_SIZE) as -> by (rewrite <- Z.pow_add_r by lia; f_equal; lia).
    rewrite Z.div_mul_cancel_r, Zmult_mod_distr_r by lia. by rewrite nz_mul by done. }
  destruct (Z.eqb_spec d F_SIZE) as [-> |].
  { split; [done|]. split; [apply fits_lor; [lia|done|by apply fits_b2z]|]. unfold dword at 1. rewrite Z.mul_0_l, Z.add_0_l.
    unfold sticky, dword. rewrite Z.shiftr_div_pow2 by lia.
    rewrite Z.div_add_l, (Z.div_small c0), Z.add_0_r, (Z.add_comm _ c0), Z.mod_add, Z.mod_small by lia. done. }
  unfold nz at 1. destruct (Z.eqb_spec d 0) as [-> |]; cbn [negb].
  { split; [done|]. split; [done|]. unfold sticky. by rewrite Z.mod_1_r, Z.shiftr_0_r, Z.lor_0_r. }
  assert (0 < 2 ^ d) by (apply pow2_pos; lia). assert (0 < 2 ^ (F_SIZE - d)) by (apply pow2_pos; lia).
  assert (0 <= d <= F_SIZE) as Hd' by lia. pose proof (pow_sub d Hd') as Ew.
  assert (0 <= c0 / 2 ^ d < 2 ^ (F_SIZE - d)) as Hq0 by (split; [apply Z.div_pos|apply Z.div_lt_upper_bound]; lia).
  assert (0 <= c1 mod 2 ^ d < 2 ^ d) as Hr1 by (apply Z.mod_pos_bound; lia).
  assert (F_UINT (c1 << (F_SIZE - d)) .| (c0 >> d) = c1 mod 2 ^ d * 2 ^ (F_SIZE - d) + c0 / 2 ^ d) as El.
  { unfold F_UINT, trunc. rewrite Z.shiftl_mul_pow2, Z.shiftr_div_pow2, Ew, Zmult_mod_distr_r by lia.
    by rewrite lor_disjoint' by (lia || done). }
  rewrite El. assert (fits F_SIZE (c1 mod 2 ^ d * 2 ^ (F_SIZE - d) + c0 / 2 ^ d)) as Hl by (unfold fits; rewrite Ew; nia).
  split; [by apply Z.shiftr_nonneg|]. split; [apply fits_lor; [lia|done|by apply fits_b2z]|].
  rewrite dword_lor, has_ones by (done || lia). unfold sticky. f_equal.
  - unfold dword. rewrite !Z.shiftr_div_pow2 by lia.
    replace (c1 * 2 ^ F_SIZE + c0) with (c1 * 2 ^ (F_SIZE - d) * 2 ^ d + c0) by (rewrite Ew; ring).
    rewrite Z.div_add_l by lia. pose proof (Z.div_mod c1 (2 ^ d)) as Edm. rewrite Ew. nia.
  - do 2 f_equal. unfold dword. rewrite Ew. replace (c1 * (2 ^ d * 2 ^ (F_SIZE - d)) + c0) with (c0 + c1 * 2 ^ (F_SIZE - d) * 2 ^ d) by ring.
    by rewrite Z.mod_add by lia.
Qed.

(** ** Rounding a double word

    The double word is exact, or off by less than one unit with bits set below the
    rounding position. *)
Definition near (V : Z) (y : R) : Prop :=
  2 ^ (2 * F_SIZE - 4) <= V /\ (IZR V - 1 < y < IZR V + 1)%R /\ V mod 2 ^ (F_SIZE - 2) <> 0.

Lemma sticky_normal V :
  0 < V < 2 ^ (2 * F_SIZE - 1) -> normal (sticky (V * 2 ^ (2 * F_SIZE - 2 - Z.log2 V)) F_SIZE).
Proof.
  intros HV. assert (0 <= Z.log2 V < 2 * F_SIZE - 1) as Hl by (apply log2_lt; lia).
  destruct (Z.log2_spec V) as [V1 V2]; [lia|]. set (k := 2 * F_SIZE - 2 - Z.log2 V). assert (0 < 2 ^ k) by (apply pow2_pos; lia).
  pose proof word_pos. pose proof pow_F2.
  assert (2 ^ (F_SIZE - 2) * 2 ^ F_SIZE <= V * 2 ^ k < 2 ^ (F_SIZE - 1) * 2 ^ F_SIZE) as Hb.
  { rewrite <- !Z.pow_add_r by sizes. replace (F_SIZE - 2 + F_SIZE) with (Z.log2 V + k) by lia.
    replace (F_SIZE - 1 + F_SIZE) with (Z.succ (Z.log2 V) + k) by lia. rewrite !Z.pow_add_r by lia. nia. }
  assert (2 ^ (F_SIZE - 2) = 2 * 2 ^ (F_SIZE - 3)) by (rewrite <- Z.pow_succ_r by sizes; f_equal; lia).
  assert (2 ^ (F_SIZE - 1) = 2 * 2 ^ (F_SIZE - 2)) by (rewrite <- Z.pow_succ_r by sizes; f_equal; lia).
  destruct (sticky_cases (V * 2 ^ k) F_SIZE) as (E & Hr & ->); [sizes|]. set (q := V * 2 ^ k / 2 ^ F_SIZE) in *.
  assert (2 ^ (F_SIZE - 2) <= q < 2 ^ (F_SIZE - 1)) by (split; [apply Z.div_le_lower_bound|apply Z.div_lt_upper_bound]; lia).
  pose proof (Z.mod_pos_bound q 2). pose proof (Z.div_mod q 2). unfold normal. destruct (nz _); lia.
Qed.

Lemma near_stands V y k :
  near V y -> 0 <= k <= 2 -> stands_for 1 (sticky (V * 2 ^ k) F_SIZE) (y * p2 k * p2 (- F_SIZE)).
Proof.
  intros (_ & Hy & Hm) Hk t [q ->]. change (2 ^ 1) with 2. rewrite (Z.mul_comm q 2).
  destruct (sticky_cmp (V * 2 ^ k) F_SIZE q) as (Hlt & Hgt & Heq); [sizes|].
  assert (0 < 2 ^ k) by (apply pow2_pos; lia). assert (0 <= k <= F_SIZE) as Hk' by sizes. pose proof (pow_sub k Hk') as Ew.
  set (T := 2 * q * 2 ^ (F_SIZE - k)). assert (2 * q * 2 ^ F_SIZE = T * 2 ^ k) as ET by (unfold T; rewrite Ew; ring).
  rewrite ET in *.
  assert (IZR (2 * q) = IZR T * p2 k * p2 (- F_SIZE))%R as ->.
  { unfold T. rewrite (mult_IZR (2 * q)), <- p2_Z, !Rmult_assoc, <- !p2_add by lia.
    replace (F_SIZE - k + (k + - F_SIZE)) with 0 by lia. rewrite p2_0. lra. }
  pose proof (p2_pos k). pose proof (p2_pos (- F_SIZE)).
  assert (forall a b, a < b -> a * p2 k * p2 (- F_SIZE) < b * p2 k * p2 (- F_SIZE))%R as Hs.
  { intros a b Hab. do 2 (apply Rmult_lt_compat_r; [done|]). done. }
  split_and!; intros Hc.
  - apply Hs. assert (V + 1 <= T) as Hz by nia. apply IZR_le in Hz. rewrite plus_IZR in Hz. lra.
  - apply Hs. assert (T + 1 <= V) as Hz by nia. apply IZR_le in Hz. rewrite plus_IZR in Hz. lra.
  - exfalso. apply Hm. assert (V = T) as -> by nia. unfold T.
    replace (F_SIZE - k) with ((2 - k) + (F_SIZE - 2)) by lia. rewrite Z.pow_add_r, Z.mul_assoc by sizes.
    apply Z.mod_mul, Z.pow_nonzero; sizes.
Qed.

Lemma normalize2_correct rm s e hi lo y fl :
  0 <= rm <= 4 -> s = 0 \/ s = 1 -> fits F_SIZE lo -> 0 <= hi -> dword hi lo < 2 ^ (2 * F_SIZE - 1) ->
  y = IZR (dword hi lo) \/ near (dword hi lo) y ->
  let '(r, fl') := normalize2_sf s e hi lo rm fl in
  correctly_rounded rm s (y * p2 (e - 1 - RND_SIZE - F_SIZE)) fl r fl'.
Proof.
  intros Hrm Hs Hlo Hhi HV Hy. pose proof word_pos. destruct (decide (dword hi lo = 0)) as [E0|Hnz].
  { assert (y = 0%R) as ->.
    { destruct Hy as [->|(Hge & _)]; [by rewrite E0|]. exfalso.
      assert (0 < 2 ^ (2 * F_SIZE - 4)) by (apply pow2_pos; sizes). lia. }
    assert (hi = 0 /\ lo = 0) as [-> ->] by (destruct Hlo; unfold dword in E0; nia).
    unfold normalize2_sf, clz, clz_n, IMANT_SIZE. cbn [Z.eqb]. replace (F_SIZE - 1 - (F_SIZE - 2)) with 1 by lia.
    rewrite (proj2 (Z.eqb_neq (F_SIZE + F_SIZE - 1) 0)), (proj2 (Z.ltb_ge (F_SIZE + F_SIZE - 1) F_SIZE)) by sizes.
    rewrite Z.shiftl_0_l. unfold F_UINT, trunc. rewrite Z.mod_0_l, round_pack_zero, Rmult_0_l by (done || lia). apply zero_rounds. }
  assert (0 < dword hi lo) as Hpos by (destruct Hlo; unfold dword in *; nia).
  rewrite normalize2_eq by (done || lia). set (V := dword hi lo) in *. set (k := 2 * F_SIZE - 2 - Z.log2 V).
  assert (0 <= Z.log2 V < 2 * F_SIZE - 1) by (apply log2_lt; lia).
  replace (y * p2 (e - 1 - RND_SIZE - F_SIZE))%R with (y * p2 k * p2 (- F_SIZE) * p2 (e - k - 1 - RND_SIZE))%R.
  2: { rewrite !Rmult_assoc, <- !p2_add. do 2 f_equal. lia. }
  apply (round_pack_correct rm s (e - k) _ 1); [done|done|left; by apply sticky_normal|sizes|].
  destruct Hy as [->|Hnear].
  - replace 1 with (Z.max 1 (0 - F_SIZE)) by sizes. apply stands_sticky; [done|sizes|].
    rewrite Rmult_assoc, (Rmult_comm (p2 (- _))), p2_opp, Rmult_1_r, p2_Z, <- mult_IZR by lia. apply stands_exact.
  - apply near_stands; [done|]. destruct Hnear as [Hge _]. apply Z.log2_le_pow2 in Hge; [|lia]. lia.
Qed.

(** ** Adding the aligned operands *)

(** A normalised operand: leading bit at [2 * F_SIZE - 3], eight zeros at the end. *)
Definition operand (hi lo : Z) : Prop :=
  fits F_SIZE hi /\ fits F_SIZE lo /\ 2 ^ (2 * F_SIZE - 3) <= dword hi lo < 2 ^ (2 * F_SIZE - 2) /\ (2 ^ 8 | dword hi lo).

(** The aligned operand is exact, or off by less than one unit and small. *)
Lemma aligned_dword r1 r0 c1 c0 d :
  operand r1 r0 -> operand c1 c0 -> 0 <= d -> r0 = 0 \/ c0 = 0 ->
  let '(h, l) := fma_shift c1 c0 d in
  let w := (IZR (dword c1 c0) * p2 (- d))%R in
  0 <= h /\ fits F_SIZE l /\
  (IZR (dword h l) = w \/
   8 < d /\ (IZR (dword h l) - 1 < w < IZR (dword h l) + 1)%R /\
   forall V, V = dword r1 r0 + dword h l \/ V = dword r1 r0 - dword h l -> V mod 2 ^ (F_SIZE - 2) <> 0).
Proof.
  intros (_ & _ & _ & R8) (H1 & H0 & HC & C8) Hd Hz. pose proof word_pos. assert (0 < 2 ^ (F_SIZE - 2)) by (apply pow2_pos; sizes).
  assert (IZR (dword c1 c0) = IZR (dword c1 c0) * p2 (- d) * p2 d)%R as Ew.
  { rewrite Rmult_assoc, (Rmult_comm (p2 _)), p2_opp. lra. }
  pose proof (p2_pos d). set (C := dword c1 c0) in *. set (w := (IZR C * p2 (- d))%R) in *.
  assert (d <= F_SIZE \/ 2 * F_SIZE <= d \/ c0 = 0 \/ (F_SIZE < d < 2 * F_SIZE /\ r0 = 0)) as Hcase by lia.
  assert (Hst : d <= F_SIZE \/ 2 * F_SIZE <= d \/ c0 = 0 -> let '(h, l) := fma_shift c1 c0 d in
    0 <= h /\ fits F_SIZE l /\ dword h l = sticky C d) by (intros; by apply fma_shift_sticky).
  destruct (decide (d <= F_SIZE \/ 2 * F_SIZE <= d \/ c0 = 0)) as [Hs|Hs].
  - specialize (Hst Hs). destruct (fma_shift c1 c0 d) as [h l]. destruct Hst as (? & ? & ->). split; [done|]. split; [done|].
    destruct (sticky_cases C d Hd) as (E & Hr & ->). set (q := C / 2 ^ d) in *. set (r := C mod 2 ^ d) in *.
    apply (f_equal IZR) in E as Er. rewrite plus_IZR, mult_IZR, <- p2_Z in Er by done.
    unfold nz. destruct (Z.eqb_spec r 0) as [E0|E0]; cbn [negb].
    + left. rewrite E0 in Er. apply (p2_cancel _ _ d). rewrite <- Ew. lra.
    + right. split.
      { destruct (Z.lt_ge_cases 8 d) as [|Hle]; [done|exfalso]. apply E0. unfold r.
        apply Z.mod_divide; [apply Z.pow_nonzero; lia|]. apply Z.divide_trans with (2 ^ 8); [apply divide_pow; lia|done]. }
      assert (0 < IZR r < p2 d)%R as Hrr by (rewrite p2_Z by done; split; apply IZR_lt; lia).
      assert (IZR q < w < IZR q + 1)%R as Hq by (split; apply Rmult_lt_reg_r with (p2 d); lra).
      assert (0 <= q mod 2 < 2) by (apply Z.mod_pos_bound; lia). split.
      * assert (q mod 2 = 0 \/ q mod 2 = 1) as [E2|E2] by lia; rewrite E2, minus_IZR, plus_IZR; lra.
      * intros V HV Hmod. assert (2 | V) as Hev.
        { apply Z.divide_trans with (2 ^ (F_SIZE - 2)); [apply (divide_pow 1); sizes|]. apply Z.mod_divide; [lia|done]. }
        destruct Hev as [v Ev], R8 as [m Em]. pose proof (Z.div_mod q 2). lia.
  - destruct Hcase as [?|[?|[?|[Hdr -> ]]]]; [tauto..|]. unfold fma_shift.
    rewrite (proj2 (Z.leb_gt _ _)), (proj2 (Z.leb_le (F_SIZE + 1) d)) by lia. destruct H1 as [C1 C1'], H0 as [C0 C0'].
    assert (2 ^ (F_SIZE - 3) <= c1 < 2 ^ (F_SIZE - 2)) as Hc1.
    { unfold C, dword in HC. replace (2 * F_SIZE - 3) with (F_SIZE - 3 + F_SIZE) in HC by lia.
      replace (2 * F_SIZE - 2) with (F_SIZE - 2 + F_SIZE) in HC by lia. rewrite !Z.pow_add_r in HC by sizes. nia. }
    assert (fits (F_SIZE - 2) (rshift_rnd c1 (d - F_SIZE))) as Hl by (apply rshift_fits; [sizes|lia|split; lia]).
    assert (rshift_rnd c1 (d - F_SIZE) = sticky c1 (d - F_SIZE)) as El by (apply rshift_rnd_sticky; [by split|lia]).
    rewrite El in *.
    assert (forall l, dword 0 l = l) as Hdw by (intros; unfold dword; lia). rewrite !Hdw.
    split; [done|]. split; [apply (fits_mono (F_SIZE - 2)); [lia|done]|]. right. split; [sizes|].
    destruct (sticky_cases c1 (d - F_SIZE)) as (E & Hr & Es); [lia|]. rewrite Es in *.
    set (q := c1 / 2 ^ (d - F_SIZE)) in *. set (r := c1 mod 2 ^ (d - F_SIZE)) in *.
    assert (0 <= q mod 2 < 2) by (apply Z.mod_pos_bound; lia).
    assert (2 ^ d = 2 ^ (d - F_SIZE) * 2 ^ F_SIZE) as Ed by (rewrite <- Z.pow_add_r by sizes; f_equal; lia).
    assert (C = q * 2 ^ d + (r * 2 ^ F_SIZE + c0)) as EC by (unfold C, dword; rewrite E, Ed; ring).
    apply (f_equal IZR) in EC. rewrite plus_IZR, mult_IZR, <- p2_Z in EC by lia.
    assert (0 <= IZR (r * 2 ^ F_SIZE + c0) < p2 d)%R as Hrem by (rewrite p2_Z by lia; split; [apply IZR_le|apply IZR_lt]; nia).
    assert (IZR q <= w < IZR q + 1)%R as Hq by (split; [apply Rmult_le_reg_r with (p2 d)|apply Rmult_lt_reg_r with (p2 d)]; lra).
    assert (r <> 0 -> (IZR q < w)%R) as Hq'.
    { intros Hne. apply Rmult_lt_reg_r with (p2 d); [done|]. assert (0 < IZR (r * 2 ^ F_SIZE + c0))%R by (apply IZR_lt; nia). lra. }
    unfold nz in *. split.
    + destruct (Z.eqb_spec r 0) as [|Hne]; cbn [negb]; [lra|]. specialize (Hq' Hne).
      assert (q mod 2 = 0 \/ q mod 2 = 1) as [E2|E2] by lia; rewrite E2, minus_IZR, plus_IZR; lra.
    + assert (0 < 2 ^ (F_SIZE - 3)) by (apply pow2_pos; sizes).
      assert (0 < (if negb (r =? 0) then q + 1 - q mod 2 else q)) as Hpos.
      { destruct (Z.eqb_spec r 0); cbn [negb] in *; [|pose proof (Z.div_mod q 2); assert (0 <= q) by (apply Z.div_pos; lia); nia].
        assert (0 < 2 ^ (d - F_SIZE)) by (apply pow2_pos; lia). nia. }
      set (l := if negb (r =? 0) then _ else _) in *. intros V HV. unfold dword in HV. rewrite Z.add_0_r in HV.
      assert (2 ^ F_SIZE = 4 * 2 ^ (F_SIZE - 2)) as E4 by (change 4 with (2 ^ 2); rewrite <- Z.pow_add_r by sizes; f_equal; lia).
      destruct Hl as [_ Hl]. intros Hmod. apply Z.mod_divide in Hmod as [v Ev]; [|lia]. rewrite E4 in HV.
      assert (exists x, l = x * 2 ^ (F_SIZE - 2)) as [x Ex] by (destruct HV; [exists (v - 4 * r1)|exists (4 * r1 - v)]; lia).
      assert (x <= 0 \/ 1 <= x) as [] by lia; nia.
Qed.

Lemma trunc_wrap x k : fits F_SIZE (x - k * 2 ^ F_SIZE) -> F_UINT x = x - k * 2 ^ F_SIZE.
Proof.
  intros Hx. unfold F_UINT, trunc. pose proof word_pos.
  replace x with (x - k * 2 ^ F_SIZE + k * 2 ^ F_SIZE) at 1 by lia. rewrite Z.mod_add by lia. by apply Z.mod_small.
Qed.

Lemma dword_pow n : 2 ^ (2 * F_SIZE - n) = 2 ^ (F_SIZE - n + F_SIZE).
Proof. f_equal. lia. Qed.

(** Addition and subtraction of two words, with the carry and the borrow. *)
Lemma dword_add r1 r0 c1 c0 :
  0 <= r1 -> fits F_SIZE r0 -> 0 <= c1 -> fits F_SIZE c0 -> dword r1 r0 + dword c1 c0 < 2 ^ (2 * F_SIZE - 1) ->
  let lo := F_UINT (r0 + c0) in
  let hi := F_UINT (r1 + (c1 + b2z (lo <? c0))) in
  0 <= hi /\ fits F_SIZE lo /\ dword hi lo = dword r1 r0 + dword c1 c0.
Proof.
  intros H1 [R0 R0'] H3 [C0 C0'] Hs. cbv zeta. pose proof word_pos as HW. pose proof pow_F2.
  rewrite dword_pow, Z.pow_add_r in Hs by sizes. unfold dword in *.
  assert (r1 + c1 < 2 ^ (F_SIZE - 1)) by nia. assert (0 < 2 ^ (F_SIZE - 1)) by lia.
  destruct (Z.lt_ge_cases (r0 + c0) (2 ^ F_SIZE)).
  - rewrite (trunc_wrap (r0 + c0) 0) by (split; lia). rewrite (proj2 (Z.ltb_ge _ _)) by lia. cbn [b2z].
    rewrite (trunc_wrap _ 0) by (split; lia). unfold fits. lia.
  - rewrite (trunc_wrap (r0 + c0) 1) by (split; lia). rewrite (proj2 (Z.ltb_lt _ _)) by lia. cbn [b2z].
    rewrite (trunc_wrap _ 0) by (split; lia). unfold fits. lia.
Qed.

Lemma dword_sub r1 r0 c1 c0 :
  fits F_SIZE r1 -> fits F_SIZE r0 -> 0 <= c1 -> fits F_SIZE c0 -> 0 <= dword r1 r0 - dword c1 c0 ->
  let lo := F_UINT (r0 - c0) in
  let hi := F_UINT (r1 - c1 - b2z (r0 <? lo)) in
  0 <= hi /\ fits F_SIZE lo /\ dword hi lo = dword r1 r0 - dword c1 c0.
Proof.
  intros [R1 R1'] [R0 R0'] H3 [C0 C0'] Hs. cbv zeta. pose proof word_pos as HW. unfold dword in *.
  destruct (Z.lt_ge_cases (r0 - c0) 0).
  - assert (1 <= r1 - c1) by nia. rewrite (trunc_wrap (r0 - c0) (-1)) by (split; lia). rewrite (proj2 (Z.ltb_lt _ _)) by lia. cbn [b2z].
    rewrite (trunc_wrap _ 0) by (split; lia). unfold fits. lia.
  - assert (0 <= r1 - c1) by nia. rewrite (trunc_wrap (r0 - c0) 0) by (split; lia). rewrite (proj2 (Z.ltb_ge _ _)) by lia. cbn [b2z].
    rewrite (trunc_wrap _ 0) by (split; lia). unfold fits. lia.
Qed.

Lemma dword_zero hi lo : 0 <= hi -> fits F_SIZE lo -> (lo .| hi =? 0) = (dword hi lo =? 0).
Proof.
  intros Hh [L0 L1]. pose proof word_pos. apply eq_bool_prop_intro. rewrite !Is_true_true, !Z.eqb_eq, Z.lor_eq_0_iff.
  unfold dword. split; [intros [-> ->]; lia|nia].
Qed.

(** The sum of the operands, before and after the alignment. *)
Lemma aligned_sum r1 r0 c1 c0 d (same : bool) :
  operand r1 r0 -> operand c1 c0 -> 0 <= d -> (d = 0 -> dword c1 c0 <= dword r1 r0) -> r0 = 0 \/ c0 = 0 ->
  let '(h, l) := fma_shift c1 c0 d in
  let add x y := if same then x + y else x - y in
  let V := add (dword r1 r0) (dword h l) in
  let w := (IZR (dword c1 c0) * p2 (- d))%R in
  let y := (if same then IZR (dword r1 r0) + w else IZR (dword r1 r0) - w)%R in
  0 <= h /\ fits F_SIZE l /\ 0 <= V < 2 ^ (2 * F_SIZE - 1) /\ (y = IZR V \/ near V y).
Proof.
  intros HR HC Hd Hle Hz. pose proof (aligned_dword _ _ _ _ _ HR HC Hd Hz) as Ha.
  destruct (fma_shift c1 c0 d) as [h l]. cbv zeta in *. set (w := (_ * p2 (- d))%R) in *.
  destruct Ha as (Hh & Hl & Ha). split; [done|]. split; [done|].
  destruct HR as (_ & _ & HR & _), HC as (_ & _ & HC & _). set (R := dword r1 r0) in *. set (C := dword c1 c0) in *. set (C' := dword h l) in *.
  assert (0 <= C') as HC' by (destruct Hl; pose proof word_pos; unfold C', dword; nia).
  assert (forall k, 0 <= k <= d -> (w * p2 k <= IZR C)%R) as Hw.
  { intros k Hk. unfold w. rewrite Rmult_assoc, <- p2_add.
    assert (p2 (- d + k) <= p2 0)%R as H0 by (apply p2_le; lia). rewrite p2_0 in H0.
    assert (0 <= IZR C)%R by (apply IZR_le; lia). nra. }
  destruct Ha as [E|(H8 & Hn & Hm)].
  - assert (forall k, 0 <= k <= d -> C' * 2 ^ k <= C) as Hk.
    { intros k Hk. apply le_IZR. rewrite mult_IZR, <- p2_Z, E by lia. by apply Hw. }
    split; [|left; rewrite <- E; destruct same; [by rewrite plus_IZR|by rewrite minus_IZR]].
    assert (2 ^ (2 * F_SIZE - 1) = 2 * 2 ^ (2 * F_SIZE - 2)) by (rewrite <- Z.pow_succ_r by sizes; f_equal; lia).
    assert (2 ^ (2 * F_SIZE - 2) = 2 * 2 ^ (2 * F_SIZE - 3)) by (rewrite <- Z.pow_succ_r by sizes; f_equal; lia).
    specialize (Hk 0 ltac:(lia)) as Hk0. rewrite Z.mul_1_r in Hk0.
    destruct same; [lia|]. destruct (Z.eqb_spec d 0) as [->|]; [specialize (Hle eq_refl); lia|].
    specialize (Hk 1 ltac:(lia)). lia.
  - assert (C' * 2 ^ 8 < C + 2 ^ 8) as Hk.
    { apply lt_IZR. rewrite plus_IZR, mult_IZR. specialize (Hw 8 ltac:(lia)). rewrite p2_Z in Hw by lia.
      assert (0 < IZR (2 ^ 8))%R by (apply IZR_lt; lia). nra. }
    assert (2 ^ (2 * F_SIZE - 1) = 2 ^ 3 * 2 ^ (2 * F_SIZE - 4)) by (rewrite <- Z.pow_add_r by sizes; f_equal; lia).
    assert (2 ^ (2 * F_SIZE - 2) = 2 ^ 2 * 2 ^ (2 * F_SIZE - 4)) by (rewrite <- Z.pow_add_r by sizes; f_equal; lia).
    assert (2 ^ (2 * F_SIZE - 3) = 2 ^ 1 * 2 ^ (2 * F_SIZE - 4)) by (rewrite <- Z.pow_add_r by sizes; f_equal; lia).
    assert (2 ^ 10 <= 2 ^ (2 * F_SIZE - 4)) by (apply Z.pow_le_mono_r; sizes).
    split; [destruct same; lia|]. right. split_and!.
    + destruct same; lia.
    + destruct same; rewrite ?plus_IZR, ?minus_IZR; lra.
    + destruct same; rewrite ?plus_IZR, ?minus_IZR; lra.
    + apply Hm. destruct same; tauto.
Qed.

(** ** The rounded sum *)

Definition Rsigned (s : Z) (x : R) : R := if s =? 0 then x else (- x)%R.

(** The value of an operand with exponent [e], in units of the least subnormal. *)
Definition opval (e hi lo : Z) : R := (IZR (dword hi lo) * p2 (e - 1 - RND_SIZE - F_SIZE))%R.

(** [r] and [fl'] are the result of rounding the sum [v] of operands with signs [sa]
    and [sb]. *)
Definition rounded_sum (rm sa sb : Z) (v : R) (fl r fl' : Z) : Prop :=
  exists s, correctly_rounded rm s (Rabs v) fl r fl' /\
    ((0 < v)%R -> s = 0) /\ ((v < 0)%R -> s = 1) /\ (v = 0%R -> s = if sa =? sb then sa else b2z (rm =? RM_RDN)).

Lemma rounded_sum_intro rm rs cs (y k : R) s fl r fl' :
  rs = 0 \/ rs = 1 -> (0 <= y)%R -> (0 < k)%R ->
  (rs = cs -> s = rs) -> (y <> 0%R -> s = rs) -> (y = 0%R -> rs <> cs -> s = b2z (rm =? RM_RDN)) ->
  correctly_rounded rm s (y * k) fl r fl' -> rounded_sum rm rs cs (Rsigned rs (y * k)) fl r fl'.
Proof.
  intros Hrs Hy Hk Hs H1 H0 Hr. assert (0 <= y * k)%R as Hyk by nra. exists s.
  assert (Rabs (Rsigned rs (y * k)) = y * k)%R as ->.
  { unfold Rsigned. destruct (rs =? 0); rewrite ?Rabs_Ropp; by apply Rabs_pos_eq. }
  split; [done|]. unfold Rsigned. split_and!; intros Hv.
  - assert (y <> 0%R) as Hne by (intros ->; destruct (rs =? 0); lra). rewrite H1 by done.
    destruct Hrs as [-> | ->]; [done|]. cbn [Z.eqb] in Hv. lra.
  - assert (y <> 0%R) as Hne by (intros ->; destruct (rs =? 0); lra). rewrite H1 by done.
    destruct Hrs as [-> | ->]; [|done]. cbn [Z.eqb] in Hv. lra.
  - assert (y = 0)%R as E0.
    { assert (y * k = 0)%R as E by (destruct (rs =? 0); lra). apply Rmult_integral in E as [|]; [done|lra]. }
    destruct (Z.eqb_spec rs cs); [by apply Hs|]. by apply H0.
Qed.

Lemma rounded_sum_comm rm sa sb v fl r fl' : rounded_sum rm sa sb v fl r fl' -> rounded_sum rm sb sa v fl r fl'.
Proof.
  intros (s & Hr & Hp & Hn & H0). exists s. split_and!; [done..|]. intros Hv. rewrite (H0 Hv), (Z.eqb_sym sb).
  by destruct (Z.eqb_spec sa sb) as [-> |].
Qed.

Lemma fma_add_correct rm rs re r1 r0 cs ce c1 c0 fl :
  0 <= rm <= 4 -> rs = 0 \/ rs = 1 -> cs = 0 \/ cs = 1 -> operand r1 r0 -> operand c1 c0 ->
  ce <= re -> (re = ce -> dword c1 c0 <= dword r1 r0) -> r0 = 0 \/ c0 = 0 ->
  let '(r, fl') := fma_add rs re r1 r0 cs ce c1 c0 rm fl in
  rounded_sum rm rs cs (Rsigned rs (opval re r1 r0) + Rsigned cs (opval ce c1 c0)) fl r fl'.
Proof.
  intros Hrm Hrs Hcs HR HC He Hle Hz. unfold fma_add.
  pose proof (aligned_sum r1 r0 c1 c0 (re - ce) (rs =? cs) HR HC ltac:(lia) ltac:(intros; apply Hle; lia) Hz) as Ha.
  destruct (fma_shift c1 c0 (re - ce)) as [h l]. cbv zeta in Ha. destruct Ha as (Hh & Hl & HV & Hy).
  set (k := p2 (re - 1 - RND_SIZE - F_SIZE)). set (w := (IZR (dword c1 c0) * p2 (- (re - ce)))%R) in *.
  assert (0 < k)%R as Hk by apply p2_pos.
  assert (opval re r1 r0 = IZR (dword r1 r0) * k)%R as -> by done.
  assert (opval ce c1 c0 = w * k)%R as ->.
  { unfold opval, w, k. rewrite Rmult_assoc, <- p2_add. do 2 f_equal. lia. }
  destruct HR as (H1 & H0 & HR & _). pose proof (proj1 H1).
  set (y := if rs =? cs then _ else _) in Hy.
  assert (0 <= y)%R as Hy0.
  { destruct Hy as [-> |(Hge & Hn & _)]; [apply IZR_le; lia|].
    assert (1 <= 2 ^ (2 * F_SIZE - 4)) by (assert (0 < 2 ^ (2 * F_SIZE - 4)) by (apply pow2_pos; sizes); lia).
    assert (1 <= IZR (if rs =? cs then dword r1 r0 + dword h l else dword r1 r0 - dword h l))%R by (apply IZR_le; lia). lra. }
  replace (Rsigned rs (IZR (dword r1 r0) * k) + Rsigned cs (w * k))%R with (Rsigned rs (y * k)).
  2: { unfold y, Rsigned. destruct Hrs as [-> | ->], Hcs as [-> | ->]; cbn [Z.eqb Pos.eqb]; ring. }
  unfold y in *. clear y. destruct (Z.eqb_spec rs cs) as [<-|Hne].
  - destruct (dword_add r1 r0 h l) as (Hhi & Hlo & E); [done..|lia|]. cbv zeta in *. rewrite <- E in *.
    pose proof (normalize2_correct rm rs re _ _ _ fl Hrm Hrs Hlo Hhi ltac:(lia) Hy) as Hr.
    destruct (normalize2_sf _ _ _ _ _ _) as [r fl']. apply (rounded_sum_intro rm rs rs _ k rs); done.
  - destruct (dword_sub r1 r0 h l) as (Hhi & Hlo & E); [done..|lia|]. cbv zeta in *. rewrite dword_zero by done. rewrite <- E in *.
    set (hi := F_UINT (r1 - _ - _)) in *. set (lo := F_UINT (r0 - l)) in *.
    set (s := if dword hi lo =? 0 then b2z (rm =? RM_RDN) else rs).
    assert (s = 0 \/ s = 1) as Hs by (unfold s; destruct (dword hi lo =? 0), (rm =? RM_RDN); auto).
    pose proof (normalize2_correct rm s re _ _ _ fl Hrm Hs Hlo Hhi ltac:(lia) Hy) as Hr.
    destruct (normalize2_sf _ _ _ _ _ _) as [r fl'].
    apply (rounded_sum_intro rm rs cs _ k s); try done; unfold s.
    + intros Hn0. destruct (Z.eqb_spec (dword hi lo) 0) as [E0|]; [|done]. destruct Hn0. rewrite E0 in Hy.
      destruct Hy as [-> |(Hge & _)]; [done|]. assert (0 < 2 ^ (2 * F_SIZE - 4)) by (apply pow2_pos; sizes). lia.
    + intros E0 _. rewrite E0 in Hy. destruct (Z.eqb_spec (dword hi lo) 0) as [|Hne0]; [done|]. destruct Hne0.
      destruct Hy as [Hy|(Hge & Hn & _)]; [by apply eq_IZR|].
      assert (0 < 2 ^ (2 * F_SIZE - 4)) by (apply pow2_pos; sizes). assert (1 <= IZR (dword hi lo))%R by (apply IZR_le; lia). lra.
Qed.

(** ** The operands: the product and the addend *)

Lemma dword_double hi lo :
  0 <= hi < 2 ^ (F_SIZE - 3) -> fits F_SIZE lo ->
  let hi' := F_UINT (hi << 1) .| (lo >> (F_SIZE - 1)) in
  let lo' := F_UINT (lo << 1) in
  fits F_SIZE hi' /\ fits F_SIZE lo' /\ dword hi' lo' = 2 * dword hi lo.
Proof.
  intros Hh [L0 L1]. cbv zeta. pose proof word_pos. pose proof pow_F2 as EF.
  assert (2 ^ (F_SIZE - 1) = 4 * 2 ^ (F_SIZE - 3)) by (change 4 with (2 ^ 2); rewrite <- Z.pow_add_r by sizes; f_equal; lia).
  rewrite !Z.shiftl_mul_pow2, Z.shiftr_div_pow2 by sizes. change (2 ^ 1) with 2.
  pose proof (Z.div_mod lo (2 ^ (F_SIZE - 1))) as E. pose proof (Z.mod_pos_bound lo (2 ^ (F_SIZE - 1))).
  set (q := lo / 2 ^ (F_SIZE - 1)) in *. assert (0 <= q <= 1) as Hq by nia.
  rewrite (trunc_wrap (hi * 2) 0) by (split; lia). replace (hi * 2 - 0 * 2 ^ F_SIZE) with (hi * 2 ^ 1) by lia.
  rewrite lor_disjoint' by (unfold fits; lia). rewrite (trunc_wrap (lo * 2) q) by (split; nia).
  unfold fits, dword. change (2 ^ 1) with 2. nia.
Qed.

Lemma fma_product ea ma eb mb :
  2 ^ MANT_SIZE <= ma < 2 * 2 ^ MANT_SIZE -> 2 ^ MANT_SIZE <= mb < 2 * 2 ^ MANT_SIZE ->
  let '(r_mant1, r_mant0) := mul_u (F_UINT (ma << RND_SIZE)) (F_UINT (mb << RND_SIZE)) in
  let '(r_exp, r_mant1, r_mant0) :=
    if r_mant1 <? (1 << (F_SIZE - 3))
    then (ea + eb - (1 << (EXP_SIZE - 1)) + 3 - 1, F_UINT (r_mant1 << 1) .| (r_mant0 >> (F_SIZE - 1)), F_UINT (r_mant0 << 1))
    else (ea + eb - (1 << (EXP_SIZE - 1)) + 3, r_mant1, r_mant0) in
  operand r_mant1 r_mant0 /\
  opval r_exp r_mant1 r_mant0 = (IZR ma * p2 (ea - 1) * (IZR mb * p2 (eb - 1)) * p2 QMIN)%R.
Proof.
  intros Ha Hb. pose proof (normal_shift ma Ha) as [A1 A2]. pose proof (normal_shift mb Hb) as [B1 B2]. pose proof word_pos as HW.
  pose proof pow_F2 as EF. assert (0 < 2 ^ RND_SIZE) by (apply pow2_pos; sizes). pose proof mant_pos.
  assert (2 ^ (F_SIZE - 1) = 2 * 2 ^ (F_SIZE - 2)) as EF1 by (rewrite <- Z.pow_succ_r by sizes; f_equal; lia).
  assert (2 ^ (F_SIZE - 2) = 2 * 2 ^ (F_SIZE - 3)) as EF2 by (rewrite <- Z.pow_succ_r by sizes; f_equal; lia).
  rewrite !(Z.shiftl_mul_pow2 _ RND_SIZE), !(Z.shiftl_mul_pow2 1), !Z.mul_1_l by sizes. set (A := ma * 2 ^ RND_SIZE) in *. set (B := mb * 2 ^ RND_SIZE) in *.
  rewrite !(trunc_wrap _ 0) by (split; lia). rewrite !Z.mul_0_l, !Z.sub_0_r.
  rewrite mul_u_correct by (split; lia). set (P := A * B).
  assert (2 ^ (2 * F_SIZE - 4) <= P < 2 ^ (2 * F_SIZE - 2)) as HP.
  { replace (2 * F_SIZE - 4) with (F_SIZE - 2 + (F_SIZE - 2)) by lia. replace (2 * F_SIZE - 2) with (F_SIZE - 1 + (F_SIZE - 1)) by lia.
    rewrite !Z.pow_add_r by sizes. apply prod_bounds; lia. }
  assert (dword (P / 2 ^ F_SIZE) (P mod 2 ^ F_SIZE) = P) as ED by (unfold dword; pose proof (Z.div_mod P (2 ^ F_SIZE)); lia).
  assert (fits F_SIZE (P mod 2 ^ F_SIZE)) as Hlo by (apply Z.mod_pos_bound; lia).
  assert (2 ^ 8 | P) as H8.
  { unfold P, A, B. replace (ma * 2 ^ RND_SIZE * (mb * 2 ^ RND_SIZE)) with (ma * mb * (2 ^ RND_SIZE * 2 ^ RND_SIZE)) by ring.
    apply Z.divide_mul_r. rewrite <- Z.pow_add_r by sizes. apply divide_pow. sizes. }
  assert (IZR P * p2 (ea + eb - 2 ^ (EXP_SIZE - 1) + 3 - 1 - RND_SIZE - F_SIZE) =
    IZR ma * p2 (ea - 1) * (IZR mb * p2 (eb - 1)) * p2 QMIN)%R as EV.
  { unfold P, A, B. rewrite !mult_IZR, <- !p2_Z by sizes.
    transitivity (IZR ma * IZR mb * (p2 RND_SIZE * p2 RND_SIZE * p2 (ea + eb - 2 ^ (EXP_SIZE - 1) + 3 - 1 - RND_SIZE - F_SIZE)))%R; [ring|].
    transitivity (IZR ma * IZR mb * (p2 (ea - 1) * p2 (eb - 1) * p2 QMIN))%R; [|ring]. f_equal.
    rewrite <- !p2_add. f_equal. unfold QMIN. sizes. }
  assert (2 ^ (2 * F_SIZE - 2) = 2 * 2 ^ (2 * F_SIZE - 3)) as EP by (rewrite <- Z.pow_succ_r by sizes; f_equal; lia).
  assert (2 ^ (2 * F_SIZE - 3) = 2 * 2 ^ (2 * F_SIZE - 4)) as EP' by (rewrite <- Z.pow_succ_r by sizes; f_equal; lia).
  assert (2 ^ (2 * F_SIZE - 3) = 2 ^ (F_SIZE - 3) * 2 ^ F_SIZE) as EQ by (rewrite <- Z.pow_add_r by sizes; f_equal; lia).
  assert (0 <= P / 2 ^ F_SIZE) by (apply Z.div_pos; lia).
  destruct (Z.ltb_spec (P / 2 ^ F_SIZE) (2 ^ (F_SIZE - 3))) as [Hlt|Hge].
  - assert (P < 2 ^ (2 * F_SIZE - 3)) by (apply Z.nle_gt; intros Hc; apply (Z.div_le_mono _ _ (2 ^ F_SIZE)) in Hc; [rewrite EQ, Z.div_mul in Hc; lia|lia]).
    destruct (dword_double (P / 2 ^ F_SIZE) (P mod 2 ^ F_SIZE)) as (D1 & D0 & D); [lia|done|]. cbv zeta in D1, D0, D. rewrite ED in D.
    unfold operand, opval. rewrite D. split.
    + split_and!; [done..|lia|lia|]. by apply Z.divide_mul_r.
    + rewrite <- EV, mult_IZR. replace (ea + eb - 2 ^ (EXP_SIZE - 1) + 3 - 1 - RND_SIZE - F_SIZE)
        with (1 + (ea + eb - 2 ^ (EXP_SIZE - 1) + 3 - 1 - 1 - RND_SIZE - F_SIZE)) by lia. rewrite (p2_add 1), p2_1. ring.
  - assert (2 ^ (F_SIZE - 3) * 2 ^ F_SIZE <= P).
    { pose proof (Z.mul_div_le P (2 ^ F_SIZE) HW). pose proof (Z.mul_le_mono_nonneg_r _ _ (2 ^ F_SIZE) ltac:(lia) Hge). lia. }
    unfold operand, opval. rewrite ED. split; [|done]. split_and!; try done; try lia.
    + split; [done|]. apply Z.div_lt_upper_bound; [lia|].
      assert (2 ^ (2 * F_SIZE - 2) <= 2 ^ (F_SIZE + F_SIZE)) by (apply Z.pow_le_mono_r; sizes). rewrite Z.pow_add_r in * by sizes. lia.
Qed.

Lemma fma_addend ec mc :
  2 ^ MANT_SIZE <= mc < 2 * 2 ^ MANT_SIZE ->
  let c1 := F_UINT (mc << (RND_SIZE - 1)) in
  operand c1 0 /\ opval (ec + 1) c1 0 = (IZR mc * p2 (ec - 1))%R.
Proof.
  intros Hc. cbv zeta. pose proof (normal_shift mc Hc) as [A1 A2]. pose proof word_pos as HW. pose proof pow_F2 as EF.
  assert (2 ^ (F_SIZE - 1) = 2 * 2 ^ (F_SIZE - 2)) as EF1 by (rewrite <- Z.pow_succ_r by sizes; f_equal; lia).
  assert (2 ^ (F_SIZE - 2) = 2 * 2 ^ (F_SIZE - 3)) as EF2 by (rewrite <- Z.pow_succ_r by sizes; f_equal; lia).
  assert (2 ^ RND_SIZE = 2 * 2 ^ (RND_SIZE - 1)) as ER by (rewrite <- Z.pow_succ_r by sizes; f_equal; lia).
  rewrite Z.shiftl_mul_pow2 by sizes. rewrite (trunc_wrap _ 0) by (split; nia). rewrite Z.mul_0_l, Z.sub_0_r.
  set (M := mc * 2 ^ (RND_SIZE - 1)) in *. assert (2 ^ (F_SIZE - 3) <= M < 2 ^ (F_SIZE - 2)) as HM by (unfold M; nia).
  split.
  - unfold operand, dword. rewrite Z.add_0_r. replace (2 * F_SIZE - 3) with (F_SIZE - 3 + F_SIZE) by lia.
    replace (2 * F_SIZE - 2) with (F_SIZE - 2 + F_SIZE) by lia. rewrite !Z.pow_add_r by sizes. unfold fits. clearbody M.
    split_and!; [lia..|apply Z.mul_le_mono_nonneg_r; lia|apply Z.mul_lt_mono_pos_r; lia|].
    apply Z.divide_mul_r, divide_pow. sizes.
  - unfold opval, dword, M. rewrite Z.add_0_r, !mult_IZR, <- !p2_Z, !Rmult_assoc, <- !p2_add by sizes. do 2 f_equal. lia.
Qed.

(** ** The operation *)

(** An infinity times a zero is invalid, whatever the addend. *)
Definition inf_times_zero (u v : fval) : bool :=
  match u, v with VInf, VFin X | VFin X, VInf => X =? 0 | _, _ => false end.

(** Finite operands: the exact [a * b + c], an integer in units of the square of the
    least subnormal. *)
Definition fma_exact (s sc X Y Zc : Z) : Z := signed_mag s (X * Y) + signed_mag sc (Zc * 2 ^ (- QMIN)).

Definition fma_spec (rm a b c fl r fl' : Z) : Prop :=
  let s := sign_sf a .^ sign_sf b in
  let sc := sign_sf c in
  if inf_times_zero (decode a) (decode b) then nan_result true fl r fl'
  else if is_nan (decode a) || is_nan (decode b) || is_nan (decode c)
  then nan_result (is_signaling (decode a) || is_signaling (decode b) || is_signaling (decode c)) fl r fl'
  else
    match decode a, decode b, decode c with
    | VFin X, VFin Y, VFin Zc =>
        let v := fma_exact s sc X Y Zc in
        correctly_rounded rm (sum_sign rm s sc v) (IZR (Z.abs v) * p2 QMIN) fl r fl'
    | VFin _, VFin _, _ => r = signed sc INF /\ fl' = fl
    | _, _, VFin _ => r = signed s INF /\ fl' = fl
    | _, _, _ => if s =? sc then r = signed s INF /\ fl' = fl else nan_result true fl r fl'
    end.

Lemma QMIN_neg : QMIN <= 0.
Proof. unfold QMIN. pose proof (pow2_pos (EXP_SIZE - 1)). sizes. Qed.

(** The rounded sum of the signed values is the rounded exact result. *)
Lemma rounded_exact rm s sc X Y Zc fl r fl' :
  s = 0 \/ s = 1 -> sc = 0 \/ sc = 1 ->
  rounded_sum rm s sc (Rsigned s (IZR X * IZR Y * p2 QMIN) + Rsigned sc (IZR Zc)) fl r fl' ->
  let v := fma_exact s sc X Y Zc in
  correctly_rounded rm (sum_sign rm s sc v) (IZR (Z.abs v) * p2 QMIN) fl r fl'.
Proof.
  intros Hs Hsc. cbv zeta. set (v := fma_exact s sc X Y Zc). pose proof (p2_pos QMIN) as Hq. pose proof QMIN_neg.
  assert (Rsigned s (IZR X * IZR Y * p2 QMIN) + Rsigned sc (IZR Zc) = IZR v * p2 QMIN)%R as ->.
  { assert (IZR Zc = IZR (Zc * 2 ^ (- QMIN)) * p2 QMIN)%R as ->.
    { rewrite mult_IZR, <- p2_Z, Rmult_assoc, (Rmult_comm (p2 (- QMIN))), p2_opp by lia. lra. }
    unfold v, fma_exact, Rsigned, signed_mag. rewrite plus_IZR.
    destruct Hs as [-> | ->], Hsc as [-> | ->]; cbn [Z.eqb Pos.eqb]; rewrite ?opp_IZR, (mult_IZR X Y); ring. }
  intros (s' & Hr & Hp & Hn & H0). rewrite Rabs_mult, (Rabs_pos_eq (p2 _)), abs_IZR in * by lra.
  assert (s' = sum_sign rm s sc v) as <-; [|done]. unfold sum_sign. destruct (Z.eqb_spec v 0) as [E|Hne].
  - apply H0. rewrite E. lra.
  - destruct (Z.ltb_spec v 0) as [Hv|Hv].
    + apply Hn. assert (IZR v < 0)%R by (by apply IZR_lt). nra.
    + apply Hp. assert (0 < IZR v)%R by (apply IZR_lt; lia). nra.
Qed.

(** A lone operand is rounded with a sticky bit for its low word. *)
Lemma normalize_operand rm s e hi lo fl :
  0 <= rm <= 4 -> s = 0 \/ s = 1 -> operand hi lo ->
  let '(r, fl') := normalize_sf s e (hi .| b2z (nz lo)) rm fl in correctly_rounded rm s (opval e hi lo) fl r fl'.
Proof.
  intros Hrm Hs (Hh & [L0 L1] & Hd & _). pose proof word_pos.
  assert (hi .| b2z (nz lo) = sticky (dword hi lo) F_SIZE) as ->.
  { unfold sticky, dword. rewrite Z.shiftr_div_pow2 by sizes.
    rewrite Z.div_add_l, (Z.div_small lo), Z.add_0_r, (Z.add_comm _ lo), Z.mod_add, Z.mod_small by lia. done. }
  replace (2 * F_SIZE - 3) with (F_SIZE - 3 + F_SIZE) in Hd by lia.
  replace (2 * F_SIZE - 2) with (F_SIZE - 2 + F_SIZE) in Hd by lia. rewrite !Z.pow_add_r in Hd by sizes.
  set (V := dword hi lo) in *. assert (2 ^ (F_SIZE - 3) <= sticky V F_SIZE < 2 ^ (F_SIZE - 2)) as HM.
  { destruct (sticky_cases V F_SIZE) as (E & Hr & ->); [sizes|].
    assert (2 ^ (F_SIZE - 3) <= V / 2 ^ F_SIZE < 2 ^ (F_SIZE - 2)) as Hq
      by (split; [apply Z.div_le_lower_bound|apply Z.div_lt_upper_bound]; lia).
    assert (2 ^ (F_SIZE - 2) = 2 * 2 ^ (F_SIZE - 3)) by (rewrite <- Z.pow_succ_r by sizes; f_equal; lia).
    pose proof (Z.mod_pos_bound (V / 2 ^ F_SIZE) 2). pose proof (Z.div_mod (V / 2 ^ F_SIZE) 2). destruct (nz _); lia. }
  assert (opval e hi lo = IZR V * p2 (- F_SIZE) * p2 (e - 1 - RND_SIZE))%R as ->.
  { unfold opval. rewrite Rmult_assoc, <- p2_add. do 2 f_equal. lia. }
  apply (normalize_correct rm s e _ 1); [done|done| |lia| |right].
  - assert (2 ^ (F_SIZE - 2) <= 2 ^ (F_SIZE - 1)) by (apply Z.pow_le_mono_r; sizes).
    assert (0 < 2 ^ (F_SIZE - 3)) by (apply pow2_pos; sizes). split; lia.
  - replace 1 with (Z.max 1 (0 - F_SIZE)) by sizes. apply stands_sticky; [done|sizes|].
    rewrite Rmult_assoc, (Rmult_comm (p2 (- _))), p2_opp, Rmult_1_r. apply stands_exact.
  - apply Z.le_trans with (2 ^ (F_SIZE - 3)); [apply Z.pow_le_mono_r; sizes|lia].
Qed.

Lemma opval_pos e hi lo : operand hi lo -> (0 < opval e hi lo)%R.
Proof.
  intros (_ & _ & Hd & _). assert (0 < 2 ^ (2 * F_SIZE - 3)) by (apply pow2_pos; sizes).
  apply Rmult_lt_0_compat; [apply IZR_lt; lia|apply p2_pos].
Qed.

Lemma fma_finite_correct rm s a b c fl :
  0 <= rm <= 4 -> s = 0 \/ s = 1 -> fits F_SIZE c -> mag_sf a <> 0 -> mag_sf b <> 0 -> 
  let '(r, fl') := fma_finite s (exp_sf a) (mant_sf a) (exp_sf b) (mant_sf b) (sign_sf c) (exp_sf c) (mant_sf c) rm fl in
  rounded_sum rm s (sign_sf c)
    (Rsigned s (IZR (mag_sf a) * IZR (mag_sf b) * p2 QMIN) + Rsigned (sign_sf c) (IZR (mag_sf c))) fl r fl'.
Proof.
  intros Hrm Hs Hc Ha Hb. unfold fma_finite. rewrite iszero_mag.
  pose proof (norm_mant_eq a Ha) as Na. pose proof (norm_mant_eq b Hb) as Nb.
  destruct (norm_mant (exp_sf a) _) as [ea ma], (norm_mant (exp_sf b) _) as [eb mb]. destruct Na as [Ma ->], Nb as [Mb ->].
  pose proof (fma_product ea ma eb mb Ma Mb) as Hp. destruct (mul_u _ _) as [r1 r0].
  destruct (if r1 <? _ then _ else _) as [[re h] l] in Hp |- *. destruct Hp as [Hop <-]. pose proof (sign_sf_range c Hc) as Hsc.
  destruct (Z.eqb_spec (mag_sf c) 0) as [-> |Hc0].
  - replace (Rsigned s (opval re h l) + Rsigned (sign_sf c) 0)%R with (Rsigned s (opval re h l)) by (unfold Rsigned; destruct (sign_sf c =? 0); lra).
    pose proof (normalize_operand rm s re h l fl Hrm Hs Hop) as Hr. pose proof (opval_pos re h l Hop).
    destruct (normalize_sf _ _ _ _ _) as [r fl']. rewrite <- (Rmult_1_r (opval re h l)) in Hr |- *.
    apply (rounded_sum_intro rm s (sign_sf c) _ 1 s); try done; lra.
  - pose proof (norm_mant_eq c Hc0) as Nc. destruct (norm_mant (exp_sf c) _) as [ec mc]. destruct Nc as [Mc ->].
    destruct (fma_addend ec mc Mc) as [Hoc <-]. cbv zeta. set (c1 := F_UINT _) in *. pose proof Hop as (Hh & [L0 L1] & _).
    pose proof word_pos.
    destruct ((ec + 1 <? re) || ((re =? ec + 1) && (c1 <=? h))) eqn:E.
    + apply fma_add_correct; try done; [lia|unfold dword; nia|by right].
    + assert (re <= ec + 1 /\ (re = ec + 1 -> h < c1)) as [E1 E2] by lia.
      pose proof (fma_add_correct rm (sign_sf c) (ec + 1) c1 0 s re h l fl) as Hr.
      destruct (fma_add _ _ _ _ _ _ _ _ _ _) as [r fl']. apply rounded_sum_comm. rewrite Rplus_comm.
      apply Hr; try done; [unfold dword; intros; nia|by left].
Qed.

Lemma inf_times_zero_code a b :
  ((mag_sf a =? 0) && (exp_sf b =? EXP_MASK) && (mant_sf b =? 0))
    || ((mag_sf b =? 0) && (exp_sf a =? EXP_MASK) && (mant_sf a =? 0)) = inf_times_zero (decode a) (decode b).
Proof.
  unfold decode. pose proof (inf_not_zero a). pose proof (inf_not_zero b).
  destruct (Z.eqb_spec (exp_sf a) EXP_MASK) as [Ea|], (Z.eqb_spec (exp_sf b) EXP_MASK) as [Eb|];
    rewrite ?H, ?H0 by done; destruct (mant_sf a =? 0), (mant_sf b =? 0); cbn [inf_times_zero];
    rewrite ?andb_false_r, ?andb_true_r, ?orb_false_r; done.
Qed.

(** The product is zero: the result is the addend, or a zero with the sign of the sum. *)
Lemma zero_product rm s c fl :
  s = 0 \/ s = 1 -> fits F_SIZE c -> exp_sf c <> EXP_MASK ->
  let '(r, fl') :=
    if mag_sf c =? 0
    then (pack_sf (if sign_sf c =? s then s else b2z (rm =? RM_RDN)) 0 0, fl) else (c, fl) in
  let v := signed_mag (sign_sf c) (mag_sf c * 2 ^ (- QMIN)) in
  correctly_rounded rm (sum_sign rm s (sign_sf c) v) (IZR (Z.abs v) * p2 QMIN) fl r fl'.
Proof.
  intros Hs Hc He. pose proof (sign_sf_range c Hc) as Hsc. pose proof QMIN_neg. assert (0 < 2 ^ (- QMIN)) by (apply pow2_pos; lia).
  pose proof (mag_nonneg c). destruct (Z.eqb_spec (mag_sf c) 0) as [-> |Hne].
  - assert (signed_mag (sign_sf c) (0 * 2 ^ (- QMIN)) = 0) as -> by (unfold signed_mag; by destruct (_ =? 1)).
    cbv zeta. unfold sum_sign. rewrite (Z.eqb_sym s), Rmult_0_l. cbn [Z.eqb].
    rewrite pack_zero by (destruct (sign_sf c =? s), (rm =? RM_RDN); auto). apply zero_rounds.
  - cbv zeta. set (m := mag_sf c * 2 ^ (- QMIN)). assert (0 < m) by (unfold m; nia).
    assert (IZR m * p2 QMIN = IZR (mag_sf c))%R as Em.
    { unfold m. rewrite mult_IZR, <- p2_Z, Rmult_assoc, (Rmult_comm (p2 (- QMIN))), p2_opp by lia. lra. }
    assert (Z.abs (signed_mag (sign_sf c) m) = m) as -> by (unfold signed_mag; destruct (_ =? 1); lia).
    rewrite Em. assert (sum_sign rm s (sign_sf c) (signed_mag (sign_sf c) m) = sign_sf c) as ->; [|by apply rounds_itself].
    unfold sum_sign, signed_mag. destruct Hsc as [-> | ->]; cbn [Z.eqb Pos.eqb].
    + rewrite (proj2 (Z.eqb_neq m 0)), (proj2 (Z.ltb_ge m 0)) by lia. done.
    + rewrite (proj2 (Z.eqb_neq (- m) 0)), (proj2 (Z.ltb_lt (- m) 0)) by lia. done.
Qed.

(** C37 The fused multiply-add is the IEEE 754 operation, for all operands and rounding
    modes: the exact [a * b + c] is rounded once; an infinity times a zero is invalid
    even when the addend is a quiet NaN. *)
Theorem fma_sf_correct rm a b c fl :
  0 <= rm <= 4 -> fits F_SIZE a -> fits F_SIZE b -> fits F_SIZE c ->
  let '(r, fl') := fma_sf a b c rm fl in fma_spec rm a b c fl r fl'.
Proof.
  intros Hrm Ha Hb Hc. unfold fma_sf, fma_spec. rewrite !iszero_mag, inf_times_zero_code, !isnan_decode, !issignan_decode.
  pose proof (xor_sign _ _ (sign_sf_range a Ha) (sign_sf_range b Hb)) as Hs. set (s := sign_sf a .^ sign_sf b) in *.
  pose proof (sign_sf_range c Hc) as Hsc. rewrite !pack_inf by done.
  destruct ((exp_sf a =? EXP_MASK) || (exp_sf b =? EXP_MASK) || (exp_sf c =? EXP_MASK)) eqn:Ee.
  - destruct (inf_times_zero (decode a) (decode b)) eqn:Ez; [done|]. fold (is_nan (decode a)) (is_nan (decode b)) (is_nan (decode c)).
    destruct (is_nan (decode a) || is_nan (decode b) || is_nan (decode c)) eqn:En; [done|].
    apply orb_false_iff in En as [[Na Nb]%orb_false_iff Nc]. unfold is_nan in Na, Nb, Nc. rewrite <- isnan_decode in Na, Nb, Nc.
    rewrite (decode_not_nan a Na), (decode_not_nan b Nb) in Ez. rewrite (decode_not_nan a Na), (decode_not_nan b Nb), (decode_not_nan c Nc).
    destruct (Z.eqb_spec (exp_sf a) EXP_MASK) as [Ea|], (Z.eqb_spec (exp_sf b) EXP_MASK) as [Eb|], (Z.eqb_spec (exp_sf c) EXP_MASK);
      cbn [inf_times_zero] in Ez; rewrite ?Ez, ?(inf_not_zero a Ea), ?(inf_not_zero b Eb); cbn [orb andb]; try done.
    all: destruct (Z.eqb_spec s (sign_sf c)) as [E|]; cbn [negb]; by rewrite ?E.
  - apply orb_false_iff in Ee as [[Ea Eb]%orb_false_iff Ec]. apply Z.eqb_neq in Ea, Eb, Ec.
    rewrite !decode_fin by done. cbn [inf_times_zero is_nan orb].
    destruct ((mag_sf a =? 0) || (mag_sf b =? 0)) eqn:E0.
    + pose proof (zero_product rm s c fl Hs Hc Ec) as Hz. unfold fma_exact.
      assert (signed_mag s (mag_sf a * mag_sf b) = 0) as ->; [|by rewrite Z.add_0_l].
      assert (mag_sf a * mag_sf b = 0) as -> by lia. unfold signed_mag. by destruct (_ =? 1).
    + pose proof (fma_finite_correct rm s a b c fl Hrm Hs Hc ltac:(lia) ltac:(lia)) as Hf.
      destruct (fma_finite _ _ _ _ _ _ _ _ _ _) as [r fl']. by apply rounded_exact.
Qed.
End Fma.

(** [1 * 1 + 2^-24], rounded up in single precision; and an infinity times a zero
    plus a quiet NaN. *)
Lemma fma_sf_correct_witness :
  fma_spec (fmt := sf32) RM_RUP 0x3f800000 0x3f800000 0x33800000 0 0x3f800001 FFLAG_INEXACT /\
  fma_spec (fmt := sf32) RM_RUP 0x7f800000 0 0x7fc00000 0 0x7fc00000 FFLAG_INVALID_OP.
Proof.
  split.
  - assert (fma_sf (fmt := sf32) 0x3f800000 0x3f800000 0x33800000 RM_RUP 0 = (0x3f800001, FFLAG_INEXACT)) as E by (vm_compute; reflexivity).
    pose proof (fma_sf_correct (fmt := sf32) RM_RUP 0x3f800000 0x3f800000 0x33800000 0) as H. rewrite E in H.
    apply H; [unfold RM_RUP; lia|split; vm_compute; congruence..].
  - assert (fma_sf (fmt := sf32) 0x7f800000 0 0x7fc00000 RM_RUP 0 = (0x7fc00000, FFLAG_INVALID_OP)) as E by (vm_compute; reflexivity).
    pose proof (fma_sf_correct (fmt := sf32) RM_RUP 0x7f800000 0 0x7fc00000 0) as H. rewrite E in H.
    apply H; [unfold RM_RUP; lia|split; vm_compute; congruence..].
Defined.
