(* ===== verification/FpCmp.v ===== *)
(** * Floating-point comparisons, minimum, maximum and classification

    The code compares bit patterns; the specification compares the decoded values. *)

From S2P Require Import Prelude Cpu Softfp Rounding FpArith.

Section Cmp.
Context {fmt : Format} {ok : FormatOk fmt}.

(** ** The order of the values *)

(** [a < b] and [a = b] as numbers: infinities are beyond every finite number, the
    two zeros are equal, and a NaN is unordered. *)
Definition num_lt (a b : Z) : bool :=
  match decode a, decode b with
  | VFin X, VFin Y => signed_mag (sign_sf a) X <? signed_mag (sign_sf b) Y
  | VInf, VInf => (sign_sf a =? 1) && (sign_sf b =? 0)
  | VInf, VFin _ => sign_sf a =? 1
  | VFin _, VInf => sign_sf b =? 0
  | VNan _, _ | _, VNan _ => false
  end.

Definition num_eq (a b : Z) : bool :=
  match decode a, decode b with
  | VFin X, VFin Y => signed_mag (sign_sf a) X =? signed_mag (sign_sf b) Y
  | VInf, VInf => sign_sf a =? sign_sf b
  | _, _ => false
  end.

(** Patterns without the sign are ordered as the magnitudes. *)
Lemma mag_lt a b : abs_sf b < abs_sf a -> mag_sf b < mag_sf a.
Proof.
  intros H. pose proof (mant_sf_range a). pose proof (mant_sf_range b). pose proof (exp_sf_range a). pose proof (exp_sf_range b).
  assert (exp_sf b <= exp_sf a) by (unfold abs_sf in H; nia).
  unfold mag_sf. destruct (decide (bexp_sf a = bexp_sf b)) as [E|Hne].
  - rewrite E. apply Z.mul_lt_mono_pos_r; [apply pow2_pos; unfold bexp_sf; lia|].
    unfold sig_sf. unfold abs_sf, bexp_sf in *. destruct (Z.eqb_spec (exp_sf a) 0), (Z.eqb_spec (exp_sf b) 0); try lia.
    assert (exp_sf a = exp_sf b) as Ee by lia. rewrite Ee in H. lia.
  - assert (exp_sf a <> 0 /\ bexp_sf b + 1 <= bexp_sf a) as [Hn Hb] by (unfold bexp_sf in *; lia).
    pose proof (sig_range b). assert (2 ^ MANT_SIZE <= sig_sf a) by (unfold sig_sf; rewrite (proj2 (Z.eqb_neq _ _) Hn); lia).
    assert (1 <= bexp_sf b) by (unfold bexp_sf; lia).
    assert (2 * 2 ^ (bexp_sf b - 1) <= 2 ^ (bexp_sf a - 1)) by (rewrite <- Z.pow_succ_r by lia; apply Z.pow_le_mono_r; lia).
    pose proof (pow2_pos (bexp_sf b - 1)). nia.
Qed.

Lemma mag_cmp a b : (mag_sf a ?= mag_sf b) = (abs_sf a ?= abs_sf b).
Proof.
  destruct (Z.compare_spec (abs_sf a) (abs_sf b)) as [E|H|H].
  - apply Z.compare_eq_iff. pose proof (mag_le a b). pose proof (mag_le b a). lia.
  - apply Z.compare_lt_iff. by apply mag_lt.
  - apply Z.compare_gt_iff. by apply mag_lt.
Qed.

(** The signed pattern, which orders the numbers. *)
Definition fkey (a : Z) : Z := signed_mag (sign_sf a) (abs_sf a).

Lemma abs_nonneg a : 0 <= abs_sf a.
Proof. unfold abs_sf. pose proof (mant_sf_range a). pose proof (exp_sf_range a). pose proof mant_pos. nia. Qed.

Lemma mag_zero a : mag_sf a = 0 <-> abs_sf a = 0.
Proof.
  pose proof (iszero_mag a) as H. unfold abs_sf. pose proof (mant_sf_range a). pose proof (exp_sf_range a). pose proof mant_pos. nia.
Qed.

Lemma abs_fin a : exp_sf a <> EXP_MASK -> abs_sf a < INF.
Proof. intros H. unfold abs_sf, INF. pose proof (mant_sf_range a). pose proof (exp_sf_range a). pose proof mant_pos. nia. Qed.

Lemma abs_inf a : decode a = VInf -> abs_sf a = INF.
Proof.
  unfold decode. destruct (Z.eqb_spec (exp_sf a) EXP_MASK) as [E|]; [|done]. destruct (Z.eqb_spec (mant_sf a) 0) as [E0|]; [|done].
  intros _. unfold abs_sf, INF. rewrite E, E0. lia.
Qed.

Lemma decode_cases a :
  (exists b, decode a = VNan b) \/ (decode a = VInf /\ abs_sf a = INF) \/ (decode a = VFin (mag_sf a) /\ abs_sf a < INF).
Proof.
  destruct (decode a) as [b| |X] eqn:E; [eauto|right; left; auto using abs_inf|right; right].
  assert (exp_sf a <> EXP_MASK) as He by (unfold decode in E; destruct (Z.eqb_spec (exp_sf a) EXP_MASK); [by destruct (_ =? 0)|done]).
  rewrite decode_fin in E by done. split; [by rewrite E|by apply abs_fin].
Qed.

Lemma INF_pos : 0 < INF.
Proof. unfold INF. pose proof EXP_MASK_eq. pose proof exp_pos. pose proof mant_pos. nia. Qed.

Lemma num_key a b :
  fits F_SIZE a -> fits F_SIZE b -> isnan_sf a = false -> isnan_sf b = false ->
  num_lt a b = (fkey a <? fkey b) /\ num_eq a b = (fkey a =? fkey b).
Proof.
  intros Ha Hb Na Nb. rewrite isnan_decode in Na, Nb. unfold num_lt, num_eq, fkey.
  pose proof (sign_sf_range a Ha) as Sa. pose proof (sign_sf_range b Hb) as Sb.
  pose proof (abs_nonneg a). pose proof (abs_nonneg b). pose proof (mag_nonneg a). pose proof (mag_nonneg b).
  pose proof (mag_zero a). pose proof (mag_zero b). pose proof (mag_cmp a b) as Hc. assert (0 < INF) as HI by apply INF_pos.
  destruct (decode_cases a) as [[? E]|[[-> Ea]|[-> Ea]]]; [by rewrite E in Na|..];
    (destruct (decode_cases b) as [[? E]|[[-> Eb]|[-> Eb]]]; [by rewrite E in Nb|..]);
    unfold signed_mag; destruct Sa as [-> | ->], Sb as [-> | ->]; cbn [Z.eqb Pos.eqb andb];
    try (split; lia).
  all: destruct (Z.compare_spec (abs_sf a) (abs_sf b)), (Z.compare_spec (mag_sf a) (mag_sf b)); try done; split; lia.
Qed.

(** ** What the code tests *)

Lemma zeros_test a b : fits F_SIZE a -> fits F_SIZE b -> (F_UINT ((a .| b) << 1) =? 0) = (abs_sf a =? 0) && (abs_sf b =? 0).
Proof.
  intros Ha Hb. rewrite !abs_sf_mod. unfold F_UINT, trunc. rewrite Z.shiftl_mul_pow2 by lia. change (2 ^ 1) with 2.
  rewrite (Z.mul_comm _ 2), pow_F2. assert (0 < 2 ^ (F_SIZE - 1)) by (apply pow2_pos; sizes).
  rewrite Zmult_mod_distr_l, <- !Z.land_ones by sizes. rewrite Z.land_lor_distr_l.
  apply eq_bool_prop_intro. rewrite andb_True, !Is_true_true, !Z.eqb_eq.
  rewrite <- Z.lor_eq_0_iff. lia.
Qed.

Lemma key_same a b :
  fits F_SIZE a -> fits F_SIZE b -> sign_sf a = sign_sf b ->
  (fkey a <? fkey b) = (if nz (sign_sf a) then b <? a else a <? b) /\ (fkey a =? fkey b) = (a =? b).
Proof.
  intros Ha Hb E. pose proof (unpack_eq a Ha) as Ea. pose proof (unpack_eq b Hb) as Eb. unfold signed in *. rewrite E in *.
  unfold fkey, signed_mag. rewrite E. destruct (sign_sf_range b Hb) as [Es|Es]; rewrite Es in *; cbn [nz negb Z.eqb Pos.eqb]; split; lia.
Qed.

Lemma key_diff a b :
  fits F_SIZE a -> fits F_SIZE b -> sign_sf a <> sign_sf b ->
  (fkey a <? fkey b) = nz (sign_sf a) && negb ((abs_sf a =? 0) && (abs_sf b =? 0)) /\
  (fkey a =? fkey b) = (abs_sf a =? 0) && (abs_sf b =? 0) /\ (a =? b) = false.
Proof.
  intros Ha Hb Hne. pose proof (abs_nonneg a). pose proof (abs_nonneg b). split_and!; [..|apply Z.eqb_neq; by intros ->].
  all: unfold fkey, signed_mag; destruct (sign_sf_range a Ha) as [E | E], (sign_sf_range b Hb) as [E' | E'];
    rewrite E, E' in *; try done; cbn [nz negb andb Z.eqb Pos.eqb]; lia.
Qed.

(** ** The comparisons *)

Lemma nan_unordered a b : any_nan a b = true -> num_lt a b = false /\ num_eq a b = false.
Proof. unfold any_nan, num_lt, num_eq. rewrite !isnan_decode. by destruct (decode a), (decode b). Qed.

(** The comparisons decide the order of the numbers: equality and order are those of
    the values, zeros of either sign are equal and NaNs are unordered; [flt] and
    [fle] raise the invalid flag for any NaN, [feq] for a signaling one only. *)
Lemma comparisons_correct a b fl :
  fits F_SIZE a -> fits F_SIZE b ->
  let nan := is_nan (decode a) || is_nan (decode b) in
  let signaling := is_signaling (decode a) || is_signaling (decode b) in
  lt_sf a b fl = (num_lt a b, raise_if nan FFLAG_INVALID_OP fl) /\
  le_sf a b fl = (num_lt a b || num_eq a b, raise_if nan FFLAG_INVALID_OP fl) /\
  eq_quiet_sf a b fl = (num_eq a b, raise_if signaling FFLAG_INVALID_OP fl).
Proof.
  intros Ha Hb. cbv zeta. unfold is_nan, is_signaling. rewrite <- !isnan_decode, <- !issignan_decode.
  fold (any_nan a b) (any_signan a b). unfold lt_sf, le_sf, eq_quiet_sf. destruct (any_nan a b) eqn:En.
  { destruct (nan_unordered a b En) as [-> ->]. done. }
  assert (any_signan a b = false) as -> by (unfold any_nan, any_signan in *; rewrite !isnan_decode, !issignan_decode in *; by destruct (decode a), (decode b)).
  unfold any_nan in En. apply orb_false_iff in En as [Na Nb]. destruct (num_key a b Ha Hb Na Nb) as [-> ->].
  change (nz (F_UINT ((a .| b) << 1))) with (negb (F_UINT ((a .| b) << 1) =? 0)). rewrite zeros_test by done. cbn [raise_if].
  destruct (Z.eqb_spec (sign_sf a) (sign_sf b)) as [E|Hne]; cbn [negb].
  - destruct (key_same a b Ha Hb E) as [-> ->]. destruct ((abs_sf a =? 0) && (abs_sf b =? 0)) eqn:Ez.
    + assert (a = b) as -> by (rewrite (unpack_eq a Ha), (unpack_eq b Hb), E; f_equal; lia).
      rewrite Z.eqb_refl. destruct (nz _); split_and!; try done; f_equal; lia.
    + destruct (nz _); split_and!; try done; f_equal; lia.
  - destruct (key_diff a b Ha Hb Hne) as (-> & -> & ->). destruct ((abs_sf a =? 0) && (abs_sf b =? 0)), (nz (sign_sf a)); done.
Qed.

(** The order of the minimum, in which -0 is before +0. *)
Definition before (a b : Z) : bool := num_lt a b || (num_eq a b && (sign_sf b <=? sign_sf a)).

(** The minimum and the maximum: of two numbers the first and the last in the order
    that puts -0 before +0; of a number and a NaN the number; of two NaNs the
    canonical one. *)
Lemma min_max_correct a b fl :
  fits F_SIZE a -> fits F_SIZE b ->
  let nan x y := if is_nan (decode a) then if is_nan (decode b) then F_QNAN else b
                 else if is_nan (decode b) then a else if before a b then x else y in
  let fl' := raise_if (is_signaling (decode a) || is_signaling (decode b)) FFLAG_INVALID_OP fl in
  min_sf a b fl = (nan a b, fl') /\ max_sf a b fl = (nan b a, fl').
Proof.
  intros Ha Hb. cbv zeta. unfold is_nan, is_signaling. rewrite <- !isnan_decode, <- !issignan_decode.
  fold (any_signan a b). unfold min_sf, max_sf. destruct (any_nan a b) eqn:En.
  { unfold any_nan in En. by destruct (isnan_sf a), (isnan_sf b). }
  assert (any_signan a b = false) as -> by (unfold any_nan, any_signan in *; rewrite !isnan_decode, !issignan_decode in *; by destruct (decode a), (decode b)).
  unfold any_nan in En. apply orb_false_iff in En as [Na Nb]. rewrite Na, Nb. unfold before. destruct (num_key a b Ha Hb Na Nb) as [-> ->].
  cbn [raise_if]. destruct (Z.eqb_spec (sign_sf a) (sign_sf b)) as [E|Hne]; cbn [negb].
  - destruct (key_same a b Ha Hb E) as [-> ->]. rewrite E, Z.leb_refl, andb_true_r.
    destruct (sign_sf_range b Hb) as [-> | ->]; cbn [nz negb Z.eqb]; unfold nz;
      destruct (Z.ltb_spec a b), (Z.ltb_spec b a), (Z.eqb_spec a b); cbn; subst; try done; try lia.
  - destruct (key_diff a b Ha Hb Hne) as (-> & -> & _).
    destruct (sign_sf_range a Ha) as [E|E], (sign_sf_range b Hb) as [E'|E']; rewrite E, E' in *; try done; cbn [nz negb Z.eqb andb orb Z.leb Z.compare];
      by destruct ((abs_sf a =? 0) && (abs_sf b =? 0)).
Qed.

(** The class of a float, by its value. *)
Definition fclass_spec (a : Z) : Z :=
  let neg := sign_sf a =? 1 in
  match decode a with
  | VNan true => FCLASS_SNAN
  | VNan false => FCLASS_QNAN
  | VInf => if neg then FCLASS_NINF else FCLASS_PINF
  | VFin X =>
      if X =? 0 then if neg then FCLASS_NZERO else FCLASS_PZERO
      else if X <? 2 ^ MANT_SIZE then if neg then FCLASS_NSUBNORMAL else FCLASS_PSUBNORMAL
      else if neg then FCLASS_NNORMAL else FCLASS_PNORMAL
  end.

Lemma fclass_correct a : fits F_SIZE a -> fclass_sf a = fclass_spec a.
Proof.
  intros Ha. unfold fclass_sf, fclass_spec. assert (nz (sign_sf a) = (sign_sf a =? 1)) as -> by (by destruct (sign_sf_range a Ha) as [-> | ->]).
  assert (has (mant_sf a) QNAN_MASK = Z.testbit a (MANT_SIZE - 1)) as ->.
  { unfold mant_sf, QNAN_MASK. rewrite land_MANT_MASK, has_bit by sizes. apply Z.mod_pow2_bits_low. lia. }
  unfold decode. destruct (Z.eqb_spec (exp_sf a) EXP_MASK).
  { unfold nz. destruct (mant_sf a =? 0), (Z.testbit a _), (sign_sf a =? 1); done. }
  rewrite <- iszero_mag. unfold mag_sf, sig_sf, bexp_sf. pose proof (mant_sf_range a). pose proof (exp_sf_range a). pose proof mant_pos.
  destruct (Z.eqb_spec (exp_sf a) 0) as [E|E]; cbn [andb].
  - rewrite E. change (2 ^ (Z.max 1 0 - 1)) with 1. rewrite Z.mul_1_r, (proj2 (Z.ltb_lt _ _)) by lia. done.
  - rewrite (proj2 (Z.ltb_ge _ _)); [done|]. pose proof (pow2_pos (Z.max 1 (exp_sf a) - 1)). nia.
Qed.
End Cmp.

(** -0 against +0, and a signaling NaN, in single precision. *)
Lemma comparisons_correct_witness :
  lt_sf (fmt := sf32) 0x80000000 0 0 = (false, 0) /\ eq_quiet_sf (fmt := sf32) 0x80000000 0 0 = (true, 0) /\
  eq_quiet_sf (fmt := sf32) 0x7f800001 0 0 = (false, FFLAG_INVALID_OP).
Proof.
  destruct (comparisons_correct (fmt := sf32) 0x80000000 0 0) as (-> & _ & ->); [split; vm_compute; congruence..|].
  destruct (comparisons_correct (fmt := sf32) 0x7f800001 0 0) as (_ & _ & ->); [split; vm_compute; congruence..|].
  vm_compute. auto.
Defined.

Lemma min_max_correct_witness :
  min_sf (fmt := sf32) 0 0x80000000 0 = (0x80000000, 0) /\ max_sf (fmt := sf32) 0x7fc00000 0x3f800000 0 = (0x3f800000, 0).
Proof.
  destruct (min_max_correct (fmt := sf32) 0 0x80000000 0) as [-> _]; [split; vm_compute; congruence..|].
  destruct (min_max_correct (fmt := sf32) 0x7fc00000 0x3f800000 0) as [_ ->]; [split; vm_compute; congruence..|].
  vm_compute. auto.
Defined.
