(* ===== verification/FpConv.v ===== *)
(** * Conversions between floats and integers

    [internal_cvt_sf_i] rounds to an integer of [n] bits and saturates;
    [internal_cvt_i_sf] rounds an integer of [n] bits to a float. *)

From Stdlib Require Import Reals Lra.
From S2P Require Import Prelude Cpu Softfp Rounding FpArith FpDiv.

Section ToInt.
Context {fmt : Format} {ok : FormatOk fmt}.

(** ** To integers *)

(** Rounding to an integer in [lo, hi]: out of range, infinities and NaNs saturate and
    raise the invalid flag; a NaN counts as positive. *)
Definition to_int_spec (lo hi rm a fl r fl' : Z) : Prop :=
  let saturated s := r = (if s =? 1 then lo else hi) /\ fl' = fl .| FFLAG_INVALID_OP in
  match decode a with
  | VNan _ => saturated 0
  | VInf => saturated (sign_sf a)
  | VFin X =>
      exists m, rounds_to rm (sign_sf a) (IZR X * p2 QMIN) m /\
        let v := signed_mag (sign_sf a) m in
        if (lo <=? v) && (v <=? hi) then
          r = v /\ exists inexact : bool,
            (inexact = true <-> (IZR X * p2 QMIN)%R <> IZR m) /\ fl' = raise_if inexact FFLAG_INEXACT fl
        else saturated (sign_sf a)
  end.

Lemma to_int_range lo hi rm a fl r fl' : lo <= hi -> to_int_spec lo hi rm a fl r fl' -> lo <= r <= hi.
Proof.
  intros Hle. unfold to_int_spec. destruct (decode a) as [?| |X]; [intros [-> _]; done|intros [-> _]; case_match; lia|].
  intros (m & _ & H). cbv zeta in H. destruct ((_ <=? _) && _) eqn:E; destruct H as [-> _]; [lia|case_match; lia].
Qed.

Lemma sgn_mod n x y : 0 <= n -> trunc n x = trunc n y -> sgn n x = sgn n y.
Proof. intros Hn E. unfold sgn. by rewrite E. Qed.

Definition int_lo (n : Z) (is_unsigned : bool) : Z := if is_unsigned then 0 else - 2 ^ (n - 1).
Definition int_hi (n : Z) (is_unsigned : bool) : Z := if is_unsigned then 2 ^ n - 1 else 2 ^ (n - 1) - 1.

Lemma pow_pred n : 1 <= n -> 2 ^ n = 2 * 2 ^ (n - 1).
Proof. intros Hn. rewrite <- Z.pow_succ_r by lia. f_equal. lia. Qed.

(** The bound on the magnitude that the code computes. *)
Lemma r_max_eq n s (u : bool) :
  1 <= n -> s = 0 \/ s = 1 ->
  (if u then trunc n (s - 1) else trunc n ((1 << (n - 1)) - (s .^ 1))) = if s =? 1 then - int_lo n u else int_hi n u.
Proof.
  intros Hn Hs. pose proof (pow_pred n Hn). pose proof (pow2_pos (n - 1) ltac:(lia)). rewrite Z.shiftl_1_l. unfold int_lo, int_hi.
  destruct u, Hs as [-> | ->]; cbn [Z.sub Z.eqb Pos.eqb Z.opp Z.lxor].
  - unfold trunc. symmetry. apply (Z.mod_unique _ _ (-1)); lia.
  - unfold trunc. rewrite Z.mod_0_l; lia.
  - change (0 .^ 1) with 1. rewrite trunc_small by (split; lia). done.
  - change (1 .^ 1) with 0. rewrite trunc_small by (split; lia). lia.
Qed.

Lemma int_bounds n (u : bool) : 1 <= n -> int_lo n u <= 0 <= int_hi n u.
Proof. intros Hn. pose proof (pow_pred n Hn). pose proof (pow2_pos (n - 1) ltac:(lia)). unfold int_lo, int_hi. destruct u; lia. Qed.

Lemma int_max_small n s (u : bool) : 1 <= n -> (if s =? 1 then - int_lo n u else int_hi n u) < 2 ^ n.
Proof. intros Hn. pose proof (pow_pred n Hn). pose proof (pow2_pos (n - 1) ltac:(lia)). unfold int_lo, int_hi. destruct u; case_match; lia. Qed.

Lemma sgn_saturated n s (u : bool) :
  1 <= n -> sgn n (if s =? 1 then - int_lo n u else int_hi n u) = sgn n (if s =? 1 then int_lo n u else int_hi n u).
Proof.
  intros Hn. pose proof (pow_pred n Hn) as E. destruct (s =? 1); [|done]. apply sgn_mod; [lia|]. unfold int_lo. destruct u; [done|].
  unfold trunc. rewrite Z.opp_involutive. symmetry. replace (2 ^ (n - 1)) with (- 2 ^ (n - 1) + 1 * 2 ^ n) at 2 by lia. symmetry. apply Z.mod_add. lia.
Qed.

Lemma in_range n s (u : bool) m :
  1 <= n -> s = 0 \/ s = 1 -> 0 <= m ->
  (int_lo n u <=? signed_mag s m) && (signed_mag s m <=? int_hi n u) = negb ((if s =? 1 then - int_lo n u else int_hi n u) <? m).
Proof. intros Hn Hs Hm. pose proof (int_bounds n u Hn). unfold signed_mag. destruct Hs as [-> | ->]; cbn [Z.eqb Pos.eqb]; lia. Qed.

Lemma negate_eq n s r :
  0 <= n -> s = 0 \/ s = 1 -> sgn n (if nz s then trunc n (- r) else r) = sgn n (signed_mag s r).
Proof. intros Hn [-> | ->]; cbn [nz negb Z.eqb Pos.eqb]; unfold signed_mag; cbn [Z.eqb Pos.eqb]; [done|by apply sgn_trunc]. Qed.

(** The significand and the exponent of the code. *)
Lemma cvt_unpack a :
  (if exp_sf a =? 0 then (1, mant_sf a) else (exp_sf a, mant_sf a .| (1 << MANT_SIZE))) = (bexp_sf a, sig_sf a).
Proof.
  unfold bexp_sf, sig_sf. pose proof (exp_sf_range a). pose proof (mant_sf_range a).
  destruct (Z.eqb_spec (exp_sf a) 0) as [E|E]; [by rewrite E|]. f_equal; [lia|].
  rewrite Z.lor_comm, lor_disjoint by (sizes || done). lia.
Qed.

Lemma sig_shift a : F_UINT (sig_sf a << RND_SIZE) = sig_sf a * 2 ^ RND_SIZE /\ fits (F_SIZE - 1) (sig_sf a * 2 ^ RND_SIZE).
Proof.
  pose proof (sig_range a). assert (0 < 2 ^ RND_SIZE) by (apply pow2_pos; sizes). pose proof mant_pos.
  assert (2 ^ (F_SIZE - 1) = 2 * 2 ^ MANT_SIZE * 2 ^ RND_SIZE) as E.
  { rewrite <- Z.mul_assoc, <- Z.pow_add_r, <- Z.pow_succ_r by sizes. f_equal. sizes. }
  assert (fits (F_SIZE - 1) (sig_sf a * 2 ^ RND_SIZE)) as Hf by (unfold fits; rewrite E; nia).
  split; [|done]. rewrite Z.shiftl_mul_pow2 by sizes. apply trunc_small. apply (fits_mono (F_SIZE - 1)); [lia|done].
Qed.

(** The value of a finite float. *)
Lemma value_exp a : (IZR (mag_sf a) * p2 QMIN = IZR (sig_sf a) * p2 (bexp_sf a - EXP_MASK / 2 - MANT_SIZE))%R.
Proof.
  unfold mag_sf. assert (1 <= bexp_sf a) by (unfold bexp_sf; lia).
  rewrite mult_IZR, <- p2_Z, Rmult_assoc, <- p2_add by lia. do 2 f_equal. unfold QMIN. rewrite EXP_MASK_half. lia.
Qed.

(** A value beyond [n] bits is out of range. *)
Lemma beyond_range a n :
  exp_sf a <> 0 -> 1 <= n -> 0 <= bexp_sf a - EXP_MASK / 2 - MANT_SIZE -> n - MANT_SIZE <= bexp_sf a - EXP_MASK / 2 - MANT_SIZE ->
  2 ^ n <= sig_sf a * 2 ^ (bexp_sf a - EXP_MASK / 2 - MANT_SIZE).
Proof.
  intros He Hn H0 Hk. set (k := bexp_sf a - _ - _) in *.
  assert (2 ^ MANT_SIZE <= sig_sf a) by (unfold sig_sf; rewrite (proj2 (Z.eqb_neq _ _) He); pose proof (mant_sf_range a); lia).
  apply Z.le_trans with (2 ^ MANT_SIZE * 2 ^ k); [rewrite <- Z.pow_add_r by sizes; apply Z.pow_le_mono_r; lia|].
  apply Z.mul_le_mono_nonneg_r; [|done]. pose proof (pow2_pos k H0). lia.
Qed.

(** The saturated result. *)
Lemma cvt_saturated n rm a fl (u : bool) s :
  1 <= n -> s = (if isnan_sf a then 0 else sign_sf a) -> exp_sf a = EXP_MASK ->
  exists w, sgn n (if s =? 1 then - int_lo n u else int_hi n u) = sgn n w /\
    to_int_spec (int_lo n u) (int_hi n u) rm a fl w (fl .| FFLAG_INVALID_OP).
Proof.
  intros Hn -> He. exists (if (if isnan_sf a then 0 else sign_sf a) =? 1 then int_lo n u else int_hi n u). split; [by apply sgn_saturated|].
  unfold to_int_spec. rewrite isnan_decode. unfold decode. rewrite He, Z.eqb_refl. by destruct (_ =? 0).
Qed.

(** The end of the conversion of a finite float that rounds to the magnitude [m]. *)
Lemma cvt_finish n rm a fl (u inexact : bool) m :
  let s := sign_sf a in
  let r_max := if s =? 1 then - int_lo n u else int_hi n u in
  1 <= n -> s = 0 \/ s = 1 -> exp_sf a <> EXP_MASK -> 0 <= m -> rounds_to rm s (IZR (mag_sf a) * p2 QMIN) m ->
  (inexact = true <-> (IZR (mag_sf a) * p2 QMIN)%R <> IZR m) ->
  let '(r, fl') :=
    if r_max <? m then (sgn n r_max, fl .| FFLAG_INVALID_OP)
    else (sgn n (if nz s then trunc n (- m) else m), raise_if inexact FFLAG_INEXACT fl) in
  exists w, r = sgn n w /\ to_int_spec (int_lo n u) (int_hi n u) rm a fl w fl'.
Proof.
  intros s r_max Hn Hs He Hm Hr Hi. unfold to_int_spec. rewrite decode_fin by done. fold s.
  pose proof (in_range n s u m Hn Hs Hm) as Hin. fold r_max in Hin. destruct (r_max <? m).
  - exists (if s =? 1 then int_lo n u else int_hi n u). split; [by apply sgn_saturated|]. exists m. split; [done|].
    cbv zeta. rewrite Hin. done.
  - exists (signed_mag s m). split; [apply negate_eq; [lia|done]|]. exists m. split; [done|]. cbv zeta. rewrite Hin. cbn [negb]. eauto.
Qed.

Lemma internal_cvt_sf_i_correct n rm a fl (u : bool) :
  0 <= rm <= 4 -> fits F_SIZE a -> 1 <= n <= 2 ^ (EXP_SIZE - 1) ->
  let '(r, fl') := internal_cvt_sf_i n a rm fl u in
  exists w, r = sgn n w /\ to_int_spec (int_lo n u) (int_hi n u) rm a fl w fl'.
Proof.
  intros Hrm Ha [Hn Hn']. unfold internal_cvt_sf_i. rewrite cvt_unpack.
  assert ((exp_sf a =? EXP_MASK) && nz (mant_sf a) = isnan_sf a) as -> by done.
  pose proof (sign_sf_range a Ha) as Hs. destruct (sig_shift a) as [-> HM]. pose proof (sig_range a). pose proof mant_pos.
  set (s := if isnan_sf a then 0 else sign_sf a). assert (s = 0 \/ s = 1) as Hs' by (unfold s; destruct (isnan_sf a); auto).
  rewrite r_max_eq by done. set (e := bexp_sf a - EXP_MASK / 2 - MANT_SIZE). pose proof EXP_MASK_half as Eh.
  pose proof EXP_MASK_eq as Em. rewrite (pow_pred EXP_SIZE) in Em by sizes. pose proof mant_exp_ok.
  destruct (decide (exp_sf a = EXP_MASK)) as [He|He].
  { assert (0 <= e /\ n - 1 - MANT_SIZE < e) as [] by (unfold e, bexp_sf; lia).
    rewrite (proj2 (Z.leb_le 0 e)), (proj2 (Z.leb_gt e _)) by lia. by apply cvt_saturated. }
  assert (s = sign_sf a) as E by (unfold s; by destruct (isnan_sf a) eqn:En; [unfold isnan_sf in En; rewrite (proj2 (Z.eqb_neq _ _) He) in En|]).
  rewrite E. pose proof (int_max_small n (sign_sf a) u Hn) as Hmax. pose proof (value_exp a) as Hv. fold e in Hv.
  destruct (Z.leb_spec 0 e) as [He1|He1].
  - assert (exp_sf a <> 0) as He0 by (unfold e, bexp_sf in *; sizes). pose proof (pow2_pos e He1).
    assert (IZR (mag_sf a) * p2 QMIN = IZR (sig_sf a * 2 ^ e))%R as Hv' by (by rewrite Hv, mult_IZR, p2_Z by done).
    pose proof (cvt_finish n rm a fl u false (sig_sf a * 2 ^ e)) as Hf. cbv zeta in Hf. rewrite Hv' in Hf.
    specialize (Hf Hn Hs He ltac:(nia) (rounds_exact _ _ _) ltac:(done)).
    destruct (Z.leb_spec e (n - 1 - MANT_SIZE)).
    + assert (trunc n (trunc n ((sig_sf a * 2 ^ RND_SIZE) >> RND_SIZE) << e) = sig_sf a * 2 ^ e) as ->; [|done].
      rewrite Z.shiftr_div_pow2, Z.div_mul, Z.shiftl_mul_pow2, trunc_mul_l by (done || sizes || (apply Z.pow_nonzero; sizes)).
      apply trunc_small. split; [nia|].
      apply Z.lt_le_trans with (2 ^ Z.succ MANT_SIZE * 2 ^ e); [rewrite Z.pow_succ_r by sizes; nia|].
      rewrite <- Z.pow_add_r by sizes. apply Z.pow_le_mono_r; lia.
    + rewrite (proj2 (Z.ltb_lt _ _)) in Hf; [done|]. assert (2 ^ n <= sig_sf a * 2 ^ e); [|lia]. apply beyond_range; (done || lia).
  - set (M := rshift_rnd (sig_sf a * 2 ^ RND_SIZE) (- e)). set (v := (IZR (mag_sf a) * p2 QMIN)%R) in *.
    assert (fits (F_SIZE - 1) M) as HMf by (apply rshift_fits; [sizes|lia|done]).
    destruct (stands_rshift 0 (sig_sf a * 2 ^ RND_SIZE) (v * p2 RND_SIZE) (- e)) as (p & Hp & Hst).
    { apply (fits_mono (F_SIZE - 1)); [lia|done]. } { lia. } { lia. }
    { replace (v * p2 RND_SIZE * p2 (- e))%R with (IZR (sig_sf a * 2 ^ RND_SIZE)); [apply stands_exact|].
      rewrite mult_IZR, <- p2_Z, Hv by sizes. rewrite (Rmult_assoc _ (p2 e)), (Rmult_comm (p2 e)), !Rmult_assoc, p2_opp. lra. }
    fold M in Hst. destruct (round_mant_correct rm (sign_sf a) M p v) as (Hr & Hz & Hq); [done|done|done|sizes|done|].
    cbv zeta in Hr, Hz, Hq. set (m := round_mant rm (rnd_addend (sign_sf a) rm) M) in *.
    assert (0 <= m) as Hm by (assert (0 <= M / 2 ^ RND_SIZE) by (destruct HMf; apply Z.div_pos; [lia|apply pow2_pos; sizes]); lia).
    assert (nz (M .& rnd_mask) = true <-> v <> IZR m) as Hx.
    { unfold nz. destruct (Z.eqb_spec (M .& rnd_mask) 0) as [E0|E0]; cbn [negb]; split; try done.
      - intros Hv'. destruct Hv'. tauto.
      - intros _ Hv'. tauto. }
    pose proof (cvt_finish n rm a fl u (nz (M .& rnd_mask)) m) as Hf. cbv zeta in Hf.
    specialize (Hf Hn Hs He Hm Hr Hx). destruct (Z.ltb_spec (if sign_sf a =? 1 then - int_lo n u else int_hi n u) m) as [|Hle]; [done|].
    rewrite (trunc_small n m) by (split; lia). done.
Qed.

(** Conversion to an integer of 32, 64 or 128 bits, signed or unsigned: the value is
    rounded in the given mode; a result out of range, an infinity or a NaN saturates
    and raises the invalid flag, and a rounded result in range the inexact flag. *)
Lemma cvt_to_int_correct n rm a fl :
  0 <= rm <= 4 -> fits F_SIZE a -> 1 <= n <= 2 ^ (EXP_SIZE - 1) ->
  (let '(r, fl') := cvt_sf_i n a rm fl in to_int_spec (- 2 ^ (n - 1)) (2 ^ (n - 1) - 1) rm a fl r fl') /\
  (let '(r, fl') := cvt_sf_u n a rm fl in to_int_spec 0 (2 ^ n - 1) rm a fl r fl').
Proof.
  intros Hrm Ha Hn. unfold cvt_sf_i, cvt_sf_u.
  pose proof (internal_cvt_sf_i_correct n rm a fl false Hrm Ha Hn) as Hi.
  pose proof (internal_cvt_sf_i_correct n rm a fl true Hrm Ha Hn) as Hu.
  destruct (internal_cvt_sf_i n a rm fl false) as [r fl1], (internal_cvt_sf_i n a rm fl true) as [r' fl2].
  destruct Hi as (w & -> & Hi), Hu as (w' & -> & Hu). unfold int_lo, int_hi in *. pose proof (pow_pred n ltac:(lia)).
  pose proof (pow2_pos (n - 1) ltac:(lia)). split.
  - apply to_int_range in Hi as Hw; [|lia]. rewrite sgn_id by lia. done.
  - apply to_int_range in Hu as Hw; [|lia]. rewrite trunc_sgn, trunc_small by (unfold fits; lia). done.
Qed.

(** ** From integers *)

(** [r] is the rounding of the integer [v]. *)
Definition from_int_spec (rm v fl r fl' : Z) : Prop :=
  correctly_rounded rm (b2z (v <? 0)) (IZR (Z.abs v) * p2 (- QMIN)) fl r fl'.

(** The reduction of the range, with a sticky bit. *)
Lemma reduce_eq n r :
  0 <= r -> let l := n - clz_n n r - (F_SIZE - 1) in
  (if 0 <? l then
     let mask := r .& ((1 << l) - 1) in ((r >> l) .| b2z (has r mask), EXP_MASK / 2 + F_SIZE - 2 + l)
   else (r, EXP_MASK / 2 + F_SIZE - 2)) =
  let k := Z.max 0 (Z.log2 r + 2 - F_SIZE) in (sticky r k, EXP_MASK / 2 + F_SIZE - 2 + k).
Proof.
  intros Hr. cbv zeta. unfold clz_n. destruct (Z.eqb_spec r 0) as [-> |Hne].
  - rewrite (proj2 (Z.ltb_ge 0 _)) by sizes. cbn [Z.log2]. rewrite Z.max_l by sizes. unfold sticky. f_equal. lia.
  - replace (n - (n - 1 - Z.log2 r) - (F_SIZE - 1)) with (Z.log2 r + 2 - F_SIZE) by lia. set (l := Z.log2 r + 2 - F_SIZE).
    destruct (Z.ltb_spec 0 l).
    + rewrite Z.max_r by lia. f_equal. unfold sticky. do 2 f_equal. rewrite <- has_ones by lia. unfold has.
      by rewrite Z.land_assoc, Z.land_diag.
    + rewrite Z.max_l by lia. unfold sticky. rewrite Z.mod_1_r, Z.shiftr_0_r, Z.lor_0_r. f_equal. lia.
Qed.

(** The reduced integer is in the range of [normalize_sf]. *)
Lemma reduce_bounds r :
  0 <= r -> let k := Z.max 0 (Z.log2 r + 2 - F_SIZE) in
  fits (F_SIZE - 1) (sticky r k) /\ (k = 0 \/ 2 ^ (F_SIZE - 2) <= sticky r k).
Proof.
  intros Hr. cbv zeta. set (k := Z.max 0 _). pose proof (Z.log2_nonneg r).
  assert (2 ^ (F_SIZE - 1) = 2 * 2 ^ (F_SIZE - 2)) as E1 by (rewrite <- Z.pow_succ_r by sizes; f_equal; lia).
  assert (2 ^ (F_SIZE - 2) = 2 * 2 ^ (F_SIZE - 3)) as E2 by (rewrite <- Z.pow_succ_r by sizes; f_equal; lia).
  destruct (decide (r = 0)) as [-> |Hne].
  { assert (k = 0) as -> by (unfold k; cbn [Z.log2]; sizes). split; [|by left]. change (sticky 0 0) with 0. split; [done|apply pow2_pos; sizes]. }
  destruct (Z.log2_spec r) as [H1 H2]; [lia|]. destruct (sticky_cases r k) as (E & Hm & ->); [lia|].
  pose proof (Z.mod_pos_bound (r / 2 ^ k) 2). pose proof (Z.div_mod (r / 2 ^ k) 2). pose proof (pow2_pos k ltac:(lia)).
  assert (0 <= r / 2 ^ k) by (apply Z.div_pos; lia).
  assert (r / 2 ^ k < 2 ^ (F_SIZE - 1)) as Hlt.
  { apply Z.div_lt_upper_bound; [done|]. rewrite <- Z.pow_add_r by sizes.
    apply Z.lt_le_trans with (2 ^ Z.succ (Z.log2 r)); [done|]. apply Z.pow_le_mono_r; lia. }
  split; [unfold fits; destruct (nz _); lia|].
  destruct (decide (k = 0)); [by left|right]. assert (2 ^ (F_SIZE - 2) <= r / 2 ^ k) as Hge.
  { apply Z.div_le_lower_bound; [done|]. rewrite <- Z.pow_add_r by sizes.
    apply Z.le_trans with (2 ^ Z.log2 r); [|done]. apply Z.pow_le_mono_r; lia. }
  destruct (nz _); lia.
Qed.

Lemma from_nat_correct rm s r fl :
  0 <= rm <= 4 -> s = 0 \/ s = 1 -> 0 <= r ->
  let k := Z.max 0 (Z.log2 r + 2 - F_SIZE) in
  let '(x, fl') := normalize_sf s (EXP_MASK / 2 + F_SIZE - 2 + k) (F_UINT (sticky r k)) rm fl in
  correctly_rounded rm s (IZR r * p2 (- QMIN)) fl x fl'.
Proof.
  intros Hrm Hs Hr k. destruct (reduce_bounds r Hr) as [Hf Hk]. fold k in Hf, Hk.
  unfold F_UINT. rewrite trunc_small by (apply (fits_mono (F_SIZE - 1)); [lia|done]).
  replace (IZR r * p2 (- QMIN))%R with (IZR r * p2 (- k) * p2 (EXP_MASK / 2 + F_SIZE - 2 + k - 1 - RND_SIZE))%R.
  2: { rewrite Rmult_assoc, <- p2_add. do 2 f_equal. rewrite EXP_MASK_half. unfold QMIN. sizes. }
  destruct (decide (k = 0)) as [E0|Hne].
  - rewrite E0 in *. apply (normalize_correct rm s _ _ 0); [done..|lia| |by left]. change (- 0) with 0. rewrite p2_0, Rmult_1_r.
    unfold sticky. rewrite Z.mod_1_r, Z.shiftr_0_r, Z.lor_0_r. apply stands_exact.
  - destruct Hk as [|Hk]; [done|]. apply (normalize_correct rm s _ _ 1); [done..|lia| |right].
    + replace 1 with (Z.max 1 (0 - k)) by lia. apply stands_sticky; [done|lia|].
      rewrite Rmult_assoc, (Rmult_comm (p2 (- k))), p2_opp, Rmult_1_r. apply stands_exact.
    + apply Z.le_trans with (2 ^ (F_SIZE - 2)); [apply Z.pow_le_mono_r; sizes|done].
Qed.

(** Conversion of an integer of any width, signed or unsigned, to a float: the integer
    correctly rounded; the most negative one included. *)
Lemma cvt_from_int_correct n rm a fl :
  0 <= rm <= 4 -> 1 <= n ->
  (let '(r, fl') := cvt_i_sf n a rm fl in from_int_spec rm (sgn n a) fl r fl') /\
  (let '(r, fl') := cvt_u_sf n a rm fl in from_int_spec rm (trunc n a) fl r fl').
Proof.
  intros Hrm Hn. unfold cvt_i_sf, cvt_u_sf, internal_cvt_i_sf, from_int_spec. pose proof (pow_pred n Hn).
  pose proof (sgn_range n a ltac:(lia)). pose proof (trunc_fits n a ltac:(lia)) as [T0 T1]. cbn [negb andb]. split.
  - assert ((if sgn n a <? 0 then (1, trunc n (- sgn n a)) else (0, trunc n (sgn n a))) = (b2z (sgn n a <? 0), Z.abs (sgn n a))) as ->.
    { destruct (Z.ltb_spec (sgn n a) 0); cbn [b2z]; rewrite trunc_small by (split; lia); f_equal; lia. }
    pose proof (reduce_eq n (Z.abs (sgn n a)) ltac:(lia)) as E. cbv zeta in E |- *. rewrite E.
    apply from_nat_correct; [done|destruct (_ <? 0); auto|lia].
  - rewrite trunc_sgn by lia. pose proof (reduce_eq n (trunc n a) T0) as E. cbv zeta in E |- *. rewrite E.
    rewrite (proj2 (Z.ltb_ge _ 0)), Z.abs_eq by done. apply from_nat_correct; [done|auto|done].
Qed.
End ToInt.

(** 2^31 saturates a signed and fits an unsigned conversion to 32 bits. *)
Lemma cvt_to_int_correct_witness :
  to_int_spec (fmt := sf32) (- 2 ^ 31) (2 ^ 31 - 1) RM_RTZ 0x4f000000 0 (2 ^ 31 - 1) FFLAG_INVALID_OP /\
  to_int_spec (fmt := sf32) 0 (2 ^ 32 - 1) RM_RTZ 0x4f000000 0 (2 ^ 31) 0.
Proof.
  assert (cvt_sf_i (fmt := sf32) 32 0x4f000000 RM_RTZ 0 = (2 ^ 31 - 1, FFLAG_INVALID_OP)) as E1 by (vm_compute; reflexivity).
  assert (cvt_sf_u (fmt := sf32) 32 0x4f000000 RM_RTZ 0 = (2 ^ 31, 0)) as E2 by (vm_compute; reflexivity).
  pose proof (cvt_to_int_correct (fmt := sf32) 32 RM_RTZ 0x4f000000 0) as H. rewrite E1, E2 in H.
  apply H; [unfold RM_RTZ; lia|split; vm_compute; congruence|vm_compute; intuition congruence].
Defined.

(** The most negative 64-bit integer, and 2^64 - 1 rounded, in single precision. *)
Lemma cvt_from_int_correct_witness :
  from_int_spec (fmt := sf32) RM_RNE (- 2 ^ 63) 0 0xdf000000 0 /\
  from_int_spec (fmt := sf32) RM_RNE (2 ^ 64 - 1) 0 0x5f800000 FFLAG_INEXACT.
Proof.
  split.
  - pose proof (cvt_from_int_correct (fmt := sf32) 64 RM_RNE (2 ^ 63) 0) as H.
    assert (cvt_i_sf (fmt := sf32) 64 (2 ^ 63) RM_RNE 0 = (0xdf000000, 0)) as E by (vm_compute; reflexivity). rewrite E in H.
    assert (sgn 64 (2 ^ 63) = - 2 ^ 63) as E' by (vm_compute; reflexivity). rewrite E' in H.
    destruct H as [H _]; [unfold RM_RNE; lia|lia|exact H].
  - pose proof (cvt_from_int_correct (fmt := sf32) 64 RM_RNE (2 ^ 64 - 1) 0) as H.
    assert (cvt_u_sf (fmt := sf32) 64 (2 ^ 64 - 1) RM_RNE 0 = (0x5f800000, FFLAG_INEXACT)) as E by (vm_compute; reflexivity). rewrite E in H.
    assert (trunc 64 (2 ^ 64 - 1) = 2 ^ 64 - 1) as E' by (vm_compute; reflexivity). rewrite E' in H.
    destruct H as [_ H]; [unfold RM_RNE; lia|lia|exact H].
Defined.
