(* ===== verification/FpCvt.v ===== *)
(** * Conversions between float formats

    [cvt_widen] is exact; [cvt_narrow] rounds correctly, although it uses the
    mantissa of a subnormal without normalising it. *)

From Stdlib Require Import Reals Lra.
From S2P Require Import Prelude Cpu Softfp Rounding FpArith FpDiv.

(** ** Results below half of the least subnormal *)
Section Small.
Context {fmt : Format} {ok : FormatOk fmt}.

Lemma rounds_exists rm s x : exists n, rounds_to rm s x n.
Proof.
  destruct (archimed x) as [H1 H2]. set (z := up x - 1). assert (IZR z <= x < IZR z + 1)%R as [Hz Hz'].
  { unfold z. rewrite minus_IZR. lra. }
  assert (IZR (z + 1) = IZR z + 1)%R as E by apply plus_IZR. unfold rounds_to.
  destruct (rm =? RM_RNE); [|destruct (rm =? RM_RMM)].
  - destruct (total_order_T x (IZR z + / 2)) as [[Hlt|He]|Hgt].
    + exists z. split; [lra|]. intros [Hx|Hx]; lra.
    + destruct (Z.even z) eqn:Ez; [exists z; split; [lra|done]|]. exists (z + 1). rewrite E. split; [lra|].
      intros _. rewrite Z.add_1_r, Z.even_succ, <- Z.negb_even, Ez. done.
    + exists (z + 1). rewrite E. split; [lra|]. intros [Hx|Hx]; lra.
  - destruct (Rlt_dec x (IZR z + / 2)); [exists z; lra|]. exists (z + 1). rewrite E. lra.
  - destruct (away rm s); [|exists z; lra]. destruct (Req_dec x (IZR z)); [exists z; lra|]. exists (z + 1). rewrite E. lra.
Qed.

Lemma small_tiny rm s m e : 0 < m -> (IZR m * p2 e < / 2)%R -> tiny rm s (IZR m * p2 e).
Proof.
  intros Hm Hx. destruct (Z.log2_spec m) as [H1 H2]; [lia|]. pose proof (Z.log2_nonneg m). set (l := Z.log2 m) in *.
  pose proof (p2_pos e). apply IZR_le in H1. apply IZR_lt in H2. rewrite <- p2_Z in H1, H2 by lia.
  assert (l + e < -1) as Hle.
  { destruct (Z.lt_ge_cases (l + e) (-1)) as [|Hge]; [done|]. exfalso. apply p2_le in Hge. rewrite p2_add in Hge.
    pose proof (p2_opp 1) as E. rewrite p2_1 in E. change (- (1)) with (-1) in E. nra. }
  set (u := (IZR m * p2 (MANT_SIZE - l))%R). destruct (rounds_exists rm s u) as [n Hn].
  exists (l + e - MANT_SIZE), n, u. pose proof (p2_pos (MANT_SIZE - l)). split_and!; [sizes|..].
  - unfold u. rewrite Rmult_assoc, <- p2_add. do 2 f_equal. lia.
  - unfold u. replace MANT_SIZE with (l + (MANT_SIZE - l)) at 1 by lia. rewrite p2_add. apply Rmult_le_compat_r; lra.
  - unfold u. replace (MANT_SIZE + 1) with (Z.succ l + (MANT_SIZE - l)) by lia. rewrite p2_add. apply Rmult_lt_compat_r; lra.
  - done.
  - assert (u < p2 (MANT_SIZE + 1))%R as Hu.
    { unfold u. replace (MANT_SIZE + 1) with (Z.succ l + (MANT_SIZE - l)) by lia. rewrite p2_add. apply Rmult_lt_compat_r; lra. }
    rewrite p2_Z in Hu by sizes. assert (IZR n <= IZR (2 ^ (MANT_SIZE + 1)))%R as Hn'.
    { apply IZR_le. assert (IZR n < IZR (2 ^ (MANT_SIZE + 1)) + 1)%R as Hlt by (unfold rounds_to in Hn; repeat case_match; lra).
      by apply IZR_lt_1. }
    apply Rle_lt_trans with (p2 (MANT_SIZE + 1) * p2 (l + e - MANT_SIZE))%R.
    + rewrite (p2_Z (MANT_SIZE + 1)) by sizes. apply Rmult_le_compat_r; [apply Rlt_le, p2_pos|done].
    + rewrite <- p2_add. apply p2_lt. sizes.
Qed.

(** All such results are the same. *)
Lemma small_rounds rm s x x' fl r fl' :
  (0 < x < / 2)%R -> (0 < x' < / 2)%R -> tiny rm s x -> tiny rm s x' ->
  correctly_rounded rm s x fl r fl' -> correctly_rounded rm s x' fl r fl'.
Proof.
  intros Hx Hx' Ht Ht' (k & n & u & inexact & underflow & (Hk & Hb & Hb') & E & Hr & Hi & Hu & H).
  assert (forall j, 0 <= j -> (1 <= p2 (MANT_SIZE + j))%R) as H1.
  { intros j Hj. rewrite <- p2_0. apply p2_le. sizes. }
  assert (k = 0) as -> by (destruct Hb' as [|Hb']; [done|]; specialize (H1 k Hk); lra).
  rewrite p2_0, Rmult_1_r in E. subst u.
  assert (rounds_to rm s x' n /\ x' <> IZR n /\ x <> IZR n) as (Hr' & Hne & Hne').
  { assert (n = 0 \/ n = 1) as Hn.
    { assert (-1 < IZR n < 2)%R as [Hn1 Hn2] by (unfold rounds_to in Hr; repeat case_match; lra).
      apply lt_IZR in Hn1, Hn2. lia. }
    unfold rounds_to in *. destruct Hn as [-> | ->]; split_and!; try lra; repeat case_match; try lra.
    all: destruct Hr as [? ?]; split; [lra|]; intros [?|?]; lra. }
  exists 0, n, x', inexact, underflow. split_and!.
  - split; [done|]. split; [|by left]. specialize (H1 1 ltac:(lia)). rewrite Z.add_0_r. lra.
  - by rewrite p2_0, Rmult_1_r.
  - done.
  - tauto.
  - tauto.
  - exact H.
Qed.
End Small.

(** ** Two formats *)

(** [big] has every number of [small] as a normal number, and the subnormals of [big] are
    below half of the least subnormal of [small]. *)
Class Wider (small big : Format) : Prop := {
  wider_mant : F_SIZE (fmt := small) - 2 < MANT_SIZE (Format := big);
  wider_exp : 2 ^ (EXP_SIZE (Format := small) - 1) + MANT_SIZE (Format := small) + 2 <= 2 ^ (EXP_SIZE (Format := big) - 1);
}.

#[export] Instance sf32_sf64 : Wider sf32 sf64.
Proof. by split. Qed.
#[export] Instance sf32_sf128 : Wider sf32 sf128.
Proof. by split. Qed.
#[export] Instance sf64_sf128 : Wider sf64 sf128.
Proof. by split. Qed.

Section Fields.
Context {fmt : Format} {ok : FormatOk fmt}.

(** The fields of a packed float. *)
Lemma signed_fields s e m :
  s = 0 \/ s = 1 -> 0 <= e <= EXP_MASK -> 0 <= m < 2 ^ MANT_SIZE ->
  let a := signed s (e * 2 ^ MANT_SIZE + m) in
  fits F_SIZE a /\ sign_sf a = s /\ exp_sf a = e /\ mant_sf a = m.
Proof.
  intros Hs He Hm a. pose proof mant_pos. pose proof exp_pos. pose proof pow_F as EF. pose proof pow_F2 as EF2. rewrite EXP_MASK_eq in He.
  assert (0 <= e * 2 ^ MANT_SIZE + m < 2 ^ (F_SIZE - 1)) as Hb by (rewrite EF; nia).
  assert (fits F_SIZE a) as Ha by (unfold a, signed, fits; destruct Hs as [-> | ->]; lia). split; [done|].
  assert (sign_sf a = s) as Es.
  { unfold sign_sf, a, signed. rewrite Z.shiftr_div_pow2 by sizes. rewrite Z.div_add_l, Z.div_small by lia. lia. }
  split; [done|]. unfold exp_sf, mant_sf. rewrite land_EXP_MASK, land_MANT_MASK, Z.shiftr_div_pow2 by sizes.
  assert (a = (s * 2 ^ EXP_SIZE + e) * 2 ^ MANT_SIZE + m) as -> by (unfold a, signed; rewrite EF; ring).
  rewrite Z.div_add_l, (Z.div_small m), Z.add_0_r by lia. split.
  - rewrite Z.add_comm, Z.mod_add by lia. apply Z.mod_small. lia.
  - rewrite Z.add_comm, Z.mod_add by lia. by apply Z.mod_small.
Qed.

(** The exponent of the normalised mantissa. *)
Lemma norm_exp_range a e m :
  mag_sf a <> 0 -> 2 ^ MANT_SIZE <= m < 2 * 2 ^ MANT_SIZE -> IZR (mag_sf a) = (IZR m * p2 (e - 1))%R ->
  1 - MANT_SIZE <= e <= bexp_sf a.
Proof.
  intros Ha Hm E. pose proof (mag_nonneg a). pose proof (p2_pos (e - 1)). pose proof (sig_range a).
  assert (1 <= bexp_sf a) by (unfold bexp_sf; lia).
  assert (p2 MANT_SIZE <= IZR m < p2 (MANT_SIZE + 1))%R as [M1 M2].
  { rewrite !p2_Z by sizes. rewrite Z.add_1_r, Z.pow_succ_r by sizes. split; [apply IZR_le|apply IZR_lt]; lia. }
  split.
  - destruct (Z.lt_ge_cases e (1 - MANT_SIZE)) as [Hlt|]; [exfalso|lia].
    assert (1 <= IZR (mag_sf a))%R by (apply IZR_le; lia).
    assert (IZR m * p2 (e - 1) < p2 (MANT_SIZE + 1) * p2 (e - 1))%R as Hc by (by apply Rmult_lt_compat_r).
    rewrite <- p2_add in Hc. assert (p2 (MANT_SIZE + 1 + (e - 1)) <= p2 0)%R as Hz by (apply p2_le; lia). rewrite p2_0 in Hz. lra.
  - destruct (Z.lt_ge_cases (bexp_sf a) e) as [Hlt|]; [exfalso|lia].
    assert (IZR (mag_sf a) < p2 (MANT_SIZE + 1 + (bexp_sf a - 1)))%R as Hu.
    { rewrite p2_Z by sizes. apply IZR_lt. unfold mag_sf. rewrite Z.pow_add_r, Z.add_1_r, Z.pow_succ_r by sizes.
      apply Z.mul_lt_mono_pos_r; [apply pow2_pos; lia|lia]. }
    assert (p2 MANT_SIZE * p2 (e - 1) <= IZR m * p2 (e - 1))%R as Hc by (apply Rmult_le_compat_r; lra).
    rewrite <- p2_add in Hc. assert (p2 (MANT_SIZE + 1 + (bexp_sf a - 1)) <= p2 (MANT_SIZE + (e - 1)))%R by (apply p2_le; lia). lra.
Qed.
End Fields.

Section Formats.
Context {small big : Format} {ok_s : FormatOk small} {ok_b : FormatOk big} {wide : Wider small big}.

Local Abbreviation Ms := (MANT_SIZE (Format := small)).
Local Abbreviation Mb := (MANT_SIZE (Format := big)).
Local Abbreviation Es := (EXP_SIZE (Format := small)).
Local Abbreviation Eb := (EXP_SIZE (Format := big)).

(** The scale between the units of the two formats. *)
Definition scale : Z := QMIN (fmt := small) - QMIN (fmt := big).

Lemma format_facts : 5 <= Es <= Ms /\ 5 <= Eb <= Mb /\ Ms + Es - 1 < Mb /\ 0 < 2 ^ Ms /\ 0 < 2 ^ (Es - 1) /\
  2 ^ (Es - 1) + Ms + 2 <= 2 ^ (Eb - 1) /\ scale = 2 ^ (Eb - 1) - 2 ^ (Es - 1) + Mb - Ms /\ 0 <= scale.
Proof.
  pose proof (exp_size_ok (fmt := small)). pose proof (exp_size_ok (fmt := big)). pose proof (mant_size_ok (fmt := small)).
  pose proof (mant_size_ok (fmt := big)). pose proof (wider_mant (small := small) (big := big)) as Hm.
  pose proof (wider_exp (small := small) (big := big)). unfold F_SIZE in Hm.
  assert (scale = 2 ^ (Eb - 1) - 2 ^ (Es - 1) + Mb - Ms) as -> by (unfold scale, QMIN; lia).
  pose proof (pow2_pos Ms). pose proof (pow2_pos (Es - 1)). lia.
Qed.

Definition widen_spec (a fl r fl' : Z) : Prop :=
  match decode (fmt := small) a with
  | VNan signaling => nan_result (fmt := big) signaling fl r fl'
  | VInf => r = signed (fmt := big) (sign_sf (fmt := small) a) (INF (fmt := big)) /\ fl' = fl
  | VFin X =>
      fits (F_SIZE (fmt := big)) r /\ sign_sf (fmt := big) r = sign_sf (fmt := small) a /\
      decode (fmt := big) r = VFin (X * 2 ^ scale) /\ fl' = fl
  end.

(** Conversion to a wider format is exact: the result is the same number with the same
    sign and no flag is raised; a signaling NaN raises the invalid flag. *)
Lemma cvt_widen_exact a fl :
  fits (F_SIZE (fmt := small)) a ->
  let '(r, fl') := cvt_widen small big a fl in widen_spec a fl r fl'.
Proof.
  intros Ha. destruct format_facts as (HEs & HEb & Hmant & Hps & Hpe & Hexp & Hsc & Hsc0).
  unfold cvt_widen, widen_spec, unpack_sf. pose proof (sign_sf_range a Ha) as Hs. rewrite iszero_mag, issignan_decode.
  destruct (Z.eqb_spec (exp_sf (fmt := small) a) (EXP_MASK (fmt := small))) as [E|E].
  { unfold decode. rewrite E, Z.eqb_refl. unfold nz. destruct (mant_sf (fmt := small) a =? 0); cbn [negb]; [|done].
    by rewrite pack_inf. }
  rewrite decode_fin by done. destruct (Z.eqb_spec (mag_sf (fmt := small) a) 0) as [E0|E0].
  { rewrite pack_zero by done. destruct (signed_fields (fmt := big) (sign_sf (fmt := small) a) 0 0) as (F & S & X & M); [done|..].
    { pose proof (EXP_MASK_eq (fmt := big)). pose proof (exp_pos (fmt := big)). lia. } { pose proof (mant_pos (fmt := big)). lia. }
    rewrite Z.mul_0_l, Z.add_0_r in *. rewrite E0, Z.mul_0_l. split_and!; [done..| |done].
    rewrite decode_fin. { f_equal. apply Z.eqb_eq. rewrite <- iszero_mag, X, M. done. }
    rewrite X. pose proof (EXP_MASK_eq (fmt := big)). assert (2 ^ 1 <= 2 ^ Eb) by (apply Z.pow_le_mono_r; lia). lia. }
  pose proof (norm_mant_eq (fmt := small) a E0) as Hn. pose proof (norm_exp_range (fmt := small) a) as He. unfold norm_mant in Hn.
  set (em := if exp_sf (fmt := small) a =? 0 then normalize_subnormal_sf (fmt := small) (mant_sf (fmt := small) a)
             else (exp_sf (fmt := small) a, mant_sf (fmt := small) a)).
  assert (exists e m, em.1 = e /\ em.2 mod 2 ^ Ms = m - 2 ^ Ms /\ 2 ^ Ms <= m < 2 * 2 ^ Ms /\
    IZR (mag_sf (fmt := small) a) = (IZR m * p2 (e - 1))%R) as (e & m & E1 & E2 & Hm & Hv).
  { unfold em. pose proof (mant_sf_range (fmt := small) a) as Hr. destruct (Z.eqb_spec (exp_sf (fmt := small) a) 0) as [Ez|Ez].
    - destruct (normalize_subnormal_sf _) as [e m]. destruct Hn as [Hm Hv]. exists e, m. split_and!; try done; try lia.
      cbn [snd]. symmetry. apply (Z.mod_unique _ _ 1); lia.
    - destruct Hn as [Hm Hv]. eexists _, _. split; [done|]. split; [|split; [exact Hm|exact Hv]]. cbn [snd].
      rewrite Z.lor_comm, lor_disjoint, Z.mod_small by (lia || done). lia. }
  destruct em as [e' m']. cbn [fst snd] in E1, E2. subst e'. specialize (He e m E0 Hm Hv).
  set (k := Mb - Ms). set (E' := e - EXP_MASK (fmt := small) / 2 + EXP_MASK (fmt := big) / 2).
  assert (e < 2 * 2 ^ (Es - 1) - 1) as Hlt.
  { pose proof (exp_sf_range (fmt := small) a). pose proof (EXP_MASK_eq (fmt := small)) as Em.
    replace Es with (Z.succ (Es - 1)) in Em by lia. rewrite Z.pow_succ_r in Em by lia. assert (2 ^ 4 <= 2 ^ (Es - 1)) by (apply Z.pow_le_mono_r; lia).
    unfold bexp_sf in He. lia. }
  assert (0 < E' < EXP_MASK (fmt := big)) as HE'.
  { unfold E'. rewrite !EXP_MASK_half. pose proof (EXP_MASK_eq (fmt := big)) as Em.
    replace Eb with (Z.succ (Eb - 1)) in Em by lia. rewrite Z.pow_succ_r in Em by lia. lia. }
  assert (F_UINT (fmt := big) (m' << k) mod 2 ^ Mb = (m - 2 ^ Ms) * 2 ^ k) as Ef.
  { rewrite <- E2, Z.shiftl_mul_pow2 by lia. unfold F_UINT, trunc.
    rewrite Z.mod_mod_divide by (apply divide_pow; unfold F_SIZE; lia).
    replace Mb with (Ms + k) by lia. rewrite Z.pow_add_r by lia. apply Zmult_mod_distr_r. }
  pose proof (pow2_pos k ltac:(lia)). assert (2 ^ Mb = 2 ^ Ms * 2 ^ k) as Epow by (rewrite <- Z.pow_add_r by lia; f_equal; lia).
  rewrite pack_sf_eq, Ef by (done || lia).
  destruct (signed_fields (fmt := big) (sign_sf (fmt := small) a) E' ((m - 2 ^ Ms) * 2 ^ k)) as (F & S & X & M); [done|lia|nia|].
  split_and!; [done..| |done]. rewrite decode_fin by (rewrite X; lia). f_equal. apply eq_IZR.
  unfold mag_sf at 1, sig_sf, bexp_sf. rewrite X, M, (proj2 (Z.eqb_neq E' 0)), Z.max_r by lia.
  replace (2 ^ Mb + (m - 2 ^ Ms) * 2 ^ k) with (m * 2 ^ k) by (rewrite Epow; ring).
  rewrite !mult_IZR, Hv, <- !p2_Z, !Rmult_assoc, <- !p2_add by lia. do 2 f_equal. unfold E'. rewrite !EXP_MASK_half. lia.
Qed.

Definition narrow_spec (rm a fl r fl' : Z) : Prop :=
  let s := sign_sf (fmt := big) a in
  match decode (fmt := big) a with
  | VNan signaling => nan_result (fmt := small) signaling fl r fl'
  | VInf => r = signed (fmt := small) s (INF (fmt := small)) /\ fl' = fl
  | VFin X => correctly_rounded (fmt := small) rm s (IZR X * p2 (- scale)) fl r fl'
  end.

(** A normal number: the mantissa is shortened with a sticky bit. *)
Lemma narrow_normal rm s e m fl :
  0 <= rm <= 4 -> s = 0 \/ s = 1 -> 2 ^ Mb <= m < 2 * 2 ^ Mb ->
  let '(r, fl') := normalize_sf (fmt := small) s (e - EXP_MASK (fmt := big) / 2 + EXP_MASK (fmt := small) / 2)
                     (F_UINT (fmt := small) (rshift_rnd (fmt := big) m (Mb - (F_SIZE (fmt := small) - 2)))) rm fl in
  correctly_rounded (fmt := small) rm s (IZR m * p2 (e - 1) * p2 (- scale)) fl r fl'.
Proof.
  intros Hrm Hs Hm. destruct format_facts as (HEs & HEb & Hmant & Hps & Hpe & Hexp & Hsc & Hsc0).
  set (Fs := F_SIZE (fmt := small)). assert (Fs = 1 + Es + Ms) as EFs by done. set (d := Mb - (Fs - 2)).
  assert (fits (F_SIZE (fmt := big)) m) as Hf.
  { assert (2 ^ Z.succ Mb <= 2 ^ F_SIZE (fmt := big)) by (apply Z.pow_le_mono_r; unfold F_SIZE; lia). rewrite Z.pow_succ_r in * by lia.
    pose proof (pow2_pos Mb). unfold fits. lia. }
  rewrite rshift_rnd_sticky by (done || lia).
  assert (2 ^ (Fs - 2) <= sticky m d < 2 ^ (Fs - 1)) as HM.
  { destruct (sticky_cases m d) as (E & Hr & ->); [lia|]. pose proof (pow2_pos d ltac:(lia)).
    assert (2 ^ (Fs - 1) = 2 * 2 ^ (Fs - 2)) as E1 by (rewrite <- Z.pow_succ_r by lia; f_equal; lia).
    assert (2 ^ (Fs - 2) = 2 * 2 ^ (Fs - 3)) as E2 by (rewrite <- Z.pow_succ_r by lia; f_equal; lia).
    assert (2 ^ Mb = 2 ^ (Fs - 2) * 2 ^ d) as E3 by (rewrite <- Z.pow_add_r by lia; f_equal; lia).
    assert (2 ^ (Fs - 2) <= m / 2 ^ d < 2 ^ (Fs - 1)) by (split; [apply Z.div_le_lower_bound|apply Z.div_lt_upper_bound]; lia).
    pose proof (Z.mod_pos_bound (m / 2 ^ d) 2). pose proof (Z.div_mod (m / 2 ^ d) 2). destruct (nz _); lia. }
  assert (2 ^ (Fs - 1) < 2 ^ Fs) by (apply Z.pow_lt_mono_r; lia). assert (0 < 2 ^ (Fs - 2)) by (apply pow2_pos; lia).
  unfold F_UINT. rewrite trunc_small by (unfold fits; fold Fs; lia). rewrite !EXP_MASK_half.
  set (e' := e - (2 ^ (Eb - 1) - 1) + (2 ^ (Es - 1) - 1)).
  replace (IZR m * p2 (e - 1) * p2 (- scale))%R with (IZR m * p2 (- d) * p2 (e' - 1 - RND_SIZE (fmt := small)))%R.
  2: { rewrite !Rmult_assoc, <- !p2_add. do 2 f_equal. unfold e', d, RND_SIZE, IMANT_SIZE. fold Fs. lia. }
  apply (normalize_correct (fmt := small) rm s e' _ 1); [done|done|unfold fits; fold Fs; lia|lia| |right].
  - replace 1 with (Z.max 1 (0 - d)) by lia. apply stands_sticky; [done|lia|].
    rewrite Rmult_assoc, (Rmult_comm (p2 (- d))), p2_opp, Rmult_1_r. apply stands_exact.
  - apply Z.le_trans with (2 ^ (Fs - 2)); [|lia]. apply Z.pow_le_mono_r; unfold RND_SIZE, IMANT_SIZE; fold Fs; lia.
Qed.

(** A subnormal: whatever is left of the mantissa, the result is that of any nonzero
    number below half of the least subnormal. *)
Lemma narrow_subnormal rm s e m X fl :
  0 <= rm <= 4 -> s = 0 \/ s = 1 -> 0 < m < 2 ^ Mb -> 0 < X < 2 ^ Mb -> e <= 1 ->
  let '(r, fl') := normalize_sf (fmt := small) s (e - EXP_MASK (fmt := big) / 2 + EXP_MASK (fmt := small) / 2)
                     (F_UINT (fmt := small) (rshift_rnd (fmt := big) m (Mb - (F_SIZE (fmt := small) - 2)))) rm fl in
  correctly_rounded (fmt := small) rm s (IZR X * p2 (- scale)) fl r fl'.
Proof.
  intros Hrm Hs Hm HX He. destruct format_facts as (HEs & HEb & Hmant & Hps & Hpe & Hexp & Hsc & Hsc0).
  set (Fs := F_SIZE (fmt := small)). assert (Fs = 1 + Es + Ms) as EFs by done. set (d := Mb - (Fs - 2)).
  assert (fits (F_SIZE (fmt := big)) m) as Hf.
  { assert (2 ^ Mb <= 2 ^ F_SIZE (fmt := big)) by (apply Z.pow_le_mono_r; unfold F_SIZE; lia). unfold fits. lia. }
  rewrite rshift_rnd_sticky by (done || lia). set (M := sticky m d).
  assert (0 < M < 2 ^ (Fs - 2)) as HM.
  { unfold M. destruct (sticky_cases m d) as (E & Hr & ->); [lia|]. pose proof (pow2_pos d ltac:(lia)).
    assert (2 ^ (Fs - 2) = 2 * 2 ^ (Fs - 3)) as E2 by (rewrite <- Z.pow_succ_r by lia; f_equal; lia).
    assert (2 ^ Mb = 2 ^ (Fs - 2) * 2 ^ d) as E3 by (rewrite <- Z.pow_add_r by lia; f_equal; lia).
    assert (0 <= m / 2 ^ d < 2 ^ (Fs - 2)) by (split; [apply Z.div_pos|apply Z.div_lt_upper_bound]; lia).
    pose proof (Z.mod_pos_bound (m / 2 ^ d) 2). pose proof (Z.div_mod (m / 2 ^ d) 2).
    unfold nz. destruct (Z.eqb_spec (m mod 2 ^ d) 0); cbn [negb]; [nia|lia]. }
  assert (2 ^ (Fs - 2) < 2 ^ (Fs - 1) < 2 ^ Fs) by (split; apply Z.pow_lt_mono_r; lia).
  unfold F_UINT. rewrite trunc_small by (unfold fits; fold Fs; lia). rewrite !EXP_MASK_half.
  set (e' := e - (2 ^ (Eb - 1) - 1) + (2 ^ (Es - 1) - 1)).
  pose proof (normalize_correct (fmt := small) rm s e' M 0 (IZR M) fl Hrm Hs) as Hn.
  destruct (normalize_sf _ _ _ _ _) as [r fl']. specialize (Hn ltac:(unfold fits; fold Fs; lia) ltac:(lia) (stands_exact 0 M) (or_introl eq_refl)).
  assert (forall m0 k e0, 0 < m0 < 2 ^ k -> 0 <= k -> k + e0 <= -1 -> (0 < IZR m0 * p2 e0 < / 2)%R) as Hb.
  { intros m0 k e0 [H1 H2] Hk Hke. pose proof (p2_pos e0). apply IZR_lt in H1 as H1', H2 as H2'. rewrite <- p2_Z in H2' by done.
    split; [nra|]. apply Rlt_le_trans with (p2 k * p2 e0)%R; [by apply Rmult_lt_compat_r|]. rewrite <- p2_add.
    apply p2_le in Hke. pose proof (p2_opp 1) as E. rewrite p2_1 in E. change (- (1)) with (-1) in E. lra. }
  assert (0 < IZR M * p2 (e' - 1 - RND_SIZE (fmt := small)) < / 2)%R as B1.
  { apply (Hb M (Fs - 2)); [done|lia|]. unfold e', RND_SIZE, IMANT_SIZE. fold Fs. lia. }
  assert (0 < IZR X * p2 (- scale) < / 2)%R as B2 by (apply (Hb X Mb); [done|lia|lia]).
  apply (small_rounds (fmt := small) rm s _ _ fl r fl' B1 B2); [apply small_tiny; [lia|lra]..|done].
Qed.

(** Conversion to a narrower format is correctly rounded for all operands and rounding
    modes, subnormals included. *)
Lemma cvt_narrow_correct rm a fl :
  0 <= rm <= 4 -> fits (F_SIZE (fmt := big)) a ->
  let '(r, fl') := cvt_narrow big small a rm fl in narrow_spec rm a fl r fl'.
Proof.
  intros Hrm Ha. destruct format_facts as (HEs & HEb & Hmant & Hps & Hpe & Hexp & Hsc & Hsc0).
  unfold cvt_narrow, narrow_spec, unpack_sf. pose proof (sign_sf_range a Ha) as Hs. rewrite iszero_mag, issignan_decode.
  destruct (Z.eqb_spec (exp_sf (fmt := big) a) (EXP_MASK (fmt := big))) as [E|E].
  { unfold decode. rewrite E, Z.eqb_refl. unfold nz. destruct (mant_sf (fmt := big) a =? 0); cbn [negb]; [|done].
    by rewrite pack_inf. }
  rewrite decode_fin by done. destruct (Z.eqb_spec (mag_sf (fmt := big) a) 0) as [E0|E0].
  { rewrite pack_zero, E0, Rmult_0_l by done. apply zero_rounds. }
  pose proof (mant_sf_range (fmt := big) a) as Hr. pose proof (pow2_pos Mb ltac:(lia)).
  destruct (Z.eqb_spec (exp_sf (fmt := big) a) 0) as [Ez|Ez].
  - assert (mag_sf (fmt := big) a = mant_sf (fmt := big) a) as EX.
    { unfold mag_sf, sig_sf, bexp_sf. rewrite Ez. change (2 ^ (Z.max 1 0 - 1)) with 1. cbn [Z.eqb]. lia. }
    rewrite EX in *. apply narrow_subnormal; [done|done|lia|lia|].
    unfold normalize_subnormal_sf. cbn [fst]. unfold clz, clz_n. rewrite (proj2 (Z.eqb_neq _ 0)) by lia.
    assert (Z.log2 (mant_sf (fmt := big) a) < Mb) by (apply Z.log2_lt_pow2; lia). lia.
  - pose proof (norm_mant_eq (fmt := big) a E0) as Hn. unfold norm_mant in Hn. rewrite (proj2 (Z.eqb_neq _ _) Ez) in Hn.
    destruct Hn as [Hm ->]. by apply narrow_normal.
Qed.
End Formats.

(** The least single subnormal as a double, a signaling NaN widened, and a subnormal double
    rounded up. *)
Lemma cvt_widen_exact_witness :
  widen_spec (small := sf32) (big := sf64) 1 0 0x36a0000000000000 0 /\
  widen_spec (small := sf32) (big := sf64) 0x7f800001 0 0x7ff8000000000000 FFLAG_INVALID_OP.
Proof.
  split.
  - assert (cvt_widen sf32 sf64 1 0 = (0x36a0000000000000, 0)) as E by (vm_compute; reflexivity).
    pose proof (cvt_widen_exact (small := sf32) (big := sf64) 1 0) as H. rewrite E in H. apply H. split; vm_compute; congruence.
  - assert (cvt_widen sf32 sf64 0x7f800001 0 = (0x7ff8000000000000, FFLAG_INVALID_OP)) as E by (vm_compute; reflexivity).
    pose proof (cvt_widen_exact (small := sf32) (big := sf64) 0x7f800001 0) as H. rewrite E in H. apply H. split; vm_compute; congruence.
Defined.

Lemma cvt_narrow_correct_witness :
  narrow_spec (small := sf32) (big := sf64) RM_RUP 1 0 1 (FFLAG_INEXACT .| FFLAG_UNDERFLOW).
Proof.
  assert (cvt_narrow sf64 sf32 1 RM_RUP 0 = (1, FFLAG_INEXACT .| FFLAG_UNDERFLOW)) as E by (vm_compute; reflexivity).
  pose proof (cvt_narrow_correct (small := sf32) (big := sf64) RM_RUP 1 0) as H. rewrite E in H.
  apply H; [unfold RM_RUP; lia|split; vm_compute; congruence].
Defined.
