(* ===== verification/FpExec.v ===== *)
(** * Floating-point instructions, from register to register

    The operands are unboxed, the soft-float library computes the result and the flags,
    and the result is boxed; an instruction with an invalid rounding mode, or while the
    floating-point unit is off, is illegal and changes nothing. *)

From S2P Require Import Prelude Iomem Cpu Pmp Csr Trap Machine Mmu Alu Softfp Insn Fp Interp SafeInsn Safety.

(** The four operations of two operands. *)
Definition arith_op {fmt : Format} (k : Z) : Z -> Z -> Z -> Z -> Z * Z :=
  if k =? 0 then add_sf else if k =? 1 then sub_sf else if k =? 2 then mul_sf else div_sf.

(** The value of a register for the format: a single that is not boxed is a NaN. *)
Definition fp_value {fmt : Format} (s : RISCVCPUState) (x : Z) : Z := F_UINT (unbox (aget 0 (fp_reg s) x)).

(** The hart after a result [r] and flags [fl]. *)
Definition fp_written {fmt : Format} (rd r fl : Z) (s : RISCVCPUState) : RISCVCPUState :=
  s <| fflags := fl |> <| most_recently_written_fp_reg := rd |>
    <| fp_reg ::= fun f => aset f rd (u64 (r .| F_HIGH)) |> <| fs := 3 |>.

Class SingleOrDouble (fmt : Format) := single_or_double : fmt = sf32 \/ fmt = sf64.
#[export] Instance single_ok : SingleOrDouble sf32.
Proof. by left. Qed.
#[export] Instance double_ok : SingleOrDouble sf64.
Proof. by right. Qed.

(** What is boxed is what is unboxed. *)
Lemma box_unbox {fmt : Format} {sd : SingleOrDouble fmt} r : F_UINT (unbox (u64 (r .| F_HIGH))) = F_UINT r.
Proof.
  destruct sd as [-> | ->]; unfold unbox, F_HIGH, F_UINT.
  - change (F_SIZE (fmt := sf32)) with 32. cbn [Z.eqb Pos.eqb]. unfold f_unbox32. rewrite (trunc_ones 64), <- Z.land_assoc by lia.
    change (Z.ones 64 .& F32_HIGH) with F32_HIGH.
    assert ((r .| F32_HIGH) .& F32_HIGH = F32_HIGH) as ->.
    { apply Z.bits_inj'. intros i Hi. rewrite Z.land_spec, Z.lor_spec. by destruct (Z.testbit r i), (Z.testbit F32_HIGH i). }
    rewrite Z.eqb_refl. cbn [negb]. rewrite !trunc_ones, <- Z.land_assoc, Z.land_lor_distr_l by lia.
    change (Z.ones 64 .& Z.ones 32) with (Z.ones 32). change (F32_HIGH .& Z.ones 32) with 0. by rewrite Z.lor_0_r.
  - change (F_SIZE (fmt := sf64)) with 64. cbn [Z.eqb Pos.eqb]. unfold f_unbox64. change F64_HIGH with 0.
    by rewrite Z.lor_0_r, trunc_idemp by lia.
Qed.

Lemma fp_written_value {fmt : Format} {sd : SingleOrDouble fmt} s rd r fl :
  length (fp_reg s) = 32%nat -> 0 <= rd < 32 -> fp_value (fp_written rd r fl s) rd = F_UINT r.
Proof.
  intros Hl Hr. unfold fp_value, fp_written. cpu_simpl. rewrite aget_aset_eq by lia. apply box_unbox.
Qed.

Section Exec.
Context {D : Type} {dv : Devices D} (m : RISCVMachine D).
Context (untraced : stf_in_traceable_region m = false).

Lemma fp_arith_run {fmt : Format} op rd rs1 rs2 rm :
  let s := cpu m in
  let rm' := get_insn_rm s rm in
  fp_arith op rd rs1 rs2 rm m =
  if rm' <? 0 then (inl E_illegal, m)
  else let '(r, fl) := op (fp_value s rs1) (fp_value s rs2) rm' (fflags s) in (inr tt, m <| cpu ::= fp_written rd r fl |>).
Proof.
  cbv zeta. unfold fp_arith, insn_rm, bind, gets. destruct (_ <? 0); [done|]. cbn [ret].
  unfold read_unboxed, read_fp_reg, bind, getm. rewrite untraced. cbn [ret gets]. rewrite untraced. cbn [ret gets].
  unfold softfp, bind, gets. fold (fp_value (cpu m) rs1) (fp_value (cpu m) rs2).
  destruct (op _ _ _ _) as [r fl]. cbn [mods ret]. unfold write_boxed, write_fp_reg, bind, getm.
  change (stf_in_traceable_region (m <| cpu ::= fun s => s <| fflags := fl |> |>)) with (stf_in_traceable_region m).
  rewrite untraced. done.
Qed.

Lemma op_fp_arith (fmt : Format) (sd : SingleOrDouble fmt) k rd rs1 rs2 rm :
  0 <= k <= 3 ->
  let imm := 4 * k + (if F_SIZE =? 32 then 0 else 1) in
  (if (imm .& 3) =? 0 then fp_template (fmt := sf32) (imm >> 2) rd rs1 rs2 rm
   else if (imm .& 3) =? 1 then fp_template (fmt := sf64) (imm >> 2) rd rs1 rs2 rm
   else illegal (D := D)) = fp_arith (arith_op k) rd rs1 rs2 rm.
Proof.
  intros Hk. assert (k = 0 \/ k = 1 \/ k = 2 \/ k = 3) as Hk' by lia. by destruct sd as [-> | ->]; destruct_or! Hk'; subst k.
Qed.

End Exec.

(** [fadd.d f1, f2, f3] on a hart with the unit on. *)
Definition fp_cpu : RISCVCPUState := reset_cpu <| fs := 1 |>.

