(* ===== verification/VecArith.v ===== *)
(** * Vector additions

    The vector registers as an array of bytes and of elements, and what
    [vectorize_arithmetic] computes on every element of a register group. *)

From S2P Require Import Prelude Iomem Cpu Pmp Csr Trap Machine Mmu Alu Insn Vector Interp SafeInsn SafeVec Safety.

(** ** Bytes and elements *)

Definition shape (r : list (list Z)) : Prop := length r = 32%nat /\ Forall (fun x => length x = 16%nat /\ Forall (fits 8) x) r.

Lemma cpu_ok_shape s : cpu_ok s -> shape (v_reg s).
Proof. by intros []. Qed.

Lemma shape_reg r i : shape r -> 0 <= i < 32 -> length (aget [] r i) = 16%nat /\ Forall (fits 8) (aget [] r i).
Proof.
  intros [Hl H] Hi. rewrite Forall_forall in H. apply H. unfold aget. apply list_elem_of_In, nth_In. lia.
Qed.

Lemma v_byte_fits s off : shape (v_reg s) -> 0 <= off < 512 -> fits 8 (v_byte s off).
Proof.
  intros H Ho. unfold v_byte. apply fits_aget; [lia|]. apply shape_reg; [done|].
  change VREG_BYTES with 16. split; [apply Z.div_pos; lia|apply Z.div_lt_upper_bound; lia].
Qed.

Lemma v_set_byte_shape off v s : shape (v_reg s) -> 0 <= off < 512 -> shape (v_reg (v_set_byte off v s)).
Proof.
  intros H Ho. unfold v_set_byte. cpu_simpl. split; [rewrite length_aset; apply H|]. apply Forall_aset; [apply H|].
  destruct (shape_reg (v_reg s) (off / VREG_BYTES) H) as [H1 H2].
  { change VREG_BYTES with 16. split; [apply Z.div_pos; lia|apply Z.div_lt_upper_bound; lia]. }
  rewrite length_aset. split; [done|]. apply Forall_aset; [done|width].
Qed.

Lemma v_byte_set off v s o :
  shape (v_reg s) -> 0 <= off < 512 -> 0 <= o < 512 ->
  v_byte (v_set_byte off v s) o = if o =? off then u8 v else v_byte s o.
Proof.
  intros H Ho Ho'. unfold v_byte, v_set_byte. cpu_simpl. change VREG_BYTES with 16.
  pose proof (Z.div_mod off 16 ltac:(lia)) as E1. pose proof (Z.div_mod o 16 ltac:(lia)) as E2.
  pose proof (Z.mod_pos_bound off 16 ltac:(lia)). pose proof (Z.mod_pos_bound o 16 ltac:(lia)).
  assert (0 <= off / 16 < 32) by lia. assert (0 <= o / 16 < 32) by lia.
  destruct (shape_reg (v_reg s) (off / 16) H) as [L _]; [done|].
  destruct (Z.eq_dec (off / 16) (o / 16)) as [E|E].
  - rewrite <- E, aget_aset_eq by (destruct H; lia). destruct (Z.eqb_spec o off) as [->|N]; [by rewrite aget_aset_eq by lia|].
    by rewrite aget_aset_ne by lia.
  - rewrite aget_aset_ne by lia. by destruct (Z.eqb_spec o off) as [->|].
Qed.

Lemma v_set_spec n off v s :
  shape (v_reg s) -> 0 <= off -> off + Z.of_nat n <= 512 ->
  shape (v_reg (v_set n off v s)) /\
  forall o, 0 <= o < 512 ->
    v_byte (v_set n off v s) o
    = if (off <=? o) && (o <? off + Z.of_nat n) then u8 (v >> (8 * (o - off))) else v_byte s o.
Proof.
  revert off v s. induction n as [|n IH]; intros off v s H H0 H1.
  - split; [done|]. intros o Ho. cbn [v_set]. destruct (Z.leb_spec off o), (Z.ltb_spec o (off + Z.of_nat 0)); cbn [andb]; (done || lia).
  - cbn [v_set]. destruct (IH (off + 1) (v >> 8) (v_set_byte off v s)) as [Hs IHb]; [apply v_set_byte_shape; (done || lia)|lia..|].
    split; [done|]. intros o Ho. rewrite IHb, v_byte_set by (done || lia).
    destruct (Z.eqb_spec o off) as [->|N].
    + rewrite (proj2 (Z.leb_gt (off + 1) off)), Z.leb_refl, (proj2 (Z.ltb_lt off (off + Z.of_nat (S n)))) by lia. cbn [andb].
      by rewrite Z.sub_diag, Z.mul_0_r, Z.shiftr_0_r.
    + replace (off + 1 + Z.of_nat n) with (off + Z.of_nat (S n)) by lia.
      destruct (Z.leb_spec (off + 1) o), (Z.leb_spec off o); cbn [andb]; try lia.
      destruct (_ <? _); [|done]. rewrite Z.shiftr_shiftr by lia. do 2 f_equal. lia.
Qed.

Lemma v_get_ext n s s' off :
  (forall o, off <= o < off + Z.of_nat n -> v_byte s o = v_byte s' o) -> v_get n s off = v_get n s' off.
Proof.
  revert off. induction n as [|n IH]; intros off H; [done|]. cbn [v_get]. rewrite (H off), (IH (off + 1)); [done| |lia].
  intros. apply H. lia.
Qed.

(** Reading what is there, little endian. *)
Lemma v_get_bytes n s off v :
  (forall o, off <= o < off + Z.of_nat n -> v_byte s o = u8 (v >> (8 * (o - off)))) ->
  v_get n s off = trunc (8 * Z.of_nat n) v.
Proof.
  revert off v. induction n as [|n IH]; intros off v H.
  { cbn. unfold trunc. by rewrite Z.mod_1_r. }
  cbn [v_get]. rewrite (IH (off + 1) (v >> 8)).
  - rewrite (H off) by lia. rewrite Z.sub_diag, Z.mul_0_r, Z.shiftr_0_r. unfold trunc.
    replace (8 * Z.of_nat (S n)) with (8 + 8 * Z.of_nat n) by lia. rewrite Z.pow_add_r by lia.
    rewrite Z.shiftl_mul_pow2, Z.shiftr_div_pow2 by lia. rewrite (Z.rem_mul_r v) by (apply Z.pow_nonzero || apply Z.pow_pos_nonneg; lia). lia.
  - intros o Ho. rewrite (H o) by lia. rewrite Z.shiftr_shiftr by lia. do 2 f_equal. lia.
Qed.

Lemma v_get_fits n s off : shape (v_reg s) -> 0 <= off -> off + Z.of_nat n <= 512 -> fits (8 * Z.of_nat n) (v_get n s off).
Proof.
  revert off. induction n as [|n IH]; intros off H H0 H1; [vm_decide|]. cbn [v_get].
  pose proof (v_byte_fits s off H ltac:(lia)) as [B0 B1]. destruct (IH (off + 1)) as [I0 I1]; [done|lia..|].
  replace (8 * Z.of_nat (S n)) with (8 + 8 * Z.of_nat n) by lia. unfold fits. rewrite Z.pow_add_r, Z.shiftl_mul_pow2 by lia. nia.
Qed.

Lemma v_get_set n off v s :
  shape (v_reg s) -> 0 <= off -> off + Z.of_nat n <= 512 -> v_get n (v_set n off v s) off = trunc (8 * Z.of_nat n) v.
Proof.
  intros H H0 H1. apply v_get_bytes. intros o Ho. destruct (v_set_spec n off v s H H0 H1) as [_ Hb].
  rewrite Hb by lia. by rewrite (proj2 (Z.leb_le off o)), (proj2 (Z.ltb_lt o _)) by lia.
Qed.

Lemma v_set_frame n off v s : v_set n off v s = s <| v_reg := v_reg (v_set n off v s) |>.
Proof.
  revert off v s. induction n as [|n IH]; intros off v s; [by destruct s|]. cbn [v_set]. rewrite IH at 1. done.
Qed.

(** Element [e] of the register group that starts at [reg], for elements of [w] bits. *)
Definition v_elem (w : Z) (s : RISCVCPUState) (reg e : Z) : Z := v_get (v_bytes w) s (v_ptr reg (e * (w / 8))).

Lemma v_elem_ext w s s' reg e : v_reg s' = v_reg s -> v_elem w s' reg e = v_elem w s reg e.
Proof. intros E. apply v_get_ext. intros. unfold v_byte. by rewrite E. Qed.

(** Bit [e] of the mask register. *)
Definition v_mask (s : RISCVCPUState) (e : Z) : bool := has (v_byte s (e / 8) >> (e mod 8)) 1.

(** ** One element *)

Section Group.
Context {D : Type} {dv : Devices D}.
Abbreviation machine := (RISCVMachine D).
Abbreviation X := (M (D := D) exit).

(** A machine whose hart has other vector registers, marks and [vstart]. *)
Definition v_update (m : machine) (r : list (list Z)) (l : list bool) (e : Z) : machine :=
  m <| cpu ::= fun s => s <| v_reg := r |> <| most_recently_written_vregs := l |> <| vstart := e |> |>.

Lemma v_update_id m : m = v_update m (v_reg (cpu m)) (most_recently_written_vregs (cpu m)) (vstart (cpu m)).
Proof. destruct m. match goal with s : RISCVCPUState |- _ => by destruct s end. Qed.

Lemma v_update_set m r l e n off v :
  0 <= e < 128 ->
  (v_update m r l e) <| cpu ::= v_set n off v |> <| cpu ::= fun s => s <| vstart ::= fun v => u16 (v + 1) |> |>
  = v_update m (v_reg (v_set n off v (cpu (v_update m r l e)))) l (e + 1).
Proof.
  intros He. transitivity (m <| cpu := (v_set n off v (cpu (v_update m r l e))) <| vstart ::= fun v => u16 (v + 1) |> |>); [done|].
  rewrite v_set_frame. rewrite <- (trunc_small 16 (e + 1)) by (unfold fits; lia). done.
Qed.

(** What [v_element] does, given the places of the three elements. *)
Definition v_step (op : vop) (vm : bool) (vd vs2 : Z) (vs1 : vptr) : X unit :=
  active <- (if vm then ret true else v0_mask) ;;
  (if active : bool then v_apply op vd vs2 vs1 else ret tt) ;;; vstart_next.

Context (m0 : machine) (op : vop) (vm : bool) (vd vs2 : Z) (vs1 : Z + Z) (bd b2 b1 total : Z) (f : Z -> Z).

Definition operand1 (e : Z) : Z :=
  match vs1 with inl v => trunc (val_w op) v | inr reg => v_elem (val_w op) (cpu m0) reg e end.

Definition operand1_ptr (e : Z) : vptr :=
  match vs1 with inl v => PVal v | inr reg => PReg (v_ptr reg (e * b1)) end.

Definition v_result (e : Z) : Z :=
  if vm || v_mask (cpu m0) e then trunc (vd_w op) (f e) else v_elem (vd_w op) (cpu m0) vd e.

(** A group of elements of [b] bytes is within the register file, and the elements that
    are not yet read are not yet written. *)
Definition readable (reg b : Z) : Prop :=
  0 <= reg /\ reg * 16 + total * b <= 512 /\
  forall e, 0 <= e < total -> (reg * 16 + (e + 1) * b <= vd * 16 \/ vd * 16 + e * bd <= reg * 16 + e * b).

Context (m0_ok : shape (v_reg (cpu m0))) (bd_w : vd_w op = 8 * bd) (b2_w : vs2_w op = 8 * b2) (b1_w : val_w op = 8 * b1)
  (bd_pos : 1 <= bd) (b2_pos : 1 <= b2) (b1_pos : 1 <= b1) (total_small : total <= 128)
  (vd_ok : 0 <= vd /\ vd * 16 + total * bd <= 512) (vs2_ok : readable vs2 b2)
  (vs1_ok : match vs1 with inl _ => True | inr reg => readable reg b1 end)
  (vm_ok : vm = true \/ 1 <= vd)
  (f_ok : forall e, 0 <= e < total -> vm || v_mask (cpu m0) e = true -> v_fun op (v_elem (vs2_w op) (cpu m0) vs2 e) (operand1 e) = Some (f e)).

(** After [e] elements. *)
Definition upto (e : Z) (m : machine) : Prop :=
  exists r l, m = v_update m0 r l e /\ shape r /\
    (forall o, 0 <= o < 512 -> o < vd * 16 \/ vd * 16 + e * bd <= o -> v_byte (cpu m) o = v_byte (cpu m0) o) /\
    (forall k, 0 <= k < e -> v_elem (vd_w op) (cpu m) vd k = v_result k).

Lemma bytes_of b w : w = 8 * b -> 0 <= b -> w / 8 = b /\ Z.of_nat (v_bytes w) = b.
Proof. intros -> Hb. unfold v_bytes. rewrite Z.mul_comm, Z.div_mul by lia. lia. Qed.

Lemma upto_elem w b reg e m :
  w = 8 * b -> 0 <= b -> upto e m -> 0 <= e < total -> readable reg b -> v_elem w (cpu m) reg e = v_elem w (cpu m0) reg e.
Proof.
  intros Hw Hb (r & l & -> & Hr & Hu & _) He (R0 & R1 & R2). destruct (bytes_of b w Hw Hb) as [E1 E2].
  unfold v_elem. apply v_get_ext. rewrite E1, E2. unfold v_ptr. change VREG_BYTES with 16. intros o Ho.
  specialize (R2 e He). apply Hu; [nia|]. nia.
Qed.

Lemma upto_operand1 e m : upto e m -> 0 <= e < total -> v_read_ptr (val_w op) (operand1_ptr e) m = (inr (operand1 e), m).
Proof.
  intros Hm He. unfold operand1_ptr, operand1. destruct vs1 as [v|reg]; [done|]. cbn [v_read_ptr]. unfold v_read.
  destruct (bytes_of b1 _ b1_w ltac:(lia)) as [E1 E2]. rewrite E1. pose proof vs1_ok as (R0 & R1 & R2).
  assert (v_valid (v_ptr reg (e * b1)) b1 = true) as ->.
  { unfold v_valid, v_ptr. change VREG_BYTES with 16. rewrite andb_true_iff, !Z.leb_le. nia. }
  unfold gets. do 2 f_equal. rewrite <- (upto_elem (val_w op) b1 reg e m); [|done || lia..]. unfold v_elem. by rewrite E1.
Qed.

Lemma upto_vs2 e m :
  upto e m -> 0 <= e < total -> v_read (vs2_w op) (v_ptr vs2 (e * b2)) m = (inr (v_elem (vs2_w op) (cpu m0) vs2 e), m).
Proof.
  intros Hm He. destruct (bytes_of b2 _ b2_w ltac:(lia)) as [E1 E2]. unfold v_read. rewrite E1. pose proof vs2_ok as (R0 & R1 & R2).
  assert (v_valid (v_ptr vs2 (e * b2)) b2 = true) as ->.
  { unfold v_valid, v_ptr. change VREG_BYTES with 16. rewrite andb_true_iff, !Z.leb_le. nia. }
  unfold gets. do 2 f_equal. rewrite <- (upto_elem (vs2_w op) b2 vs2 e m); [|done || lia..]. unfold v_elem. by rewrite E1.
Qed.

Lemma upto_mask e m : upto e m -> 0 <= e < total -> vm = false -> v0_mask m = (inr (v_mask (cpu m0) e), m).
Proof.
  intros (r & l & -> & Hr & Hu & _) He Ev. destruct vm_ok as [|Hvd]; [congruence|].
  assert (0 <= e / 8 < 16) by (split; [apply Z.div_pos; lia|apply Z.div_lt_upper_bound; lia]).
  unfold v0_mask, bind, gets, v_read. replace (vstart (cpu (v_update m0 r l e))) with e by done.
  assert (v_valid (e / 8) (8 / 8) = true) as ->.
  { unfold v_valid. change (32 * VREG_BYTES) with 512. rewrite andb_true_iff, !Z.leb_le. change (8 / 8) with 1. lia. }
  cbn [gets ret]. change (v_bytes 8) with 1%nat. cbn [v_get]. rewrite Z.shiftl_0_l, Z.add_0_r. rewrite Hu by lia. done.
Qed.

(** The destination element is written, the others keep their values. *)
Lemma upto_write e m v :
  upto e m -> 0 <= e < total -> vm || v_mask (cpu m0) e = true -> v = f e ->
  exists m', (v_write (vd_w op) (v_ptr vd (e * bd)) v ;;; vstart_next) m = (inr tt, m') /\ upto (e + 1) m'.
Proof.
  intros (r & l & -> & Hr & Hu & Hd) He Hact ->. destruct (bytes_of bd _ bd_w ltac:(lia)) as [E1 E2].
  pose proof (v_set_spec (v_bytes (vd_w op)) (v_ptr vd (e * bd)) (f e) (cpu (v_update m0 r l e)) Hr) as Hs.
  rewrite E2 in Hs. unfold v_ptr in Hs at 1 2. change VREG_BYTES with 16 in Hs.
  destruct Hs as [S1 S2]; [nia..|]. set (s1 := v_set _ _ _ _) in *.
  assert (v_valid (v_ptr vd (e * bd)) bd = true) as Hv.
  { unfold v_valid, v_ptr. change VREG_BYTES with 16. rewrite andb_true_iff, !Z.leb_le. nia. }
  exists (v_update m0 (v_reg s1) l (e + 1)). unfold v_write. rewrite E1, Hv. split.
  - unfold bind, mods, vstart_next, mods. f_equal. apply v_update_set. lia.
  - exists (v_reg s1), l. split; [done|]. split; [done|]. split.
    + intros o Ho Hout. change (v_byte s1 o = v_byte (cpu m0) o). rewrite S2 by done. unfold v_ptr. change VREG_BYTES with 16.
      rewrite (proj2 (andb_false_iff _ _)); [apply Hu; [done|nia]|]. rewrite Z.leb_gt, Z.ltb_ge. nia.
    + intros k Hk. rewrite (v_elem_ext _ s1) by done. destruct (Z.eq_dec k e) as [->|Hne].
      * unfold v_elem. rewrite E1. unfold s1. rewrite v_get_set; [|done|unfold v_ptr; change VREG_BYTES with 16; nia..].
        unfold v_result. rewrite Hact. f_equal. lia.
      * rewrite <- Hd by lia. unfold v_elem. rewrite E1. apply v_get_ext. rewrite E2. intros o Ho. revert Ho.
        unfold v_ptr. change VREG_BYTES with 16. intros Ho. rewrite S2 by nia. unfold v_ptr. change VREG_BYTES with 16.
        rewrite (proj2 (andb_false_iff _ _)); [done|]. rewrite Z.leb_gt, Z.ltb_ge. nia.
Qed.

Lemma upto_skip e m :
  upto e m -> 0 <= e < total -> vm || v_mask (cpu m0) e = false ->
  exists m', vstart_next m = (inr tt, m') /\ upto (e + 1) m'.
Proof.
  intros (r & l & -> & Hr & Hu & Hd) He Hact. exists (v_update m0 r l (e + 1)). split.
  { unfold vstart_next, mods. f_equal. apply (v_update_set m0 r l e 0 0 0). lia. }
  exists r, l. split; [done|]. split; [done|]. split; [intros o Ho Hout; apply Hu; [done|nia]|].
  intros k Hk. rewrite (v_elem_ext _ (cpu (v_update m0 r l e))) by done. destruct (Z.eq_dec k e) as [->|]; [|apply Hd; lia].
  unfold v_result. rewrite Hact. destruct (bytes_of bd _ bd_w ltac:(lia)) as [E1 E2].
  unfold v_elem. rewrite E1. apply v_get_ext. rewrite E2. unfold v_ptr. change VREG_BYTES with 16. intros o Ho. apply Hu; nia.
Qed.

Lemma v_step_upto e m :
  upto e m -> 0 <= e < total ->
  exists m', v_step op vm (v_ptr vd (e * bd)) (v_ptr vs2 (e * b2)) (operand1_ptr e) m = (inr tt, m') /\ upto (e + 1) m'.
Proof.
  intros Hm He. unfold v_step, bind at 1.
  assert ((if vm then ret true else v0_mask) m = (inr (vm || v_mask (cpu m0) e), m)) as ->.
  { destruct (bool_dec vm true) as [E|E%not_true_is_false]; rewrite E; [done|]. by apply upto_mask. }
  destruct (vm || v_mask (cpu m0) e) eqn:Hact; [|by apply upto_skip].
  destruct (upto_write e m (f e)) as (m' & E & Hm'); [done..|]. exists m'. split; [|done].
  rewrite <- E. unfold v_apply, bind. rewrite upto_operand1, upto_vs2 by done. cbv iota beta. rewrite f_ok by done. cbn [defined ret].
  done.
Qed.
End Group.

(** ** Register groups *)

Lemma bind_inr {D E A B} (x : M (D := D) E A) (k : A -> M E B) m a m' : x m = (inr a, m') -> bind x k m = k a m'.
Proof. unfold bind. by intros ->. Qed.

Section Loops.
Context {D : Type} {dv : Devices D}.
Abbreviation machine := (RISCVMachine D).

(** A loop whose [k]th iteration takes [I k] to [I (k + 1)]. *)
Lemma for_upto {R} (I : Z -> machine -> Prop) n i step body m k :
  I k m ->
  (forall j m, 0 <= j < Z.of_nat n -> I (k + j) m ->
     exists m', body (i + j * step) tt m = (inr (inl tt), m') /\ I (k + j + 1) m') ->
  exists m', for_ (A := unit) (R := R) n i step tt body m = (inr (inl tt), m') /\ I (k + Z.of_nat n) m'.
Proof.
  revert i m k. induction n as [|n IH]; intros i m k Hm Hb.
  { exists m. rewrite Z.add_0_r. done. }
  cbn [for_]. unfold bind. destruct (Hb 0 m) as (m1 & E & H1); [lia|by rewrite Z.add_0_r|].
  rewrite Z.mul_0_l, Z.add_0_r in E. rewrite E. rewrite Z.add_0_r in H1.
  destruct (IH (i + step) m1 (k + 1) H1) as (m' & E' & H').
  - intros j m2 Hj H2. destruct (Hb (j + 1) m2) as (m3 & E3 & H3); [lia|by replace (k + (j + 1)) with (k + 1 + j) by lia|].
    exists m3. replace (i + step + j * step) with (i + (j + 1) * step) by lia. split; [done|].
    by replace (k + 1 + j + 1) with (k + (j + 1) + 1) by lia.
  - exists m'. split; [done|]. by replace (k + Z.of_nat (S n)) with (k + 1 + Z.of_nat n) by lia.
Qed.

(** The sizes of the elements of the three operands, in bytes. *)
Definition widths (wc : width_config) (bd b2 b1 : Z) : Prop :=
  match wc with
  | SINGLE_WIDTH => (bd = 1 \/ bd = 2 \/ bd = 4 \/ bd = 8) /\ b2 = bd /\ b1 = bd
  | WIDEN_VD => (b1 = 1 \/ b1 = 2 \/ b1 = 4) /\ b2 = b1 /\ bd = 2 * b1
  | WIDEN_VD_VS2 => (b1 = 1 \/ b1 = 2 \/ b1 = 4) /\ b2 = bd /\ bd = 2 * b1
  | WIDEN_VS2 => False
  end.

Definition is_vv (vs1 : Z + Z) : bool := match vs1 with inl _ => false | inr _ => true end.
Definition arg_vs1 (vs1 : Z + Z) : Z := match vs1 with inl v => v | inr reg => reg end.

(** Half way through the register of a source that is half as wide. *)
Lemma half_ptr reg i k b :
  (b = 1 \/ b = 2 \/ b = 4) -> 0 <= i -> 0 <= k ->
  v_ptr (reg + i + - (i / 2 + i mod 2))
    (k * (2 * b) + (if nz (i mod 2) then (VREG_BYTES >> 1) - ((k * (2 * b)) >> 1) else Z.quot (- (k * (2 * b))) 2))
  = v_ptr reg ((i * (16 / (2 * b)) + k) * b).
Proof.
  intros Hb Hi Hk. change (VREG_BYTES >> 1) with 8. unfold v_ptr. change VREG_BYTES with 16.
  rewrite Z.shiftr_div_pow2 by lia. change (2 ^ 1) with 2. rewrite Z.quot_opp_l, Z.quot_div_nonneg by (destruct_or! Hb; lia).
  replace (k * (2 * b) / 2) with (k * b) by (replace (k * (2 * b)) with (k * b * 2) by lia; by rewrite Z.div_mul).
  pose proof (Z.div_mod i 2 ltac:(lia)). pose proof (Z.mod_pos_bound i 2 ltac:(lia)). unfold nz.
  destruct (Z.eqb_spec (i mod 2) 0); cbn [negb]; destruct_or! Hb; subst b; change (16 / (2 * 1)) with 8; change (16 / (2 * 2)) with 4; change (16 / (2 * 4)) with 2; lia.
Qed.

Lemma v_element_step op wc vm vd vs2 vs1 bd b2 b1 i k :
  widths wc bd b2 b1 -> 0 <= i -> 0 <= k ->
  let e := i * (16 / bd) + k in
  v_element (D := D) op wc (is_vv vs1) vm vd vs2 (arg_vs1 vs1) i (k * bd)
  = v_step op vm (v_ptr vd (e * bd)) (v_ptr vs2 (e * b2)) (operand1_ptr vs1 b1 e).
Proof.
  intros Hw Hi Hk. cbv zeta.
  assert (forall reg b, (b = 1 \/ b = 2 \/ b = 4 \/ b = 8) -> v_ptr (reg + i + 0) (k * b + 0) = v_ptr reg ((i * (16 / b) + k) * b)) as Hsame.
  { intros reg b Hb. unfold v_ptr. change VREG_BYTES with 16. destruct_or! Hb; subst b;
      change (16 / 1) with 16; change (16 / 2) with 8; change (16 / 4) with 4; change (16 / 8) with 2; lia. }
  assert (v_ptr (vd + i) (k * bd) = v_ptr vd ((i * (16 / bd) + k) * bd)) as Hvd.
  { rewrite <- Hsame by (destruct wc; cbn [widths] in Hw; lia). f_equal; lia. }
  unfold v_element, v_mods, operand1_ptr, v_step. destruct wc; cbn [widths] in Hw; [|..|done]; destruct Hw as (Hb & -> & E);
    cbv zeta iota beta; rewrite Hvd.
  - subst b1. rewrite (Hsame vs2) by done. destruct vs1 as [v|reg]; cbn [is_vv arg_vs1]; [done|]. by rewrite Hsame.
  - rewrite (Hsame vs2) by lia. subst bd. destruct vs1 as [v|reg]; cbn [is_vv arg_vs1]; [done|]. by rewrite half_ptr.
  - subst bd. rewrite (half_ptr vs2) by done. destruct vs1 as [v|reg]; cbn [is_vv arg_vs1]; [done|]. by rewrite half_ptr.
Qed.
End Loops.

Section Vectorize.
Context {D : Type} {dv : Devices D} (m0 : RISCVMachine D) (op : vop) (wc : width_config) (vm : bool).
Context (vd vs2 : Z) (vs1 : Z + Z) (bd b2 b1 n : Z) (f : Z -> Z).
Let total : Z := n * (16 / bd).
Context (wc_ok : widths wc bd b2 b1) (m0_ok : shape (v_reg (cpu m0))) (vstart_0 : vstart (cpu m0) = 0)
  (bd_w : vd_w op = 8 * bd) (b2_w : vs2_w op = 8 * b2) (b1_w : val_w op = 8 * b1)
  (n_ok : 0 <= n) (total_small : total <= 128)
  (vd_ok : 0 <= vd /\ vd + n <= 32) (vs2_ok : readable vd bd total vs2 b2)
  (vs1_ok : match vs1 with inl _ => True | inr reg => readable vd bd total reg b1 end)
  (vm_ok : vm = true \/ 1 <= vd)
  (f_ok : forall e, 0 <= e < total -> vm || v_mask (cpu m0) e = true ->
     v_fun op (v_elem (vs2_w op) (cpu m0) vs2 e) (operand1 m0 op vs1 e) = Some (f e)).
Abbreviation done_to := (upto m0 op vm vd bd f).

Lemma bd_div : (bd = 1 \/ bd = 2 \/ bd = 4 \/ bd = 8) /\ 16 / bd * bd = 16 /\ 1 <= b2 /\ 1 <= b1 /\ 2 <= 16 / bd.
Proof.
  assert ((bd = 1 \/ bd = 2 \/ bd = 4 \/ bd = 8) /\ 1 <= b2 /\ 1 <= b1) as (H & ? & ?) by (destruct wc; cbn [widths] in wc_ok; lia).
  split; [done|]. destruct_or! H; subst bd; split_and!; done || lia.
Qed.

Lemma v_register_upto i m :
  0 <= i < n -> done_to (i * (16 / bd)) m ->
  exists m', v_register op wc (is_vv vs1) vm vd vs2 (arg_vs1 vs1) (8 * bd) i m = (inr tt, m') /\ done_to ((i + 1) * (16 / bd)) m'.
Proof.
  intros Hi (r & l & -> & Hr & Hu & Hd). destruct bd_div as (Hbd & H16 & Hb2 & Hb1 & Hper).
  unfold v_register, bind at 1, gets. replace (vstart (cpu (v_update m0 r l (i * (16 / bd))))) with (i * (16 / bd)) by done.
  assert (VLEN / (8 * bd) = 16 / bd) as -> by (destruct_or! Hbd; by subst bd).
  replace (i * (16 / bd) - 16 / bd * i) with 0 by lia. rewrite (proj2 (Z.ltb_lt 0 (16 / bd))) by lia.
  replace (8 * bd / 8) with bd by (rewrite Z.mul_comm, Z.div_mul; lia). rewrite Z.mul_0_l.
  assert (iterations 0 (VLEN / 8) bd = Z.to_nat (16 / bd)) as -> by (destruct_or! Hbd; by subst bd).
  unfold bind at 1, mark_vreg. rewrite (proj2 (Z.leb_le 0 (vd + i))), (proj2 (Z.ltb_lt (vd + i) 32)) by lia. cbn [andb]. unfold mods.
  set (m1 := (v_update m0 r l (i * (16 / bd))) <| cpu ::= _ |>).
  assert (done_to (i * (16 / bd)) m1) as H1 by (exists r, (aset l (vd + i) true); split; [done|]; split; [done|]; split; [exact Hu|intros k Hk; rewrite <- (Hd k Hk); by apply v_elem_ext]).
  destruct (for_upto (R := Empty_set) done_to (Z.to_nat (16 / bd)) 0 bd
    (fun j _ => v_element op wc (is_vv vs1) vm vd vs2 (arg_vs1 vs1) i j ;;; ret (inl tt)) m1 (i * (16 / bd)) H1) as (m' & E & H').
  - intros j m Hj Hm. rewrite Z.add_0_l. unfold bind. rewrite (v_element_step _ _ _ _ _ _ bd b2 b1) by (done || lia).
    destruct (v_step_upto m0 op vm vd vs2 vs1 bd b2 b1 total f) with (e := i * (16 / bd) + j) (m := m) as (m2 & -> & H2);
      try done; try lia. by exists m2.
  - rewrite (bind_inr _ _ _ _ _ E). exists m'. split; [done|]. rewrite Z2Nat.id in H' by lia.
    by replace ((i + 1) * (16 / bd)) with (i * (16 / bd) + 16 / bd) by lia.
Qed.

(** The machine after all the elements of the group. *)
Lemma v_registers_upto :
  exists m', for_ (R := Empty_set) (Z.to_nat n) 0 1 tt
      (fun i _ => v_register op wc (is_vv vs1) vm vd vs2 (arg_vs1 vs1) (8 * bd) i ;;; ret (inl tt)) m0 = (inr (inl tt), m') /\
    done_to total m'.
Proof.
  destruct (for_upto (R := Empty_set) (fun k => done_to (k * (16 / bd))) (Z.to_nat n) 0 1
    (fun i _ => v_register op wc (is_vv vs1) vm vd vs2 (arg_vs1 vs1) (8 * bd) i ;;; ret (inl tt)) m0 0) as (m' & E & H').
  - exists (v_reg (cpu m0)), (most_recently_written_vregs (cpu m0)). split; [|split; [done|split; [done|intros; lia]]].
    rewrite Z.mul_0_l, <- vstart_0. apply v_update_id.
  - intros j m Hj Hm. rewrite Z.add_0_l in Hm |- *. rewrite Z.mul_1_r. unfold bind.
    destruct (v_register_upto j m) as (m2 & -> & H2); [lia|done|]. by exists m2.
  - exists m'. split; [done|]. rewrite Z.add_0_l, Z2Nat.id in H' by done. done.
Qed.
End Vectorize.

(** ** The additions *)

(** The configuration under which an instruction runs: [LMUL] is [2 ^ l]. *)
Record v_ready (s : RISCVCPUState) (l sew : Z) : Prop := {
  ready_vs : vs s <> 0;
  ready_vtype : vtype s <> VILL;
  ready_lmul : vtype s .& LMUL_MASK = l /\ 0 <= l <= 3;
  ready_sew : get_sew s = sew;
  ready_vstart : vstart s = 0
}.

(** [m'] is [m] with [total] new elements of [w] bits in the group at [vd]; the hart's
    vector state is dirty and nothing else has changed but the marks of written
    registers and the log of read ones. *)
Record v_computed {D} (m m' : RISCVMachine D) (w vd total : Z) (res : Z -> Z) : Prop := {
  computed_frame : exists q r k, m' = m <| cpu ::= fun s =>
    s <| vs := 3 |> <| stf_read_regs := q |> <| v_reg := r |> <| most_recently_written_vregs := k |> |>;
  computed_elems : forall e, 0 <= e < total -> v_elem w (cpu m') vd e = res e;
  computed_rest : forall o, 0 <= o < 512 -> o < vd * 16 \/ vd * 16 + total * (w / 8) <= o ->
    v_byte (cpu m') o = v_byte (cpu m) o
}.

Definition rd_aligned (l reg : Z) : Prop := 0 <= reg < 32 /\ reg mod 2 ^ l = 0.

Lemma lmul_pow l : 0 <= l <= 4 -> 2 ^ l = 1 \/ 2 ^ l = 2 \/ 2 ^ l = 4 \/ 2 ^ l = 8 \/ 2 ^ l = 16.
Proof. intros H. assert (l = 0 \/ l = 1 \/ l = 2 \/ l = 3 \/ l = 4) as Hl by lia. destruct_or! Hl; subst; cbn; lia. Qed.

Lemma aligned_fits l reg : 0 <= l <= 4 -> rd_aligned l reg -> reg + 2 ^ l <= 32.
Proof.
  intros Hl [H1 H2]. destruct (lmul_pow l Hl) as [E|[E|[E|[E|E]]]]; rewrite E in *; Z.to_euclidean_division_equations; lia.
Qed.

Lemma aligned_before l a b : 0 <= l <= 4 -> rd_aligned l a -> rd_aligned l b -> a < b -> a + 2 ^ l <= b.
Proof.
  intros Hl [H1 H2] [H3 H4] H. destruct (lmul_pow l Hl) as [E|[E|[E|[E|E]]]]; rewrite E in *; Z.to_euclidean_division_equations; lia.
Qed.

(** The registers of a source that is as wide as the destination. *)
Lemma aligned_readable l vd reg b :
  0 <= l <= 4 -> rd_aligned l vd -> rd_aligned l reg -> (b = 1 \/ b = 2 \/ b = 4 \/ b = 8) ->
  readable vd b (2 ^ l * (16 / b)) reg b.
Proof.
  intros Hl Hd Hr Hb. assert (2 ^ l * (16 / b) * b = 2 ^ l * 16) as E.
  { destruct_or! Hb; subst b; change (16 / 1) with 16; change (16 / 2) with 8; change (16 / 4) with 4; change (16 / 8) with 2; lia. }
  pose proof (aligned_fits l reg Hl Hr). split; [apply Hr|]. split; [lia|]. intros e He.
  destruct (Z.lt_ge_cases reg vd) as [H1|H1]; [left|right; nia].
  pose proof (aligned_before l reg vd Hl Hr Hd H1). nia.
Qed.

Lemma trunc_narrow w v x : 0 <= w <= v -> trunc w (trunc v x) = trunc w x.
Proof.
  intros H. unfold trunc. apply Z.mod_mod_divide. exists (2 ^ (v - w)). rewrite <- Z.pow_add_r by lia. f_equal. lia.
Qed.

Section Additions.
Context {D : Type} {dv : Devices D}.

Lemma get_lmul_ready s l sew : v_ready s l sew -> get_lmul s = Some (2 ^ l * 8).
Proof.
  intros [_ _ [El Hl] _ _]. unfold get_lmul. rewrite El.
  clear El. assert (l = 0 \/ l = 1 \/ l = 2 \/ l = 3) as H by lia. by destruct_or! H; subst l.
Qed.

(** The loop of an instruction whose registers [v_group] accepts. *)
Lemma vectorize_group (m : RISCVMachine D) wc config op vm vd vs2 vs1 l sew bd b2 b1 n f :
  cpu_ok (cpu m) -> v_ready (cpu m) l sew -> config sew = Some op ->
  v_group wc (is_vv vs1) vd vs2 (arg_vs1 vs1) (2 ^ l * 8) sew = Some (n, 8 * bd) ->
  widths wc bd b2 b1 -> vd_w op = 8 * bd -> vs2_w op = 8 * b2 -> val_w op = 8 * b1 ->
  0 <= n -> n * (16 / bd) <= 128 -> 0 <= vd /\ vd + n <= 32 -> readable vd bd (n * (16 / bd)) vs2 b2 ->
  match vs1 with inl _ => True | inr reg => readable vd bd (n * (16 / bd)) reg b1 end ->
  vm = true \/ 1 <= vd ->
  (forall e, 0 <= e < n * (16 / bd) -> vm || v_mask (cpu m) e = true ->
     v_fun op (v_elem (vs2_w op) (cpu m) vs2 e) (operand1 m op vs1 e) = Some (f e)) ->
  exists m' r k, vectorize_arithmetic vs2 vd (arg_vs1 vs1) wc (is_vv vs1) vm config m = (inr false, m') /\
    m' = m <| cpu ::= fun s => s <| v_reg := r |> <| most_recently_written_vregs := k |> |> /\
    (forall e, 0 <= e < n * (16 / bd) -> v_elem (vd_w op) (cpu m') vd e = v_result m op vm vd f e) /\
    (forall o, 0 <= o < 512 -> o < vd * 16 \/ vd * 16 + n * (16 / bd) * bd <= o -> v_byte (cpu m') o = v_byte (cpu m) o).
Proof.
  intros Hc Hr Eop Eg Hw W1 W2 W3 Hn Ht Hvd Hvs2 Hvs1 Hvm Hf. pose proof Hr as [_ Hv _ Hsew Hst].
  destruct (v_registers_upto m op wc vm vd vs2 vs1 bd b2 b1 n f Hw (cpu_ok_shape _ Hc) Hst W1 W2 W3 Hn Ht Hvd Hvs2 Hvs1 Hvm Hf)
    as (m1 & E & r & k & -> & Hsh & Hu & Hd).
  exists ((v_update m r k (n * (16 / bd))) <| cpu ::= fun s => s <| vstart := 0 |> |>), r, k. split_and!.
  - unfold vectorize_arithmetic. unfold bind at 1, gets. rewrite (proj2 (Z.eqb_neq _ _) Hv), Hsew, Eop.
    rewrite (get_lmul_ready _ _ _ Hr). rewrite (bind_inr _ _ m (2 ^ l * 8) m) by done. rewrite Eg, (bind_inr _ _ _ _ _ E). done.
  - unfold v_update. mach_simpl. rewrite <- Hst. destruct m as []. cbn. match goal with s : RISCVCPUState |- _ => by destruct s end.
  - intros e He. rewrite <- Hd by done. by apply v_elem_ext.
  - intros o Ho Hout. rewrite <- Hu by done. done.
Qed.
(** The second operand of element [e]: a vector element, the register or the immediate. *)
Definition v_source (insn w : Z) (s : RISCVCPUState) (e : Z) : Z :=
  if ((insn >> 12) .& 7 =? 0) || ((insn >> 12) .& 7 =? 2) then v_elem w s (rs1_of insn) e
  else if (insn >> 12) .& 7 =? 3 then trunc w (i32 (rs1_of insn << 27) >> 27)
  else trunc w (aget 0 (reg s) (rs1_of insn)).

Definition v_unmasked (insn : Z) : bool := has (insn >> 25) 1.

(** What an addition stores in element [e]. *)
Definition v_sum (insn w : Z) (s : RISCVCPUState) (sum : Z -> Z) (e : Z) : Z :=
  if v_unmasked insn || v_mask s e then trunc w (sum e) else v_elem w s (rd_of insn) e.

(** The machine on which the loop of an instruction starts. *)
Definition v_decoded (m : RISCVMachine D) (q : list Z) : RISCVMachine D :=
  m <| cpu ::= fun s => s <| vs := 3 |> <| stf_read_regs := q |> |>.

Lemma decoded_ok m q : cpu_ok (cpu m) -> cpu_ok (cpu (v_decoded m q)).
Proof. intros H. unfold v_decoded. mach_simpl. cpu_ok_split H. vm_decide. Qed.

Lemma decoded_ready m q l sew : v_ready (cpu m) l sew -> v_ready (cpu (v_decoded m q)) l sew.
Proof. intros []. by split. Qed.

Lemma read_reg_decoded x m q :
  exists q', read_reg x (v_decoded m q) = (inr (aget 0 (reg (cpu m)) x), v_decoded m q').
Proof.
  unfold read_reg, bind, getm. destruct (stf_in_traceable_region _); [exists (q ++ [x])|exists q]; done.
Qed.

Lemma mods_decoded m : mods (E := exit) (fun s => s <| vs := 3 |>) m = (inr tt, v_decoded m (stf_read_regs (cpu m))).
Proof. done. Qed.

Lemma rd_of_range insn : 0 <= rd_of insn < 32 /\ 0 <= rs1_of insn < 32 /\ 0 <= rs2_of insn < 32.
Proof.
  unfold rd_of, rs1_of, rs2_of. change 31 with (Z.ones 5). rewrite !Z.land_ones by lia.
  split_and!; apply Z.mod_pos_bound; lia.
Qed.

(** The loop over elements of one width, from the decoded machine. *)
Lemma vadd_loop insn (m : RISCVMachine D) q l sew vs1 :
  cpu_ok (cpu m) -> v_ready (cpu m) l sew -> is_eew sew = true ->
  rd_aligned l (rd_of insn) -> rd_aligned l (rs2_of insn) -> match vs1 with inl _ => True | inr reg => rd_aligned l reg end ->
  v_unmasked insn = true \/ rd_of insn <> 0 ->
  (forall e, operand1 m (mkVop sew sew sew (fun a b => Some (a + b))) vs1 e = v_source insn sew (cpu m) e) ->
  exists m', vectorize_arithmetic (rs2_of insn) (rd_of insn) (arg_vs1 vs1) SINGLE_WIDTH (is_vv vs1) (v_unmasked insn) v_add_config
      (v_decoded m q) = (inr false, m') /\
    v_computed m m' sew (rd_of insn) (2 ^ l * VLEN / sew)
      (v_sum insn sew (cpu m) (fun e => v_elem sew (cpu m) (rs2_of insn) e + v_source insn sew (cpu m) e)).
Proof.
  intros Hc Hr Hsew Hd H2 H1 Hm Ho. pose proof (ready_lmul _ _ _ Hr) as [_ Hl].
  assert (exists b, sew = 8 * b /\ (b = 1 \/ b = 2 \/ b = 4 \/ b = 8)) as (b & -> & Hb).
  { unfold is_eew in Hsew. rewrite !orb_true_iff, !Z.eqb_eq in Hsew.
    destruct Hsew as [[[Es|Es]|Es]|Es]; [exists 1|exists 2|exists 4|exists 8]; lia. }
  assert (2 ^ l * VLEN / (8 * b) = 2 ^ l * (16 / b)) as ->.
  { destruct (lmul_pow l ltac:(lia)) as [E|[E|[E|[E|E]]]]; rewrite E; destruct_or! Hb; by subst b. }
  assert (8 * b / 8 = b) as E8 by (rewrite Z.mul_comm; by apply Z.div_mul).
  destruct (vectorize_group (v_decoded m q) SINGLE_WIDTH v_add_config (mkVop (8 * b) (8 * b) (8 * b) (fun x y => Some (x + y)))
    (v_unmasked insn) (rd_of insn) (rs2_of insn) vs1 l (8 * b) b b b (2 ^ l)
    (fun e => v_elem (8 * b) (cpu m) (rs2_of insn) e + v_source insn (8 * b) (cpu m) e)) as (m' & r & k & E & -> & He & Hrest).
  - by apply decoded_ok.
  - by apply decoded_ready.
  - unfold v_add_config. by rewrite Hsew.
  - unfold v_group. rewrite Z.div_mul, (proj2 (Z.eqb_neq (2 ^ l) 0)) by (done || (pose proof (pow2_pos l); lia)).
    assert (is_vv vs1 && nz (arg_vs1 vs1 mod 2 ^ l) = false) as ->.
    { destruct vs1; [done|]. cbn [is_vv arg_vs1]. destruct H1 as [_ ->]. done. }
    destruct Hd as [_ ->], H2 as [_ ->]. done.
  - by cbn.
  - done.
  - done.
  - done.
  - destruct (lmul_pow l ltac:(lia)) as [->|[->|[->|[->| ->]]]]; lia.
  - destruct (lmul_pow l ltac:(lia)) as [Ep|[Ep|[Ep|[Ep|Ep]]]]; rewrite Ep; destruct_or! Hb; subst b; try done.
    all: by assert (l <= 3 -> 2 ^ l <= 8) as H8 by (intros; apply (Z.pow_le_mono_r 2 l 3); lia); specialize (H8 ltac:(lia)); rewrite Ep in H8.
  - pose proof (aligned_fits l (rd_of insn) ltac:(lia) Hd). destruct Hd. lia.
  - apply aligned_readable; done || lia.
  - destruct vs1; [done|]. apply aligned_readable; done || lia.
  - destruct Hm; [by left|right; destruct Hd; lia].
  - intros e _ _. cbn [v_fun]. f_equal. f_equal; [by apply v_elem_ext|]. rewrite <- Ho. unfold operand1. destruct vs1; [done|by apply v_elem_ext].
  - eexists. split; [exact E|]. split.
    + by exists q, r, k.
    + intros e Hin. rewrite He by done. unfold v_result, v_sum. by rewrite (v_elem_ext _ (cpu m) (cpu (v_decoded m q))) by done.
    + intros o Hor Hout. rewrite E8 in Hout. by rewrite Hrest by done.
Qed.
(** C39 [vadd.vv], [vadd.vx] and [vadd.vi]: every element of the destination group becomes
    the sum of the elements of the sources modulo [2 ^ SEW], for every [SEW] and every
    [LMUL] from 1 to 8; a masked instruction keeps the elements whose mask bit is clear.
    Nothing else of the register file changes, also when the groups are the same.  The
    vector length [vl] plays no part: the elements past it are written as well. *)
Theorem vadd_correct insn (m : RISCVMachine D) l sew :
  cpu_ok (cpu m) -> v_ready (cpu m) l sew -> is_eew sew = true ->
  (insn >> 26) .& 0x3f = 0 -> (insn >> 12) .& 7 = 0 \/ (insn >> 12) .& 7 = 3 \/ (insn >> 12) .& 7 = 4 ->
  rd_of insn mod 2 ^ l = 0 -> rs2_of insn mod 2 ^ l = 0 -> ((insn >> 12) .& 7 = 0 -> rs1_of insn mod 2 ^ l = 0) ->
  v_unmasked insn = true \/ rd_of insn <> 0 ->
  exists m', exec_v_arith insn m = (inr NextInsn, m') /\
    v_computed m m' sew (rd_of insn) (2 ^ l * VLEN / sew)
      (v_sum insn sew (cpu m) (fun e => v_elem sew (cpu m) (rs2_of insn) e + v_source insn sew (cpu m) e)).
Proof.
  intros Hc Hr Hsew Hf6 Hf3 Hd H2 H1 Hm. destruct (rd_of_range insn) as (Rd & R1 & R2).
  pose proof (fun q vs1 => vadd_loop insn m q l sew vs1 Hc Hr Hsew (conj Rd Hd) (conj R2 H2)) as Hloop.
  unfold exec_v_arith. unfold bind at 1, gets. rewrite (proj2 (Z.eqb_neq _ _) (ready_vs _ _ _ Hr)). rewrite (bind_inr _ _ _ _ _ (mods_decoded m)).
  cbv zeta. rewrite Hf6. fold (v_unmasked insn). destruct Hf3 as [E|[E|E]]; rewrite E; cbn [Z.eqb Pos.eqb].
  - destruct (Hloop (stf_read_regs (cpu m)) (inr (rs1_of insn))) as (m' & El & Hm'); [split; auto|done|intros e; unfold v_source; by rewrite E|].
    exists m'. split; [|done]. unfold bind. cbn [is_vv arg_vs1] in El. by rewrite El.
  - destruct (Hloop (stf_read_regs (cpu m)) (inl (u64 (i32 (rs1_of insn << 27) >> 27)))) as (m' & El & Hm'); [done..| |].
    { intros e. unfold v_source. rewrite E. cbn [operand1 val_w andb orb Z.eqb Pos.eqb].
      apply trunc_narrow. unfold is_eew in Hsew. rewrite !orb_true_iff, !Z.eqb_eq in Hsew. lia. }
    exists m'. split; [|done]. unfold bind. cbn [is_vv arg_vs1] in El. by rewrite El.
  - destruct (read_reg_decoded (rs1_of insn) m (stf_read_regs (cpu m))) as [q Eq].
    destruct (Hloop q (inl (aget 0 (reg (cpu m)) (rs1_of insn)))) as (m' & El & Hm'); [done..|intros e; unfold v_source; by rewrite E|].
    exists m'. split; [|done]. unfold bind. rewrite Eq. cbn [is_vv arg_vs1] in El. by rewrite El.
Qed.
(** *** Widening additions *)

Definition v_extend (signed : bool) (w x : Z) : Z := if signed then sgn w x else x.

(** The four configurations, by whether they are signed and whether [vs2] is wide. *)
Definition wide_config (signed wide : bool) : Z -> option vop :=
  if wide then if signed then vw_addw_config else vw_adduw_config else if signed then vw_add_config else vw_addu_config.

Lemma wide_config_fun (signed wide : bool) sew a b :
  sew = 8 \/ sew = 16 /\ signed && wide = false ->
  exists op, wide_config signed wide sew = Some op /\
    (vd_w op, vs2_w op, val_w op) = (2 * sew, (if wide then 2 * sew else sew), sew) /\
    v_fun op a b = Some (v_extend signed (if wide then 2 * sew else sew) a + v_extend signed sew b).
Proof.
  intros Hs. assert (forall w x y, (w = 8 \/ w = 16) -> no_overflow 32 (sgn w x + sgn 8 y) = Some (sgn w x + sgn 8 y) /\
                                   no_overflow 32 (sgn w x + sgn 16 y) = Some (sgn w x + sgn 16 y)) as Hn.
  { intros w x y Hw. pose proof (sgn_range w x ltac:(lia)). pose proof (sgn_range 8 y ltac:(lia)). pose proof (sgn_range 16 y ltac:(lia)).
    unfold no_overflow. destruct Hw as [-> | ->]; split; (rewrite (proj2 (Z.leb_le _ _)), (proj2 (Z.ltb_lt _ _)); [done|lia..]). }
  destruct signed, wide; cbn [wide_config v_extend andb] in *; destruct Hs as [-> | [-> ?]]; try done;
    (eexists; split; [reflexivity|]; split; [reflexivity|]); cbn [v_fun]; try done; apply Hn; auto.
Qed.

Definition v_apart (l vd reg : Z) : Prop := reg + 2 ^ l <= vd \/ vd + 2 ^ l <= reg.

(** The registers of a source that is half as wide as the destination. *)
Lemma half_readable l vd reg b :
  0 <= l <= 3 -> 0 <= reg -> reg + 2 ^ l <= 32 -> v_apart l vd reg -> (b = 1 \/ b = 2 \/ b = 4) ->
  readable vd (2 * b) (2 ^ (l + 1) * (16 / (2 * b))) reg b.
Proof.
  intros Hl H0 H1 Ha Hb. assert (2 ^ (l + 1) * (16 / (2 * b)) * b = 2 ^ l * 16) as E.
  { rewrite Z.pow_add_r by lia. destruct_or! Hb; subst b; change (16 / (2 * 1)) with 8; change (16 / (2 * 2)) with 4; change (16 / (2 * 4)) with 2; lia. }
  split; [done|]. split; [lia|]. intros e He. destruct Ha; [left|right]; nia.
Qed.

Definition wide_sum (insn sew : Z) (signed wide : bool) (s : RISCVCPUState) (e : Z) : Z :=
  let w2 := if wide then 2 * sew else sew in
  v_extend signed w2 (v_elem w2 s (rs2_of insn) e) + v_extend signed sew (v_source insn sew s e).

(** Where the sources of a widening addition may be. *)
Record wide_ok (insn l : Z) (wide : bool) (vs1 : Z + Z) : Prop := {
  wide_rd : rd_of insn mod 2 ^ (l + 1) = 0;
  wide_rs2 : if wide then rs2_of insn mod 2 ^ (l + 1) = 0
             else rs2_of insn mod 2 ^ l = 0 /\ v_apart l (rd_of insn) (rs2_of insn);
  wide_rs1 : match vs1 with
             | inl _ => True
             | inr reg => 0 <= reg < 32 /\ reg mod 2 ^ l = 0 /\ v_apart l (rd_of insn) reg
             end
}.

Lemma vwadd_group insn l sew (wide : bool) vs1 :
  0 <= l <= 3 -> wide_ok insn l wide vs1 ->
  v_group (if wide then WIDEN_VD_VS2 else WIDEN_VD) (is_vv vs1) (rd_of insn) (rs2_of insn) (arg_vs1 vs1) (2 ^ l * 8) sew
  = Some (2 ^ (l + 1), 2 * sew).
Proof.
  intros Hl [Hd H2 H1]. unfold v_group. pose proof (pow2_pos l ltac:(lia)).
  rewrite Z.div_mul, (proj2 (Z.eqb_neq (2 ^ l) 0)) by lia.
  assert (is_vv vs1 && nz (arg_vs1 vs1 mod 2 ^ l) = false) as ->.
  { destruct vs1; [done|]. cbn [is_vv arg_vs1]. destruct H1 as (_ & -> & _). done. }
  assert (2 ^ l * 2 = 2 ^ (l + 1)) as -> by (rewrite Z.pow_add_r; lia).
  assert (2 ^ l << 1 = 2 ^ (l + 1)) as -> by (rewrite Z.shiftl_mul_pow2, Z.pow_add_r; lia).
  assert (sew << 1 = 2 * sew) as -> by (rewrite Z.shiftl_mul_pow2; lia).
  rewrite Hd. destruct wide; [rewrite H2|]; done.
Qed.

Lemma vwadd_loop insn (m : RISCVMachine D) q l sew (signed wide : bool) vs1 :
  cpu_ok (cpu m) -> v_ready (cpu m) l sew -> sew = 8 \/ sew = 16 /\ signed && wide = false ->
  wide_ok insn l wide vs1 -> v_unmasked insn = true \/ rd_of insn <> 0 ->
  (forall e, match vs1 with inl v => trunc sew v | inr reg => v_elem sew (cpu m) reg e end = v_source insn sew (cpu m) e) ->
  exists m', vectorize_arithmetic (rs2_of insn) (rd_of insn) (arg_vs1 vs1) (if wide then WIDEN_VD_VS2 else WIDEN_VD) (is_vv vs1)
      (v_unmasked insn) (wide_config signed wide) (v_decoded m q) = (inr false, m') /\
    v_computed m m' (2 * sew) (rd_of insn) (2 ^ l * VLEN / sew)
      (v_sum insn (2 * sew) (cpu m) (wide_sum insn sew signed wide (cpu m))).
Proof.
  intros Hc Hr Hsew Hok Hm Ho. pose proof (ready_lmul _ _ _ Hr) as [_ Hl]. destruct (rd_of_range insn) as (Rd & R1 & R2).
  assert (exists b, sew = 8 * b /\ (b = 1 \/ b = 2)) as (b & Es & Hb) by (destruct Hsew as [-> |[-> _]]; [exists 1|exists 2]; lia).
  destruct (wide_config_fun signed wide sew 0 0 Hsew) as (op & Eop & Ew & _). injection Ew as W1 W2 W3.
  assert (2 ^ l * VLEN / sew = 2 ^ (l + 1) * (16 / (2 * b))) as ->.
  { rewrite Es, Z.pow_add_r by lia. change (2 ^ 1) with 2. destruct (lmul_pow l ltac:(lia)) as [E|[E|[E|[E|E]]]]; rewrite E; destruct_or! Hb; by subst b. }
  pose proof Hok as [Hd H2 H1]. pose proof (aligned_fits (l + 1) (rd_of insn) ltac:(lia) (conj Rd Hd)) as Hfit.
  destruct (vectorize_group (v_decoded m q) (if wide then WIDEN_VD_VS2 else WIDEN_VD) (wide_config signed wide) op
    (v_unmasked insn) (rd_of insn) (rs2_of insn) vs1 l sew (2 * b) (if wide then 2 * b else b) b (2 ^ (l + 1))
    (wide_sum insn sew signed wide (cpu m))) as (m' & r & k & E & -> & He & Hrest).
  - by apply decoded_ok.
  - by apply decoded_ready.
  - done.
  - rewrite vwadd_group by done. do 2 f_equal. lia.
  - destruct wide; cbn [widths]; lia.
  - lia.
  - destruct wide; lia.
  - lia.
  - pose proof (pow2_pos (l + 1)). lia.
  - assert (2 ^ (l + 1) <= 2 ^ 4) by (apply Z.pow_le_mono_r; lia).
    destruct_or! Hb; subst b; change (16 / (2 * 1)) with 8; change (16 / (2 * 2)) with 4; lia.
  - lia.
  - destruct wide; [apply aligned_readable; [lia|done..|lia]|]. destruct H2 as [H2 Ha].
    apply half_readable; [done|lia|apply aligned_fits; [lia|done]|done|lia].
  - destruct vs1 as [v|reg]; [done|]. destruct H1 as (H0 & H1 & Ha).
    apply half_readable; [done|lia|apply aligned_fits; [lia|done]|done|lia].
  - destruct Hm; [by left|right; lia].
  - intros e _ _. destruct (wide_config_fun signed wide sew (v_elem (vs2_w op) (cpu (v_decoded m q)) (rs2_of insn) e)
      (operand1 (v_decoded m q) op vs1 e) Hsew) as (op' & Eop' & _ & Ef).
    rewrite Eop in Eop'. injection Eop' as <-. rewrite Ef. unfold wide_sum. cbv zeta. do 3 f_equal.
    + rewrite W2. by apply v_elem_ext.
    + rewrite <- Ho. unfold operand1. rewrite W3. destruct vs1; [done|by apply v_elem_ext].
  - eexists. split; [exact E|]. split.
    + by exists q, r, k.
    + intros e Hin. rewrite <- W1, He by done. unfold v_result, v_sum. by rewrite (v_elem_ext _ (cpu m) (cpu (v_decoded m q))) by done.
    + intros o Hor Hout. rewrite Hrest; [done|done|]. replace (2 * b) with (2 * sew / 8) at 2; [done|].
      rewrite Es. replace (2 * (8 * b)) with (2 * b * 8) by lia. by apply Z.div_mul.
Qed.

Ltac funct6 :=
  change (0x30 + 1 + 4) with 0x35; change (0x30 + 1 + 0) with 0x31; change (0x30 + 0 + 4) with 0x34; change (0x30 + 0 + 0) with 0x30.

(** The widening additions [vwaddu], [vwadd], [vwaddu.w] and [vwadd.w], with a vector or
    a scalar operand: every element of the destination group, of twice the width,
    becomes the exact sum of the zero- or sign-extended sources modulo
    [2 ^ (2 * SEW)], for [SEW] 8 and 16 and every [LMUL] from 1 to 8, also when a
    source overlaps the top of the destination.  ([SEW] is 8 for [vwadd.w], whose host
    addition may overflow for 16.) *)
Lemma vwadd_correct insn (m : RISCVMachine D) l sew (signed wide : bool) :
  cpu_ok (cpu m) -> v_ready (cpu m) l sew -> sew = 8 \/ sew = 16 /\ signed && wide = false ->
  (insn >> 26) .& 0x3f = 0x30 + (if signed then 1 else 0) + (if wide then 4 else 0) ->
  (insn >> 12) .& 7 = 2 \/ (insn >> 12) .& 7 = 6 ->
  wide_ok insn l wide (if (insn >> 12) .& 7 =? 2 then inr (rs1_of insn) else inl 0) ->
  v_unmasked insn = true \/ rd_of insn <> 0 ->
  exists m', exec_v_arith insn m = (inr NextInsn, m') /\
    v_computed m m' (2 * sew) (rd_of insn) (2 ^ l * VLEN / sew)
      (v_sum insn (2 * sew) (cpu m) (wide_sum insn sew signed wide (cpu m))).
Proof.
  intros Hc Hr Hsew Hf6 Hf3 Hok Hm.
  pose proof (fun q vs1 Hok => vwadd_loop insn m q l sew signed wide vs1 Hc Hr Hsew Hok Hm) as Hloop.
  unfold exec_v_arith. unfold bind at 1, gets. rewrite (proj2 (Z.eqb_neq _ _) (ready_vs _ _ _ Hr)). rewrite (bind_inr _ _ _ _ _ (mods_decoded m)).
  cbv zeta. rewrite Hf6. fold (v_unmasked insn).
  destruct Hf3 as [E|E]; rewrite E in Hok |- *; cbn [Z.eqb Pos.eqb] in Hok |- *.
  - destruct (Hloop (stf_read_regs (cpu m)) (inr (rs1_of insn)) Hok) as (m' & El & Hm'); [intros e; unfold v_source; by rewrite E|].
    exists m'. split; [|done]. cbn [is_vv arg_vs1] in El. revert El.
    destruct signed, wide; funct6; cbn [Z.eqb Pos.eqb wide_config]; unfold bind; cbn [ret]; intros ->; done.
  - destruct (read_reg_decoded (rs1_of insn) m (stf_read_regs (cpu m))) as [q Eq].
    assert (wide_ok insn l wide (inl (aget 0 (reg (cpu m)) (rs1_of insn)))) as Hok' by (by destruct Hok).
    destruct (Hloop q _ Hok') as (m' & El & Hm'); [intros e; unfold v_source; by rewrite E|].
    exists m'. split; [|done]. cbn [is_vv arg_vs1] in El. revert El.
    destruct signed, wide; funct6; cbn [Z.eqb Pos.eqb wide_config]; unfold bind; rewrite Eq; intros ->; done.
Qed.
End Additions.

(** ** Concrete instructions *)

(** A hart with vectors enabled, [SEW] 16 and [LMUL] 2. *)
Definition vec_cpu : RISCVCPUState := reset_cpu <| vs := 1 |> <| vtype := 9 |>.

Lemma vec_cpu_ok : cpu_ok vec_cpu.
Proof.
  assert (cpu_ok reset_cpu) as H by (apply riscv_cpu_init_ok; vm_decide). unfold vec_cpu. revert H. generalize reset_cpu.
  intros s H. cpu_ok_split H; vm_decide.
Qed.

Lemma vec_cpu_ready : v_ready vec_cpu 1 16.
Proof. by split. Qed.

(** [vadd.vv v2, v4, v6]. *)
Lemma vadd_correct_witness :
  exists m', exec_v_arith (D := unit) 0x02430157 (demo_machine vec_cpu) = (inr NextInsn, m') /\
    v_computed (demo_machine vec_cpu) m' 16 2 16
      (v_sum 0x02430157 16 vec_cpu (fun e => v_elem 16 vec_cpu 4 e + v_source 0x02430157 16 vec_cpu e)).
Proof.
  apply (vadd_correct 0x02430157 (demo_machine vec_cpu) 1 16 vec_cpu_ok vec_cpu_ready); try reflexivity; left; reflexivity.
Defined.

(** [vwadd.vv v4, v8, v10]. *)
Lemma vwadd_correct_witness :
  exists m', exec_v_arith (D := unit) 0xc6852257 (demo_machine vec_cpu) = (inr NextInsn, m') /\
    v_computed (demo_machine vec_cpu) m' 32 4 16
      (v_sum 0xc6852257 32 vec_cpu (wide_sum 0xc6852257 16 true false vec_cpu)).
Proof.
  apply (vwadd_correct 0xc6852257 (demo_machine vec_cpu) 1 16 true false vec_cpu_ok vec_cpu_ready).
  - right. done.
  - reflexivity.
  - left. reflexivity.
  - split; [reflexivity|split; [reflexivity|right; vm_compute; done]|split; [vm_compute; done|split; [reflexivity|right; vm_compute; done]]].
  - left. reflexivity.
Defined.

(** For 32-bit elements [vwaddu] adds two [uint32_t] in 32 bits, and the carry is lost. *)
Lemma vwaddu_e32_drops_carry :
  exists op, vw_addu_config 32 = Some op /\ vd_w op = 64 /\ v_fun op (2 ^ 32 - 1) 1 = Some 0.
Proof. by eexists. Qed.
