(* ===== verification/Cosim.v ===== *)
(** * Co-simulation ([src/dromajo_cosim.cpp])

    The design under test (DUT) reports every instruction it commits and every trap it
    takes; the model executes the same instruction and compares.  [dromajo_cosim_step]
    iterates until an instruction commits: a trap ends an iteration without one.  The
    iterations are bounded by fuel, since a program that traps for ever never commits.
    Logging is left out; the GOLDMEM_INORDER build is off. *)

From S2P Require Import Prelude Iomem Cpu Pmp Csr Trap Machine Mmu Alu Insn Fp Vector Interp SafeInsn Safety Platform Devices Main.

(** The machine and the members of [common] that co-simulation uses; [pending_interrupt]
    is part of the machine. *)
Record cosim_state := mkCosim { cs_machine : machine; cs_maxinsns : Z; cs_pending_exception : Z }.

(** From the machine that [virt_machine_main] builds. *)
Definition dromajo_cosim_init (m : machine) (maxinsns : Z) : cosim_state :=
  mkCosim (m <| cosim := true |> <| pending_interrupt := -1 |>) maxinsns (-1).

Definition is_store_conditional (insn : Z) : bool :=
  let opcode := insn .& 0x7f in
  let funct3 := (insn >> 12) .& 7 in
  (opcode =? 0x2f) && (insn >> 27 =? 3) && ((funct3 =? 2) || (funct3 =? 3)).

Definition is_amo (insn : Z) : bool :=
  if negb (insn .& 0x7f =? 0x2f) then false
  else existsb (Z.eqb (insn >> 27)) [1; 2; 0; 4; 0xc; 0x8; 0x10; 0x14; 0x18; 0x1c].

(** [None]: the uninitialised [pa] of a failed translation, or a failed assertion. *)
Definition is_mmio_load (reg offset size : Z) (m : machine) : option (bool * machine) :=
  match riscv_get_reg_previous (cpu m) reg with
  | None => None
  | Some base =>
      match riscv_cpu_get_phys_addr m (u64 (base + offset)) ACCESS_READ with
      | (XOk pa, m) =>
          Some (riscv_cpu_pmp_access_ok (cpu m) pa size PMPCFG_R
                && match get_phys_mem_range (mem_map m) pa with None => true | Some _ => false end, m)
      | _ => None
      end
  end.

Definition set_reg (rn v : Z) (m : machine) : option machine :=
  match riscv_set_reg (cpu m) rn v with None => None | Some s => Some (m <| cpu := s |>) end.

(** The CSRs whose values are taken from the DUT. *)
Definition is_dut_csr (csrno : Z) : bool :=
  ((0xB00 <=? csrno) && (csrno <? 0xB20)) || ((0xC00 <=? csrno) && (csrno <? 0xC20))
  || ((csrno =? 0x344) || (csrno =? 0x144)).

(** The base register, the offset and the destination of a load that may be MMIO. *)
Definition mmio_operands (insn : Z) : option (Z * Z * Z) :=
  let opcode := insn .& 0x7f in
  let rd := (insn >> 7) .& 0x1f in
  let rdc := ((insn >> 2) .& 7) + 8 in
  if ((opcode =? 3) || is_amo insn) && nz rd then
    Some ((insn >> 15) .& 0x1f, (if opcode =? 3 then i32 insn >> 20 else 0), rd)
  else if (insn .& 0xE003 =? 0x6000) && nz rdc then
    Some (((insn >> 7) .& 7) + 8, get_field1 insn 10 3 5 .| get_field1 insn 5 6 7, rdc)
  else if (insn .& 0xE003 =? 0x4000) && nz rdc then
    Some (((insn >> 7) .& 7) + 8, get_field1 insn 10 3 5 .| get_field1 insn 6 2 2 .| get_field1 insn 5 6 6, rdc)
  else None.

(** Reads of such a CSR. *)
Definition csr_override (insn dut_wdata : Z) (m : machine) : option machine :=
  let rd := (insn >> 7) .& 0x1f in
  if (insn .& 0x7f =? 0x73) && nz rd && is_dut_csr (insn >> 20) then set_reg rd dut_wdata m else Some m.

Definition handle_dut_overrides (insn dut_wdata : Z) (m : machine) : option machine :=
  let size := (insn >> 12) .& 3 in
  match csr_override insn dut_wdata m with
  | None => None
  | Some m =>
      match mmio_operands insn with
      | None => Some m
      | Some (reg, offset, rd) =>
          match is_mmio_load reg offset size m with
          | None => None
          | Some (mmio, m) => if mmio : bool then set_reg rd dut_wdata m else Some m
          end
      end
  end.

(** [None]: the assertion that no interrupt is pending. *)
Definition dromajo_cosim_raise_trap (cause : Z) (st : cosim_state) : option cosim_state :=
  if cause <? 0 then
    if pending_interrupt (cs_machine st) =? -1
    then Some (mkCosim ((cs_machine st) <| pending_interrupt := cause .& 63 |>) (cs_maxinsns st) (cs_pending_exception st))
    else None
  else Some (mkCosim (cs_machine st) (cs_maxinsns st) (i32 cause)).

(** One call of [riscv_cpu_interp64(s, 1)]. *)
Definition interp_one (m : machine) : option (Z * machine) :=
  match riscv_cpu_interp64 1 m with
  | (inl _, _) => None
  | (inr n, m) => if aborted (devs m) then None else Some (n, m)
  end.

(** How the loop of [dromajo_cosim_step] ends: an instruction committed, with the
    registers it wrote, its address and its bits; the wrong cause; undefined
    behaviour; or the fuel ran out. *)
Inductive loop_end :=
| Committed (iregno fregno emu_pc emu_insn : Z) (m : machine) (pending_exception : Z)
| Wrong_cause (m : machine) (pending_exception : Z)
| Stuck
| Looping.

Record dut := mkDut { dut_pc : Z; dut_insn : Z; dut_wdata : Z }.

(** The bits of the instruction at [pc]; a failed read leaves the variable as it was. *)
Definition emu_fetch (insn : Z) (m : machine) : Z * machine :=
  let '(r, m) := riscv_read_insn (pc (cpu m)) m in
  let insn := match r with Some insn => insn | None => insn end in
  (if negb (insn .& 3 =? 3) then insn .& 0xFFFF else insn, m).

(** [riscv_cpu_set_mip(s, riscv_cpu_get_mip(s) | 1 << pending_interrupt)]; [None]: a shift
    by 32 or more. *)
Definition assert_interrupt (m : machine) : option machine :=
  if pending_interrupt m =? -1 then Some m
  else if 32 <=? pending_interrupt m then None
  else Some (m <| cpu ::= fun s =>
         riscv_cpu_set_mip (pending_interrupt m) (cosim m) s (riscv_cpu_get_mip s .| u32 (1 << pending_interrupt m)) |>).

(** The exception that races an interrupt: true if its cause is not the DUT's. *)
Definition race (pe : Z) (m : machine) : option (bool * machine) :=
  if negb (pending_interrupt m =? -1) && negb (pe =? -1) then
    match interp_one m with
    | None => None
    | Some (_, m) =>
        let cause := i32 (if priv (cpu m) =? PRV_S then scause (cpu m) else mcause (cpu m)) in
        Some (negb (pe =? cause), m)
    end
  else Some (false, m).

Fixpoint cosim_loop (fuel : nat) (d : dut) (insn pe : Z) (m : machine) : loop_end :=
  match fuel with
  | O => Looping
  | S fuel =>
      let emu_pc := pc (cpu m) in
      let '(insn, m) := emu_fetch insn m in
      if (emu_pc =? dut_pc d) && (insn =? dut_insn d) && is_store_conditional insn && nz (dut_wdata d) then
        let iregno := (insn >> 7) .& 0x1f in
        match (if 0 <? iregno then set_reg iregno (dut_wdata d) m else Some m) with
        | None => Stuck
        | Some m => Committed iregno (-1) emu_pc insn (m <| cpu ::= fun s => riscv_set_pc s (u64 (emu_pc + 4)) |>) pe
        end
      else
        match race pe m with
        | None => Stuck
        | Some (true, m) => Wrong_cause m pe
        | Some (false, m) =>
            match assert_interrupt m with
            | None => Stuck
            | Some m =>
                match interp_one m with
                | None => Stuck
                | Some (n, m) =>
                    if nz n then
                      Committed (most_recently_written_reg (cpu m)) (most_recently_written_fp_reg (cpu m)) emu_pc insn m pe
                    else cosim_loop fuel d insn (-1) (m <| pending_interrupt := -1 |>)
                end
            end
        end
  end.

Definition riscv_get_fpreg (s : RISCVCPUState) (rn : Z) : option Z :=
  if (0 <=? rn) && (rn <? 32) then Some (aget 0 (fp_reg s) rn) else None.

(** The value the instruction wrote, if it wrote one; [None] outside: a failed assertion. *)
Definition written (iregno fregno : Z) (s : RISCVCPUState) : option (option Z) :=
  if 0 <? iregno then match riscv_get_reg s iregno with Some v => Some (Some v) | None => None end
  else if 0 <=? fregno then match riscv_get_fpreg s fregno with Some v => Some (Some v) | None => None end
  else Some None.

(** The comparison. *)
Definition agree (d : dut) (emu_pc insn : Z) (w : option Z) : bool :=
  negb (negb (emu_pc =? dut_pc d) || (negb (insn =? dut_insn d) && (insn .& 3 =? 3))
        || match w with Some v => negb (v =? dut_wdata d) | None => false end).

(** After the loop. *)
Definition cosim_compare (d : dut) (check : bool) (iregno fregno emu_pc insn : Z) (m : machine) : option (Z * machine) :=
  match (if check then handle_dut_overrides insn (dut_wdata d) m else Some m) with
  | None => None
  | Some m =>
      match written iregno fregno (cpu m) with
      | None => None
      | Some w =>
          if negb check then Some (0, m)
          else
            let exit_code := if agree d emu_pc insn w then 0 else 0x1FFF in
            let m := m <| cpu ::= riscv_cpu_sync_regs |> in
            Some (exit_code, if exit_code =? 0 then m <| cpu ::= riscv_cpu_sync_regs |> else m)
      end
  end.

Inductive step_end := Returned (code : Z) (st : cosim_state) | Undefined_step | Never.

(** [junk] is what the uninitialised [emu_insn] holds. *)
Definition dromajo_cosim_step (fuel : nat) (junk : Z) (hart : nat) (d : dut) (check : bool) (st : cosim_state) : step_end :=
  if negb (hart <? ncpus (cs_machine st))%nat then Undefined_step (* assertion *)
  else if cs_maxinsns st =? 0 then Returned 1 st
  else
    let maxinsns := cs_maxinsns st - 1 in
    let m := focus (cs_machine st) hart in
    if terminate_simulation (cpu m) then Returned 1 (mkCosim m maxinsns (cs_pending_exception st))
    else
      match cosim_loop fuel d junk (cs_pending_exception st) m with
      | Looping => Never
      | Stuck => Undefined_step
      | Wrong_cause m pe => Returned 0x1FFF (mkCosim m maxinsns pe)
      | Committed iregno fregno emu_pc insn m pe =>
          match cosim_compare d check iregno fregno emu_pc insn m with
          | None => Undefined_step
          | Some (code, m) => Returned code (mkCosim m maxinsns pe)
          end
      end.

(** [None]: [abort]. *)
Definition dromajo_cosim_override_mem (dut_paddr dut_val size_log2 : Z) (m : machine) : option machine :=
  match get_phys_mem_range (mem_map m) dut_paddr with
  | None => Some m
  | Some (i, pr) =>
      if is_ram pr then
        let m := m <| mem_map ::= <[i := phys_mem_set_dirty_bit pr (u64 (dut_paddr - pr_addr pr))]> |> in
        if (0 <=? size_log2) && (size_log2 <=? 3) then Some (store_host m (host_ptr pr dut_paddr) size_log2 dut_val) else None
      else Some (device_write pr dut_paddr dut_val size_log2 m)
  end.

(** ** Harts stay well formed *)

Section Safe.
Context {G : Geometry}.

Lemma set_reg_hart rn v m m' : fits 64 v -> hart_ok m -> set_reg rn v m = Some m' -> hart_ok m'.
Proof.
  intros Hv H. unfold set_reg, riscv_set_reg. destruct (Z.ltb_spec 0 rn); [|done]. destruct (rn <? 32); [|done].
  cbn [andb]. intros [= <-]. apply (hart_upd _ (fun s => s <| reg ::= fun r => aset r rn v |>)); [|done]. intros s Hs.
  cpu_ok_split Hs; [by rewrite length_aset|by apply Forall_aset|by rewrite aget_aset_ne by lia].
Qed.

Lemma interp_one_hart m n m' : hart_ok m -> interp_one m = Some (n, m') -> hart_ok m'.
Proof.
  intros H. unfold interp_one. pose proof (interp_keeps_hart 1 m H) as H1.
  destruct (riscv_cpu_interp64 1 m) as [[e|k] m1]; [done|]. destruct (aborted _); [done|]. by intros [= _ <-].
Qed.

Lemma emu_fetch_hart insn m : hart_ok m -> hart_ok (emu_fetch insn m).2.
Proof.
  intros H. unfold emu_fetch. pose proof (read_insn_hart (pc (cpu m)) m (ok_pc _ (proj1 H)) H) as H1.
  by destruct (riscv_read_insn _ _).
Qed.

Lemma race_hart pe m b m' : hart_ok m -> race pe m = Some (b, m') -> hart_ok m'.
Proof.
  intros H. unfold race. destruct (_ && _); [|by intros [= _ <-]].
  destruct (interp_one m) as [[n m1]|] eqn:E; [|done]. intros [= _ <-]. by eapply interp_one_hart.
Qed.

Lemma assert_interrupt_hart m m' : hart_ok m -> assert_interrupt m = Some m' -> hart_ok m'.
Proof.
  intros H. unfold assert_interrupt. destruct (_ =? -1); [by intros [= <-]|]. destruct (_ <=? _); [done|].
  intros [= <-]. apply hart_upd; [|done]. intros s Hs. unfold riscv_cpu_set_mip, riscv_cpu_get_mip.
  assert (cpu_ok (s <| mip ::= fun v => v .| (mip s .| u32 (1 << pending_interrupt m)) |>)) as H1.
  { cpu_ok_split Hs. apply fits_lor; [lia|done|]. apply fits_lor; [lia|done|width]. }
  cbv zeta. destruct (_ && _); [|done]. revert H1. generalize (s <| mip ::= fun v => v .| (mip s .| u32 (1 << pending_interrupt m)) |>).
  intros s1 H1. cpu_ok_split H1.
Qed.

Lemma pending_hart v (m : machine) : hart_ok m -> hart_ok (m <| pending_interrupt := v |>).
Proof. by intros []. Qed.

Lemma set_pc_hart v (m : machine) : fits 64 v -> hart_ok m -> hart_ok (m <| cpu ::= fun s => riscv_set_pc s v |>).
Proof.
  intros Hv. apply hart_upd. intros s Hs. unfold riscv_set_pc, pc_align. cpu_ok_split Hs. width.
Qed.

(** A machine in which the loop ends is well formed. *)
Definition end_ok (e : loop_end) : Prop :=
  match e with Committed _ _ _ _ m _ | Wrong_cause m _ => hart_ok m | _ => True end.

Lemma cosim_loop_hart fuel d insn pe m : fits 64 (dut_wdata d) -> hart_ok m -> end_ok (cosim_loop fuel d insn pe m).
Proof.
  intros Hd. revert insn pe m. induction fuel as [|fuel IH]; intros insn pe m H; [done|]. cbn [cosim_loop].
  pose proof (emu_fetch_hart insn m H) as H1. destruct (emu_fetch insn m) as [insn' m1]. cbn [snd] in H1.
  destruct (_ && _).
  - destruct (0 <? _).
    + destruct (set_reg _ _ m1) as [m2|] eqn:E; [|done]. apply set_pc_hart; [width|]. by eapply set_reg_hart.
    + apply set_pc_hart; [width|done].
  - destruct (race pe m1) as [[[|] m2]|] eqn:E2; [by eapply race_hart| |done].
    apply race_hart in E2; [|done]. destruct (assert_interrupt m2) as [m3|] eqn:E3; [|done].
    apply assert_interrupt_hart in E3; [|done]. destruct (interp_one m3) as [[n m4]|] eqn:E4; [|done].
    apply interp_one_hart in E4; [|done]. destruct (nz n); [done|]. by apply IH, pending_hart.
Qed.

Lemma mmio_load_hart reg off size m b m' : hart_ok m -> is_mmio_load reg off size m = Some (b, m') -> hart_ok m'.
Proof.
  intros H. unfold is_mmio_load. destruct (riscv_get_reg_previous _ _) as [v|]; [|done].
  pose proof (proj1 (hart_idle_at m) H) as H1. apply (get_phys_addr_idle m (u64 (v + off)) ACCESS_READ), idle_at_hart in H1.
  destruct (riscv_cpu_get_phys_addr _ _ _) as [[pa| |] m1]; [|done..]. by intros [= _ <-].
Qed.

Lemma overrides_hart insn v m m' : fits 64 v -> hart_ok m -> handle_dut_overrides insn v m = Some m' -> hart_ok m'.
Proof.
  intros Hv H. unfold handle_dut_overrides. cbv zeta.
  destruct (csr_override insn v m) as [m1|] eqn:E1; [|done].
  assert (hart_ok m1) as H1 by (unfold csr_override in E1; destruct (_ && _); [by eapply set_reg_hart|by injection E1 as <-]).
  destruct (mmio_operands insn) as [[[reg off] rd]|]; [|by intros [= <-]].
  destruct (is_mmio_load _ _ _ m1) as [[b m2]|] eqn:E2; [|done]. apply mmio_load_hart in E2; [|done].
  destruct b; [by apply set_reg_hart|by intros [= <-]].
Qed.

Lemma compare_hart d check i f emu_pc insn m code m' :
  fits 64 (dut_wdata d) -> hart_ok m -> cosim_compare d check i f emu_pc insn m = Some (code, m') -> hart_ok m'.
Proof.
  intros Hv H. unfold cosim_compare. destruct (if check then _ else _) as [m1|] eqn:E1; [|done].
  assert (hart_ok m1) as H1 by (destruct check; [by eapply overrides_hart|by injection E1 as <-]).
  destruct (written _ _ _) as [w|]; [|done]. destruct (negb check); [by intros [= _ <-]|]. cbv zeta.
  assert (forall m : machine, hart_ok m -> hart_ok (m <| cpu ::= riscv_cpu_sync_regs |>)) as Hs.
  { intros m2. apply hart_upd. intros s Hs. unfold riscv_cpu_sync_regs. cpu_ok_split Hs. }
  intros [= _ <-]. destruct (_ =? 0); auto.
Qed.
End Safe.

(** A co-simulation step keeps every hart of the machine well formed, whatever the DUT
    reports and whichever way the step ends: the values it takes over from the DUT go to
    existing registers other than [x0]. *)
Lemma cosim_step_keeps_harts n fuel junk hart d check st code st' :
  all_harts_ok n (cs_machine st) -> fits 64 (dut_wdata d) ->
  dromajo_cosim_step fuel junk hart d check st = Returned code st' -> all_harts_ok n (cs_machine st').
Proof.
  intros H Hd. unfold dromajo_cosim_step. rewrite (all_harts_ncpus _ _ H).
  destruct (Nat.ltb_spec hart n) as [Hlt|]; [|done]. cbn [negb].
  destruct (_ =? 0); [by intros [= _ <-]|]. cbv zeta. pose proof (focus_hart n _ hart H Hlt) as Hf.
  destruct (terminate_simulation _); [intros [= _ <-]; by exists hart|].
  pose proof (cosim_loop_hart (G := mkGeometry n hart) fuel d junk (cs_pending_exception st) _ Hd Hf) as Hl.
  destruct (cosim_loop _ _ _ _ _) as [i f p insn m pe|m pe| |]; cbn [end_ok] in Hl; [|intros [= _ <-]; by exists hart|done..].
  destruct (cosim_compare _ _ _ _ _ _ _) as [[c m']|] eqn:E; [|done]. intros [= _ <-]. exists hart.
  by eapply (compare_hart (G := mkGeometry n hart)).
Qed.

(** ** What a step that succeeds shows *)

(** Iterations of the loop that end in a trap; [insn] is the content of [emu_insn], [pe]
    the pending exception. *)
Inductive trap_steps : Z -> Z -> machine -> Z -> Z -> machine -> Prop :=
| traps_none insn pe m : trap_steps insn pe m insn pe m
| traps_more insn pe m insn1 m1 m2 m3 m4 insn' pe' m' :
    emu_fetch insn m = (insn1, m1) -> race pe m1 = Some (false, m2) -> assert_interrupt m2 = Some m3 ->
    interp_one m3 = Some (0, m4) -> trap_steps insn1 (-1) (m4 <| pending_interrupt := -1 |>) insn' pe' m' ->
    trap_steps insn pe m insn' pe' m'.

(** The iteration that commits an instruction [insn]: it is executed, or it is a
    store-conditional that failed on the DUT.  [i] and [f] are the registers written. *)
Inductive commits (d : dut) (insn0 pe : Z) (m : machine) : Z -> Z -> Z -> machine -> Prop :=
| commit_insn insn m1 m2 m3 n m4 :
    emu_fetch insn0 m = (insn, m1) -> race pe m1 = Some (false, m2) -> assert_interrupt m2 = Some m3 ->
    interp_one m3 = Some (n, m4) -> n <> 0 ->
    commits d insn0 pe m (most_recently_written_reg (cpu m4)) (most_recently_written_fp_reg (cpu m4)) insn m4
| commit_failed_sc insn m1 m2 :
    emu_fetch insn0 m = (insn, m1) -> is_store_conditional insn = true -> dut_wdata d <> 0 ->
    (if 0 <? (insn >> 7) .& 0x1f then set_reg ((insn >> 7) .& 0x1f) (dut_wdata d) m1 else Some m1) = Some m2 ->
    commits d insn0 pe m ((insn >> 7) .& 0x1f) (-1) insn (m2 <| cpu ::= fun s => riscv_set_pc s (u64 (pc (cpu m) + 4)) |>).

Lemma loop_commits fuel d insn pe m i f p insn' m' pe' :
  cosim_loop fuel d insn pe m = Committed i f p insn' m' pe' ->
  exists insn0 m1, trap_steps insn pe m insn0 pe' m1 /\ p = pc (cpu m1) /\ commits d insn0 pe' m1 i f insn' m'.
Proof.
  revert insn pe m. induction fuel as [|fuel IH]; intros insn pe m; [done|]. cbn [cosim_loop].
  destruct (emu_fetch insn m) as [insn1 m1] eqn:E1.
  destruct (_ && _) eqn:Esc.
  - rewrite !andb_true_iff in Esc. destruct Esc as [[[_ _] Hsc] Hw]. unfold nz in Hw. apply negb_true_iff, Z.eqb_neq in Hw.
    destruct (if 0 <? (insn1 >> 7) .& 0x1f then _ else _) as [m2|] eqn:E2; [|done].
    intros [= <- <- <- <- <- <-]. exists insn, m. split; [constructor|]. split; [done|]. by econstructor.
  - destruct (race pe m1) as [[[|] m2]|] eqn:E2; [done| |done]. destruct (assert_interrupt m2) as [m3|] eqn:E3; [|done].
    destruct (interp_one m3) as [[n m4]|] eqn:E4; [|done]. unfold nz. destruct (Z.eqb_spec n 0) as [->|Hn]; cbn [negb].
    + intros E. apply IH in E as (insn0 & m5 & H1 & H2 & H3). exists insn0, m5. split; [by econstructor|done].
    + intros [= <- <- <- <- <- <-]. exists insn, m. split; [constructor|]. split; [done|]. by econstructor.
Qed.


(** ** Values taken from the DUT *)

(** What reading an instruction leaves alone. *)
Definition fetch_frame (m : machine) := (host m, mem_map m, (reg (cpu m), misa (cpu m))).

Lemma phys_read_frame n (m : machine) a : fetch_frame (riscv_phys_read n m a).2 = fetch_frame m.
Proof.
  unfold riscv_phys_read. destruct (get_phys_mem_range_pmp _ _ _ _) as [|[[]|]]; [done| |done].
  cbn [snd]. unfold track_dread. cbv zeta. destruct (_ && _); [|done]. by destruct (_ && _).
Qed.

Lemma walk_frame (m : machine) pr va access base j k : fetch_frame (walk m pr va access base j k).2 = fetch_frame m.
Proof.
  revert m base j. induction k as [|k IH]; intros m base j; [done|]. cbn [walk]. cbv zeta.
  pose proof (phys_read_frame 3 m (u64 (base + (((va >> (PG_SHIFT + 9 * j)) .& 511) << 3)))) as H1.
  destruct (riscv_phys_read _ _ _) as [[pte|] m']; [|done]. cbn [snd] in H1.
  destruct (negb _); [done|]. destruct (nz _); [by destruct (leaf_ok _ _ _ _ _)|by rewrite IH].
Qed.

Lemma get_phys_addr_frame (m : machine) va access : fetch_frame (riscv_cpu_get_phys_addr m va access).2 = fetch_frame m.
Proof.
  unfold riscv_cpu_get_phys_addr. cbv zeta. destruct (_ =? _); [done|].
  destruct (_ =? 0); [done|]. destruct (negb _); [done|]. apply walk_frame.
Qed.

Lemma fetch_ptr_frame a size tval (m : machine) : fetch_frame (fetch_ptr a size tval m).2 = fetch_frame m.
Proof.
  unfold fetch_ptr. pose proof (get_phys_addr_frame m a ACCESS_CODE) as H.
  destruct (riscv_cpu_get_phys_addr m a ACCESS_CODE) as [[paddr| |] m1]; [|done..].
  destruct (get_phys_mem_range_pmp _ _ _ _) as [[]|[[i pr]|]]; [done| |done]. by destruct (is_ram pr).
Qed.

Lemma read_insn_frame a (m : machine) : fetch_frame (riscv_read_insn a m).2 = fetch_frame m.
Proof.
  unfold riscv_read_insn, target_read_insn_slow, bind. pose proof (fetch_ptr_frame a (32 / 8) a m) as H1.
  destruct (fetch_ptr a (32 / 8) a m) as [[e|[paddr ptr]] m1]; [done|]. unfold getm.
  assert (forall b : bool, exists m2, (if b then mods (fill_tlb_code a paddr ptr) else ret (E := fault) tt) m1 = (inr tt, m2) /\
    fetch_frame m2 = fetch_frame m) as Hfill by (intros []; by eexists).
  destruct (Hfill (riscv_cpu_pmp_access_ok (cpu m1) (page_of paddr) (PG_MASK + 1) PMPCFG_X)) as (m2 & -> & H2).
  destruct (_ && _); [|done]. pose proof (fetch_ptr_frame (u64 (a + 2)) 2 a m2) as H3. unfold bind.
  destruct (fetch_ptr (u64 (a + 2)) 2 a m2) as [[e|[p q]] m3]; cbn [snd] in *; unfold getm, ret; change (fetch_frame m3 = fetch_frame m); congruence.
Qed.

Lemma emu_fetch_frame insn m : fetch_frame (emu_fetch insn m).2 = fetch_frame m.
Proof. unfold emu_fetch. pose proof (read_insn_frame (pc (cpu m)) m). by destruct (riscv_read_insn _ _). Qed.

Lemma set_reg_some rn v (m : machine) :
  0 < rn < 32 -> set_reg rn v m = Some (m <| cpu ::= fun s => s <| reg ::= fun r => aset r rn v |> |>).
Proof.
  intros H. unfold set_reg, riscv_set_reg. rewrite (proj2 (Z.ltb_lt 0 rn)), (proj2 (Z.ltb_lt rn 32)) by lia. done.
Qed.

Lemma rd_field insn : 0 <= (insn >> 7) .& 0x1f < 32.
Proof. change 0x1f with (Z.ones 5). rewrite Z.land_ones by lia. by apply Z.mod_pos_bound. Qed.

Lemma opcode_wide insn k : insn .& 0x7f = k -> insn .& 3 = k .& 3.
Proof. intros <-. by rewrite <- Z.land_assoc. Qed.

Lemma mmio_none insn : insn .& 3 = 3 -> (insn .& 0x7f =? 3) = false -> is_amo insn = false -> mmio_operands insn = None.
Proof.
  intros H3 Ho Ha. unfold mmio_operands. rewrite Ho, Ha. cbn [orb andb].
  assert (forall k, k .& 3 = 0 -> (insn .& 0xE003 =? k) = false) as Hk.
  { intros k Hk. apply Z.eqb_neq. intros E. apply (f_equal (fun x => x .& 3)) in E. rewrite <- Z.land_assoc in E.
    change (0xE003 .& 3) with 3 in E. congruence. }
  by rewrite !Hk.
Qed.

(** The comparison of an instruction that wrote the integer register [rd], which holds
    the DUT's value after the overrides. *)
Lemma compare_agrees d f rd insn m m1 :
  insn = dut_insn d -> 0 < rd < 32 -> handle_dut_overrides insn (dut_wdata d) m = Some m1 ->
  aget 0 (reg (cpu m1)) rd = dut_wdata d ->
  exists m', cosim_compare d true rd f (dut_pc d) insn m = Some (0, m') /\ fetch_frame m' = fetch_frame m1 /\ pc (cpu m') = pc (cpu m1).
Proof.
  intros -> Hrd Eo Hv. unfold cosim_compare. rewrite Eo. unfold written. rewrite (proj2 (Z.ltb_lt 0 rd)) by lia.
  unfold riscv_get_reg. rewrite (proj2 (Z.leb_le 0 rd)), (proj2 (Z.ltb_lt rd 32)) by lia. cbn [andb negb].
  unfold agree. rewrite Hv, !Z.eqb_refl. cbn [negb orb andb Z.eqb]. by eexists.
Qed.

(** A CSR read that the model cannot reproduce (cycle and instruction counters, [mip] and
    [sip]) never causes a mismatch: whatever value the DUT reports, the register takes
    it and the comparison succeeds, as far as pc and instruction agree. *)
Lemma counter_read_follows_dut d f (m : machine) :
  let insn := dut_insn d in
  let rd := (insn >> 7) .& 0x1f in
  insn .& 0x7f = 0x73 -> rd <> 0 -> is_dut_csr (insn >> 20) = true -> length (reg (cpu m)) = 32%nat ->
  exists m', cosim_compare d true rd f (dut_pc d) insn m = Some (0, m') /\
    aget 0 (reg (cpu m')) rd = dut_wdata d /\ host m' = host m.
Proof.
  intros insn rd Ho Hrd Hc Hl. pose proof (rd_field insn) as Hr. fold rd in Hr.
  assert (handle_dut_overrides insn (dut_wdata d) m
          = Some (m <| cpu ::= fun s => s <| reg ::= fun r => aset r rd (dut_wdata d) |> |>)) as Eo.
  { unfold handle_dut_overrides, csr_override. fold rd. rewrite Ho, Hc. unfold nz. rewrite (proj2 (Z.eqb_neq rd 0) Hrd). cbn [Z.eqb Pos.eqb negb andb].
    rewrite set_reg_some by lia. rewrite mmio_none; [done|by rewrite (opcode_wide _ _ Ho)|by rewrite Ho|].
    unfold is_amo. by rewrite Ho. }
  assert (aget 0 (aset (reg (cpu m)) rd (dut_wdata d)) rd = dut_wdata d) as Hg by (apply aget_aset_eq; rewrite Hl; lia).
  destruct (compare_agrees d f rd insn m _ eq_refl ltac:(lia) Eo Hg) as (m' & -> & E & _).
  exists m'. split; [done|]. unfold fetch_frame in E. mach_simpl. injection E as E1 E2 E3 E4. revert E3. mach_simpl. cpu_simpl. intros ->. done.
Qed.

(** C11 A store-conditional that failed on the DUT fails in the model: the step succeeds in
    its first iteration, the register gets the DUT's value, the pc moves on and memory
    is not written, whatever reservation the model holds. *)
Theorem failed_sc_follows_dut fuel junk hart d st :
  let m := focus (cs_machine st) hart in
  let rd := (dut_insn d >> 7) .& 0x1f in
  (hart < ncpus (cs_machine st))%nat -> cs_maxinsns st <> 0 -> terminate_simulation (cpu m) = false ->
  pc (cpu m) = dut_pc d -> (emu_fetch junk m).1 = dut_insn d -> is_store_conditional (dut_insn d) = true ->
  dut_wdata d <> 0 -> rd <> 0 -> length (reg (cpu m)) = 32%nat ->
  exists st', dromajo_cosim_step (S fuel) junk hart d true st = Returned 0 st' /\
    aget 0 (reg (cpu (cs_machine st'))) rd = dut_wdata d /\
    pc (cpu (cs_machine st')) = pc_align (cpu m) (u64 (dut_pc d + 4)) /\ host (cs_machine st') = host m.
Proof.
  intros m rd Hh Hmax Ht Hpc Hf Hsc Hw Hrd Hl. pose proof (rd_field (dut_insn d)) as Hr. fold rd in Hr.
  unfold dromajo_cosim_step. rewrite (proj2 (Nat.ltb_lt _ _) Hh), (proj2 (Z.eqb_neq _ _) Hmax). cbn [negb]. fold m. rewrite Ht.
  cbn [cosim_loop]. pose proof (emu_fetch_frame junk m) as Ef. destruct (emu_fetch junk m) as [insn m1]. cbn [fst snd] in *. subst insn.
  rewrite Hpc, !Z.eqb_refl, Hsc. unfold nz. rewrite (proj2 (Z.eqb_neq _ _) Hw). cbn [negb andb]. fold rd.
  rewrite (proj2 (Z.ltb_lt 0 rd)), set_reg_some by lia.
  assert (dut_insn d .& 0x7f = 0x2f /\ is_amo (dut_insn d) = false) as [Ho Ha].
  { unfold is_store_conditional in Hsc. rewrite !andb_true_iff, !Z.eqb_eq in Hsc. destruct Hsc as [[H1 H2] _].
    split; [done|]. unfold is_amo. rewrite H1, H2. done. }
  unfold fetch_frame in Ef. injection Ef as F1 F2 F3 F4.
  assert (length (reg (cpu m1)) = 32%nat) as Hl1 by (rewrite F3; exact Hl).
  set (m2 := (m1 <| cpu ::= _ |>) <| cpu ::= _ |>).
  assert (handle_dut_overrides (dut_insn d) (dut_wdata d) m2 = Some m2) as Eo.
  { unfold handle_dut_overrides, csr_override. rewrite Ho. cbn [Z.eqb Pos.eqb andb].
    rewrite mmio_none; [done|by rewrite (opcode_wide _ _ Ho)|by rewrite Ho|done]. }
  destruct (compare_agrees d (-1) rd (dut_insn d) m2 m2 eq_refl ltac:(lia) Eo) as (m' & -> & E & Ep).
  { unfold m2. mach_simpl. unfold riscv_set_pc. cpu_simpl. apply aget_aset_eq. lia. }
  eexists. split; [done|]. cbn [cs_machine]. unfold fetch_frame in E. injection E as E1 E2 E3 E4. rewrite E1, E3, Ep. split_and!.
  - unfold m2. mach_simpl. unfold riscv_set_pc. cpu_simpl. apply aget_aset_eq. lia.
  - unfold m2. mach_simpl. unfold riscv_set_pc, pc_align. cpu_simpl. by rewrite F4.
  - exact F1.
Qed.

(** *** Witnesses *)

(** A hart that [virt_machine_init] has given its physical address width. *)
Definition cosim_cpu : RISCVCPUState := reset_cpu <| physical_addr_len := 40 |>.

(** One instruction at the reset vector. *)
Definition cosim_demo (insn : Z) : cosim_state :=
  dromajo_cosim_init (store_host (demo_platform <| cpu := cosim_cpu |>) 0x1000000 2 insn) 10.

Lemma cosim_demo_ok insn : all_harts_ok 1 (cs_machine (cosim_demo insn)).
Proof.
  assert (cpu_ok cosim_cpu) as H.
  { assert (cpu_ok reset_cpu) as H by (apply riscv_cpu_init_ok; vm_decide). unfold cosim_cpu. revert H. generalize reset_cpu.
    intros s H. cpu_ok_split H. lia. }
  destruct reset_hart_ok as [H' _]. exists 0%nat. split; [exact H|]. split; [apply no_hooks_ok|]. split; [by constructor|done].
Qed.

Definition after (e : step_end) : cosim_state := match e with Returned _ st => st | _ => cosim_demo 0 end.

(** [addi x1, x0, 5], which the DUT reports to write 5. *)
Definition demo_dut : dut := mkDut 0x80000000 0x00500093 5.
Definition demo_step : step_end := dromajo_cosim_step 1 0 0 demo_dut true (cosim_demo 0x00500093).

Lemma cosim_step_keeps_harts_witness : demo_step = Returned 0 (after demo_step) /\ all_harts_ok 1 (cs_machine (after demo_step)).
Proof.
  split; [vm_compute; reflexivity|].
  apply (cosim_step_keeps_harts 1 1 0 0 demo_dut true (cosim_demo 0x00500093) 0 (after demo_step) (cosim_demo_ok _)).
  - vm_decide.
  - vm_compute. reflexivity.
Defined.


(** [csrrs x1, mcycle, x0]. *)
Lemma counter_read_follows_dut_witness :
  exists m', cosim_compare (mkDut 0x80000000 0xb00020f3 77) true 1 (-1) 0x80000000 0xb00020f3 demo_platform = Some (0, m') /\
    aget 0 (reg (cpu m')) 1 = 77 /\ host m' = host demo_platform.
Proof.
  apply (counter_read_follows_dut (mkDut 0x80000000 0xb00020f3 77) (-1) demo_platform); reflexivity || (vm_compute; congruence).
Defined.

(** [sc.w x3, x2, (x1)]. *)
Lemma failed_sc_follows_dut_witness :
  exists st', dromajo_cosim_step 1 0 0 (mkDut 0x80000000 0x1820a1af 1) true (cosim_demo 0x1820a1af) = Returned 0 st' /\
    aget 0 (reg (cpu (cs_machine st'))) 3 = 1 /\
    pc (cpu (cs_machine st')) = pc_align cosim_cpu (u64 (0x80000000 + 4)) /\
    host (cs_machine st') = host (focus (cs_machine (cosim_demo 0x1820a1af)) 0).
Proof.
  apply (failed_sc_follows_dut 0 0 0 (mkDut 0x80000000 0x1820a1af 1) (cosim_demo 0x1820a1af));
    first [vm_compute; reflexivity|vm_compute; congruence|vm_compute; lia].
Defined.
