(* ===== verification/Virtio.v ===== *)
(** * Virtio transport ([src/virtio.cpp], [include/virtio.h])

    The register file of a virtio device behind its two bus interfaces, the
    walks over descriptor chains, the used ring and the notification loop; and
    the memory interface they need, the class [Bus].

    [vstate] is a [VIRTIODevice] with the bus it is connected to and the state
    [vx] of the device model that embeds it.  The callbacks [device_recv] and
    [config_write] of a device model are a record of operations, [Handlers].

    The guest controls descriptor chains: a chain that is a cycle is walked for
    ever.  Walks take fuel; [Timeout] means that it did not suffice, [Crash] that
    the program aborts or uses memory out of bounds.  [stack_desc] is what an
    uninitialised [VIRTIODesc] holds when its first [get_desc] fails. *)

From S2P Require Import Prelude Iomem Cpu.

Definition VIRTIO_MMIO_MAGIC_VALUE : Z := 0x000.
Definition VIRTIO_MMIO_VERSION : Z := 0x004.
Definition VIRTIO_MMIO_DEVICE_ID : Z := 0x008.
Definition VIRTIO_MMIO_VENDOR_ID : Z := 0x00c.
Definition VIRTIO_MMIO_DEVICE_FEATURES : Z := 0x010.
Definition VIRTIO_MMIO_DEVICE_FEATURES_SEL : Z := 0x014.
Definition VIRTIO_MMIO_QUEUE_SEL : Z := 0x030.
Definition VIRTIO_MMIO_QUEUE_NUM_MAX : Z := 0x034.
Definition VIRTIO_MMIO_QUEUE_NUM : Z := 0x038.
Definition VIRTIO_MMIO_QUEUE_READY : Z := 0x044.
Definition VIRTIO_MMIO_QUEUE_NOTIFY : Z := 0x050.
Definition VIRTIO_MMIO_INTERRUPT_STATUS : Z := 0x060.
Definition VIRTIO_MMIO_INTERRUPT_ACK : Z := 0x064.
Definition VIRTIO_MMIO_STATUS : Z := 0x070.
Definition VIRTIO_MMIO_QUEUE_DESC_LOW : Z := 0x080.
Definition VIRTIO_MMIO_QUEUE_DESC_HIGH : Z := 0x084.
Definition VIRTIO_MMIO_QUEUE_AVAIL_LOW : Z := 0x090.
Definition VIRTIO_MMIO_QUEUE_AVAIL_HIGH : Z := 0x094.
Definition VIRTIO_MMIO_QUEUE_USED_LOW : Z := 0x0a0.
Definition VIRTIO_MMIO_QUEUE_USED_HIGH : Z := 0x0a4.
Definition VIRTIO_MMIO_CONFIG : Z := 0x100.

Definition VIRTIO_PCI_DEVICE_FEATURE_SEL : Z := 0x000.
Definition VIRTIO_PCI_DEVICE_FEATURE : Z := 0x004.
Definition VIRTIO_PCI_NUM_QUEUES : Z := 0x012.
Definition VIRTIO_PCI_DEVICE_STATUS : Z := 0x014.
Definition VIRTIO_PCI_QUEUE_SEL : Z := 0x016.
Definition VIRTIO_PCI_QUEUE_SIZE : Z := 0x018.
Definition VIRTIO_PCI_QUEUE_ENABLE : Z := 0x01c.
Definition VIRTIO_PCI_QUEUE_DESC_LOW : Z := 0x020.
Definition VIRTIO_PCI_QUEUE_DESC_HIGH : Z := 0x024.
Definition VIRTIO_PCI_QUEUE_AVAIL_LOW : Z := 0x028.
Definition VIRTIO_PCI_QUEUE_AVAIL_HIGH : Z := 0x02c.
Definition VIRTIO_PCI_QUEUE_USED_LOW : Z := 0x030.
Definition VIRTIO_PCI_QUEUE_USED_HIGH : Z := 0x034.

Definition VIRTIO_PCI_CFG_OFFSET : Z := 0x0000.
Definition VIRTIO_PCI_ISR_OFFSET : Z := 0x1000.
Definition VIRTIO_PCI_CONFIG_OFFSET : Z := 0x2000.
Definition VIRTIO_PCI_NOTIFY_OFFSET : Z := 0x3000.

Definition MAX_QUEUE : Z := 8.
Definition MAX_CONFIG_SPACE_SIZE : Z := 256.
Definition MAX_QUEUE_NUM : Z := 16.
Definition VIRTIO_PAGE_SIZE : Z := 4096.

Definition VRING_DESC_F_NEXT : Z := 1.
Definition VRING_DESC_F_WRITE : Z := 2.

(** ** State *)

Record QueueState := mkQueue {
  ready : Z;
  num : Z;
  last_avail_idx : Z;
  desc_addr : Z;
  avail_addr : Z;
  used_addr : Z;
  manual_recv : bool
}.

(** The bus fields are in [bus], the callbacks in [Handlers]; [debug] only
    selects messages. *)
Record VIRTIODevice := mkVirtio {
  int_status : Z;
  vstatus : Z;
  device_features_sel : Z;
  queue_sel : Z;
  queue : list QueueState;
  device_id : Z;
  vendor_id : Z;
  device_features : Z;
  config_space_size : Z;
  config_space : list Z
}.

Record vstate {B X : Type} := mkV { bus : B; vdev : VIRTIODevice; vx : X }.
Arguments vstate : clear implicits.
Arguments mkV {B X}.

Definition queue_eta (q : QueueState) :=
  mkQueue (ready q) (num q) (last_avail_idx q) (desc_addr q) (avail_addr q) (used_addr q)
    (manual_recv q).
Definition virtio_eta (d : VIRTIODevice) :=
  mkVirtio (int_status d) (vstatus d) (device_features_sel d) (queue_sel d) (queue d)
    (device_id d) (vendor_id d) (device_features d) (config_space_size d) (config_space d).

#[export] Instance upd_ready : Setter ready := ltac:(setter_of queue_eta).
#[export] Instance upd_num : Setter num := ltac:(setter_of queue_eta).
#[export] Instance upd_last_avail_idx : Setter last_avail_idx := ltac:(setter_of queue_eta).
#[export] Instance upd_desc_addr : Setter desc_addr := ltac:(setter_of queue_eta).
#[export] Instance upd_avail_addr : Setter avail_addr := ltac:(setter_of queue_eta).
#[export] Instance upd_used_addr : Setter used_addr := ltac:(setter_of queue_eta).
#[export] Instance upd_manual_recv : Setter manual_recv := ltac:(setter_of queue_eta).
#[export] Instance upd_int_status : Setter int_status := ltac:(setter_of virtio_eta).
#[export] Instance upd_vstatus : Setter vstatus := ltac:(setter_of virtio_eta).
#[export] Instance upd_device_features_sel : Setter device_features_sel :=
  ltac:(setter_of virtio_eta).
#[export] Instance upd_queue_sel : Setter queue_sel := ltac:(setter_of virtio_eta).
#[export] Instance upd_queue : Setter queue := ltac:(setter_of virtio_eta).
#[export] Instance upd_device_features : Setter device_features := ltac:(setter_of virtio_eta).
#[export] Instance upd_config_space : Setter config_space := ltac:(setter_of virtio_eta).
#[export] Instance upd_bus {B X} : Setter (@bus B X) := fun f s => mkV (f (bus s)) (vdev s) (vx s).
#[export] Instance upd_vdev {B X} : Setter (@vdev B X) := fun f s => mkV (bus s) (f (vdev s)) (vx s).
#[export] Instance upd_vx {B X} : Setter (@vx B X) := fun f s => mkV (bus s) (vdev s) (f (vx s)).

(** Computes projections of updated virtio states. *)
Ltac vsimpl :=
  cbn [upd upd_ready upd_num upd_last_avail_idx upd_desc_addr upd_avail_addr upd_used_addr
       upd_manual_recv upd_int_status upd_vstatus upd_device_features_sel upd_queue_sel upd_queue
       upd_device_features upd_config_space upd_bus upd_vdev upd_vx ready num last_avail_idx
       desc_addr avail_addr used_addr manual_recv int_status vstatus device_features_sel queue_sel
       queue device_id vendor_id device_features config_space_size config_space bus vdev vx].

Definition zero_queue : QueueState := mkQueue 0 0 0 0 0 0 false.

(** ** Outcomes *)

Inductive res (A : Type) := Done (a : A) | Crash | Timeout.
Arguments Done {A} a.
Arguments Crash {A}.
Arguments Timeout {A}.

Definition rbind {A B} (x : res A) (f : A -> res B) : res B :=
  match x with Done a => f a | Crash => Crash | Timeout => Timeout end.

Declare Scope virtio_scope.
Delimit Scope virtio_scope with virtio.
Notation "'let*' p := x 'in' k" := (rbind x (fun p => k))
  (at level 10, x at level 100, p pattern, k at level 200) : virtio_scope.
Open Scope virtio_scope.

(** ** The bus

    What the transport needs of the machine: the host address of guest RAM
    ([get_ram_ptr], [None] for [NULL]), host memory, and the interrupt line. *)
Class Bus (B : Type) := {
  get_ram_ptr : B -> Z -> option Z;
  ram : B -> hostmem;
  set_ram : B -> hostmem -> B;
  set_irq : B -> Z -> B
}.

Class BusLaws (B : Type) `{Bus B} := {
  ram_set_ram b h : ram (set_ram b h) = h;
  ptr_set_ram b h a : get_ram_ptr (set_ram b h) a = get_ram_ptr b a;
  ram_set_irq b l : ram (set_irq b l) = ram b;
  ptr_set_irq b l a : get_ram_ptr (set_irq b l) a = get_ram_ptr b a
}.

(** [virtio_mmio_get_ram_ptr], on a memory map. *)
Definition virtio_mmio_get_ram_ptr (m : PhysMemoryMap) (paddr : Z) : option Z :=
  match get_phys_mem_range m paddr with
  | Some (_, pr) => if is_ram pr then Some (phys_mem pr + (paddr - pr_addr pr)) else None
  | None => None
  end.

(** Bytes at a pointer. *)
Definition read_bytes (h : hostmem) (p n : Z) : list Z := (fun i => byte_at h (p + i)) <$> seqZ 0 n.

Fixpoint write_bytes (h : hostmem) (p : Z) (bs : list Z) : hostmem :=
  match bs with
  | [] => h
  | x :: bs => write_bytes (<[p := u8 x]> h) (p + 1) bs
  end.

(** [memcpy(buf + pos, bs, length bs)] into a buffer. *)
Definition poke (buf : list Z) (pos : Z) (bs : list Z) : list Z := list_inserts (Z.to_nat pos) bs buf.

(** The [n] bytes at [buf + pos]. *)
Definition peek (buf : list Z) (pos n : Z) : list Z := take (Z.to_nat n) (drop (Z.to_nat pos) buf).

Definition in_buf (buf : list Z) (pos n : Z) : bool :=
  (0 <=? pos) && (pos + n <=? Z.of_nat (length buf)).

Fixpoint le_list (n : nat) (v : Z) : list Z :=
  match n with O => [] | S n' => u8 v :: le_list n' (v >> 8) end.

Fixpoint le_value (l : list Z) : Z :=
  match l with [] => 0 | x :: l => x .| (le_value l << 8) end.

(** [get_le16], [get_le32] and [put_le16], [put_le32] at [buf + pos]. *)
Definition get_le (buf : list Z) (pos n : Z) : Z := le_value (peek buf pos n).
Definition put_le16 (buf : list Z) (pos v : Z) : list Z := poke buf pos (le_list 2 v).
Definition put_le32 (buf : list Z) (pos v : Z) : list Z := poke buf pos (le_list 4 v).

(** [VIRTIODesc]: its 16 bytes, with the fields at their offsets. *)
Abbreviation VIRTIODesc := (list Z).
Definition d_addr (d : VIRTIODesc) : Z := get_le d 0 8.
Definition d_len (d : VIRTIODesc) : Z := get_le d 8 4.
Definition d_flags (d : VIRTIODesc) : Z := get_le d 12 2.
Definition d_next (d : VIRTIODesc) : Z := get_le d 14 2.

Definition d_is_write (d : VIRTIODesc) : bool := has (d_flags d) VRING_DESC_F_WRITE.
Definition d_has_next (d : VIRTIODesc) : bool := has (d_flags d) VRING_DESC_F_NEXT.

(** ** Reset *)

(** The fields [virtio_reset] leaves: [manual_recv]. *)
Definition reset_queue (q : QueueState) : QueueState :=
  q <| ready := 0 |> <| num := MAX_QUEUE_NUM |> <| desc_addr := 0 |> <| avail_addr := 0 |>
    <| used_addr := 0 |> <| last_avail_idx := 0 |>.

Definition virtio_reset (d : VIRTIODevice) : VIRTIODevice :=
  d <| vstatus := 0 |> <| queue_sel := 0 |> <| device_features_sel := 0 |> <| int_status := 0 |>
    <| queue ::= fmap reset_queue |>.

(** [virtio_init], the part that does not depend on the bus. *)
Definition virtio_init (device_id config_space_size : Z) : VIRTIODevice :=
  virtio_reset
    (mkVirtio 0 0 0 0 (replicate (Z.to_nat MAX_QUEUE) zero_queue) device_id 0xffff 0
       config_space_size (replicate (Z.to_nat MAX_CONFIG_SPACE_SIZE) 0)).

Section Transport.
Context {B X : Type} `{Bus B}.
Implicit Types s : vstate B X.

Definition queue_at s (i : Z) : QueueState := nth (Z.to_nat i) (queue (vdev s)) zero_queue.

Definition set_queue s (i : Z) (f : QueueState -> QueueState) : vstate B X :=
  s <| vdev ::= fun d => d <| queue ::= alter f (Z.to_nat i) |> |>.

(** ** Guest memory *)

Definition virtio_read16 s (addr : Z) : Z :=
  if has addr 1 then 0
  else
    match get_ram_ptr (bus s) addr with
    | None => 0
    | Some p => load_le (ram (bus s)) p 2
    end.

Definition virtio_write16 s (addr val : Z) : vstate B X :=
  if has addr 1 then s
  else
    match get_ram_ptr (bus s) addr with
    | None => s
    | Some p => s <| bus ::= fun b => set_ram b (store_le (ram b) p 2 val) |>
    end.

Definition virtio_write32 s (addr val : Z) : vstate B X :=
  if has addr 3 then s
  else
    match get_ram_ptr (bus s) addr with
    | None => s
    | Some p => s <| bus ::= fun b => set_ram b (store_le (ram b) p 4 val) |>
    end.

(** [l] of one turn of the copy loops: what is left of the page. *)
Definition page_step (addr count : Z) : Z :=
  Z.min count (VIRTIO_PAGE_SIZE - (addr .& (VIRTIO_PAGE_SIZE - 1))).

(** [buf + pos] is the buffer pointer; a turn copies at least one byte, so that
    [count] turns are enough. *)
Fixpoint from_ram_loop (n : nat) (b : B) (buf : list Z) (pos addr count : Z) : Z * list Z :=
  match n with
  | O => (0, buf)
  | S n' =>
      if 0 <? count then
        let l := page_step addr count in
        match get_ram_ptr b addr with
        | None => (-1, buf)
        | Some p => from_ram_loop n' b (poke buf pos (read_bytes (ram b) p l)) (pos + l)
                      (u64 (addr + l)) (count - l)
        end
      else (0, buf)
  end.

Definition virtio_memcpy_from_ram s (buf : list Z) (pos addr count : Z) : Z * list Z :=
  from_ram_loop (Z.to_nat count) (bus s) buf pos addr count.

Fixpoint to_ram_loop (n : nat) (b : B) (addr : Z) (buf : list Z) (pos count : Z) : Z * B :=
  match n with
  | O => (0, b)
  | S n' =>
      if 0 <? count then
        let l := page_step addr count in
        match get_ram_ptr b addr with
        | None => (-1, b)
        | Some p => to_ram_loop n' (set_ram b (write_bytes (ram b) p (peek buf pos l)))
                      (u64 (addr + l)) buf (pos + l) (count - l)
        end
      else (0, b)
  end.

Definition virtio_memcpy_to_ram s (addr : Z) (buf : list Z) (pos count : Z) : Z * vstate B X :=
  let '(r, b) := to_ram_loop (Z.to_nat count) (bus s) addr buf pos count in
  (r, s <| bus := b |>).

(** ** Descriptor chains *)

(** The new contents of [desc]; every caller ignores the result code. *)
Definition get_desc s (desc : VIRTIODesc) (queue_idx desc_idx : Z) : VIRTIODesc :=
  (virtio_memcpy_from_ram s desc 0 (u64 (desc_addr (queue_at s queue_idx) + desc_idx * 16)) 16).2.

Context (stack_desc : VIRTIODesc).

(** The first loop of [memcpy_to_from_queue]; [None] is [return -1]. *)
Fixpoint find_write (fuel : nat) s (queue_idx : Z) (desc : VIRTIODesc) : res (option VIRTIODesc) :=
  match fuel with
  | O => Timeout
  | S fuel =>
      if d_is_write desc then Done (Some desc)
      else if negb (d_has_next desc) then Done None
      else find_write fuel s queue_idx (get_desc s desc queue_idx (d_next desc))
  end.

(** The second loop: the descriptor at [offset]. *)
Fixpoint find_offset (fuel : nat) s (queue_idx : Z) (to_queue : bool) (desc : VIRTIODesc)
    (offset : Z) : res (option (VIRTIODesc * Z)) :=
  match fuel with
  | O => Timeout
  | S fuel =>
      if negb (eqb (d_is_write desc) to_queue) then Done None
      else if offset <? i32 (d_len desc) then Done (Some (desc, offset))
      else if negb (d_has_next desc) then Done None
      else find_offset fuel s queue_idx to_queue (get_desc s desc queue_idx (d_next desc))
             (i32 (offset - d_len desc))
  end.

(** The third loop: the copy.  Returns the code, the buffer and the state. *)
Fixpoint copy_loop (fuel : nat) s (queue_idx : Z) (to_queue : bool) (desc : VIRTIODesc)
    (offset : Z) (buf : list Z) (pos count : Z) : res (Z * list Z * vstate B X) :=
  match fuel with
  | O => Timeout
  | S fuel =>
      let l := Z.min count (i32 (d_len desc - offset)) in
      let addr := u64 (d_addr desc + offset) in
      if (0 <? l) && negb (in_buf buf pos l) then Crash
      else
        let '(buf, s) :=
          if to_queue then (buf, (virtio_memcpy_to_ram s addr buf pos l).2)
          else ((virtio_memcpy_from_ram s buf pos addr l).2, s) in
        let count := i32 (count - l) in
        if count =? 0 then Done (0, buf, s)
        else
          let offset := i32 (offset + l) in
          let pos := pos + l in
          if offset =? i32 (d_len desc) then
            if negb (d_has_next desc) then Done (-1, buf, s)
            else
              let desc := get_desc s desc queue_idx (d_next desc) in
              if negb (eqb (d_is_write desc) to_queue) then Done (-1, buf, s)
              else copy_loop fuel s queue_idx to_queue desc 0 buf pos count
          else copy_loop fuel s queue_idx to_queue desc offset buf pos count
  end.

Definition memcpy_to_from_queue (fuel : nat) s (buf : list Z) (queue_idx desc_idx offset count : Z)
    (to_queue : bool) : res (Z * list Z * vstate B X) :=
  if count =? 0 then Done (0, buf, s)
  else
    let desc := get_desc s stack_desc queue_idx desc_idx in
    let* found := if to_queue then find_write fuel s queue_idx desc else Done (Some desc) in
    match found with
    | None => Done (-1, buf, s)
    | Some desc =>
        let* at_offset := find_offset fuel s queue_idx to_queue desc offset in
        match at_offset with
        | None => Done (-1, buf, s)
        | Some (desc, offset) => copy_loop fuel s queue_idx to_queue desc offset buf 0 count
        end
    end.

(** The device is not changed: only the buffer is returned. *)
Definition memcpy_from_queue (fuel : nat) s (buf : list Z) (queue_idx desc_idx offset count : Z)
  : res (Z * list Z) :=
  let* (r, buf, _) := memcpy_to_from_queue fuel s buf queue_idx desc_idx offset count false in
  Done (r, buf).

Definition memcpy_to_queue (fuel : nat) s (queue_idx desc_idx offset : Z) (buf : list Z) (count : Z)
  : res (Z * vstate B X) :=
  let* (r, _, s) := memcpy_to_from_queue fuel s buf queue_idx desc_idx offset count true in
  Done (r, s).

(** Signals that a descriptor has been consumed. *)
Definition virtio_consume_desc s (queue_idx desc_idx desc_len : Z) : vstate B X :=
  let qs := queue_at s queue_idx in
  let addr := u64 (used_addr qs + 2) in
  let index := virtio_read16 s addr in
  let s := virtio_write16 s addr (index + 1) in
  let addr := u64 (used_addr qs + 4 + (index .& u32 (num qs - 1)) * 8) in
  let s := virtio_write32 s addr (u32 desc_idx) in
  let s := virtio_write32 s (u64 (addr + 4)) (u32 desc_len) in
  s <| vdev ::= fun d => d <| int_status ::= fun v => v .| 1 |> |> <| bus ::= fun b => set_irq b 1 |>.

(** The two loops of [get_desc_rw_size]: the sizes so far and the descriptor at
    which the readable part ends, if another follows. *)
Fixpoint read_size_loop (fuel : nat) s (queue_idx : Z) (desc : VIRTIODesc) (read_size : Z)
  : res (Z * option VIRTIODesc) :=
  match fuel with
  | O => Timeout
  | S fuel =>
      if d_is_write desc then Done (read_size, Some desc)
      else
        let read_size := i32 (read_size + d_len desc) in
        if negb (d_has_next desc) then Done (read_size, None)
        else read_size_loop fuel s queue_idx (get_desc s desc queue_idx (d_next desc)) read_size
  end.

Fixpoint write_size_loop (fuel : nat) s (queue_idx : Z) (desc : VIRTIODesc) (write_size : Z)
  : res (option Z) :=
  match fuel with
  | O => Timeout
  | S fuel =>
      if negb (d_is_write desc) then Done None
      else
        let write_size := i32 (write_size + d_len desc) in
        if negb (d_has_next desc) then Done (Some write_size)
        else write_size_loop fuel s queue_idx (get_desc s desc queue_idx (d_next desc)) write_size
  end.

(** [None] is [return -1]. *)
Definition get_desc_rw_size (fuel : nat) s (queue_idx desc_idx : Z) : res (option (Z * Z)) :=
  let* (read_size, rest) :=
    read_size_loop fuel s queue_idx (get_desc s stack_desc queue_idx desc_idx) 0 in
  match rest with
  | None => Done (Some (read_size, 0))
  | Some desc =>
      let* w := write_size_loop fuel s queue_idx desc 0 in
      Done ((fun write_size => (read_size, write_size)) <$> w)
  end.

(** ** Notification *)

(** The callbacks of a device model.  [config_write] is [None] where the pointer
    is [NULL]; [device_recv s queue_idx desc_idx read_size write_size]. *)
Record Handlers := mkHandlers {
  device_recv : nat -> vstate B X -> Z -> Z -> Z -> Z -> res (Z * vstate B X);
  config_write : option (vstate B X -> vstate B X)
}.

Context (hs : Handlers).

(** [virtio_read16(s, qs->avail_addr + 4 + (qs->last_avail_idx & (qs->num - 1)) * 2)]. *)
Definition avail_ring s (queue_idx : Z) : Z :=
  let qs := queue_at s queue_idx in
  virtio_read16 s (u64 (avail_addr qs + 4 + (last_avail_idx qs .& u32 (num qs - 1)) * 2)).

Definition avail_index s (queue_idx : Z) : Z :=
  virtio_read16 s (u64 (avail_addr (queue_at s queue_idx) + 2)).

Definition next_avail s (queue_idx : Z) : vstate B X :=
  set_queue s queue_idx (fun q => q <| last_avail_idx ::= fun i => u16 (i + 1) |>).

Fixpoint notify_loop (n fuel : nat) s (queue_idx avail_idx : Z) : res (vstate B X) :=
  match n with
  | O => Timeout
  | S n' =>
      if last_avail_idx (queue_at s queue_idx) =? avail_idx then Done s
      else
        let desc_idx := avail_ring s queue_idx in
        let* sizes := get_desc_rw_size fuel s queue_idx desc_idx in
        match sizes with
        | None => notify_loop n' fuel (next_avail s queue_idx) queue_idx avail_idx
        | Some (read_size, write_size) =>
            let* (r, s) := device_recv hs fuel s queue_idx desc_idx read_size write_size in
            if r <? 0 then Done s
            else notify_loop n' fuel (next_avail s queue_idx) queue_idx avail_idx
        end
  end.

(** The 16-bit index reaches [avail_idx] in less than 65536 turns. *)
Definition queue_notify (fuel : nat) s (queue_idx : Z) : res (vstate B X) :=
  if manual_recv (queue_at s queue_idx) then Done s
  else notify_loop (Z.to_nat 65536) fuel s queue_idx (avail_index s queue_idx).

(** ** Configuration space *)

Definition virtio_config_read s (offset size_log2 : Z) : res Z :=
  let sz := config_space_size (vdev s) in
  let c := config_space (vdev s) in
  if size_log2 =? 0 then Done (if offset <? sz then get_le c offset 1 else 0)
  else if size_log2 =? 1 then Done (if offset <? u32 (sz - 1) then get_le c offset 2 else 0)
  else if size_log2 =? 2 then Done (if offset <? u32 (sz - 3) then get_le c offset 4 else 0)
  else Crash.

Definition put_config s (c : list Z) : vstate B X :=
  let s := s <| vdev ::= fun d => d <| config_space := c |> |> in
  match config_write hs with Some f => f s | None => s end.

Definition virtio_config_write s (offset val size_log2 : Z) : vstate B X :=
  let sz := config_space_size (vdev s) in
  let c := config_space (vdev s) in
  if size_log2 =? 0 then
    if offset <? sz then put_config s (poke c offset [u8 val]) else s
  else if size_log2 =? 1 then
    if offset <? u32 (sz - 1) then put_config s (put_le16 c offset val) else s
  else if size_log2 =? 2 then
    if offset <? u32 (sz - 3) then put_config s (put_le32 c offset val) else s
  else s.

(** ** Registers *)

Definition set_low32 (paddr val : Z) : Z := (paddr .&~ 0xffffffff) .| val.
Definition set_high32 (paddr val : Z) : Z := (paddr .& 0xffffffff) .| (val << 32).

Definition sel s : QueueState := queue_at s (queue_sel (vdev s)).
Definition set_sel s (f : QueueState -> QueueState) : vstate B X :=
  set_queue s (queue_sel (vdev s)) f.

(** The [switch] on [device_features_sel]. *)
Definition features_word s : Z :=
  let d := vdev s in
  if device_features_sel d =? 0 then device_features d
  else if device_features_sel d =? 1 then 1 else 0.

Definition virtio_mmio_read s (offset size_log2 : Z) : res Z :=
  let d := vdev s in
  if VIRTIO_MMIO_CONFIG <=? offset then virtio_config_read s (offset - VIRTIO_MMIO_CONFIG) size_log2
  else if size_log2 =? 2 then Done (
    if offset =? VIRTIO_MMIO_MAGIC_VALUE then 0x74726976
    else if offset =? VIRTIO_MMIO_VERSION then 2
    else if offset =? VIRTIO_MMIO_DEVICE_ID then device_id d
    else if offset =? VIRTIO_MMIO_VENDOR_ID then vendor_id d
    else if offset =? VIRTIO_MMIO_DEVICE_FEATURES then features_word s
    else if offset =? VIRTIO_MMIO_DEVICE_FEATURES_SEL then device_features_sel d
    else if offset =? VIRTIO_MMIO_QUEUE_SEL then queue_sel d
    else if offset =? VIRTIO_MMIO_QUEUE_NUM_MAX then MAX_QUEUE_NUM
    else if offset =? VIRTIO_MMIO_QUEUE_NUM then num (sel s)
    else if offset =? VIRTIO_MMIO_QUEUE_DESC_LOW then u32 (desc_addr (sel s))
    else if offset =? VIRTIO_MMIO_QUEUE_AVAIL_LOW then u32 (avail_addr (sel s))
    else if offset =? VIRTIO_MMIO_QUEUE_USED_LOW then u32 (used_addr (sel s))
    else if offset =? VIRTIO_MMIO_QUEUE_DESC_HIGH then u32 (desc_addr (sel s) >> 32)
    else if offset =? VIRTIO_MMIO_QUEUE_AVAIL_HIGH then u32 (avail_addr (sel s) >> 32)
    else if offset =? VIRTIO_MMIO_QUEUE_USED_HIGH then u32 (used_addr (sel s) >> 32)
    else if offset =? VIRTIO_MMIO_QUEUE_READY then ready (sel s)
    else if offset =? VIRTIO_MMIO_INTERRUPT_STATUS then int_status d
    else if offset =? VIRTIO_MMIO_STATUS then vstatus d
    else 0)
  else Done 0.

(** [VIRTIO_MMIO_STATUS] and [VIRTIO_PCI_DEVICE_STATUS]. *)
Definition write_status s (val : Z) : vstate B X :=
  let s := s <| vdev ::= fun d => d <| vstatus := val |> |> in
  if val =? 0 then s <| bus ::= fun b => set_irq b 0 |> <| vdev ::= virtio_reset |> else s.

(** [val & (val - 1)) == 0 && val > 0]. *)
Definition write_num s (val : Z) : vstate B X :=
  if ((val .& u32 (val - 1)) =? 0) && (0 <? val)
  then set_sel s (fun q => q <| num := val |>) else s.

Definition write_queue_sel s (val : Z) : vstate B X :=
  if val <? MAX_QUEUE then s <| vdev ::= fun d => d <| queue_sel := val |> |> else s.

Definition virtio_mmio_write (fuel : nat) s (offset val size_log2 : Z) : res (vstate B X) :=
  if VIRTIO_MMIO_CONFIG <=? offset then
    Done (virtio_config_write s (offset - VIRTIO_MMIO_CONFIG) val size_log2)
  else if size_log2 =? 2 then
    if offset =? VIRTIO_MMIO_DEVICE_FEATURES_SEL then
      Done (s <| vdev ::= fun d => d <| device_features_sel := val |> |>)
    else if offset =? VIRTIO_MMIO_QUEUE_SEL then Done (write_queue_sel s val)
    else if offset =? VIRTIO_MMIO_QUEUE_NUM then Done (write_num s val)
    else if offset =? VIRTIO_MMIO_QUEUE_DESC_LOW then
      Done (set_sel s (fun q => q <| desc_addr ::= fun a => set_low32 a val |>))
    else if offset =? VIRTIO_MMIO_QUEUE_AVAIL_LOW then
      Done (set_sel s (fun q => q <| avail_addr ::= fun a => set_low32 a val |>))
    else if offset =? VIRTIO_MMIO_QUEUE_USED_LOW then
      Done (set_sel s (fun q => q <| used_addr ::= fun a => set_low32 a val |>))
    else if offset =? VIRTIO_MMIO_QUEUE_DESC_HIGH then
      Done (set_sel s (fun q => q <| desc_addr ::= fun a => set_high32 a val |>))
    else if offset =? VIRTIO_MMIO_QUEUE_AVAIL_HIGH then
      Done (set_sel s (fun q => q <| avail_addr ::= fun a => set_high32 a val |>))
    else if offset =? VIRTIO_MMIO_QUEUE_USED_HIGH then
      Done (set_sel s (fun q => q <| used_addr ::= fun a => set_high32 a val |>))
    else if offset =? VIRTIO_MMIO_STATUS then Done (write_status s val)
    else if offset =? VIRTIO_MMIO_QUEUE_READY then
      Done (set_sel s (fun q => q <| ready := val .& 1 |>))
    else if offset =? VIRTIO_MMIO_QUEUE_NOTIFY then
      if val <? MAX_QUEUE then queue_notify fuel s val else Done s
    else if offset =? VIRTIO_MMIO_INTERRUPT_ACK then
      let s := s <| vdev ::= fun d => d <| int_status ::= fun v => v .&~ val |> |> in
      Done (if int_status (vdev s) =? 0 then s <| bus ::= fun b => set_irq b 0 |> else s)
    else Done s
  else Done s.

Definition virtio_pci_read s (offset1 size_log2 : Z) : res (Z * vstate B X) :=
  let d := vdev s in
  let offset := offset1 .& 0xfff in
  let page := offset1 >> 12 in
  if page =? VIRTIO_PCI_CFG_OFFSET >> 12 then
    Done (
      if size_log2 =? 2 then
        if offset =? VIRTIO_PCI_DEVICE_FEATURE then features_word s
        else if offset =? VIRTIO_PCI_DEVICE_FEATURE_SEL then device_features_sel d
        else if offset =? VIRTIO_PCI_QUEUE_DESC_LOW then u32 (desc_addr (sel s))
        else if offset =? VIRTIO_PCI_QUEUE_AVAIL_LOW then u32 (avail_addr (sel s))
        else if offset =? VIRTIO_PCI_QUEUE_USED_LOW then u32 (used_addr (sel s))
        else if offset =? VIRTIO_PCI_QUEUE_DESC_HIGH then u32 (desc_addr (sel s) >> 32)
        else if offset =? VIRTIO_PCI_QUEUE_AVAIL_HIGH then u32 (avail_addr (sel s) >> 32)
        else if offset =? VIRTIO_PCI_QUEUE_USED_HIGH then u32 (used_addr (sel s) >> 32)
        else 0
      else if size_log2 =? 1 then
        if offset =? VIRTIO_PCI_NUM_QUEUES then MAX_QUEUE_NUM
        else if offset =? VIRTIO_PCI_QUEUE_SEL then queue_sel d
        else if offset =? VIRTIO_PCI_QUEUE_SIZE then num (sel s)
        else if offset =? VIRTIO_PCI_QUEUE_ENABLE then ready (sel s)
        else 0
      else if size_log2 =? 0 then
        if offset =? VIRTIO_PCI_DEVICE_STATUS then vstatus d else 0
      else 0, s)
  else if page =? VIRTIO_PCI_ISR_OFFSET >> 12 then
    Done (if (offset =? 0) && (size_log2 =? 0)
          then (int_status d, s <| vdev ::= fun d => d <| int_status := 0 |> |>
                                <| bus ::= fun b => set_irq b 0 |>)
          else (0, s))
  else if page =? VIRTIO_PCI_CONFIG_OFFSET >> 12 then
    let* v := virtio_config_read s offset size_log2 in Done (v, s)
  else Done (0, s).

Definition virtio_pci_write (fuel : nat) s (offset1 val size_log2 : Z) : res (vstate B X) :=
  let offset := offset1 .& 0xfff in
  let page := offset1 >> 12 in
  if page =? VIRTIO_PCI_CFG_OFFSET >> 12 then
    Done (
      if size_log2 =? 2 then
        if offset =? VIRTIO_PCI_DEVICE_FEATURE_SEL then
          s <| vdev ::= fun d => d <| device_features_sel := val |> |>
        else if offset =? VIRTIO_PCI_QUEUE_DESC_LOW then
          set_sel s (fun q => q <| desc_addr ::= fun a => set_low32 a val |>)
        else if offset =? VIRTIO_PCI_QUEUE_AVAIL_LOW then
          set_sel s (fun q => q <| avail_addr ::= fun a => set_low32 a val |>)
        else if offset =? VIRTIO_PCI_QUEUE_USED_LOW then
          set_sel s (fun q => q <| used_addr ::= fun a => set_low32 a val |>)
        else if offset =? VIRTIO_PCI_QUEUE_DESC_HIGH then
          set_sel s (fun q => q <| desc_addr ::= fun a => set_high32 a val |>)
        else if offset =? VIRTIO_PCI_QUEUE_AVAIL_HIGH then
          set_sel s (fun q => q <| avail_addr ::= fun a => set_high32 a val |>)
        else if offset =? VIRTIO_PCI_QUEUE_USED_HIGH then
          set_sel s (fun q => q <| used_addr ::= fun a => set_high32 a val |>)
        else s
      else if size_log2 =? 1 then
        if offset =? VIRTIO_PCI_QUEUE_SEL then write_queue_sel s val
        else if offset =? VIRTIO_PCI_QUEUE_SIZE then write_num s val
        else if offset =? VIRTIO_PCI_QUEUE_ENABLE then
          set_sel s (fun q => q <| ready := val .& 1 |>)
        else s
      else if size_log2 =? 0 then
        if offset =? VIRTIO_PCI_DEVICE_STATUS then write_status s val else s
      else s)
  else if page =? VIRTIO_PCI_CONFIG_OFFSET >> 12 then Done (virtio_config_write s offset val size_log2)
  else if page =? VIRTIO_PCI_NOTIFY_OFFSET >> 12 then
    if val <? MAX_QUEUE then queue_notify fuel s val else Done s
  else Done s.

Definition virtio_config_change_notify s : vstate B X :=
  s <| vdev ::= fun d => d <| int_status ::= fun v => v .| 2 |> |> <| bus ::= fun b => set_irq b 1 |>.
End Transport.

Arguments Handlers : clear implicits.
