(* ===== verification/VirtioDev.v ===== *)
(** * Virtio device models ([src/virtio.cpp], [src/dromajo_main.cpp])

    The block, network, console and input devices behind the transport of
    [Virtio], and the disk image the block device works on ([bf_read_async],
    [bf_write_async]).  The host side of a device is its [vx]: the disk, the
    packets handed to the network, the bytes written to the console.

    [malloc n] is the contents of a fresh buffer of [n] bytes, or of an
    uninitialised local of that size. *)

From S2P Require Import Prelude Iomem Cpu Virtio.

(** ** Disk images *)

Inductive BlockDeviceModeEnum := BF_MODE_RO | BF_MODE_RW | BF_MODE_SNAPSHOT.

#[export] Instance mode_eq_dec : EqDecision BlockDeviceModeEnum.
Proof. solve_decision. Defined.

Definition SECTOR_SIZE : Z := 512.

(** [bf_f] is the contents of the file and [bf_pos] its position indicator. *)
Record BlockDeviceFile := mkBf {
  bf_f : list Z;
  bf_pos : Z;
  nb_sectors : Z;
  mode : BlockDeviceModeEnum;
  sector_table : list (option (list Z))
}.

Definition bf_eta (bf : BlockDeviceFile) :=
  mkBf (bf_f bf) (bf_pos bf) (nb_sectors bf) (mode bf) (sector_table bf).
#[export] Instance upd_bf_f : Setter bf_f := ltac:(setter_of bf_eta).
#[export] Instance upd_bf_pos : Setter bf_pos := ltac:(setter_of bf_eta).
#[export] Instance upd_sector_table : Setter sector_table := ltac:(setter_of bf_eta).

Definition bf_get_sector_count (bf : BlockDeviceFile) : Z := nb_sectors bf.

(** [fseek(f, off, SEEK_SET)]: an offset that is negative as a [long] is refused. *)
Definition bf_seek (bf : BlockDeviceFile) (off : Z) : BlockDeviceFile :=
  if off <? 2 ^ 63 then bf <| bf_pos := off |> else bf.

(** [fread]: what the file has from the position on, up to [n] bytes. *)
Definition bf_fread (bf : BlockDeviceFile) (n : Z) : list Z * BlockDeviceFile :=
  let got := peek (bf_f bf) (bf_pos bf) n in
  (got, bf <| bf_pos ::= fun p => p + Z.of_nat (length got) |>).

(** [fwrite]: a gap after the end of the file reads as zeros. *)
Definition bf_fwrite (bf : BlockDeviceFile) (bs : list Z) : BlockDeviceFile :=
  let p := Z.to_nat (bf_pos bf) in
  let f := bf_f bf ++ replicate (p + length bs - length (bf_f bf)) 0 in
  bf <| bf_f := list_inserts p bs f |> <| bf_pos ::= fun p => p + Z.of_nat (length bs) |>.

(** The sector loop of the snapshot mode.  [sector_table[sector_num]] out of the
    table is an access out of bounds, a short [fread] a failed [assert]. *)
Fixpoint bf_read_loop (n : nat) (bf : BlockDeviceFile) (sector_num : Z) (buf : list Z) (pos : Z)
  : res (list Z * BlockDeviceFile) :=
  match n with
  | O => Done (buf, bf)
  | S n' =>
      match sector_table bf !! Z.to_nat sector_num with
      | None => Crash
      | Some None =>
          let '(got, bf) := bf_fread (bf_seek bf (u64 (sector_num * SECTOR_SIZE))) SECTOR_SIZE in
          if Z.of_nat (length got) =? SECTOR_SIZE
          then bf_read_loop n' bf (u64 (sector_num + 1)) (poke buf pos got) (pos + SECTOR_SIZE)
          else Crash
      | Some (Some data) =>
          bf_read_loop n' bf (u64 (sector_num + 1)) (poke buf pos data) (pos + SECTOR_SIZE)
      end
  end.

(** Returns the code, the filled buffer and the device. *)
Definition bf_read_async (bf : BlockDeviceFile) (sector_num : Z) (buf : list Z) (n : Z)
  : res (Z * list Z * BlockDeviceFile) :=
  match mode bf with
  | BF_MODE_SNAPSHOT =>
      let* (buf, bf) := bf_read_loop (Z.to_nat n) bf sector_num buf 0 in Done (0, buf, bf)
  | _ =>
      let '(got, bf) := bf_fread (bf_seek bf (u64 (sector_num * SECTOR_SIZE))) (u64 (n * SECTOR_SIZE)) in
      if Z.of_nat (length got) =? u64 (n * SECTOR_SIZE) then Done (0, poke buf 0 got, bf) else Crash
  end.

Fixpoint bf_write_loop (n : nat) (bf : BlockDeviceFile) (sector_num : Z) (buf : list Z) (pos : Z)
  : res BlockDeviceFile :=
  match n with
  | O => Done bf
  | S n' =>
      match sector_table bf !! Z.to_nat sector_num with
      | None => Crash
      | Some _ =>
          bf_write_loop n'
            (bf <| sector_table ::= <[Z.to_nat sector_num := Some (peek buf pos SECTOR_SIZE)]> |>)
            (u64 (sector_num + 1)) buf (pos + SECTOR_SIZE)
      end
  end.

(** [(unsigned int)(sector_num + n) > bf->nb_sectors]: the sum is cut to 32 bits. *)
Definition bf_write_async (bf : BlockDeviceFile) (sector_num : Z) (buf : list Z) (n : Z)
  : res (Z * BlockDeviceFile) :=
  match mode bf with
  | BF_MODE_RO => Done (-1, bf)
  | BF_MODE_RW =>
      if in_buf buf 0 (u64 (n * SECTOR_SIZE))
      then Done (0, bf_fwrite (bf_seek bf (u64 (sector_num * SECTOR_SIZE))) (peek buf 0 (n * SECTOR_SIZE)))
      else Crash
  | BF_MODE_SNAPSHOT =>
      if nb_sectors bf <? u32 (sector_num + n) then Done (-1, bf)
      else let* bf := bf_write_loop (Z.to_nat n) bf sector_num buf 0 in Done (0, bf)
  end.

(** [block_device_init] on a file it can open: [fseek(f, 0, SEEK_END)] leaves the
    position at the end. *)
Definition block_device_init (file : list Z) (m : BlockDeviceModeEnum) : BlockDeviceFile :=
  let nb := Z.of_nat (length file) / 512 in
  mkBf file (Z.of_nat (length file)) nb m
    (if bool_decide (m = BF_MODE_SNAPSHOT) then replicate (Z.to_nat nb) None else []).

(** ** Block device *)

(** [BlockDevice], the operations of a disk: [ret > 0] announces a later call of
    [virtio_block_req_cb]. *)
Record BlockDevice (BS : Type) := mkBlockDevice {
  get_sector_count : BS -> Z;
  read_async : BS -> Z -> list Z -> Z -> res (Z * list Z * BS);
  write_async : BS -> Z -> list Z -> Z -> res (Z * BS)
}.
Arguments get_sector_count {BS}.
Arguments read_async {BS}.
Arguments write_async {BS}.

Definition bf_device : BlockDevice BlockDeviceFile :=
  mkBlockDevice _ bf_get_sector_count bf_read_async bf_write_async.

Record BlockRequest := mkReq {
  req_type : Z;
  req_buf : list Z;
  req_write_size : Z;
  req_queue_idx : Z;
  req_desc_idx : Z
}.

Record VIRTIOBlockDevice (BS : Type) := mkBlock {
  bs : BS;
  req_in_progress : bool;
  req : BlockRequest
}.
Arguments mkBlock {BS}.
Arguments bs {BS}.
Arguments req_in_progress {BS}.
Arguments req {BS}.

Definition VIRTIO_BLK_T_IN : Z := 0.
Definition VIRTIO_BLK_T_OUT : Z := 1.
Definition VIRTIO_BLK_S_OK : Z := 0.
Definition VIRTIO_BLK_S_IOERR : Z := 1.

(** [sizeof(BlockRequestHeader)], and its fields. *)
Definition sizeof_BlockRequestHeader : Z := 16.
Definition h_type (h : list Z) : Z := get_le h 0 4.
Definition h_sector_num (h : list Z) : Z := get_le h 8 8.

Section Devices.
Context {B : Type} `{Bus B} (stack_desc : VIRTIODesc) (malloc : Z -> list Z).

Section Block.
Context {BS : Type} (ops : BlockDevice BS).
Implicit Types s : vstate B (VIRTIOBlockDevice BS).

Definition blk_status (ret : Z) : Z := if ret <? 0 then VIRTIO_BLK_S_IOERR else VIRTIO_BLK_S_OK.

(** [buf[write_size - 1]] is out of bounds for a request without a writable
    byte. *)
Definition virtio_block_req_end (fuel : nat) s (ret : Z) : res (vstate B (VIRTIOBlockDevice BS)) :=
  let r := req (vx s) in
  let queue_idx := req_queue_idx r in
  let desc_idx := req_desc_idx r in
  if req_type r =? VIRTIO_BLK_T_IN then
    let write_size := req_write_size r in
    if in_buf (req_buf r) (write_size - 1) 1 then
      let buf := poke (req_buf r) (write_size - 1) [blk_status ret] in
      let* (_, s) := memcpy_to_queue stack_desc fuel s queue_idx desc_idx 0 buf write_size in
      Done (virtio_consume_desc s queue_idx desc_idx write_size)
    else Crash
  else if req_type r =? VIRTIO_BLK_T_OUT then
    let* (_, s) := memcpy_to_queue stack_desc fuel s queue_idx desc_idx 0 [blk_status ret] 1 in
    Done (virtio_consume_desc s queue_idx desc_idx 1)
  else Crash.

(** After [read_async] or [write_async]. *)
Definition block_finish (fuel : nat) s (ret : Z) : res (Z * vstate B (VIRTIOBlockDevice BS)) :=
  if 0 <? ret
  then Done (0, s <| vx ::= fun x => mkBlock (bs x) true (req x) |>)
  else let* s := virtio_block_req_end fuel s ret in Done (0, s).

Definition virtio_block_recv_request (fuel : nat) s (queue_idx desc_idx read_size write_size : Z)
  : res (Z * vstate B (VIRTIOBlockDevice BS)) :=
  let x := vx s in
  if req_in_progress x then Done (-1, s)
  else
    let* (r, h) := memcpy_from_queue stack_desc fuel s (malloc sizeof_BlockRequestHeader) queue_idx desc_idx 0
                     sizeof_BlockRequestHeader in
    if r <? 0 then Done (0, s)
    else if h_type h =? VIRTIO_BLK_T_IN then
      let* (ret, buf, bs') :=
        read_async ops (bs x) (h_sector_num h) (malloc write_size)
          (Z.quot (write_size - 1) SECTOR_SIZE) in
      block_finish fuel
        (s <| vx := mkBlock bs' false (mkReq (h_type h) buf write_size queue_idx desc_idx) |>) ret
    else
      let req' := mkReq (h_type h) (req_buf (req x)) (req_write_size (req x)) queue_idx desc_idx in
      if h_type h =? VIRTIO_BLK_T_OUT then
        if 1 <=? write_size then
          let len := i32 (read_size - sizeof_BlockRequestHeader) in
          let* (_, buf) := memcpy_from_queue stack_desc fuel s (malloc len) queue_idx desc_idx
                             sizeof_BlockRequestHeader len in
          let* (ret, bs') := write_async ops (bs x) (h_sector_num h) buf (Z.quot len SECTOR_SIZE) in
          block_finish fuel (s <| vx := mkBlock bs' false req' |>) ret
        else Crash
      else Done (0, s <| vx := mkBlock (bs x) false req' |>).

Definition block_handlers : Handlers B (VIRTIOBlockDevice BS) :=
  mkHandlers virtio_block_recv_request None.

(** The completion of an asynchronous request. *)
Definition virtio_block_req_cb (fuel : nat) s (ret : Z) : res (vstate B (VIRTIOBlockDevice BS)) :=
  let* s := virtio_block_req_end fuel s ret in
  let s := s <| vx ::= fun x => mkBlock (bs x) false (req x) |> in
  queue_notify stack_desc block_handlers fuel s (req_queue_idx (req (vx s))).

Definition virtio_block_init (b : B) (x : BS) : vstate B (VIRTIOBlockDevice BS) :=
  let nb := u64 (get_sector_count ops x) in
  mkV b ((virtio_init 2 8) <| config_space ::= fun c => put_le32 (put_le32 c 0 nb) 4 (nb >> 32) |>)
    (mkBlock x false (mkReq 0 [] 0 0 0)).
End Block.

(** ** The receive side of a queue

    The test that the network, console and input devices share: [None] when no
    buffer is available. *)
Section Receive.
Context {X : Type}.
Implicit Types s : vstate B X.

Definition can_write s (queue_idx : Z) : bool :=
  nz (ready (queue_at s queue_idx)) &&
  negb (last_avail_idx (queue_at s queue_idx) =? avail_index s queue_idx).
End Receive.

(** ** Network device *)

(** The packets given to [es->write_packet]. *)
Record VIRTIONetDevice := mkNet { net_out : list (list Z); header_size : Z }.

Definition virtio_net_recv_request (fuel : nat) (s : vstate B VIRTIONetDevice)
    (queue_idx desc_idx read_size write_size : Z) : res (Z * vstate B VIRTIONetDevice) :=
  if queue_idx =? 1 then
    let hsz := header_size (vx s) in
    let* (r, _) := memcpy_from_queue stack_desc fuel s (malloc 12) queue_idx desc_idx 0 hsz in
    if r <? 0 then Done (0, s)
    else
      let len := i32 (read_size - hsz) in
      let* (_, buf) := memcpy_from_queue stack_desc fuel s (malloc len) queue_idx desc_idx hsz len in
      let s := s <| vx ::= fun x => mkNet (net_out x ++ [buf]) (header_size x) |> in
      Done (0, virtio_consume_desc s queue_idx desc_idx 0)
  else Done (0, s).

Definition net_handlers : Handlers B VIRTIONetDevice := mkHandlers virtio_net_recv_request None.

Definition virtio_net_can_write_packet (s : vstate B VIRTIONetDevice) : bool := can_write s 0.

Definition virtio_net_write_packet (fuel : nat) (s : vstate B VIRTIONetDevice) (buf : list Z)
  : res (vstate B VIRTIONetDevice) :=
  if can_write s 0 then
    let desc_idx := avail_ring s 0 in
    let* sizes := get_desc_rw_size stack_desc fuel s 0 desc_idx in
    match sizes with
    | None => Done s
    | Some (_, write_size) =>
        let hsz := header_size (vx s) in
        let buf_len := Z.of_nat (length buf) in
        let len := i32 (hsz + buf_len) in
        if write_size <? len then Done s
        else
          let* (_, s) := memcpy_to_queue stack_desc fuel s 0 desc_idx 0 (replicate 12 0) hsz in
          let* (_, s) := memcpy_to_queue stack_desc fuel s 0 desc_idx hsz buf buf_len in
          Done (next_avail (virtio_consume_desc s 0 desc_idx len) 0)
    end
  else Done s.

(** [queue[0].manual_recv = TRUE]. *)
Definition manual0 (d : VIRTIODevice) : VIRTIODevice :=
  d <| queue ::= alter (fun q => q <| manual_recv := true |>) 0%nat |>.

Definition virtio_net_init (b : B) (mac_addr : list Z) : vstate B VIRTIONetDevice :=
  mkV b (manual0 ((virtio_init 1 8) <| device_features := 1 << 5 |>
                    <| config_space ::= fun c => poke (poke c 0 (take 6 mac_addr)) 6 [0; 0] |>))
    (mkNet [] 12).

(** ** Console *)

(** The bytes given to [cs->write_data].  A negative size asks [malloc] for more
    than there is, and [fwrite] is given the [NULL] it returns. *)
Definition virtio_console_recv_request (fuel : nat) (s : vstate B (list Z))
    (queue_idx desc_idx read_size write_size : Z) : res (Z * vstate B (list Z)) :=
  if queue_idx =? 1 then
    if read_size <? 0 then Crash
    else
      let* (_, buf) := memcpy_from_queue stack_desc fuel s (malloc read_size) queue_idx desc_idx 0
                         read_size in
      Done (0, virtio_consume_desc (s <| vx ::= fun out => out ++ buf |>) queue_idx desc_idx 0)
  else Done (0, s).

Definition console_handlers : Handlers B (list Z) := mkHandlers virtio_console_recv_request None.

Definition virtio_console_can_write_data (s : vstate B (list Z)) : bool := can_write s 0.

Definition virtio_console_get_write_len (fuel : nat) (s : vstate B (list Z)) : res Z :=
  if can_write s 0 then
    let* sizes := get_desc_rw_size stack_desc fuel s 0 (avail_ring s 0) in
    Done (match sizes with None => 0 | Some (_, write_size) => write_size end)
  else Done 0.

Definition virtio_console_write_data (fuel : nat) (s : vstate B (list Z)) (buf : list Z)
  : res (Z * vstate B (list Z)) :=
  if can_write s 0 then
    let desc_idx := avail_ring s 0 in
    let buf_len := Z.of_nat (length buf) in
    let* (_, s) := memcpy_to_queue stack_desc fuel s 0 desc_idx 0 buf buf_len in
    Done (buf_len, next_avail (virtio_consume_desc s 0 desc_idx buf_len) 0)
  else Done (0, s).

Definition virtio_console_resize_event (s : vstate B (list Z)) (width height : Z) : vstate B (list Z) :=
  virtio_config_change_notify
    (s <| vdev ::= fun d => d <| config_space ::= fun c => put_le16 (put_le16 c 0 width) 2 height |> |>).

Definition virtio_console_init (b : B) : vstate B (list Z) :=
  mkV b (manual0 ((virtio_init 3 4) <| device_features := 1 << 0 |>)) [].

(** ** Input devices *)

Inductive VirtioInputTypeEnum :=
  VIRTIO_INPUT_TYPE_KEYBOARD | VIRTIO_INPUT_TYPE_MOUSE | VIRTIO_INPUT_TYPE_TABLET.

Record VIRTIOInputDevice := mkInput { input_type : VirtioInputTypeEnum; buttons_state : Z }.

Definition VIRTIO_INPUT_CFG_UNSET : Z := 0x00.
Definition VIRTIO_INPUT_CFG_ID_NAME : Z := 0x01.
Definition VIRTIO_INPUT_CFG_EV_BITS : Z := 0x11.
Definition VIRTIO_INPUT_CFG_ABS_INFO : Z := 0x12.
Definition VIRTIO_INPUT_EV_SYN : Z := 0x00.
Definition VIRTIO_INPUT_EV_KEY : Z := 0x01.
Definition VIRTIO_INPUT_EV_REL : Z := 0x02.
Definition VIRTIO_INPUT_EV_ABS : Z := 0x03.
Definition VIRTIO_INPUT_EV_REP : Z := 0x14.
Definition REL_X : Z := 0x00.
Definition REL_Y : Z := 0x01.
Definition REL_WHEEL : Z := 0x08.
Definition ABS_X : Z := 0x00.
Definition ABS_Y : Z := 0x01.
Definition VIRTIO_INPUT_ABS_SCALE : Z := 32768.

(** [BTN_LEFT], [BTN_RIGHT], [BTN_MIDDLE]. *)
Definition buttons_list : list Z := [0x110; 0x111; 0x112].

Abbreviation input := (vstate B VIRTIOInputDevice).

Definition virtio_input_recv_request (fuel : nat) (s : input)
    (queue_idx desc_idx read_size write_size : Z) : res (Z * input) :=
  Done (0, if queue_idx =? 1 then virtio_consume_desc s queue_idx desc_idx 0 else s).

Definition virtio_input_queue_event (fuel : nat) (s : input) (type code value : Z) : res (Z * input) :=
  if can_write s 0 then
    let buf := le_list 2 type ++ le_list 2 code ++ le_list 4 value in
    let desc_idx := avail_ring s 0 in
    let* (_, s) := memcpy_to_queue stack_desc fuel s 0 desc_idx 0 buf 8 in
    Done (0, next_avail (virtio_consume_desc s 0 desc_idx 8) 0)
  else Done (-1, s).

(** A sequence of events: the first one that cannot be sent ends it. *)
Fixpoint send_events (fuel : nat) (s : input) (evs : list (Z * Z * Z)) : res (Z * input) :=
  match evs with
  | [] => Done (0, s)
  | (type, code, value) :: evs =>
      let* (ret, s) := virtio_input_queue_event fuel s type code value in
      if nz ret then Done (ret, s) else send_events fuel s evs
  end.

Definition virtio_input_send_key_event (fuel : nat) (s : input) (is_down key_code : Z) : res (Z * input) :=
  match input_type (vx s) with
  | VIRTIO_INPUT_TYPE_KEYBOARD =>
      send_events fuel s [(VIRTIO_INPUT_EV_KEY, key_code, is_down); (VIRTIO_INPUT_EV_SYN, 0, 0)]
  | _ => Done (-1, s)
  end.

(** The events of the buttons that changed. *)
Definition button_events (buttons old : Z) : list (Z * Z * Z) :=
  mjoin (imap (fun i code =>
    let b := (buttons >> Z.of_nat i) .& 1 in
    let last_b := (old >> Z.of_nat i) .& 1 in
    if b =? last_b then [] else [(VIRTIO_INPUT_EV_KEY, code, b)]) buttons_list).

Definition virtio_input_send_mouse_event (fuel : nat) (s : input) (dx dy dz buttons : Z) : res (Z * input) :=
  let old := buttons_state (vx s) in
  let wheel := if nz dz then [(VIRTIO_INPUT_EV_REL, REL_WHEEL, dz)] else [] in
  let send (evs : list (Z * Z * Z)) :=
    let* (ret, s) := send_events fuel s (evs ++ wheel) in
    if nz ret then Done (ret, s)
    else
      let* (ret, s) :=
        if buttons =? old then Done (0, s)
        else
          let* (ret, s) := send_events fuel s (button_events buttons old) in
          if nz ret then Done (ret, s)
          else Done (0, s <| vx ::= fun x => mkInput (input_type x) buttons |>) in
      if nz ret then Done (ret, s)
      else virtio_input_queue_event fuel s VIRTIO_INPUT_EV_SYN 0 0 in
  match input_type (vx s) with
  | VIRTIO_INPUT_TYPE_KEYBOARD => Done (-1, s)
  | VIRTIO_INPUT_TYPE_MOUSE =>
      send [(VIRTIO_INPUT_EV_REL, REL_X, dx); (VIRTIO_INPUT_EV_REL, REL_Y, dy)]
  | VIRTIO_INPUT_TYPE_TABLET =>
      send [(VIRTIO_INPUT_EV_ABS, ABS_X, dx); (VIRTIO_INPUT_EV_ABS, ABS_Y, dy)]
  end.

(** [set_bit(config + 8, k)]. *)
Definition set_bit (c : list Z) (k : Z) : list Z :=
  let i := 8 + (k >> 3) in poke c i [u8 (get_le c i 1 .| (1 << (k .& 7)))].

(** ["virtio_keyboard"], ["virtio_mouse"], ["virtio_tablet"]. *)
Definition input_name (t : VirtioInputTypeEnum) : list Z :=
  [118; 105; 114; 116; 105; 111; 95] ++
  match t with
  | VIRTIO_INPUT_TYPE_KEYBOARD => [107; 101; 121; 98; 111; 97; 114; 100]
  | VIRTIO_INPUT_TYPE_MOUSE => [109; 111; 117; 115; 101]
  | VIRTIO_INPUT_TYPE_TABLET => [116; 97; 98; 108; 101; 116]
  end.

(** The [EV_BITS] answers: a bitmap of [n] bytes with the bits [ks]. *)
Definition bitmap (c : list Z) (n : Z) (ks : list Z) : list Z :=
  foldl set_bit (poke (poke c 2 [n]) 8 (replicate (Z.to_nat n) 0)) ks.

Definition input_ev_bits (t : VirtioInputTypeEnum) (c : list Z) : list Z :=
  let ev := get_le c 1 1 in
  let c := poke c 2 [0] in
  match t with
  | VIRTIO_INPUT_TYPE_KEYBOARD =>
      if ev =? VIRTIO_INPUT_EV_KEY then poke (poke c 2 [16]) 8 (replicate 16 0xff)
      else if ev =? VIRTIO_INPUT_EV_REP then poke c 2 [1]
      else c
  | VIRTIO_INPUT_TYPE_MOUSE =>
      if ev =? VIRTIO_INPUT_EV_KEY then bitmap c 64 buttons_list
      else if ev =? VIRTIO_INPUT_EV_REL then bitmap c 2 [REL_X; REL_Y; REL_WHEEL]
      else c
  | VIRTIO_INPUT_TYPE_TABLET =>
      if ev =? VIRTIO_INPUT_EV_KEY then bitmap c 64 buttons_list
      else if ev =? VIRTIO_INPUT_EV_REL then bitmap c 2 [REL_WHEEL]
      else if ev =? VIRTIO_INPUT_EV_ABS then bitmap c 1 [ABS_X; ABS_Y]
      else c
  end.

Definition virtio_input_config_write (s : input) : input :=
  let t := input_type (vx s) in
  let c := config_space (vdev s) in
  let c' :=
    if get_le c 0 1 =? VIRTIO_INPUT_CFG_UNSET then c
    else if get_le c 0 1 =? VIRTIO_INPUT_CFG_ID_NAME then
      poke (poke c 2 [Z.of_nat (length (input_name t))]) 8 (input_name t)
    else if get_le c 0 1 =? VIRTIO_INPUT_CFG_EV_BITS then input_ev_bits t c
    else if get_le c 0 1 =? VIRTIO_INPUT_CFG_ABS_INFO then
      match t with
      | VIRTIO_INPUT_TYPE_TABLET =>
          if get_le c 1 1 <=? 1 then
            put_le32 (put_le32 (put_le32 (put_le32 (put_le32 (poke c 2 [20]) 8 0)
              12 (VIRTIO_INPUT_ABS_SCALE - 1)) 16 0) 20 0) 24 0
          else c
      | _ => c
      end
    else poke c 2 [0] in
  s <| vdev ::= fun d => d <| config_space := c' |> |>.

Definition input_handlers : Handlers B VIRTIOInputDevice :=
  mkHandlers virtio_input_recv_request (Some virtio_input_config_write).

Definition virtio_input_init (b : B) (type : VirtioInputTypeEnum) : vstate B VIRTIOInputDevice :=
  mkV b (manual0 (virtio_init 18 256)) (mkInput type 0).
End Devices.
