(* ===== verification/Virtqueue.v ===== *)
(** * Virtqueues

    What the walks of [Virtio] compute: descriptor chains as finite lists
    ([chain]), the guest bytes they denote ([data]), the sizes and the contents
    that [get_desc_rw_size] and [memcpy_from_queue] return for them.

    [U] is a set of host addresses that a chain does not use: what is written
    there does not change it. *)

From S2P Require Import Prelude Iomem Cpu Virtio.

(** ** Bytes *)

Lemma length_read_bytes h p n : 0 <= n -> length (read_bytes h p n) = Z.to_nat n.
Proof. intros. unfold read_bytes. by rewrite length_fmap, length_seqZ. Qed.

Lemma lookup_read_bytes h p n (i : nat) x :
  read_bytes h p n !! i = Some x <-> Z.of_nat i < n /\ x = byte_at h (p + Z.of_nat i).
Proof.
  unfold read_bytes. rewrite list_lookup_fmap_Some. split.
  - intros (y & -> & Hy). apply lookup_seqZ in Hy as [-> Hi]. split; [lia|]. by rewrite Z.add_0_l.
  - intros [Hi ->]. exists (Z.of_nat i). split; [done|]. apply lookup_seqZ. lia.
Qed.

Lemma poke_app buf pos l k :
  0 <= pos -> poke (poke buf pos l) (pos + Z.of_nat (length l)) k = poke buf pos (l ++ k).
Proof.
  intros. unfold poke. rewrite list_inserts_app_l. f_equal. lia.
Qed.

Lemma length_poke buf pos l : length (poke buf pos l) = length buf.
Proof. apply length_inserts. Qed.

Lemma poke_all buf l : length buf = length l -> poke buf 0 l = l.
Proof. intros. unfold poke. rewrite <- (app_nil_r buf), list_inserts_0_r by done. apply app_nil_r. Qed.

Lemma le_value_fits l : Forall (fits 8) l -> fits (8 * Z.of_nat (length l)) (le_value l).
Proof.
  induction 1 as [|x l Hx _ IH]; cbn [le_value length]; [unfold fits; cbn; lia|].
  apply fits_lor; [lia|apply (fits_mono 8); [lia|done]|].
  apply fits_shiftl; [lia|]. by replace (8 * Z.of_nat (S (length l)) - 8) with (8 * Z.of_nat (length l)) by lia.
Qed.

Lemma get_le_fits buf pos n :
  0 <= n -> Forall (fits 8) buf -> fits (8 * n) (get_le buf pos n).
Proof.
  intros Hn Hb. unfold get_le.
  apply (fits_mono (8 * Z.of_nat (length (peek buf pos n)))).
  - unfold peek. rewrite length_take. lia.
  - apply le_value_fits. unfold peek. by apply Forall_take, Forall_drop.
Qed.

Lemma length_peek l off n :
  0 <= off -> 0 <= n -> off + n <= Z.of_nat (length l) -> Z.of_nat (length (peek l off n)) = n.
Proof. intros. unfold peek. rewrite length_take, length_drop. lia. Qed.

(** A slice of a concatenation that ends in, or goes past, the first list. *)
Lemma peek_app_l l k off n :
  0 <= off -> 0 <= n -> off + n <= Z.of_nat (length l) -> peek (l ++ k) off n = peek l off n.
Proof.
  intros. unfold peek. rewrite drop_app_le by lia. rewrite take_app_le; [done|].
  rewrite length_drop. lia.
Qed.

Lemma peek_app_past l k off n :
  0 <= off <= Z.of_nat (length l) -> Z.of_nat (length l) - off <= n ->
  peek (l ++ k) off n
  = peek l off (Z.of_nat (length l) - off) ++ peek k 0 (n - (Z.of_nat (length l) - off)).
Proof.
  intros. unfold peek. rewrite drop_app_le by lia. rewrite take_app, length_drop. f_equal.
  - rewrite !take_ge; [done| |]; rewrite length_drop; lia.
  - cbn [drop]. f_equal. lia.
Qed.

Lemma peek_split l off m n :
  0 <= off -> 0 <= m <= n -> peek l off n = peek l off m ++ peek l (off + m) (n - m).
Proof.
  intros. unfold peek. rewrite Z2Nat.inj_add, <- drop_drop by lia.
  rewrite <- (take_drop (Z.to_nat m) (take (Z.to_nat n) _)). rewrite take_take, skipn_firstn_comm.
  f_equal; f_equal; lia.
Qed.

Section Walks.
Context {B X : Type} `{BusLaws B}.
Implicit Types s : vstate B X.
Implicit Types U : Z -> Prop.

(** A [get_ram_ptr] result is valid for the rest of its page. *)
Definition page_mapped (b : B) : Prop :=
  forall a p i, get_ram_ptr b a = Some p -> 0 <= i < VIRTIO_PAGE_SIZE - a mod VIRTIO_PAGE_SIZE ->
    get_ram_ptr b (a + i) = Some (p + i).

(** Guest memory at [addr] holds the bytes [bs], at host addresses outside [U]. *)
Definition reads U (b : B) (addr : Z) (l : list Z) : Prop :=
  0 <= addr /\ addr + Z.of_nat (length l) <= 2 ^ 64 /\
  forall (i : nat) x, l !! i = Some x ->
    exists p, get_ram_ptr b (addr + Z.of_nat i) = Some p /\ byte_at (ram b) p = x /\ ~ U p.

Lemma page_step_range a c : 0 <= a -> 0 < c ->
  0 < page_step a c <= c /\ page_step a c <= VIRTIO_PAGE_SIZE - a mod VIRTIO_PAGE_SIZE.
Proof.
  intros. unfold page_step, VIRTIO_PAGE_SIZE. change (4096 - 1) with (Z.ones 12).
  rewrite Z.land_ones by lia. change (2 ^ 12) with 4096.
  pose proof (Z.mod_pos_bound a 4096). lia.
Qed.

Lemma reads_app U b addr l k :
  reads U b addr (l ++ k) <-> reads U b addr l /\ reads U b (addr + Z.of_nat (length l)) k.
Proof.
  unfold reads. rewrite length_app. split.
  - intros (Ha & Hl & Hr). split; (split; [lia|split; [lia|]]).
    + intros i x Hi. apply Hr. by apply lookup_app_l_Some.
    + intros i x Hi. destruct (Hr (length l + i)%nat x) as (p & Hp & Hx).
      * rewrite lookup_app_r by lia. by replace (length l + i - length l)%nat with i by lia.
      * exists p. split; [|done]. rewrite <- Hp. f_equal. lia.
  - intros [(Ha & Hl & Hr) (Ha' & Hl' & Hr')]. split; [lia|split; [lia|]].
    intros i x [Hi|[Hlen Hi]]%lookup_app_Some; [by apply Hr|].
    destruct (Hr' _ x Hi) as (p & Hp & Hx). exists p. split; [|done]. rewrite <- Hp. f_equal. lia.
Qed.

Lemma reads_peek U b addr l off n :
  0 <= off <= Z.of_nat (length l) -> reads U b addr l -> reads U b (addr + off) (peek l off n).
Proof.
  intros Ho Hr. unfold peek.
  rewrite <- (take_drop (Z.to_nat off) l) in Hr. apply reads_app in Hr as [_ Hr].
  rewrite length_take in Hr. replace (Z.of_nat (Z.to_nat off `min` length l)) with off in Hr by lia.
  rewrite <- (take_drop (Z.to_nat n) (drop _ _)) in Hr. by apply reads_app in Hr as [Hr _].
Qed.

(** On the rest of a page the bytes are those at the pointer. *)
Lemma reads_page U b addr l p :
  page_mapped b -> get_ram_ptr b addr = Some p -> reads U b addr l ->
  Z.of_nat (length l) <= VIRTIO_PAGE_SIZE - addr mod VIRTIO_PAGE_SIZE ->
  read_bytes (ram b) p (Z.of_nat (length l)) = l.
Proof.
  intros Hpm Hp (_ & _ & Hr) Hlen. apply list_eq_same_length with (length l); [done| |].
  - rewrite length_read_bytes by lia. lia.
  - intros i x y Hi Hx Hy. apply lookup_read_bytes in Hx as [_ ->].
    destruct (Hr i y Hy) as (p' & Hp' & <- & _). f_equal.
    rewrite (Hpm addr p (Z.of_nat i)) in Hp' by (done || lia). congruence.
Qed.

Lemma from_ram_reads U b l : page_mapped b ->
  forall n addr buf pos, 0 <= pos -> reads U b addr l -> (length l <= n)%nat ->
  from_ram_loop n b buf pos addr (Z.of_nat (length l)) = (0, poke buf pos l).
Proof.
  intros Hpm n. revert l. induction n as [|n IH]; intros l addr buf pos Hpos Hr Hn; cbn [from_ram_loop].
  { destruct l; [done|cbn in Hn; lia]. }
  destruct (Z.ltb_spec 0 (Z.of_nat (length l))) as [Hc|Hc]; [|destruct l; [done|cbn in Hc; lia]].
  set (st := page_step addr (Z.of_nat (length l))).
  assert (0 < st <= Z.of_nat (length l) /\ st <= VIRTIO_PAGE_SIZE - addr mod VIRTIO_PAGE_SIZE) as [Hst Hpg].
  { apply page_step_range; [apply Hr|done]. }
  destruct (lookup_lt_is_Some_2 l 0) as [x Hx]; [lia|].
  destruct (Hr) as (_ & Hle & Hr0). destruct (Hr0 0%nat x Hx) as (p & Hp & _).
  rewrite Z.add_0_r in Hp. rewrite Hp.
  rewrite <- (take_drop (Z.to_nat st) l) in Hr. apply reads_app in Hr as [Hr1 Hr2].
  assert (Z.of_nat (length (take (Z.to_nat st) l)) = st) as Hlt by (rewrite length_take; lia).
  assert (Z.of_nat (length (drop (Z.to_nat st) l)) = Z.of_nat (length l) - st) as Hld
      by (rewrite length_drop; lia).
  rewrite <- Hld.
  replace (read_bytes (ram b) p st) with (take (Z.to_nat st) l).
  2: { rewrite <- Hlt at 2. symmetry. apply reads_page with U addr; rewrite ?Hlt; auto. }
  destruct (decide (st = Z.of_nat (length l))) as [E|Hne].
  - replace (drop (Z.to_nat st) l) with (@nil Z) by (symmetry; apply drop_ge; lia).
    replace (take (Z.to_nat st) l) with l by (symmetry; apply take_ge; lia).
    destruct n; done.
  - rewrite Hlt in Hr2. rewrite trunc_small by (unfold fits; destruct Hr1; lia).
    rewrite IH by (auto; rewrite ?length_drop; lia).
    rewrite <- Hlt at 2. rewrite poke_app, take_drop by lia. done.
Qed.

Lemma memcpy_from_ram_reads U s l buf pos addr :
  page_mapped (bus s) -> 0 <= pos -> reads U (bus s) addr l ->
  virtio_memcpy_from_ram s buf pos addr (Z.of_nat (length l)) = (0, poke buf pos l).
Proof. intros. unfold virtio_memcpy_from_ram. eapply from_ram_reads; eauto. lia. Qed.

(** Memory that agrees outside [U]. *)
Definition agree U (b b' : B) : Prop :=
  (forall a, get_ram_ptr b' a = get_ram_ptr b a) /\
  (forall p, ~ U p -> byte_at (ram b') p = byte_at (ram b) p).

Lemma reads_agree U b b' addr l : agree U b b' -> reads U b addr l -> reads U b' addr l.
Proof.
  intros [Hp Hm] (Ha & Hl & Hr). split; [done|]. split; [done|]. intros i x Hi.
  destruct (Hr i x Hi) as (p & E & Hx & HU). exists p. rewrite Hp, Hm; auto.
Qed.

Lemma agree_trans U b b' b'' : agree U b b' -> agree U b' b'' -> agree U b b''.
Proof.
  intros [P1 M1] [P2 M2]. split.
  - intros a. by rewrite P2, P1.
  - intros p Hp. by rewrite M2, M1.
Qed.

Lemma agree_page_mapped U b b' : agree U b b' -> page_mapped b -> page_mapped b'.
Proof. intros [Hp _] Hm a p i. rewrite !Hp. apply Hm. Qed.

(** ** Chains *)

(** Descriptor [idx] of the table of queue [q]. *)
Definition desc_at U s (q idx : Z) (d : VIRTIODesc) : Prop :=
  length d = 16%nat /\ Forall (fits 8) d /\
  reads U (bus s) (u64 (desc_addr (queue_at s q) + idx * 16)) d.

(** [chain d ds]: following the [next] fields from [d] visits [ds] and ends. *)
Inductive chain U s (q : Z) : VIRTIODesc -> list VIRTIODesc -> Prop :=
  | chain_end d : d_has_next d = false -> chain U s q d [d]
  | chain_next d d' ds :
      d_has_next d = true -> desc_at U s q (d_next d) d' -> chain U s q d' ds ->
      chain U s q d (d :: ds).

(** The bytes a descriptor points to. *)
Definition data U s (d : VIRTIODesc) (l : list Z) : Prop :=
  reads U (bus s) (d_addr d) l /\ Z.of_nat (length l) = d_len d.

Fixpoint desc_total (ds : list VIRTIODesc) : Z :=
  match ds with [] => 0 | d :: ds => d_len d + desc_total ds end.

Lemma chain_head U s q d ds : chain U s q d ds -> exists ds', ds = d :: ds'.
Proof. intros []; eauto. Qed.

Lemma chain_tail U s q d ds :
  chain U s q d (d :: ds) -> ds <> [] ->
  d_has_next d = true /\ exists d', desc_at U s q (d_next d) d' /\ chain U s q d' ds.
Proof. intros Hc Hne. inversion Hc; subst; [done|]. eauto. Qed.

Lemma get_desc_at U s q idx d d0 :
  page_mapped (bus s) -> length d0 = 16%nat -> desc_at U s q idx d -> get_desc s d0 q idx = d.
Proof.
  intros Hpm Hd0 (Hl & _ & Hr). unfold get_desc.
  pose proof (memcpy_from_ram_reads U s d d0 0 _ Hpm ltac:(lia) Hr) as E.
  rewrite Hl in E. change (Z.of_nat 16) with 16 in E. rewrite E. apply poke_all. congruence.
Qed.

Lemma desc_total_app ds ds' : desc_total (ds ++ ds') = desc_total ds + desc_total ds'.
Proof. induction ds as [|d ds IH]; cbn [desc_total app]; lia. Qed.

Lemma desc_total_concat U s ds ls :
  Forall2 (data U s) ds ls -> desc_total ds = Z.of_nat (length (mjoin ls)).
Proof.
  induction 1 as [|d l ds ls [_ Hl] _ IH]; [done|].
  change (mjoin (l :: ls)) with (l ++ mjoin ls). cbn [desc_total]. rewrite length_app. lia.
Qed.

Lemma i32_add_l x y : i32 (i32 x + y) = i32 (x + y).
Proof.
  apply sgn_eq; [lia|]. rewrite <- trunc_add_l, trunc_sgn, trunc_add_l by lia. done.
Qed.

(** ** Sizes

    The readable descriptors come first. *)

Fixpoint read_part (ds : list VIRTIODesc) : list VIRTIODesc :=
  match ds with [] => [] | d :: ds' => if d_is_write d then [] else d :: read_part ds' end.

Fixpoint write_part (ds : list VIRTIODesc) : list VIRTIODesc :=
  match ds with [] => [] | d :: ds' => if d_is_write d then ds else write_part ds' end.

Lemma write_part_length ds : (length (write_part ds) <= length ds)%nat.
Proof. induction ds as [|d ds IH]; cbn [write_part length]; [done|]. destruct (d_is_write d); cbn; lia. Qed.

Section Fixed.
Context (U : Z -> Prop) (s : vstate B X) (q : Z) (Hpm : page_mapped (bus s)).

(** The next descriptor of a chain is the one that is fetched. *)
Lemma chain_fetch d d' :
  length d = 16%nat -> desc_at U s q (d_next d) d' ->
  get_desc s d q (d_next d) = d' /\ length d' = 16%nat.
Proof. intros Hd Hat. split; [by eapply get_desc_at|apply Hat]. Qed.

Lemma read_size_loop_spec d ds fuel n :
  chain U s q d ds -> length d = 16%nat -> (length ds <= fuel)%nat ->
  exists rest,
    read_size_loop fuel s q d n = Done (if decide (read_part ds = []) then n
                                        else i32 (n + desc_total (read_part ds)), rest) /\
    match rest with
    | None => write_part ds = []
    | Some d' => chain U s q d' (write_part ds) /\ length d' = 16%nat
    end.
Proof.
  intros Hc. revert fuel n. induction Hc as [d Hn|d d' ds Hn Hat Hc IH]; intros fuel n Hd Hf;
    (destruct fuel as [|fuel]; [cbn in Hf; lia|]); cbn [read_size_loop read_part write_part].
  - destruct (d_is_write d) eqn:Ew; [exists (Some d); split; [done|split; [by constructor|done]]|].
    rewrite Hn. exists None. split; [|done]. cbn. by rewrite Z.add_0_r.
  - destruct (d_is_write d) eqn:Ew.
    { exists (Some d). split; [done|split; [by apply chain_next with d'|done]]. }
    rewrite Hn. destruct (chain_fetch d d' Hd Hat) as [-> Hd'].
    destruct (IH fuel (i32 (n + d_len d)) Hd') as (rest & -> & Hrest); [cbn in Hf; lia|].
    exists rest. split; [|done]. f_equal. f_equal.
    destruct (decide (read_part ds = [])) as [->|]; cbn [desc_total]; [by rewrite Z.add_0_r|].
    rewrite i32_add_l. f_equal. lia.
Qed.

Lemma write_size_loop_spec d ds fuel n :
  chain U s q d ds -> length d = 16%nat -> (length ds <= fuel)%nat ->
  write_size_loop fuel s q d n
  = Done (if forallb d_is_write ds then Some (i32 (n + desc_total ds)) else None).
Proof.
  intros Hc. revert fuel n. induction Hc as [d Hn|d d' ds Hn Hat Hc IH]; intros fuel n Hd Hf;
    (destruct fuel as [|fuel]; [cbn in Hf; lia|]); cbn [write_size_loop forallb desc_total].
  - destruct (d_is_write d); [|done]. rewrite Hn. cbn. by rewrite Z.add_0_r.
  - destruct (d_is_write d); [|done]. rewrite Hn.
    destruct (chain_fetch d d' Hd Hat) as [-> Hd']. cbn [negb andb].
    rewrite IH by (done || cbn in Hf; lia). rewrite i32_add_l.
    by rewrite (Z.add_assoc n).
Qed.

Context (stack_desc : VIRTIODesc) (Hstack : length stack_desc = 16%nat).

(** [get_desc_rw_size] on a finite chain whose descriptors are in RAM returns,
    given one step per descriptor, the total length of the readable descriptors
    and that of the writable ones that follow, both as [int]; and an error exactly
    when a readable descriptor comes after a writable one. *)
Lemma get_desc_rw_size_correct fuel idx d ds :
  desc_at U s q idx d -> chain U s q d ds -> (length ds <= fuel)%nat ->
  get_desc_rw_size stack_desc fuel s q idx
  = Done (if forallb d_is_write (write_part ds)
          then Some (i32 (desc_total (read_part ds)), i32 (desc_total (write_part ds)))
          else None).
Proof.
  intros Hat Hc Hf. unfold get_desc_rw_size. rewrite (get_desc_at U s q idx d) by done.
  destruct Hat as [Hd _]. destruct (read_size_loop_spec d ds fuel 0 Hc Hd Hf) as (rest & -> & Hrest).
  cbn [rbind]. replace (if decide (read_part ds = []) then 0 else i32 (0 + desc_total (read_part ds)))
    with (i32 (desc_total (read_part ds))) by (destruct (decide _) as [->|]; done).
  destruct rest as [d'|]; [|by rewrite Hrest].
  destruct Hrest as [Hc' Hd'].
  rewrite (write_size_loop_spec d' (write_part ds)) by (done || pose proof (write_part_length ds); lia).
  cbn [rbind]. by destruct (forallb _ _).
Qed.

(** The descriptors of [S] point to one another: a walk over them that finds no
    writable descriptor does not end. *)
Lemma rw_size_cycle (S : Z -> Prop) (idx : Z) :
  S idx ->
  (forall i, S i -> exists d, desc_at U s q i d /\ d_is_write d = false /\
                      d_has_next d = true /\ S (d_next d)) ->
  forall fuel, get_desc_rw_size stack_desc fuel s q idx = Timeout.
Proof.
  intros Hi HS fuel. unfold get_desc_rw_size.
  enough (forall d0 n i, length d0 = 16%nat -> S i ->
            read_size_loop fuel s q (get_desc s d0 q i) n = Timeout) as -> by done.
  clear idx Hi. induction fuel as [|fuel IH]; intros d0 n i Hd0 Hi; cbn [read_size_loop]; [done|].
  destruct (HS i Hi) as (d & Hat & Hw & Hn & HSn).
  rewrite (get_desc_at U s q i d d0) by done. rewrite Hw, Hn. cbn [negb].
  apply IH; [apply Hat|done].
Qed.

(** ** Contents *)

(** The walks need the descriptors [rs] up to the end of the copy; what follows
    in the chain does not matter. *)
Definition segment (w : bool) (e : VIRTIODesc) : Prop := d_is_write e = w /\ fits 31 (d_len e).

Lemma chain_prefix d ds rs ws :
  chain U s q d ds -> ds = rs ++ ws -> 0 < desc_total rs -> exists rs', rs = d :: rs'.
Proof.
  intros Hc -> Ht. destruct (chain_head _ _ _ _ _ Hc) as [ds' E].
  destruct rs as [|e rs']; [cbn in Ht; lia|]. cbn in E. injection E as -> _. eauto.
Qed.

Lemma find_offset_spec w d ds rs ws fuel off :
  chain U s q d ds -> ds = rs ++ ws -> length d = 16%nat -> (length ds <= fuel)%nat ->
  Forall (segment w) rs -> 0 <= off < desc_total rs -> desc_total rs < 2 ^ 31 ->
  exists pre d' post,
    rs = pre ++ d' :: post /\ 0 <= off - desc_total pre < d_len d' /\
    chain U s q d' (d' :: post ++ ws) /\ length d' = 16%nat /\
    find_offset fuel s q w d off = Done (Some (d', off - desc_total pre)).
Proof.
  intros Hc. revert rs fuel off.
  induction Hc as [d Hn|d d' ds Hn Hat Hc IH]; intros rs fuel off Eds Hd Hf Hall Ho Ht;
    (destruct fuel as [|fuel]; [cbn in Hf; lia|]);
    (destruct (chain_prefix d (rs ++ ws) rs ws) as [rs' ->];
      [rewrite <- Eds; by econstructor|done|lia|]);
    apply Forall_cons in Hall as [[Hw Hl] Hall]; cbn [find_offset desc_total] in *;
    rewrite Hw, eqb_reflx; cbn [negb]; rewrite (sgn_id 32 (d_len d)) by (unfold fits in Hl; lia);
    injection Eds as Eds.
  - symmetry in Eds. apply app_nil in Eds as [-> ->]. cbn in Ho.
    destruct (Z.ltb_spec off (d_len d)); [|lia].
    exists [], d, []. cbn. rewrite Z.sub_0_r. split; [done|]. split; [lia|]. split; [by constructor|done].
  - destruct (Z.ltb_spec off (d_len d)).
    { exists [], d, rs'. cbn. rewrite Z.sub_0_r, <- Eds. split; [done|]. split; [lia|].
      split; [by apply chain_next with d'|done]. }
    rewrite Hn. destruct (chain_fetch d d' Hd Hat) as [-> Hd']. cbn [negb].
    rewrite sgn_id by (unfold fits in Hl; lia).
    destruct (IH rs' fuel (off - d_len d)) as (pre & e & post & -> & He & Hce & Hle & ->);
      [done|done|cbn in Hf; lia|done|unfold fits in Hl; lia|unfold fits in Hl; lia|].
    exists (d :: pre), e, post. cbn [desc_total app]. replace (off - (d_len d + desc_total pre))
      with (off - d_len d - desc_total pre) by lia. done.
Qed.

(** One turn of the copy: a slice of the bytes of the descriptor. *)
Lemma copy_step d l buf pos off n :
  data U s d l -> 0 <= off -> 0 <= n -> off + n <= d_len d -> 0 <= pos ->
  (virtio_memcpy_from_ram s buf pos (u64 (d_addr d + off)) n).2 = poke buf pos (peek l off n).
Proof.
  intros [Hr Hl] Ho Hn Hon Hpos. destruct (decide (n = 0)) as [->|]; [done|].
  pose proof (reads_peek U (bus s) (d_addr d) l off n ltac:(lia) Hr) as Hp.
  pose proof (memcpy_from_ram_reads U s _ buf pos _ Hpm Hpos Hp) as E.
  rewrite length_peek in E by lia. destruct Hr as (? & ? & _).
  rewrite trunc_small by (unfold fits; lia). by rewrite E.
Qed.

Lemma copy_loop_reads d ds rs ws ls fuel off buf pos count :
  chain U s q d ds -> ds = rs ++ ws -> Forall2 (data U s) rs ls -> length d = 16%nat ->
  (length ds <= fuel)%nat -> Forall (segment false) rs ->
  0 <= off <= d_len d -> 0 < count -> off + count <= desc_total rs -> desc_total rs < 2 ^ 31 ->
  0 <= pos -> pos + count <= Z.of_nat (length buf) ->
  copy_loop fuel s q false d off buf pos count = Done (0, poke buf pos (peek (mjoin ls) off count), s).
Proof.
  intros Hc. revert rs ls fuel off buf pos count.
  induction Hc as [d Hn|d d' ds Hn Hat Hc IH];
    intros rs ls fuel off buf pos count Eds Hdata Hd Hf Hall Ho Hcnt Hoc Ht Hpos Hbuf;
    (destruct fuel as [|fuel]; [cbn in Hf; lia|]);
    (destruct (chain_prefix d (rs ++ ws) rs ws) as [rs' ->];
      [rewrite <- Eds; by econstructor|done|lia|]);
    apply Forall_cons in Hall as [[Hw Hl] Hall];
    apply Forall2_cons_inv_l in Hdata as (l & ls' & Hdl & Hdls & ->);
    cbn [copy_loop desc_total] in *; change (mjoin (l :: ls')) with (l ++ mjoin ls');
    destruct (Hdl) as [Hr Hlen]; injection Eds as Eds;
    rewrite (sgn_id 32 (d_len d - off)) by (unfold fits in Hl; lia);
    set (st := Z.min count (d_len d - off));
    (replace ((0 <? st) && negb (in_buf buf pos st)) with false
       by (symmetry; unfold in_buf; destruct (Z.ltb_spec 0 st), (Z.leb_spec 0 pos),
             (Z.leb_spec (pos + st) (Z.of_nat (length buf))); cbn; try done; lia));
    rewrite (copy_step d l) by (done || lia);
    rewrite (sgn_id 32 (count - st)) by (unfold fits in Hl; lia).
  - symmetry in Eds. apply app_nil in Eds as [-> ->]. cbn in Hoc.
    replace st with count by lia. rewrite Z.sub_diag. cbn [Z.eqb].
    rewrite peek_app_l by lia. done.
  - destruct (Z.eqb_spec (count - st) 0) as [E|E].
    + replace st with count by lia. rewrite peek_app_l by lia. done.
    + assert (d_len d - off < count) by lia.
      replace st with (d_len d - off) in * by lia. replace (off + (d_len d - off)) with (d_len d) by lia.
      rewrite Z.eqb_refl, Hn. destruct (chain_fetch d d' Hd Hat) as [-> Hd'].
      destruct (chain_prefix d' ds rs' ws Hc Eds) as [rs0 ->]; [lia|].
      destruct (Forall_cons_1 _ _ _ Hall) as [[Hw' Hl'] _]. rewrite Hw'. cbn [negb eqb].
      rewrite (IH (d' :: rs0) ls') by (try done; rewrite ?length_poke; unfold fits in *; cbn [length] in *; lia).
      rewrite peek_app_past, <- Hlen by lia.
      replace (pos + (Z.of_nat (length l) - off))
        with (pos + Z.of_nat (length (peek l off (Z.of_nat (length l) - off)))) by (rewrite length_peek; lia).
      rewrite poke_app by lia. done.
Qed.

(** What a copy from a queue needs of its chain: it begins with the readable
    descriptors [rs], whose buffers hold [ls]. *)
Definition readable (fuel : nat) (idx : Z) (rs ws : list VIRTIODesc) (ls : list (list Z)) : Prop :=
  (exists d, desc_at U s q idx d /\ chain U s q d (rs ++ ws)) /\ (length (rs ++ ws) <= fuel)%nat /\
  Forall (segment false) rs /\ Forall2 (data U s) rs ls /\ desc_total rs < 2 ^ 31.

Lemma from_queue_readable fuel idx rs ws ls buf off count :
  readable fuel idx rs ws ls ->
  0 <= off -> 0 < count -> off + count <= desc_total rs -> count <= Z.of_nat (length buf) ->
  memcpy_to_from_queue stack_desc fuel s buf q idx off count false
  = Done (0, poke buf 0 (peek (mjoin ls) off count), s).
Proof.
  intros ((d & Hat & Hc) & Hf & Hall & Hdata & Ht) Ho Hcnt Hoc Hbuf. unfold memcpy_to_from_queue.
  destruct (Z.eqb_spec count 0); [lia|]. rewrite (get_desc_at U s q idx d) by done. cbn [rbind].
  destruct (find_offset_spec false d (rs ++ ws) rs ws fuel off)
    as (pre & d' & post & -> & Hd' & Hc' & Hl' & ->); [done|done|apply Hat|done|done|lia|done|].
  cbn [rbind]. apply Forall_app in Hall as [_ Hall].
  apply Forall2_app_inv_l in Hdata as (ls1 & ls2 & Hls1 & Hls2 & ->).
  rewrite desc_total_app in *. pose proof (desc_total_concat _ _ _ _ Hls1).
  rewrite (copy_loop_reads d' (d' :: post ++ ws) (d' :: post) ws ls2); try done; try lia.
  - rewrite join_app. unfold peek. rewrite drop_app_ge by lia.
    by replace (Z.to_nat off - length (mjoin ls1))%nat with (Z.to_nat (off - desc_total pre)) by lia.
  - rewrite !length_app in Hf. cbn in *. rewrite length_app. lia.
Qed.

(** [memcpy_from_queue] gathers: on a chain that begins with readable
    descriptors it copies the requested slice of the concatenation of their
    buffers, wherever it falls, to the start of the destination. *)
Lemma memcpy_from_queue_gathers fuel idx rs ws ls buf off count :
  readable fuel idx rs ws ls ->
  0 <= off -> 0 < count -> off + count <= desc_total rs -> count <= Z.of_nat (length buf) ->
  memcpy_from_queue stack_desc fuel s buf q idx off count
  = Done (0, poke buf 0 (peek (mjoin ls) off count)).
Proof. intros. unfold memcpy_from_queue. by erewrite from_queue_readable. Qed.

(** All of the readable part, into a buffer of its size. *)
Lemma from_queue_all fuel idx rs ws ls buf :
  readable fuel idx rs ws ls -> Z.of_nat (length buf) = desc_total rs ->
  memcpy_from_queue stack_desc fuel s buf q idx 0 (desc_total rs) = Done (0, mjoin ls).
Proof.
  intros Hr Hbuf. pose proof (desc_total_concat _ _ _ _ (proj1 (proj2 (proj2 (proj2 Hr))))) as Ht.
  unfold memcpy_from_queue. destruct (decide (desc_total rs = 0)) as [E|].
  - unfold memcpy_to_from_queue. rewrite E. cbn. destruct (mjoin ls), buf; cbn in *; done || lia.
  - erewrite from_queue_readable by (done || lia). cbn [rbind]. do 2 f_equal.
    unfold peek. rewrite drop_0, take_ge by lia. apply poke_all. lia.
Qed.

Lemma read_part_readable ds : Forall (segment false) ds -> read_part ds = ds /\ write_part ds = [].
Proof.
  induction 1 as [|d ds [Hw _] _ [IH1 IH2]]; [done|]. cbn. rewrite Hw. by rewrite IH1, IH2.
Qed.

Lemma rw_size_readable fuel idx rs ls :
  readable fuel idx rs [] ls ->
  get_desc_rw_size stack_desc fuel s q idx = Done (Some (desc_total rs, 0)).
Proof.
  intros ((d & Hat & Hc) & Hf & Hall & Hdata & Ht). rewrite app_nil_r in *.
  unfold get_desc_rw_size. rewrite (get_desc_at U s q idx d) by done.
  destruct (read_size_loop_spec d rs fuel 0 Hc (proj1 Hat) Hf) as (rest & -> & Hrest).
  destruct (read_part_readable rs Hall) as [-> Ew]. rewrite Ew in Hrest. cbn [rbind].
  pose proof (desc_total_concat _ _ _ _ Hdata).
  destruct rest as [d'|]; [destruct Hrest as [Hc' _]; inversion Hc'|].
  destruct (decide (rs = [])) as [->|]; [done|]. by rewrite Z.add_0_l, sgn_id by lia.
Qed.
End Fixed.
End Walks.
