(* ===== verification/UsedRing.v ===== *)
(** * The used ring and the notification loop

    [virtio_consume_desc] appends to the used ring; [queue_notify] serves every
    buffer the driver made available.  The console is followed to its output. *)

From S2P Require Import Prelude Iomem Cpu Virtio VirtioDev Virtqueue.

Section Ring.
Context {B X : Type} `{BusLaws B}.
Implicit Types s : vstate B X.

(** Guest memory at [a .. a + n - 1] is the host memory at [p]. *)
Definition mapped (b : B) (a p n : Z) : Prop :=
  0 <= a /\ a + n <= 2 ^ 64 /\ forall i, 0 <= i < n -> get_ram_ptr b (a + i) = Some (p + i).

(** The used ring of a queue is in RAM at host address [p], aligned as the
    driver must align it, and has a power of two of entries. *)
Definition used_ring (b : B) (qs : QueueState) (p : Z) : Prop :=
  (exists k, 0 <= k <= 16 /\ num qs = 2 ^ k) /\ used_addr qs mod 4 = 0 /\
  mapped b (used_addr qs) p (4 + num qs * 8).

Definition used_area (qs : QueueState) (p : Z) : Z -> Prop := fun a => p <= a < p + (4 + num qs * 8).

(** The ring as the driver sees it. *)
Definition used_index s (p : Z) : Z := load_le (ram (bus s)) (p + 2) 2.
Definition used_elem s (p i : Z) : Z * Z :=
  (load_le (ram (bus s)) (p + 4 + i * 8) 4, load_le (ram (bus s)) (p + 4 + i * 8 + 4) 4).

Lemma land_mask_mod x k : 0 <= k < 32 -> x .& u32 (2 ^ k - 1) = x mod 2 ^ k.
Proof.
  intros. assert (0 < 2 ^ k) by (apply pow2_pos; lia).
  assert (2 ^ k <= 2 ^ 32) by (apply Z.pow_le_mono_r; lia).
  rewrite trunc_small by (unfold fits; lia).
  replace (2 ^ k - 1) with (Z.ones k) by (rewrite Z.ones_equiv; lia). apply Z.land_ones. lia.
Qed.

Lemma aligned_test a n k : 0 <= k -> a mod 2 ^ k = 0 -> n mod 2 ^ k = 0 -> has (a + n) (2 ^ k - 1) = false.
Proof.
  intros Hk Ha Hn. apply has_false. replace (2 ^ k - 1) with (Z.ones k) by (rewrite Z.ones_equiv; lia).
  rewrite Z.land_ones by lia. rewrite Z.add_mod, Ha, Hn by (pose proof (pow2_pos k); lia).
  apply Z.mod_0_l. pose proof (pow2_pos k); lia.
Qed.

(** The state after the stores of [virtio_consume_desc]. *)
Definition put_used (h : hostmem) (p index slot desc_idx desc_len : Z) : hostmem :=
  store_le (store_le (store_le h (p + 2) 2 (index + 1)) (p + 4 + slot * 8) 4 (u32 desc_idx))
    (p + 4 + slot * 8 + 4) 4 (u32 desc_len).

Lemma mapped_set_ram b h a p n : mapped b a p n -> mapped (set_ram b h) a p n.
Proof. intros (? & ? & Hm). split; [done|]. split; [done|]. intros. rewrite ptr_set_ram. auto. Qed.

Section Access.
Context (s : vstate B X) (a p n k : Z).
Hypothesis (Hm : mapped (bus s) a p n) (Ha : a mod 4 = 0) (Hk : 0 <= k).

Lemma mapped_addr : k < n -> u64 (a + k) = a + k /\ get_ram_ptr (bus s) (a + k) = Some (p + k).
Proof.
  intros. destruct Hm as (? & ? & Hp). split; [apply trunc_small; unfold fits; lia|apply Hp; lia].
Qed.

Lemma aligned2 : k mod 2 = 0 -> has (a + k) 1 = false.
Proof.
  intros. apply (aligned_test a k 1); [lia| |done].
  apply Z.mod_divide in Ha as [c ->]; [|lia]. by replace (c * 4) with (c * 2 * 2) by lia; apply Z.mod_mul.
Qed.

Lemma read16_mapped : k mod 2 = 0 -> k < n ->
  virtio_read16 s (u64 (a + k)) = load_le (ram (bus s)) (p + k) 2.
Proof.
  intros Hk2 Hn. destruct (mapped_addr Hn) as [-> Hp]. unfold virtio_read16.
  by rewrite aligned2, Hp.
Qed.

Lemma write16_mapped v : k mod 2 = 0 -> k < n ->
  virtio_write16 s (u64 (a + k)) v = s <| bus ::= fun b => set_ram b (store_le (ram b) (p + k) 2 v) |>.
Proof.
  intros Hk2 Hn. destruct (mapped_addr Hn) as [-> Hp]. unfold virtio_write16.
  by rewrite aligned2, Hp.
Qed.

Lemma write32_mapped v : k mod 4 = 0 -> k < n ->
  virtio_write32 s (u64 (a + k)) v = s <| bus ::= fun b => set_ram b (store_le (ram b) (p + k) 4 v) |>.
Proof.
  intros Hk4 Hn. destruct (mapped_addr Hn) as [-> Hp]. unfold virtio_write32.
  change (has (a + k) 3) with (has (a + k) (2 ^ 2 - 1)). by rewrite aligned_test, Hp.
Qed.
End Access.

Lemma slot_aligned c slot : c mod 4 = 0 -> (c + slot * 8) mod 4 = 0.
Proof. intros. replace (slot * 8) with (slot * 2 * 4) by lia. by rewrite Z_mod_plus_full. Qed.

Lemma consume_desc_eq s q p desc_idx desc_len :
  used_ring (bus s) (queue_at s q) p ->
  let index := used_index s p in
  exists b', (forall a, get_ram_ptr b' a = get_ram_ptr (bus s) a) /\
    ram b' = put_used (ram (bus s)) p index (index mod num (queue_at s q)) desc_idx desc_len /\
    virtio_consume_desc s q desc_idx desc_len
    = mkV (set_irq b' 1) ((vdev s) <| int_status ::= fun v => v .| 1 |>) (vx s).
Proof.
  intros ((k & Hk & Hnum) & Ha & Hm) index. unfold virtio_consume_desc.
  set (qs := queue_at s q) in *. assert (0 < num qs) as Hn0 by (rewrite Hnum; apply pow2_pos; lia).
  rewrite (read16_mapped s _ _ _ 2 Hm Ha) by (done || lia).
  change (load_le (ram (bus s)) (p + 2) 2) with index.
  rewrite (write16_mapped s _ _ _ 2 Hm Ha) by (done || lia).
  rewrite Hnum, land_mask_mod, <- Hnum by lia.
  pose proof (Z.mod_pos_bound index (num qs) Hn0) as Hslot. set (slot := index mod num qs) in *.
  set (s1 := s <| bus ::= _ |>). assert (mapped (bus s1) (used_addr qs) p (4 + num qs * 8)) as Hm1
    by apply mapped_set_ram, Hm.
  replace (used_addr qs + 4 + slot * 8) with (used_addr qs + (4 + slot * 8)) by lia.
  rewrite (write32_mapped s1 _ _ _ _ Hm1 Ha) by (by apply slot_aligned || lia).
  set (s2 := s1 <| bus ::= _ |>). assert (mapped (bus s2) (used_addr qs) p (4 + num qs * 8)) as Hm2
    by apply mapped_set_ram, Hm1.
  rewrite trunc_add_l by lia.
  replace (used_addr qs + (4 + slot * 8) + 4) with (used_addr qs + (8 + slot * 8)) by lia.
  rewrite (write32_mapped s2 _ _ _ _ Hm2 Ha) by (by apply (slot_aligned 8) || lia).
  eexists. split; [|split; [|reflexivity]].
  - intros a. unfold s2, s1. vsimpl. by rewrite !ptr_set_ram.
  - unfold s2, s1. vsimpl. rewrite !ram_set_ram. unfold put_used. f_equal; [f_equal|]; lia.
Qed.

Lemma put_used_elem h p index slot d l j :
  0 <= slot -> 0 <= j ->
  (load_le (put_used h p index slot d l) (p + 4 + j * 8) 4,
   load_le (put_used h p index slot d l) (p + 4 + j * 8 + 4) 4)
  = if j =? slot then (u32 d, u32 l)
    else (load_le h (p + 4 + j * 8) 4, load_le h (p + 4 + j * 8 + 4) 4).
Proof.
  intros Hs Hj. unfold put_used. destruct (Z.eqb_spec j slot) as [->|Hne].
  - rewrite load_store_same, (load_store_disjoint _ (p + 4 + slot * 8 + 4)), load_store_same by lia.
    by rewrite !trunc_idemp.
  - rewrite !load_store_disjoint by lia. done.
Qed.

Lemma slot_range s q p :
  used_ring (bus s) (queue_at s q) p ->
  0 <= used_index s p mod num (queue_at s q) < num (queue_at s q).
Proof. intros ((k & Hk & Hnum) & _). apply Z.mod_pos_bound. rewrite Hnum. apply pow2_pos. lia. Qed.

Lemma consume_desc_agree s q p desc_idx desc_len :
  used_ring (bus s) (queue_at s q) p ->
  let s' := virtio_consume_desc s q desc_idx desc_len in
  agree (used_area (queue_at s q) p) (bus s) (bus s') /\ queue (vdev s') = queue (vdev s) /\
  vx s' = vx s /\ used_index s' p = u16 (used_index s p + 1).
Proof.
  intros Hu s'. destruct (consume_desc_eq s q p desc_idx desc_len Hu) as (b & Hp & Hr & E).
  pose proof (slot_range s q p Hu). unfold s'. rewrite E. unfold agree, used_index. vsimpl.
  rewrite ram_set_irq, Hr. fold (used_index s p). unfold put_used.
  split; [split|split; [done|split; [done|]]].
  - intros a. by rewrite ptr_set_irq.
  - intros a Hna. unfold used_area in Hna. by rewrite !byte_at_store by lia.
  - rewrite !load_store_disjoint by lia. apply load_store_same.
Qed.

Lemma consume_desc_elem s q p desc_idx desc_len j :
  used_ring (bus s) (queue_at s q) p -> 0 <= j ->
  used_elem (virtio_consume_desc s q desc_idx desc_len) p j
  = if j =? used_index s p mod num (queue_at s q) then (u32 desc_idx, u32 desc_len) else used_elem s p j.
Proof.
  intros Hu Hj. destruct (consume_desc_eq s q p desc_idx desc_len Hu) as (b & _ & Hr & E).
  unfold used_elem at 1. rewrite E. vsimpl. rewrite ram_set_irq, Hr.
  apply put_used_elem; [by apply slot_range|done].
Qed.

(** [virtio_consume_desc] appends to the used ring: it writes the descriptor
    and its length in the slot of the ring's index, leaves the other slots and all
    memory outside the ring alone, counts the index up modulo 2^16, and raises the
    interrupt line with the used-buffer bit of the status. *)
Lemma consume_desc_appends s q p desc_idx desc_len :
  let qs := queue_at s q in
  used_ring (bus s) qs p ->
  let s' := virtio_consume_desc s q desc_idx desc_len in
  let slot := used_index s p mod num qs in
  used_index s' p = u16 (used_index s p + 1) /\
  (forall j, 0 <= j -> used_elem s' p j
                       = if j =? slot then (u32 desc_idx, u32 desc_len) else used_elem s p j) /\
  (forall a, ~ used_area qs p a -> byte_at (ram (bus s')) a = byte_at (ram (bus s)) a) /\
  (exists b, bus s' = set_irq b 1) /\ has (int_status (vdev s')) 1 = true /\
  queue (vdev s') = queue (vdev s).
Proof.
  intros qs Hu s' slot. destruct (consume_desc_eq s q p desc_idx desc_len Hu) as (b & _ & _ & E).
  destruct (consume_desc_agree s q p desc_idx desc_len Hu) as ([_ Hm] & Hq & _ & Hi).
  split; [done|]. split; [|split; [done|]].
  - intros j Hj. by apply consume_desc_elem.
  - unfold s'. rewrite E. vsimpl. split; [by exists b|]. split; [|done].
    rewrite has_1, Z.lor_spec. apply orb_true_r.
Qed.
End Ring.

(** ** Notification *)

Section Notify.
Context {B X : Type} `{BusLaws B}.
Implicit Types s : vstate B X.
Implicit Types U : Z -> Prop.

(** Slot [i] of the available ring names descriptor [idx]. *)
Definition avail_slot U s (q i idx : Z) : Prop :=
  let qs := queue_at s q in
  let a := u64 (avail_addr qs + 4 + (i .& u32 (num qs - 1)) * 2) in
  has a 1 = false /\ exists p, get_ram_ptr (bus s) a = Some p /\ load_le (ram (bus s)) p 2 = idx /\
    ~ U p /\ ~ U (p + 1).

(** [tx i j outs]: from index [i] of the available ring to index [j], the driver
    queued readable buffers with the contents [outs], in chains of at most [fuel]
    descriptors and less than 2^31 bytes. *)
Inductive tx U s (q : Z) (fuel : nat) : Z -> Z -> list (list Z) -> Prop :=
  | tx_end i : tx U s q fuel i i []
  | tx_buffer i j idx ds ls outs :
      i <> j -> avail_slot U s q i idx -> readable U s q fuel idx ds [] ls ->
      tx U s q fuel (u16 (i + 1)) j outs ->
      tx U s q fuel i j (mjoin ls :: outs).

(** The states of a device whose queue [q] is set up the same way and whose
    memory differs in [U] only. *)
Definition steady U (q : Z) s s' : Prop :=
  agree U (bus s) (bus s') /\
  (queue_at s' q) <| last_avail_idx := 0 |> = (queue_at s q) <| last_avail_idx := 0 |>.

Lemma steady_fields U q s s' :
  steady U q s s' ->
  desc_addr (queue_at s' q) = desc_addr (queue_at s q) /\ avail_addr (queue_at s' q) = avail_addr (queue_at s q) /\
  used_addr (queue_at s' q) = used_addr (queue_at s q) /\ num (queue_at s' q) = num (queue_at s q).
Proof. intros [_ E]. by injection E. Qed.

Lemma steady_trans U q s s' s'' : steady U q s s' -> steady U q s' s'' -> steady U q s s''.
Proof. intros [A1 E1] [A2 E2]. split; [by eapply agree_trans|congruence]. Qed.

Lemma steady_desc_at U q s s' i d : steady U q s s' -> desc_at U s q i d -> desc_at U s' q i d.
Proof.
  intros Hs (Hl & Hb & Hr). destruct (steady_fields _ _ _ _ Hs) as (Ed & _).
  split; [done|]. split; [done|]. rewrite Ed. eapply reads_agree; [apply Hs|done].
Qed.

Lemma steady_chain U q s s' d ds : steady U q s s' -> chain U s q d ds -> chain U s' q d ds.
Proof.
  intros Hs. induction 1 as [d Hn|d d' ds Hn Hat Hc IH]; [by constructor|].
  apply chain_next with d'; [done| |done]. by eapply steady_desc_at.
Qed.

Lemma steady_readable U q s s' fuel idx rs ws ls :
  steady U q s s' -> readable U s q fuel idx rs ws ls -> readable U s' q fuel idx rs ws ls.
Proof.
  intros Hs ((d & Hat & Hc) & Hf & Hall & Hdata & Ht).
  split; [|split; [done|split; [done|split; [|done]]]].
  - exists d. split; [by eapply steady_desc_at|by eapply steady_chain].
  - eapply Forall2_impl; [done|]. intros e l [Hre Hle]. split; [|done].
    eapply reads_agree; [apply Hs|done].
Qed.

Lemma steady_tx U q s s' fuel i j outs : steady U q s s' -> tx U s q fuel i j outs -> tx U s' q fuel i j outs.
Proof.
  intros Hs. destruct (steady_fields _ _ _ _ Hs) as (_ & Ea & _ & En). destruct (Hs) as [Hag _].
  induction 1 as [|i j idx ds ls outs Hij (Hal & p & Hp & Hl & HU & HU') Hr _ IH]; [constructor|].
  apply tx_buffer with idx ds; [done| |by eapply steady_readable|done].
  split; [by rewrite Ea, En|]. exists p. rewrite Ea, En. destruct Hag as [Hptr Hm].
  rewrite Hptr. split; [done|]. split; [|done]. rewrite <- Hl. cbn [load_le]. by rewrite !Hm.
Qed.

Lemma tx_length U s q fuel i j outs :
  tx U s q fuel i j outs -> fits 16 i -> fits 16 j -> Z.of_nat (length outs) = u16 (j - i).
Proof.
  induction 1 as [|i j idx ds ls outs Hij _ _ _ IH]; intros Hi Hj.
  - by rewrite Z.sub_diag.
  - cbn [length]. rewrite Nat2Z.inj_succ, IH by width. rewrite trunc_sub_r by lia.
    unfold fits in *. unfold trunc. destruct (Z_lt_le_dec i j).
    + rewrite !Z.mod_small by lia. lia.
    + rewrite <- (Z_mod_plus_full (j - (i + 1)) 1), <- (Z_mod_plus_full (j - i) 1).
      rewrite !Z.mod_small by lia. lia.
Qed.

Lemma avail_ring_slot U s q idx :
  avail_slot U s q (last_avail_idx (queue_at s q)) idx -> avail_ring s q = idx.
Proof. intros (Ha & p & Hp & Hl & _). unfold avail_ring, virtio_read16. by rewrite Ha, Hp, Hl. Qed.

Lemma queue_at_next_avail s q :
  0 <= q < Z.of_nat (length (queue (vdev s))) ->
  queue_at (next_avail s q) q = (queue_at s q) <| last_avail_idx ::= fun i => u16 (i + 1) |>.
Proof.
  intros Hq. unfold queue_at, next_avail, set_queue. vsimpl.
  destruct (lookup_lt_is_Some_2 (queue (vdev s)) (Z.to_nat q)) as [x Hx]; [lia|].
  rewrite !nth_lookup, list_lookup_alter_eq, Hx. done.
Qed.
End Notify.

(** ** Transmission

    A device model that transmits what it finds in queue 1: it hands the bytes of
    an acceptable buffer to its host side ([put]) and consumes the descriptor. *)
Section Transmit.
Context {B X : Type} `{BusLaws B} (stack_desc : VIRTIODesc) (Hstack : length stack_desc = 16%nat).
Context (hs : Handlers B X) (put : list Z -> X -> X) (accept : list Z -> Prop) (inv : X -> Prop).
Implicit Types s : vstate B X.
Implicit Types U : Z -> Prop.

Definition transmits : Prop :=
  forall U fuel s idx ds ls, page_mapped (bus s) -> inv (vx s) -> readable U s 1 fuel idx ds [] ls ->
    accept (mjoin ls) -> device_recv hs fuel s 1 idx (desc_total ds) 0
    = Done (0, virtio_consume_desc (s <| vx ::= put (mjoin ls) |>) 1 idx 0).

Hypothesis (Htransmits : transmits) (Hinv : forall out x, inv x -> inv (put out x)).

(** A device ready to serve queue 1: the queue exists and its used ring, the
    area [U], is in RAM at [p]. *)
Definition tx_ready U (p : Z) s : Prop :=
  page_mapped (bus s) /\ (1 < length (queue (vdev s)))%nat /\
  used_ring (bus s) (queue_at s 1) p /\ U = used_area (queue_at s 1) p.

(** The state after a buffer with the bytes [out] was transmitted. *)
Definition sent s (idx : Z) (out : list Z) : vstate B X :=
  next_avail (virtio_consume_desc (s <| vx ::= put out |>) 1 idx 0) 1.

Lemma sent_ready U p s idx out :
  tx_ready U p s ->
  steady U 1 s (sent s idx out) /\ tx_ready U p (sent s idx out) /\
  vx (sent s idx out) = put out (vx s) /\
  last_avail_idx (queue_at (sent s idx out) 1) = u16 (last_avail_idx (queue_at s 1) + 1) /\
  used_index (sent s idx out) p = u16 (used_index s p + 1).
Proof.
  intros (Hpm & Hq & Hu & ->). set (s0 := s <| vx ::= put out |>).
  destruct (consume_desc_agree s0 1 p idx 0 Hu) as (Hag & Eq & Ex & Ei).
  set (s1 := virtio_consume_desc s0 1 idx 0) in *.
  assert (queue_at s1 1 = queue_at s 1) as Eq1 by (unfold queue_at; by rewrite Eq).
  assert (queue_at (sent s idx out) 1 = (queue_at s 1) <| last_avail_idx ::= fun i => u16 (i + 1) |>) as En.
  { unfold sent. fold s0 s1. rewrite queue_at_next_avail, Eq1; [done|]. rewrite Eq. cbn. lia. }
  assert (steady (used_area (queue_at s 1) p) 1 s (sent s idx out)) as Hst.
  { split; [exact Hag|]. by rewrite En. }
  split; [done|]. split; [|split; [exact Ex|split; [by rewrite En|exact Ei]]].
  split; [by eapply agree_page_mapped|]. split; [|split].
  - unfold sent, next_avail, set_queue. fold s0 s1. vsimpl. rewrite length_alter, Eq. done.
  - rewrite En. destruct Hu as (Hk & Ha & Hm1 & Hm2 & Hm3). split; [done|]. split; [done|].
    split; [done|]. split; [done|]. intros i Hi. rewrite <- Hm3 by done. apply Hag.
  - by rewrite En.
Qed.

Lemma notify_loop_tx U p fuel j n s i outs :
  tx_ready U p s -> inv (vx s) -> tx U s 1 fuel i j outs -> Forall accept outs -> (length outs < n)%nat ->
  last_avail_idx (queue_at s 1) = i ->
  exists s', notify_loop stack_desc hs n fuel s 1 j = Done s' /\
    vx s' = foldl (fun x out => put out x) (vx s) outs /\ last_avail_idx (queue_at s' 1) = j /\
    used_index s' p = u16 (used_index s p + Z.of_nat (length outs)).
Proof.
  revert s i outs. induction n as [|n IH]; intros s i outs Hrd Hx Htx Hacc Hn Hi; [lia|]. cbn [notify_loop].
  destruct Htx as [i|i j idx ds ls outs Hij Hav Hr Htx]; rewrite Hi.
  - rewrite Z.eqb_refl. exists s. do 3 (split; [done|]).
    rewrite Z.add_0_r. symmetry. apply trunc_small, load_le_fits.
  - destruct (Z.eqb_spec i j); [done|]. rewrite <- Hi in Hav. rewrite (avail_ring_slot _ _ _ _ Hav).
    apply Forall_cons in Hacc as [Ha Hacc].
    rewrite (rw_size_readable U s 1 (proj1 Hrd) stack_desc Hstack fuel idx ds ls Hr). cbn [rbind].
    rewrite (Htransmits U fuel s idx ds ls (proj1 Hrd) Hx Hr Ha). cbn [rbind Z.ltb Z.compare].
    fold (sent s idx (mjoin ls)).
    destruct (sent_ready U p s idx (mjoin ls) Hrd) as (Hst & Hrd' & Ex & El & Eu).
    destruct (IH (sent s idx (mjoin ls)) (u16 (i + 1)) outs) as (s' & Hs' & Ex' & El' & Eu');
      [done|rewrite Ex; by apply Hinv|by eapply steady_tx|done|cbn in Hn; lia|by rewrite El, Hi|].
    exists s'. split; [exact Hs'|]. split; [by rewrite Ex', Ex|]. split; [done|].
    rewrite Eu', Eu, trunc_add_l by lia. f_equal. cbn [length]. lia.
Qed.

(** [n] starts at 65536, more than a 16-bit index can be behind. *)
Lemma queue_notify_tx U p fuel s outs :
  tx_ready U p s -> inv (vx s) -> manual_recv (queue_at s 1) = false ->
  fits 16 (last_avail_idx (queue_at s 1)) ->
  tx U s 1 fuel (last_avail_idx (queue_at s 1)) (avail_index s 1) outs -> Forall accept outs ->
  exists s', queue_notify stack_desc hs fuel s 1 = Done s' /\
    vx s' = foldl (fun x out => put out x) (vx s) outs /\
    last_avail_idx (queue_at s' 1) = avail_index s 1 /\
    used_index s' p = u16 (used_index s p + Z.of_nat (length outs)).
Proof.
  intros Hrd Hx Hman Hfit Htx Hacc. unfold queue_notify. rewrite Hman.
  eapply notify_loop_tx; [done|done|exact Htx|done| |done].
  assert (fits 16 (avail_index s 1)) as Hav.
  { unfold avail_index, virtio_read16. destruct (has _ 1); [unfold fits; lia|].
    destruct (get_ram_ptr _ _); [apply (load_le_fits _ _ 2)|unfold fits; lia]. }
  pose proof (tx_length _ _ _ _ _ _ _ Htx Hfit Hav) as Hl.
  pose proof (trunc_fits 16 (avail_index s 1 - last_avail_idx (queue_at s 1)) ltac:(lia)) as [_ Hlt].
  change (2 ^ 16) with 65536 in Hlt. lia.
Qed.
End Transmit.

Section Models.
Context {B : Type} `{BusLaws B} (stack_desc : VIRTIODesc) (malloc : Z -> list Z).
Hypothesis (Hstack : length stack_desc = 16%nat).
Hypothesis (Hmalloc : forall n, 0 <= n -> Z.of_nat (length (malloc n)) = n).

Lemma readable_total {X} U (s : vstate B X) q fuel idx ds ls :
  readable U s q fuel idx ds [] ls -> desc_total ds = Z.of_nat (length (mjoin ls)) /\ desc_total ds < 2 ^ 31.
Proof.
  intros (_ & _ & _ & Hdata & Ht). split; [by eapply desc_total_concat|done].
Qed.

Lemma console_transmits : transmits (B := B) (console_handlers stack_desc malloc) (fun out x => x ++ out)
  (fun _ => True) (fun _ => True).
Proof.
  intros U fuel s idx ds ls Hpm _ Hr _. destruct (readable_total _ _ _ _ _ _ _ Hr) as [Ht _].
  cbn [device_recv console_handlers]. unfold virtio_console_recv_request. cbn [Z.eqb Pos.eqb].
  destruct (Z.ltb_spec (desc_total ds) 0); [lia|].
  erewrite from_queue_all; [done|done|done|exact Hr|]. rewrite Hmalloc; lia.
Qed.

(** A packet is what follows the 12-byte header. *)
Definition send_packet (out : list Z) (x : VIRTIONetDevice) : VIRTIONetDevice :=
  mkNet (net_out x ++ [drop 12 out]) (header_size x).

Lemma net_transmits : transmits (B := B) (net_handlers stack_desc malloc) send_packet
  (fun out => (12 <= length out)%nat) (fun x => header_size x = 12).
Proof.
  intros U fuel s idx ds ls Hpm Hhs Hr Hlen. cbn [device_recv net_handlers]. destruct (readable_total _ _ _ _ _ _ _ Hr) as [Ht Hlt].
  unfold virtio_net_recv_request. cbn [Z.eqb Pos.eqb]. rewrite Hhs. unfold memcpy_from_queue at 1.
  erewrite from_queue_readable; [|done|done|exact Hr|lia|lia|lia|rewrite Hmalloc; lia].
  cbn [rbind Z.ltb Z.compare]. rewrite sgn_id by lia.
  assert (memcpy_from_queue stack_desc fuel s (malloc (desc_total ds - 12)) 1 idx 12 (desc_total ds - 12)
          = Done (0, drop 12 (mjoin ls))) as ->; [|done].
  unfold memcpy_from_queue. destruct (decide (desc_total ds = 12)) as [E|].
  - unfold memcpy_to_from_queue. rewrite E. change (12 - 12) with 0. cbn [Z.eqb rbind].
    rewrite drop_ge by lia. do 2 f_equal. apply nil_length_inv. pose proof (Hmalloc 0). lia.
  - erewrite from_queue_readable; [|done|done|exact Hr|lia|lia|lia|rewrite Hmalloc; lia].
    cbn [rbind]. unfold peek. change (Z.to_nat 12) with 12%nat. rewrite take_ge by (rewrite length_drop; lia).
    do 2 f_equal. apply poke_all. apply Nat2Z.inj. rewrite Hmalloc, length_drop; lia.
Qed.

(** A notification of the console's transmit queue writes every available buffer
    to the host console. *)
Lemma console_notify_transmits U p fuel (s : vstate B (list Z)) outs :
  tx_ready U p s -> manual_recv (queue_at s 1) = false -> fits 16 (last_avail_idx (queue_at s 1)) ->
  tx U s 1 fuel (last_avail_idx (queue_at s 1)) (avail_index s 1) outs ->
  exists s', queue_notify stack_desc (console_handlers stack_desc malloc) fuel s 1 = Done s' /\
    vx s' = vx s ++ mjoin outs /\ last_avail_idx (queue_at s' 1) = avail_index s 1 /\
    used_index s' p = u16 (used_index s p + Z.of_nat (length outs)).
Proof.
  intros Hrd Hman Hfit Htx.
  destruct (queue_notify_tx stack_desc Hstack _ _ _ _ console_transmits (fun _ _ _ => I) U p fuel s outs)
    as (s' & E & Ex & El & Eu); try done; [by apply Forall_true|].
  exists s'. split; [done|]. split; [|done]. rewrite Ex. clear. generalize (vx s). intros x. revert x.
  induction outs as [|out outs IH]; intros x; cbn [foldl]; [by rewrite app_nil_r|].
  rewrite IH, <- app_assoc. done.
Qed.

End Models.
