(* ===== verification/VirtioOk.v ===== *)
(** * The state of a virtio device

    The widths and ranges of a device's registers ([virtio_ok]), which no register
    write and no device model breaks: in particular the queue selector is an index
    of the queue array and the size of a queue is a power of two. *)

From S2P Require Import Prelude Iomem Cpu Virtio VirtioDev Virtqueue.

Definition queue_ok (q : QueueState) : Prop :=
  fits 1 (ready q) /\ (exists k, 0 <= k < 32 /\ num q = 2 ^ k) /\ fits 16 (last_avail_idx q) /\
  fits 64 (desc_addr q) /\ fits 64 (avail_addr q) /\ fits 64 (used_addr q).

Definition virtio_ok (d : VIRTIODevice) : Prop :=
  length (queue d) = Z.to_nat MAX_QUEUE /\ 0 <= queue_sel d < MAX_QUEUE /\ Forall queue_ok (queue d) /\
  fits 32 (int_status d) /\ fits 32 (vstatus d) /\ fits 32 (device_features_sel d) /\
  4 <= config_space_size d <= MAX_CONFIG_SPACE_SIZE /\
  length (config_space d) = Z.to_nat MAX_CONFIG_SPACE_SIZE /\ Forall (fits 8) (config_space d).

(** A device model keeps the registers well formed. *)
Class HandlersOk {B X} (hs : Handlers B X) : Prop := {
  recv_ok fuel s q i r w x s' :
    virtio_ok (vdev s) -> device_recv hs fuel s q i r w = Done (x, s') -> virtio_ok (vdev s');
  config_write_ok f s : config_write hs = Some f -> virtio_ok (vdev s) -> virtio_ok (vdev (f s))
}.

(** [val & (val - 1)] is zero for powers of two only. *)
Lemma power_of_two v : fits 32 v -> v .& u32 (v - 1) = 0 -> 0 < v -> exists k, 0 <= k < 32 /\ v = 2 ^ k.
Proof.
  intros [Hv0 Hv] He Hp. rewrite trunc_small in He by (unfold fits; lia).
  exists (Z.log2 v). pose proof (Z.log2_spec v Hp) as [Hl Hu].
  assert (0 <= Z.log2 v < 32) as Hlog by (split; [apply Z.log2_nonneg|apply Z.log2_lt_pow2; lia]).
  split; [done|]. destruct (Z.eq_dec v (2 ^ Z.log2 v)) as [|Hne]; [done|]. exfalso.
  assert (Z.log2 (v - 1) = Z.log2 v) as El by (apply Z.log2_unique; lia).
  assert (Z.testbit (v .& (v - 1)) (Z.log2 v) = true) as Ht.
  { rewrite Z.land_spec, Z.bit_log2 by lia. rewrite <- El at 1. rewrite Z.bit_log2; [done|lia]. }
  rewrite He, Z.bits_0 in Ht. done.
Qed.

Lemma set_low32_fits a v : fits 64 a -> fits 32 v -> fits 64 (set_low32 a v).
Proof. intros. apply fits_lor; [lia|by apply fits_ldiff|by apply (fits_mono 32); [lia|]]. Qed.

Lemma set_high32_fits a v : fits 64 a -> fits 32 v -> fits 64 (set_high32 a v).
Proof. intros. apply fits_lor; [lia|by apply fits_land_l|by apply fits_shiftl; [lia|]]. Qed.

Lemma reset_queue_ok q : queue_ok q -> queue_ok (reset_queue q).
Proof.
  intros _. split; [unfold fits; cbn; lia|]. split; [by exists 4|].
  repeat split; cbn; try lia.
Qed.

Lemma virtio_reset_ok d : virtio_ok d -> virtio_ok (virtio_reset d).
Proof.
  intros (Hl & Hs & Hq & Hi & Hst & Hf & Hc). unfold virtio_ok, virtio_reset. vsimpl.
  rewrite length_fmap. split; [done|]. split; [unfold MAX_QUEUE; lia|]. split; [|unfold fits; repeat split; lia || apply Hc].
  apply Forall_fmap. eapply Forall_impl; [done|]. apply reset_queue_ok.
Qed.

Lemma poke_fits buf pos l : Forall (fits 8) buf -> Forall (fits 8) l -> Forall (fits 8) (poke buf pos l).
Proof.
  apply Forall_inserts.
Qed.

Lemma le_list_fits n v : Forall (fits 8) (le_list n v).
Proof. revert v. induction n; intros v; cbn [le_list]; constructor; auto with width. Qed.

#[export] Hint Resolve poke_fits le_list_fits : width.

(** The parts of a device that a write may change. *)
Lemma virtio_ok_config d c :
  virtio_ok d -> length c = length (config_space d) -> Forall (fits 8) c ->
  virtio_ok (d <| config_space := c |>).
Proof.
  intros (? & ? & ? & ? & ? & ? & ? & Hl & ?) Hc Hf. unfold virtio_ok. vsimpl.
  rewrite Hc. by repeat (split; [done|]).
Qed.

Lemma virtio_ok_int d v : virtio_ok d -> fits 32 v -> virtio_ok (d <| int_status := v |>).
Proof. intros (? & ? & ? & ? & ?) Hv. unfold virtio_ok. vsimpl. done. Qed.

Lemma virtio_ok_status d v : virtio_ok d -> fits 32 v -> virtio_ok (d <| vstatus := v |>).
Proof. intros (? & ? & ? & ? & ? & ?) Hv. unfold virtio_ok. vsimpl. done. Qed.

Lemma virtio_ok_queue d i f :
  virtio_ok d -> (forall q, queue_ok q -> queue_ok (f q)) -> virtio_ok (d <| queue ::= alter f i |>).
Proof.
  intros (Hl & ? & Hq & Hrest) Hf. unfold virtio_ok. vsimpl. rewrite length_alter.
  split; [done|]. split; [done|]. split; [|done].
  apply Forall_alter; auto.
Qed.

Ltac queue_field := intros [] (? & ? & ? & ? & ? & ?); unfold queue_ok in *; vsimpl;
  repeat (split; [first [done|by apply set_low32_fits|by apply set_high32_fits|by apply power_of_two]|]);
  first [done|by apply set_low32_fits|by apply set_high32_fits].

Lemma virtio_init_ok id sz : 4 <= sz <= MAX_CONFIG_SPACE_SIZE -> virtio_ok (virtio_init id sz).
Proof.
  intros Hsz. unfold virtio_init, virtio_reset, virtio_ok. vsimpl.
  rewrite length_fmap, !length_replicate. split; [done|]. split; [unfold MAX_QUEUE; lia|]. split.
  - apply Forall_fmap, Forall_replicate. split; [unfold fits; cbn; lia|]. split; [by exists 4|].
    unfold fits. cbn. repeat split; lia.
  - do 3 (split; [unfold fits; lia|]). split; [done|]. split; [done|].
    apply Forall_replicate. unfold fits. lia.
Qed.

Lemma manual0_ok d : virtio_ok d -> virtio_ok (manual0 d).
Proof. intros Hok. apply virtio_ok_queue; [done|]. by intros []. Qed.

Section Preserve.
Context {B X : Type} `{BusLaws B} (stack_desc : VIRTIODesc).
Implicit Types s : vstate B X.

(** Memory accesses change the bus only. *)
Definition same_device s s' : Prop := vdev s' = vdev s /\ vx s' = vx s.

Lemma copy_loop_device fuel s q t d off buf pos n r :
  copy_loop fuel s q t d off buf pos n = Done r -> same_device s r.2.
Proof.
  revert s d off buf pos n. induction fuel as [|fuel IH]; intros s d off buf pos n; cbn [copy_loop]; [done|].
  destruct (_ && _); [done|].
  set (st := if t then _ else _). assert (same_device s st.2) as Hst.
  { unfold st, virtio_memcpy_to_ram. destruct t; [by destruct (to_ram_loop _ _ _ _ _ _)|done]. }
  destruct st as [buf' s']. cbn [snd] in Hst.
  assert (forall d off pos n, copy_loop fuel s' q t d off buf' pos n = Done r -> same_device s r.2) as Hrec.
  { intros ? ? ? ? Hr. apply IH in Hr. destruct Hr, Hst. split; congruence. }
  repeat case_match; intros Hr; try (injection Hr as <-; exact Hst); by eapply Hrec.
Qed.

Lemma memcpy_device fuel s buf q i off n t r :
  memcpy_to_from_queue stack_desc fuel s buf q i off n t = Done r -> same_device s r.2.
Proof.
  unfold memcpy_to_from_queue. destruct (n =? 0); [intros [= <-]; done|].
  set (found := if t then _ else _). destruct found as [[d|]| |]; cbn [rbind]; try done;
    [|intros [= <-]; done].
  destruct (find_offset _ _ _ _ _ _) as [[[d' off']|]| |]; cbn [rbind]; try done; [|intros [= <-]; done].
  apply copy_loop_device.
Qed.

Lemma memcpy_to_queue_device fuel s q i off buf n r s' :
  memcpy_to_queue stack_desc fuel s q i off buf n = Done (r, s') -> same_device s s'.
Proof.
  unfold memcpy_to_queue. destruct (memcpy_to_from_queue _ _ _ _ _ _ _ _ _) as [[[r' buf'] s'']| |] eqn:E;
    cbn [rbind]; try done. intros [= <- <-]. by apply memcpy_device in E.
Qed.

Lemma write16_vdev s a v : vdev (virtio_write16 s a v) = vdev s.
Proof. unfold virtio_write16. by repeat case_match. Qed.

Lemma write32_vdev s a v : vdev (virtio_write32 s a v) = vdev s.
Proof. unfold virtio_write32. by repeat case_match. Qed.

Lemma consume_desc_ok s q i n : virtio_ok (vdev s) -> virtio_ok (vdev (virtio_consume_desc s q i n)).
Proof.
  intros Hok. unfold virtio_consume_desc. cbv zeta. vsimpl. rewrite !write32_vdev, write16_vdev.
  apply (virtio_ok_int _ (_ .| 1) Hok). apply fits_lor; [lia|apply Hok|unfold fits; lia].
Qed.

Lemma set_queue_ok s i f :
  (forall q, queue_ok q -> queue_ok (f q)) -> virtio_ok (vdev s) -> virtio_ok (vdev (set_queue s i f)).
Proof. intros Hf Hok. by apply virtio_ok_queue. Qed.

Lemma next_avail_ok s q : virtio_ok (vdev s) -> virtio_ok (vdev (next_avail s q)).
Proof.
  apply set_queue_ok. intros [] (? & ? & ? & ?). unfold queue_ok in *. vsimpl.
  split; [done|]. split; [done|]. split; [width|done].
Qed.

Context (hs : Handlers B X) `{!HandlersOk hs}.

Lemma notify_loop_ok n fuel s q j s' :
  virtio_ok (vdev s) -> notify_loop stack_desc hs n fuel s q j = Done s' -> virtio_ok (vdev s').
Proof.
  revert s. induction n as [|n IH]; intros s Hok; cbn [notify_loop]; [done|].
  destruct (_ =? j); [by intros [= <-]|].
  destruct (get_desc_rw_size _ _ _ _ _) as [[[r w]|]| |]; cbn [rbind]; try done; [|apply IH, next_avail_ok, Hok].
  destruct (device_recv hs fuel s q _ r w) as [[x s1]| |] eqn:E; cbn [rbind]; try done.
  pose proof (recv_ok _ _ _ _ _ _ _ _ Hok E) as Hok1.
  destruct (x <? 0); [by intros [= <-]|]. apply IH, next_avail_ok, Hok1.
Qed.

Lemma queue_notify_ok fuel s q s' :
  virtio_ok (vdev s) -> queue_notify stack_desc hs fuel s q = Done s' -> virtio_ok (vdev s').
Proof.
  intros Hok. unfold queue_notify. destruct (manual_recv _); [by intros [= <-]|]. by apply notify_loop_ok.
Qed.

Lemma put_config_ok s c :
  virtio_ok (vdev s) -> length c = length (config_space (vdev s)) -> Forall (fits 8) c ->
  virtio_ok (vdev (put_config hs s c)).
Proof.
  intros Hok Hl Hc. unfold put_config. destruct (config_write hs) eqn:E; [eapply config_write_ok; [done|]|];
    by apply virtio_ok_config.
Qed.

Lemma config_write_reg_ok s off v sz :
  virtio_ok (vdev s) -> virtio_ok (vdev (virtio_config_write hs s off v sz)).
Proof.
  intros Hok. assert (Forall (fits 8) (config_space (vdev s))) by apply Hok.
  unfold virtio_config_write, put_le16, put_le32.
  repeat case_match; try done; apply put_config_ok; rewrite ?length_poke; auto with width.
Qed.

Lemma set_sel_ok s f :
  (forall q, queue_ok q -> queue_ok (f q)) -> virtio_ok (vdev s) -> virtio_ok (vdev (set_sel s f)).
Proof. apply set_queue_ok. Qed.

Lemma write_status_ok s v : fits 32 v -> virtio_ok (vdev s) -> virtio_ok (vdev (write_status s v)).
Proof.
  intros Hv Hok. unfold write_status. destruct (v =? 0); vsimpl; [apply virtio_reset_ok|];
    by apply virtio_ok_status.
Qed.

Lemma write_num_ok s v : fits 32 v -> virtio_ok (vdev s) -> virtio_ok (vdev (write_num s v)).
Proof.
  intros Hv Hok. unfold write_num. destruct (_ && _) eqn:E; [|done].
  apply andb_true_iff in E as [E%Z.eqb_eq Hp%Z.ltb_lt]. apply set_sel_ok; [|done]. queue_field.
Qed.

Lemma write_queue_sel_ok s v : fits 32 v -> virtio_ok (vdev s) -> virtio_ok (vdev (write_queue_sel s v)).
Proof.
  intros [Hv _] Hok. unfold write_queue_sel. destruct (Z.ltb_spec v MAX_QUEUE); [|done].
  destruct Hok as (? & _ & Hrest). split; [done|]. split; [vsimpl; lia|done].
Qed.

Lemma features_sel_ok s v :
  fits 32 v -> virtio_ok (vdev s) ->
  virtio_ok (vdev (s <| vdev ::= fun d => d <| device_features_sel := v |> |>)).
Proof. intros Hv (? & ? & ? & ? & ? & _ & ?). unfold virtio_ok. vsimpl. done. Qed.

Lemma set_ready_ok v q : queue_ok q -> queue_ok (q <| ready := v .& 1 |>).
Proof.
  intros (_ & Hrest). split; [|exact Hrest]. vsimpl. apply fits_land_r; [lia|unfold fits; lia].
Qed.

End Preserve.

(** ** The device models *)

Section Models.
Context {B : Type} `{BusLaws B} (stack_desc : VIRTIODesc) (malloc : Z -> list Z).

Lemma same_device_ok {X} (s s' : vstate B X) : same_device s s' -> virtio_ok (vdev s) -> virtio_ok (vdev s').
Proof. by intros [-> _]. Qed.

Lemma block_finish_ok {BS} fuel (s : vstate B (VIRTIOBlockDevice BS)) ret x s' :
  virtio_ok (vdev s) -> block_finish stack_desc fuel s ret = Done (x, s') -> virtio_ok (vdev s').
Proof.
  intros Hok. unfold block_finish. destruct (0 <? ret); [by intros [= _ <-]|].
  unfold virtio_block_req_end. cbv zeta.
  destruct (req_type _ =? _); [destruct (in_buf _ _ _)|destruct (req_type _ =? _)]; try done;
    (destruct (memcpy_to_queue _ _ _ _ _ _ _ _) as [[r s1]| |] eqn:E; cbn [rbind]; try done;
     intros [= _ <-]; apply consume_desc_ok; eapply same_device_ok; [by eapply memcpy_to_queue_device|done]).
Qed.

#[export] Instance block_handlers_ok {BS} (ops : BlockDevice BS) :
  HandlersOk (block_handlers (B := B) stack_desc malloc ops).
Proof.
  split; [|done]. intros fuel s q i r w x s' Hok. cbn [device_recv block_handlers].
  unfold virtio_block_recv_request. cbv zeta. destruct (req_in_progress _); [by intros [= _ <-]|].
  destruct (memcpy_from_queue _ _ _ _ _ _ _ _) as [[r1 h]| |]; cbn [rbind]; try done.
  destruct (r1 <? 0); [by intros [= _ <-]|].
  destruct (h_type h =? VIRTIO_BLK_T_IN).
  - destruct (read_async _ _ _ _ _) as [[[ret buf] bs']| |]; cbn [rbind]; try done. by apply block_finish_ok.
  - destruct (h_type h =? VIRTIO_BLK_T_OUT); [|by intros [= _ <-]]. destruct (1 <=? w); [|done].
    destruct (memcpy_from_queue _ _ _ _ _ _ _ _) as [[r2 buf]| |]; cbn [rbind]; try done.
    destruct (write_async _ _ _ _ _) as [[ret bs']| |]; cbn [rbind]; try done. by apply block_finish_ok.
Qed.

#[export] Instance net_handlers_ok : HandlersOk (net_handlers (B := B) stack_desc malloc).
Proof.
  split; [|done]. intros fuel s q i r w x s' Hok. cbn [device_recv net_handlers].
  unfold virtio_net_recv_request. cbv zeta. destruct (q =? 1); [|by intros [= _ <-]].
  destruct (memcpy_from_queue _ _ _ _ _ _ _ _) as [[r1 h]| |]; cbn [rbind]; try done.
  destruct (r1 <? 0); [by intros [= _ <-]|].
  destruct (memcpy_from_queue _ _ _ _ _ _ _ _) as [[r2 buf]| |]; cbn [rbind]; try done.
  intros [= _ <-]. by apply consume_desc_ok.
Qed.

#[export] Instance console_handlers_ok : HandlersOk (console_handlers (B := B) stack_desc malloc).
Proof.
  split; [|done]. intros fuel s q i r w x s' Hok. cbn [device_recv console_handlers].
  unfold virtio_console_recv_request. destruct (q =? 1); [|by intros [= _ <-]].
  destruct (r <? 0); [done|].
  destruct (memcpy_from_queue _ _ _ _ _ _ _ _) as [[r2 buf]| |]; cbn [rbind]; try done.
  intros [= _ <-]. by apply consume_desc_ok.
Qed.

Lemma set_bit_ok c k : Forall (fits 8) c -> Forall (fits 8) (set_bit c k) /\ length (set_bit c k) = length c.
Proof. intros. unfold set_bit. split; [|apply length_poke]. apply poke_fits; [done|]. apply Forall_singleton. width. Qed.

Lemma bitmap_ok c n ks :
  Forall (fits 8) c -> fits 8 n -> Forall (fits 8) (bitmap c n ks) /\ length (bitmap c n ks) = length c.
Proof.
  intros Hc Hn. unfold bitmap. set (c0 := poke (poke c 2 [n]) 8 _).
  assert (Forall (fits 8) c0 /\ length c0 = length c) as H0'.
  { unfold c0. rewrite !length_poke. split; [|done]. apply poke_fits; [apply poke_fits; auto|].
    apply Forall_replicate. unfold fits. lia. }
  clearbody c0. revert c0 H0'. induction ks as [|k ks IH]; intros c0 [Hf Hl]; [done|]. cbn [foldl].
  apply IH. destruct (set_bit_ok c0 k Hf) as [? ->]. done.
Qed.

Lemma input_name_ok t :
  Forall (fits 8) (input_name t) /\ fits 8 (Z.of_nat (length (input_name t))).
Proof. destruct t; vm_compute; repeat constructor; discriminate. Qed.

Lemma input_config_ok (s : vstate B VIRTIOInputDevice) :
  virtio_ok (vdev s) -> virtio_ok (vdev (virtio_input_config_write s)).
Proof.
  intros Hok. assert (Forall (fits 8) (config_space (vdev s))) as Hc by apply Hok.
  unfold virtio_input_config_write. cbv zeta. vsimpl.
  set (c := if _ =? VIRTIO_INPUT_CFG_UNSET then _ else _).
  enough (Forall (fits 8) c /\ length c = length (config_space (vdev s))) as [? ?] by by apply virtio_ok_config.
  unfold c, input_ev_bits, put_le32. clear c.
  assert (forall v, fits 8 v -> Forall (fits 8) [v]) as H1 by (intros; by apply Forall_singleton).
  repeat case_match; rewrite ?length_poke; try done;
    try (apply bitmap_ok || (rewrite <- (length_poke (config_space (vdev s)) 2 [0]); apply bitmap_ok));
    try split; repeat first [done|apply poke_fits|apply le_list_fits|apply H1|unfold fits; lia];
    first [apply input_name_ok|apply Forall_replicate; unfold fits; lia].
Qed.

#[export] Instance input_handlers_ok : HandlersOk (input_handlers (B := B)).
Proof.
  split.
  - intros fuel s q i r w x s' Hok. cbn [device_recv input_handlers]. unfold virtio_input_recv_request.
    intros [= _ <-]. destruct (q =? 1); [by apply consume_desc_ok|done].
  - intros f s [= <-]. apply input_config_ok.
Qed.

(** The devices start well formed. *)
Lemma virtio_ok_features d f : virtio_ok d -> virtio_ok (d <| device_features := f |>).
Proof. intros (? & ? & ? & ? & ? & ? & ?). unfold virtio_ok. vsimpl. done. Qed.

Lemma net_init_ok (b : B) mac : Forall (fits 8) mac -> virtio_ok (vdev (virtio_net_init b mac)).
Proof.
  intros Hmac. apply manual0_ok.
  assert (virtio_ok ((virtio_init 1 8) <| device_features := 1 << 5 |>)) as Hok
    by (apply virtio_ok_features, virtio_init_ok; unfold MAX_CONFIG_SPACE_SIZE; lia).
  apply (virtio_ok_config _ _ Hok); rewrite ?length_poke; [done|].
  apply poke_fits; [apply poke_fits; [apply Hok|by apply Forall_take]|].
  repeat (apply Forall_cons_2; [unfold fits; lia|]). apply Forall_nil_2.
Qed.

Lemma block_init_ok {BS} (ops : BlockDevice BS) (b : B) x : virtio_ok (vdev (virtio_block_init ops b x)).
Proof.
  assert (virtio_ok (virtio_init 2 8)) as Hok by (apply virtio_init_ok; unfold MAX_CONFIG_SPACE_SIZE; lia).
  apply (virtio_ok_config _ _ Hok); unfold put_le32; rewrite ?length_poke; [done|].
  apply poke_fits; [apply poke_fits; [apply Hok|]|]; apply le_list_fits.
Qed.

Lemma console_init_ok (b : B) : virtio_ok (vdev (virtio_console_init b)).
Proof.
  apply manual0_ok, virtio_ok_features, virtio_init_ok. unfold MAX_CONFIG_SPACE_SIZE. lia.
Qed.

Lemma input_init_ok (b : B) t : virtio_ok (vdev (virtio_input_init b t)).
Proof. apply manual0_ok, virtio_init_ok. unfold MAX_CONFIG_SPACE_SIZE. lia. Qed.
End Models.

(** ** Queue addresses

    The registers of the three rings: low half, high half, and the field. *)

Definition addr_regs : list (Z * Z * (QueueState -> Z)) :=
  [(VIRTIO_MMIO_QUEUE_DESC_LOW, VIRTIO_MMIO_QUEUE_DESC_HIGH, desc_addr);
   (VIRTIO_MMIO_QUEUE_AVAIL_LOW, VIRTIO_MMIO_QUEUE_AVAIL_HIGH, avail_addr);
   (VIRTIO_MMIO_QUEUE_USED_LOW, VIRTIO_MMIO_QUEUE_USED_HIGH, used_addr)].

Lemma halves_low a lo hi : fits 32 lo -> u32 (set_high32 (set_low32 a lo) hi) = lo.
Proof.
  intros Hlo. rewrite <- (trunc_small 32 lo Hlo) at 2. unfold set_high32, set_low32.
  change 0xffffffff with (Z.ones 32). bits_ext i.
  destruct (Z.ltb_spec i 32); [|done]. rewrite (Z.testbit_neg_r hi) by lia.
  cbn. by rewrite andb_false_r, andb_true_r, orb_false_r.
Qed.

Lemma halves_high a lo hi : fits 32 lo -> fits 32 hi -> u32 (set_high32 (set_low32 a lo) hi >> 32) = hi.
Proof.
  intros Hlo Hhi. rewrite <- (trunc_small 32 hi Hhi) at 2. unfold set_high32, set_low32.
  change 0xffffffff with (Z.ones 32). bits_ext i.
  replace (i + 32 <? 32) with false by (symmetry; apply Z.ltb_ge; lia).
  rewrite andb_false_r. replace (i + 32 - 32) with i by lia. done.
Qed.

Lemma halves_value a lo hi :
  fits 64 a -> fits 32 lo -> fits 32 hi -> set_high32 (set_low32 a lo) hi = hi * 2 ^ 32 + lo.
Proof.
  intros Ha Hlo Hhi. set (v := set_high32 (set_low32 a lo) hi).
  assert (fits 64 v) as Hv by (apply set_high32_fits; [by apply set_low32_fits|done]).
  pose proof (halves_low a lo hi Hlo) as El. pose proof (halves_high a lo hi Hlo Hhi) as Eh. fold v in El, Eh.
  rewrite trunc_small in Eh by (apply (fits_shiftr_sub 64 32); [lia|done]).
  rewrite Z.shiftr_div_pow2 in Eh by lia. unfold trunc in El.
  pose proof (Z.div_mod v (2 ^ 32) ltac:(lia)). lia.
Qed.

Lemma sel_set_sel {B X} (s : vstate B X) f :
  virtio_ok (vdev s) -> sel (set_sel s f) = f (sel s).
Proof.
  intros (Hl & Hs & _). unfold sel, set_sel, set_queue, queue_at. vsimpl.
  destruct (lookup_lt_is_Some_2 (queue (vdev s)) (Z.to_nat (queue_sel (vdev s)))) as [q Hq].
  { rewrite Hl. unfold MAX_QUEUE in *. lia. }
  by rewrite !nth_lookup, list_lookup_alter_eq, Hq.
Qed.

(** A driver that writes the two halves of a ring address reads them back, and
    the queue uses exactly the 64-bit address they make up. *)
Lemma queue_address_roundtrip {B X} `{BusLaws B} stack_desc (hs : Handlers B X) fuel s lo_reg hi_reg field lo hi :
  In (lo_reg, hi_reg, field) addr_regs -> virtio_ok (vdev s) -> fits 32 lo -> fits 32 hi ->
  exists s1 s2,
    virtio_mmio_write stack_desc hs fuel s lo_reg lo 2 = Done s1 /\
    virtio_mmio_write stack_desc hs fuel s1 hi_reg hi 2 = Done s2 /\
    virtio_mmio_read s2 lo_reg 2 = Done lo /\ virtio_mmio_read s2 hi_reg 2 = Done hi /\
    field (sel s2) = hi * 2 ^ 32 + lo.
Proof.
  intros Hin Hok Hlo Hhi. unfold virtio_mmio_write, virtio_mmio_read.
  assert (queue_ok (sel s)) as (_ & _ & _ & Hd & Ha & Hu).
  { destruct Hok as (Hl & Hs & Hq & _). unfold sel, queue_at. apply Forall_nth; [done|].
    rewrite Hl. unfold MAX_QUEUE in *. lia. }
  destruct Hin as [E|[E|[E|[]]]]; injection E as <- <- <-; cbn;
    (do 2 eexists; split; [reflexivity|]; split; [reflexivity|]);
    (rewrite !sel_set_sel by (try apply set_sel_ok; try done; queue_field));
    vsimpl; rewrite halves_low, halves_high, halves_value by done; done.
Qed.
