(* ===== verification/VirtioBus.v ===== *)
(** * The virtio bus of the machine

    [virt_machine_init] connects a virtio device to the memory map and to a line
    of the PLIC: this is the instance of [Bus] that the transport runs on.  Page
    aligned memory ranges give the mapping that the copy loops rely on. *)

From S2P Require Import Prelude Iomem Cpu Machine Platform Virtio Virtqueue UsedRing.

(** [vbus->mem_map] and [vbus->irq]. *)
Record mmio_bus := mkBus { bm : machine; birq : Z }.

#[export] Instance mmio_bus_ops : Bus mmio_bus := {
  get_ram_ptr b a := virtio_mmio_get_ram_ptr (mem_map (bm b)) a;
  ram b := host (bm b);
  set_ram b h := mkBus ((bm b) <| host := h |>) (birq b);
  set_irq b l := mkBus (plic_set_irq (bm b) (birq b) l) (birq b)
}.

(** The PLIC does not touch memory. *)
Definition memory_of (m : machine) : PhysMemoryMap * hostmem := (mem_map m, host m).

Lemma memory_set_hart (m : machine) i c : memory_of (set_hart m i c) = memory_of m.
Proof. unfold set_hart. by destruct (Nat.eqb i (hartid m)). Qed.

Lemma memory_update_ctx k m c : memory_of (plic_update_ctx k m c) = memory_of m.
Proof. unfold plic_update_ctx, raise_mip, lower_mip. repeat case_match; by rewrite ?memory_set_hart. Qed.

Lemma memory_plic_set_irq m irq l : memory_of (plic_set_irq m irq l) = memory_of m.
Proof.
  unfold plic_set_irq.
  assert (forall ks m0, memory_of (foldl plic_update_mip m0 ks) = memory_of m0) as Hf.
  { induction ks as [|k ks IH]; intros m0; cbn [foldl]; [done|]. rewrite IH.
    unfold plic_update_mip. destruct (k <? ncpus m0)%nat; [|done]. cbn [foldl].
    by rewrite !memory_update_ctx. }
  rewrite Hf. by destruct (nz l).
Qed.

#[export] Instance mmio_bus_laws : BusLaws mmio_bus.
Proof.
  split; [done|done| |]; intros b l.
  - exact (f_equal snd (memory_plic_set_irq (bm b) (birq b) l)).
  - intros a. assert (mem_map (plic_set_irq (bm b) (birq b) l) = mem_map (bm b)) as E
      by exact (f_equal fst (memory_plic_set_irq (bm b) (birq b) l)).
    exact (f_equal (fun m => virtio_mmio_get_ram_ptr m a) E).
Qed.

(** ** Page alignment *)

Definition page_aligned (pr : PhysMemoryRange) : Prop :=
  0 <= pr_addr pr /\ 0 <= pr_size pr /\ pr_addr pr + pr_size pr < 2 ^ 64 /\
  pr_addr pr mod VIRTIO_PAGE_SIZE = 0 /\ pr_size pr mod VIRTIO_PAGE_SIZE = 0.

Lemma aligned_le a b i :
  a mod 4096 = 0 -> 0 <= i < 4096 - b mod 4096 -> (a <=? b + i) = (a <=? b).
Proof.
  intros Ha Hi. pose proof (Z.div_mod a 4096 ltac:(lia)). pose proof (Z.div_mod b 4096 ltac:(lia)).
  pose proof (Z.mod_pos_bound b 4096 ltac:(lia)).
  destruct (Z.leb_spec a (b + i)), (Z.leb_spec a b); try done; nia.
Qed.

Lemma range_has_same_page pr a i :
  page_aligned pr -> 0 <= i < VIRTIO_PAGE_SIZE - a mod VIRTIO_PAGE_SIZE ->
  range_has pr (a + i) = range_has pr a.
Proof.
  unfold VIRTIO_PAGE_SIZE. intros (H0 & H1 & H2 & H3 & H4) Hi. unfold VIRTIO_PAGE_SIZE in *.
  unfold range_has. rewrite trunc_small by (unfold fits; lia). rewrite aligned_le by done. f_equal.
  rewrite !Z.ltb_antisym, aligned_le; [done| |done].
  by rewrite Z.add_mod, H3, H4 by lia.
Qed.

Lemma page_mapped_aligned b : Forall page_aligned (mem_map (bm b)) -> page_mapped b.
Proof.
  intros Hall a p i Hp Hi. unfold get_ram_ptr, mmio_bus_ops, virtio_mmio_get_ram_ptr in *.
  assert (get_phys_mem_range (mem_map (bm b)) (a + i) = get_phys_mem_range (mem_map (bm b)) a) as ->.
  { unfold get_phys_mem_range. induction (length _) as [|n IH]; [done|]. cbn [get_range_loop].
    destruct (mem_map (bm b) !! n) as [pr|] eqn:E; [|done].
    rewrite range_has_same_page by (done || by eapply Forall_lookup_1). by rewrite IH. }
  destruct (get_phys_mem_range _ a) as [[k pr]|]; [|done]. destruct (is_ram pr); [|done].
  injection Hp as <-. f_equal. lia.
Qed.

Section Page.
Context {B : Type} `{BusLaws B} (b : B) (a p : Z).
Hypothesis (Hpm : page_mapped b) (Ha : 0 <= a) (Hp : get_ram_ptr b a = Some p).

Lemma mapped_in_page n :
  n <= VIRTIO_PAGE_SIZE - a mod VIRTIO_PAGE_SIZE -> a + n <= 2 ^ 64 -> mapped b a p n.
Proof. intros Hn Hb. split; [done|]. split; [done|]. intros i Hi. apply Hpm; [done|lia]. Qed.

Lemma reads_in_page (U : Z -> Prop) l :
  read_bytes (ram b) p (Z.of_nat (length l)) = l ->
  Z.of_nat (length l) <= VIRTIO_PAGE_SIZE - a mod VIRTIO_PAGE_SIZE ->
  a + Z.of_nat (length l) <= 2 ^ 64 ->
  (forall i, 0 <= i < Z.of_nat (length l) -> ~ U (p + i)) -> reads U b a l.
Proof.
  intros Hl Hn Hb HU. split; [done|]. split; [done|]. intros i x Hi.
  pose proof (lookup_lt_Some _ _ _ Hi). exists (p + Z.of_nat i). split; [apply Hpm; [done|lia]|].
  split; [|apply HU; lia]. rewrite <- Hl in Hi. by apply lookup_read_bytes in Hi as [_ ->].
Qed.
End Page.
