(* ===== verification/BlockFile.v ===== *)
(** * Snapshot disks

    In snapshot mode a disk image is never written: the sectors the guest writes
    are kept in [sector_table].  [disk] is the guest's view, an array of sectors,
    and the two operations implement array update and array reads. *)

From S2P Require Import Prelude Iomem Cpu Virtio VirtioDev Virtqueue.

(** A snapshot disk: one table entry per sector, whole sectors only, and a file
    that has them all. *)
Definition snapshot_ok (bf : BlockDeviceFile) : Prop :=
  mode bf = BF_MODE_SNAPSHOT /\ Z.of_nat (length (sector_table bf)) = nb_sectors bf /\
  nb_sectors bf < 2 ^ 32 /\ nb_sectors bf * SECTOR_SIZE <= Z.of_nat (length (bf_f bf)) /\
  forall i d, sector_table bf !! i = Some (Some d) -> Z.of_nat (length d) = SECTOR_SIZE.

(** Sector [i], as the guest sees it. *)
Definition disk (bf : BlockDeviceFile) (i : Z) : list Z :=
  match sector_table bf !! Z.to_nat i with
  | Some (Some d) => d
  | _ => peek (bf_f bf) (i * SECTOR_SIZE) SECTOR_SIZE
  end.

(** The same disk at another file position. *)
Definition same_disk (bf bf' : BlockDeviceFile) : Prop :=
  bf_f bf' = bf_f bf /\ nb_sectors bf' = nb_sectors bf /\ mode bf' = mode bf /\
  sector_table bf' = sector_table bf.

Lemma snapshot_disk_length bf i :
  snapshot_ok bf -> 0 <= i < nb_sectors bf -> Z.of_nat (length (disk bf i)) = SECTOR_SIZE.
Proof.
  intros (_ & Hl & _ & Hf & Hd) Hi. unfold disk, SECTOR_SIZE in *.
  destruct (sector_table bf !! Z.to_nat i) as [[d|]|] eqn:E; [by eapply Hd| |]; apply length_peek; lia.
Qed.

(** One sector of the read loop, whether it comes from the table or the file. *)
Lemma bf_read_step n bf i buf pos :
  snapshot_ok bf -> 0 <= i < nb_sectors bf ->
  exists bf', same_disk bf bf' /\
    bf_read_loop (S n) bf i buf pos = bf_read_loop n bf' (i + 1) (poke buf pos (disk bf i)) (pos + SECTOR_SIZE).
Proof.
  intros Hok Hi. pose proof (snapshot_disk_length bf i Hok Hi) as Hdl.
  destruct Hok as (Hm & Hl & Hn & Hf & Hd). cbn [bf_read_loop]. unfold disk in *.
  destruct (lookup_lt_is_Some_2 (sector_table bf) (Z.to_nat i)) as [e He]; [lia|].
  rewrite He in *. rewrite (trunc_small 64 (i + 1)) by (unfold fits; lia).
  destruct e as [d|]; [by exists bf|]. unfold bf_fread, bf_seek, SECTOR_SIZE in *.
  rewrite (trunc_small 64 (i * 512)) by (unfold fits; lia).
  destruct (Z.ltb_spec (i * 512) (2 ^ 63)); [|lia]. cbn [upd upd_bf_pos bf_f bf_pos].
  rewrite Hdl, Z.eqb_refl. eexists. split; [|reflexivity]. done.
Qed.

Lemma same_disk_ok bf bf' : same_disk bf bf' -> snapshot_ok bf -> snapshot_ok bf'.
Proof. intros (Ef & En & Em & Et). unfold snapshot_ok. by rewrite Ef, En, Em, Et. Qed.

Lemma same_disk_disk bf bf' i : same_disk bf bf' -> disk bf' i = disk bf i.
Proof. intros (Ef & En & Em & Et). unfold disk. by rewrite Ef, Et. Qed.

Lemma bf_read_loop_spec n bf i buf pos :
  snapshot_ok bf -> 0 <= i -> 0 <= pos -> i + Z.of_nat n <= nb_sectors bf ->
  exists bf', same_disk bf bf' /\
    bf_read_loop n bf i buf pos = Done (poke buf pos (mjoin (disk bf <$> seqZ i (Z.of_nat n))), bf').
Proof.
  revert bf i buf pos. induction n as [|n IH]; intros bf i buf pos Hok Hi Hpos Hn.
  { exists bf. split; [done|]. done. }
  destruct (bf_read_step n bf i buf pos Hok ltac:(lia)) as (bf1 & Hs & ->).
  destruct (IH bf1 (i + 1) (poke buf pos (disk bf i)) (pos + SECTOR_SIZE)) as (bf' & Hs' & ->);
    [by eapply same_disk_ok|lia|unfold SECTOR_SIZE; lia|destruct Hs as (_ & -> & _); lia|].
  exists bf'. split.
  { destruct Hs as (? & ? & ? & ?), Hs' as (? & ? & ? & ?). repeat split; congruence. }
  replace (disk bf1 <$> seqZ (i + 1) (Z.of_nat n)) with (disk bf <$> seqZ (i + 1) (Z.of_nat n))
    by (apply list_fmap_ext; intros; symmetry; by apply same_disk_disk).
  rewrite (seqZ_cons i) by lia. replace (Z.pred (Z.of_nat (S n))) with (Z.of_nat n) by lia.
  change (Z.succ i) with (i + 1). cbn [fmap list_fmap]. change (mjoin (?x :: ?l)) with (x ++ mjoin l).
  rewrite <- (snapshot_disk_length bf i Hok), poke_app by lia. done.
Qed.

Lemma bf_write_loop_spec n bf i buf pos :
  snapshot_ok bf -> 0 <= i -> 0 <= pos -> i + Z.of_nat n <= nb_sectors bf ->
  pos + Z.of_nat n * SECTOR_SIZE <= Z.of_nat (length buf) ->
  exists bf', bf_write_loop n bf i buf pos = Done bf' /\ snapshot_ok bf' /\ bf_f bf' = bf_f bf /\
    nb_sectors bf' = nb_sectors bf /\
    forall j, 0 <= j -> disk bf' j = if (i <=? j) && (j <? i + Z.of_nat n)
                                     then peek buf (pos + (j - i) * SECTOR_SIZE) SECTOR_SIZE
                                     else disk bf j.
Proof.
  revert bf i pos. induction n as [|n IH]; intros bf i pos Hok Hi Hpos Hn Hbuf; cbn [bf_write_loop].
  - exists bf. do 4 (split; [done|]). intros j Hj.
    destruct (Z.leb_spec i j), (Z.ltb_spec j (i + Z.of_nat 0)); done || lia.
  - destruct Hok as (Hm & Hl & Hns & Hf & Hd).
    destruct (lookup_lt_is_Some_2 (sector_table bf) (Z.to_nat i)) as [e He]; [lia|]. rewrite He.
    rewrite (trunc_small 64 (i + 1)) by (unfold fits; lia). set (d := peek buf pos SECTOR_SIZE).
    assert (Z.of_nat (length d) = SECTOR_SIZE) as Hdl by (apply length_peek; unfold SECTOR_SIZE in *; lia).
    set (bf1 := bf <| sector_table ::= _ |>).
    destruct (IH bf1 (i + 1) (pos + SECTOR_SIZE)) as (bf' & -> & Hok' & Ef & En & Hdisk);
      [|lia|unfold SECTOR_SIZE; lia|cbn; lia|unfold SECTOR_SIZE in *; lia|].
    { split; [done|]. cbn. rewrite length_insert. do 3 (split; [done|]). intros k d'.
      rewrite list_lookup_insert_Some. intros [(_ & [= <-] & _)|[_ Hk]]; [done|by eapply Hd]. }
    exists bf'. do 4 (split; [done|]). intros j Hj. rewrite Hdisk by done.
    assert (disk bf1 j = if j =? i then d else disk bf j) as ->.
    { unfold disk. cbn. destruct (Z.eqb_spec j i) as [->|]; [by rewrite list_lookup_insert_eq by lia|].
      by rewrite list_lookup_insert_ne by lia. }
    destruct (Z.leb_spec (i + 1) j), (Z.ltb_spec j (i + 1 + Z.of_nat n)), (Z.leb_spec i j),
      (Z.ltb_spec j (i + Z.of_nat (S n))), (Z.eqb_spec j i); cbn; try lia; try done.
    + f_equal. lia.
    + subst j. unfold d. f_equal. lia.
Qed.

(** C22 A snapshot disk is an array of sectors that the guest can write and read
    back while the image file stays as it is: a write in range updates exactly the
    sectors it names, and a read in range returns the current contents of its
    sectors and changes none. *)
Theorem snapshot_refines_array bf i buf n :
  snapshot_ok bf -> 0 <= i -> 0 <= n -> i + n <= nb_sectors bf -> n * SECTOR_SIZE <= Z.of_nat (length buf) ->
  (exists bf', bf_write_async bf i buf n = Done (0, bf') /\ snapshot_ok bf' /\ bf_f bf' = bf_f bf /\
     forall j, 0 <= j -> disk bf' j = if (i <=? j) && (j <? i + n)
                                      then peek buf ((j - i) * SECTOR_SIZE) SECTOR_SIZE else disk bf j) /\
  (exists bf', bf_read_async bf i buf n = Done (0, poke buf 0 (mjoin (disk bf <$> seqZ i n)), bf') /\
     snapshot_ok bf' /\ forall j, disk bf' j = disk bf j).
Proof.
  intros Hok Hi Hn Hin Hbuf. unfold bf_write_async, bf_read_async. destruct (Hok) as (-> & _ & Hns & _). split.
  - rewrite trunc_small by (unfold fits; lia). destruct (Z.ltb_spec (nb_sectors bf) (i + n)); [lia|].
    destruct (bf_write_loop_spec (Z.to_nat n) bf i buf 0) as (bf' & -> & Hok' & Ef & _ & Hd);
      [done|done|lia|lia|lia|]. rewrite Z2Nat.id in Hd by lia. exists bf'. auto.
  - destruct (bf_read_loop_spec (Z.to_nat n) bf i buf 0) as (bf' & Hs & ->); [done|done|lia|lia|].
    rewrite Z2Nat.id by lia. exists bf'. split; [done|]. split; [by eapply same_disk_ok|].
    intros j. by apply same_disk_disk.
Qed.

(** The range check of a write adds in 64 bits and cuts to 32: a sector number of
    2^32 passes it and the store misses the table. *)
Lemma snapshot_write_out_of_bounds bf buf :
  mode bf = BF_MODE_SNAPSHOT -> Z.of_nat (length (sector_table bf)) = nb_sectors bf ->
  1 <= nb_sectors bf < 2 ^ 32 -> bf_write_async bf (2 ^ 32) buf 1 = Crash.
Proof.
  intros Hm Hl Hn. unfold bf_write_async. rewrite Hm.
  change (u32 (2 ^ 32 + 1)) with 1. destruct (Z.ltb_spec (nb_sectors bf) 1); [lia|].
  change (Z.to_nat 1) with 1%nat. cbn [bf_write_loop].
  rewrite (lookup_ge_None_2 (sector_table bf)); [done|]. lia.
Qed.

Definition demo_disk : BlockDeviceFile := block_device_init (replicate 1024 7) BF_MODE_SNAPSHOT.

Lemma snapshot_refines_array_witness :
  exists bf', bf_write_async demo_disk 1 (replicate 512 9) 1 = Done (0, bf') /\
    bf_f bf' = replicate 1024 7 /\ disk bf' 1 = replicate 512 9 /\ disk bf' 0 = replicate 512 7.
Proof.
  destruct (snapshot_refines_array demo_disk 1 (replicate 512 9) 1) as [(bf' & Hw & _ & Hf & Hd) _];
    [|lia|lia|vm_compute; discriminate|vm_compute; discriminate|].
  - split; [reflexivity|]. split; [reflexivity|]. split; [reflexivity|]. split; [vm_compute; discriminate|].
    intros [|[|i]] d; vm_compute; discriminate.
  - exists bf'. split; [exact Hw|]. split; [exact Hf|].
    split; [rewrite (Hd 1) by lia|rewrite (Hd 0) by lia]; vm_compute; reflexivity.
Defined.
