(* ===== verification/Scatter.v ===== *)
(** * Writing to virtqueues

    [memcpy_to_queue] scatters a buffer over the writable descriptors of a chain.
    [targets] gives the host addresses that guest memory stands for; [U] contains
    the addresses that are written, so that a chain outside [U] is not disturbed. *)

From S2P Require Import Prelude Iomem Cpu Virtio VirtioDev Virtqueue UsedRing VirtioOk.

(** Byte [i] of [bs] goes to address [i] of [ps]. *)
Fixpoint scatter (h : hostmem) (ps bs : list Z) : hostmem :=
  match ps, bs with
  | p :: ps, x :: bs => scatter (<[p := u8 x]> h) ps bs
  | _, _ => h
  end.

Lemma scatter_app h ps qs bs cs :
  length ps = length bs -> scatter h (ps ++ qs) (bs ++ cs) = scatter (scatter h ps bs) qs cs.
Proof.
  revert h bs. induction ps as [|p ps IH]; intros h [|x bs] Hl; cbn in *; try done. apply IH. congruence.
Qed.

Lemma write_bytes_scatter h p bs : write_bytes h p bs = scatter h (seqZ p (Z.of_nat (length bs))) bs.
Proof.
  revert h p. induction bs as [|x bs IH]; intros h p; [done|]. cbn [write_bytes length].
  rewrite seqZ_cons by lia. cbn [scatter]. rewrite IH. f_equal. f_equal; lia.
Qed.

Lemma scatter_other h ps bs p : p ∉ ps -> byte_at (scatter h ps bs) p = byte_at h p.
Proof.
  revert h bs. induction ps as [|q ps IH]; intros h [|x bs] Hp; cbn [scatter]; try done.
  apply not_elem_of_cons in Hp as [Hne Hp]. rewrite IH by done. unfold byte_at. by rewrite lookup_insert_ne.
Qed.

(** What was written is there, if no address is written twice. *)
Lemma scatter_bytes h ps bs (i : nat) p x :
  NoDup ps -> ps !! i = Some p -> bs !! i = Some x -> byte_at (scatter h ps bs) p = u8 x.
Proof.
  revert h bs i. induction ps as [|q ps IH]; intros h [|y bs] [|i] Hnd Hp Hx; try done;
    apply NoDup_cons in Hnd as [Hq Hnd]; cbn in Hp, Hx.
  - injection Hp as <-. injection Hx as <-. cbn [scatter]. rewrite scatter_other by done.
    unfold byte_at. rewrite lookup_insert_eq. cbn. by rewrite trunc_idemp.
  - by eapply IH.
Qed.

Section Write.
Context {B X : Type} `{BusLaws B}.
Implicit Types s : vstate B X.
Implicit Types U : Z -> Prop.

(** Guest memory at [addr] is at the host addresses [ps], all in [U]. *)
Definition targets U (b : B) (addr : Z) (ps : list Z) : Prop :=
  0 <= addr /\ addr + Z.of_nat (length ps) <= 2 ^ 64 /\
  forall (i : nat) p, ps !! i = Some p -> get_ram_ptr b (addr + Z.of_nat i) = Some p /\ U p.

Lemma targets_app U b addr ps qs :
  targets U b addr (ps ++ qs) -> targets U b addr ps /\ targets U b (addr + Z.of_nat (length ps)) qs.
Proof.
  intros (Ha & Hl & Hp). rewrite length_app in Hl. split; (split; [lia|split; [lia|]]).
  - intros i p Hi. apply Hp. by apply lookup_app_l_Some.
  - intros i p Hi. rewrite <- Z.add_assoc, <- Nat2Z.inj_add. apply Hp.
    rewrite lookup_app_r by lia. by replace (length ps + i - length ps)%nat with i by lia.
Qed.

Lemma targets_agree U b b' addr ps : agree U b b' -> targets U b addr ps -> targets U b' addr ps.
Proof. intros [Hp _] (Ha & Hl & Ht). split; [done|]. split; [done|]. intros. rewrite Hp. auto. Qed.

Lemma targets_peek U b addr ps off n :
  0 <= off <= Z.of_nat (length ps) -> targets U b addr ps -> targets U b (addr + off) (peek ps off n).
Proof.
  intros Ho Ht. unfold peek. rewrite <- (take_drop (Z.to_nat off) ps) in Ht. apply targets_app in Ht as [_ Ht].
  rewrite length_take in Ht. replace (Z.of_nat (Z.to_nat off `min` length ps)) with off in Ht by lia.
  rewrite <- (take_drop (Z.to_nat n) (drop _ _)) in Ht. by apply targets_app in Ht as [Ht _].
Qed.

(** On the rest of a page the addresses are consecutive. *)
Lemma targets_page U b addr ps p :
  page_mapped b -> get_ram_ptr b addr = Some p -> targets U b addr ps ->
  Z.of_nat (length ps) <= VIRTIO_PAGE_SIZE - addr mod VIRTIO_PAGE_SIZE ->
  seqZ p (Z.of_nat (length ps)) = ps.
Proof.
  intros Hpm Hp (_ & _ & Ht) Hlen. apply list_eq_same_length with (length ps); [done| |].
  - rewrite length_seqZ. lia.
  - intros i x y Hi Hx Hy. apply lookup_seqZ in Hx as [-> _]. destruct (Ht i y Hy) as [Hy' _].
    rewrite (Hpm addr p (Z.of_nat i)) in Hy' by (done || lia). congruence.
Qed.

Lemma targets_in_page U b addr p n :
  page_mapped b -> get_ram_ptr b addr = Some p -> 0 <= addr -> 0 <= n ->
  n <= VIRTIO_PAGE_SIZE - addr mod VIRTIO_PAGE_SIZE -> addr + n <= 2 ^ 64 ->
  (forall a, p <= a < p + n -> U a) -> targets U b addr (seqZ p n).
Proof.
  intros Hpm Hp Ha Hn Hpg Hb HU. split; [done|]. rewrite length_seqZ. split; [lia|].
  intros i x [-> Hi]%lookup_seqZ. split; [apply Hpm; [done|lia]|apply HU; lia].
Qed.

(** The memory of a bus after a scatter. *)
Definition scattered U (b b' : B) (ps bs : list Z) : Prop :=
  agree U b b' /\ ram b' = scatter (ram b) ps bs.

Lemma scattered_refl U b : scattered U b b [] [].
Proof. done. Qed.

Lemma scattered_app U b b' b'' ps bs qs cs :
  length ps = length bs -> scattered U b b' ps bs -> scattered U b' b'' qs cs ->
  scattered U b b'' (ps ++ qs) (bs ++ cs).
Proof.
  intros Hl [A1 R1] [A2 R2]. split; [by eapply agree_trans|]. by rewrite scatter_app, R2, R1.
Qed.

Lemma scattered_set_ram U b ps bs :
  Forall U ps -> scattered U b (set_ram b (scatter (ram b) ps bs)) ps bs.
Proof.
  intros HU. split; [|apply ram_set_ram]. split; [intros; apply ptr_set_ram|].
  intros p Hp. rewrite ram_set_ram. apply scatter_other. intros Hin. apply Hp.
  by eapply Forall_forall in HU.
Qed.

Lemma targets_U U b addr ps : targets U b addr ps -> Forall U ps.
Proof. intros (_ & _ & Ht). apply Forall_lookup_2. intros i p Hi. by apply (Ht i). Qed.

Lemma to_ram_targets U ps : forall n b addr buf pos,
  page_mapped b -> 0 <= pos -> targets U b addr ps -> (length ps <= n)%nat ->
  pos + Z.of_nat (length ps) <= Z.of_nat (length buf) ->
  exists b', to_ram_loop n b addr buf pos (Z.of_nat (length ps)) = (0, b') /\
    scattered U b b' ps (peek buf pos (Z.of_nat (length ps))).
Proof.
  intros n. revert ps. induction n as [|n IH]; intros ps b addr buf pos Hpm Hpos Ht Hn Hbuf; cbn [to_ram_loop].
  { destruct ps; [|cbn in Hn; lia]. exists b. split; [done|]. unfold peek. cbn. apply scattered_refl. }
  destruct (Z.ltb_spec 0 (Z.of_nat (length ps))) as [Hc|Hc].
  2: { destruct ps; [|cbn in Hc; lia]. exists b. split; [done|]. apply scattered_refl. }
  set (st := page_step addr (Z.of_nat (length ps))).
  assert (0 < st <= Z.of_nat (length ps) /\ st <= VIRTIO_PAGE_SIZE - addr mod VIRTIO_PAGE_SIZE) as [Hst Hpg].
  { apply page_step_range; [apply Ht|done]. }
  destruct (lookup_lt_is_Some_2 ps 0) as [p Hp]; [lia|].
  destruct (Ht) as (_ & Hle & Ht0). destruct (Ht0 0%nat p Hp) as [Hptr _].
  rewrite Z.add_0_r in Hptr. rewrite Hptr.
  set (ps1 := take (Z.to_nat st) ps). set (ps2 := drop (Z.to_nat st) ps).
  assert (Z.of_nat (length ps1) = st) as Hl1 by (unfold ps1; rewrite length_take; lia).
  assert (Z.of_nat (length ps2) = Z.of_nat (length ps) - st) as Hl2 by (unfold ps2; rewrite length_drop; lia).
  assert (ps = ps1 ++ ps2) as E by (symmetry; apply take_drop).
  rewrite E in Ht. apply targets_app in Ht as [Ht1 Ht2]. rewrite Hl1 in Ht2.
  rewrite <- Hl1 in Hpg. pose proof (targets_page U b addr ps1 p Hpm Hptr Ht1 Hpg) as Hseq. rewrite Hl1 in Hseq.
  assert (Z.of_nat (length (peek buf pos st)) = st) as Hlp by (apply length_peek; lia).
  rewrite write_bytes_scatter, Hlp, Hseq.
  set (b1 := set_ram b (scatter (ram b) ps1 (peek buf pos st))).
  assert (scattered U b b1 ps1 (peek buf pos st)) as Hs1 by (apply scattered_set_ram; by eapply targets_U).
  assert (peek buf pos (Z.of_nat (length ps)) = peek buf pos st ++ peek buf (pos + st) (Z.of_nat (length ps2))) as ->
    by (rewrite Hl2; apply peek_split; lia).
  rewrite <- Hl2, E.
  destruct (decide (st = Z.of_nat (length ps))) as [Efull|].
  - assert (ps2 = []) as -> by (unfold ps2; apply drop_ge; lia). exists b1.
    split; [by destruct n|]. rewrite app_nil_r. unfold peek at 2. cbn. by rewrite app_nil_r.
  - rewrite trunc_small by (unfold fits; destruct Ht1; lia).
    destruct (IH ps2 b1 (addr + st) buf (pos + st)) as (b' & -> & Hs2);
      [by eapply agree_page_mapped; [apply Hs1|]|lia|by eapply targets_agree; [apply Hs1|]|lia|lia|].
    exists b'. split; [done|]. eapply scattered_app; [lia|done|done].
Qed.

(** The host addresses of a descriptor's buffer. *)
Definition dest U (b : B) (d : VIRTIODesc) (ps : list Z) : Prop :=
  targets U b (d_addr d) ps /\ Z.of_nat (length ps) = d_len d.

Lemma dest_agree U b b' ws pss :
  agree U b b' -> Forall2 (dest U b) ws pss -> Forall2 (dest U b') ws pss.
Proof.
  intros Ha Hf. eapply Forall2_impl; [done|]. intros d ps [Ht Hl]. split; [by eapply targets_agree|done].
Qed.

Lemma dest_total U b ws pss : Forall2 (dest U b) ws pss -> desc_total ws = Z.of_nat (length (mjoin pss)).
Proof.
  induction 1 as [|d l ds ls [_ Hl] _ IH]; [done|].
  change (mjoin (l :: ls)) with (l ++ mjoin ls). cbn [desc_total]. rewrite length_app. lia.
Qed.

Lemma steady_bus U q s s' : agree U (bus s) (bus s') -> vdev s' = vdev s -> steady U q s s'.
Proof. intros Ha Ev. split; [done|]. unfold queue_at. by rewrite Ev. Qed.

(** One turn of the copy into a queue. *)
Lemma write_step U s d ps buf pos off n :
  page_mapped (bus s) -> dest U (bus s) d ps -> 0 <= off -> 0 <= n -> off + n <= d_len d -> 0 <= pos ->
  pos + n <= Z.of_nat (length buf) ->
  exists s', (virtio_memcpy_to_ram s (u64 (d_addr d + off)) buf pos n).2 = s' /\ same_device s s' /\
    scattered U (bus s) (bus s') (peek ps off n) (peek buf pos n).
Proof.
  intros Hpm [Ht Hl] Ho Hn Hon Hpos Hbuf. unfold virtio_memcpy_to_ram.
  destruct (decide (n = 0)) as [->|].
  { cbn. eexists. split; [reflexivity|]. split; [done|]. unfold peek. cbn. apply scattered_refl. }
  pose proof (targets_peek U (bus s) (d_addr d) ps off n ltac:(lia) Ht) as Hp.
  assert (Z.of_nat (length (peek ps off n)) = n) as Hlp by (apply length_peek; lia).
  destruct (to_ram_targets U (peek ps off n) (Z.to_nat n) (bus s) (d_addr d + off) buf pos) as (b' & E & Hs);
    [done|done|done|lia|lia|]. rewrite Hlp in E, Hs.
  destruct Ht as (? & ? & _). rewrite trunc_small by (unfold fits; lia). rewrite E.
  eexists. split; [reflexivity|]. done.
Qed.

Lemma copy_loop_writes U q ws : forall s d rest pss fuel off buf pos count,
  page_mapped (bus s) -> chain U s q d (ws ++ rest) -> length d = 16%nat ->
  (length (ws ++ rest) <= fuel)%nat -> Forall (segment true) ws -> Forall2 (dest U (bus s)) ws pss ->
  0 <= off <= d_len d -> 0 < count -> off + count <= desc_total ws -> desc_total ws < 2 ^ 31 ->
  0 <= pos -> pos + count <= Z.of_nat (length buf) ->
  exists s', copy_loop fuel s q true d off buf pos count = Done (0, buf, s') /\ same_device s s' /\
    scattered U (bus s) (bus s') (peek (mjoin pss) off count) (peek buf pos count).
Proof.
  induction ws as [|e ws IH];
    intros s d rest pss fuel off buf pos count Hpm Hc Hd Hf Hall Hdest Ho Hcnt Hoc Ht Hpos Hbuf;
    [cbn in Hoc; lia|].
  destruct (chain_head _ _ _ _ _ Hc) as [ds' E]. injection E as -> <-.
  destruct fuel as [|fuel]; [cbn in Hf; lia|].
  apply Forall_cons in Hall as [[Hw Hl] Hall].
  apply Forall2_cons_inv_l in Hdest as (ps & pss' & Hps & Hpss & ->).
  cbn [copy_loop desc_total] in *. change (mjoin (ps :: pss')) with (ps ++ mjoin pss').
  destruct (Hps) as [_ Hlen]. unfold fits in Hl. rewrite (sgn_id 32 (d_len d - off)) by lia.
  set (st := Z.min count (d_len d - off)).
  replace ((0 <? st) && negb (in_buf buf pos st)) with false
    by (symmetry; unfold in_buf; destruct (Z.ltb_spec 0 st), (Z.leb_spec 0 pos),
          (Z.leb_spec (pos + st) (Z.of_nat (length buf))); cbn; try done; lia).
  destruct (write_step U s d ps buf pos off st) as (s1 & -> & [Ev Ex] & Hs1);
    [done|done|lia|lia|lia|done|lia|].
  rewrite (sgn_id 32 (count - st)) by lia.
  destruct (Z.eqb_spec (count - st) 0) as [E|E].
  { exists s1. split; [done|]. split; [done|]. replace st with count in Hs1 by lia.
    by rewrite peek_app_l by lia. }
  assert (d_len d - off < count) by lia. replace st with (d_len d - off) in * by lia.
  replace (off + (d_len d - off)) with (d_len d) by lia. rewrite Z.eqb_refl.
  destruct ws as [|d' ws]; [cbn in *; lia|].
  destruct (chain_tail _ _ _ _ _ Hc) as (Hn & d1 & Hat & Hc1); [done|].
  destruct (chain_head _ _ _ _ _ Hc1) as [? E1]. injection E1 as <- <-.
  assert (steady U q s s1) as Hst by (apply steady_bus; [apply Hs1|done]).
  rewrite Hn. rewrite (get_desc_at U s1 q (d_next d) d' d);
    [|by eapply agree_page_mapped; [apply Hs1|]|done|by eapply steady_desc_at].
  destruct (Forall_cons_1 _ _ _ Hall) as [[Hw' Hl'] _]. rewrite Hw'. cbn [negb eqb].
  destruct (IH s1 d' rest pss' fuel 0 buf (pos + (d_len d - off)) (count - (d_len d - off)))
    as (s' & -> & [Ev' Ex'] & Hs');
    [by eapply agree_page_mapped; [apply Hs1|]|by eapply steady_chain|apply Hat|cbn in *; lia|done
    |by eapply dest_agree; [apply Hs1|]|unfold fits in Hl'; lia|lia|lia|lia|lia|lia|].
  exists s'. split; [done|]. split; [split; congruence|].
  rewrite peek_app_past, Hlen by lia. rewrite (peek_split buf pos (d_len d - off) count) by lia.
  eapply scattered_app; [|done|done]. apply Nat2Z.inj. rewrite !length_peek; lia.
Qed.

Lemma find_write_spec U s q rs : forall d w ws fuel,
  page_mapped (bus s) -> chain U s q d (rs ++ w :: ws) -> length d = 16%nat ->
  (length (rs ++ w :: ws) <= fuel)%nat ->
  Forall (fun e => d_is_write e = false) rs -> d_is_write w = true ->
  find_write fuel s q d = Done (Some w) /\ chain U s q w (w :: ws) /\ length w = 16%nat.
Proof.
  induction rs as [|e rs IH]; intros d w ws fuel Hpm Hc Hd Hf Hr Hw;
    (destruct fuel as [|fuel]; [cbn in Hf; lia|]); destruct (chain_head _ _ _ _ _ Hc) as [? E];
    injection E as -> <-; cbn [find_write].
  - by rewrite Hw.
  - apply Forall_cons in Hr as [-> Hr].
    destruct (chain_tail _ _ _ _ _ Hc) as (-> & d1 & Hat & Hc1); [by destruct rs|]. cbn [negb].
    rewrite (get_desc_at U s q (d_next d) d1 d) by done.
    apply IH; [done|done|apply Hat|cbn in Hf; lia|done|done].
Qed.

(** What a copy to a queue needs of its chain: after readable descriptors it has
    the writable ones [ws], whose buffers are at the host addresses [pss]. *)
Definition writable U s (q : Z) (fuel : nat) (idx : Z) (rs ws : list VIRTIODesc) (pss : list (list Z)) : Prop :=
  (exists d, desc_at U s q idx d /\ chain U s q d (rs ++ ws)) /\ (length (rs ++ ws) <= fuel)%nat /\
  Forall (fun e => d_is_write e = false) rs /\ Forall (segment true) ws /\
  Forall2 (dest U (bus s)) ws pss /\ desc_total ws < 2 ^ 31.

Lemma writable_steady U s s' q fuel idx rs ws pss :
  steady U q s s' -> writable U s q fuel idx rs ws pss -> writable U s' q fuel idx rs ws pss.
Proof.
  intros Hs ((d & Hat & Hc) & Hf & Hr & Hw & Hdest & Ht).
  split; [exists d; split; [by eapply steady_desc_at|by eapply steady_chain]|].
  do 3 (split; [done|]). split; [eapply dest_agree; [apply Hs|done]|done].
Qed.

Lemma to_queue_writable U s q stack_desc fuel idx rs ws pss off buf count :
  page_mapped (bus s) -> length stack_desc = 16%nat -> writable U s q fuel idx rs ws pss ->
  0 <= off -> 0 < count -> off + count <= desc_total ws -> count <= Z.of_nat (length buf) ->
  exists s', memcpy_to_queue stack_desc fuel s q idx off buf count = Done (0, s') /\ same_device s s' /\
    scattered U (bus s) (bus s') (peek (mjoin pss) off count) (peek buf 0 count).
Proof.
  intros Hpm Hstack ((d & Hat & Hc) & Hf & Hr & Hall & Hdest & Ht) Ho Hcnt Hoc Hbuf.
  unfold memcpy_to_queue, memcpy_to_from_queue.
  destruct (Z.eqb_spec count 0); [lia|]. rewrite (get_desc_at U s q idx d) by done.
  destruct ws as [|w ws]; [cbn in *; lia|].
  destruct (find_write_spec U s q rs d w ws fuel) as (-> & Hcw & Hlw);
    [done|done|apply Hat|done|done|apply (Forall_cons_1 _ _ _ Hall)|]. cbn [rbind].
  rewrite length_app in Hf. rewrite <- (app_nil_r ws) in Hcw.
  destruct (find_offset_spec U s q Hpm stack_desc Hstack true w (w :: ws ++ []) (w :: ws) [] fuel off)
    as (pre & d' & post & E & Hd' & Hc' & Hl' & ->);
    [done|done|done|rewrite app_nil_r; cbn in *; lia|done|lia|done|].
  cbn [rbind]. rewrite E in *. apply Forall_app in Hall as [_ Hall].
  apply Forall2_app_inv_l in Hdest as (pss1 & pss2 & Hp1 & Hp2 & ->).
  rewrite desc_total_app in *. pose proof (dest_total _ _ _ _ Hp1).
  destruct (copy_loop_writes U q (d' :: post) s d' [] pss2 fuel (off - desc_total pre) buf 0 count)
    as (s' & -> & Hsame & Hsc); try done; try lia.
  { rewrite app_nil_r. rewrite length_app in Hf. cbn in *. lia. }
  exists s'. split; [done|]. split; [done|]. rewrite join_app. unfold peek at 1.
  rewrite drop_app_ge by lia.
  by replace (Z.to_nat off - length (mjoin pss1))%nat with (Z.to_nat (off - desc_total pre)) by lia.
Qed.

Lemma scattered_bytes U b b' ps bs (i : nat) p x :
  scattered U b b' ps bs -> NoDup ps -> ps !! i = Some p -> bs !! i = Some x -> fits 8 x ->
  byte_at (ram b') p = x.
Proof. intros [_ ->] Hnd Hp Hx Hf. erewrite scatter_bytes by done. by apply trunc_small. Qed.

Lemma peek_NoDup (l : list Z) off n : NoDup l -> NoDup (peek l off n).
Proof.
  intros Hnd. unfold peek. eapply sublist_NoDup; [exact Hnd|]. etrans; [apply sublist_take|apply sublist_drop].
Qed.

Lemma peek_subset (l : list Z) off n p : p ∈ peek l off n -> p ∈ l.
Proof.
  unfold peek. intros (i & Hi & _)%elem_of_take. rewrite lookup_drop in Hi. by eapply list_elem_of_lookup_2.
Qed.

(** [memcpy_to_queue] scatters: on a chain whose writable descriptors follow
    readable ones it terminates with the buffer written, byte by byte, at the
    requested offset of the concatenation of the writable buffers; no other byte of
    memory and nothing of the device changes. *)
Lemma memcpy_to_queue_scatters U s q stack_desc fuel idx rs ws pss off buf count :
  page_mapped (bus s) -> length stack_desc = 16%nat -> writable U s q fuel idx rs ws pss ->
  NoDup (mjoin pss) -> Forall (fits 8) buf ->
  0 <= off -> 0 < count -> off + count <= desc_total ws -> count <= Z.of_nat (length buf) ->
  exists s', memcpy_to_queue stack_desc fuel s q idx off buf count = Done (0, s') /\
    vdev s' = vdev s /\ vx s' = vx s /\
    (forall (i : nat) p x, mjoin pss !! (Z.to_nat off + i)%nat = Some p -> Z.of_nat i < count -> buf !! i = Some x ->
       byte_at (ram (bus s')) p = x) /\
    (forall p, p ∉ mjoin pss -> byte_at (ram (bus s')) p = byte_at (ram (bus s)) p).
Proof.
  intros Hpm Hstack Hwr Hnd Hbytes Ho Hcnt Hoc Hbuf.
  destruct (to_queue_writable U s q stack_desc fuel idx rs ws pss off buf count)
    as (s' & E & [Ev Ex] & Hs); try done.
  exists s'. do 3 (split; [done|]). split.
  - intros i p x Hp Hi Hx. eapply (scattered_bytes _ _ _ _ _ i); [done|by apply peek_NoDup| | |by eapply Forall_lookup_1].
    + unfold peek. rewrite lookup_take_lt by lia. by rewrite lookup_drop.
    + unfold peek. rewrite lookup_take_lt by lia. by rewrite lookup_drop.
  - intros p Hp. destruct Hs as [_ ->]. apply scatter_other. intros Hin. apply Hp.
    by eapply peek_subset.
Qed.
End Write.
