(* ===== verification/BlockReq.v ===== *)
(** * A block read request, from descriptors to guest memory

    The composition of the transport, the block device and a snapshot disk: what
    [virtio_block_recv_request] leaves in memory for a read request. *)

From S2P Require Import Prelude Iomem Cpu Virtio VirtioDev Virtqueue UsedRing VirtioOk BlockFile Scatter.

(** ** Replies *)

Lemma load_le_ext h h' a k :
  (forall i, 0 <= i < Z.of_nat k -> byte_at h' (a + i) = byte_at h (a + i)) -> load_le h' a k = load_le h a k.
Proof.
  revert a. induction k as [|k IH]; intros a He; cbn [load_le]; [done|].
  rewrite (IH (a + 1)), <- (Z.add_0_r a), He by (lia || (intros i Hi; rewrite <- Z.add_assoc; apply He; lia)). done.
Qed.

(** A reply: a buffer copied to the writable descriptors of a request, which then is
    returned through the used ring. *)
Lemma reply_returned {B X} `{BusLaws B} (stack_desc : VIRTIODesc) U (s s1 : vstate B X) q fuel idx rs ws pss p buf :
  length stack_desc = 16%nat -> bus s1 = bus s -> vdev s1 = vdev s -> page_mapped (bus s) -> writable U s q fuel idx rs ws pss ->
  NoDup (mjoin pss) -> used_ring (bus s) (queue_at s q) p -> (forall a, a ∈ mjoin pss -> ~ used_area (queue_at s q) p a) ->
  0 < Z.of_nat (length buf) <= desc_total ws -> Forall (fits 8) buf ->
  exists s2, memcpy_to_queue stack_desc fuel s1 q idx 0 buf (Z.of_nat (length buf)) = Done (0, s2) /\
    let s' := virtio_consume_desc s2 q idx (Z.of_nat (length buf)) in
    (forall (i : nat) a x, mjoin pss !! i = Some a -> buf !! i = Some x -> byte_at (ram (bus s')) a = x) /\
    vx s' = vx s1 /\ used_index s' p = u16 (used_index s p + 1) /\
    used_elem s' p (used_index s p mod num (queue_at s q)) = (u32 idx, u32 (Z.of_nat (length buf))).
Proof.
  intros Hstack Eb Ev Hpages Hw Hnd Hu Hdis Hl Hbytes.
  assert (steady U q s s1) as Hst by (apply steady_bus; [rewrite Eb; done|done]).
  destruct (to_queue_writable U s1 q stack_desc fuel idx rs ws pss 0 buf (Z.of_nat (length buf)))
    as (s2 & Em & [Ev2 Ex2] & Hsc); [rewrite Eb; done|done|eapply writable_steady; done|lia|lia|lia|lia|].
  exists s2. split; [done|]. rewrite Eb in Hsc.
  assert (queue_at s2 q = queue_at s q) as Eq by (unfold queue_at; by rewrite Ev2, Ev).
  assert (used_ring (bus s2) (queue_at s2 q) p) as Hu2.
  { rewrite Eq. destruct Hu as (Hk & Ha & Hm1 & Hm2 & Hm3). do 4 (split; [done|]).
    intros i Hi. rewrite <- Hm3 by done. apply Hsc. }
  assert (used_index s2 p = used_index s p) as Ei.
  { apply load_le_ext. intros i Hi. destruct Hsc as [_ ->]. apply scatter_other. intros Hin.
    apply (Hdis (p + 2 + i)); [by eapply peek_subset|]. unfold used_area.
    destruct Hu as ((k & Hk & ->) & _). pose proof (pow2_pos k). lia. }
  destruct (consume_desc_agree s2 q p idx (Z.of_nat (length buf)) Hu2) as ([_ Hout] & _ & Ex3 & Ei3).
  rewrite Eq in Hout. split; [|split; [congruence|split]].
  - intros i a x Ha Hx. rewrite Hout by (apply Hdis; by eapply list_elem_of_lookup_2).
    pose proof (lookup_lt_Some _ _ _ Hx).
    eapply (scattered_bytes _ _ _ _ _ i); [exact Hsc|by apply peek_NoDup| | |by eapply Forall_lookup_1];
      unfold peek; by rewrite lookup_take_lt, lookup_drop by lia.
  - by rewrite Ei3, Ei.
  - rewrite consume_desc_elem, Ei, Eq, Z.eqb_refl; [done|done|]. rewrite <- Ei, <- Eq. by apply slot_range.
Qed.

Section Read.
Context {B : Type} `{BusLaws B} (stack_desc : VIRTIODesc) (malloc : Z -> list Z).
Hypothesis (Hstack : length stack_desc = 16%nat).
Hypothesis (Hmalloc : forall n, 0 <= n -> Z.of_nat (length (malloc n)) = n).
Abbreviation block := (vstate B (VIRTIOBlockDevice BlockDeviceFile)).
Implicit Types s : block.
Implicit Types U : Z -> Prop.

(** The request at descriptor [idx]: the readable part starts with a header that
    asks for [n] sectors from [sec], the writable part, at the host addresses
    [mjoin pss], has room for them and the status byte. *)
Record read_request U s (q : Z) (fuel : nat) (idx sec n : Z) (rs ws : list VIRTIODesc)
    (ls pss : list (list Z)) : Prop := {
  rr_pages : page_mapped (bus s);
  rr_readable : readable U s q fuel idx rs ws ls;
  rr_writable : writable U s q fuel idx rs ws pss;
  rr_header : 16 <= desc_total rs;
  rr_type : h_type (peek (mjoin ls) 0 16) = VIRTIO_BLK_T_IN;
  rr_sector : h_sector_num (peek (mjoin ls) 0 16) = sec;
  rr_size : 0 <= n /\ desc_total ws = n * SECTOR_SIZE + 1;
  rr_idle : req_in_progress (vx s) = false;
  rr_disk : snapshot_ok (bs (vx s));
  rr_range : 0 <= sec /\ sec + n <= nb_sectors (bs (vx s));
  rr_distinct : NoDup (mjoin pss)
}.

(** The reply: the sectors and the status. *)
Definition reply s (sec n : Z) : list Z :=
  mjoin (disk (bs (vx s)) <$> seqZ sec n) ++ [VIRTIO_BLK_S_OK].

Lemma length_sectors bf sec n :
  snapshot_ok bf -> 0 <= sec -> sec + Z.of_nat n <= nb_sectors bf ->
  Z.of_nat (length (mjoin (disk bf <$> seqZ sec (Z.of_nat n)))) = Z.of_nat n * SECTOR_SIZE.
Proof.
  intros Hok. revert sec. induction n as [|n IH]; intros sec Hsec Hn; [done|].
  rewrite seqZ_cons by lia. replace (Z.pred (Z.of_nat (S n))) with (Z.of_nat n) by lia.
  cbn [fmap list_fmap]. change (mjoin (?x :: ?l)) with (x ++ mjoin l). rewrite length_app, Nat2Z.inj_add.
  rewrite snapshot_disk_length by (done || lia). change (Z.succ sec) with (sec + 1).
  change (list_fmap Z (list Z) (disk bf) (seqZ (sec + 1) (Z.of_nat n)))
    with (disk bf <$> seqZ (sec + 1) (Z.of_nat n)).
  rewrite IH by lia. lia.
Qed.

(** The sectors, then the status byte, fill the reply buffer. *)
Lemma reply_buffer (buf data : list Z) st :
  Z.of_nat (length buf) = Z.of_nat (length data) + 1 ->
  poke (poke buf 0 data) (Z.of_nat (length data)) [st] = data ++ [st].
Proof.
  intros Hl. rewrite <- (Z.add_0_l (Z.of_nat (length data))), poke_app by lia.
  apply poke_all. rewrite length_app. cbn. lia.
Qed.

Section Request.
Context U s (q : Z) (fuel : nat) (idx sec n : Z) (rs ws : list VIRTIODesc) (ls pss : list (list Z)).
Context (Hreq : read_request U s q fuel idx sec n rs ws ls pss).

Lemma request_header :
  memcpy_from_queue stack_desc fuel s (malloc 16) q idx 0 16 = Done (0, peek (mjoin ls) 0 16).
Proof.
  unfold memcpy_from_queue. pose proof (rr_header _ _ _ _ _ _ _ _ _ _ _ Hreq) as Hh.
  pose proof (rr_readable _ _ _ _ _ _ _ _ _ _ _ Hreq) as Hr.
  pose proof (desc_total_concat _ _ _ _ (proj1 (proj2 (proj2 (proj2 Hr))))) as Ht.
  erewrite from_queue_readable; [|apply Hreq|done|exact Hr|lia|lia|lia|rewrite Hmalloc; lia].
  cbn [rbind]. do 2 f_equal. apply poke_all. apply Nat2Z.inj. rewrite Hmalloc, length_peek; lia.
Qed.

Lemma length_reply : Z.of_nat (length (reply s sec n)) = n * SECTOR_SIZE + 1.
Proof.
  destruct Hreq as [_ _ _ _ _ _ [Hn _] _ Hd [Hs Hr] _]. unfold reply. rewrite length_app.
  rewrite <- (Z2Nat.id n Hn) at 1. rewrite Nat2Z.inj_add, length_sectors by (done || lia).
  rewrite Z2Nat.id by done. cbn. lia.
Qed.

(** The state in which the reply is copied out. *)
Lemma request_reply :
  exists bf' s1, same_disk (bs (vx s)) bf' /\ bus s1 = bus s /\ vdev s1 = vdev s /\ bs (vx s1) = bf' /\
    virtio_block_recv_request stack_desc malloc bf_device fuel s q idx (desc_total rs) (desc_total ws)
    = (let* (_, s2) := memcpy_to_queue stack_desc fuel s1 q idx 0 (reply s sec n) (n * SECTOR_SIZE + 1) in
       Done (0, virtio_consume_desc s2 q idx (n * SECTOR_SIZE + 1))).
Proof.
  pose proof request_header as Hh. pose proof length_reply as Hl.
  destruct Hreq as [_ _ _ _ Hty Hsec [Hn Hsz] Hidle Hd [Hs Hr] _].
  destruct (bf_read_loop_spec (Z.to_nat n) (bs (vx s)) sec (malloc (n * SECTOR_SIZE + 1)) 0)
    as (bf' & Hsame & Hread); [done|done|lia|lia|]. rewrite Z2Nat.id in Hread by done.
  set (s1 := s <| vx := mkBlock bf' false (mkReq VIRTIO_BLK_T_IN
               (poke (malloc (n * SECTOR_SIZE + 1)) 0 (mjoin (disk (bs (vx s)) <$> seqZ sec n)))
               (n * SECTOR_SIZE + 1) q idx) |>).
  exists bf', s1. do 4 (split; [done|]).
  unfold virtio_block_recv_request. rewrite Hidle. change sizeof_BlockRequestHeader with 16. rewrite Hh.
  cbn [rbind]. rewrite Hty, Hsec, Hsz. cbn [Z.ltb Z.compare Z.eqb VIRTIO_BLK_T_IN].
  unfold bf_device. cbn [read_async]. unfold bf_read_async. destruct (Hd) as (-> & _).
  replace (Z.quot (n * SECTOR_SIZE + 1 - 1) SECTOR_SIZE) with n
    by (rewrite Z.add_simpl_r; symmetry; by apply Z.quot_mul).
  rewrite Hread. cbn [rbind]. fold s1. unfold block_finish, virtio_block_req_end. cbn [Z.ltb Z.compare].
  change (req (vx s1)) with (mkReq VIRTIO_BLK_T_IN
    (poke (malloc (n * SECTOR_SIZE + 1)) 0 (mjoin (disk (bs (vx s)) <$> seqZ sec n)))
    (n * SECTOR_SIZE + 1) q idx).
  cbn [req_type req_buf req_write_size req_queue_idx req_desc_idx Z.eqb VIRTIO_BLK_T_IN].
  unfold reply in Hl. rewrite length_app in Hl. cbn [length] in Hl.
  assert (Z.of_nat (length (malloc (n * SECTOR_SIZE + 1))) = n * SECTOR_SIZE + 1) as Hm
    by (apply Hmalloc; unfold SECTOR_SIZE; lia).
  assert (in_buf (poke (malloc (n * SECTOR_SIZE + 1)) 0 (mjoin (disk (bs (vx s)) <$> seqZ sec n)))
            (n * SECTOR_SIZE + 1 - 1) 1 = true) as ->.
  { unfold in_buf. rewrite length_poke, Hm. unfold SECTOR_SIZE.
    apply andb_true_intro. rewrite !Z.leb_le. lia. }
  replace (n * SECTOR_SIZE + 1 - 1) with (Z.of_nat (length (mjoin (disk (bs (vx s)) <$> seqZ sec n)))) by lia.
  rewrite reply_buffer by lia. change (blk_status 0) with VIRTIO_BLK_S_OK. fold (reply s sec n).
  by destruct (memcpy_to_queue _ _ _ _ _ _ _ _) as [[]| |].
Qed.
End Request.

(** C21 A guest read of a snapshot disk: for a well-formed request within the disk
    the device terminates with the requested sectors and the OK status, in order,
    in the guest's buffers, the disk and the image unchanged, and the request
    returned once through the used ring with its length. *)
Theorem block_read_request_served U s q fuel idx sec n rs ws ls pss p :
  read_request U s q fuel idx sec n rs ws ls pss ->
  used_ring (bus s) (queue_at s q) p ->
  (forall a, a ∈ mjoin pss -> ~ used_area (queue_at s q) p a) ->
  Forall (fits 8) (reply s sec n) ->
  exists s', virtio_block_recv_request stack_desc malloc bf_device fuel s q idx (desc_total rs) (desc_total ws)
             = Done (0, s') /\
    (forall (i : nat) a x, mjoin pss !! i = Some a -> reply s sec n !! i = Some x -> byte_at (ram (bus s')) a = x) /\
    same_disk (bs (vx s)) (bs (vx s')) /\
    used_index s' p = u16 (used_index s p + 1) /\
    used_elem s' p (used_index s p mod num (queue_at s q)) = (u32 idx, u32 (n * SECTOR_SIZE + 1)).
Proof.
  intros Hreq Hu Hdis Hbytes.
  destruct (request_reply U s q fuel idx sec n rs ws ls pss Hreq) as (bf' & s1 & Hsame & Eb & Ev & Ebs & ->).
  pose proof (length_reply U s q fuel idx sec n rs ws ls pss Hreq) as Hl.
  destruct (rr_size _ _ _ _ _ _ _ _ _ _ _ Hreq) as [Hn Hsz].
  destruct (reply_returned stack_desc U s s1 q fuel idx rs ws pss p (reply s sec n)) as (s2 & E2 & Hmem & Ex & Hidx & Hel);
    try done; [apply Hreq..|rewrite Hl; unfold SECTOR_SIZE in *; lia|].
  rewrite Hl in *. rewrite E2. cbn [rbind]. eexists. split; [reflexivity|]. split; [done|]. split; [by rewrite Ex, Ebs|done].
Qed.
End Read.
