(* ===== verification/VirtioDemo.v ===== *)
(** * Virtio devices, concretely

    A machine whose driver has queued one network packet, split over two
    descriptors, and one whose driver asks for a disk sector: the hypotheses of the
    virtqueue theorems on actual memory. *)

From S2P Require Import Prelude Iomem Cpu Machine Mmu Platform Devices Virtio VirtioDev Virtqueue UsedRing.
From S2P Require Import VirtioOk VirtioBus BlockFile Scatter BlockReq.

(** A descriptor as the driver writes it. *)
Definition le_desc (addr len flags next : Z) : VIRTIODesc :=
  le_list 8 addr ++ le_list 4 len ++ le_list 2 flags ++ le_list 2 next.

Definition demo_desc0 : VIRTIODesc := le_desc 0x80004000 14 VRING_DESC_F_NEXT 1.
Definition demo_desc1 : VIRTIODesc := le_desc 0x80004100 2 0 0.

(** A header, and the first bytes of the packet. *)
Definition demo_head : list Z := replicate 12 0 ++ [98; 99].

(** Descriptor table at [0x80001000], available ring at [0x80002000] with one
    entry, buffers at [0x80004000] and [0x80004100]; RAM is at host [0x1000000].
    Descriptor 3 names itself as its successor. *)
Definition demo_ring_mem : hostmem :=
  write_bytes (write_bytes (write_bytes (write_bytes (write_bytes ∅
    0x1001000 (demo_desc0 ++ demo_desc1)) 0x1001030 (le_desc 0 1 VRING_DESC_F_NEXT 3))
    0x1002000 [0; 0; 1; 0; 0; 0]) 0x1004000 demo_head) 0x1004100 [100; 101].

Definition demo_vbus : mmio_bus := mkBus (demo_platform <| host := demo_ring_mem |>) 4.

Definition demo_net : vstate mmio_bus VIRTIONetDevice :=
  (virtio_net_init demo_vbus [2; 0; 0; 0; 0; 1])
    <| vdev ::= fun d => d <| queue ::=
         alter (fun q => q <| desc_addr := 0x80001000 |> <| avail_addr := 0x80002000 |>
                           <| used_addr := 0x80003000 |> <| ready := 1 |>) 1%nat |> |>.

Definition demo_used : Z -> Prop := used_area (queue_at demo_net 1) 0x1003000.

Lemma demo_page_mapped : page_mapped (bus demo_net).
Proof.
  apply page_mapped_aligned. repeat constructor; try (vm_compute; discriminate); reflexivity.
Qed.

Lemma demo_outside p : 0x1003084 <= p \/ p < 0x1003000 -> ~ demo_used p.
Proof.
  unfold demo_used, used_area. change (num (queue_at demo_net 1)) with 16. lia.
Qed.

Ltac demo_reads p :=
  apply (reads_in_page _ _ p); [exact demo_page_mapped|vm_compute; discriminate|vm_compute; reflexivity
    |vm_compute; reflexivity|vm_compute; discriminate|vm_compute; discriminate
    |intros i Hi; apply demo_outside; cbn in Hi; lia].

Lemma demo_desc_at (i : Z) (d : VIRTIODesc) :
  (i = 0 /\ d = demo_desc0) \/ (i = 1 /\ d = demo_desc1) -> desc_at demo_used demo_net 1 i d.
Proof.
  intros [[-> ->]|[-> ->]]; (split; [reflexivity|]); (split; [repeat constructor; vm_compute; congruence|]).
  - demo_reads 0x1001000.
  - demo_reads 0x1001010.
Qed.

Lemma demo_chain : chain demo_used demo_net 1 demo_desc0 [demo_desc0; demo_desc1].
Proof.
  apply chain_next with demo_desc1; [reflexivity|apply demo_desc_at; right; done|].
  apply chain_end. reflexivity.
Qed.

Lemma demo_readable :
  readable demo_used demo_net 1 2 0 [demo_desc0; demo_desc1] [] [demo_head; [100; 101]].
Proof.
  split; [exists demo_desc0; split; [apply demo_desc_at; left; done|apply demo_chain]|].
  split; [cbn; lia|]. split; [repeat constructor; vm_compute; congruence|].
  split; [|vm_compute; reflexivity].
  apply Forall2_cons_2; [split; [|reflexivity]; demo_reads 0x1004000|].
  apply Forall2_cons_2; [split; [|reflexivity]; demo_reads 0x1004100|apply Forall2_nil_2].
Qed.

Lemma demo_tx_ready : tx_ready demo_used 0x1003000 demo_net.
Proof.
  split; [exact demo_page_mapped|]. split; [vm_compute; lia|]. split; [|reflexivity].
  split; [exists 4; split; [lia|reflexivity]|]. split; [reflexivity|].
  apply mapped_in_page; [exact demo_page_mapped|vm_compute; discriminate|vm_compute; reflexivity
    |vm_compute; discriminate|vm_compute; discriminate].
Qed.

Lemma demo_tx : tx demo_used demo_net 1 2 0 1 [demo_head ++ [100; 101]].
Proof.
  apply (tx_buffer demo_used demo_net 1 2 0 1 0 [demo_desc0; demo_desc1] [demo_head; [100; 101]]);
    [lia| |apply demo_readable|apply tx_end].
  split; [reflexivity|]. exists 0x1002004. split; [vm_compute; reflexivity|].
  split; [vm_compute; reflexivity|]. split; apply demo_outside; lia.
Qed.


Lemma get_desc_rw_size_correct_witness :
  get_desc_rw_size (replicate 16 0) 2 demo_net 1 0 = Done (Some (16, 0)).
Proof.
  exact (get_desc_rw_size_correct demo_used demo_net 1 demo_page_mapped (replicate 16 0) eq_refl 2 0
           demo_desc0 [demo_desc0; demo_desc1] (demo_desc_at 0 demo_desc0 ltac:(left; done)) demo_chain
           ltac:(cbn; lia)).
Defined.

Lemma memcpy_from_queue_gathers_witness :
  memcpy_from_queue (replicate 16 0) 2 demo_net (replicate 3 0) 1 0 12 3 = Done (0, [98; 99; 100]).
Proof.
  exact (memcpy_from_queue_gathers demo_used demo_net 1 demo_page_mapped (replicate 16 0) eq_refl 2 0
           [demo_desc0; demo_desc1] [] [demo_head; [100; 101]] (replicate 3 0) 12 3 demo_readable
           ltac:(lia) ltac:(lia) ltac:(vm_compute; discriminate) ltac:(cbn; lia)).
Defined.

Lemma consume_desc_appends_witness :
  let s' := virtio_consume_desc demo_net 1 0 5 in
  used_index s' 0x1003000 = 1 /\ used_elem s' 0x1003000 0 = (0, 5) /\ has (int_status (vdev s')) 1 = true.
Proof.
  pose proof (consume_desc_appends demo_net 1 0x1003000 0 5 (proj1 (proj2 (proj2 demo_tx_ready))))
    as (Hi & He & _ & _ & Hs & _).
  split; [exact Hi|]. split; [exact (He 0 ltac:(lia))|exact Hs].
Defined.

(** Descriptor 3 is its own successor: the walk over it never returns. *)
Lemma demo_self_chain_diverges fuel :
  get_desc_rw_size (replicate 16 0) fuel demo_net 1 3 = Timeout.
Proof.
  apply (rw_size_cycle demo_used demo_net 1 demo_page_mapped (replicate 16 0) eq_refl (fun i => i = 3) 3);
    [done|]. intros i ->. exists (le_desc 0 1 VRING_DESC_F_NEXT 3). split; [|done].
  split; [reflexivity|]. split; [repeat constructor; vm_compute; congruence|]. demo_reads 0x1001030.
Qed.

(** ** Registers *)

Lemma demo_net_ok : virtio_ok (vdev demo_net).
Proof.
  apply virtio_ok_queue; [apply (net_init_ok demo_vbus); repeat constructor; vm_compute; congruence|].
  intros [] (? & ? & ? & _). unfold queue_ok in *. vsimpl. repeat split; try done; lia || apply H1.
Qed.


Lemma queue_address_roundtrip_witness :
  exists s1 s2,
    virtio_mmio_write (replicate 16 0) (input_handlers (B := mmio_bus)) 0
      (virtio_input_init demo_vbus VIRTIO_INPUT_TYPE_MOUSE) VIRTIO_MMIO_QUEUE_USED_LOW 0x80003000 2 = Done s1 /\
    virtio_mmio_write (replicate 16 0) input_handlers 0 s1 VIRTIO_MMIO_QUEUE_USED_HIGH 5 2 = Done s2 /\
    used_addr (sel s2) = 0x580003000.
Proof.
  destruct (queue_address_roundtrip (replicate 16 0) (input_handlers (B := mmio_bus)) 0
              (virtio_input_init demo_vbus VIRTIO_INPUT_TYPE_MOUSE) VIRTIO_MMIO_QUEUE_USED_LOW
              VIRTIO_MMIO_QUEUE_USED_HIGH used_addr 0x80003000 5
              ltac:(right; right; left; reflexivity) (input_init_ok demo_vbus VIRTIO_INPUT_TYPE_MOUSE)
              ltac:(split; vm_compute; congruence) ltac:(split; vm_compute; congruence))
    as (s1 & s2 & H1 & H2 & _ & _ & H3).
  exists s1, s2. split; [exact H1|]. split; [exact H2|exact H3].
Defined.

(** ** A disk read *)

(** Descriptor 0 holds the header (read sector 1), descriptor 1 has room for a
    sector and the status byte. *)
Definition demo_hdr : VIRTIODesc := le_desc 0x80004000 16 VRING_DESC_F_NEXT 1.
Definition demo_dst : VIRTIODesc := le_desc 0x80005000 513 VRING_DESC_F_WRITE 0.
Definition demo_hdr_bytes : list Z := le_list 4 0 ++ le_list 4 0 ++ le_list 8 1.

Definition demo_disk_mem : hostmem :=
  write_bytes (write_bytes ∅ 0x1001000 (demo_hdr ++ demo_dst)) 0x1004000 demo_hdr_bytes.

Definition demo_block : vstate mmio_bus (VIRTIOBlockDevice BlockDeviceFile) :=
  (virtio_block_init bf_device (mkBus (demo_platform <| host := demo_disk_mem |>) 5) demo_disk)
    <| vdev ::= fun d => d <| queue ::=
         alter (fun q => q <| desc_addr := 0x80001000 |> <| avail_addr := 0x80002000 |>
                           <| used_addr := 0x80003000 |>) 0%nat |> |>.

(** The reply buffer. *)
Definition demo_area : Z -> Prop := fun a => 0x1005000 <= a < 0x1005201.

Lemma demo_block_pages : page_mapped (bus demo_block).
Proof. exact demo_page_mapped. Qed.

Ltac block_reads p :=
  apply (reads_in_page _ _ p); [exact demo_block_pages|vm_compute; discriminate|vm_compute; reflexivity
    |vm_compute; reflexivity|vm_compute; discriminate|vm_compute; discriminate
    |unfold demo_area; intros i Hi; cbn in Hi; lia].

Lemma demo_block_chain :
  exists d, desc_at demo_area demo_block 0 0 d /\ chain demo_area demo_block 0 d ([demo_hdr] ++ [demo_dst]).
Proof.
  exists demo_hdr. split.
  - split; [reflexivity|]. split; [repeat constructor; vm_compute; congruence|]. block_reads 0x1001000.
  - apply chain_next with demo_dst; [reflexivity| |by apply chain_end].
    split; [reflexivity|]. split; [repeat constructor; vm_compute; congruence|]. block_reads 0x1001010.
Qed.

Lemma demo_writable :
  writable demo_area demo_block 0 2 0 [demo_hdr] [demo_dst] [seqZ 0x1005000 513].
Proof.
  split; [exact demo_block_chain|]. split; [cbn; lia|]. split; [by repeat constructor|].
  split; [repeat constructor; vm_compute; congruence|]. split; [|reflexivity].
  apply Forall2_cons_2; [|apply Forall2_nil_2]. split; [|reflexivity].
  apply targets_in_page; [exact demo_block_pages|vm_compute; reflexivity|vm_compute; discriminate|lia
    |vm_compute; discriminate|vm_compute; discriminate|done].
Qed.

Lemma demo_read_request :
  read_request demo_area demo_block 0 2 0 1 1 [demo_hdr] [demo_dst] [demo_hdr_bytes] [seqZ 0x1005000 513].
Proof.
  split; try reflexivity.
  - exact demo_block_pages.
  - split; [exact demo_block_chain|]. split; [cbn; lia|]. split; [repeat constructor; vm_compute; congruence|].
    split; [|reflexivity]. apply Forall2_cons_2; [|apply Forall2_nil_2]. split; [|reflexivity].
    block_reads 0x1004000.
  - exact demo_writable.
  - split; [lia|reflexivity].
  - split; [reflexivity|]. split; [reflexivity|]. split; [reflexivity|]. split; [vm_compute; discriminate|].
    intros [|[|i]] d; vm_compute; discriminate.
  - split; vm_compute; discriminate.
  - cbn [mjoin list_join]. rewrite app_nil_r. apply NoDup_seqZ.
Qed.

Lemma memcpy_to_queue_scatters_witness :
  exists s', memcpy_to_queue (replicate 16 0) 2 demo_block 0 0 3 [7; 8] 2 = Done (0, s') /\
    byte_at (ram (bus s')) 0x1005004 = 8.
Proof.
  destruct (memcpy_to_queue_scatters demo_area demo_block 0 (replicate 16 0) 2 0 [demo_hdr] [demo_dst]
              [seqZ 0x1005000 513] 3 [7; 8] 2 demo_block_pages eq_refl demo_writable)
    as (s' & Hs & _ & _ & Hb & _);
    [cbn [mjoin list_join]; rewrite app_nil_r; apply NoDup_seqZ|repeat constructor; vm_compute; congruence
    |lia|lia|vm_compute; discriminate|cbn; lia|].
  exists s'. split; [exact Hs|]. apply (Hb 1%nat); [vm_compute; reflexivity|lia|reflexivity].
Defined.

Lemma block_read_request_served_witness :
  exists s', virtio_block_recv_request (replicate 16 0) (fun n => replicate (Z.to_nat n) 0) bf_device 2 demo_block 0 0
               16 513 = Done (0, s') /\
    byte_at (ram (bus s')) 0x1005000 = 7 /\ byte_at (ram (bus s')) 0x1005200 = VIRTIO_BLK_S_OK /\
    used_index s' 0x1003000 = 1.
Proof.
  destruct (block_read_request_served (replicate 16 0) (fun n => replicate (Z.to_nat n) 0) eq_refl
              ltac:(intros n Hn; cbv beta; rewrite length_replicate; lia)
              demo_area demo_block 0 2 0 1 1 [demo_hdr] [demo_dst] [demo_hdr_bytes] [seqZ 0x1005000 513]
              0x1003000 demo_read_request) as (s' & Hs & Hb & _ & Hi & _).
  - split; [exists 4; split; [lia|reflexivity]|]. split; [reflexivity|].
    apply mapped_in_page; [exact demo_block_pages|vm_compute; discriminate|vm_compute; reflexivity
      |vm_compute; discriminate|vm_compute; discriminate].
  - intros a Ha. cbn [mjoin list_join] in Ha. rewrite app_nil_r in Ha. apply elem_of_seqZ in Ha.
    unfold used_area. change (num (queue_at demo_block 0)) with 16. lia.
  - vm_compute. repeat constructor; discriminate.
  - exists s'. split; [exact Hs|]. split; [apply (Hb 0%nat); vm_compute; reflexivity|].
    split; [apply (Hb 512%nat); vm_compute; reflexivity|]. rewrite Hi. vm_compute. reflexivity.
Defined.
