(* ===== verification/Json.v ===== *)
(** * Configuration files ([src/json.cpp], [include/json.h])

    The JSON dialect of the configuration files: the parser with its comments,
    identifiers as property names and C integers, and the accessors of values.

    Text is a list of bytes that ends where a C string does; [ch p] is [*p].  A
    failed parse does not advance the caller's pointer, so that the parser returns
    the position with the value.  Error messages are the constructors of
    [json_err].  The recursive parser takes fuel, [None] when it runs out. *)

From S2P Require Import Prelude.
From Stdlib Require Import Ascii.
From Stdlib Require String.
Import String.StringSyntax.

Abbreviation text := (list Z).

Bind Scope string_scope with String.string.

(** A C string literal. *)
Definition str (s : String.string) : text := (fun c => Z.of_N (N_of_ascii c)) <$> String.list_ascii_of_string s.

Definition ch (p : text) : Z := hd 0 p.

Inductive json_err :=
  | Unterminated_string | Invalid_hex_digit | Unknown_escape_code | String_too_long
  | Unexpected_end | Invalid_property_name | Colon_expected | Expecting_comma_brace
  | Expecting_comma_bracket | Unknown_identifier | Unexpected_character | Unexpected_trailing.

#[warnings="-register-all"]
Inductive JSONValue :=
  | JSON_STR (s : text)
  | JSON_INT (n : Z)
  | JSON_OBJ (props : list (text * JSONValue))
  | JSON_ARRAY (tab : list JSONValue)
  | JSON_BOOL (b : bool)
  | JSON_NULL
  | JSON_UNDEFINED
  | JSON_EXCEPTION (e : json_err).

(** ** Characters *)

Definition isspace (c : Z) : bool := ((9 <=? c) && (c <=? 13)) || (c =? 32).
Definition isdigit (c : Z) : bool := (48 <=? c) && (c <=? 57).

(** [from_hex]: -1 for a character that is not a digit. *)
Definition from_hex (c : Z) : Z :=
  if (48 <=? c) && (c <=? 57) then c - 48
  else if (65 <=? c) && (c <=? 70) then c - 65 + 10
  else if (97 <=? c) && (c <=? 102) then c - 97 + 10
  else -1.

(** Letters, [_] and [$]. *)
Definition is_ident_first (c : Z) : bool :=
  ((97 <=? c) && (c <=? 122)) || ((65 <=? c) && (c <=? 90)) || (c =? 95) || (c =? 36).

(** ** Integers of the C library *)

(** The value of a digit, 36 or more if [c] is none. *)
Definition digit_val (c : Z) : Z :=
  if isdigit c then c - 48
  else if (97 <=? c) && (c <=? 122) then c - 97 + 10
  else if (65 <=? c) && (c <=? 90) then c - 65 + 10
  else 36.

Fixpoint digits (base acc : Z) (p : text) : Z * text :=
  match p with
  | c :: p' => if digit_val c <? base then digits base (acc * base + digit_val c) p' else (acc, p)
  | [] => (acc, [])
  end.

Fixpoint drop_spaces (p : text) : text :=
  match p with c :: p' => if isspace c then drop_spaces p' else p | [] => [] end.

(** [strtoll(p, &end, base)] for the bases 0 and 16: the value, saturated, and
    [end], which is [p] itself if there is no digit. *)
Definition strtoll (p : text) (base : Z) : Z * text :=
  let q := drop_spaces p in
  let neg := ch q =? 45 in
  let q := if (ch q =? 45) || (ch q =? 43) then tl q else q in
  let hex := (ch q =? 48) && ((ch (tl q) =? 120) || (ch (tl q) =? 88)) && (digit_val (ch (tl (tl q))) <? 16) in
  let base' := if base =? 16 then 16 else if hex then 16 else if ch q =? 48 then 8 else 10 in
  let q := if hex then tl (tl q) else q in
  if digit_val (ch q) <? base' then
    let '(v, q) := digits base' 0 q in
    (Z.max (- 2 ^ 63) (Z.min (2 ^ 63 - 1) (if neg then - v else v)), q)
  else (0, p).

(** The decimal digits of [n], at most [fuel] of them. *)
Fixpoint dec_digits (fuel : nat) (n : Z) : text :=
  match fuel with
  | O => []
  | S fuel => (if n <? 10 then [] else dec_digits fuel (n / 10)) ++ [48 + n mod 10]
  end.

(** [%d] for an integer that is not negative, of at most 19 digits. *)
Definition print_int (n : Z) : text := dec_digits 19 n.

(** ** Lexical elements *)

Inductive skip_mode := Spaces | Line_comment | Block_comment.

(** [skip_spaces], the three loops as modes of one walk. *)
Fixpoint skip (m : skip_mode) (p : text) : text :=
  match p with
  | [] => []
  | c :: p' =>
      match m with
      | Spaces =>
          if isspace c then skip Spaces p'
          else if c =? 47 then
            match p' with
            | d :: p'' =>
                if d =? 47 then skip Line_comment p''
                else if d =? 42 then skip Block_comment p''
                else p
            | [] => p
            end
          else p
      | Line_comment => if c =? 0 then p else if c =? 10 then skip Spaces p' else skip Line_comment p'
      | Block_comment =>
          if c =? 0 then p
          else if c =? 42 then
            match p' with
            | d :: p'' => if d =? 47 then skip Spaces p'' else skip Block_comment p'
            | [] => skip Block_comment p'
            end
          else skip Block_comment p'
      end
  end.

Definition skip_spaces (p : text) : text := skip Spaces p.

(** The first [strlen] bytes of a buffer. *)
Fixpoint cstr (s : text) : text :=
  match s with [] => [] | c :: s' => if c =? 0 then [] else c :: cstr s' end.

(** The loop of [parse_string]; [q] is the buffer so far, reversed, of which 4095
    bytes can be used. *)
Definition add_char (c : Z) (q : text) : option text :=
  if 4095 <=? Z.of_nat (length q) then None else Some (c :: q).

Fixpoint parse_string_loop (p q : text) : json_err + text * text :=
  match p with
  | [] => inl Unterminated_string
  | c :: p1 =>
      if (c =? 0) || (c =? 10) then inl Unterminated_string
      else if c =? 34 then inr (cstr (rev q), p1)
      else if c =? 92 then
        let esc (c : Z) (k : text -> json_err + text * text) :=
          match add_char c q with None => inl String_too_long | Some q => k q end in
        match p1 with
        | [] => inl Unknown_escape_code
        | d :: p2 =>
            if (d =? 39) || (d =? 34) || (d =? 92) then esc d (parse_string_loop p2)
            else if d =? 110 then esc 10 (parse_string_loop p2)
            else if d =? 114 then esc 13 (parse_string_loop p2)
            else if d =? 116 then esc 9 (parse_string_loop p2)
            else if d =? 120 then
              match p2 with
              | [] => inl Invalid_hex_digit
              | h1 :: p3 =>
                  if from_hex h1 <? 0 then inl Invalid_hex_digit
                  else
                    match p3 with
                    | [] => inl Invalid_hex_digit
                    | h2 :: p4 =>
                        if from_hex h2 <? 0 then inl Invalid_hex_digit
                        else esc ((from_hex h1 << 4) .| from_hex h2) (parse_string_loop p4)
                    end
              end
            else inl Unknown_escape_code
        end
      else
        match add_char c q with None => inl String_too_long | Some q => parse_string_loop p1 q end
  end.

(** At the opening quote. *)
Definition parse_string (p : text) : json_err + text * text := parse_string_loop (tl p) [].

(** [parse_ident] with a buffer of 128 bytes: [None] if the identifier is longer
    than 127 characters.  [n] counts the characters left. *)
Fixpoint ident_rest (n : nat) (p : text) : option (text * text) :=
  if is_ident_first (ch p) || isdigit (ch p) then
    match n, p with
    | S n', c :: p' => prod_map (cons c) id <$> ident_rest n' p'
    | _, _ => None
    end
  else Some ([], p).

Definition parse_ident (p : text) : option (text * text) :=
  prod_map (cons (ch p)) id <$> ident_rest 126 (tl p).

(** ** Values *)

Fixpoint props_get (props : list (text * JSONValue)) (name : text) : option JSONValue :=
  match props with
  | [] => None
  | (n, v) :: props => if decide (n = name) then Some v else props_get props name
  end.

Definition json_object_get (val : JSONValue) (name : text) : JSONValue :=
  match val with
  | JSON_OBJ props => default JSON_UNDEFINED (props_get props name)
  | _ => JSON_UNDEFINED
  end.

(** [json_object_set] on the properties: replaces the value or appends. *)
Fixpoint props_set (props : list (text * JSONValue)) (name : text) (v : JSONValue) : list (text * JSONValue) :=
  match props with
  | [] => [(name, v)]
  | (n, w) :: props => if decide (n = name) then (n, v) :: props else (n, w) :: props_set props name v
  end.

Definition json_object_set (val : JSONValue) (name : text) (v : JSONValue) : option JSONValue :=
  match val with JSON_OBJ props => Some (JSON_OBJ (props_set props name v)) | _ => None end.

(** [idx] is not negative in the callers. *)
Definition json_array_get (val : JSONValue) (idx : nat) : JSONValue :=
  match val with JSON_ARRAY tab => default JSON_UNDEFINED (tab !! idx) | _ => JSON_UNDEFINED end.

Definition json_array_set (val : JSONValue) (idx : nat) (v : JSONValue) : option JSONValue :=
  match val with
  | JSON_ARRAY tab =>
      if (idx <? length tab)%nat then Some (JSON_ARRAY (<[idx := v]> tab))
      else if (idx =? length tab)%nat then Some (JSON_ARRAY (tab ++ [v]))
      else None
  | _ => None
  end.

Definition json_get_str (val : JSONValue) : option text :=
  match val with JSON_STR s => Some s | _ => None end.

Definition json_get_error (val : JSONValue) : option json_err :=
  match val with JSON_EXCEPTION e => Some e | _ => None end.

Definition json_is_error (val : JSONValue) : bool :=
  match val with JSON_EXCEPTION _ => true | _ => false end.

Definition json_is_undefined (val : JSONValue) : bool :=
  match val with JSON_UNDEFINED => true | _ => false end.

(** ** The parser *)

(** The name of a property. *)
Definition parse_name (p : text) : json_err + text * text :=
  if ch p =? 34 then
    match parse_string p with
    | inl e => inl e
    | inr (s, p) => if (length s =? 0)%nat then inl Invalid_property_name else inr (s, p)
    end
  else if is_ident_first (ch p) then
    match parse_ident p with Some (s, p) => inr (s, p) | None => inl Invalid_property_name end
  else inl Invalid_property_name.

(** [null], [true] and [false]. *)
Definition keyword (s : text) : JSONValue :=
  if decide (s = str "null") then JSON_NULL
  else if decide (s = str "true") then JSON_BOOL true
  else if decide (s = str "false") then JSON_BOOL false
  else JSON_EXCEPTION Unknown_identifier.

(** The value and the new [*pp].  The loops over properties and elements return
    the error that ends the enclosing call, or what they collected.  An error of a
    nested value is stored as that value. *)
Fixpoint json_parse_value2 (fuel : nat) (pp : text) : option (JSONValue * text) :=
  match fuel with
  | O => None
  | S fuel =>
      let p := skip_spaces pp in
      let error (e : json_err) := Some (JSON_EXCEPTION e, pp) in
      if ch p =? 0 then error Unexpected_end
      else if (ch p =? 48) && (ch (tl p) =? 120) then
        let '(v, p) := strtoll (tl (tl p)) 16 in Some (JSON_INT v, p)
      else if isdigit (ch p) then
        let '(v, p) := strtoll p 0 in Some (JSON_INT v, p)
      else if ch p =? 34 then
        match parse_string p with
        | inl e => Some (JSON_EXCEPTION e, p)
        | inr (s, p) => Some (JSON_STR s, p)
        end
      else if ch p =? 123 then
        match obj_loop fuel (tl p) [] with
        | None => None
        | Some (inl e) => error e
        | Some (inr (props, p)) => Some (JSON_OBJ props, p)
        end
      else if ch p =? 91 then
        match array_loop fuel (tl p) [] with
        | None => None
        | Some (inl e) => error e
        | Some (inr (tab, p)) => Some (JSON_ARRAY tab, p)
        end
      else if is_ident_first (ch p) then
        match parse_ident p with
        | None => error Unknown_identifier
        | Some (s, p) => if json_is_error (keyword s) then error Unknown_identifier else Some (keyword s, p)
        end
      else error Unexpected_character
  end
with obj_loop (fuel : nat) (p : text) (props : list (text * JSONValue))
  : option (json_err + list (text * JSONValue) * text) :=
  match fuel with
  | O => None
  | S fuel =>
      let p := skip_spaces p in
      if ch p =? 125 then Some (inr (props, tl p))
      else
        match parse_name p with
        | inl e => Some (inl e)
        | inr (name, p) =>
            let p := skip_spaces p in
            if negb (ch p =? 58) then Some (inl Colon_expected)
            else
              match json_parse_value2 fuel (tl p) with
              | None => None
              | Some (v, p) =>
                  let props := props_set props name v in
                  let p := skip_spaces p in
                  if ch p =? 44 then obj_loop fuel (tl p) props
                  else if ch p =? 125 then obj_loop fuel p props
                  else Some (inl Expecting_comma_brace)
              end
        end
  end
with array_loop (fuel : nat) (p : text) (tab : list JSONValue)
  : option (json_err + list JSONValue * text) :=
  match fuel with
  | O => None
  | S fuel =>
      let p := skip_spaces p in
      if ch p =? 93 then Some (inr (tab, tl p))
      else
        match json_parse_value2 fuel p with
        | None => None
        | Some (v, p) =>
            let p := skip_spaces p in
            if ch p =? 44 then array_loop fuel (tl p) (tab ++ [v])
            else if ch p =? 93 then array_loop fuel p (tab ++ [v])
            else Some (inl Expecting_comma_bracket)
        end
  end.

(** Twice the length of the text is enough fuel. *)
Definition parse_fuel (p : text) : nat := 2 * length p + 1.

Definition json_parse_value (p : text) : option JSONValue :=
  match json_parse_value2 (parse_fuel p) p with
  | None => None
  | Some (v, p) =>
      Some (if json_is_error v then v
            else if ch (skip_spaces p) =? 0 then v
            else JSON_EXCEPTION Unexpected_trailing)
  end.

(** The copy is terminated, and ends at an embedded NUL. *)
Definition json_parse_value_len (p : text) (len : nat) : option JSONValue :=
  json_parse_value (cstr (take len p)).
