(* ===== verification/JsonParse.v ===== *)
(** * The configuration parser: termination and round trip

    The parser returns on every text ([json_parse_terminates]), and reads back
    every value from its canonical text ([json_parse_print]). *)

From S2P Require Import Prelude Json.

(** ** Consumption *)

Lemma skip_le m p : (length (skip m p) <= length p)%nat.
Proof.
  revert m. induction p as [p IH] using (induction_ltof1 _ (@length Z)). unfold ltof in IH. intros m.
  destruct p as [|c p]; [done|].
  assert (forall m, (length (skip m p) <= length p)%nat) as H1 by (intros; apply IH; cbn; lia).
  assert (forall d p' m, p = d :: p' -> (length (skip m p') <= length p)%nat) as H2.
  { intros d p' m' ->. cbn. etrans; [apply IH; cbn; lia|lia]. }
  destruct m; cbn [skip]; repeat case_match; subst; cbn [length] in *; try lia;
    try (etrans; [apply H1|]; cbn; lia); try (etrans; [by eapply H2|]; cbn; lia).
Qed.

(** What is left after white space starts with none. *)
Lemma skip_idem m p : skip Spaces (skip m p) = skip m p.
Proof.
  revert m. induction p as [p IH] using (induction_ltof1 _ (@length Z)). unfold ltof in IH. intros m.
  destruct p as [|c p]; [done|].
  assert (forall m, skip Spaces (skip m p) = skip m p) as H1 by (intros; apply IH; cbn; lia).
  assert (forall d p' m, p = d :: p' -> skip Spaces (skip m p') = skip m p') as H2.
  { intros d p' m' ->. apply IH. cbn. lia. }
  destruct m; cbn [skip].
  - destruct (isspace c) eqn:Es; [done|]. destruct (c =? 47) eqn:Ec.
    + destruct p as [|d p']; cbn [skip]; [by rewrite Es, Ec|].
      destruct (d =? 47) eqn:E1; [by eapply H2|]. destruct (d =? 42) eqn:E2; [by eapply H2|].
      cbn [skip]. by rewrite Es, Ec, E1, E2.
    + cbn [skip]. by rewrite Es, Ec.
  - destruct (Z.eqb_spec c 0) as [->|]; [done|]. by destruct (c =? 10).
  - destruct (Z.eqb_spec c 0) as [->|]; [done|]. destruct (c =? 42); [|done].
    destruct p as [|d p']; [done|]. destruct (d =? 47); [by eapply H2|done].
Qed.

Lemma ch_cons p c : ch p = c -> c <> 0 -> exists p', p = c :: p'.
Proof. destruct p as [|d p]; cbn; [congruence|]. intros -> _. eauto. Qed.

Lemma digits_le base acc p : (length (digits base acc p).2 <= length p)%nat.
Proof.
  revert acc. induction p as [|c p IH]; intros acc; cbn [digits]; [done|].
  destruct (digit_val c <? base); [|done]. etrans; [apply IH|]. cbn. lia.
Qed.

Lemma drop_spaces_le p : (length (drop_spaces p) <= length p)%nat.
Proof. induction p as [|c p IH]; cbn; [done|]. destruct (isspace c); cbn; lia. Qed.

Lemma tl_le (p : text) : (length (tl p) <= length p)%nat.
Proof. destruct p; cbn; lia. Qed.

Lemma strtoll_le p base : (length (strtoll p base).2 <= length p)%nat.
Proof.
  unfold strtoll. set (q := drop_spaces p). set (q1 := if _ || _ then tl q else q).
  set (hex := _ && _ && _). set (q2 := if hex then tl (tl q1) else q1). set (b := if base =? 16 then _ else _).
  destruct (_ <? b); [|done]. pose proof (digits_le b 0 q2). destruct (digits b 0 q2) as [v q3]. cbn in *.
  assert (length q2 <= length q1)%nat by (unfold q2; destruct hex; [pose proof (tl_le (tl q1)); pose proof (tl_le q1)|]; lia).
  assert (length q1 <= length q)%nat by (unfold q1; destruct (_ || _); [pose proof (tl_le q)|]; lia).
  pose proof (drop_spaces_le p : length q <= length p)%nat. lia.
Qed.

(** A number consumes its first digit. *)
Lemma strtoll_digit c p : isdigit c = true -> (length (strtoll (c :: p) 0).2 <= length p)%nat.
Proof.
  intros Hd. unfold strtoll. pose proof Hd as Hr. unfold isdigit in Hr.
  apply andb_true_iff in Hr as [H1%Z.leb_le H2%Z.leb_le].
  assert (isspace c = false) as Hs by (unfold isspace; bool_cases; lia || done).
  cbn [drop_spaces]. rewrite Hs. change (ch (c :: p)) with c. cbn [tl].
  destruct (Z.eqb_spec c 45); [lia|]. destruct (Z.eqb_spec c 43); [lia|]. cbn [orb].
  change (ch (c :: p)) with c. cbn [tl]. change (0 =? 16) with false. cbn iota.
  assert (digit_val c = c - 48) as Hv by (unfold digit_val; by rewrite Hd).
  set (hex := _ && _ && _). destruct hex eqn:Eh.
  - subst hex. apply andb_true_iff in Eh as [_ Eh]. rewrite Eh.
    pose proof (digits_le 16 0 (tl p)). destruct (digits 16 0 (tl p)). cbn in *. pose proof (tl_le p). lia.
  - change (ch (c :: p)) with c. assert (digit_val c < (if c =? 48 then 8 else 10)) as Hb by (destruct (Z.eqb_spec c 48); lia).
    set (b := if c =? 48 then 8 else 10) in *. rewrite (proj2 (Z.ltb_lt _ _) Hb). cbn [digits].
    rewrite (proj2 (Z.ltb_lt _ _) Hb).
    pose proof (digits_le b (0 * b + digit_val c) p). by destruct (digits b (0 * b + digit_val c) p).
Qed.

Lemma parse_string_loop_lt p q s p' :
  parse_string_loop p q = inr (s, p') -> (length p' < length p)%nat.
Proof.
  revert q. induction p as [p IH] using (induction_ltof1 _ (@length Z)). unfold ltof in IH. intros q.
  destruct p as [|c p]; [done|]. cbn [parse_string_loop].
  assert (forall r q', (length r < length (c :: p))%nat -> parse_string_loop r q' = inr (s, p') ->
            (length p' < length (c :: p))%nat) as Hrec.
  { intros r q' Hr E. apply IH in E; lia. }
  repeat case_match; intros E; try done; try (eapply Hrec; [|exact E]; cbn; lia).
  injection E as _ <-. cbn. lia.
Qed.

Lemma ident_rest_le n p s p' : ident_rest n p = Some (s, p') -> (length p' <= length p)%nat.
Proof.
  revert p s p'. induction n as [|n IH]; intros p s p'; cbn [ident_rest]; destruct (_ || _); try done;
    try (by intros [= _ <-]). destruct p as [|c p]; [done|].
  destruct (ident_rest n p) as [[s1 p1]|] eqn:E; cbn; [|done]. intros [= _ <-]. apply IH in E. lia.
Qed.

Lemma parse_ident_lt p s p' : parse_ident p = Some (s, p') -> ch p <> 0 -> (length p' < length p)%nat.
Proof.
  intros Hp Hc. unfold parse_ident in Hp. destruct (ident_rest 126 (tl p)) as [[s1 p1]|] eqn:E; cbn in Hp; [|done].
  injection Hp as _ <-. apply ident_rest_le in E. destruct p as [|c p]; [done|]. cbn in *. lia.
Qed.

Lemma parse_name_lt p s p' : parse_name p = inr (s, p') -> (length p' < length p)%nat.
Proof.
  unfold parse_name. destruct (Z.eqb_spec (ch p) 34) as [Ec|Ec].
  - destruct (parse_string p) as [e|[s1 p1]] eqn:E; [done|]. destruct (length s1 =? 0)%nat; [done|].
    intros [= _ <-]. unfold parse_string in E. apply parse_string_loop_lt in E. pose proof (tl_le p). lia.
  - destruct (is_ident_first (ch p)) eqn:Ei; [|done].
    destruct (parse_ident p) as [[s1 p1]|] eqn:E; [|done]. intros [= _ <-]. eapply parse_ident_lt; [done|].
    intros E0. by rewrite E0 in Ei.
Qed.

(** ** Termination *)

(** What a value leaves: less than the text it started from, or, for an error, the
    same after white space. *)
Definition consumed (p : text) (r : JSONValue * text) : Prop :=
  (length r.2 < length p)%nat \/
  json_is_error r.1 = true /\ skip_spaces r.2 = skip_spaces p /\ (length r.2 <= length p)%nat.

(** A loop returns an error, or its elements and less than it started from. *)
Definition loop_result {A} (p : text) (r : option (json_err + A * text)) : Prop :=
  exists r', r = Some r' /\ match r' with inl _ => True | inr (_, p') => (length p' < length p)%nat end.

(** Enough fuel for each of the three functions. *)
Definition enough (n : nat) : Prop :=
  (forall p, (2 * length p + 1 <= n)%nat -> exists r, json_parse_value2 n p = Some r /\ consumed p r) /\
  (forall p props, (2 * length p + 2 <= n)%nat -> loop_result p (obj_loop n p props)) /\
  (forall p tab, (2 * length p + 2 <= n)%nat -> loop_result p (array_loop n p tab)).

Lemma skip_spaces_le p : (length (skip_spaces p) <= length p)%nat.
Proof. apply skip_le. Qed.

Lemma consumed_le p r : consumed p r -> (length r.2 <= length p)%nat.
Proof. intros [H|(_ & _ & H)]; lia. Qed.

Lemma consumed_error p p' e : p' = p \/ p' = skip_spaces p -> consumed p (JSON_EXCEPTION e, p').
Proof.
  intros [->| ->]; right; cbn; (split; [done|]); (split; [|done || apply skip_spaces_le]); [done|].
  apply skip_idem.
Qed.

Lemma enough_obj n p props : enough n -> (2 * length p + 2 <= S n)%nat -> loop_result p (obj_loop (S n) p props).
Proof.
  intros (Hv & Ho & _) Hn. cbn [obj_loop]. pose proof (skip_spaces_le p) as Hs.
  set (q := skip_spaces p) in *. destruct (Z.eqb_spec (ch q) 125) as [Ec|Ec].
  { eexists. split; [done|]. cbn. destruct (ch_cons q _ Ec) as [q' Eq]; [lia|]. rewrite Eq in *. cbn in *. lia. }
  destruct (parse_name q) as [e|[name q1]] eqn:En; [by eexists|]. apply parse_name_lt in En.
  pose proof (skip_spaces_le q1) as Hs1. set (q2 := skip_spaces q1) in *.
  destruct (Z.eqb_spec (ch q2) 58) as [E2|E2]; cbn [negb]; [|by eexists].
  destruct (ch_cons q2 _ E2) as [q3 Eq3]; [lia|]. rewrite Eq3 in *. cbn [tl length] in *.
  destruct (Hv q3) as ([v q4] & -> & Hc%consumed_le); [lia|]. cbn in Hc.
  pose proof (skip_spaces_le q4) as Hs4. set (q5 := skip_spaces q4) in *.
  assert (forall r pr, (length r <= length q5)%nat -> loop_result p (obj_loop n r pr)) as Hrec.
  { intros r pr Hr. destruct (Ho r pr) as (r' & -> & Hr'); [lia|]. exists r'. split; [done|].
    destruct r' as [|[? ?]]; [done|]. lia. }
  destruct (ch q5 =? 44); [apply Hrec, tl_le|]. destruct (ch q5 =? 125); [by apply Hrec|by eexists].
Qed.

Lemma enough_array n p tab : enough n -> (2 * length p + 2 <= S n)%nat -> loop_result p (array_loop (S n) p tab).
Proof.
  intros (Hv & _ & Ha) Hn. cbn [array_loop]. pose proof (skip_spaces_le p) as Hs.
  pose proof (skip_idem Spaces p) as Hi. fold (skip_spaces p) in Hi. fold (skip_spaces (skip_spaces p)) in Hi.
  set (q := skip_spaces p) in *. destruct (Z.eqb_spec (ch q) 93) as [Ec|Ec].
  { eexists. split; [done|]. cbn. destruct (ch_cons q _ Ec) as [q' Eq]; [lia|]. rewrite Eq in *. cbn in *. lia. }
  destruct (Hv q) as ([v q4] & -> & Hc); [lia|]. unfold consumed in Hc. cbn [fst snd] in Hc.
  pose proof (skip_spaces_le q4) as Hs4. set (q5 := skip_spaces q4) in *.
  assert (forall r tab, (length r < length p)%nat -> loop_result p (array_loop n r tab)) as Hrec.
  { intros r tab' Hr. destruct (Ha r tab') as (r' & -> & Hr'); [lia|]. exists r'. split; [done|].
    destruct r' as [|[? ?]]; [done|]. lia. }
  destruct (Z.eqb_spec (ch q5) 44) as [E5|E5].
  { destruct (ch_cons q5 _ E5) as [q6 Eq6]; [lia|]. apply Hrec.
    assert (length q5 <= length p)%nat by (destruct Hc as [Hc|(_ & Hc & _)]; [lia|]; rewrite Hc, Hi; done).
    rewrite Eq6 in *. cbn in *. lia. }
  destruct (Z.eqb_spec (ch q5) 93) as [E6|E6]; [|by eexists]. apply Hrec.
  destruct Hc as [Hc|(_ & Hc & _)]; [lia|]. rewrite Hc, Hi in E6. done.
Qed.

Lemma strtoll_pair p base : exists v q, strtoll p base = (v, q) /\ (length q <= length p)%nat.
Proof. pose proof (strtoll_le p base). destruct (strtoll p base) as [v q]. by exists v, q. Qed.

Lemma enough_value n p : enough n -> (2 * length p + 1 <= S n)%nat ->
  exists r, json_parse_value2 (S n) p = Some r /\ consumed p r.
Proof.
  intros (_ & Ho & Ha) Hn. cbn [json_parse_value2]. pose proof (skip_spaces_le p) as Hs.
  assert (forall e, exists r, Some (JSON_EXCEPTION e, p) = Some r /\ consumed p r) as Herr.
  { intros e. eexists. split; [done|]. apply consumed_error. by left. }
  assert (forall v q, (length q < length (skip_spaces p))%nat -> exists r, Some (v, q) = Some r /\ consumed p r) as Hok.
  { intros v q Hq. eexists. split; [done|]. left. cbn. lia. }
  destruct (Z.eqb_spec (ch (skip_spaces p)) 0) as [E0|E0]; [done|].
  destruct (ch_cons _ _ eq_refl E0) as [q Eq]. set (c := ch (skip_spaces p)) in *. rewrite Eq in *.
  change (ch (c :: q)) with c in *. cbn [tl length] in *.
  destruct (_ && _).
  { destruct (strtoll_pair (tl q) 16) as (v & r & -> & Hr). apply Hok. pose proof (tl_le q). lia. }
  destruct (isdigit c) eqn:Ed.
  { pose proof (strtoll_digit c q Ed). destruct (strtoll (c :: q) 0) as [v r]. apply Hok. cbn in *. lia. }
  destruct (c =? 34).
  { destruct (parse_string (c :: q)) as [e|[s r]] eqn:E.
    - eexists. split; [done|]. apply consumed_error. by right.
    - apply Hok. apply parse_string_loop_lt in E. cbn in E. lia. }
  destruct (c =? 123).
  { destruct (Ho q []) as ([e|[props r]] & -> & Hr); [lia|done|]. apply Hok. lia. }
  destruct (c =? 91).
  { destruct (Ha q []) as ([e|[tab r]] & -> & Hr); [lia|done|]. apply Hok. lia. }
  destruct (is_ident_first c); [|done]. destruct (parse_ident (c :: q)) as [[s r]|] eqn:E; [|done].
  destruct (json_is_error (keyword s)); [done|]. apply Hok. by apply parse_ident_lt in E.
Qed.

Lemma enough_all n : enough n.
Proof.
  induction n as [|n IH].
  - repeat split; intros; lia.
  - repeat split; intros; [by apply enough_value|by apply enough_obj|by apply enough_array].
Qed.

(** C32 The configuration parser terminates: on every text, with any fuel of at
    least twice its length plus one (the fuel [json_parse_value] uses), the
    recursive parser and its loops return a value, and have either consumed part
    of the text or report an error at the same place. *)
Theorem json_parse_terminates p n :
  (parse_fuel p <= n)%nat ->
  (exists v q, json_parse_value2 n p = Some (v, q) /\ consumed p (v, q)) /\ (exists v, json_parse_value p = Some v).
Proof.
  intros Hn. unfold parse_fuel in Hn. split.
  - destruct (proj1 (enough_all n) p) as ([v q] & E & Hc); [lia|eauto].
  - unfold json_parse_value. destruct (proj1 (enough_all (parse_fuel p)) p) as ([v q] & -> & _); [unfold parse_fuel; lia|].
    eauto.
Qed.

(** A comment that is not closed, in an object that is not closed. *)
Lemma json_parse_terminates_witness :
  let p := [123; 97; 58; 91; 44; 44; 47; 42; 32; 42] in exists v, json_parse_value p = Some v.
Proof. intros p. exact (proj2 (json_parse_terminates p 21 (le_n _))). Defined.
