(* ===== verification/JsonPrint.v ===== *)
(** * The configuration parser: round trip

    A canonical text of the values that a configuration can hold ([print]), and
    that the parser of [Json] reads every such value back ([json_parse_print]). *)

From S2P Require Import Prelude Json JsonParse.
From Stdlib Require String.
Import String.StringSyntax.

(** ** Canonical texts *)

Definition escape (c : Z) : text :=
  if (c =? 34) || (c =? 92) then [92; c] else if c =? 10 then [92; 110] else [c].

Definition print_str (s : text) : text := 34 :: mjoin (escape <$> s) ++ [34].

Fixpoint commas (l : list text) : text :=
  match l with [] => [] | [x] => x | x :: l => x ++ 44 :: commas l end.

Fixpoint print (v : JSONValue) : text :=
  match v with
  | JSON_STR s => print_str s
  | JSON_INT n => print_int n
  | JSON_OBJ props => 123 :: commas (map (fun '(name, v) => print_str name ++ 58 :: print v) props) ++ [125]
  | JSON_ARRAY tab => 91 :: commas (map print tab) ++ [93]
  | JSON_BOOL b => if b then str "true" else str "false"
  | JSON_NULL => str "null"
  | JSON_UNDEFINED | JSON_EXCEPTION _ => []
  end.

(** A C string that fits the buffer of [parse_string]. *)
Definition str_ok (s : text) : bool := forallb (fun c => negb (c =? 0)) s && (length s <=? Z.to_nat 4095)%nat.

(** The values a text stands for: no error, integers of [strtoll] without sign,
    the names of an object distinct and not empty. *)
Fixpoint json_ok (v : JSONValue) : bool :=
  match v with
  | JSON_STR s => str_ok s
  | JSON_INT n => (0 <=? n) && (n <? 2 ^ 63)
  | JSON_OBJ props =>
      bool_decide (NoDup props.*1) &&
      forallb (fun '(name, v) => str_ok name && negb (length name =? 0)%nat && json_ok v) props
  | JSON_ARRAY tab => forallb json_ok tab
  | JSON_BOOL _ | JSON_NULL => true
  | JSON_UNDEFINED | JSON_EXCEPTION _ => false
  end.

(** Induction over values, with the elements of objects and arrays. *)
Section JSONValue_ind.
  Context (P : JSONValue -> Prop) (Hstr : forall s, P (JSON_STR s)) (Hint : forall n, P (JSON_INT n))
    (Hobj : forall props, Forall (fun x => P x.2) props -> P (JSON_OBJ props))
    (Harray : forall tab, Forall P tab -> P (JSON_ARRAY tab)) (Hbool : forall b, P (JSON_BOOL b))
    (Hnull : P JSON_NULL) (Hundef : P JSON_UNDEFINED) (Hexc : forall e, P (JSON_EXCEPTION e)).

Fixpoint JSONValue_nested_ind (v : JSONValue) : P v :=
  match v with
  | JSON_STR s => Hstr s
  | JSON_INT n => Hint n
  | JSON_OBJ props =>
      Hobj props ((fix go l := match l return Forall (fun x => P x.2) l with
                               | [] => Forall_nil_2 _
                               | x :: l => Forall_cons_2 _ x l (JSONValue_nested_ind x.2) (go l)
                               end) props)
  | JSON_ARRAY tab =>
      Harray tab ((fix go l := match l return Forall P l with
                               | [] => Forall_nil_2 _
                               | x :: l => Forall_cons_2 _ x l (JSONValue_nested_ind x) (go l)
                               end) tab)
  | JSON_BOOL b => Hbool b
  | JSON_NULL => Hnull
  | JSON_UNDEFINED => Hundef
  | JSON_EXCEPTION e => Hexc e
  end.
End JSONValue_ind.

(** ** Integers *)

(** What may follow a number or a keyword. *)
Definition ends (p : text) : Prop := is_ident_first (ch p) || isdigit (ch p) = false.

Lemma ends_digit_val p : ends p -> digit_val (ch p) = 36.
Proof.
  unfold ends, is_ident_first, digit_val, isdigit. intros H. bool_cases; done || lia.
Qed.

Lemma digit_char n : digit_val (48 + n mod 10) = n mod 10 /\ isdigit (48 + n mod 10) = true.
Proof.
  assert (0 <= n mod 10 < 10) by (apply Z.mod_pos_bound; lia).
  unfold digit_val. assert (isdigit (48 + n mod 10) = true) as -> by (unfold isdigit; bool_cases; done || lia).
  split; [lia|done].
Qed.

Lemma digits_dec fuel n p :
  0 <= n < 10 ^ Z.of_nat fuel -> (0 < fuel)%nat -> digits 10 0 (dec_digits fuel n ++ p) = digits 10 n p.
Proof.
  revert n p. induction fuel as [|fuel IH]; intros n p Hn Hf; [lia|]. cbn [dec_digits].
  destruct (digit_char n) as [Hd _]. pose proof (Z.mod_pos_bound n 10). pose proof (Z.div_mod n 10).
  assert ((digit_val (48 + n mod 10) <? 10) = true) as Hlt by (rewrite Hd; apply Z.ltb_lt; lia).
  destruct (Z.ltb_spec n 10) as [H10|H10].
  - cbn [app digits]. rewrite Hlt, Hd. f_equal. rewrite Z.mod_small; lia.
  - rewrite Nat2Z.inj_succ, Z.pow_succ_r in Hn by lia. rewrite <- app_assoc, IH.
    + cbn [app digits]. rewrite Hlt, Hd. f_equal. lia.
    + split; [apply Z.div_pos; lia|]. apply Z.div_lt_upper_bound; lia.
    + destruct fuel; [|lia]. cbn in Hn. lia.
Qed.

(** The first digit is zero only for the number zero. *)
Lemma dec_digits_head fuel n :
  0 <= n < 10 ^ Z.of_nat fuel -> (0 < fuel)%nat ->
  exists c q, dec_digits fuel n = c :: q /\ isdigit c = true /\ (c = 48 -> n = 0 /\ q = []).
Proof.
  revert n. induction fuel as [|fuel IH]; intros n Hn Hf; [lia|]. cbn [dec_digits].
  destruct (digit_char n) as [_ Hd]. destruct (Z.ltb_spec n 10) as [H10|H10].
  - eexists _, _. split; [done|]. split; [done|]. rewrite Z.mod_small by lia. intros. split; [lia|done].
  - rewrite Nat2Z.inj_succ, Z.pow_succ_r in Hn by lia. destruct (IH (n / 10)) as (c & q & -> & Hc & H0).
    + split; [apply Z.div_pos; lia|]. apply Z.div_lt_upper_bound; lia.
    + destruct fuel; [|lia]. cbn in Hn. lia.
    + eexists _, _. split; [done|]. split; [done|]. intros [E _]%H0.
      assert (1 <= n / 10) by (apply Z.div_le_lower_bound; lia). lia.
Qed.

Lemma digits_ends n p : ends p -> digits 10 n p = (n, p).
Proof.
  intros H%ends_digit_val. destruct p as [|c p]; [done|]. cbn [digits]. change (ch (c :: p)) with c in H. by rewrite H.
Qed.

Lemma isdigit_range c : isdigit c = true -> 48 <= c <= 57.
Proof. unfold isdigit. lia. Qed.

Lemma strtoll_print n p : 0 <= n < 2 ^ 63 -> ends p -> strtoll (print_int n ++ p) 0 = (n, p).
Proof.
  intros Hn Hp. assert (0 <= n < 10 ^ Z.of_nat 19) as Hn' by (cbn; lia).
  pose proof (digits_dec 19 n p Hn' ltac:(lia)) as Hd.
  destruct (dec_digits_head 19 n Hn' ltac:(lia)) as (c & q & E & Hc & H0). unfold print_int, strtoll. rewrite E in *.
  cbn [app] in *. pose proof (isdigit_range c Hc).
  assert (isspace c = false) as Hs by (unfold isspace; bool_cases; lia || done).
  cbn [drop_spaces]. rewrite Hs. change (ch (c :: q ++ p)) with c. cbn [tl].
  destruct (Z.eqb_spec c 45); [lia|]. destruct (Z.eqb_spec c 43); [lia|]. cbn [orb].
  change (ch (c :: q ++ p)) with c. cbn [tl]. change (0 =? 16) with false. cbn iota.
  destruct (Z.eqb_spec c 48) as [->|].
  - destruct H0 as [-> ->]; [done|]. cbn [app] in *. pose proof (ends_digit_val p Hp) as Hv.
    destruct (Z.eqb_spec (ch p) 120) as [Ex|]; [by rewrite Ex in Hv|].
    destruct (Z.eqb_spec (ch p) 88) as [Ex|]; [by rewrite Ex in Hv|]. cbn [orb andb].
    change (digit_val (ch (48 :: p)) <? 8) with true. cbn iota. cbn [digits].
    change (digit_val 48 <? 8) with true. cbn iota. change (0 * 8 + digit_val 48) with 0.
    destruct p as [|d p]; [done|]. cbn [digits]. change (ch (d :: p)) with d in Hv. by rewrite Hv.
  - cbn [andb]. change (ch (c :: q ++ p)) with c.
    assert ((digit_val c <? 10) = true) as -> by (unfold digit_val; rewrite Hc; apply Z.ltb_lt; lia).
    rewrite Hd, digits_ends by done. f_equal. lia.
Qed.

(** ** Strings *)

Lemma add_char_ok c q : (length q < Z.to_nat 4095)%nat -> add_char c q = Some (c :: q).
Proof. intros H. unfold add_char. destruct (Z.leb_spec 4095 (Z.of_nat (length q))); [lia|done]. Qed.

Lemma parse_string_escape s p q :
  forallb (fun c => negb (c =? 0)) s = true -> (length q + length s <= Z.to_nat 4095)%nat ->
  parse_string_loop (mjoin (escape <$> s) ++ 34 :: p) q = inr (cstr (rev q ++ s), p).
Proof.
  revert q. induction s as [|c s IH]; intros q Hs Hl.
  - cbn [fmap list_fmap mjoin list_join app]. cbn. by rewrite app_nil_r.
  - cbn [forallb] in Hs. apply andb_true_iff in Hs as [Hc Hs]. cbn [length] in Hl.
    change (mjoin (escape <$> c :: s)) with (escape c ++ mjoin (escape <$> s)). rewrite <- app_assoc.
    assert (parse_string_loop (mjoin (escape <$> s) ++ 34 :: p) (c :: q) = inr (cstr (rev q ++ c :: s), p)) as HI.
    { rewrite IH by (done || cbn; lia). cbn [rev]. by rewrite <- app_assoc. }
    unfold escape at 1. destruct (Z.eqb_spec c 34) as [->|H34]; [cbn -[add_char Z.to_nat cstr rev]; by rewrite add_char_ok by lia|].
    destruct (Z.eqb_spec c 92) as [->|H92]; [cbn -[add_char Z.to_nat cstr rev]; by rewrite add_char_ok by lia|]. cbn [orb].
    destruct (Z.eqb_spec c 10) as [->|H10]; [cbn -[add_char Z.to_nat cstr rev]; by rewrite add_char_ok by lia|].
    cbn [app parse_string_loop]. apply negb_true_iff in Hc. rewrite Hc.
    rewrite (proj2 (Z.eqb_neq c 10) H10), (proj2 (Z.eqb_neq c 34) H34), (proj2 (Z.eqb_neq c 92) H92). cbn [orb].
    by rewrite add_char_ok by lia.
Qed.

Lemma cstr_nonzero s : forallb (fun c => negb (c =? 0)) s = true -> cstr s = s.
Proof.
  induction s as [|c s IH]; cbn; [done|]. intros [Hc Hs]%andb_true_iff. apply negb_true_iff in Hc. by rewrite Hc, IH.
Qed.

Lemma parse_string_print s p : str_ok s = true -> parse_string (print_str s ++ p) = inr (s, p).
Proof.
  intros [Hs Hl%Nat.leb_le]%andb_true_iff. unfold parse_string, print_str. cbn [app tl]. rewrite <- app_assoc. cbn [app].
  rewrite parse_string_escape by (done || (cbn [length]; lia)). cbn [rev app]. by rewrite cstr_nonzero.
Qed.

Lemma print_str_cons s p : exists q, print_str s ++ p = 34 :: q.
Proof. by eexists. Qed.

Lemma parse_name_print s p :
  str_ok s = true -> negb (length s =? 0)%nat = true -> parse_name (print_str s ++ p) = inr (s, p).
Proof.
  intros Hs Hl%negb_true_iff. pose proof (parse_string_print s p Hs) as E. unfold parse_name.
  destruct (print_str_cons s p) as [q Eq]. rewrite Eq in *. change (ch (34 :: q) =? 34) with true. cbn iota. by rewrite E, Hl.
Qed.

(** ** Values *)

(** The first character of a value. *)
Definition starts (c : Z) : bool :=
  (c =? 34) || isdigit c || (c =? 123) || (c =? 91) || (c =? 110) || (c =? 116) || (c =? 102).

Lemma print_head v : json_ok v = true -> exists c q, print v = c :: q /\ starts c = true.
Proof.
  destruct v as [s|n|props|tab|[]| | |e]; cbn [json_ok print]; intros H; try done;
    try (eexists _, _; split; [reflexivity|reflexivity]).
  apply andb_true_iff in H as [H1%Z.leb_le H2%Z.ltb_lt].
  destruct (dec_digits_head 19 n) as (c & q & E & Hc & _); [cbn; lia|lia|].
  exists c, q. split; [done|]. unfold starts. rewrite Hc. by destruct (c =? 34).
Qed.

Lemma skip_starts c p : starts c = true -> skip_spaces (c :: p) = c :: p.
Proof.
  unfold starts, isdigit. intros H. unfold skip_spaces. cbn [skip].
  assert (isspace c = false) as -> by (unfold isspace; bool_cases; lia || done).
  by destruct (Z.eqb_spec c 47) as [->|].
Qed.

Definition reads_back (v : JSONValue) : Prop :=
  json_ok v = true -> forall p n, ends p -> (2 * length (print v ++ p) + 1 <= n)%nat ->
  json_parse_value2 n (print v ++ p) = Some (v, p).

Lemma array_reads_back tab : Forall reads_back tab -> forallb json_ok tab = true ->
  forall p acc n, (2 * length (commas (map print tab) ++ 93%Z :: p) + 2 <= n)%nat ->
  array_loop n (commas (map print tab) ++ 93 :: p) acc = Some (inr (acc ++ tab, p)).
Proof.
  induction 1 as [|v tab Hv Ht IH]; intros Hok p acc n Hn.
  - destruct n as [|n]; [lia|]. cbn. by rewrite app_nil_r.
  - cbn [forallb] in Hok. apply andb_true_iff in Hok as [Hokv Hok]. destruct n as [|n]; [lia|].
    destruct (print_head v Hokv) as (c & q & Eq & Hc). specialize (Hv Hokv).
    assert (forall r, skip_spaces (print v ++ r) = print v ++ r /\ (ch (print v ++ r) =? 93) = false) as Hs.
    { intros r. rewrite Eq. cbn [app]. split; [by apply skip_starts|]. cbn. by destruct (Z.eqb_spec c 93) as [->|]. }
    cbn [map commas] in *. destruct tab as [|w tab'].
    + cbn [map] in *. cbn [array_loop]. destruct (Hs (93 :: p)) as [-> ->].
      rewrite Hv by (done || lia). cbn -[array_loop]. rewrite length_app in Hn. cbn in Hn.
      destruct n as [|n]; [lia|]. done.
    + remember (w :: tab') as tab. assert (map print tab <> []) as Hne by (by subst).
      destruct (map print tab) as [|x l] eqn:El; [done|]. rewrite <- app_assoc in *. cbn [app] in *.
      cbn [array_loop]. destruct (Hs (44 :: commas (x :: l) ++ 93 :: p)) as [-> ->].
      rewrite Hv by (done || lia). cbn -[array_loop commas]. rewrite IH; [by rewrite <- app_assoc|done|].
      rewrite length_app in Hn. cbn [length] in Hn. lia.
Qed.

Lemma props_set_new props name v : name ∉ props.*1 -> props_set props name v = props ++ [(name, v)].
Proof.
  induction props as [|[n w] props IH]; cbn; [done|]. intros [Hn Hni]%not_elem_of_cons.
  destruct (decide (n = name)); [congruence|]. by rewrite IH.
Qed.

Definition print_prop (x : text * JSONValue) : text := let '(name, v) := x in print_str name ++ 58 :: print v.

Definition prop_ok (x : text * JSONValue) : bool :=
  let '(name, v) := x in str_ok name && negb (length name =? 0)%nat && json_ok v.

(** One property: its name, the colon and the value. *)
Lemma prop_reads_back name v r n acc :
  reads_back v -> prop_ok (name, v) = true -> ends r -> name ∉ acc.*1 ->
  (2 * length (print_prop (name, v) ++ r) + 2 <= S n)%nat ->
  obj_loop (S n) (print_prop (name, v) ++ r) acc =
  (let r' := skip_spaces r in
   if ch r' =? 44 then obj_loop n (tl r') (acc ++ [(name, v)])
   else if ch r' =? 125 then obj_loop n r' (acc ++ [(name, v)])
   else Some (inl Expecting_comma_brace)).
Proof.
  unfold prop_ok, print_prop. intros Hv [[Hs Hl]%andb_true_iff Hok]%andb_true_iff Hr Hni Hn.
  rewrite <- app_assoc in *. cbn [app] in *. rewrite length_app in Hn. cbn [length] in Hn. cbn [obj_loop].
  pose proof (parse_name_print name (58 :: print v ++ r) Hs Hl) as En.
  destruct (print_str_cons name (58 :: print v ++ r)) as [q Eq]. rewrite Eq in *.
  rewrite skip_starts by done. change (ch (34 :: q) =? 125) with false. cbn iota. rewrite En.
  change (skip_spaces (58 :: print v ++ r)) with (58 :: print v ++ r).
  change (ch (58 :: print v ++ r) =? 58) with true. cbn [negb tl]. rewrite (Hv Hok) by (done || lia).
  by rewrite props_set_new.
Qed.

Lemma obj_reads_back props : Forall (fun x => reads_back x.2) props -> forallb prop_ok props = true ->
  forall p acc n, NoDup (acc ++ props).*1 -> (2 * length (commas (map print_prop props) ++ 125%Z :: p) + 2 <= n)%nat ->
  obj_loop n (commas (map print_prop props) ++ 125 :: p) acc = Some (inr (acc ++ props, p)).
Proof.
  induction 1 as [|[name v] props Hv Ht IH]; intros Hok p acc n Hnd Hn.
  - destruct n as [|n]; [lia|]. cbn. by rewrite app_nil_r.
  - cbn [forallb] in Hok. apply andb_true_iff in Hok as [Hokv Hok]. destruct n as [|n]; [lia|]. cbn in Hv.
    assert (name ∉ acc.*1) as Hni.
    { rewrite fmap_app in Hnd. apply NoDup_app in Hnd as (_ & Hd & _). intros Hi. by apply (Hd _ Hi), elem_of_cons; left. }
    cbn [map commas] in *. destruct props as [|y props'].
    + cbn [map] in *. rewrite prop_reads_back by done. cbn -[obj_loop].
      rewrite length_app in Hn. cbn in Hn. destruct n as [|n]; [lia|]. done.
    + remember (y :: props') as props. assert (map print_prop props <> []) as Hne by (by subst).
      destruct (map print_prop props) as [|x l] eqn:El; [done|]. rewrite <- app_assoc in *. cbn [app] in *.
      rewrite prop_reads_back by done. cbn -[obj_loop commas].
      rewrite IH; [by rewrite <- app_assoc|done|by rewrite <- app_assoc|].
      rewrite length_app in Hn. cbn [length] in Hn. lia.
Qed.

Lemma ident_rest_print s n p :
  forallb (fun c => is_ident_first c || isdigit c) s = true -> (length s <= n)%nat -> ends p ->
  ident_rest n (s ++ p) = Some (s, p).
Proof.
  revert n. induction s as [|c s IH]; intros n Hs Hn He.
  - destruct n; cbn [app ident_rest]; by rewrite He.
  - cbn [forallb] in Hs. apply andb_true_iff in Hs as [Hc Hs]. cbn [length] in Hn. destruct n as [|n]; [lia|].
    cbn [app ident_rest]. change (ch (c :: s ++ p)) with c. rewrite Hc. by rewrite IH by (done || lia).
Qed.

(** The keywords [null], [true] and [false]. *)
Lemma keyword_reads_back s v p n :
  s = str "null" \/ s = str "true" \/ s = str "false" -> keyword s = v -> json_is_error v = false -> ends p ->
  json_parse_value2 (S n) (s ++ p) = Some (v, p).
Proof.
  intros Hs Hk Hv He.
  assert (exists c q, s = c :: q /\ ident_rest 126 (q ++ p) = Some (q, p)) as (c & q & -> & Hi).
  { destruct Hs as [->|[->| ->]]; eexists _, _; (split; [reflexivity|]); by apply ident_rest_print; [|cbn; lia|]. }
  assert (c = 110 \/ c = 116 \/ c = 102) as Hc by (destruct Hs as [[= -> _]|[[= -> _]|[= -> _]]]; auto).
  cbn [app json_parse_value2]. rewrite skip_starts by (destruct Hc as [->|[->| ->]]; done).
  change (ch (c :: q ++ p)) with c. cbn [tl].
  replace (parse_ident (c :: q ++ p)) with (Some (c :: q, p)) by (unfold parse_ident; cbn [tl]; by rewrite Hi).
  rewrite Hk, Hv. destruct Hc as [->|[->| ->]]; done.
Qed.

Lemma all_read_back v : reads_back v.
Proof.
  induction v as [s|n|props IH|tab IH|b| | |e] using JSONValue_nested_ind; intros Hok p fuel He Hf; cbn [json_ok] in Hok;
    try done; (destruct fuel as [|fuel]; [lia|]).
  - pose proof (parse_string_print s p Hok) as E. cbn [print] in *. destruct (print_str_cons s p) as [q Eq].
    rewrite Eq in *. cbn [json_parse_value2]. rewrite skip_starts by done.
    change (ch (34 :: q)) with 34. cbn -[parse_string]. by rewrite E.
  - apply andb_true_iff in Hok as [H1%Z.leb_le H2%Z.ltb_lt]. cbn [print] in *.
    pose proof (strtoll_print n p ltac:(lia) He) as E.
    destruct (dec_digits_head 19 n) as (c & q & Eq & Hc & H0); [cbn; lia|lia|].
    unfold print_int in *. rewrite Eq in *. cbn [app json_parse_value2] in *.
    rewrite skip_starts by (unfold starts; rewrite Hc; by destruct (c =? 34)).
    change (ch (c :: q ++ p)) with c. cbn [tl]. pose proof (isdigit_range c Hc).
    destruct (Z.eqb_spec c 0); [lia|]. rewrite Hc, E.
    destruct (Z.eqb_spec c 48) as [->|]; [|done]. destruct H0 as [_ ->]; [done|]. cbn [app].
    pose proof (ends_digit_val p He) as Hd. by destruct (Z.eqb_spec (ch p) 120) as [Ex|]; [rewrite Ex in Hd|].
  - apply andb_true_iff in Hok as [Hnd%bool_decide_eq_true Hok].
    change (print (JSON_OBJ props)) with (123 :: commas (map print_prop props) ++ [125]) in *. cbn [app] in *.
    rewrite <- app_assoc in *. cbn [app] in *. cbn [json_parse_value2]. rewrite skip_starts by done.
    change (ch (123 :: _)) with 123. cbn -[obj_loop commas map].
    rewrite (obj_reads_back props IH Hok p [] fuel Hnd) by (cbn [length] in Hf; lia). done.
  - cbn [print app] in *. rewrite <- app_assoc in *. cbn [app] in *. cbn [json_parse_value2]. rewrite skip_starts by done.
    change (ch (91 :: _)) with 91. cbn -[array_loop commas].
    rewrite (array_reads_back tab IH Hok p [] fuel) by (cbn [length] in Hf; lia). done.
  - destruct b; cbn [print]; apply keyword_reads_back; auto.
  - apply keyword_reads_back; auto.
Qed.

Lemma json_value_reads_back v : json_ok v = true -> json_parse_value (print v) = Some v.
Proof.
  intros Hok. unfold json_parse_value. rewrite <- (app_nil_r (print v)). rewrite all_read_back; [|done..]. by destruct v.
Qed.

(** ** Texts without NUL *)

Definition no_nul (p : text) : Prop := Forall (fun c => c <> 0) p.

Lemma no_nul_cstr p : no_nul p -> cstr p = p.
Proof. induction 1 as [|c p Hc Hp IH]; [done|]. cbn. rewrite IH. by destruct (Z.eqb_spec c 0). Qed.

Lemma no_nul_dec fuel n : no_nul (dec_digits fuel n).
Proof.
  revert n. induction fuel as [|fuel IH]; intros n; [constructor|]. cbn [dec_digits]. apply Forall_app. split.
  - destruct (n <? 10); [constructor|apply IH].
  - constructor; [|constructor]. pose proof (Z.mod_pos_bound n 10). lia.
Qed.

Lemma no_nul_str s : str_ok s = true -> no_nul (print_str s).
Proof.
  intros [Hs _]%andb_true_iff. unfold print_str. constructor; [done|]. apply Forall_app. split; [|by repeat constructor].
  induction s as [|c s IH]; [constructor|]. cbn [forallb] in Hs. apply andb_true_iff in Hs as [Hc Hs].
  apply Forall_app. split; [|by apply IH]. apply negb_true_iff, Z.eqb_neq in Hc. unfold escape.
  destruct (_ || _); [by repeat constructor|]. destruct (c =? 10); by repeat constructor.
Qed.

Lemma no_nul_commas l : Forall no_nul l -> no_nul (commas l).
Proof.
  induction 1 as [|x l Hx Hl IH]; [constructor|]. cbn [commas]. destruct l; [done|].
  apply Forall_app. split; [done|]. by constructor.
Qed.

Lemma no_nul_print v : json_ok v = true -> no_nul (print v).
Proof.
  induction v as [s|n|props IH|tab IH|b| | |e] using JSONValue_nested_ind; cbn [json_ok print]; intros Hok; try done.
  - by apply no_nul_str.
  - apply no_nul_dec.
  - apply andb_true_iff in Hok as [_ Hok]. constructor; [done|]. apply Forall_app. split; [|by repeat constructor].
    apply no_nul_commas. induction IH as [|[name v] props Hv _ IH]; [constructor|]. cbn [forallb] in Hok.
    apply andb_true_iff in Hok as [[[Hs _]%andb_true_iff Hj]%andb_true_iff Hok]. constructor; [|by apply IH].
    apply Forall_app. split; [by apply no_nul_str|]. constructor; [done|by apply Hv].
  - constructor; [done|]. apply Forall_app. split; [|by repeat constructor].
    apply no_nul_commas. induction IH as [|v tab Hv _ IH]; [constructor|]. cbn [forallb] in Hok.
    apply andb_true_iff in Hok as [Hj Hok]. constructor; [by apply Hv|by apply IH].
  - destruct b; by repeat constructor.
  - by repeat constructor.
Qed.

Lemma json_parse_len v : json_ok v = true -> json_parse_value_len (print v) (length (print v)) = Some v.
Proof.
  intros H. unfold json_parse_value_len. rewrite firstn_all, no_nul_cstr by (by apply no_nul_print).
  by apply json_value_reads_back.
Qed.

(** The parser reads back what a configuration says: every JSON value (strings
    and names with any bytes but NUL, escapes and quotes included, up to the 4095
    bytes of the buffer, integers from 0 to 2^63 - 1, keywords, objects with
    distinct non-empty names, arrays, nested to any depth) is the result of
    parsing its canonical text, and the parser stops exactly at the end of that
    text whatever follows it. *)
Lemma json_parse_print v p :
  json_ok v = true -> ends p ->
  json_parse_value (print v) = Some v /\
  json_parse_value2 (parse_fuel (print v ++ p)) (print v ++ p) = Some (v, p).
Proof.
  intros Hok He. split; [by apply json_value_reads_back|by apply all_read_back].
Qed.

(** A nested value with every kind of leaf, followed by a comma. *)
Lemma json_parse_print_witness :
  let v := JSON_OBJ [(str "machine", JSON_STR [34; 92; 10; 195]);
                     (str "bootrom", JSON_ARRAY [JSON_INT 0; JSON_INT (2 ^ 63 - 1); JSON_OBJ []; JSON_ARRAY []]);
                     (str "a", JSON_OBJ [(str "a", JSON_BOOL true); (str "b", JSON_NULL)])] in
  json_parse_value (print v) = Some v.
Proof.
  intros v. refine (proj1 (json_parse_print v (str ",") _ _)); [vm_compute|]; reflexivity.
Defined.

(** A defect: errors of nested values are stored as values. *)
Lemma nested_errors_accepted :
  json_parse_value (str "{a:}") = Some (JSON_OBJ [(str "a", JSON_EXCEPTION Unexpected_character)]) /\
  json_parse_value (str "[,]") = Some (JSON_ARRAY [JSON_EXCEPTION Unexpected_character]).
Proof. vm_compute. done. Qed.
