(* ===== verification/Config.v ===== *)
(** * Machine configurations ([src/machine.cpp], [include/machine.h])

    The parameters of a machine, their defaults, and the configuration file that
    sets them.  A configuration that is refused makes the program exit, so that
    [virt_machine_parse_config] returns either the reason or the new parameters.
    A pointer that may be [NULL] is an [option]; the handles of opened disks,
    directories and network interfaces are not part of the parameters here. *)

From S2P Require Import Prelude Json Bootrom Cpu.
From Stdlib Require String.
Import String.StringSyntax.

Definition MAX_DRIVE_DEVICE : nat := 4.
Definition MAX_FS_DEVICE : nat := 4.
Definition MAX_ETH_DEVICE : nat := 1.
Definition VM_CONFIG_VERSION : Z := 1.
Definition VM_FILE_BIOS : nat := 0.
Definition VM_FILE_VGA_BIOS : nat := 1.
Definition VM_FILE_KERNEL : nat := 2.
Definition VM_FILE_INITRD : nat := 3.
Definition VM_FILE_COUNT : nat := 4.

Definition RAM_BASE_ADDR : Z := 0x80000000.
Definition PLIC_BASE_ADDR : Z := 0x10000000.
Definition PLIC_SIZE : Z := 0x2000000.
Definition CLINT_BASE_ADDR : Z := 0x02000000.
Definition CLINT_SIZE : Z := 0x000c0000.
Definition PHYSICAL_ADDR_LEN_DEFAULT : Z := 40.

Record VMFileEntry := mkFile { filename : option text; buf : option (list Z) }.

Record VMDriveEntry := mkDrive { drive_device : option text; drive_filename : option text }.

Record VMFSEntry := mkFS { tag : option text; fs_filename : option text }.

Record VMEthEntry := mkEth { driver : option text; ifname : option text }.

Record VirtMachineParams := mkParams {
  cfg_filename : option text;
  ram_base_addr : Z;
  ram_size : Z;
  rtc_local_time : bool;
  display_device : option text;
  width : Z;
  height : Z;
  tab_drive : list VMDriveEntry;
  drive_count : nat;
  tab_fs : list VMFSEntry;
  fs_count : nat;
  tab_eth : list VMEthEntry;
  eth_count : nat;
  htif_base_addr : Z;
  cmdline : option text;
  accel_enable : bool;
  input_device : option text;
  files : list VMFileEntry;
  maxinsns : Z;
  snapshot_load_name : option text;
  bootrom_name : option text;
  dtb_name : option text;
  compact_bootrom : bool;
  reset_vector : Z;
  ncpus : Z;
  plic_base_addr : Z;
  plic_size : Z;
  clint_base_addr : Z;
  clint_size : Z;
  custom_extension : bool;
  clear_ids : bool;
  physical_addr_len : Z;
  logfile : option text;
  dump_memories : bool;
}.

Definition params_eta (p : VirtMachineParams) : VirtMachineParams :=
  mkParams (cfg_filename p) (ram_base_addr p) (ram_size p) (rtc_local_time p) (display_device p) (width p)
    (height p) (tab_drive p) (drive_count p) (tab_fs p) (fs_count p) (tab_eth p) (eth_count p) (htif_base_addr
    p) (cmdline p) (accel_enable p) (input_device p) (files p) (maxinsns p) (snapshot_load_name p)
    (bootrom_name p) (dtb_name p) (compact_bootrom p) (reset_vector p) (ncpus p) (plic_base_addr p) (plic_size
    p) (clint_base_addr p) (clint_size p) (custom_extension p) (clear_ids p) (physical_addr_len p) (logfile p)
    (dump_memories p).

#[export] Instance upd_p_cfg_filename : Setter cfg_filename := ltac:(setter_of params_eta).
#[export] Instance upd_p_ram_base_addr : Setter ram_base_addr := ltac:(setter_of params_eta).
#[export] Instance upd_p_ram_size : Setter ram_size := ltac:(setter_of params_eta).
#[export] Instance upd_p_rtc_local_time : Setter rtc_local_time := ltac:(setter_of params_eta).
#[export] Instance upd_p_display_device : Setter display_device := ltac:(setter_of params_eta).
#[export] Instance upd_p_width : Setter width := ltac:(setter_of params_eta).
#[export] Instance upd_p_height : Setter height := ltac:(setter_of params_eta).
#[export] Instance upd_p_tab_drive : Setter tab_drive := ltac:(setter_of params_eta).
#[export] Instance upd_p_drive_count : Setter drive_count := ltac:(setter_of params_eta).
#[export] Instance upd_p_tab_fs : Setter tab_fs := ltac:(setter_of params_eta).
#[export] Instance upd_p_fs_count : Setter fs_count := ltac:(setter_of params_eta).
#[export] Instance upd_p_tab_eth : Setter tab_eth := ltac:(setter_of params_eta).
#[export] Instance upd_p_eth_count : Setter eth_count := ltac:(setter_of params_eta).
#[export] Instance upd_p_htif_base_addr : Setter htif_base_addr := ltac:(setter_of params_eta).
#[export] Instance upd_p_cmdline : Setter cmdline := ltac:(setter_of params_eta).
#[export] Instance upd_p_accel_enable : Setter accel_enable := ltac:(setter_of params_eta).
#[export] Instance upd_p_input_device : Setter input_device := ltac:(setter_of params_eta).
#[export] Instance upd_p_files : Setter files := ltac:(setter_of params_eta).
#[export] Instance upd_p_maxinsns : Setter maxinsns := ltac:(setter_of params_eta).
#[export] Instance upd_p_snapshot_load_name : Setter snapshot_load_name := ltac:(setter_of params_eta).
#[export] Instance upd_p_bootrom_name : Setter bootrom_name := ltac:(setter_of params_eta).
#[export] Instance upd_p_dtb_name : Setter dtb_name := ltac:(setter_of params_eta).
#[export] Instance upd_p_compact_bootrom : Setter compact_bootrom := ltac:(setter_of params_eta).
#[export] Instance upd_p_reset_vector : Setter reset_vector := ltac:(setter_of params_eta).
#[export] Instance upd_p_ncpus : Setter ncpus := ltac:(setter_of params_eta).
#[export] Instance upd_p_plic_base_addr : Setter plic_base_addr := ltac:(setter_of params_eta).
#[export] Instance upd_p_plic_size : Setter plic_size := ltac:(setter_of params_eta).
#[export] Instance upd_p_clint_base_addr : Setter clint_base_addr := ltac:(setter_of params_eta).
#[export] Instance upd_p_clint_size : Setter clint_size := ltac:(setter_of params_eta).
#[export] Instance upd_p_custom_extension : Setter custom_extension := ltac:(setter_of params_eta).
#[export] Instance upd_p_clear_ids : Setter clear_ids := ltac:(setter_of params_eta).
#[export] Instance upd_p_physical_addr_len : Setter physical_addr_len := ltac:(setter_of params_eta).
#[export] Instance upd_p_logfile : Setter logfile := ltac:(setter_of params_eta).
#[export] Instance upd_p_dump_memories : Setter dump_memories := ltac:(setter_of params_eta).

Definition no_file : VMFileEntry := mkFile None None.

(** [memset] and the defaults. *)
Definition virt_machine_set_defaults : VirtMachineParams :=
  {| cfg_filename := None; ram_base_addr := RAM_BASE_ADDR; ram_size := 0; rtc_local_time := false;
     display_device := None; width := 0; height := 0;
     tab_drive := replicate MAX_DRIVE_DEVICE (mkDrive None None); drive_count := 0;
     tab_fs := replicate MAX_FS_DEVICE (mkFS None None); fs_count := 0;
     tab_eth := replicate MAX_ETH_DEVICE (mkEth None None); eth_count := 0;
     htif_base_addr := 0; cmdline := None; accel_enable := false; input_device := None;
     files := replicate VM_FILE_COUNT no_file; maxinsns := 0; snapshot_load_name := None;
     bootrom_name := None; dtb_name := None; compact_bootrom := false; reset_vector := BOOT_BASE_ADDR;
     ncpus := 0; plic_base_addr := PLIC_BASE_ADDR; plic_size := PLIC_SIZE;
     clint_base_addr := CLINT_BASE_ADDR; clint_size := CLINT_SIZE; custom_extension := false;
     clear_ids := false; physical_addr_len := PHYSICAL_ADDR_LEN_DEFAULT; logfile := None;
     dump_memories := false |}.

Definition virt_machine_get_name : text := str "riscv64".

(** ** Accessors *)

(** The messages of [vm_error]. *)
Inductive vm_err :=
  | Json_error (e : json_err)
  | Expecting_property (name : text)
  | Integer_expected (name : text)
  | String_expected (name : text)
  | Boolean_expected (name : text)
  | Emulator_too_old
  | Config_too_old
  | Unsupported_machine (s : text)
  | Too_many_drives
  | Too_many_filesystems
  | Too_many_ethernet
  | Unsupported_accel (s : text).

Notation "'let?' x := e 'in' k" := (match e with inl err => inl err | inr x => k end)
  (at level 10, x strict pattern, e at level 200, k at level 200, only parsing).

Definition vm_get_int (obj : JSONValue) (name : text) : vm_err + Z :=
  match json_object_get obj name with
  | JSON_UNDEFINED => inl (Expecting_property name)
  | JSON_INT n => inr n
  | _ => inl (Integer_expected name)
  end.

(** An absent value leaves [*pval]; so does one that is not an integer, with a message. *)
Definition vm_get_uint64_opt (obj : JSONValue) (name : text) (pval : Z) : Z :=
  match json_object_get obj name with JSON_INT n => u64 n | _ => pval end.

Definition vm_get_str2 (obj : JSONValue) (name : text) (is_opt : bool) : vm_err + option text :=
  match json_object_get obj name with
  | JSON_UNDEFINED => if is_opt then inr None else inl (Expecting_property name)
  | JSON_STR s => inr (Some s)
  | _ => inl (String_expected name)
  end.

Definition vm_get_str (obj : JSONValue) (name : text) : vm_err + option text := vm_get_str2 obj name false.
Definition vm_get_str_opt (obj : JSONValue) (name : text) : vm_err + option text := vm_get_str2 obj name true.

(** ** The command line of the guest *)

(** The name of a variable, of which 31 characters are kept, and what follows its
    closing brace. *)
Fixpoint var_name (n : nat) (p : text) : text * text :=
  match p with
  | [] => ([], [])
  | c :: p' =>
      if c =? 0 then ([], p)
      else if c =? 125 then ([], p')
      else
        match n with
        | O => var_name O p'
        | S n' => let '(s, q) := var_name n' p' in (c :: s, q)
        end
  end.

(** Two digits, or as many as it takes. *)
Definition print_02 (n : Z) : text := if n <? 10 then 48 :: print_int n else print_int n.

(** [gmtoff] is the offset of the local time zone in seconds; C division. *)
Definition tz_string (gmtoff : Z) : text :=
  let n := Z.quot gmtoff 60 in
  str "UTC" ++ [if n <? 0 then 43 else 45] ++ print_02 (Z.abs n / 60) ++ [58] ++ print_02 (Z.abs n mod 60).

Section cmdline_subst.
  Context (gmtoff : Z).

(** [fuel] bounds the characters that are left. *)
Fixpoint subst_loop (fuel : nat) (p : text) : text :=
  match fuel, p with
  | S fuel, c :: p' =>
      if c =? 0 then []
      else if (c =? 36) && (ch p' =? 123) then
        let '(name, q) := var_name 31 (tl p') in
        (if decide (name = str "TZ") then tz_string gmtoff else []) ++ subst_loop fuel q
      else c :: subst_loop fuel p'
  | _, _ => []
  end.

Definition cmdline_subst (s : text) : text := subst_loop (length s) s.

(** ** The configuration *)

(** [drive0], [drive1], ... *)
Definition numbered (s : String.string) (n : nat) : text := str s ++ print_int (Z.of_nat n).

(** The loops over the numbered devices: [room] is what is left of the table, and
    [entry] fills the entry that follows from the object and what the table had. *)
Fixpoint dev_loop {A} (prefix : String.string) (too_many : vm_err)
    (entry : JSONValue -> nat -> option A -> vm_err + A)
    (cfg : JSONValue) (room : nat) (tab : list A) (count : nat) : vm_err + (list A * nat) :=
  let obj := json_object_get cfg (numbered prefix count) in
  if json_is_undefined obj then inr (tab, count)
  else
    match room with
    | O => inl too_many
    | S room =>
        let? x := entry obj count (tab !! count) in
        dev_loop prefix too_many entry cfg room (<[count := x]> tab) (S count)
    end.

Definition parse_drive (obj : JSONValue) (count : nat) (old : option VMDriveEntry) : vm_err + VMDriveEntry :=
  let? file := vm_get_str obj (str "file") in
  let? device := vm_get_str_opt obj (str "device") in
  inr (mkDrive device file).

Definition drive_loop := dev_loop "drive" Too_many_drives parse_drive.

Definition default_tag (count : nat) : text :=
  if (count =? 0)%nat then str "/dev/root" else numbered "/dev/root" count.

Definition parse_fs (obj : JSONValue) (count : nat) (old : option VMFSEntry) : vm_err + VMFSEntry :=
  let? file := vm_get_str obj (str "file") in
  let? t := vm_get_str_opt obj (str "tag") in
  inr (mkFS (Some (match t with Some t => t | None => default_tag count end)) file).

Definition fs_loop := dev_loop "fs" Too_many_filesystems parse_fs.

Definition parse_eth (obj : JSONValue) (count : nat) (old : option VMEthEntry) : vm_err + VMEthEntry :=
  let? d := vm_get_str obj (str "driver") in
  let? i := (if decide (d = Some (str "tap")) then vm_get_str obj (str "ifname") else inr (old ≫= ifname)) in
  inr (mkEth d i).

Definition eth_loop := dev_loop "eth" Too_many_ethernet parse_eth.

Definition set_filename (i : nat) (s : option text) (p : VirtMachineParams) : VirtMachineParams :=
  p <| files ::= alter (fun f => mkFile s (buf f)) i |>.

Definition check_version (cfg : JSONValue) : vm_err + unit :=
  let? version := vm_get_int cfg (str "version") in
  if version =? VM_CONFIG_VERSION then inr tt
  else if VM_CONFIG_VERSION <? version then inl Emulator_too_old
  else inl Config_too_old.

Definition check_machine (cfg : JSONValue) : vm_err + unit :=
  let? s := vm_get_str cfg (str "machine") in
  let s := default [] s in
  if decide (virt_machine_get_name = s) then inr tt else inl (Unsupported_machine s).

Definition parse_display (cfg : JSONValue) (p : VirtMachineParams) : vm_err + VirtMachineParams :=
  let p := p <| display_device := None |> in
  let obj := json_object_get cfg (str "display0") in
  if json_is_undefined obj then inr p
  else
    let? d := vm_get_str obj (str "device") in
    let? w := vm_get_int obj (str "width") in
    let? h := vm_get_int obj (str "height") in
    let? v := vm_get_str_opt obj (str "vga_bios") in
    inr (set_filename VM_FILE_VGA_BIOS v (p <| display_device := d |> <| width := w |> <| height := h |>)).

Definition parse_accel (cfg : JSONValue) (p : VirtMachineParams) : vm_err + VirtMachineParams :=
  let? s := vm_get_str_opt cfg (str "accel") in
  match s with
  | None => inr p
  | Some s =>
      if decide (s = str "none") then inr (p <| accel_enable := false |>)
      else if decide (s = str "auto") then inr (p <| accel_enable := true |>)
      else inl (Unsupported_accel s)
  end.

Definition parse_rtc (cfg : JSONValue) (p : VirtMachineParams) : vm_err + VirtMachineParams :=
  match json_object_get cfg (str "rtc_local_time") with
  | JSON_UNDEFINED => inr p
  | JSON_BOOL b => inr (p <| rtc_local_time := b |>)
  | _ => inl (Boolean_expected (str "rtc_local_time"))
  end.

(** What the parsed object sets, in the order of the source. *)
Definition parse_cfg (p : VirtMachineParams) (cfg : JSONValue) : vm_err + VirtMachineParams :=
  let? _ := check_version cfg in
  let? _ := check_machine cfg in
  let p := p <| ram_base_addr ::= vm_get_uint64_opt cfg (str "memory_base_addr") |> in
  let? val := vm_get_int cfg (str "memory_size") in
  let p := p <| ram_size := u64 (u64 val << 20) |> in
  let? s := vm_get_str_opt cfg (str "bios") in
  let p := set_filename VM_FILE_BIOS s p in
  let? s := vm_get_str_opt cfg (str "kernel") in
  let p := set_filename VM_FILE_KERNEL s p in
  let? s := vm_get_str_opt cfg (str "initrd") in
  let p := set_filename VM_FILE_INITRD s p in
  let? s := vm_get_str_opt cfg (str "cmdline") in
  let p := match s with Some s => p <| cmdline := Some (cmdline_subst s) |> | None => p end in
  let p := p <| htif_base_addr ::= vm_get_uint64_opt cfg (str "htif_base_addr") |> in
  let p := p <| maxinsns ::= vm_get_uint64_opt cfg (str "maxinsns") |> in
  let? s := vm_get_str_opt cfg (str "load") in
  let p := p <| snapshot_load_name := s |> in
  let? (tab, n) := drive_loop cfg (MAX_DRIVE_DEVICE - drive_count p) (tab_drive p) (drive_count p) in
  let p := p <| tab_drive := tab |> <| drive_count := n |> in
  let? (tab, n) := fs_loop cfg (MAX_DRIVE_DEVICE - fs_count p) (tab_fs p) (fs_count p) in
  let p := p <| tab_fs := tab |> <| fs_count := n |> in
  let? (tab, n) := eth_loop cfg (MAX_ETH_DEVICE - eth_count p) (tab_eth p) (eth_count p) in
  let p := p <| tab_eth := tab |> <| eth_count := n |> in
  let? p := parse_display cfg p in
  let? s := vm_get_str_opt cfg (str "input_device") in
  let p := p <| input_device := s |> in
  let? p := parse_accel cfg p in
  let? p := parse_rtc cfg p in
  let p := p <| ncpus ::= vm_get_uint64_opt cfg (str "ncpus") |> in
  let p := p <| physical_addr_len ::= vm_get_uint64_opt cfg (str "physical_addr_len") |> in
  let? s := vm_get_str_opt cfg (str "logfile") in
  let p := p <| logfile := s |> in
  let? s := vm_get_str_opt cfg (str "bootrom") in
  inr (p <| bootrom_name := s |>).

(** [None] only if the JSON parser ran out of fuel. *)
Definition virt_machine_parse_config (p : VirtMachineParams) (config_file : text)
  : option (vm_err + VirtMachineParams) :=
  let p := p <| maxinsns := 0 |> <| dump_memories := false |> in
  match json_parse_value_len config_file (length config_file) with
  | None => None
  | Some (JSON_EXCEPTION e) => Some (inl (Json_error e))
  | Some cfg => Some (parse_cfg p cfg)
  end.

End cmdline_subst.

(** ** Files *)

(** The part of a path up to its last slash. *)
Fixpoint dirname (s : text) : option text :=
  match s with
  | [] => None
  | c :: s' =>
      match dirname s' with
      | Some d => Some (c :: d)
      | None => if c =? 47 then Some [c] else None
      end
  end.

Definition get_file_path (base_filename : option text) (fname : text) : text :=
  match base_filename with
  | None => fname
  | Some base =>
      if existsb (Z.eqb 58) fname then fname
      else if ch fname =? 47 then fname
      else match dirname base with None => fname | Some d => d ++ fname end
  end.

Definition vm_add_cmdline (p : VirtMachineParams) (s : text) : VirtMachineParams :=
  p <| cmdline := Some (if ch s =? 33 then tl s else default [] (cmdline p) ++ [32] ++ s) |>.

(** [load_file] is the host's file system: [None] makes the program exit. *)
Section files.
  Context (gmtoff : Z) (load_file : text -> option (list Z)).

(** [config_additional_file_load] from file [i] on, [n] files before the end. *)
Fixpoint config_additional_file_load (n i : nat) (p : VirtMachineParams) : option VirtMachineParams :=
  match n with
  | O => Some p
  | S n =>
      match files p !! i ≫= filename with
      | None => config_additional_file_load n (S i) p
      | Some f =>
          match load_file (get_file_path (cfg_filename p) f) with
          | None => None
          | Some b =>
              config_additional_file_load n (S i)
                (p <| files ::= alter (fun e => mkFile (filename e) (Some b)) i |>)
          end
      end
  end.

(** [None] when the program exits. *)
Definition virt_machine_load_config_file (p : VirtMachineParams) (fname : text) : option VirtMachineParams :=
  let p := p <| cfg_filename := Some fname |> in
  match load_file fname with
  | None => None
  | Some b =>
      match virt_machine_parse_config gmtoff p b with
      | Some (inr p) => config_additional_file_load VM_FILE_COUNT 0 p
      | _ => None
      end
  end.
End files.
