(* ===== verification/ConfigFile.v ===== *)
(** * What a configuration file says

    A description of a machine, the JSON object and the parameters that stand for
    it, and that parsing the text of the one gives the other
    ([config_file_describes]). *)

From S2P Require Import Prelude Json JsonParse JsonPrint Config.
From Stdlib Require String.
Import String.StringSyntax.

Record display := mkDisplay { disp_device : text; disp_width : Z; disp_height : Z; disp_vga_bios : option text }.

Record description := mkDesc {
  d_memory_base_addr : option Z;
  d_memory_size : Z;  (* MiB *)
  d_bios : option text;
  d_kernel : option text;
  d_initrd : option text;
  d_cmdline : option text;
  d_htif_base_addr : option Z;
  d_maxinsns : option Z;
  d_load : option text;
  d_drives : list (text * option text);  (* file, device *)
  d_fs : list (text * option text);  (* file, tag *)
  d_eth : list (text * option text);  (* driver, interface of a tap *)
  d_display : option display;
  d_input_device : option text;
  d_accel : option bool;
  d_rtc_local_time : option bool;
  d_ncpus : option Z;
  d_physical_addr_len : option Z;
  d_logfile : option text;
  d_bootrom : option text;
}.

(** ** As JSON *)

(** The properties that are present. *)
Definition present (l : list (text * option JSONValue)) : list (text * JSONValue) :=
  omap (fun '(n, o) => pair n <$> o) l.

Definition obj (l : list (text * option JSONValue)) : JSONValue := JSON_OBJ (present l).

Definition drive_json (x : text * option text) : JSONValue :=
  obj [(str "file", Some (JSON_STR x.1)); (str "device", JSON_STR <$> x.2)].
Definition fs_json (x : text * option text) : JSONValue :=
  obj [(str "file", Some (JSON_STR x.1)); (str "tag", JSON_STR <$> x.2)].
Definition eth_json (x : text * option text) : JSONValue :=
  obj [(str "driver", Some (JSON_STR x.1)); (str "ifname", JSON_STR <$> x.2)].
Definition display_json (d : display) : JSONValue :=
  obj [(str "device", Some (JSON_STR (disp_device d))); (str "width", Some (JSON_INT (disp_width d)));
       (str "height", Some (JSON_INT (disp_height d))); (str "vga_bios", JSON_STR <$> disp_vga_bios d)].

Definition fields (d : description) : list (text * option JSONValue) :=
  [(str "version", Some (JSON_INT 1));
   (str "machine", Some (JSON_STR (str "riscv64")));
   (str "memory_base_addr", JSON_INT <$> d_memory_base_addr d);
   (str "memory_size", Some (JSON_INT (d_memory_size d)));
   (str "bios", JSON_STR <$> d_bios d);
   (str "kernel", JSON_STR <$> d_kernel d);
   (str "initrd", JSON_STR <$> d_initrd d);
   (str "cmdline", JSON_STR <$> d_cmdline d);
   (str "htif_base_addr", JSON_INT <$> d_htif_base_addr d);
   (str "maxinsns", JSON_INT <$> d_maxinsns d);
   (str "load", JSON_STR <$> d_load d);
   (str "drive0", drive_json <$> d_drives d !! 0%nat);
   (str "drive1", drive_json <$> d_drives d !! 1%nat);
   (str "drive2", drive_json <$> d_drives d !! 2%nat);
   (str "drive3", drive_json <$> d_drives d !! 3%nat);
   (str "fs0", fs_json <$> d_fs d !! 0%nat);
   (str "fs1", fs_json <$> d_fs d !! 1%nat);
   (str "fs2", fs_json <$> d_fs d !! 2%nat);
   (str "fs3", fs_json <$> d_fs d !! 3%nat);
   (str "eth0", eth_json <$> d_eth d !! 0%nat);
   (str "display0", display_json <$> d_display d);
   (str "input_device", JSON_STR <$> d_input_device d);
   (str "accel", (fun b : bool => JSON_STR (if b then str "auto" else str "none")) <$> d_accel d);
   (str "rtc_local_time", JSON_BOOL <$> d_rtc_local_time d);
   (str "ncpus", JSON_INT <$> d_ncpus d);
   (str "physical_addr_len", JSON_INT <$> d_physical_addr_len d);
   (str "logfile", JSON_STR <$> d_logfile d);
   (str "bootrom", JSON_STR <$> d_bootrom d)].

Definition json_of (d : description) : JSONValue := obj (fields d).

(** ** As parameters *)

(** A table of [n] entries that starts with [l]. *)
Definition pad {A} (n : nat) (x : A) (l : list A) : list A := l ++ replicate (n - length l) x.

Definition drive_entry (x : text * option text) : VMDriveEntry := mkDrive x.2 (Some x.1).

Definition fs_entry (i : nat) (x : text * option text) : VMFSEntry :=
  mkFS (Some (default (default_tag i) x.2)) (Some x.1).

Definition eth_entry (x : text * option text) : VMEthEntry :=
  mkEth (Some x.1) (if decide (x.1 = str "tap") then x.2 else None).

Definition params_of (gmtoff : Z) (d : description) : VirtMachineParams :=
  virt_machine_set_defaults
    <| ram_base_addr := default RAM_BASE_ADDR (d_memory_base_addr d) |>
    <| ram_size := d_memory_size d * 2 ^ 20 |>
    <| files := [mkFile (d_bios d) None; mkFile (d_display d ≫= disp_vga_bios) None;
                 mkFile (d_kernel d) None; mkFile (d_initrd d) None] |>
    <| cmdline := cmdline_subst gmtoff <$> d_cmdline d |>
    <| htif_base_addr := default 0 (d_htif_base_addr d) |>
    <| maxinsns := default 0 (d_maxinsns d) |>
    <| snapshot_load_name := d_load d |>
    <| tab_drive := pad MAX_DRIVE_DEVICE (mkDrive None None) (drive_entry <$> d_drives d) |>
    <| drive_count := length (d_drives d) |>
    <| tab_fs := pad MAX_FS_DEVICE (mkFS None None) (imap fs_entry (d_fs d)) |>
    <| fs_count := length (d_fs d) |>
    <| tab_eth := pad MAX_ETH_DEVICE (mkEth None None) (eth_entry <$> d_eth d) |>
    <| eth_count := length (d_eth d) |>
    <| display_device := disp_device <$> d_display d |>
    <| width := default 0 (disp_width <$> d_display d) |>
    <| height := default 0 (disp_height <$> d_display d) |>
    <| input_device := d_input_device d |>
    <| accel_enable := default false (d_accel d) |>
    <| rtc_local_time := default false (d_rtc_local_time d) |>
    <| ncpus := default 0 (d_ncpus d) |>
    <| physical_addr_len := default PHYSICAL_ADDR_LEN_DEFAULT (d_physical_addr_len d) |>
    <| logfile := d_logfile d |>
    <| bootrom_name := d_bootrom d |>.

(** ** Descriptions that can be written *)

Definition int_ok (n : Z) : bool := (0 <=? n) && (n <? 2 ^ 63).
Definition opt_ok {A} (f : A -> bool) (o : option A) : bool := match o with Some x => f x | None => true end.
Definition pair_ok (x : text * option text) : bool := str_ok x.1 && opt_ok str_ok x.2.
Definition display_ok (d : display) : bool :=
  str_ok (disp_device d) && int_ok (disp_width d) && int_ok (disp_height d) && opt_ok str_ok (disp_vga_bios d).

(** A tap has an interface. *)
Definition eth_ok (x : text * option text) : bool :=
  pair_ok x && (negb (bool_decide (x.1 = str "tap")) || bool_decide (is_Some x.2)).

Definition desc_ok (d : description) : bool :=
  forallb (opt_ok int_ok) [d_memory_base_addr d; d_htif_base_addr d; d_maxinsns d; d_ncpus d; d_physical_addr_len d] &&
  ((0 <=? d_memory_size d) && (d_memory_size d <? 2 ^ 44)) &&
  forallb (opt_ok str_ok) [d_bios d; d_kernel d; d_initrd d; d_cmdline d; d_load d; d_input_device d; d_logfile d; d_bootrom d] &&
  (forallb pair_ok (d_drives d) && (length (d_drives d) <=? MAX_DRIVE_DEVICE)%nat) &&
  (forallb pair_ok (d_fs d) && (length (d_fs d) <=? MAX_FS_DEVICE)%nat) &&
  (forallb eth_ok (d_eth d) && (length (d_eth d) <=? MAX_ETH_DEVICE)%nat) &&
  opt_ok display_ok (d_display d).

(** ** Lookup *)

(** The value of a field. *)
Fixpoint field (l : list (text * option JSONValue)) (name : text) : option JSONValue :=
  match l with
  | [] => None
  | (n, o) :: l => if decide (n = name) then o else field l name
  end.

Lemma props_get_present l name : NoDup l.*1 -> props_get (present l) name = field l name.
Proof.
  induction l as [|[n o] l IH]; [done|]. cbn [fmap list_fmap]. intros [Hn Hnd]%NoDup_cons.
  assert (n = name -> props_get (present l) name = None) as Habs.
  { intros ->. rewrite IH by done. clear -Hn. induction l as [|[m o'] l IH]; [done|].
    apply not_elem_of_cons in Hn as [H1 H2]. cbn. rewrite decide_False by (intros ->; done). by apply IH. }
  cbn [field]. unfold present. cbn [omap list_omap]. destruct o as [v|]; cbn; destruct (decide (n = name)); auto.
Qed.

Lemma field_at l name i o : NoDup l.*1 -> l !! i = Some (name, o) -> field l name = o.
Proof.
  revert i. induction l as [|[n o'] l IH]; intros i Hnd Hi; [done|]. apply NoDup_cons in Hnd as [Hn Hnd].
  cbn [field]. destruct i as [|i]; cbn in Hi.
  - injection Hi as -> ->. by rewrite decide_True.
  - rewrite decide_False; [by apply (IH i)|]. intros ->. apply Hn. apply list_elem_of_fmap. exists (name, o).
    split; [done|]. by apply list_elem_of_lookup_2 in Hi.
Qed.

Lemma present_names l : sublist (present l).*1 l.*1.
Proof.
  induction l as [|[n [v|]] l IH]; unfold present; cbn; [done| |]; by constructor.
Qed.

Lemma obj_get l name : NoDup l.*1 -> json_object_get (obj l) name = default JSON_UNDEFINED (field l name).
Proof. intros H. cbn. by rewrite props_get_present. Qed.

Lemma fields_NoDup d : NoDup (fields d).*1.
Proof. apply (bool_decide_eq_true_1 _). vm_compute. reflexivity. Qed.

(** The value of the property at position [i]. *)
Lemma json_of_get d i name o :
  fields d !! i = Some (name, o) -> json_object_get (json_of d) name = default JSON_UNDEFINED o.
Proof.
  intros H. unfold json_of. rewrite obj_get by apply fields_NoDup. by rewrite (field_at _ _ _ _ (fields_NoDup d) H).
Qed.

(** ** Validity of the JSON value *)

Definition name_ok (name : text) : bool := str_ok name && negb (length name =? 0)%nat.

Definition field_ok (x : text * option JSONValue) : bool := name_ok x.1 && opt_ok json_ok x.2.

Lemma obj_ok l : NoDup l.*1 -> forallb field_ok l = true -> json_ok (obj l) = true.
Proof.
  intros Hnd Hok. cbn [json_ok obj]. apply andb_true_iff. split.
  - apply bool_decide_eq_true. eapply sublist_NoDup; [done|apply present_names].
  - clear Hnd. induction l as [|[n o] l IH]; [done|]. cbn [forallb] in Hok.
    apply andb_true_iff in Hok as [Hx Hok]. apply andb_true_iff in Hx as [Hn Ho].
    destruct o as [v|]; [|by apply IH]. cbn [fst snd opt_ok] in *. unfold name_ok in Hn.
    change (present ((n, Some v) :: l)) with ((n, v) :: present l). cbn [forallb]. by rewrite Hn, Ho, IH.
Qed.

Lemma opt_str_ok o : opt_ok str_ok o = true -> opt_ok json_ok (JSON_STR <$> o) = true.
Proof. by destruct o. Qed.

Lemma opt_int_ok o : opt_ok int_ok o = true -> opt_ok json_ok (JSON_INT <$> o) = true.
Proof. by destruct o. Qed.

(** An object with a string and an optional one. *)
Lemma pair_json_ok (a b : text) x :
  name_ok a = true -> name_ok b = true -> a <> b -> pair_ok x = true ->
  json_ok (obj [(a, Some (JSON_STR x.1)); (b, JSON_STR <$> x.2)]) = true.
Proof.
  intros Ha Hb Hab [H1 H2]%andb_true_iff. apply obj_ok.
  - cbn. apply NoDup_cons. split; [by intros ?%list_elem_of_singleton|apply NoDup_singleton].
  - cbn [forallb]. unfold field_ok. cbn [fst snd opt_ok json_ok]. rewrite Ha, Hb, H1, opt_str_ok by done. done.
Qed.

Lemma display_json_ok d : display_ok d = true -> json_ok (display_json d) = true.
Proof.
  intros [[[H1 H2]%andb_true_iff H3]%andb_true_iff H4]%andb_true_iff. apply obj_ok.
  - apply (bool_decide_eq_true_1 _). vm_compute. reflexivity.
  - cbn [forallb]. unfold field_ok. cbn [fst snd opt_ok json_ok]. unfold int_ok in *. rewrite H1, H2, H3, opt_str_ok by done. done.
Qed.

Lemma lookup_ok (f : text * option text -> JSONValue) (ok : text * option text -> bool) l i :
  (forall x, ok x = true -> json_ok (f x) = true) -> forallb ok l = true -> opt_ok json_ok (f <$> l !! i) = true.
Proof.
  intros Hf Hl. destruct (l !! i) as [x|] eqn:E; [|done]. cbn. apply Hf.
  rewrite forallb_forall in Hl. by apply Hl, list_elem_of_In, list_elem_of_lookup_2 with i.
Qed.

Lemma json_of_ok d : desc_ok d = true -> json_ok (json_of d) = true.
Proof.
  unfold desc_ok. intros [[[[[[Hi Hm]%andb_true_iff Hs]%andb_true_iff Hd]%andb_true_iff Hf]%andb_true_iff He]%andb_true_iff Hv]%andb_true_iff.
  apply andb_true_iff in Hd as [Hd _], Hf as [Hf _], He as [He _].
  cbn [forallb] in Hi, Hs. repeat (apply andb_true_iff in Hi as [? Hi]). repeat (apply andb_true_iff in Hs as [? Hs]).
  assert (forall i, opt_ok json_ok (drive_json <$> d_drives d !! i) = true) as Hdi
    by (intros; apply (lookup_ok _ pair_ok); [|done]; intros; by apply pair_json_ok).
  assert (forall i, opt_ok json_ok (fs_json <$> d_fs d !! i) = true) as Hfi
    by (intros; apply (lookup_ok _ pair_ok); [|done]; intros; by apply pair_json_ok).
  assert (forall i, opt_ok json_ok (eth_json <$> d_eth d !! i) = true) as Hei
    by (intros; apply (lookup_ok _ eth_ok); [|done]; intros x [Hx _]%andb_true_iff; by apply pair_json_ok).
  assert (opt_ok json_ok (display_json <$> d_display d) = true) as Hdd
    by (destruct (d_display d); [by apply display_json_ok|done]).
  apply obj_ok; [apply fields_NoDup|]. unfold fields. apply forallb_forall. intros x Hx. cbn [In] in Hx.
  repeat (destruct Hx as [<-|Hx]); try done; unfold field_ok; cbn [fst snd]; apply andb_true_iff; split; try done;
    try (by apply opt_str_ok); try (by apply opt_int_ok); try apply Hdi; try apply Hfi; try apply Hei.
  - cbn [opt_ok json_ok]. lia.
  - destruct (d_accel d) as [[]|]; done.
  - by destruct (d_rtc_local_time d).
Qed.

(** ** What the accessors return *)

Section Accessors.
  Context (cfg : JSONValue) (name : text).

Lemma vm_get_str_opt_spec o :
  json_object_get cfg name = default JSON_UNDEFINED (JSON_STR <$> o) -> vm_get_str_opt cfg name = inr o.
Proof. unfold vm_get_str_opt, vm_get_str2. intros ->. by destruct o. Qed.

Lemma vm_get_str_spec s : json_object_get cfg name = JSON_STR s -> vm_get_str cfg name = inr (Some s).
Proof. unfold vm_get_str, vm_get_str2. by intros ->. Qed.

Lemma vm_get_int_spec n : json_object_get cfg name = JSON_INT n -> vm_get_int cfg name = inr n.
Proof. unfold vm_get_int. by intros ->. Qed.

Lemma vm_get_uint64_opt_spec o v :
  opt_ok int_ok o = true ->
  json_object_get cfg name = default JSON_UNDEFINED (JSON_INT <$> o) -> vm_get_uint64_opt cfg name v = default v o.
Proof.
  unfold vm_get_uint64_opt. intros Ho ->. destruct o as [n|]; [|done]. cbn in *. unfold int_ok in Ho.
  apply trunc_small. unfold fits. lia.
Qed.
End Accessors.

Lemma pair_get_1 (a b : text) x :
  a <> b -> json_object_get (obj [(a, Some (JSON_STR x.1)); (b, JSON_STR <$> x.2)]) a = JSON_STR (x : text * option text).1.
Proof. intros _. cbn. by rewrite decide_True. Qed.

Lemma pair_get_2 (a b : text) x :
  a <> b ->
  json_object_get (obj [(a, Some (JSON_STR x.1)); (b, JSON_STR <$> x.2)]) b =
  default JSON_UNDEFINED (JSON_STR <$> (x : text * option text).2).
Proof. intros Hab. cbn. rewrite decide_False by done. destruct (x.2); cbn; [by rewrite decide_True|done]. Qed.

(** ** The device loops *)

Lemma insert_pad {A} n (d x : A) l : (length l < n)%nat -> <[length l := x]> (pad n d l) = pad n d (l ++ [x]).
Proof.
  intros Hn. unfold pad. rewrite length_app. cbn [length].
  replace (n - length l)%nat with (S (n - (length l + 1))) by lia. cbn [replicate].
  replace (length l) with (length l + 0)%nat at 1 by lia. rewrite insert_app_r. cbn. by rewrite <- app_assoc.
Qed.

(** From entry [k] on, if the configuration has the objects [L] describes and no
    further one. *)
Lemma dev_loop_spec {A} prefix too_many entry cfg n (d : A) (J : nat -> option JSONValue) (L : list A) :
  (forall i, (i <= length L)%nat -> json_object_get cfg (numbered prefix i) = default JSON_UNDEFINED (J i)) ->
  (forall i x, L !! i = Some x -> exists j, J i = Some j /\ json_is_undefined j = false /\ entry j i (Some d) = inr x) ->
  J (length L) = None -> (length L <= n)%nat ->
  forall k l, L = k ++ l ->
  dev_loop prefix too_many entry cfg (n - length k) (pad n d k) (length k) = inr (pad n d L, length L).
Proof.
  intros Hget HJ Hend Hn k l. revert k. induction l as [|x l IH]; intros k ->.
  - rewrite !app_nil_r in *. destruct (n - length k)%nat; cbn [dev_loop]; by rewrite Hget, Hend by done.
  - rewrite length_app in Hn. cbn [length] in Hn. destruct (n - length k)%nat as [|room] eqn:Er; [lia|].
    destruct (HJ (length k) x) as (j & Ej & Hj & He); [by rewrite list_lookup_middle|].
    cbn [dev_loop]. rewrite Hget, Ej by (rewrite length_app; lia). cbn [default from_option id]. rewrite Hj.
    assert (pad n d k !! length k = Some d) as ->.
    { unfold pad. rewrite lookup_app_r, Nat.sub_diag by lia. apply lookup_replicate. split; [done|lia]. }
    rewrite He, insert_pad by lia. specialize (IH (k ++ [x])). rewrite <- app_assoc, length_app in IH. cbn [length app] in IH.
    rewrite <- IH by done. replace (n - (length k + 1))%nat with room by lia. by rewrite Nat.add_comm.
Qed.

(** The same from an empty table. *)
Lemma dev_loop_all {A B} prefix too_many entry cfg n (d : A) (J : B -> JSONValue) (f : nat -> B -> A) (l : list B) :
  (forall i, (i <= length l)%nat -> json_object_get cfg (numbered prefix i) = default JSON_UNDEFINED (J <$> l !! i)) ->
  (forall i x, l !! i = Some x -> json_is_undefined (J x) = false /\ entry (J x) i (Some d) = inr (f i x)) ->
  (length l <= n)%nat ->
  dev_loop prefix too_many entry cfg n (replicate n d) 0 = inr (pad n d (imap f l), length l).
Proof.
  intros Hget HJ Hn. pose proof (dev_loop_spec prefix too_many entry cfg n d (fun i => J <$> l !! i) (imap f l)) as H.
  rewrite length_imap in H. specialize (H Hget). specialize (fun a b c => H a b c [] (imap f l) eq_refl).
  cbn [length] in H. unfold pad in H at 1. cbn [length app] in H. rewrite !Nat.sub_0_r in H. apply H; [|by rewrite lookup_ge_None_2|done].
  intros i x. rewrite list_lookup_imap. destruct (l !! i) as [y|] eqn:Ey; [|done]. cbn. intros [= <-].
  destruct (HJ i y Ey). by exists (J y).
Qed.

(** The device numbers that have a field, and the first one that has none. *)
Lemma drive_get d i : (length (d_drives d) <= 4)%nat -> (i <= length (d_drives d))%nat ->
  json_object_get (json_of d) (numbered "drive" i) = default JSON_UNDEFINED (drive_json <$> d_drives d !! i).
Proof.
  intros Hl Hi. destruct (decide (i < 4)%nat) as [H4|H4].
  - destruct i as [|[|[|[|i]]]]; [by apply (json_of_get _ 11)|by apply (json_of_get _ 12)|by apply (json_of_get _ 13)|by apply (json_of_get _ 14)|lia].
  - assert (i = 4%nat) as -> by lia. rewrite lookup_ge_None_2 by lia. unfold json_of. rewrite obj_get by apply fields_NoDup. reflexivity.
Qed.

Lemma fs_get d i : (length (d_fs d) <= 4)%nat -> (i <= length (d_fs d))%nat ->
  json_object_get (json_of d) (numbered "fs" i) = default JSON_UNDEFINED (fs_json <$> d_fs d !! i).
Proof.
  intros Hl Hi. destruct (decide (i < 4)%nat) as [H4|H4].
  - destruct i as [|[|[|[|i]]]]; [by apply (json_of_get _ 15)|by apply (json_of_get _ 16)|by apply (json_of_get _ 17)|by apply (json_of_get _ 18)|lia].
  - assert (i = 4%nat) as -> by lia. rewrite lookup_ge_None_2 by lia. unfold json_of. rewrite obj_get by apply fields_NoDup. reflexivity.
Qed.

Lemma eth_get d i : (length (d_eth d) <= 1)%nat -> (i <= length (d_eth d))%nat ->
  json_object_get (json_of d) (numbered "eth" i) = default JSON_UNDEFINED (eth_json <$> d_eth d !! i).
Proof.
  intros Hl Hi. destruct i as [|i]; [by apply (json_of_get _ 19)|].
  assert (S i = 1%nat) as -> by lia. rewrite lookup_ge_None_2 by lia. unfold json_of. rewrite obj_get by apply fields_NoDup. reflexivity.
Qed.

Lemma drive_loop_json d : (length (d_drives d) <= 4)%nat ->
  drive_loop (json_of d) 4 (replicate 4 (mkDrive None None)) 0 =
  inr (pad 4 (mkDrive None None) (drive_entry <$> d_drives d), length (d_drives d)).
Proof.
  intros Hl. rewrite <- imap_const. apply dev_loop_all with drive_json; [intros; by apply drive_get| |done].
  intros i x _. split; [done|]. unfold parse_drive, drive_json.
  rewrite (vm_get_str_spec _ _ x.1) by (by apply pair_get_1). by rewrite (vm_get_str_opt_spec _ _ x.2) by (by apply pair_get_2).
Qed.

Lemma fs_loop_json d : (length (d_fs d) <= 4)%nat ->
  fs_loop (json_of d) 4 (replicate 4 (mkFS None None)) 0 =
  inr (pad 4 (mkFS None None) (imap fs_entry (d_fs d)), length (d_fs d)).
Proof.
  intros Hl. apply dev_loop_all with fs_json; [intros; by apply fs_get| |done].
  intros i x _. split; [done|]. unfold parse_fs, fs_json.
  rewrite (vm_get_str_spec _ _ x.1) by (by apply pair_get_1). rewrite (vm_get_str_opt_spec _ _ x.2) by (by apply pair_get_2).
  unfold fs_entry. by destruct x as [? [?|]].
Qed.

Lemma eth_loop_json d : (length (d_eth d) <= 1)%nat -> forallb eth_ok (d_eth d) = true ->
  eth_loop (json_of d) 1 (replicate 1 (mkEth None None)) 0 =
  inr (pad 1 (mkEth None None) (eth_entry <$> d_eth d), length (d_eth d)).
Proof.
  intros Hl Hok. rewrite <- imap_const. apply dev_loop_all with eth_json; [intros; by apply eth_get| |done].
  intros i x Hx. split; [done|]. unfold parse_eth, eth_json.
  rewrite (vm_get_str_spec _ _ x.1) by (by apply pair_get_1). unfold eth_entry.
  destruct (decide (x.1 = str "tap")) as [E|E].
  - rewrite decide_True by (by rewrite E). rewrite forallb_forall in Hok.
    specialize (Hok x (proj1 (list_elem_of_In _ _) (list_elem_of_lookup_2 _ _ _ Hx))). unfold eth_ok in Hok.
    rewrite (bool_decide_eq_true_2 _ E) in Hok. cbn [negb orb] in Hok. apply andb_true_iff in Hok as [_ [s Hs]%bool_decide_eq_true].
    rewrite (vm_get_str_spec _ _ s); [cbn; by rewrite decide_True, Hs|]. rewrite pair_get_2 by done. by rewrite Hs.
  - rewrite decide_False by congruence. cbn. by rewrite decide_False.
Qed.

(** ** Parsing the description *)

Lemma parse_display_json d p :
  parse_display (json_of d) p =
  match d_display d with
  | None => inr (p <| display_device := None |>)
  | Some x =>
      inr (set_filename VM_FILE_VGA_BIOS (disp_vga_bios x)
             (p <| display_device := None |> <| display_device := Some (disp_device x) |>
                <| width := disp_width x |> <| height := disp_height x |>))
  end.
Proof.
  unfold parse_display. rewrite (json_of_get d 20 _ (display_json <$> d_display d)) by done.
  destruct (d_display d) as [x|]; cbn [fmap option_fmap option_map default from_option id]; [|done].
  change (json_is_undefined (display_json x)) with false. cbn iota.
  assert (NoDup [str "device"; str "width"; str "height"; str "vga_bios"]) as Hnd
    by (apply (bool_decide_eq_true_1 _); vm_compute; reflexivity).
  unfold display_json. rewrite (vm_get_str_spec _ _ (disp_device x)) by (rewrite obj_get by done; reflexivity).
  rewrite (vm_get_int_spec _ _ (disp_width x)) by (rewrite obj_get by done; reflexivity).
  rewrite (vm_get_int_spec _ _ (disp_height x)) by (rewrite obj_get by done; reflexivity).
  by rewrite (vm_get_str_opt_spec _ _ (disp_vga_bios x)) by (rewrite obj_get by done; reflexivity).
Qed.

Lemma parse_accel_json d p :
  parse_accel (json_of d) p = inr (match d_accel d with Some b => p <| accel_enable := b |> | None => p end).
Proof.
  unfold parse_accel.
  rewrite (vm_get_str_opt_spec _ _ ((fun b : bool => if b then str "auto" else str "none") <$> d_accel d)).
  - by destruct (d_accel d) as [[]|].
  - rewrite (json_of_get d 22 _ ((fun b : bool => JSON_STR (if b then str "auto" else str "none")) <$> d_accel d)) by done.
    by destruct (d_accel d).
Qed.

Lemma parse_rtc_json d p :
  parse_rtc (json_of d) p = inr (match d_rtc_local_time d with Some b => p <| rtc_local_time := b |> | None => p end).
Proof.
  unfold parse_rtc. rewrite (json_of_get d 23 _ (JSON_BOOL <$> d_rtc_local_time d)) by done. by destruct (d_rtc_local_time d).
Qed.

(** An optional string of the description, at position [i] of its fields. *)
Lemma str_opt_json d i name o :
  fields d !! i = Some (name, JSON_STR <$> o) -> vm_get_str_opt (json_of d) name = inr o.
Proof. intros H. apply vm_get_str_opt_spec. by rewrite (json_of_get d i _ _ H). Qed.

Lemma uint64_opt_json d i name o v :
  opt_ok int_ok o = true -> fields d !! i = Some (name, JSON_INT <$> o) -> vm_get_uint64_opt (json_of d) name v = default v o.
Proof. intros Ho H. apply vm_get_uint64_opt_spec; [done|]. by rewrite (json_of_get d i _ _ H). Qed.

(** Evaluates updates of parameters. *)
Ltac params_simpl :=
  cbv beta iota zeta delta [upd set_filename virt_machine_set_defaults
       upd_p_cfg_filename upd_p_ram_base_addr upd_p_ram_size upd_p_rtc_local_time
       upd_p_display_device upd_p_width upd_p_height upd_p_tab_drive upd_p_drive_count upd_p_tab_fs
       upd_p_fs_count upd_p_tab_eth upd_p_eth_count upd_p_htif_base_addr upd_p_cmdline
       upd_p_accel_enable upd_p_input_device upd_p_files upd_p_maxinsns upd_p_snapshot_load_name
       upd_p_bootrom_name upd_p_dtb_name upd_p_compact_bootrom upd_p_reset_vector upd_p_ncpus
       upd_p_plic_base_addr upd_p_plic_size upd_p_clint_base_addr upd_p_clint_size
       upd_p_custom_extension upd_p_clear_ids upd_p_physical_addr_len upd_p_logfile
       upd_p_dump_memories cfg_filename ram_base_addr ram_size rtc_local_time display_device width
       height tab_drive drive_count tab_fs fs_count tab_eth eth_count htif_base_addr cmdline
       accel_enable input_device files maxinsns snapshot_load_name bootrom_name dtb_name
       compact_bootrom reset_vector ncpus plic_base_addr plic_size clint_base_addr clint_size
       custom_extension clear_ids physical_addr_len logfile dump_memories].

Lemma parse_cfg_json gmtoff d :
  desc_ok d = true -> parse_cfg gmtoff virt_machine_set_defaults (json_of d) = inr (params_of gmtoff d).
Proof.
  unfold desc_ok. intros [[[[[[Hi Hm]%andb_true_iff _]%andb_true_iff Hd]%andb_true_iff Hf]%andb_true_iff He]%andb_true_iff Hv]%andb_true_iff.
  apply andb_true_iff in Hd as [_ Hd%Nat.leb_le], Hf as [_ Hf%Nat.leb_le], He as [He0 He%Nat.leb_le].
  cbn [forallb] in Hi. apply andb_true_iff in Hi as [Hi1 [Hi2 [Hi3 [Hi4 [Hi5 _]%andb_true_iff]%andb_true_iff]%andb_true_iff]%andb_true_iff].
  assert (fits 64 (d_memory_size d)) as Hms by (unfold fits; lia).
  assert (u64 (u64 (d_memory_size d) << 20) = d_memory_size d * 2 ^ 20) as Hram.
  { rewrite (trunc_small _ _ Hms), Z.shiftl_mul_pow2 by lia. apply trunc_small. unfold fits. lia. }
  unfold parse_cfg, check_version, check_machine.
  rewrite (vm_get_int_spec _ _ 1) by (by apply (json_of_get d 0 _ (Some _))). cbn [Z.eqb VM_CONFIG_VERSION Pos.eqb].
  rewrite (vm_get_str_spec _ _ (str "riscv64")) by (by apply (json_of_get d 1 _ (Some _))).
  change (decide (virt_machine_get_name = default [] (Some (str "riscv64")))) with (left (eq_refl (str "riscv64"))) || rewrite decide_True by done.
  rewrite (vm_get_int_spec _ _ (d_memory_size d)) by (by apply (json_of_get d 3 _ (Some _))).
  rewrite (str_opt_json d 4 _ (d_bios d)), (str_opt_json d 5 _ (d_kernel d)), (str_opt_json d 6 _ (d_initrd d)),
    (str_opt_json d 7 _ (d_cmdline d)), (str_opt_json d 10 _ (d_load d)), (str_opt_json d 21 _ (d_input_device d)),
    (str_opt_json d 26 _ (d_logfile d)), (str_opt_json d 27 _ (d_bootrom d)) by done.
  destruct (d_cmdline d) eqn:Ecmd.
  all: match goal with |- context [drive_loop ?a ?b ?c ?e] =>
    change (drive_loop a b c e) with (drive_loop a 4%nat (replicate 4 (mkDrive None None)) 0%nat) end.
  all: rewrite drive_loop_json by done.
  all: match goal with |- context [fs_loop ?a ?b ?c ?e] =>
    change (fs_loop a b c e) with (fs_loop a 4%nat (replicate 4 (mkFS None None)) 0%nat) end.
  all: rewrite fs_loop_json by done.
  all: match goal with |- context [eth_loop ?a ?b ?c ?e] =>
    change (eth_loop a b c e) with (eth_loop a 1%nat (replicate 1 (mkEth None None)) 0%nat) end.
  all: rewrite eth_loop_json by done.
  all: rewrite parse_display_json.
  all: destruct (d_display d) as [x|] eqn:Edisp.
  all: rewrite parse_accel_json, parse_rtc_json; f_equal; unfold params_of.
  all: rewrite Ecmd, Edisp.
  all: destruct (d_accel d), (d_rtc_local_time d); params_simpl.
  all: rewrite (uint64_opt_json d 2 _ (d_memory_base_addr d)), (uint64_opt_json d 8 _ (d_htif_base_addr d)),
    (uint64_opt_json d 9 _ (d_maxinsns d)), (uint64_opt_json d 24 _ (d_ncpus d)),
    (uint64_opt_json d 25 _ (d_physical_addr_len d)) by done.
  all: rewrite Hram; reflexivity.
Qed.

(** C27 A configuration file says what machine to build: for every description of a
    machine (memory, firmware, kernel and initial disk, up to four drives, four
    shared directories with or without mount tags and one network interface,
    display, input, clock, harts, boot ROM), the parser reads the JSON text of the
    description and returns exactly the parameters it stands for, the defaults
    where it says nothing and the guest's command line with its variables
    substituted. *)
Theorem config_file_describes gmtoff d :
  desc_ok d = true ->
  virt_machine_parse_config gmtoff virt_machine_set_defaults (print (json_of d)) = Some (inr (params_of gmtoff d)).
Proof.
  intros Hd. unfold virt_machine_parse_config.
  rewrite json_parse_len by (by apply json_of_ok). by rewrite <- parse_cfg_json.
Qed.

(** Two drives, one directory without a tag, a tap and a time zone west of UTC. *)
Definition demo_desc : description :=
  {| d_memory_base_addr := None; d_memory_size := 1024; d_bios := Some (str "fw.elf"); d_kernel := None;
     d_initrd := None; d_cmdline := Some (str "root=/dev/vda TZ=${TZ}"); d_htif_base_addr := Some 0x40008000;
     d_maxinsns := None; d_load := None; d_drives := [(str "a.img", None); (str "b.img", Some (str "virtio"))];
     d_fs := [(str "/tmp", None)]; d_eth := [(str "tap", Some (str "tap0"))]; d_display := None;
     d_input_device := None; d_accel := Some true; d_rtc_local_time := None; d_ncpus := Some 2;
     d_physical_addr_len := None; d_logfile := None; d_bootrom := None |}.

Lemma config_file_describes_witness :
  exists p,
    virt_machine_parse_config (-5400) virt_machine_set_defaults (print (json_of demo_desc)) = Some (inr p) /\
    cmdline p = Some (str "root=/dev/vda TZ=UTC+01:30") /\ ram_size p = 0x40000000 /\ drive_count p = 2%nat /\
    (tab_fs p !! 0%nat) = Some (mkFS (Some (str "/dev/root")) (Some (str "/tmp"))).
Proof.
  eexists. split; [apply (config_file_describes (-5400) demo_desc); vm_compute; reflexivity|].
  repeat split; vm_compute; reflexivity.
Defined.

(** ** Any configuration *)

Lemma dev_loop_bounds {A} prefix too_many entry cfg (tab tab' : list A) room count n :
  dev_loop prefix too_many entry cfg room tab count = inr (tab', n) ->
  length tab' = length tab /\ (count <= n <= count + room)%nat /\
  json_object_get cfg (numbered prefix n) = JSON_UNDEFINED.
Proof.
  revert tab count. induction room as [|room IH]; intros tab count; cbn [dev_loop];
    destruct (json_object_get cfg (numbered prefix count)) eqn:Eo; cbn [json_is_undefined]; try done;
    try (intros [= <- <-]; repeat split; [lia..|done]).
  all: destruct (entry _ _ _); [done|]; intros H; apply IH in H as (Hl & Hn & Hu);
    rewrite length_insert in Hl; repeat split; [done|lia..|done].
Qed.

(** The device tables and the memory. *)
Definition tables (p : VirtMachineParams) :=
  (tab_drive p, drive_count p, (tab_fs p, fs_count p), (tab_eth p, eth_count p), ram_size p).

Lemma parse_display_keeps cfg p p' : parse_display cfg p = inr p' -> tables p' = tables p.
Proof.
  unfold parse_display. destruct (json_is_undefined _); [by intros [= <-]|].
  repeat (case_match; [done|]). by intros [= <-].
Qed.

Lemma parse_accel_keeps cfg p p' : parse_accel cfg p = inr p' -> tables p' = tables p.
Proof. unfold parse_accel. repeat case_match; intros; simplify_eq; done. Qed.

Lemma parse_rtc_keeps cfg p p' : parse_rtc cfg p = inr p' -> tables p' = tables p.
Proof. unfold parse_rtc. repeat case_match; intros; simplify_eq; done. Qed.

(** What a configuration has to say to be accepted, and where the tables end. *)
Definition accepted (cfg : JSONValue) (p : VirtMachineParams) : Prop :=
  json_object_get cfg (str "version") = JSON_INT 1 /\
  json_object_get cfg (str "machine") = JSON_STR (str "riscv64") /\
  (exists n, json_object_get cfg (str "memory_size") = JSON_INT n /\ ram_size p = u64 (u64 n << 20)) /\
  ((drive_count p <= MAX_DRIVE_DEVICE)%nat /\ length (tab_drive p) = MAX_DRIVE_DEVICE) /\
  ((fs_count p <= MAX_FS_DEVICE)%nat /\ length (tab_fs p) = MAX_FS_DEVICE) /\
  ((eth_count p <= MAX_ETH_DEVICE)%nat /\ length (tab_eth p) = MAX_ETH_DEVICE) /\
  json_object_get cfg (numbered "drive" (drive_count p)) = JSON_UNDEFINED /\
  json_object_get cfg (numbered "fs" (fs_count p)) = JSON_UNDEFINED /\
  json_object_get cfg (numbered "eth" (eth_count p)) = JSON_UNDEFINED.

Lemma check_version_inv cfg : check_version cfg = inr tt -> json_object_get cfg (str "version") = JSON_INT 1.
Proof.
  unfold check_version, vm_get_int. destruct (json_object_get cfg (str "version")); try done.
  destruct (Z.eqb_spec n VM_CONFIG_VERSION) as [->|]; [done|]. by destruct (_ <? _).
Qed.

Lemma check_machine_inv cfg : check_machine cfg = inr tt -> json_object_get cfg (str "machine") = JSON_STR (str "riscv64").
Proof.
  unfold check_machine, vm_get_str, vm_get_str2. destruct (json_object_get cfg (str "machine")); try done.
  cbn [default from_option id]. destruct (decide _) as [<-|]; done.
Qed.

Lemma accepted_tables cfg p p' : tables p' = tables p -> accepted cfg p -> accepted cfg p'.
Proof. unfold accepted, tables. intros [= -> -> -> -> -> -> ->]. done. Qed.

(** The devices, from a table that is still empty. *)
Lemma accepted_intro cfg n p tabd nd tabf nf tabe ne :
  json_object_get cfg (str "version") = JSON_INT 1 ->
  json_object_get cfg (str "machine") = JSON_STR (str "riscv64") ->
  vm_get_int cfg (str "memory_size") = inr n ->
  drive_loop cfg MAX_DRIVE_DEVICE (tab_drive virt_machine_set_defaults) 0 = inr (tabd, nd) ->
  fs_loop cfg MAX_DRIVE_DEVICE (tab_fs virt_machine_set_defaults) 0 = inr (tabf, nf) ->
  eth_loop cfg MAX_ETH_DEVICE (tab_eth virt_machine_set_defaults) 0 = inr (tabe, ne) ->
  tables p = (tabd, nd, (tabf, nf), (tabe, ne), u64 (u64 n << 20)) -> accepted cfg p.
Proof.
  intros Hv Hm Hn. assert (json_object_get cfg (str "memory_size") = JSON_INT n) as Hn'.
  { unfold vm_get_int in Hn. destruct (json_object_get cfg (str "memory_size")); by simplify_eq. }
  intros (Hd1 & Hd2 & Hd3)%dev_loop_bounds (Hf1 & Hf2 & Hf3)%dev_loop_bounds (He1 & He2 & He3)%dev_loop_bounds.
  unfold tables, accepted. intros [= -> -> -> -> -> -> Hr]. unfold MAX_DRIVE_DEVICE, MAX_FS_DEVICE, MAX_ETH_DEVICE in *.
  repeat split; try done; try lia. by exists n.
Qed.

Lemma parse_cfg_accepted gmtoff cfg p :
  parse_cfg gmtoff virt_machine_set_defaults cfg = inr p -> accepted cfg p.
Proof.
  unfold parse_cfg. destruct (check_version cfg) as [|[]] eqn:Ev; [done|]. apply check_version_inv in Ev.
  destruct (check_machine cfg) as [|[]] eqn:Em; [done|]. apply check_machine_inv in Em.
  destruct (vm_get_int cfg (str "memory_size")) as [|n] eqn:En; [done|].
  do 3 (destruct (vm_get_str_opt cfg _); [done|]).
  destruct (vm_get_str_opt cfg (str "cmdline")) as [|[cmd|]]; [done|..]; params_simpl.
  all: (destruct (vm_get_str_opt cfg _); [done|]).
  all: destruct (drive_loop _ _ _ _) as [|[tabd nd]] eqn:Ed; [done|].
  all: destruct (fs_loop _ _ _ _) as [|[tabf nf]] eqn:Ef; [done|].
  all: destruct (eth_loop _ _ _ _) as [|[tabe ne]] eqn:Ee; [done|].
  all: destruct (parse_display _ _) as [|p1] eqn:E1; [done|]; apply parse_display_keeps in E1.
  all: (destruct (vm_get_str_opt cfg _); [done|]).
  all: destruct (parse_accel _ _) as [|p2] eqn:E2; [done|]; apply parse_accel_keeps in E2.
  all: destruct (parse_rtc _ _) as [|p3] eqn:E3; [done|]; apply parse_rtc_keeps in E3.
  all: do 2 (destruct (vm_get_str_opt cfg _); [done|]); intros [= <-].
  all: apply (accepted_tables cfg p1); [etrans; [|etrans; [exact E3|exact E2]]; reflexivity|].
  all: by apply (accepted_intro cfg n p1 tabd nd tabf nf tabe ne).
Qed.


