(* ===== verification/Fdt.v ===== *)
(** * Flattened device trees ([src/riscv_machine.cpp])

    The builder of flattened device trees, and the tree that describes the
    machine to its guest.  The structure block is kept as the bytes it has in
    memory, the strings block likewise; their buffers grow on demand. *)

From S2P Require Import Prelude Json Config.
From Stdlib Require String.
Import String.StringSyntax.

Definition FDT_MAGIC : Z := 0xd00dfeed.
Definition FDT_VERSION : Z := 17.
Definition FDT_BEGIN_NODE : Z := 1.
Definition FDT_END_NODE : Z := 2.
Definition FDT_PROP : Z := 3.
Definition FDT_NOP : Z := 4.
Definition FDT_END : Z := 9.

Definition RTC_FREQ : Z := 1000000.
Definition CPU_FREQUENCY : Z := 2000000000.
Definition VIRTIO_BASE_ADDR : Z := 0x40010000.
Definition VIRTIO_SIZE : Z := 0x1000.
Definition VIRTIO_IRQ : Z := 4.
Definition FRAMEBUFFER_BASE_ADDR : Z := 0x41000000.
Definition DW_APB_UART0_BASE_ADDR : Z := 0x12002000.
Definition DW_APB_UART0_SIZE : Z := 0x1000.
Definition DW_APB_UART0_IRQ : Z := 3.
Definition DW_APB_UART1_BASE_ADDR : Z := 0x12007000.
Definition DW_APB_UART1_SIZE : Z := 0x1000.
Definition DW_APB_UART1_IRQ : Z := 15.

Record FDTState := mkFDT {
  tab : list Z;  (* bytes; [tab_len] words *)
  open_node_count : Z;
  string_table : list Z;
}.

Definition fdt_init : FDTState := mkFDT [] 0 [].

(** The bytes of a word stored with [cpu_to_be32]. *)
Definition be32 (v : Z) : list Z := [u8 (v >> 24); u8 (v >> 16); u8 (v >> 8); u8 v].

Definition fdt_put32 (v : Z) (s : FDTState) : FDTState := mkFDT (tab s ++ be32 v) (open_node_count s) (string_table s).

(** The bytes that pad [len] bytes to words: [-len & 3]. *)
Definition padding (len : nat) : nat := Z.to_nat ((- Z.of_nat len) .& 3).

Definition fdt_put_data (data : list Z) (s : FDTState) : FDTState :=
  mkFDT (tab s ++ data ++ replicate (padding (length data)) 0) (open_node_count s) (string_table s).

Definition fdt_begin_node (name : text) (s : FDTState) : FDTState :=
  let s := fdt_put_data (name ++ [0]) (fdt_put32 FDT_BEGIN_NODE s) in
  mkFDT (tab s) (open_node_count s + 1) (string_table s).

(** [%x], at most 16 digits. *)
Definition hex_digit (n : Z) : Z := if n <? 10 then 48 + n else 87 + n.

Fixpoint hex_digits (fuel : nat) (n : Z) : text :=
  match fuel with
  | O => []
  | S fuel => (if n <? 16 then [] else hex_digits fuel (n / 16)) ++ [hex_digit (n mod 16)]
  end.

Definition print_hex (n : Z) : text := hex_digits 16 n.

Definition node_num (name : text) (n : Z) : text := name ++ [64] ++ print_hex n.

Definition fdt_begin_node_num (name : text) (n : Z) (s : FDTState) : FDTState := fdt_begin_node (node_num name n) s.

Definition fdt_end_node (s : FDTState) : FDTState :=
  let s := fdt_put32 FDT_END_NODE s in mkFDT (tab s) (open_node_count s - 1) (string_table s).

(** The loop over the strings of the table from [pos] on; [fuel] bounds their number. *)
Fixpoint find_string (fuel : nat) (table name : text) (pos : nat) : option nat :=
  match fuel with
  | O => None
  | S fuel =>
      if (pos <? length table)%nat then
        let s := cstr (drop pos table) in
        if decide (s = name) then Some pos else find_string fuel table name (pos + length s + 1)
      else None
  end.

Definition fdt_get_string_offset (name : text) (s : FDTState) : nat * FDTState :=
  match find_string (S (length (string_table s))) (string_table s) name 0 with
  | Some pos => (pos, s)
  | None => (length (string_table s), mkFDT (tab s) (open_node_count s) (string_table s ++ name ++ [0]))
  end.

(** The header of a property. *)
Definition prop_header (name : text) (len : nat) (s : FDTState) : FDTState :=
  let s := fdt_put32 (Z.of_nat len) (fdt_put32 FDT_PROP s) in
  let '(off, s) := fdt_get_string_offset name s in
  fdt_put32 (Z.of_nat off) s.

Definition fdt_prop (name : text) (data : list Z) (s : FDTState) : FDTState :=
  fdt_put_data data (prop_header name (length data) s).

Definition fdt_prop_tab_u32 (name : text) (vals : list Z) (s : FDTState) : FDTState :=
  foldl (fun s v => fdt_put32 v s) (prop_header name (length vals * 4) s) vals.

Definition fdt_prop_u32 (name : text) (val : Z) : FDTState -> FDTState := fdt_prop_tab_u32 name [val].

(** The two words of a 64-bit cell. *)
Definition cell64 (v : Z) : list Z := [u32 (v >> 32); u32 v].

Definition fdt_prop_u64 (name : text) (val : Z) : FDTState -> FDTState := fdt_prop_tab_u32 name (cell64 val).

Definition fdt_prop_tab_u64_2 (name : text) (v0 v1 : Z) : FDTState -> FDTState :=
  fdt_prop_tab_u32 name (cell64 v0 ++ cell64 v1).

Definition fdt_prop_str (name s : text) : FDTState -> FDTState := fdt_prop name (s ++ [0]).

Definition fdt_prop_tab_str (name : text) (l : list text) : FDTState -> FDTState :=
  fdt_prop name (mjoin ((fun s => s ++ [0]) <$> l)).

(** Pads to a multiple of 8. *)
Definition align8 (l : list Z) : list Z := l ++ replicate (Z.to_nat ((- Z.of_nat (length l)) .& 7)) 0.

(** The header is filled in last.  [None] if a node is still open. *)
Definition fdt_header (totalsize off_struct off_strings off_rsvmap size_strings size_struct : nat) : list Z :=
  be32 FDT_MAGIC ++ be32 (Z.of_nat totalsize) ++ be32 (Z.of_nat off_struct) ++ be32 (Z.of_nat off_strings) ++
  be32 (Z.of_nat off_rsvmap) ++ be32 FDT_VERSION ++ be32 16 ++ be32 0 ++
  be32 (Z.of_nat size_strings) ++ be32 (Z.of_nat size_struct).

Definition fdt_output (s : FDTState) : option (list Z) :=
  if negb (open_node_count s =? 0) then None
  else
    let s := fdt_put32 FDT_END s in
    let size_struct := length (tab s) in
    let size_strings := length (string_table s) in
    let hdr := replicate 40 0 in
    let l := align8 (hdr ++ tab s) in
    let off_rsvmap := length l in
    let l := l ++ replicate 16 0 in
    let off_strings := length l in
    let l := align8 (l ++ string_table s) in
    Some (fdt_header (length l) 40 off_strings off_rsvmap size_strings size_struct ++ drop 40 l).

(** ** The tree of the machine *)

Record FBDevice := mkFB { fb_width : Z; fb_height : Z; fb_stride : Z; fb_size : Z }.

(** What [riscv_build_fdt] reads of the machine: the [misa] of each hart, and the
    members with their names. *)
Record fdt_machine := mkFM {
  misa_of : list Z;
  m_ram_base_addr : Z;
  m_ram_size : Z;
  m_clint_base_addr : Z;
  m_clint_size : Z;
  m_plic_base_addr : Z;
  m_plic_size : Z;
  virtio_count : nat;
  fb_dev : option FBDevice;
}.

(** The statements of the source in sequence. *)
Definition andthen (f g : FDTState -> FDTState) (s : FDTState) : FDTState := g (f s).

Declare Scope fdt_scope.
Notation "f >>> g" := (andthen f g) (at level 60, right associativity) : fdt_scope.
Local Open Scope fdt_scope.

(** [for (i = 0; i < n; ++i) body(i)]. *)
Definition for_loop (n : nat) (body : nat -> FDTState -> FDTState) (s : FDTState) : FDTState :=
  foldl (fun s i => body i s) s (seq 0 n).

(** [rv64] and the letters of the extensions. *)
Definition isa_string (misa : Z) : text :=
  str "rv64" ++ omap (fun i => if has misa (1 << Z.of_nat i) then Some (97 + Z.of_nat i) else None) (seq 0 26).

(** [cur_phandle] counts from 1: one for each hart, then the PLIC. *)
Definition intc_phandle (hartid : nat) : Z := 1 + Z.of_nat hartid.
Definition plic_phandle (m : fdt_machine) : Z := 1 + Z.of_nat (length (misa_of m)).

Definition cpu_node (m : fdt_machine) (hartid : nat) : FDTState -> FDTState :=
  fdt_begin_node_num (str "cpu") (Z.of_nat hartid) >>>
  fdt_prop_str (str "device_type") (str "cpu") >>>
  fdt_prop_u32 (str "reg") (Z.of_nat hartid) >>>
  fdt_prop_str (str "status") (str "okay") >>>
  fdt_prop_str (str "compatible") (str "riscv") >>>
  fdt_prop_str (str "riscv,isa") (isa_string (nth hartid (misa_of m) 0)) >>>
  fdt_prop_str (str "mmu-type") (str "riscv,sv48") >>>
  fdt_prop_u32 (str "clock-frequency") CPU_FREQUENCY >>>
  fdt_begin_node (str "interrupt-controller") >>>
  fdt_prop_u32 (str "#interrupt-cells") 1 >>>
  fdt_prop (str "interrupt-controller") [] >>>
  fdt_prop_str (str "compatible") (str "riscv,cpu-intc") >>>
  fdt_prop_u32 (str "phandle") (intc_phandle hartid) >>>
  fdt_prop_u32 (str "linux,phandle") (intc_phandle hartid) >>>
  fdt_end_node >>>
  fdt_end_node.

(** Two interrupts of each hart. *)
Definition hart_irqs (m : fdt_machine) (irq0 irq1 : Z) : list Z :=
  mjoin ((fun i => [intc_phandle i; irq0; intc_phandle i; irq1]) <$> seq 0 (length (misa_of m))).

Definition virtio_node (m : fdt_machine) (i : nat) : FDTState -> FDTState :=
  let addr := VIRTIO_BASE_ADDR + Z.of_nat i * VIRTIO_SIZE in
  fdt_begin_node_num (str "virtio") addr >>>
  fdt_prop_str (str "compatible") (str "virtio,mmio") >>>
  fdt_prop_tab_u64_2 (str "reg") addr VIRTIO_SIZE >>>
  fdt_prop_tab_u32 (str "interrupts-extended") [plic_phandle m; VIRTIO_IRQ + Z.of_nat i] >>>
  fdt_end_node.

Definition uart_node (m : fdt_machine) (uart_no : nat) : FDTState -> FDTState :=
  let base_addr := if (uart_no =? 0)%nat then DW_APB_UART0_BASE_ADDR else DW_APB_UART1_BASE_ADDR in
  fdt_begin_node_num (str "uart") base_addr >>>
  fdt_prop_tab_u64_2 (str "reg") base_addr DW_APB_UART0_SIZE >>>
  fdt_prop_u32 (str "current-speed") 115200 >>>
  fdt_prop_u32 (str "clock-frequency") 25000000 >>>
  fdt_prop_u32 (str "reg-shift") 2 >>>
  fdt_prop_u32 (str "reg-io-width") 4 >>>
  fdt_prop_str (str "compatible") (str "ns16550a") >>>
  fdt_prop_u32 (str "interrupt-parent") (plic_phandle m) >>>
  fdt_prop_u32 (str "interrupts") (if (uart_no =? 0)%nat then DW_APB_UART0_IRQ else DW_APB_UART1_IRQ) >>>
  fdt_end_node.

Definition fb_node (m : fdt_machine) (s : FDTState) : FDTState :=
  match fb_dev m with
  | None => s
  | Some fb =>
      (fdt_begin_node_num (str "framebuffer") FRAMEBUFFER_BASE_ADDR >>>
       fdt_prop_str (str "compatible") (str "simple-framebuffer") >>>
       fdt_prop_tab_u64_2 (str "reg") FRAMEBUFFER_BASE_ADDR (fb_size fb) >>>
       fdt_prop_u32 (str "width") (fb_width fb) >>>
       fdt_prop_u32 (str "height") (fb_height fb) >>>
       fdt_prop_u32 (str "stride") (fb_stride fb) >>>
       fdt_prop_str (str "format") (str "a8r8g8b8") >>>
       fdt_end_node) s
  end.

Definition cpus_node (m : fdt_machine) : FDTState -> FDTState :=
  fdt_begin_node (str "cpus") >>>
  fdt_prop_u32 (str "#address-cells") 1 >>>
  fdt_prop_u32 (str "#size-cells") 0 >>>
  fdt_prop_u32 (str "timebase-frequency") RTC_FREQ >>>
  for_loop (length (misa_of m)) (cpu_node m) >>>
  fdt_end_node.

Definition memory_node (m : fdt_machine) : FDTState -> FDTState :=
  fdt_begin_node_num (str "memory") (m_ram_base_addr m) >>>
  fdt_prop_str (str "device_type") (str "memory") >>>
  fdt_prop_tab_u32 (str "reg") (cell64 (m_ram_base_addr m) ++ cell64 (m_ram_size m)) >>>
  fdt_end_node.

Definition clint_node (m : fdt_machine) : FDTState -> FDTState :=
  fdt_begin_node_num (str "clint") (m_clint_base_addr m) >>>
  fdt_prop_str (str "compatible") (str "riscv,clint0") >>>
  fdt_prop_tab_u32 (str "interrupts-extended") (hart_irqs m 3 7) >>>
  fdt_prop_tab_u64_2 (str "reg") (m_clint_base_addr m) (m_clint_size m) >>>
  fdt_end_node.

Definition plic_node (m : fdt_machine) : FDTState -> FDTState :=
  fdt_begin_node_num (str "plic") (m_plic_base_addr m) >>>
  fdt_prop_u32 (str "#interrupt-cells") 1 >>>
  fdt_prop (str "interrupt-controller") [] >>>
  fdt_prop_str (str "compatible") (str "riscv,plic0") >>>
  fdt_prop_u32 (str "riscv,ndev") 31 >>>
  fdt_prop_tab_u64_2 (str "reg") (m_plic_base_addr m) (m_plic_size m) >>>
  fdt_prop_tab_u32 (str "interrupts-extended") (hart_irqs m 9 11) >>>
  fdt_prop_u32 (str "phandle") (plic_phandle m) >>>
  fdt_end_node.

Definition soc_node (m : fdt_machine) : FDTState -> FDTState :=
  fdt_begin_node (str "soc") >>>
  fdt_prop_u32 (str "#address-cells") 2 >>>
  fdt_prop_u32 (str "#size-cells") 2 >>>
  fdt_prop_tab_str (str "compatible") [str "ucbbar,dromajo-bar-soc"; str "simple-bus"] >>>
  fdt_prop (str "ranges") [] >>>
  clint_node m >>>
  plic_node m >>>
  for_loop (virtio_count m) (virtio_node m) >>>
  for_loop 2 (uart_node m) >>>
  fb_node m >>>
  fdt_end_node.

Definition has_initrd (initrd_start initrd_end : Z) : bool := nz initrd_start && (initrd_start <? initrd_end).

Definition chosen_node (cmd_line : option text) (initrd_start initrd_end : Z) : FDTState -> FDTState :=
  fdt_begin_node (str "chosen") >>>
  fdt_prop_str (str "bootargs") (default [] cmd_line) >>>
  (if has_initrd initrd_start initrd_end then
     fdt_prop_u64 (str "linux,initrd-start") initrd_start >>> fdt_prop_u64 (str "linux,initrd-end") initrd_end
   else id) >>>
  fdt_end_node.

Definition root_node (m : fdt_machine) (cmd_line : option text) (initrd_start initrd_end : Z) : FDTState -> FDTState :=
  fdt_begin_node [] >>>
  fdt_prop_u32 (str "#address-cells") 2 >>>
  fdt_prop_u32 (str "#size-cells") 2 >>>
  fdt_prop_str (str "compatible") (str "ucbbar,dromajo-bar_dev") >>>
  fdt_prop_str (str "model") (str "ucbbar,dromajo-bare") >>>
  cpus_node m >>>
  memory_node m >>>
  soc_node m >>>
  chosen_node cmd_line initrd_start initrd_end >>>
  fdt_end_node.

(** [dtb] is the contents of the file given with [--dtb]. *)
Definition riscv_build_fdt (m : fdt_machine) (dtb : option (list Z)) (cmd_line : option text)
    (initrd_start initrd_end : Z) : option (list Z) :=
  match dtb with
  | Some b => Some b
  | None => fdt_output (root_node m cmd_line initrd_start initrd_end fdt_init)
  end.
