(* ===== verification/FdtTree.v ===== *)
(** * The device tree a guest reads

    A reader of flattened device trees as the devicetree specification defines
    the format, the tree that describes a machine, and that the reader recovers
    this tree from the blob the simulator builds ([fdt_describes_machine]). *)

From S2P Require Import Prelude Json JsonPrint Config Fdt.
From Stdlib Require String.
Import String.StringSyntax.
Local Open Scope fdt_scope.

(** ** Reading *)

Inductive token := TBegin (name : text) | TProp (name : text) (data : list Z) | TEnd.

#[warnings="-register-all"]
Inductive dtree := Node (name : text) (props : list (text * list Z)) (children : list dtree).

Definition get_be32 (l : list Z) : option (Z * list Z) :=
  match l with
  | a :: b :: c :: d :: l => Some (a * 2 ^ 24 + b * 2 ^ 16 + c * 2 ^ 8 + d, l)
  | _ => None
  end.

(** The tokens of a structure block, up to the end token. *)
Fixpoint lex (fuel : nat) (strings l : list Z) : option (list token) :=
  match fuel with
  | O => None
  | S fuel =>
      match get_be32 l with
      | None => None
      | Some (tag, l) =>
          if tag =? FDT_BEGIN_NODE then
            let name := cstr l in
            let n := S (length name) in
            cons (TBegin name) <$> lex fuel strings (drop (n + padding n) l)
          else if tag =? FDT_END_NODE then cons TEnd <$> lex fuel strings l
          else if tag =? FDT_PROP then
            match get_be32 l with
            | None => None
            | Some (len, l) =>
                match get_be32 l with
                | None => None
                | Some (off, l) =>
                    let n := Z.to_nat len in
                    if (n <=? length l)%nat then
                      cons (TProp (cstr (drop (Z.to_nat off) strings)) (take n l)) <$>
                        lex fuel strings (drop (n + padding n) l)
                    else None
                end
            end
          else if tag =? FDT_NOP then lex fuel strings l
          else if tag =? FDT_END then Some []
          else None
      end
  end.

(** The properties in front. *)
Fixpoint span_props (l : list token) : list (text * list Z) * list token :=
  match l with
  | TProp n d :: l => let '(ps, l) := span_props l in ((n, d) :: ps, l)
  | _ => ([], l)
  end.

(** The nodes in front. *)
Fixpoint parse_nodes (fuel : nat) (l : list token) : option (list dtree * list token) :=
  match fuel, l with
  | O, _ => None
  | S fuel, TBegin name :: l =>
      let '(ps, l) := span_props l in
      match parse_nodes fuel l with
      | Some (cs, TEnd :: l) =>
          match parse_nodes fuel l with
          | Some (sibs, l) => Some (Node name ps cs :: sibs, l)
          | None => None
          end
      | _ => None
      end
  | S _, _ => Some ([], l)
  end.

Definition field32 (blob : list Z) (i : nat) : Z := default 0 (fst <$> get_be32 (drop (4 * i) blob)).

Definition sub_block (blob : list Z) (off size : Z) : list Z := take (Z.to_nat size) (drop (Z.to_nat off) blob).

(** Header fields by position: magic, total size, offsets of the structure, the
    strings and the reservation map, version, compatible version, boot hart, sizes
    of the strings and of the structure. *)
Definition read_fdt (blob : list Z) : option dtree :=
  let f := field32 blob in
  if (f 0%nat =? 0xd00dfeed) && (f 1%nat =? Z.of_nat (length blob)) && (f 6%nat <=? 17) && (17 <=? f 5%nat) &&
     (f 4%nat mod 8 =? 0) && (f 2%nat mod 4 =? 0) && (f 2%nat + f 9%nat <=? f 1%nat) && (f 3%nat + f 8%nat <=? f 1%nat) then
    let strings := sub_block blob (f 3%nat) (f 8%nat) in
    let struct := sub_block blob (f 2%nat) (f 9%nat) in
    match lex (length struct) strings struct with
    | None => None
    | Some toks =>
        match parse_nodes (S (length toks)) toks with
        | Some ([t], []) => Some t
        | _ => None
        end
    end
  else None.

(** ** Tokens of a tree *)

Fixpoint flatten (t : dtree) : list token :=
  match t with
  | Node name ps cs =>
      TBegin name :: map (fun '(n, d) => TProp n d) ps ++ concat (map flatten cs) ++ [TEnd]
  end.

Section dtree_ind.
  Context (P : dtree -> Prop) (H : forall name ps cs, Forall P cs -> P (Node name ps cs)).

Fixpoint dtree_nested_ind (t : dtree) : P t :=
  match t with
  | Node name ps cs =>
      H name ps cs ((fix go l := match l return Forall P l with
                                 | [] => Forall_nil_2 _
                                 | x :: l => Forall_cons_2 _ x l (dtree_nested_ind x) (go l)
                                 end) cs)
  end.
End dtree_ind.

Lemma span_props_app ps l :
  (forall n d l', l <> TProp n d :: l') -> span_props (map (fun '(n, d) => TProp n d) ps ++ l) = (ps, l).
Proof.
  intros Hl. induction ps as [|[n d] ps IH]; cbn.
  - destruct l as [|[| |] l]; try done. by destruct (Hl name data l).
  - by rewrite IH.
Qed.

Definition nodes_tokens (ts : list dtree) : list token := concat (map flatten ts).

(** The nodes [ts] are read back from their tokens when no node follows. *)
Definition nodes_read (ts : list dtree) : Prop :=
  forall l fuel, (forall n l', l <> TBegin n :: l') -> (length (nodes_tokens ts ++ l) < fuel)%nat ->
  parse_nodes fuel (nodes_tokens ts ++ l) = Some (ts, l).

Lemma nodes_read_cons name ps cs ts : nodes_read cs -> nodes_read ts -> nodes_read (Node name ps cs :: ts).
Proof.
  intros Hc Ht l fuel Hl Hf. unfold nodes_tokens in *. cbn [map concat flatten app] in *.
  rewrite <- !app_assoc in *. cbn [app length] in *. destruct fuel as [|fuel]; [lia|]. cbn [parse_nodes].
  rewrite !length_app in Hf. cbn [length] in Hf. rewrite !length_app in Hf.
  rewrite span_props_app.
  - rewrite Hc; [|done|unfold nodes_tokens; rewrite length_app; cbn [length]; rewrite !length_app; lia].
    rewrite Ht; [done|done|]. unfold nodes_tokens. rewrite length_app. lia.
  - intros n d l'. destruct cs as [|[n' ps' cs'] cs]; done.
Qed.

Lemma all_nodes_read ts : nodes_read ts.
Proof.
  assert (forall t ts, nodes_read ts -> nodes_read (t :: ts)) as Hcons.
  { intros t. induction t as [name ps cs IH] using dtree_nested_ind. intros ts' Hts. apply nodes_read_cons; [|done].
    clear Hts. induction IH as [|t cs Ht _ IHcs]; [|by apply Ht].
    intros l fuel Hl Hf. destruct fuel; [cbn in Hf; lia|]. cbn. destruct l as [|[] l]; try done. by destruct (Hl name0 l). }
  induction ts as [|t ts IH]; [|by apply Hcons].
  intros l fuel Hl Hf. destruct fuel; [cbn in Hf; lia|]. cbn. destruct l as [|[] l]; try done. by destruct (Hl name l).
Qed.

Lemma tree_read t : parse_nodes (S (length (flatten t))) (flatten t) = Some ([t], []).
Proof.
  pose proof (all_nodes_read [t] [] (S (length (flatten t)))) as H. unfold nodes_tokens in H. cbn [map concat] in H.
  rewrite !app_nil_r in H. apply H; [done|lia].
Qed.

(** ** Words and strings *)

Lemma get_be32_be32 v l : fits 32 v -> get_be32 (be32 v ++ l) = Some (v, l).
Proof.
  intros [H0 H1]. cbn [be32 app get_be32]. do 2 f_equal. unfold trunc. rewrite !Z.shiftr_div_pow2 by lia.
  rewrite (Z.mod_small (v / 2 ^ 24)) by (split; [apply Z.div_pos; lia|apply Z.div_lt_upper_bound; lia]).
  change (2 ^ 24) with (2 ^ 16 * 2 ^ 8). change (2 ^ 16) with (2 ^ 8 * 2 ^ 8).
  rewrite <- !Z.div_div by lia. change (2 ^ 8) with 256.
  pose proof (Z.div_mod v 256). pose proof (Z.div_mod (v / 256) 256). pose proof (Z.div_mod (v / 256 / 256) 256). lia.
Qed.

Lemma length_be32 v : length (be32 v) = 4%nat.
Proof. done. Qed.

Lemma cstr_terminated n l : no_nul n -> cstr (n ++ 0 :: l) = n.
Proof. induction 1 as [|c n Hc Hn IH]; [done|]. cbn. rewrite IH. by destruct (Z.eqb_spec c 0). Qed.

(** [cstr] sees only what is in front of the first NUL. *)
Lemma cstr_app l x : 0 ∈ l -> cstr (l ++ x) = cstr l.
Proof.
  induction l as [|c l IH]; intros H; [by apply not_elem_of_nil in H|]. cbn. destruct (Z.eqb_spec c 0) as [|Hc]; [done|].
  f_equal. apply IH. apply elem_of_cons in H as [H|H]; [congruence|done].
Qed.

(** ** Encodings *)

(** The string [n] at offset [off] of the table, with its terminator. *)
Definition name_at (strings : list Z) (off : nat) (n : text) : Prop :=
  (off < length strings)%nat /\ cstr (drop off strings) = n /\ 0 ∈ drop off strings.

Lemma name_at_app strings x off n : name_at strings off n -> name_at (strings ++ x) off n.
Proof.
  intros (H1 & H2 & H3). unfold name_at. rewrite length_app, drop_app_le by lia.
  split; [lia|]. split; [by rewrite cstr_app|]. apply elem_of_app. by left.
Qed.

Inductive encodes (strings : list Z) : list token -> list Z -> Prop :=
  | encodes_nil : encodes strings [] []
  | encodes_begin n ts b :
      no_nul n -> encodes strings ts b ->
      encodes strings (TBegin n :: ts)
        (be32 FDT_BEGIN_NODE ++ (n ++ [0]) ++ replicate (padding (length (n ++ [0]))) 0 ++ b)
  | encodes_prop n d off ts b :
      name_at strings off n -> encodes strings ts b ->
      encodes strings (TProp n d :: ts)
        (be32 FDT_PROP ++ be32 (Z.of_nat (length d)) ++ be32 (Z.of_nat off) ++ d ++ replicate (padding (length d)) 0 ++ b)
  | encodes_end ts b : encodes strings ts b -> encodes strings (TEnd :: ts) (be32 FDT_END_NODE ++ b).

Lemma encodes_app strings ts b ts' b' :
  encodes strings ts b -> encodes strings ts' b' -> encodes strings (ts ++ ts') (b ++ b').
Proof.
  induction 1; intros H'; cbn [app]; rewrite <- ?app_assoc; [done|..].
  - rewrite (app_assoc n [0]). constructor; auto.
  - constructor; auto.
  - constructor; auto.
Qed.

Lemma encodes_ext strings x ts b : encodes strings ts b -> encodes (strings ++ x) ts b.
Proof. induction 1; constructor; auto using name_at_app. Qed.

Lemma drop_padded {A} (d : list A) k x b : drop (length d + k) (d ++ replicate k x ++ b) = b.
Proof. rewrite drop_app_ge by lia. rewrite drop_app_ge by (rewrite length_replicate; lia). rewrite length_replicate.
  replace (length d + k - length d - k)%nat with 0%nat by lia. done. Qed.

(** The reader recovers the tokens. *)
Lemma lex_encodes strings ts b l fuel :
  encodes strings ts b -> Z.of_nat (length b) < 2 ^ 32 -> Z.of_nat (length strings) < 2 ^ 32 ->
  (length b < fuel)%nat -> lex fuel strings (b ++ be32 FDT_END ++ l) = Some ts.
Proof.
  intros He Hb Hs. revert fuel. induction He as [|n ts b Hn He IH|n d off ts b (Ho & Hc & H0) He IH|ts b He IH];
    intros fuel Hf; (destruct fuel as [|fuel]; [lia|]); rewrite ?length_app, ?length_be32 in Hb, Hf; rewrite <- ?app_assoc; cbn [lex].
  - cbn [app]. rewrite get_be32_be32 by done. done.
  - rewrite get_be32_be32 by done. change (FDT_BEGIN_NODE =? FDT_BEGIN_NODE) with true. cbn iota.
    cbn [app]. rewrite cstr_terminated by done. change (n ++ 0 :: ?x) with (n ++ [0] ++ x).
    rewrite (app_assoc n [0]). replace (S (length n)) with (length (n ++ [0])) by (rewrite length_app; cbn; lia).
    rewrite drop_padded. rewrite IH; [done|lia|lia].
  - rewrite get_be32_be32 by done. change (FDT_PROP =? FDT_BEGIN_NODE) with false. change (FDT_PROP =? FDT_END_NODE) with false.
    change (FDT_PROP =? FDT_PROP) with true. cbn iota.
    rewrite get_be32_be32 by (unfold fits; lia). rewrite get_be32_be32 by (unfold fits; lia). rewrite !Nat2Z.id.
    rewrite (proj2 (Nat.leb_le _ _)) by (rewrite length_app; lia). rewrite take_app_length, Hc.
    rewrite drop_padded. rewrite IH; [done|lia|lia].
  - rewrite get_be32_be32 by done. change (FDT_END_NODE =? FDT_BEGIN_NODE) with false.
    change (FDT_END_NODE =? FDT_END_NODE) with true. cbn iota. rewrite IH; [done|lia|lia].
Qed.

(** ** What the builder emits *)

(** The strings are terminated. *)
Definition strings_ok (t : list Z) : Prop := t = [] \/ last t = Some 0.

Lemma strings_ok_drop t off : strings_ok t -> (off < length t)%nat -> 0 ∈ drop off t.
Proof.
  intros [->|Hl] Ho; [cbn in Ho; lia|]. apply last_Some in Hl as [t' ->]. rewrite length_app in Ho. cbn in Ho.
  rewrite drop_app_le by lia. apply elem_of_app. right. by apply list_elem_of_singleton.
Qed.

Lemma find_string_at fuel t name pos off :
  find_string fuel t name pos = Some off -> (off < length t)%nat /\ cstr (drop off t) = name.
Proof.
  revert pos. induction fuel as [|fuel IH]; intros pos; cbn [find_string]; [done|].
  destruct (Nat.ltb_spec pos (length t)); [|done]. destruct (decide _) as [E|]; [|apply IH]. by intros [= <-].
Qed.

(** Nodes opened less nodes closed. *)
Fixpoint depth (ts : list token) : Z :=
  match ts with
  | [] => 0
  | TBegin _ :: ts => 1 + depth ts
  | TProp _ _ :: ts => depth ts
  | TEnd :: ts => -1 + depth ts
  end.

Lemma depth_app ts ts' : depth (ts ++ ts') = depth ts + depth ts'.
Proof. induction ts as [|[] ts IH]; cbn [app depth]; lia. Qed.

Lemma depth_flatten t : depth (flatten t) = 0.
Proof.
  induction t as [name ps cs IH] using dtree_nested_ind. cbn [flatten depth]. rewrite !depth_app. cbn [depth].
  assert (depth (map (fun '(n, d) => TProp n d) ps) = 0) as -> by (induction ps as [|[] ps IHp]; done).
  assert (depth (concat (map flatten cs)) = 0) as ->; [|lia].
  induction IH as [|t cs Ht _ IHc]; [done|]. cbn [map concat]. rewrite depth_app. lia.
Qed.

(** [op] appends the encoding of [ts], and strings. *)
Definition emits (op : FDTState -> FDTState) (ts : list token) : Prop :=
  forall s, strings_ok (string_table s) ->
  exists b x,
    open_node_count (op s) = open_node_count s + depth ts /\
    tab (op s) = tab s ++ b /\ string_table (op s) = string_table s ++ x /\ strings_ok (string_table (op s)) /\
    encodes (string_table (op s)) ts b.

Lemma emits_then f g ts ts' : emits f ts -> emits g ts' -> emits (f >>> g) (ts ++ ts').
Proof.
  intros Hf Hg s Hs. unfold andthen. destruct (Hf s Hs) as (b & x & Ho & Hb & Hx & Hs' & He).
  destruct (Hg (f s) Hs') as (b' & x' & Ho' & Hb' & Hx' & Hs'' & He'). exists (b ++ b'), (x ++ x').
  split; [rewrite Ho', Ho, depth_app; lia|]. split; [by rewrite Hb', Hb, <- app_assoc|]. split; [by rewrite Hx', Hx, <- app_assoc|]. split; [done|].
  apply encodes_app; [|done]. rewrite Hx'. by apply encodes_ext.
Qed.

Lemma emits_id : emits id [].
Proof. intros s Hs. exists [], []. rewrite !app_nil_r. repeat split; [cbn; lia|done|constructor]. Qed.

Lemma emits_for n body (f : nat -> list token) :
  (forall i, emits (body i) (f i)) -> emits (for_loop n body) (concat (map f (seq 0 n))).
Proof.
  intros Hb. unfold for_loop. generalize (seq 0 n) as l. intros l.
  enough (emits (fun s => foldl (fun s i => body i s) s l) (concat (map f l))) by done.
  induction l as [|i l IH]; [apply emits_id|]. cbn [foldl map concat].
  apply (emits_then (body i) (fun s => foldl (fun s i => body i s) s l)); auto.
Qed.

Lemma emits_begin name : no_nul name -> emits (fdt_begin_node name) [TBegin name].
Proof.
  intros Hn s Hs. cbn [fdt_begin_node fdt_put_data fdt_put32 tab string_table].
  exists (be32 FDT_BEGIN_NODE ++ (name ++ [0]) ++ replicate (padding (length (name ++ [0]))) 0 ++ []), [].
  rewrite !app_nil_r, <- !app_assoc. repeat split; [done|].
  pose proof (encodes_begin (string_table s) name [] [] Hn (encodes_nil _)) as H. by rewrite app_nil_r, <- !app_assoc in H.
Qed.

Lemma emits_end : emits fdt_end_node [TEnd].
Proof.
  intros s Hs. cbn [fdt_end_node fdt_put32 tab string_table]. exists (be32 FDT_END_NODE), []. rewrite !app_nil_r.
  repeat split; [done|]. pose proof (encodes_end (string_table s) [] [] (encodes_nil _)) as H. by rewrite app_nil_r in H.
Qed.

(** The header of a property followed by its data. *)
Lemma emits_header name len data op :
  (len = length data) -> no_nul name ->
  (forall s, op s = mkFDT (tab s ++ data ++ replicate (padding (length data)) 0) (open_node_count s) (string_table s)) ->
  emits (prop_header name len >>> op) [TProp name data].
Proof.
  intros -> Hn Hop s Hs. unfold andthen. rewrite Hop. unfold prop_header.
  assert (exists off x, fdt_get_string_offset name (fdt_put32 (Z.of_nat (length data)) (fdt_put32 FDT_PROP s)) =
    (off, mkFDT ((tab s ++ be32 FDT_PROP) ++ be32 (Z.of_nat (length data))) (open_node_count s) (string_table s ++ x)) /\
    strings_ok (string_table s ++ x) /\ name_at (string_table s ++ x) off name) as (off & x & -> & Hs' & Ha).
  { unfold fdt_get_string_offset. cbn [fdt_put32 string_table tab open_node_count].
    destruct (find_string _ _ _ _) as [off|] eqn:Ef.
    - exists off, []. rewrite app_nil_r. apply find_string_at in Ef as [H1 H2].
      repeat split; [done..|by apply strings_ok_drop].
    - exists (length (string_table s)), (name ++ [0]). split; [done|]. split.
      + right. rewrite app_assoc. by rewrite last_snoc.
      + unfold name_at. rewrite !length_app, drop_app_length. cbn [length]. split; [lia|]. split; [by apply cstr_terminated|].
        apply elem_of_app. right. by apply list_elem_of_singleton. }
  cbn [fdt_put32 tab string_table open_node_count].
  eexists _, x. split; [cbn; lia|]. split; [|split; [done|split; [done|]]];
    [|exact (encodes_prop _ name data off [] [] Ha (encodes_nil _))]. by rewrite app_nil_r, <- !app_assoc.
Qed.

Lemma emits_prop name data : no_nul name -> emits (fdt_prop name data) [TProp name data].
Proof. intros Hn. by apply (emits_header name (length data) data (fdt_put_data data)). Qed.

Lemma foldl_put32 vals s :
  foldl (fun s v => fdt_put32 v s) s vals = mkFDT (tab s ++ mjoin (be32 <$> vals)) (open_node_count s) (string_table s).
Proof.
  revert s. induction vals as [|v vals IH]; intros s; cbn [foldl].
  - destruct s; cbn. by rewrite app_nil_r.
  - rewrite IH. cbn. by rewrite <- app_assoc.
Qed.

Lemma length_cells vals : length (mjoin (be32 <$> vals)) = (length vals * 4)%nat.
Proof.
  induction vals as [|v vals IH]; [done|]. change (mjoin (be32 <$> v :: vals)) with (be32 v ++ mjoin (be32 <$> vals)).
  rewrite length_app, IH. cbn [length be32]. lia.
Qed.

Lemma padding_words n : padding (n * 4) = 0%nat.
Proof.
  unfold padding. change 3 with (Z.ones 2). rewrite Z.land_ones by lia.
  replace (- Z.of_nat (n * 4)) with ((- Z.of_nat n) * 2 ^ 2) by lia. by rewrite Z.mod_mul.
Qed.

Lemma emits_cells name vals : no_nul name -> emits (fdt_prop_tab_u32 name vals) [TProp name (mjoin (be32 <$> vals))].
Proof.
  intros Hn. apply (emits_header name (length vals * 4) _ (fun s => foldl (fun s v => fdt_put32 v s) s vals));
    [by rewrite length_cells|done|]. intros s. rewrite foldl_put32, length_cells, padding_words. by rewrite app_nil_r.
Qed.

Create HintDb fdt.

Lemma no_nul_app a b : no_nul a -> no_nul b -> no_nul (a ++ b).
Proof. intros. by apply Forall_app. Qed.

Lemma no_nul_hex fuel n : no_nul (hex_digits fuel n).
Proof.
  revert n. induction fuel as [|fuel IH]; intros n; [constructor|]. cbn [hex_digits]. apply no_nul_app.
  - destruct (n <? 16); [constructor|apply IH].
  - constructor; [|constructor]. unfold hex_digit. pose proof (Z.mod_pos_bound n 16). destruct (_ <? 10); lia.
Qed.

Lemma no_nul_node name n : no_nul name -> no_nul (node_num name n).
Proof. intros H. unfold node_num. apply no_nul_app; [done|]. constructor; [done|apply no_nul_hex]. Qed.

(** A closed name. *)
Lemma no_nul_closed n : forallb (fun c => negb (c =? 0)) n = true -> no_nul n.
Proof.
  induction n as [|c n IH]; [constructor|]. cbn. intros [Hc Hn]%andb_true_iff. constructor; [|by apply IH].
  by apply negb_true_iff, Z.eqb_neq in Hc.
Qed.

#[export] Hint Resolve emits_id emits_begin emits_end emits_prop emits_cells no_nul_node : fdt.
#[export] Hint Extern 4 (no_nul _) => apply no_nul_closed; vm_compute; reflexivity : fdt.

(** ** The tree of a machine *)

Definition p_str (n s : text) : text * list Z := (n, s ++ [0]).
Definition p_cells (n : text) (l : list Z) : text * list Z := (n, mjoin (be32 <$> l)).
Definition p_u32 (n : text) (v : Z) : text * list Z := p_cells n [v].
Definition p_flag (n : text) : text * list Z := (n, []).

Definition cpu_tree (m : fdt_machine) (hartid : nat) : dtree :=
  Node (node_num (str "cpu") (Z.of_nat hartid))
    [p_str (str "device_type") (str "cpu"); p_u32 (str "reg") (Z.of_nat hartid); p_str (str "status") (str "okay");
     p_str (str "compatible") (str "riscv"); p_str (str "riscv,isa") (isa_string (nth hartid (misa_of m) 0));
     p_str (str "mmu-type") (str "riscv,sv48"); p_u32 (str "clock-frequency") 2000000000]
    [Node (str "interrupt-controller")
       [p_u32 (str "#interrupt-cells") 1; p_flag (str "interrupt-controller"); p_str (str "compatible") (str "riscv,cpu-intc");
        p_u32 (str "phandle") (1 + Z.of_nat hartid); p_u32 (str "linux,phandle") (1 + Z.of_nat hartid)] []].

Definition cpus_tree (m : fdt_machine) : dtree :=
  Node (str "cpus") [p_u32 (str "#address-cells") 1; p_u32 (str "#size-cells") 0; p_u32 (str "timebase-frequency") 1000000]
    (map (cpu_tree m) (seq 0 (length (misa_of m)))).

Definition memory_tree (m : fdt_machine) : dtree :=
  Node (node_num (str "memory") (m_ram_base_addr m))
    [p_str (str "device_type") (str "memory"); p_cells (str "reg") (cell64 (m_ram_base_addr m) ++ cell64 (m_ram_size m))] [].

Definition clint_tree (m : fdt_machine) : dtree :=
  Node (node_num (str "clint") (m_clint_base_addr m))
    [p_str (str "compatible") (str "riscv,clint0"); p_cells (str "interrupts-extended") (hart_irqs m 3 7);
     p_cells (str "reg") (cell64 (m_clint_base_addr m) ++ cell64 (m_clint_size m))] [].

Definition plic_tree (m : fdt_machine) : dtree :=
  Node (node_num (str "plic") (m_plic_base_addr m))
    [p_u32 (str "#interrupt-cells") 1; p_flag (str "interrupt-controller"); p_str (str "compatible") (str "riscv,plic0");
     p_u32 (str "riscv,ndev") 31; p_cells (str "reg") (cell64 (m_plic_base_addr m) ++ cell64 (m_plic_size m));
     p_cells (str "interrupts-extended") (hart_irqs m 9 11); p_u32 (str "phandle") (plic_phandle m)] [].

Definition virtio_tree (m : fdt_machine) (i : nat) : dtree :=
  let addr := 0x40010000 + Z.of_nat i * 0x1000 in
  Node (node_num (str "virtio") addr)
    [p_str (str "compatible") (str "virtio,mmio"); p_cells (str "reg") (cell64 addr ++ cell64 0x1000);
     p_cells (str "interrupts-extended") [plic_phandle m; 4 + Z.of_nat i]] [].

Definition uart_tree (m : fdt_machine) (addr irq : Z) : dtree :=
  Node (node_num (str "uart") addr)
    [p_cells (str "reg") (cell64 addr ++ cell64 0x1000); p_u32 (str "current-speed") 115200;
     p_u32 (str "clock-frequency") 25000000; p_u32 (str "reg-shift") 2; p_u32 (str "reg-io-width") 4;
     p_str (str "compatible") (str "ns16550a"); p_u32 (str "interrupt-parent") (plic_phandle m);
     p_u32 (str "interrupts") irq] [].

Definition fb_tree (fb : FBDevice) : dtree :=
  Node (node_num (str "framebuffer") 0x41000000)
    [p_str (str "compatible") (str "simple-framebuffer"); p_cells (str "reg") (cell64 0x41000000 ++ cell64 (fb_size fb));
     p_u32 (str "width") (fb_width fb); p_u32 (str "height") (fb_height fb); p_u32 (str "stride") (fb_stride fb);
     p_str (str "format") (str "a8r8g8b8")] [].

Definition soc_tree (m : fdt_machine) : dtree :=
  Node (str "soc")
    [p_u32 (str "#address-cells") 2; p_u32 (str "#size-cells") 2;
     (str "compatible", str "ucbbar,dromajo-bar-soc" ++ [0] ++ str "simple-bus" ++ [0]); p_flag (str "ranges")]
    (clint_tree m :: plic_tree m :: map (virtio_tree m) (seq 0 (virtio_count m)) ++
     [uart_tree m 0x12002000 3; uart_tree m 0x12007000 15] ++ option_list (fb_tree <$> fb_dev m)).

Definition chosen_tree (cmd_line : option text) (initrd_start initrd_end : Z) : dtree :=
  Node (str "chosen")
    (p_str (str "bootargs") (default [] cmd_line) ::
     if has_initrd initrd_start initrd_end then
       [p_cells (str "linux,initrd-start") (cell64 initrd_start); p_cells (str "linux,initrd-end") (cell64 initrd_end)]
     else []) [].

(** The tree of the whole machine. *)
Definition machine_tree (m : fdt_machine) (cmd_line : option text) (initrd_start initrd_end : Z) : dtree :=
  Node []
    [p_u32 (str "#address-cells") 2; p_u32 (str "#size-cells") 2; p_str (str "compatible") (str "ucbbar,dromajo-bar_dev");
     p_str (str "model") (str "ucbbar,dromajo-bare")]
    [cpus_tree m; memory_tree m; soc_tree m; chosen_tree cmd_line initrd_start initrd_end].

(** A sequence of statements with the tokens of each. *)
Lemma emits_eq op ts ts' : emits op ts -> ts = ts' -> emits op ts'.
Proof. by intros ? <-. Qed.

Lemma emits_str name s : no_nul name -> emits (fdt_prop_str name s) [TProp name (s ++ [0])].
Proof. apply emits_prop. Qed.
#[export] Hint Resolve emits_str : fdt.

Ltac emit_all :=
  lazymatch goal with
  | |- emits (andthen _ _) _ => eapply emits_then; emit_all
  | |- _ => solve [eauto with fdt nocore]
  end.
Ltac emit := eapply emits_eq; [emit_all|].

Lemma emits_cpu m i : emits (cpu_node m i) (flatten (cpu_tree m i)).
Proof. unfold cpu_node. emit. reflexivity. Qed.

Lemma flatten_map {A} (f : A -> dtree) l : concat (map (fun x => flatten (f x)) l) = concat (map flatten (map f l)).
Proof. by rewrite map_map. Qed.

Lemma emits_cpus m : emits (cpus_node m) (flatten (cpus_tree m)).
Proof.
  pose proof (emits_for (length (misa_of m)) (cpu_node m) (fun i => flatten (cpu_tree m i)) (emits_cpu m)) as Hl.
  rewrite flatten_map in Hl. unfold cpus_node. emit. cbn [app flatten map]. reflexivity.
Qed.

Lemma emits_memory m : emits (memory_node m) (flatten (memory_tree m)).
Proof. unfold memory_node. emit. reflexivity. Qed.

Lemma emits_clint m : emits (clint_node m) (flatten (clint_tree m)).
Proof. unfold clint_node. emit. reflexivity. Qed.

Lemma emits_plic m : emits (plic_node m) (flatten (plic_tree m)).
Proof. unfold plic_node. emit. reflexivity. Qed.

Lemma emits_virtio m i : emits (virtio_node m i) (flatten (virtio_tree m i)).
Proof. unfold virtio_node. emit. reflexivity. Qed.

Definition nth_uart (m : fdt_machine) (i : nat) : dtree :=
  if (i =? 0)%nat then uart_tree m 0x12002000 3 else uart_tree m 0x12007000 15.

Lemma emits_uart m i : emits (uart_node m i) (flatten (nth_uart m i)).
Proof. unfold nth_uart, uart_node. destruct (i =? 0)%nat; emit; reflexivity. Qed.

Lemma emits_fb m : emits (fb_node m) (concat (map flatten (option_list (fb_tree <$> fb_dev m)))).
Proof.
  unfold fb_node. destruct (fb_dev m) as [fb|]; [|apply emits_id].
  eapply (emits_eq (_ >>> _)); [emit_all|reflexivity].
Qed.

Lemma emits_soc m : emits (soc_node m) (flatten (soc_tree m)).
Proof.
  pose proof (emits_for (virtio_count m) (virtio_node m) (fun i => flatten (virtio_tree m i)) (emits_virtio m)) as Hv.
  pose proof (emits_for 2 (uart_node m) (fun i => flatten (nth_uart m i)) (emits_uart m)) as Hu.
  rewrite flatten_map in Hv, Hu. pose proof (emits_clint m). pose proof (emits_plic m). pose proof (emits_fb m).
  unfold soc_node. emit. unfold soc_tree. cbn [flatten]. rewrite !map_cons, !map_app.
  cbn [concat map]. rewrite !concat_app, <- !app_assoc. reflexivity.
Qed.

Lemma emits_chosen c i0 i1 : emits (chosen_node c i0 i1) (flatten (chosen_tree c i0 i1)).
Proof. unfold chosen_node, chosen_tree. destruct (has_initrd i0 i1); emit; reflexivity. Qed.

Lemma emits_root m c i0 i1 : emits (root_node m c i0 i1) (flatten (machine_tree m c i0 i1)).
Proof.
  pose proof (emits_cpus m). pose proof (emits_memory m). pose proof (emits_soc m). pose proof (emits_chosen c i0 i1).
  unfold root_node. emit. unfold machine_tree. cbn [flatten]. rewrite !map_cons.
  cbn [concat map]. rewrite app_nil_r, <- !app_assoc. reflexivity.
Qed.

(** ** The blob *)

Lemma field32_words vs r i v :
  vs !! i = Some v -> fits 32 v -> field32 (mjoin (be32 <$> vs) ++ r) i = v.
Proof.
  unfold field32. revert i. induction vs as [|w vs IH]; intros i Hi Hv; [done|].
  change (mjoin (be32 <$> w :: vs)) with (be32 w ++ mjoin (be32 <$> vs)). rewrite <- app_assoc. destruct i as [|i].
  - injection Hi as ->. change (drop (4 * 0) (be32 v ++ mjoin (be32 <$> vs) ++ r)) with (be32 v ++ mjoin (be32 <$> vs) ++ r).
    by rewrite get_be32_be32.
  - rewrite drop_app_ge by (rewrite length_be32; lia). rewrite length_be32.
    replace (4 * S i - 4)%nat with (4 * i)%nat by lia. by apply IH.
Qed.

Lemma align8_spec l : exists k, align8 l = l ++ replicate k 0 /\ (length (align8 l) mod 8 = 0)%nat.
Proof.
  unfold align8. set (k := Z.to_nat _). exists k. split; [done|]. rewrite length_app, length_replicate.
  subst k. change 7 with (Z.ones 3). rewrite Z.land_ones by lia.
  apply Nat2Z.inj. rewrite Nat2Z.inj_mod, Nat2Z.inj_add, Z2Nat.id by (apply Z.mod_pos_bound; lia).
  change (Z.of_nat 8) with (2 ^ 3). change (Z.of_nat 0) with 0. rewrite Z.add_mod_idemp_r by lia.
  by rewrite Z.add_opp_diag_r.
Qed.

(** The blob in parts: header, structure, reservation map, strings. *)
Lemma fdt_output_parts s blob :
  fdt_output s = Some blob ->
  open_node_count s = 0 /\
  exists k1 k2,
    let T := tab s ++ be32 FDT_END in let S := string_table s in
    let off_rsvmap := (40 + length T + k1)%nat in let off_strings := (off_rsvmap + 16)%nat in
    blob = fdt_header (length blob) 40 off_strings off_rsvmap (length S) (length T) ++
           T ++ replicate k1 0 ++ replicate 16 0 ++ S ++ replicate k2 0 /\
    length blob = (off_strings + length S + k2)%nat /\ (off_rsvmap mod 8 = 0)%nat.
Proof.
  unfold fdt_output. destruct (Z.eqb_spec (open_node_count s) 0) as [Ho|]; cbn [negb]; [|done]. intros Hb.
  apply (inj Some) in Hb. split; [done|]. cbn [fdt_put32 tab string_table] in Hb.
  set (T := tab s ++ be32 FDT_END) in *. set (S := string_table s) in *.
  destruct (align8_spec (replicate 40 0 ++ T)) as (k1 & E1 & Hk1). rewrite E1 in Hb, Hk1.
  destruct (align8_spec (((replicate 40 0 ++ T) ++ replicate k1 0) ++ replicate 16 0 ++ S)) as (k2 & E2 & _).
  rewrite <- !app_assoc in *. rewrite E2 in Hb. exists k1, k2. cbv zeta.
  assert (forall l : list Z, drop 40 (replicate 40 0 ++ l) = l) as Hd by done.
  rewrite Hd in Hb.
  assert (length (replicate 40 0 ++ T ++ replicate k1 0) = (40 + length T + k1)%nat) as L1
    by (rewrite !length_app, !length_replicate; lia).
  assert (length (replicate 40 0 ++ T ++ replicate k1 0 ++ replicate 16 0) = (40 + length T + k1 + 16)%nat) as L2
    by (rewrite !length_app, !length_replicate; lia).
  assert (length blob = 40 + length T + k1 + 16 + length S + k2)%nat as L3.
  { rewrite <- Hb. rewrite !length_app, !length_replicate. change (length (fdt_header _ _ _ _ _ _)) with 40%nat. lia. }
  rewrite L1 in Hk1. split; [|done].
  assert (length (replicate 40 0 ++ T ++ replicate k1 0 ++ replicate 16 0 ++ S ++ replicate k2 0) = length blob) as L4
    by (rewrite L3, !length_app, !length_replicate; lia).
  rewrite L1, L2, L4 in Hb. symmetry. exact Hb.
Qed.

Lemma sub_block_at a b c off size :
  Z.to_nat off = length a -> Z.to_nat size = length b -> sub_block (a ++ b ++ c) off size = b.
Proof. intros Ho Hs. unfold sub_block. by rewrite Ho, Hs, drop_app_length, take_app_length. Qed.

(** The reader on a blob in parts. *)
Lemma read_parts ts t (S b : list Z) k1 k2 blob :
  let T := b ++ be32 FDT_END in
  let off_rsvmap := (40 + length T + k1)%nat in let off_strings := (off_rsvmap + 16)%nat in
  encodes S ts b -> ts = flatten t -> Z.of_nat (length blob) < 2 ^ 32 ->
  blob = fdt_header (length blob) 40 off_strings off_rsvmap (length S) (length T) ++
         T ++ replicate k1 0 ++ replicate 16 0 ++ S ++ replicate k2 0 ->
  length blob = (off_strings + length S + k2)%nat -> (off_rsvmap mod 8 = 0)%nat ->
  read_fdt blob = Some t.
Proof.
  intros T off_rsvmap off_strings He -> Hlen Hb Hl Hm.
  set (vs := [FDT_MAGIC; Z.of_nat (length blob); Z.of_nat 40; Z.of_nat off_strings; Z.of_nat off_rsvmap; FDT_VERSION; 16; 0;
              Z.of_nat (length S); Z.of_nat (length T)]).
  set (R := T ++ replicate k1 0 ++ replicate 16 0 ++ S ++ replicate k2 0) in *.
  assert (blob = mjoin (be32 <$> vs) ++ R) as Hv by (rewrite Hb at 1; reflexivity).
  assert (forall i v, vs !! i = Some v -> fits 32 v -> field32 blob i = v) as Hf
    by (intros i v; rewrite Hv; apply field32_words).
  assert (forall n, (n <= length blob)%nat -> fits 32 (Z.of_nat n)) as Hfit by (unfold fits; lia).
  assert (off_rsvmap = (40 + length T + k1)%nat) as Er by done. assert (off_strings = (off_rsvmap + 16)%nat) as Es by done.
  clearbody off_rsvmap off_strings.
  unfold read_fdt.
  rewrite (Hf 0%nat _ eq_refl), (Hf 1%nat _ eq_refl), (Hf 2%nat _ eq_refl), (Hf 3%nat _ eq_refl), (Hf 4%nat _ eq_refl),
    (Hf 5%nat _ eq_refl), (Hf 6%nat _ eq_refl), (Hf 8%nat _ eq_refl), (Hf 9%nat _ eq_refl)
    by (done || apply Hfit; lia).
  assert (Z.of_nat off_rsvmap mod 8 = 0) as Hm' by (change 8 with (Z.of_nat 8); rewrite <- Nat2Z.inj_mod, Hm; done).
  rewrite Hm', !Z.eqb_refl. rewrite !(proj2 (Z.leb_le _ _)) by (done || lia).
  change (Z.of_nat 40 mod 4 =? 0) with true. cbn [andb].
  assert (sub_block blob (Z.of_nat off_strings) (Z.of_nat (length S)) = S) as ->.
  { rewrite Hv. unfold R. rewrite !(app_assoc _ _ (S ++ _)). apply sub_block_at; [|lia].
    rewrite !length_app, !length_replicate, length_cells. cbn [length vs]. lia. }
  assert (sub_block blob (Z.of_nat 40) (Z.of_nat (length T)) = T) as ->.
  { rewrite Hv. unfold R. apply sub_block_at; [by rewrite length_cells|lia]. }
  unfold T. rewrite <- (app_nil_r (be32 FDT_END)).
  rewrite (lex_encodes S (flatten t) b); [by rewrite tree_read|done|..];
    unfold T in Er; rewrite ?length_app, ?length_be32 in *; cbn [length]; lia.
Qed.

(** ** The blob consists of bytes *)

Definition are_bytes (bs : list Z) : Prop := Forall (fits 8) bs.

Definition keeps_bytes (op : FDTState -> FDTState) : Prop :=
  forall s, are_bytes (tab s) /\ are_bytes (string_table s) -> are_bytes (tab (op s)) /\ are_bytes (string_table (op s)).

Lemma are_bytes_app a b : are_bytes a -> are_bytes b -> are_bytes (a ++ b).
Proof. intros. by apply Forall_app. Qed.

Lemma are_bytes_be32 v : are_bytes (be32 v).
Proof. repeat constructor; apply trunc_fits; lia. Qed.

Lemma are_bytes_zeros n : are_bytes (replicate n 0).
Proof. apply Forall_replicate. unfold fits. lia. Qed.

Lemma are_bytes_cells vals : are_bytes (mjoin (be32 <$> vals)).
Proof.
  induction vals as [|v vals IH]; [constructor|]. apply (are_bytes_app (be32 v)); [apply are_bytes_be32|done].
Qed.

Lemma are_bytes_closed l : forallb (fun c => (0 <=? c) && (c <? 256)) l = true -> are_bytes l.
Proof.
  induction l as [|c l IH]; [constructor|]. cbn. intros [Hc Hl]%andb_true_iff. constructor; [unfold fits; lia|by apply IH].
Qed.

Lemma are_bytes_hex fuel n : are_bytes (hex_digits fuel n).
Proof.
  revert n. induction fuel as [|fuel IH]; intros n; [constructor|]. cbn [hex_digits]. apply are_bytes_app.
  - destruct (n <? 16); [constructor|apply IH].
  - constructor; [|constructor]. unfold hex_digit, fits. pose proof (Z.mod_pos_bound n 16). destruct (_ <? 10); lia.
Qed.

Lemma are_bytes_node name n : are_bytes name -> are_bytes (node_num name n).
Proof. intros H. unfold node_num. apply are_bytes_app; [done|]. apply (are_bytes_app [64]); [by apply are_bytes_closed|apply are_bytes_hex]. Qed.

Lemma are_bytes_isa misa : are_bytes (isa_string misa).
Proof.
  apply are_bytes_app; [by apply are_bytes_closed|]. apply Forall_forall. intros x (i & Hi & Hx)%list_elem_of_omap.
  apply elem_of_seq in Hi. destruct (has _ _); [|done]. injection Hx as <-. unfold fits. lia.
Qed.

Lemma keeps_then f g : keeps_bytes f -> keeps_bytes g -> keeps_bytes (f >>> g).
Proof. intros Hf Hg s Hs. by apply Hg, Hf. Qed.

Lemma keeps_for n body : (forall i, keeps_bytes (body i)) -> keeps_bytes (for_loop n body).
Proof.
  intros Hb. unfold for_loop. generalize (seq 0 n) as l. intros l s. revert s.
  induction l as [|i l IH]; intros s Hs; [done|]. cbn [foldl]. by apply IH, Hb.
Qed.

Lemma keeps_put32 v : keeps_bytes (fdt_put32 v).
Proof. intros s [H1 H2]. split; [|done]. by apply are_bytes_app, are_bytes_be32. Qed.

Lemma keeps_put_data data : are_bytes data -> keeps_bytes (fdt_put_data data).
Proof. intros Hd s [H1 H2]. split; [|done]. apply are_bytes_app; [done|]. apply are_bytes_app; [done|apply are_bytes_zeros]. Qed.

Lemma are_bytes_str s : are_bytes s -> are_bytes (s ++ [0]).
Proof. intros H. apply are_bytes_app; [done|apply (are_bytes_zeros 1)]. Qed.

Lemma keeps_begin name : are_bytes name -> keeps_bytes (fdt_begin_node name).
Proof.
  intros Hn s Hs. unfold fdt_begin_node. cbn [tab string_table].
  by apply keeps_put_data, keeps_put32; [apply are_bytes_str|].
Qed.

Lemma keeps_end : keeps_bytes fdt_end_node.
Proof. intros s Hs. unfold fdt_end_node. cbn [tab string_table]. by apply (keeps_put32 FDT_END_NODE). Qed.

Lemma keeps_header name len : are_bytes name -> keeps_bytes (prop_header name len).
Proof.
  intros Hn s Hs. unfold prop_header. set (s1 := fdt_put32 _ (fdt_put32 _ s)).
  assert (are_bytes (tab s1) /\ are_bytes (string_table s1)) as [H1 H2] by (by apply keeps_put32, keeps_put32).
  unfold fdt_get_string_offset. destruct (find_string _ _ _ _); apply keeps_put32; [done|].
  split; [done|]. cbn [string_table]. apply are_bytes_app; [done|by apply are_bytes_str].
Qed.

Lemma keeps_prop name data : are_bytes name -> are_bytes data -> keeps_bytes (fdt_prop name data).
Proof. intros Hn Hd s Hs. by apply keeps_put_data, keeps_header. Qed.

Lemma keeps_cells name vals : are_bytes name -> keeps_bytes (fdt_prop_tab_u32 name vals).
Proof.
  intros Hn s Hs. unfold fdt_prop_tab_u32. rewrite foldl_put32. destruct (keeps_header name (length vals * 4) Hn s Hs).
  split; [|done]. by apply are_bytes_app, are_bytes_cells.
Qed.

Lemma keeps_str name s : are_bytes name -> are_bytes s -> keeps_bytes (fdt_prop_str name s).
Proof. intros Hn Hs. by apply keeps_prop, are_bytes_str. Qed.

#[export] Hint Resolve are_bytes_node are_bytes_isa : fdt.
#[export] Hint Extern 4 (are_bytes _) => apply are_bytes_closed; vm_compute; reflexivity : fdt.

Ltac keep_all :=
  lazymatch goal with
  | |- keeps_bytes (andthen _ _) => apply keeps_then; keep_all
  | |- keeps_bytes (for_loop _ _) => apply keeps_for; intro; keep_all
  | |- keeps_bytes fdt_end_node => apply keeps_end
  | |- keeps_bytes (fdt_begin_node _) => apply keeps_begin; keep_all
  | |- keeps_bytes (fdt_begin_node_num ?n ?v) => apply (keeps_begin (node_num n v)); keep_all
  | |- keeps_bytes (fdt_prop_str _ _) => apply keeps_str; keep_all
  | |- keeps_bytes (fdt_prop_u32 ?n ?v) => apply (keeps_cells n [v]); keep_all
  | |- keeps_bytes (fdt_prop_u64 ?n ?v) => apply (keeps_cells n (cell64 v)); keep_all
  | |- keeps_bytes (fdt_prop_tab_u64_2 ?n ?v ?w) => apply (keeps_cells n (cell64 v ++ cell64 w)); keep_all
  | |- keeps_bytes (fdt_prop_tab_u32 _ _) => apply keeps_cells; keep_all
  | |- keeps_bytes (fdt_prop_tab_str ?n ?l) => apply (keeps_prop n (mjoin ((fun s => s ++ [0]) <$> l))); keep_all
  | |- keeps_bytes (fdt_prop _ _) => apply keeps_prop; keep_all
  | |- keeps_bytes _ => auto
  | |- are_bytes _ => solve [assumption | eauto with fdt nocore]
  end.

Lemma keeps_cpu m i : keeps_bytes (cpu_node m i).
Proof. unfold cpu_node. keep_all. Qed.

Lemma keeps_fb m : keeps_bytes (fb_node m).
Proof.
  unfold fb_node. destruct (fb_dev m) as [fb|]; [|by intros s Hs].
  match goal with |- keeps_bytes (fun s => ?f s) => change (keeps_bytes f) end. keep_all.
Qed.

Lemma keeps_soc m : keeps_bytes (soc_node m).
Proof.
  pose proof (keeps_fb m). unfold soc_node, clint_node, plic_node, virtio_node, uart_node. keep_all.
Qed.

Lemma keeps_root m cmd_line i0 i1 : are_bytes (default [] cmd_line) -> keeps_bytes (root_node m cmd_line i0 i1).
Proof.
  intros Hc. pose proof (keeps_cpu m). pose proof (keeps_soc m).
  assert (keeps_bytes id) by (by intros s Hs).
  unfold root_node, cpus_node, memory_node, chosen_node. destruct (has_initrd i0 i1); keep_all.
Qed.

Lemma fdt_bytes m cmd_line i0 i1 blob :
  are_bytes (default [] cmd_line) -> riscv_build_fdt m None cmd_line i0 i1 = Some blob -> are_bytes blob.
Proof.
  intros Hc Hb. cbn [riscv_build_fdt] in Hb.
  destruct (keeps_root m cmd_line i0 i1 Hc fdt_init) as [Ht Hs]; [by split; constructor|].
  generalize dependent (root_node m cmd_line i0 i1 fdt_init). intros s Hb Ht Hs.
  apply fdt_output_parts in Hb as (_ & k1 & k2 & -> & _). unfold fdt_header.
  repeat apply are_bytes_app; auto using are_bytes_be32, are_bytes_zeros.
Qed.

Lemma fdt_output_total s : open_node_count s = 0 -> is_Some (fdt_output s).
Proof. intros H. unfold fdt_output. rewrite H. by eexists. Qed.

Lemma fdt_built m cmd_line i0 i1 : is_Some (riscv_build_fdt m None cmd_line i0 i1).
Proof.
  destruct (emits_root m cmd_line i0 i1 fdt_init) as (b & x & Ho & _); [by left|].
  rewrite depth_flatten in Ho. by apply fdt_output_total.
Qed.

Lemma fdt_read_back m cmd_line i0 i1 blob :
  riscv_build_fdt m None cmd_line i0 i1 = Some blob -> Z.of_nat (length blob) < 2 ^ 32 ->
  read_fdt blob = Some (machine_tree m cmd_line i0 i1).
Proof.
  intros Hb Hlen. destruct (emits_root m cmd_line i0 i1 fdt_init) as (b & x & Ho & Ht & Hs & _ & He); [by left|].
  cbn [riscv_build_fdt] in Hb. set (s := root_node _ _ _ _ fdt_init) in *. cbn in Ht, Hs.
  destruct (fdt_output_parts s blob Hb) as (_ & k1 & k2 & Hp & Hl & Hm). rewrite <- Ht in He.
  by eapply read_parts.
Qed.

(** C31 The device tree tells the guest about the machine it runs on: the simulator
    always builds a blob (every node it opens is closed), and a reader of the
    devicetree format finds in it exactly the tree with one node per hart with its
    extensions and interrupt controller, the memory with base and size, CLINT, PLIC,
    one node per virtio device with its address and interrupt, the UARTs and the
    framebuffer, the command line, and the initial disk when there is one. *)
Theorem fdt_describes_machine m cmd_line initrd_start initrd_end :
  exists blob, riscv_build_fdt m None cmd_line initrd_start initrd_end = Some blob /\
    (Z.of_nat (length blob) < 2 ^ 32 -> read_fdt blob = Some (machine_tree m cmd_line initrd_start initrd_end)).
Proof.
  destruct (fdt_built m cmd_line initrd_start initrd_end) as [blob Hb]. exists blob. split; [done|].
  by apply fdt_read_back.
Qed.

(** Two harts, a gigabyte and an initial disk. *)
Definition demo_machine : fdt_machine :=
  mkFM [0x8000000000141129; 0x8000000000141129] 0x80000000 0x40000000 0x2000000 0xc0000 0x10000000 0x2000000 2 None.

Lemma fdt_describes_machine_witness :
  exists blob,
    riscv_build_fdt demo_machine None (Some (str "console=ttyS0")) 0xbff00000 0xc0000000 = Some blob /\
    length blob = 2216%nat /\
    read_fdt blob = Some (machine_tree demo_machine (Some (str "console=ttyS0")) 0xbff00000 0xc0000000).
Proof.
  destruct (fdt_describes_machine demo_machine (Some (str "console=ttyS0")) 0xbff00000 0xc0000000) as (blob & E & H).
  exists blob. assert (length blob = 2216%nat) as Hl.
  { assert (length <$> riscv_build_fdt demo_machine None (Some (str "console=ttyS0")) 0xbff00000 0xc0000000 = Some 2216%nat) as Hc
      by (vm_compute; reflexivity).
    rewrite E in Hc. by apply (inj Some) in Hc. }
  split; [exact E|]. split; [exact Hl|]. apply H. by rewrite Hl.
Defined.

(** A defect: nothing bounds the blob by the space left in the ROM (8 KiB, from
    offset 256), which a command line of that length overflows. *)
Lemma fdt_overflows_rom :
  match riscv_build_fdt demo_machine None (Some (replicate (Z.to_nat 8192) 97)) 0 0 with
  | Some blob => 8192 <? Z.of_nat (length blob)
  | None => false
  end = true.
Proof. vm_compute. reflexivity. Qed.
