(* ===== verification/Elf.v ===== *)
(** * ELF images ([src/elf64.cpp])

    Recognition of RV64 images, and the search for a global symbol.  An image is a
    list of bytes; a read outside it is [None], the undefined behaviour of the
    source, which checks some offsets and not others. *)

From S2P Require Import Prelude Json.

(** ** Fields *)

Fixpoint le_bytes (l : list Z) : Z :=
  match l with [] => 0 | c :: l => c + 2 ^ 8 * le_bytes l end.

(** The [n]-byte field at offset [off]. *)
Definition fld (image : list Z) (off n : Z) : option Z :=
  if (0 <=? off) && (off + n <=? Z.of_nat (length image))
  then Some (le_bytes (take (Z.to_nat n) (drop (Z.to_nat off) image)))
  else None.

Definition ELFMAG : list Z := [0x7f; 0x45; 0x4c; 0x46].
Definition ELFCLASS64 : Z := 2.
Definition ELFDATA2LSB : Z := 1.
Definition EM_RISCV : Z := 243.
Definition PT_LOAD : Z := 1.
Definition SHT_SYMTAB : Z := 2.
Definition SHT_STRTAB : Z := 3.
Definition STB_GLOBAL : Z := 1.

(** [sizeof] of the structures of [elf.h]. *)
Definition sizeof_Ehdr : Z := 64.
Definition sizeof_Phdr : Z := 56.
Definition sizeof_Shdr : Z := 64.
Definition sizeof_Sym : Z := 24.

Definition e_machine image := fld image 18 2.
Definition e_entry image := fld image 24 8.
Definition e_phoff image := fld image 32 8.
Definition e_shoff image := fld image 40 8.
Definition e_ehsize image := fld image 52 2.
Definition e_phentsize image := fld image 54 2.
Definition e_phnum image := fld image 56 2.
Definition e_shnum image := fld image 60 2.
Definition e_shstrndx image := fld image 62 2.

(** ** Recognition *)

Definition elf64_is_riscv64 (image : list Z) : bool :=
  if Z.of_nat (length image) <? sizeof_Ehdr then false
  else if decide (take 4 image <> ELFMAG) then false
  else if decide (fld image 4 1 <> Some ELFCLASS64) then false
  else if decide (fld image 5 1 <> Some ELFDATA2LSB) then false
  else if decide (e_machine image <> Some EM_RISCV) then false
  else if decide (e_ehsize image <> Some sizeof_Ehdr) then false
  else if decide (e_phentsize image <> Some sizeof_Phdr) then false
  else true.

Definition elf64_get_entrypoint (image : list Z) : option Z := e_entry image.

(** ** Symbols *)

(** The C string at offset [off]: it has to end inside the image. *)
Definition cstr_at (image : list Z) (off : Z) : option text :=
  let l := drop (Z.to_nat off) image in
  if (0 <=? off) && existsb (Z.eqb 0) l then Some (cstr l) else None.

(** The loop over the section headers: the offsets of the string table and of the
    symbol table with its length, the last of each kind. *)
Fixpoint section_loop (image : list Z) (shoff shstrndx : Z) (n : nat) (i : Z) (tabs : option Z * option (Z * Z))
  : option (option Z * option (Z * Z)) :=
  match n with
  | O => Some tabs
  | S n =>
      let sh := shoff + sizeof_Shdr * i in
      sh_type ← fld image (sh + 4) 4;
      sh_offset ← fld image (sh + 24) 8;
      sh_size ← fld image (sh + 32) 8;
      let '(strtab, symtab) := tabs in
      let strtab := if (sh_type =? SHT_STRTAB) && negb (i =? shstrndx) then Some sh_offset else strtab in
      let symtab := if sh_type =? SHT_SYMTAB then Some (sh_offset, i32 (sh_size / sizeof_Sym)) else symtab in
      section_loop image shoff shstrndx n (i + 1) (strtab, symtab)
  end.

(** The loop over the symbols; the inner option is the value found. *)
Fixpoint symbol_loop (image : list Z) (symtab strtab : Z) (key : text) (n : nat) (i : Z) : option (option Z) :=
  match n with
  | O => Some None
  | S n =>
      let sym := symtab + sizeof_Sym * i in
      st_name ← fld image sym 4;
      st_info ← fld image (sym + 4) 1;
      st_value ← fld image (sym + 8) 8;
      name ← cstr_at image (strtab + st_name);
      if decide (key = name) then
        if (st_info >> 4) =? STB_GLOBAL then Some (Some st_value) else symbol_loop image symtab strtab key n (i + 1)
      else symbol_loop image symtab strtab key n (i + 1)
  end.

(** [Some None] when there is no such symbol or a check fails.  The first check is
    made in 64 bits; the others compare pointers. *)
Definition elf64_find_global (image : list Z) (key : text) : option (option Z) :=
  let size := Z.of_nat (length image) in
  shoff ← e_shoff image;
  shstrndx ← e_shstrndx image;
  shnum ← e_shnum image;
  if size <? u64 (shoff + sizeof_Shdr - 1) then Some None
  else if size <? shoff + sizeof_Shdr * (shstrndx + 1) then Some None
  else if size <? shoff + sizeof_Shdr * shnum then Some None
  else
    tabs ← section_loop image shoff shstrndx (Z.to_nat shnum) 0 (None, None);
    match tabs with
    | (Some strtab, Some (symtab, symtab_len)) =>
        if size <? symtab + sizeof_Sym * symtab_len then Some None
        else symbol_loop image symtab strtab key (Z.to_nat symtab_len) 0
    | _ => Some None
    end.
