(* ===== verification/Loader.v ===== *)
(** * Loading a machine ([src/riscv_machine.cpp])

    What the simulator does to memory before the first instruction: the firmware
    (raw, ELF or hex), kernel, initial disk, boot ROM and device tree
    ([copy_kernel]), and the memory map of a machine ([virt_machine_init]).

    [option] is what crashes: a failed [assert], a copy to [NULL], a read outside an
    image.  A call that reports an error returns it on the left of a sum. *)

From S2P Require Import Prelude Iomem Cpu Virtio Platform Bootrom Json Config Fdt Elf.
From Stdlib Require String.
Import String.StringSyntax.

Definition KERNEL_OFFSET : Z := 0x200000.

(** The members of [RISCVMachine] that loading uses.  [next_host] is where the next
    [mallocz] of RAM goes. *)
Record boot_machine := mkBoot {
  b_mem_map : PhysMemoryMap;
  b_host : hostmem;
  next_host : Z;
  b_harts : list RISCVCPUState;
  b_ram_base_addr : Z;
  b_ram_size : Z;
  b_clint_base_addr : Z;
  b_clint_size : Z;
  b_plic_base_addr : Z;
  b_plic_size : Z;
  b_virtio_count : nat;
  b_fb_dev : option FBDevice;
  b_bootrom_loaded : bool;
  b_compact_bootrom : bool;
  b_initrd_start : Z;
  b_htif_tohost_addr : Z;
}.

Definition boot_eta (s : boot_machine) : boot_machine :=
  mkBoot (b_mem_map s) (b_host s) (next_host s) (b_harts s) (b_ram_base_addr s) (b_ram_size s)
    (b_clint_base_addr s) (b_clint_size s) (b_plic_base_addr s) (b_plic_size s) (b_virtio_count s)
    (b_fb_dev s) (b_bootrom_loaded s) (b_compact_bootrom s) (b_initrd_start s) (b_htif_tohost_addr s).

#[export] Instance upd_b_mem_map : Setter b_mem_map := ltac:(setter_of boot_eta).
#[export] Instance upd_b_host : Setter b_host := ltac:(setter_of boot_eta).
#[export] Instance upd_next_host : Setter next_host := ltac:(setter_of boot_eta).
#[export] Instance upd_b_harts : Setter b_harts := ltac:(setter_of boot_eta).
#[export] Instance upd_b_bootrom_loaded : Setter b_bootrom_loaded := ltac:(setter_of boot_eta).
#[export] Instance upd_b_initrd_start : Setter b_initrd_start := ltac:(setter_of boot_eta).
#[export] Instance upd_b_virtio_count : Setter b_virtio_count := ltac:(setter_of boot_eta).

(** ** Memory *)

(** [get_ram_ptr]. *)
Definition ram_ptr (s : boot_machine) (paddr : Z) : option Z :=
  match get_phys_mem_range (b_mem_map s) paddr with
  | Some (_, pr) => if is_ram pr then Some (phys_mem pr + (paddr - pr_addr pr)) else None
  | None => None
  end.

(** [memcpy(get_ram_ptr(s, paddr), bs, len)]. *)
Definition copy_to_ram (s : boot_machine) (paddr : Z) (bs : list Z) : option boot_machine :=
  p ← ram_ptr s paddr;
  Some (s <| b_host ::= fun h => write_bytes h p bs |>).

Definition cpu_register_ram (s : boot_machine) (addr size : Z) : option boot_machine :=
  '(map, _) ← default_register_ram (b_mem_map s) addr size 0 (next_host s);
  Some (s <| b_mem_map := map |> <| next_host ::= fun p => p + size |>).

Definition register_device (s : boot_machine) (addr size handle flags : Z) : option boot_machine :=
  '(map, _) ← cpu_register_device (b_mem_map s) addr size handle flags;
  Some (s <| b_mem_map := map |>).

(** ** Images *)

(** A size rounded up to pages. *)
Definition page_round (n : Z) : Z := u64 (n + DEVRAM_PAGE_SIZE - 1) .&~ (DEVRAM_PAGE_SIZE - 1).

(** One program header at offset [ph]. *)
Definition load_segment (s : boot_machine) (image : list Z) (ph : Z) : option boot_machine :=
  p_type ← fld image ph 4;
  if p_type =? PT_LOAD then
    p_offset ← fld image (ph + 8) 8;
    p_vaddr ← fld image (ph + 16) 8;
    p_filesz ← fld image (ph + 32) 8;
    p_memsz ← fld image (ph + 40) 8;
    s ← (if p_vaddr =? BOOT_BASE_ADDR then Some (s <| b_bootrom_loaded := true |>)
         else if p_vaddr =? b_ram_base_addr s then Some s
         else cpu_register_ram s p_vaddr (page_round p_memsz));
    if p_offset + p_filesz <=? Z.of_nat (length image)
    then copy_to_ram s p_vaddr (peek image p_offset p_filesz)
    else None
  else Some s.

Fixpoint load_segments (s : boot_machine) (image : list Z) (ph : Z) (n : nat) : option boot_machine :=
  match n with
  | O => Some s
  | S n => s ← load_segment s image ph; load_segments s image (ph + sizeof_Phdr) n
  end.

Definition load_elf_image (s : boot_machine) (image : list Z) : option boot_machine :=
  phoff ← e_phoff image;
  phnum ← e_phnum image;
  load_segments s image phoff (Z.to_nat phnum).

(** [%lx] of [sscanf]: leading white space, a sign, a prefix, digits; the value in 64
    bits and the rest, [None] if there is no digit. *)
Definition scan_hex (p : text) : option (Z * text) :=
  let q := drop_spaces p in
  let neg := ch q =? 45 in
  let q := if (ch q =? 45) || (ch q =? 43) then tl q else q in
  let q := if (ch q =? 48) && ((ch (tl q) =? 120) || (ch (tl q) =? 88)) && (digit_val (ch (tl (tl q))) <? 16)
           then tl (tl q) else q in
  if digit_val (ch q) <? 16 then
    let '(v, q) := digits 16 0 q in
    let v := Z.min (2 ^ 64 - 1) v in
    Some (u64 (if neg then - v else v), q)
  else None.

(** The line up to the newline, and what follows it. *)
Fixpoint split_line (p : text) : text * option text :=
  match p with
  | [] => ([], None)
  | c :: p => if c =? 10 then ([], Some p) else let '(l, r) := split_line p in (c :: l, r)
  end.

(** One line, [address word]; the program exits if the address is not in RAM. *)
Fixpoint hex_loop (fuel : nat) (s : boot_machine) (p : text) : option boot_machine :=
  match fuel with
  | O => Some s
  | S fuel =>
      let p := if (ch p =? 48) && (ch (tl p) =? 120) then tl (tl p) else p in
      let '(line, rest) := split_line p in
      match scan_hex line with
      | None => Some s
      | Some (offset, l) =>
          match scan_hex l with
          | None => Some s
          | Some (data, _) =>
              s ← copy_to_ram s offset [u8 data; u8 (data >> 8); u8 (data >> 16); u8 (data >> 24)];
              match rest with None => Some s | Some p => hex_loop fuel s p end
          end
      end
  end.

Definition load_hex_image (s : boot_machine) (image : text) : option boot_machine :=
  hex_loop (S (length image)) s (cstr image).

(** ** The boot ROM *)

Definition le32 (v : Z) : list Z := [u8 v; u8 (v >> 8); u8 (v >> 16); u8 (v >> 24)].

(** The boot code for a RAM base of 0x80000000, 0x8000000000 or 0xC000000000. *)
Definition bootrom_code (ncpus : nat) (base : Z) : list Z :=
  [0xf1402573] ++
  (if (ncpus =? 1)%nat then [0x00050663; 0x10500073; 0xffdff06f] else [0x00000013; 0x00000013; 0x00000013]) ++
  [0x00000597; 0x0f058593; 0x60300413; 0x7b041073] ++
  (if base =? 0xC000000000 then [0x0030041b; 0x02641413]
   else [0x0010041b; if base =? 0x80000000 then 0x01f41413 else 0x02741413]) ++
  [0x7b141073; 0x7b200073].

Inductive boot_err :=
  | Firmware_too_big | Wrong_entry_point | Kernel_offset_outside_ram | Kernel_too_big | Initrd_too_big
  | Bootrom_missing | Unsupported_base_address | Fdt_failed | Too_many_cpus | Unsupported_input_device | No_bios.

(** The size in bytes is 13 words. *)
Definition generate_bootrom (s : boot_machine) : option (boot_err + boot_machine) :=
  let base := b_ram_base_addr s in
  if negb (base =? 0x0080000000) && negb (base =? 0x8000000000) && negb (base =? 0xC000000000) then
    Some (inl Unsupported_base_address)
  else
    s ← copy_to_ram s ROM_BASE_ADDR (mjoin (le32 <$> bootrom_code (length (b_harts s)) base));
    Some (inr s).

(** [file] is the contents of the boot ROM file, [None] if it cannot be opened. *)
Definition load_bootrom (s : boot_machine) (file : option (list Z)) : option (boot_err + boot_machine) :=
  match file with
  | None => Some (inl Bootrom_missing)
  | Some bs => s ← copy_to_ram s ROM_BASE_ADDR bs; Some (inr s)
  end.

Definition fdt_of (s : boot_machine) : fdt_machine :=
  {| misa_of := (fun c => u32 (misa c)) <$> b_harts s; m_ram_base_addr := b_ram_base_addr s; m_ram_size := b_ram_size s;
     m_clint_base_addr := b_clint_base_addr s; m_clint_size := b_clint_size s;
     m_plic_base_addr := b_plic_base_addr s; m_plic_size := b_plic_size s;
     Fdt.virtio_count := b_virtio_count s; Fdt.fb_dev := b_fb_dev s |}.

(** ** [copy_kernel] *)

Notation "'let!' x := e 'in' k" :=
  (match e with None => None | Some (inl err) => Some (inl err) | Some (inr x) => k end)
  (at level 10, x strict pattern, e at level 200, k at level 200, only parsing).

Definition load_firmware (s : boot_machine) (fw : list Z) : option (boot_err + boot_machine) :=
  if b_ram_size s <? Z.of_nat (length fw) then Some (inl Firmware_too_big)
  else if elf64_is_riscv64 fw then
    s ← load_elf_image s fw;
    entry ← elf64_get_entrypoint fw;
    if negb (b_bootrom_loaded s) && negb (entry =? b_ram_base_addr s) then Some (inl Wrong_entry_point)
    else s ← load_elf_image s fw; Some (inr s)
  else if (2 <? Z.of_nat (length fw)) && (ch fw =? 48) && (ch fw =? 120) then
    s ← load_hex_image s fw; Some (inr s)
  else s ← copy_to_ram s (b_ram_base_addr s) fw; Some (inr s).

Definition load_kernel (s : boot_machine) (kernel : option (list Z)) : option (boot_err + boot_machine) :=
  match kernel with
  | None | Some [] => Some (inr s)
  | Some bs =>
      if b_ram_size s <=? KERNEL_OFFSET then Some (inl Kernel_offset_outside_ram)
      else if b_ram_size s - KERNEL_OFFSET <? Z.of_nat (length bs) then Some (inl Kernel_too_big)
      else s ← copy_to_ram s (u64 (b_ram_base_addr s + KERNEL_OFFSET)) bs; Some (inr s)
  end.

(** Also [initrd_end]. *)
Definition load_initrd (s : boot_machine) (initrd : option (list Z)) : option (boot_err + boot_machine * Z) :=
  match initrd with
  | None | Some [] => Some (inr (s, 0))
  | Some bs =>
      if b_ram_size s <? Z.of_nat (length bs) then Some (inl Initrd_too_big)
      else
        let initrd_end := u64 (b_ram_base_addr s + b_ram_size s) in
        let start := (u64 (initrd_end - Z.of_nat (length bs)) >> 12) << 12 in
        s ← copy_to_ram (s <| b_initrd_start := start |>) start bs;
        Some (inr (s, initrd_end))
  end.

(** [bootrom] and [dtb] are the files given on the command line, if any, and what
    reading them gives; a device tree that cannot be opened crashes in [fseek]. *)
Definition load_rom (s : boot_machine) (bootrom dtb : option (option (list Z)))
    (cmd_line : option text) (initrd_end : Z) : option (boot_err + boot_machine) :=
  if b_bootrom_loaded s then Some (inr s)
  else
    match bootrom with
    | Some file => load_bootrom s file
    | None =>
        let! s := generate_bootrom s in
        let fdt_off := (BOOT_BASE_ADDR - ROM_BASE_ADDR) + (if b_compact_bootrom s then 13 * 4 else 256) in
        dtb ← (match dtb with None => Some None | Some file => Some <$> file end);
        blob ← riscv_build_fdt (fdt_of s) dtb cmd_line (b_initrd_start s) initrd_end;
        p ← ram_ptr s ROM_BASE_ADDR;
        Some (inr (s <| b_host ::= fun h => write_bytes h (p + fdt_off) blob |>))
    end.

Definition copy_kernel (s : boot_machine) (fw : list Z) (kernel initrd : option (list Z))
    (bootrom dtb : option (option (list Z))) (cmd_line : option text)
  : option (boot_err + boot_machine) :=
  let s := s <| b_initrd_start := 0 |> in
  let! s := load_firmware s fw in
  let! s := load_kernel s kernel in
  let! (s, initrd_end) := load_initrd s initrd in
  let! s := load_rom s bootrom dtb cmd_line initrd_end in
  Some (inr (s <| b_harts ::= fmap (fun c => c <| debug_mode := true |>) |>)).

(** ** The machine *)

Definition UART0_BASE_ADDR : Z := 0x54000000.
Definition UART0_SIZE : Z := 32.
Definition ANY_SIZE : Z := DEVIO_SIZE32 .| DEVIO_SIZE16 .| DEVIO_SIZE8.

(** The handle of virtio device [i]. *)
Definition H_VIRTIO (i : nat) : Z := 6 + Z.of_nat i.

(** [virtio_init] on the memory-mapped bus, for the devices [i] to [i + n - 1]. *)
Fixpoint register_virtio (n i : nat) (s : boot_machine) : option boot_machine :=
  match n with
  | O => Some s
  | S n =>
      s ← register_device s (VIRTIO_BASE_ADDR + Z.of_nat i * VIRTIO_SIZE) VIRTIO_PAGE_SIZE (H_VIRTIO i) ANY_SIZE;
      register_virtio n (S i) (s <| b_virtio_count ::= S |>)
  end.

(** The fixed ranges. *)
Definition register_platform (p : VirtMachineParams) (s : boot_machine) : option boot_machine :=
  s ← cpu_register_ram s (b_ram_base_addr s) (b_ram_size s);
  s ← cpu_register_ram s ROM_BASE_ADDR ROM_SIZE;
  s ← register_device s UART0_BASE_ADDR UART0_SIZE H_UART DEVIO_SIZE32;
  s ← register_device s DW_APB_UART0_BASE_ADDR DW_APB_UART0_SIZE H_DW0 ANY_SIZE;
  s ← register_device s DW_APB_UART1_BASE_ADDR DW_APB_UART1_SIZE H_DW1 ANY_SIZE;
  s ← register_device s (clint_base_addr p) (clint_size p) H_CLINT ANY_SIZE;
  register_device s (plic_base_addr p) (plic_size p) H_PLIC DEVIO_SIZE32.

Definition file_buf (p : VirtMachineParams) (i : nat) : option (list Z) := files p !! i ≫= buf.

Definition init_hart (p : VirtMachineParams) (hartid : nat) : RISCVCPUState :=
  (riscv_cpu_init (reset_vector p) (custom_extension p) (clear_ids p) (Z.of_nat hartid))
    <| Cpu.physical_addr_len := physical_addr_len p |>.

(** The state before anything is registered; [arena] is where host memory is allocated. *)
Definition new_machine (p : VirtMachineParams) (arena : Z) (harts : list RISCVCPUState) : boot_machine :=
  {| b_mem_map := []; b_host := ∅; next_host := arena; b_harts := harts;
     b_ram_base_addr := ram_base_addr p; b_ram_size := ram_size p;
     b_clint_base_addr := clint_base_addr p; b_clint_size := clint_size p;
     b_plic_base_addr := plic_base_addr p; b_plic_size := plic_size p;
     b_virtio_count := 0; b_fb_dev := None; b_bootrom_loaded := false;
     b_compact_bootrom := compact_bootrom p; b_initrd_start := 0; b_htif_tohost_addr := htif_base_addr p |}.

Section init.
  Context (read_file : text -> option (list Z)) (arena : Z).

Definition load_images (p : VirtMachineParams) (s : boot_machine) : option (boot_err + boot_machine) :=
  match file_buf p VM_FILE_BIOS with
  | None => Some (inl No_bios)
  | Some fw =>
      copy_kernel s fw (file_buf p VM_FILE_KERNEL) (file_buf p VM_FILE_INITRD)
        (read_file <$> bootrom_name p) (read_file <$> dtb_name p) (cmdline p)
  end.

(** Network, disks and shared directories, then keyboard and tablet. *)
Definition init_virtio (p : VirtMachineParams) (s : boot_machine) : option (boot_err + boot_machine) :=
  s ← register_virtio (eth_count p + drive_count p + fs_count p) 0 s;
  match input_device p with
  | None => Some (inr s)
  | Some d =>
      if decide (d = str "virtio") then
        s ← register_virtio 2 (b_virtio_count s) s; Some (inr s)
      else Some (inl Unsupported_input_device)
  end.

Definition virt_machine_init (p : VirtMachineParams) : option (boot_err + boot_machine) :=
  let ncpus := i32 (ncpus p) in
  if MAX_CPUS <? ncpus then Some (inl Too_many_cpus)
  else
    s ← register_platform p (new_machine p arena (init_hart p <$> seq 0 (Z.to_nat ncpus)));
    let! s := init_virtio p s in
    load_images p s.

(** [virt_machine_load], without the dumps of memory: the images once more. *)
Definition virt_machine_load (p : VirtMachineParams) (s : boot_machine) : option (boot_err + boot_machine) :=
  load_images p s.

End init.
