(* ===== verification/BootLayout.v ===== *)
(** * What a machine finds in memory

    [copy_kernel] puts firmware, kernel, initial disk, boot code and device tree at
    their places ([copied]), and the machine that [virt_machine_init] builds has
    the address map for it ([machine_boot_layout]). *)

From S2P Require Import Prelude Iomem Cpu Virtio UsedRing Scatter Platform Bootrom Json Config Fdt FdtTree Elf Loader.
From Stdlib Require String.
Import String.StringSyntax.

(** ** Bytes in memory *)

Lemma write_bytes_at h p bs (i : nat) x :
  bs !! i = Some x -> byte_at (write_bytes h p bs) (p + Z.of_nat i) = u8 x.
Proof.
  intros Hi. rewrite write_bytes_scatter. pose proof (lookup_lt_Some _ _ _ Hi).
  apply (scatter_bytes _ _ _ i); [apply NoDup_seqZ| |done]. apply lookup_seqZ. lia.
Qed.

Lemma write_bytes_out h p bs q :
  q < p \/ p + Z.of_nat (length bs) <= q -> byte_at (write_bytes h p bs) q = byte_at h q.
Proof. intros Hq. rewrite write_bytes_scatter. apply scatter_other. rewrite elem_of_seqZ. lia. Qed.

(** Host memory holds [bs] at [p]. *)
Definition held (h : hostmem) (p : Z) (bs : list Z) : Prop :=
  forall (i : nat) x, bs !! i = Some x -> byte_at h (p + Z.of_nat i) = x.

Lemma held_write h p bs : are_bytes bs -> held (write_bytes h p bs) p bs.
Proof.
  intros Hb i x Hi. rewrite (write_bytes_at _ _ _ _ x) by done. apply trunc_small. by eapply Forall_lookup_1.
Qed.

Lemma held_other h p bs q cs :
  p + Z.of_nat (length bs) <= q \/ q + Z.of_nat (length cs) <= p -> held h q cs -> held (write_bytes h p bs) q cs.
Proof.
  intros Hd Hh i x Hi. pose proof (lookup_lt_Some _ _ _ Hi). rewrite write_bytes_out by lia. by apply Hh.
Qed.

(** Guest memory at [a] holds [bs]. *)
Definition guest_has (s : boot_machine) (a : Z) (bs : list Z) : Prop :=
  forall (i : nat) x, bs !! i = Some x -> exists p, ram_ptr s (a + Z.of_nat i) = Some p /\ byte_at (b_host s) p = x.

(** The guest addresses from [a] on are the host addresses from [p] on. *)
Definition mapped (s : boot_machine) (a n p : Z) : Prop := forall i, 0 <= i < n -> ram_ptr s (a + i) = Some (p + i).

Lemma guest_has_held s a n p off bs :
  mapped s a n p -> 0 <= off -> off + Z.of_nat (length bs) <= n -> held (b_host s) (p + off) bs -> guest_has s (a + off) bs.
Proof.
  intros Hm Ho Hl Hh i x Hi. pose proof (lookup_lt_Some _ _ _ Hi). exists (p + off + Z.of_nat i). split; [|by apply Hh].
  rewrite <- Z.add_assoc, Hm by lia. f_equal. lia.
Qed.

Lemma mapped_start s a n p : mapped s a n p -> 0 < n -> ram_ptr s a = Some p.
Proof. intros Hm Hn. specialize (Hm 0). rewrite !Z.add_0_r in Hm. apply Hm. lia. Qed.

(** Only the memory map matters. *)
Lemma mapped_map s s' a n p : b_mem_map s' = b_mem_map s -> mapped s a n p -> mapped s' a n p.
Proof. intros E Hm i Hi. unfold ram_ptr. rewrite E. by apply Hm. Qed.

(** ** The steps of [copy_kernel] *)

Definition initrd_at (base size len : Z) : Z := ((base + size - len) >> 12) << 12.

Lemma initrd_at_spec base size len :
  base mod 4096 = 0 -> len <= size ->
  base <= initrd_at base size len /\ initrd_at base size len + len <= base + size /\ initrd_at base size len mod 4096 = 0.
Proof.
  intros Hb Hl. unfold initrd_at. rewrite Z.shiftr_div_pow2, Z.shiftl_mul_pow2 by lia. change (2 ^ 12) with 4096.
  pose proof (Z.div_mod (base + size - len) 4096 ltac:(lia)). pose proof (Z.mod_pos_bound (base + size - len) 4096 ltac:(lia)).
  split; [|split; [lia|apply Z.mod_mul; lia]].
  assert (base / 4096 <= (base + size - len) / 4096) by (apply Z.div_le_mono; lia).
  pose proof (Z.div_mod base 4096 ltac:(lia)). lia.
Qed.

(** A machine before its images are loaded: RAM at [pR], the boot ROM at [pO]. *)
Record loadable (s : boot_machine) (pR pO : Z) : Prop := {
  l_ram : mapped s (b_ram_base_addr s) (b_ram_size s) pR;
  l_rom : mapped s ROM_BASE_ADDR ROM_SIZE pO;
  l_disjoint : pR + b_ram_size s <= pO \/ pO + ROM_SIZE <= pR;
  l_base : b_ram_base_addr s = 0x80000000 \/ b_ram_base_addr s = 0x8000000000 \/ b_ram_base_addr s = 0xC000000000;
  l_size : 0 < b_ram_size s < 2 ^ 62;
  l_norom : b_bootrom_loaded s = false;
}.

Section Load.
  Context (s : boot_machine) (pR pO : Z) (Hs : loadable s pR pO).

Lemma base_bounds : 0x80000000 <= b_ram_base_addr s < 2 ^ 40 /\ b_ram_base_addr s mod 4096 = 0.
Proof. destruct (l_base _ _ _ Hs) as [->|[->| ->]]; split; (lia || done). Qed.

Lemma load_firmware_raw fw :
  Z.of_nat (length fw) <= b_ram_size s -> elf64_is_riscv64 fw = false ->
  load_firmware s fw = Some (inr (s <| b_host ::= fun h => write_bytes h pR fw |>)).
Proof.
  intros Hl He. unfold load_firmware. destruct (Z.ltb_spec (b_ram_size s) (Z.of_nat (length fw))); [lia|]. rewrite He.
  assert ((2 <? Z.of_nat (length fw)) && (ch fw =? 48) && (ch fw =? 120) = false) as ->.
  { destruct (Z.eqb_spec (ch fw) 48) as [->|]; cbn; by rewrite ?andb_false_r. }
  unfold copy_to_ram. by rewrite (mapped_start _ _ _ _ (l_ram _ _ _ Hs)) by (apply Hs).
Qed.

Lemma load_kernel_ok kernel :
  Z.of_nat (length (default [] kernel)) <= b_ram_size s - KERNEL_OFFSET \/ default [] kernel = [] ->
  load_kernel s kernel = Some (inr (s <| b_host ::= fun h => write_bytes h (pR + KERNEL_OFFSET) (default [] kernel) |>)).
Proof.
  intros Hl. destruct base_bounds as [Hb _]. pose proof (l_size _ _ _ Hs).
  destruct kernel as [[|x k]|]; [by destruct s| |by destruct s]. cbn [default from_option id] in *.
  destruct Hl as [Hl|]; [|done]. cbn [length] in Hl. unfold load_kernel.
  destruct (Z.leb_spec (b_ram_size s) KERNEL_OFFSET); [lia|].
  destruct (Z.ltb_spec (b_ram_size s - KERNEL_OFFSET) (Z.of_nat (length (x :: k)))); [cbn [length] in *; lia|].
  unfold copy_to_ram. rewrite trunc_small by (unfold fits, KERNEL_OFFSET in *; lia).
  by rewrite (l_ram _ _ _ Hs) by (unfold KERNEL_OFFSET in *; lia).
Qed.

Lemma load_initrd_ok initrd :
  Z.of_nat (length (default [] initrd)) <= b_ram_size s -> b_initrd_start s = 0 ->
  let bs := default [] initrd in
  let start := if decide (bs = []) then 0 else initrd_at (b_ram_base_addr s) (b_ram_size s) (Z.of_nat (length bs)) in
  let iend := if decide (bs = []) then 0 else b_ram_base_addr s + b_ram_size s in
  load_initrd s initrd =
  Some (inr (s <| b_initrd_start := start |> <| b_host ::= fun h => write_bytes h (pR + (start - b_ram_base_addr s)) bs |>, iend)).
Proof.
  intros Hl H0 bs start iend. destruct base_bounds as [Hb Hm]. pose proof (l_size _ _ _ Hs).
  destruct initrd as [[|x k]|]; [by destruct s; cbn in H0; subst| |by destruct s; cbn in H0; subst].
  assert (bs = x :: k) as Ebs by done. clearbody bs. unfold start, iend. subst bs. cbn [default from_option id] in Hl.
  rewrite !decide_False by done. unfold load_initrd.
  destruct (Z.ltb_spec (b_ram_size s) (Z.of_nat (length (x :: k)))); [lia|].
  rewrite !(trunc_small 64) by (unfold fits; rewrite ?trunc_small by (unfold fits; lia); lia).
  fold (initrd_at (b_ram_base_addr s) (b_ram_size s) (Z.of_nat (length (x :: k)))).
  pose proof (initrd_at_spec _ (b_ram_size s) (Z.of_nat (length (x :: k))) Hm Hl) as (Hi1 & Hi2 & _).
  set (a := initrd_at _ _ _) in *. unfold copy_to_ram.
  change (ram_ptr (s <| b_initrd_start := a |>) a) with (ram_ptr s a).
  replace a with (b_ram_base_addr s + (a - b_ram_base_addr s)) at 1 by lia.
  by rewrite (l_ram _ _ _ Hs) by (cbn [length] in *; lia).
Qed.
End Load.

Definition boot_code (s : boot_machine) : list Z :=
  mjoin (le32 <$> bootrom_code (length (b_harts s)) (b_ram_base_addr s)).

Definition fdt_off (s : boot_machine) : Z := if b_compact_bootrom s then 52 else 256.

Lemma length_boot_code s : length (boot_code s) = 48%nat.
Proof.
  unfold boot_code, bootrom_code.
  destruct (length (b_harts s) =? 1)%nat, (b_ram_base_addr s =? 0xC000000000), (b_ram_base_addr s =? 0x80000000); done.
Qed.

Lemma load_rom_ok s pR pO cmd_line iend blob :
  loadable s pR pO -> riscv_build_fdt (fdt_of s) None cmd_line (b_initrd_start s) iend = Some blob ->
  load_rom s None None cmd_line iend =
  Some (inr (s <| b_host ::= fun h => write_bytes (write_bytes h pO (boot_code s)) (pO + fdt_off s) blob |>)).
Proof.
  intros Hs Hb. pose proof (mapped_start _ _ _ _ (l_rom _ _ _ Hs) ltac:(done)) as Hp.
  unfold load_rom, generate_bootrom. rewrite (l_norom _ _ _ Hs).
  assert (negb (b_ram_base_addr s =? 0x0080000000) && negb (b_ram_base_addr s =? 0x8000000000) &&
          negb (b_ram_base_addr s =? 0xC000000000) = false) as ->.
  { destruct (l_base _ _ _ Hs) as [->|[->| ->]]; done. }
  unfold copy_to_ram. rewrite Hp. cbn [mbind option_bind].
  change (fdt_of _) with (fdt_of s). change (b_initrd_start _) with (b_initrd_start s). rewrite Hb. cbn [mbind option_bind].
  change (ram_ptr (upd b_host _ s) ROM_BASE_ADDR) with (ram_ptr s ROM_BASE_ADDR). by rewrite Hp.
Qed.

Lemma loadable_host s pR pO f : loadable s pR pO -> loadable (s <| b_host ::= f |>) pR pO.
Proof. by intros []. Qed.

Lemma loadable_initrd s pR pO v : loadable s pR pO -> loadable (s <| b_initrd_start := v |>) pR pO.
Proof. by intros []. Qed.

(** The images, with what has to hold of their sizes: the raw firmware ends before
    the kernel, the kernel before the initial disk. *)
Record images_fit (base size : Z) (fw kernel initrd : list Z) : Prop := {
  f_fw : Z.of_nat (length fw) <= size;
  f_raw : elf64_is_riscv64 fw = false;
  f_kernel : kernel <> [] -> Z.of_nat (length fw) <= KERNEL_OFFSET /\ KERNEL_OFFSET + Z.of_nat (length kernel) <= size;
  f_initrd : Z.of_nat (length initrd) <= size;
  f_free : initrd <> [] -> let a := initrd_at base size (Z.of_nat (length initrd)) in
    base + Z.of_nat (length fw) <= a /\ (kernel <> [] -> base + KERNEL_OFFSET + Z.of_nat (length kernel) <= a);
  f_bytes : are_bytes fw /\ are_bytes kernel /\ are_bytes initrd;
}.

(** Where the initial disk is, and its end: 0 if there is none. *)
Definition initrd_place (base size : Z) (initrd : list Z) : Z * Z :=
  if decide (initrd = []) then (0, 0) else (initrd_at base size (Z.of_nat (length initrd)), base + size).

(** What the guest finds. *)
Record booted (s : boot_machine) (fw kernel initrd blob : list Z) : Prop := {
  g_fw : guest_has s (b_ram_base_addr s) fw;
  g_kernel : guest_has s (b_ram_base_addr s + KERNEL_OFFSET) kernel;
  g_initrd : guest_has s (b_initrd_start s) initrd;
  g_initrd_page : b_initrd_start s mod 4096 = 0;
  g_code : guest_has s BOOT_BASE_ADDR (boot_code s);
  g_fdt : guest_has s (BOOT_BASE_ADDR + fdt_off s) blob;
  g_debug : Forall (fun c => debug_mode c = true) (b_harts s);
}.

(** The host memory after the five copies. *)
Lemma five_copies h pR pO size off_k fw kernel off_i initrd code off blob :
  are_bytes fw -> are_bytes kernel -> are_bytes initrd -> are_bytes code -> are_bytes blob ->
  pR + size <= pO \/ pO + ROM_SIZE <= pR ->
  Z.of_nat (length fw) <= size ->
  (kernel <> [] -> Z.of_nat (length fw) <= off_k /\ off_k + Z.of_nat (length kernel) <= size) -> 0 <= off_k ->
  (initrd <> [] -> 0 <= off_i /\ off_i + Z.of_nat (length initrd) <= size /\ Z.of_nat (length fw) <= off_i /\
     (kernel <> [] -> off_k + Z.of_nat (length kernel) <= off_i)) ->
  Z.of_nat (length code) <= off -> 0 <= off -> off + Z.of_nat (length blob) <= ROM_SIZE ->
  let h' := write_bytes (write_bytes (write_bytes (write_bytes (write_bytes h pR fw) (pR + off_k) kernel)
                                       (pR + off_i) initrd) pO code) (pO + off) blob in
  held h' pR fw /\ held h' (pR + off_k) kernel /\ held h' (pR + off_i) initrd /\ held h' pO code /\ held h' (pO + off) blob.
Proof.
  intros Bf Bk Bi Bc Bb Hd Hf Hk Hk0 Hi Hc Ho Hbl h'.
  assert (forall q cs hh, pR <= q -> q + Z.of_nat (length cs) <= pR + size -> held hh q cs ->
            held (write_bytes (write_bytes hh pO code) (pO + off) blob) q cs) as Hrom.
  { intros q cs hh H1 H2 Hh. apply held_other; [lia|]. apply held_other; [lia|done]. }
  assert (forall hh p, held hh p []) as Hnil by (intros hh p i x Hx; done).
  repeat split.
  - apply Hrom; [lia..|]. destruct (decide (initrd = [])) as [->|Hi']; cbn [write_bytes].
    all: try (specialize (Hi Hi'); apply held_other; [lia|]).
    all: destruct (decide (kernel = [])) as [->|Hk']; cbn [write_bytes]; [by apply held_write|].
    all: specialize (Hk Hk'); apply held_other; [lia|]; by apply held_write.
  - destruct (decide (kernel = [])) as [->|Hk']; [apply Hnil|]. specialize (Hk Hk'). apply Hrom; [lia..|].
    destruct (decide (initrd = [])) as [->|Hi']; cbn [write_bytes]; [by apply held_write|].
    destruct (Hi Hi') as (? & ? & ? & Hki). specialize (Hki Hk'). apply held_other; [lia|]. by apply held_write.
  - destruct (decide (initrd = [])) as [->|Hi']; [apply Hnil|]. specialize (Hi Hi'). apply Hrom; [lia..|]. by apply held_write.
  - apply held_other; [lia|]. by apply held_write.
  - by apply held_write.
Qed.

Lemma are_bytes_le32 l : are_bytes (mjoin (le32 <$> l)).
Proof.
  induction l as [|v l IH]; [constructor|]. apply (are_bytes_app (le32 v)); [|done].
  repeat constructor; apply trunc_fits; lia.
Qed.

(** From the contents of host memory to what the guest sees. *)
Lemma booted_intro s pR pO fw kernel initrd blob :
  mapped s (b_ram_base_addr s) (b_ram_size s) pR -> mapped s ROM_BASE_ADDR ROM_SIZE pO ->
  Z.of_nat (length fw) <= b_ram_size s ->
  (kernel <> [] -> KERNEL_OFFSET + Z.of_nat (length kernel) <= b_ram_size s) ->
  (initrd <> [] -> b_ram_base_addr s <= b_initrd_start s /\
     b_initrd_start s + Z.of_nat (length initrd) <= b_ram_base_addr s + b_ram_size s) ->
  b_initrd_start s mod 4096 = 0 -> fdt_off s + Z.of_nat (length blob) <= ROM_SIZE ->
  Forall (fun c => debug_mode c = true) (b_harts s) ->
  held (b_host s) pR fw /\ held (b_host s) (pR + KERNEL_OFFSET) kernel /\
  held (b_host s) (pR + (b_initrd_start s - b_ram_base_addr s)) initrd /\
  held (b_host s) pO (boot_code s) /\ held (b_host s) (pO + fdt_off s) blob ->
  booted s fw kernel initrd blob.
Proof.
  intros Hr Ho Hf Hk Hi Hp Hb Hd (A1 & A2 & A3 & A4 & A5).
  assert (forall a, guest_has s a []) as Hnil by (intros a i x Hx; done).
  assert (0 <= fdt_off s) by (unfold fdt_off; destruct (b_compact_bootrom s); lia).
  constructor; try done.
  - rewrite <- (Z.add_0_r (b_ram_base_addr s)). eapply guest_has_held; [exact Hr|lia|lia|by rewrite Z.add_0_r].
  - destruct (decide (kernel = [])) as [->|Hk']; [apply Hnil|]. specialize (Hk Hk').
    eapply guest_has_held; [exact Hr|unfold KERNEL_OFFSET; lia|lia|done].
  - destruct (decide (initrd = [])) as [->|Hi']; [apply Hnil|]. destruct (Hi Hi').
    replace (b_initrd_start s) with (b_ram_base_addr s + (b_initrd_start s - b_ram_base_addr s)) by lia.
    eapply guest_has_held; [exact Hr|lia|lia|done].
  - change BOOT_BASE_ADDR with (ROM_BASE_ADDR + 0). eapply guest_has_held; [exact Ho|lia| |by rewrite Z.add_0_r].
    rewrite length_boot_code. unfold ROM_SIZE. lia.
  - change BOOT_BASE_ADDR with ROM_BASE_ADDR. eapply guest_has_held; [exact Ho|lia|lia|done].
Qed.

(** The machine after the copies. *)
Definition loaded_machine (s : boot_machine) (pR pO : Z) (fw kernel initrd : list Z) (start : Z) (blob : list Z) : boot_machine :=
  s <| b_initrd_start := start |>
    <| b_host ::= fun h =>
         write_bytes (write_bytes (write_bytes (write_bytes (write_bytes h pR fw) (pR + KERNEL_OFFSET) kernel)
           (pR + (start - b_ram_base_addr s)) initrd) pO (boot_code s)) (pO + fdt_off s) blob |>
    <| b_harts ::= fmap (fun c => c <| debug_mode := true |>) |>.

Lemma copy_kernel_runs s pR pO fw kernel initrd cmd_line i0 i1 blob :
  loadable s pR pO ->
  images_fit (b_ram_base_addr s) (b_ram_size s) fw (default [] kernel) (default [] initrd) ->
  initrd_place (b_ram_base_addr s) (b_ram_size s) (default [] initrd) = (i0, i1) ->
  riscv_build_fdt (fdt_of s) None cmd_line i0 i1 = Some blob ->
  copy_kernel s fw kernel initrd None None cmd_line =
  Some (inr (loaded_machine s pR pO fw (default [] kernel) (default [] initrd) i0 blob)).
Proof.
  intros Hs Hf Ei Hb. set (ks := default [] kernel) in *. set (ds := default [] initrd) in *. unfold copy_kernel.
  set (s0 := s <| b_initrd_start := 0 |>). assert (loadable s0 pR pO) as H0 by (by apply loadable_initrd).
  rewrite (load_firmware_raw s0 pR pO H0) by apply Hf. set (s1 := upd b_host _ s0).
  assert (loadable s1 pR pO) as H1 by (by apply loadable_host).
  rewrite (load_kernel_ok s1 pR pO H1 kernel); fold ks.
  2:{ destruct (decide (ks = [])) as [|Hk]; [by right|left]. destruct (f_kernel _ _ _ _ _ Hf Hk). cbn. lia. }
  set (s2 := upd b_host _ s1). assert (loadable s2 pR pO) as H2 by (by apply loadable_host).
  rewrite (load_initrd_ok s2 pR pO H2 initrd); [|apply Hf|done]. fold ds.
  change (b_ram_base_addr s2) with (b_ram_base_addr s). change (b_ram_size s2) with (b_ram_size s).
  assert ((if decide (ds = []) then 0 else initrd_at (b_ram_base_addr s) (b_ram_size s) (Z.of_nat (length ds))) = i0 /\
          (if decide (ds = []) then 0 else b_ram_base_addr s + b_ram_size s) = i1) as [-> ->].
  { unfold initrd_place in Ei. destruct (decide (ds = [])); by injection Ei as <- <-. }
  set (s3 := upd b_host _ (upd b_initrd_start _ s2)). assert (loadable s3 pR pO) as H3 by (by apply loadable_host, loadable_initrd).
  by rewrite (load_rom_ok s3 pR pO cmd_line i1 blob H3) by exact Hb.
Qed.

Lemma initrd_place_spec base size initrd i0 i1 :
  base mod 4096 = 0 -> Z.of_nat (length initrd) <= size -> initrd_place base size initrd = (i0, i1) ->
  i0 mod 4096 = 0 /\
  (initrd <> [] -> i0 = initrd_at base size (Z.of_nat (length initrd)) /\ base <= i0 /\
     i0 + Z.of_nat (length initrd) <= base + size).
Proof.
  intros Hb Hl Ei. destruct (initrd_at_spec base size _ Hb Hl) as (I1 & I2 & I3). unfold initrd_place in Ei.
  destruct (decide (initrd = [])); injection Ei as <- <-; [done|]. split; [done|]. intros _. done.
Qed.

(** With a generated boot ROM and device tree, the images are where they belong. *)
Lemma loaded_booted s pR pO fw ks ds cmd_line i0 i1 blob :
  loadable s pR pO -> images_fit (b_ram_base_addr s) (b_ram_size s) fw ks ds -> are_bytes (default [] cmd_line) ->
  initrd_place (b_ram_base_addr s) (b_ram_size s) ds = (i0, i1) ->
  riscv_build_fdt (fdt_of s) None cmd_line i0 i1 = Some blob -> fdt_off s + Z.of_nat (length blob) <= ROM_SIZE ->
  booted (loaded_machine s pR pO fw ks ds i0 blob) fw ks ds blob.
Proof.
  intros Hs Hf Hcmd Ei Hb Hl. set (s' := loaded_machine _ _ _ _ _ _ _ _).
  destruct (base_bounds s pR pO Hs) as [_ Hmod].
  destruct (initrd_place_spec _ _ _ _ _ Hmod (f_initrd _ _ _ _ _ Hf) Ei) as [Hp Hi].
  assert (48 <= fdt_off s) by (unfold fdt_off; destruct (b_compact_bootrom s); lia).
  destruct (f_bytes _ _ _ _ _ Hf) as (B1 & B2 & B3).
  assert (boot_code s' = boot_code s) as E4 by (unfold boot_code; cbn; by rewrite length_fmap).
  eapply (booted_intro s' pR pO); [apply Hs|apply Hs|apply Hf|..]; [|intros Hd; by apply Hi|done|done|..].
  - intros Hk. by destruct (f_kernel _ _ _ _ _ Hf Hk).
  - cbn. apply Forall_fmap, Forall_true. done.
  - rewrite E4. apply (five_copies (b_host s) pR pO (b_ram_size s)); try done; try apply Hf; try apply Hs; try lia.
    + apply are_bytes_le32.
    + by apply (fdt_bytes _ _ _ _ _ Hcmd Hb).
    + intros Hd. destruct (Hi Hd) as (E & I1 & I2). destruct (f_free _ _ _ _ _ Hf Hd) as [F1 F2]. rewrite <- E in F1, F2.
      change (b_initrd_start s') with i0. change (b_ram_base_addr s') with (b_ram_base_addr s).
      split; [lia|]. split; [lia|]. split; [lia|]. intros Hk. specialize (F2 Hk). lia.
    + by rewrite length_boot_code.
    + change (0 <= fdt_off s). lia.
Qed.

(** ** The machine *)

Definition ram_range (a sz host : Z) : PhysMemoryRange := mkRange a sz sz true 0 host false [] 0%nat 0 0.
Definition dev_range (a sz handle flags : Z) : PhysMemoryRange := mkRange a sz sz false 0 0 false [] 0%nat handle flags.

Definition virtio_range (i : nat) : PhysMemoryRange :=
  dev_range (VIRTIO_BASE_ADDR + Z.of_nat i * VIRTIO_SIZE) VIRTIO_PAGE_SIZE (H_VIRTIO i) ANY_SIZE.

(** The ranges of a machine with [n] virtio devices. *)
Definition machine_map (p : VirtMachineParams) (arena : Z) (n : nat) : PhysMemoryMap :=
  [ram_range (ram_base_addr p) (ram_size p) arena; ram_range ROM_BASE_ADDR ROM_SIZE (arena + ram_size p);
   dev_range UART0_BASE_ADDR UART0_SIZE H_UART DEVIO_SIZE32;
   dev_range DW_APB_UART0_BASE_ADDR DW_APB_UART0_SIZE H_DW0 ANY_SIZE;
   dev_range DW_APB_UART1_BASE_ADDR DW_APB_UART1_SIZE H_DW1 ANY_SIZE;
   dev_range (clint_base_addr p) (clint_size p) H_CLINT ANY_SIZE;
   dev_range (plic_base_addr p) (plic_size p) H_PLIC DEVIO_SIZE32] ++ map virtio_range (seq 0 n).

(** The default places of the platform, and RAM of a whole number of pages. *)
Record standard (p : VirtMachineParams) : Prop := {
  s_base : ram_base_addr p = 0x80000000 \/ ram_base_addr p = 0x8000000000 \/ ram_base_addr p = 0xC000000000;
  s_size : 0 < ram_size p < 2 ^ 62;
  s_pages : ram_size p mod 4096 = 0;
  s_clint : clint_base_addr p = CLINT_BASE_ADDR /\ clint_size p = CLINT_SIZE;
  s_plic : plic_base_addr p = PLIC_BASE_ADDR /\ plic_size p = PLIC_SIZE;
  s_ncpus : 0 <= ncpus p <= MAX_CPUS;
  s_input : input_device p = None \/ input_device p = Some (str "virtio");
  s_devices : (eth_count p + drive_count p + fs_count p <= 9)%nat;
}.

Lemma register_ram_page s a sz :
  (length (b_mem_map s) < PHYS_MEM_RANGE_MAX)%nat -> 0 < sz -> sz mod 4096 = 0 ->
  cpu_register_ram s a sz =
  Some (s <| b_mem_map := b_mem_map s ++ [ram_range a sz (next_host s)] |> <| next_host ::= fun p => p + sz |>).
Proof.
  intros Hl Hs Hp. unfold cpu_register_ram, default_register_ram, register_ram_entry.
  rewrite bool_decide_eq_true_2 by done. change (DEVRAM_PAGE_SIZE - 1) with (Z.ones 12). rewrite Z.land_ones by lia.
  change (2 ^ 12) with 4096. rewrite Hp. unfold nz. destruct (Z.eqb_spec sz 0); [lia|]. reflexivity.
Qed.

Lemma register_device_small s a sz handle flags :
  (length (b_mem_map s) < PHYS_MEM_RANGE_MAX)%nat -> sz <= 0xffffffff -> has flags DEVIO_DISABLED = false ->
  register_device s a sz handle flags = Some (s <| b_mem_map := b_mem_map s ++ [dev_range a sz handle flags] |>).
Proof.
  intros Hl Hs Hf. unfold register_device, cpu_register_device. rewrite bool_decide_eq_true_2 by done.
  destruct (Z.leb_spec sz 0xffffffff); [|lia]. cbn [andb]. by rewrite Hf.
Qed.

Lemma register_platform_ok p arena harts :
  standard p ->
  register_platform p (new_machine p arena harts) =
  Some ((new_machine p arena harts) <| b_mem_map := machine_map p arena 0 |> <| next_host := arena + ram_size p + ROM_SIZE |>).
Proof.
  intros Hp. destruct (s_size _ Hp). destruct (s_clint _ Hp) as [Hc1 Hc2], (s_plic _ Hp) as [Hp1 Hp2].
  unfold register_platform.
  rewrite register_ram_page by (first [apply Nat.ltb_lt; reflexivity | apply Hp | done]). cbn [mbind option_bind].
  rewrite register_ram_page by (first [apply Nat.ltb_lt; reflexivity | done]). cbn [mbind option_bind].
  do 4 (rewrite register_device_small by (first [apply Nat.ltb_lt; reflexivity | done | by rewrite Hc2]); cbn [mbind option_bind]).
  rewrite register_device_small by (first [apply Nat.ltb_lt; reflexivity | done | by rewrite Hp2]). reflexivity.
Qed.

Lemma machine_map_snoc p arena n : machine_map p arena n ++ [virtio_range n] = machine_map p arena (S n).
Proof. unfold machine_map. by rewrite <- app_assoc, seq_S, map_app. Qed.

Lemma machine_map_length p arena n : length (machine_map p arena n) = (7 + n)%nat.
Proof. unfold machine_map. rewrite length_app, length_map, length_seq. done. Qed.

Lemma register_virtio_ok p arena k n s :
  b_mem_map s = machine_map p arena n -> b_virtio_count s = n -> (n + k <= 11)%nat ->
  register_virtio k n s = Some (s <| b_mem_map := machine_map p arena (n + k) |> <| b_virtio_count := (n + k)%nat |>).
Proof.
  revert n s. induction k as [|k IH]; intros n s Hm Hc Hk; cbn [register_virtio].
  - rewrite Nat.add_0_r, <- Hm, <- Hc. by destruct s.
  - rewrite register_device_small by (done || (rewrite Hm, machine_map_length; unfold PHYS_MEM_RANGE_MAX; lia)).
    cbn [mbind option_bind]. rewrite (IH (S n)); [|..|lia].
    + replace (n + S k)%nat with (S n + k)%nat by lia. by destruct s.
    + change (b_mem_map s ++ [virtio_range n] = machine_map p arena (S n)). rewrite Hm. apply machine_map_snoc.
    + cbn. by rewrite Hc.
Qed.

Definition virtio_total (p : VirtMachineParams) : nat :=
  eth_count p + drive_count p + fs_count p + match input_device p with Some _ => 2 | None => 0 end.

Lemma init_virtio_ok p arena s :
  standard p -> b_mem_map s = machine_map p arena 0 -> b_virtio_count s = 0%nat ->
  init_virtio p s = Some (inr (s <| b_mem_map := machine_map p arena (virtio_total p) |> <| b_virtio_count := virtio_total p |>)).
Proof.
  intros Hp Hm Hc. pose proof (s_devices _ Hp). unfold init_virtio, virtio_total.
  rewrite (register_virtio_ok p arena _ 0) by (done || lia). cbn [mbind option_bind].
  destruct (s_input _ Hp) as [-> | ->].
  - by rewrite !Nat.add_0_r.
  - rewrite decide_True by done. cbn [b_virtio_count]. rewrite (register_virtio_ok p arena 2 _) by (done || (cbn; lia)). done.
Qed.

(** A range that no later range covers is the one found. *)
Lemma lookup_range m i pr a :
  m !! i = Some pr -> range_has pr a = true -> (forall j q, j <> i -> m !! j = Some q -> range_has q a = false) ->
  get_phys_mem_range m a = Some (i, pr).
Proof.
  intros Hi Hp Ho. destruct (get_phys_mem_range m a) as [[j q]|] eqn:E.
  - apply get_phys_mem_range_in in E as [Hj Hq]. destruct (decide (j = i)) as [->|Hne]; [congruence|].
    by rewrite (Ho j q Hne Hj) in Hq.
  - unfold get_phys_mem_range in E. rewrite get_range_loop_none in E by done. rewrite (E i pr (lookup_lt_Some _ _ _ Hi) Hi) in Hp. done.
Qed.

(** Every range of a standard machine but RAM lies below 0x80000000, and all but the
    boot ROM above 0x100000. *)
Lemma machine_map_other p arena n j q :
  standard p -> (n <= 11)%nat -> (2 <= j)%nat -> machine_map p arena n !! j = Some q ->
  0x100000 <= pr_addr q /\ pr_addr q <= pr_addr q + pr_size q <= 0x80000000.
Proof.
  intros Hp Hn Hj Hq. destruct (s_clint _ Hp) as [Hc1 Hc2], (s_plic _ Hp) as [Hp1 Hp2].
  unfold machine_map in Hq. apply lookup_app_Some in Hq as [Hq|[_ Hq]].
  - do 2 (destruct j as [|j]; [lia|]). do 5 (destruct j as [|j]; [injection Hq as <-; cbn; rewrite ?Hc1, ?Hc2, ?Hp1, ?Hp2;
      repeat split; apply Z.leb_le; reflexivity|]). done.
  - apply list_elem_of_lookup_2, list_elem_of_In, in_map_iff in Hq as (i & <- & Hi). apply in_seq in Hi. cbn.
    unfold VIRTIO_BASE_ADDR, VIRTIO_SIZE, VIRTIO_PAGE_SIZE. lia.
Qed.

Lemma machine_map_ram p arena n s :
  standard p -> (n <= 11)%nat -> b_mem_map s = machine_map p arena n ->
  mapped s (ram_base_addr p) (ram_size p) arena /\ mapped s ROM_BASE_ADDR ROM_SIZE (arena + ram_size p).
Proof.
  intros Hp Hn Hm. pose proof (s_size _ Hp). assert (0x80000000 <= ram_base_addr p < 2 ^ 40) as Hb
    by (destruct (s_base _ Hp) as [->|[->| ->]]; lia).
  assert (forall i pr a, machine_map p arena n !! i = Some pr -> (i < 2)%nat -> range_has pr a = true ->
    (i = 0%nat -> 0x80000000 <= a) -> (i = 1%nat -> a < 0x100000) -> get_phys_mem_range (b_mem_map s) a = Some (i, pr)) as Hl.
  { intros i pr a Hi Hi2 Hpr Ha0 Ha1. rewrite Hm. apply lookup_range; [done..|]. intros j q Hj Hq.
    destruct (range_has q a) eqn:E; [exfalso|done]. destruct (decide (2 <= j)%nat) as [H2|H2].
    - destruct (machine_map_other p arena n j q Hp Hn H2 Hq) as [Q1 Q2].
      apply range_has_iff in E; [|lia..].
      assert (i = 0%nat \/ i = 1%nat) as [Ei|Ei] by lia; [specialize (Ha0 Ei)|specialize (Ha1 Ei)]; lia.
    - destruct j as [|[|j]]; [| |lia]; injection Hq as <-.
      + assert (i = 1%nat) as Ei by lia. specialize (Ha1 Ei). apply range_has_iff in E; cbn in *; lia.
      + assert (i = 0%nat) as Ei by lia. specialize (Ha0 Ei). apply range_has_iff in E; cbn in *; unfold ROM_BASE_ADDR, ROM_SIZE in *; lia. }
  split; intros k Hk; unfold ram_ptr.
  - rewrite (Hl 0%nat (ram_range (ram_base_addr p) (ram_size p) arena)); [cbn; f_equal; lia|done|lia| |lia|lia].
    apply range_has_iff; cbn; lia.
  - rewrite (Hl 1%nat (ram_range ROM_BASE_ADDR ROM_SIZE (arena + ram_size p))); [cbn; f_equal; lia|done|lia| |lia|];
      unfold ROM_BASE_ADDR, ROM_SIZE in *; [|lia]. apply range_has_iff; cbn; lia.
Qed.

(** The harts of a machine, and what its device tree is about. *)
Definition machine_harts (p : VirtMachineParams) : list RISCVCPUState := init_hart p <$> seq 0 (Z.to_nat (ncpus p)).

Definition params_fdt (p : VirtMachineParams) : fdt_machine :=
  {| misa_of := (fun c => u32 (misa c)) <$> machine_harts p; m_ram_base_addr := ram_base_addr p; m_ram_size := ram_size p;
     m_clint_base_addr := clint_base_addr p; m_clint_size := clint_size p;
     m_plic_base_addr := plic_base_addr p; m_plic_size := plic_size p;
     Fdt.virtio_count := virtio_total p; Fdt.fb_dev := None |}.

(** The machine with its ranges registered. *)
Definition bare_machine (p : VirtMachineParams) (arena : Z) : boot_machine :=
  (new_machine p arena (machine_harts p))
    <| b_mem_map := machine_map p arena 0 |> <| next_host := arena + ram_size p + ROM_SIZE |>
    <| b_mem_map := machine_map p arena (virtio_total p) |> <| b_virtio_count := virtio_total p |>.

Lemma virtio_total_le p : standard p -> (virtio_total p <= 11)%nat.
Proof. intros Hp. pose proof (s_devices _ Hp). unfold virtio_total. destruct (input_device p); lia. Qed.

Lemma bare_machine_loadable p arena : standard p -> loadable (bare_machine p arena) arena (arena + ram_size p).
Proof.
  intros Hp. destruct (machine_map_ram p arena (virtio_total p) (bare_machine p arena)) as [Hr Ho];
    [done|by apply virtio_total_le|done|].
  constructor; [exact Hr|exact Ho|left; done|apply Hp|apply Hp|done].
Qed.

Lemma virt_machine_init_bare read_file arena p :
  standard p -> virt_machine_init read_file arena p = load_images read_file p (bare_machine p arena).
Proof.
  intros Hp. pose proof (s_ncpus _ Hp) as Hn. unfold virt_machine_init.
  assert (i32 (ncpus p) = ncpus p) as ->.
  { apply sgn_id; [done|]. unfold MAX_CPUS in Hn. lia. }
  destruct (Z.ltb_spec MAX_CPUS (ncpus p)); [lia|]. fold (machine_harts p).
  rewrite register_platform_ok by done. cbn [mbind option_bind].
  by rewrite (init_virtio_ok p arena) by done.
Qed.

(** A machine whose images fit, with a generated boot ROM and device tree. *)
Record bootable (p : VirtMachineParams) (fw blob : list Z) (i0 i1 : Z) : Prop := {
  b_standard : standard p;
  b_norom : bootrom_name p = None;
  b_nodtb : dtb_name p = None;
  b_bios : file_buf p VM_FILE_BIOS = Some fw;
  b_cmdline : are_bytes (default [] (cmdline p));
  b_images : images_fit (ram_base_addr p) (ram_size p) fw (default [] (file_buf p VM_FILE_KERNEL)) (default [] (file_buf p VM_FILE_INITRD));
  b_initrd : initrd_place (ram_base_addr p) (ram_size p) (default [] (file_buf p VM_FILE_INITRD)) = (i0, i1);
  b_fdt : riscv_build_fdt (params_fdt p) None (cmdline p) i0 i1 = Some blob;
  b_fits : (if compact_bootrom p then 52 else 256) + Z.of_nat (length blob) <= ROM_SIZE;
}.

(** The machine of [virt_machine_init]. *)
Definition built_machine (p : VirtMachineParams) (arena : Z) (fw : list Z) (i0 : Z) (blob : list Z) : boot_machine :=
  loaded_machine (bare_machine p arena) arena (arena + ram_size p) fw (default [] (file_buf p VM_FILE_KERNEL))
    (default [] (file_buf p VM_FILE_INITRD)) i0 blob.

Lemma init_built read_file arena p fw blob i0 i1 :
  bootable p fw blob i0 i1 -> virt_machine_init read_file arena p = Some (inr (built_machine p arena fw i0 blob)).
Proof.
  intros Hp. rewrite virt_machine_init_bare by apply Hp. unfold load_images.
  rewrite (b_bios _ _ _ _ _ Hp), (b_nodtb _ _ _ _ _ Hp), (b_norom _ _ _ _ _ Hp).
  apply (copy_kernel_runs _ _ _ _ _ _ _ i0 i1 blob); [apply bare_machine_loadable|..]; apply Hp.
Qed.

Lemma built_booted arena p fw blob i0 i1 :
  bootable p fw blob i0 i1 ->
  booted (built_machine p arena fw i0 blob) fw (default [] (file_buf p VM_FILE_KERNEL)) (default [] (file_buf p VM_FILE_INITRD)) blob.
Proof.
  intros Hp. eapply loaded_booted; [apply bare_machine_loadable|..]; apply Hp.
Qed.

(** C30 A machine with its devices at their default places, a raw firmware image and a
    generated boot ROM starts with the memory its guest expects, provided the images do
    not overlap and the device tree fits in the boot ROM.  [virt_machine_init] succeeds;
    the address map has RAM, the boot ROM, the devices and one page per virtio device;
    through that map the guest reads the firmware at the base of RAM, the kernel
    [KERNEL_OFFSET] above it, the initial disk on the last page boundary that leaves
    room for it, the boot code at the reset address and after it a blob that a
    devicetree reader turns into the description of this machine and this disk; and
    every hart starts in debug mode, which the boot code leaves with [dret]. *)
Theorem machine_boot_layout read_file arena p fw :
  standard p -> bootrom_name p = None -> dtb_name p = None -> file_buf p VM_FILE_BIOS = Some fw ->
  are_bytes (default [] (cmdline p)) ->
  let kernel := default [] (file_buf p VM_FILE_KERNEL) in
  let initrd := default [] (file_buf p VM_FILE_INITRD) in
  images_fit (ram_base_addr p) (ram_size p) fw kernel initrd ->
  let '(i0, i1) := initrd_place (ram_base_addr p) (ram_size p) initrd in
  exists blob, riscv_build_fdt (params_fdt p) None (cmdline p) i0 i1 = Some blob /\
    ((if compact_bootrom p then 52 else 256) + Z.of_nat (length blob) <= ROM_SIZE ->
     exists s', virt_machine_init read_file arena p = Some (inr s') /\
       b_mem_map s' = machine_map p arena (virtio_total p) /\ b_initrd_start s' = i0 /\
       booted s' fw kernel initrd blob /\ read_fdt blob = Some (machine_tree (params_fdt p) (cmdline p) i0 i1)).
Proof.
  intros Hp Hbr Hdt Hfw Hcmd kernel initrd Hf.
  destruct (initrd_place (ram_base_addr p) (ram_size p) initrd) as [i0 i1] eqn:Ei.
  destruct (fdt_built (params_fdt p) (cmdline p) i0 i1) as [blob Hb]. exists blob. split; [done|]. intros Hl.
  assert (bootable p fw blob i0 i1) as Hbt by done.
  exists (built_machine p arena fw i0 blob). split; [by apply (init_built _ _ _ _ _ _ i1)|]. split; [done|]. split; [done|].
  split; [by apply (built_booted _ _ _ _ _ i1)|].
  apply fdt_read_back; [done|]. unfold ROM_SIZE in Hl. destruct (compact_bootrom p); lia.
Qed.

(** The default machine with 4 MiB, a disk, a firmware of one instruction, a kernel
    and an initial disk. *)
Definition demo_params : VirtMachineParams :=
  virt_machine_set_defaults <| ram_size := 0x400000 |> <| ncpus := 1 |> <| drive_count := 1%nat |>
    <| cmdline := Some (str "root=/dev/vda") |>
    <| files := [mkFile None (Some [0x6f; 0; 0; 0]); no_file; mkFile None (Some [1; 2; 3]); mkFile None (Some [4; 5])] |>.

Lemma demo_standard : standard demo_params.
Proof. constructor; [by left|vm_compute; done|done|done|done|by vm_compute|by left|apply Nat.leb_le; reflexivity]. Qed.

Lemma demo_fit : images_fit (ram_base_addr demo_params) (ram_size demo_params) [0x6f; 0; 0; 0] [1; 2; 3] [4; 5].
Proof.
  constructor; [by vm_compute|done|intros _; split; by vm_compute|by vm_compute| |repeat split; by apply are_bytes_closed].
  intros _. split; [|intros _]; by vm_compute.
Qed.

Lemma machine_boot_layout_witness :
  exists s' blob, virt_machine_init (fun _ => None) 0x10000 demo_params = Some (inr s') /\
    b_initrd_start s' = 0x803ff000 /\ booted s' [0x6f; 0; 0; 0] [1; 2; 3] [4; 5] blob /\
    read_fdt blob = Some (machine_tree (params_fdt demo_params) (cmdline demo_params) 0x803ff000 0x80400000).
Proof.
  pose proof (machine_boot_layout (fun _ => None) 0x10000 demo_params [0x6f; 0; 0; 0]) as H.
  assert (initrd_place (ram_base_addr demo_params) (ram_size demo_params) (default [] (file_buf demo_params VM_FILE_INITRD))
          = (0x803ff000, 0x80400000)) as E by (vm_compute; reflexivity).
  cbv zeta in H. rewrite E in H. destruct H as (blob & Hb & H).
  - exact demo_standard.
  - done.
  - done.
  - done.
  - by apply are_bytes_closed.
  - exact demo_fit.
  - assert (length <$> riscv_build_fdt (params_fdt demo_params) None (cmdline demo_params) 0x803ff000 0x80400000 = Some 1824%nat) as Hl
      by (vm_compute; reflexivity).
    rewrite Hb in Hl. apply (inj Some) in Hl. destruct H as (s' & H1 & _ & H2 & H3 & H4); [by rewrite Hl|].
    exists s', blob. exact (conj H1 (conj H2 (conj H3 H4))).
Defined.
