(* ===== verification/BootRun.v ===== *)
(** * Running the boot code

    The boot ROM that [generate_bootrom] writes, executed by [riscv_cpu_interp64]
    from the reset address: it hands over to the firmware ([machine_boots]). *)

From S2P Require Import Prelude Iomem Cpu Pmp Csr Trap Machine Mmu Insn Interp Encode Compressed Virtio Platform Bootrom Json Config Fdt FdtTree Elf Loader BootLayout.

Section Boot.
Context {D : Type} {dv : Devices D} (m : RISCVMachine D).
Context (Hoff : stf_in_traceable_region m = false).
Context (Hr : hook_csr_read (hooks m) = None) (Hw : hook_csr_write (hooks m) = None).

(** [m] with the running hart replaced. *)
Abbreviation at_ s := (m <| cpu := s |>).

(** The state the boot code works on. *)
Definition view (s : RISCVCPUState) : list Z * Z * Z * Z := (reg s, dcsr s, dpc s, pc s).

(** Hart [h] before it leaves debug mode: no interrupts, no PMP entries. *)
Record quiet (h : Z) (s : RISCVCPUState) : Prop := {
  q_debug : debug_mode s = true;
  q_priv : priv s = PRV_M;
  q_mie : mie s = 0;
  q_misa : has (misa s) MCPUID_C = true;
  q_pmp : pmp_n s = 0%nat;
  q_len : 17 <= Cpu.physical_addr_len s;
  q_hart : mhartid s = h;
}.

(** Instruction [w] takes hart [s] to the view [o], whatever the counters. *)
Definition does (h w : Z) (s : RISCVCPUState) (nx : next) (o : list Z * Z * Z * Z) : Prop :=
  forall icount start, 0 <= i32 (icount - start) ->
  exists s', exec_insn w icount start (at_ s) = (inr nx, at_ s') /\ view s' = o /\ quiet h s' /\
    tlb_code s' = tlb_code s /\ (op_of w = 0x73 -> insn_counter s' = icount).

Lemma does_write h w s r d p a rd v :
  quiet h s -> view s = (r, d, p, a) -> nz rd = true -> op_of w <> 0x73 ->
  (forall icount start, exec_insn w icount start (at_ s) = (write_rd rd v ;;; ret NextInsn) (at_ s)) ->
  does h w s NextInsn (aset r rd (u64 v), d, p, a).
Proof.
  intros Hq Hv Hn Ho He ic st _. injection Hv as <- <- <- <-. rewrite He. unfold bind. rewrite write_rd_off by done.
  exists (put_reg rd v s). by destruct Hq.
Qed.

Lemma does_nop h s v : quiet h s -> view s = v -> does h 0x00000013 s NextInsn v.
Proof.
  intros Hq Hv ic st _. exists s. change 0x00000013 with (enc_i 0x13 0 0 0 0). rewrite addi_eq by done. done.
Qed.

Lemma does_auipc_a1 h s r d p a :
  quiet h s -> view s = (r, d, p, a) -> does h 0x00000597 s NextInsn (aset r 11 (u64 (a + 0)), d, p, a).
Proof.
  intros Hq Hv. apply does_write; [done..|]. intros ic st. replace a with (pc s) by (unfold view in Hv; congruence). change 0x00000597 with (enc_u 0x17 11 0). by rewrite auipc_eq by done.
Qed.

Lemma does_addi h s r d p a w rd rs imm :
  quiet h s -> view s = (r, d, p, a) -> w = enc_i 0x13 rd 0 rs imm -> fits 5 rd -> fits 5 rs -> nz rd = true -> op_of w <> 0x73 ->
  does h w s NextInsn (aset r rd (u64 (aget 0 r rs + sgn 12 imm)), d, p, a).
Proof. intros Hq Hv -> Hd Hs Hn Ho. apply does_write; [done..|]. intros ic st. replace r with (reg s) by (unfold view in Hv; congruence). by rewrite addi_eq by done. Qed.

Lemma does_addiw h s r d p a w rd rs imm :
  quiet h s -> view s = (r, d, p, a) -> w = enc_i 0x1b rd 0 rs imm -> fits 5 rd -> fits 5 rs -> nz rd = true -> op_of w <> 0x73 ->
  does h w s NextInsn (aset r rd (u64 (i32 (aget 0 r rs + sgn 12 imm))), d, p, a).
Proof. intros Hq Hv -> Hd Hs Hn Ho. apply does_write; [done..|]. intros ic st. replace r with (reg s) by (unfold view in Hv; congruence). by rewrite addiw_eq by done. Qed.

Lemma does_slli h s r d p a w rd rs sh :
  quiet h s -> view s = (r, d, p, a) -> w = enc_i 0x13 rd 1 rs sh -> fits 5 rd -> fits 5 rs -> fits 6 sh -> nz rd = true -> op_of w <> 0x73 ->
  does h w s NextInsn (aset r rd (u64 (aget 0 r rs << sh)), d, p, a).
Proof. intros Hq Hv -> Hd Hs Hh Hn Ho. apply does_write; [done..|]. intros ic st. replace r with (reg s) by (unfold view in Hv; congruence). by rewrite slli_eq by done. Qed.

(** [beqz a0, 1f]. *)
Lemma does_beqz h s r d p a :
  quiet h s -> view s = (r, d, p, a) -> aget 0 r 10 = aget 0 r 0 -> does h 0x00050663 s JumpInsn (r, d, p, u64 (a + 12)).
Proof.
  intros Hq Hv E ic st _. injection Hv as <- <- <- <-. eexists. change 0x00050663 with (enc_b 0x63 (b2z false) 10 0 12).
  rewrite branch_eq by (done || apply Hq). cbn [upd upd_cpu cpu]. rewrite E, Z.eqb_refl. cbn [xorb].
  split; [reflexivity|]. by destruct Hq.
Qed.

(** The counters before a CSR access. *)
Lemma count_insns_quiet h ic st s :
  quiet h s -> 0 <= i32 (ic - st) ->
  exists s', count_insns ic st (at_ s) = (inr tt, at_ s') /\ view s' = view s /\ quiet h s' /\
    tlb_code s' = tlb_code s /\ insn_counter s' = ic.
Proof.
  intros Hq Hd. unfold count_insns, bind, mods, gets. cbn [upd upd_cpu cpu].
  destruct (stop_the_counter _); [eexists; split; [reflexivity|]; by destruct Hq|].
  destruct (Z.ltb_spec (i32 (ic - st)) 0); [lia|]. eexists. split; [reflexivity|]. by destruct Hq.
Qed.

(** [csrr a0, mhartid]. *)
Lemma does_csrr_mhartid h s r d p a :
  quiet h s -> view s = (r, d, p, a) -> does h 0xf1402573 s NextInsn (aset r 10 (u64 (u64 h)), d, p, a).
Proof.
  intros Hq Hv0 ic st Hd. injection Hv0 as <- <- <- <-. rewrite (exec_insn_op _ _ 0xf1402573 0x73) by reflexivity. cbn [Z.eqb Pos.eqb].
  change (exec_system 0xf1402573 ic st) with (exec_csrrs (D := D) 0xf1402573 2 ic st).
  unfold exec_csrrs. unfold bind at 1, csr_operand. change (has (funct3_of 0xf1402573) 4) with false. cbv iota.
  rewrite read_reg_off by done. unfold bind at 1. destruct (count_insns_quiet h ic st s Hq Hd) as (s1 & -> & Hv & Hq1 & Ht & Hi).
  unfold bind at 1, do_csr_read. change (nz (rs1_of 0xf1402573)) with false.
  unfold csr_read. cbn [upd upd_cpu cpu hooks]. rewrite (q_priv _ _ Hq1), Hr.
  change (csr_read_switch s1 (0xf1402573 >> 20)) with (Some (mhartid s1)).
  rewrite andb_false_r. change (PRV_M <? _) with false. cbv iota beta. unfold bind, ret at 1. rewrite write_rd_off by done. eexists. split; [reflexivity|].
  unfold view in *. injection Hv as E1 E2 E3 E4. cbn. rewrite E1, E2, E3, E4, (q_hart _ _ Hq1). split; [done|].
  split; [by destruct Hq1|done].
Qed.

(** [csrw csr, s0] on a debug register. *)
Lemma csrw_s0 h s w csr icount start :
  quiet h s -> 0 <= i32 (icount - start) ->
  op_of w = 0x73 -> funct3_of w = 1 -> rd_of w = 0 -> rs1_of w = 8 -> w >> 20 = csr ->
  (csr .& 0xc00 =? 0xc00) = false -> (csr >> 8) .& 3 = 3 ->
  exists s1, view s1 = view s /\ quiet h s1 /\ tlb_code s1 = tlb_code s /\ insn_counter s1 = icount /\
    forall x s2, csr_read_switch s1 csr = Some x -> csr_write_switch s1 csr (aget 0 (reg s) 8) = (CsrOk, s2) ->
      exec_insn w icount start (at_ s) = (inr NextInsn, at_ s2).
Proof.
  intros Hq Hd Ho Hf Hrd Hrs Hc H1 H2. destruct (count_insns_quiet h icount start s Hq Hd) as (s1 & Ec & Hv & Hq1 & Ht & Hi).
  exists s1. split_and!; [done..|]. intros x s2 Hx Hs. rewrite (exec_insn_op _ _ w 0x73) by done. cbn [Z.eqb Pos.eqb].
  unfold exec_system. rewrite Hf. change (1 .& 3) with 1. cbn [Z.eqb Pos.eqb].
  unfold exec_csrrw, csr_operand. rewrite Hf, Hrs, Hrd, Hc. change (has 1 4) with false. cbv iota.
  unfold bind at 1. rewrite read_reg_off by done. cbn [upd upd_cpu cpu]. unfold bind at 1. rewrite Ec.
  unfold bind at 1, do_csr_read, csr_read. cbn [upd upd_cpu cpu hooks]. rewrite H1, H2, (q_priv _ _ Hq1), Hr, Hx.
  change (PRV_M <? 3) with false. cbn [andb]. cbv iota.
  unfold bind at 1, do_csr_write, csr_write. cbn [upd upd_cpu cpu hooks]. rewrite Hw, Hs. done.
Qed.

Lemma does_csrw_dcsr h s r d p a :
  quiet h s -> view s = (r, d, p, a) -> does h 0x7b041073 s NextInsn (r, merge d (aget 0 r 8) 0x603, p, a).
Proof.
  intros Hq Hv0 ic st Hd. injection Hv0 as <- <- <- <-. destruct (csrw_s0 h s 0x7b041073 0x7b0 ic st Hq Hd) as (s1 & Hv & Hq1 & Ht & Hi & He); [done..|].
  eexists. split; [eapply He|].
  - change (csr_read_switch s1 0x7b0) with (if debug_mode s1 then Some (dcsr s1) else None). by rewrite (q_debug _ _ Hq1).
  - unfold csr_write_switch. change (csr_of_num 0x7b0) with (Some C_dcsr). cbn [csr_write_case].
    rewrite (q_debug _ _ Hq1). reflexivity.
  - injection Hv as E1 E2 E3 E4. split; [unfold view; cpu_simpl; by rewrite E1, E2, E3, E4|]. split; [by destruct Hq1|done].
Qed.

Lemma does_csrw_dpc h s r d p a :
  quiet h s -> view s = (r, d, p, a) -> does h 0x7b141073 s NextInsn (r, d, aget 0 r 8 .&~ 1, a).
Proof.
  intros Hq Hv0 ic st Hd. injection Hv0 as <- <- <- <-. destruct (csrw_s0 h s 0x7b141073 0x7b1 ic st Hq Hd) as (s1 & Hv & Hq1 & Ht & Hi & He); [done..|].
  eexists. split; [eapply He|].
  - change (csr_read_switch s1 0x7b1) with (if debug_mode s1 then Some (dpc s1) else None). by rewrite (q_debug _ _ Hq1).
  - unfold csr_write_switch. change (csr_of_num 0x7b1) with (Some C_dpc). cbn [csr_write_case].
    rewrite (q_debug _ _ Hq1). unfold pc_align. rewrite (q_misa _ _ Hq1). reflexivity.
  - injection Hv as E1 E2 E3 E4. split; [unfold view; cpu_simpl; by rewrite E1, E2, E4|]. split; [by destruct Hq1|done].
Qed.

Lemma dret_eq h s icount start :
  quiet h s -> exec_insn 0x7b200073 icount start (at_ s) = (inl E_done, at_ (handle_dret s)).
Proof.
  intros Hq. rewrite (exec_insn_op _ _ 0x7b200073 0x73) by reflexivity. cbn [Z.eqb Pos.eqb].
  change (exec_system 0x7b200073 icount start) with (csr_operand (D := D) 0x7b200073 ;;; exec_priv 0x7b200073).
  unfold bind at 1, csr_operand. change (has (funct3_of 0x7b200073) 4) with false. cbv iota. rewrite read_reg_off by done.
  unfold exec_priv. change (0x7b200073 >> 20) with 0x7b2. cbn [Z.eqb Pos.eqb].
  change (reserved_zero (D := D) 0x7b200073 0x000fff80) with (ret (D := D) (E := exit) tt).
  unfold illegal_if, bind, gets. cbn [upd upd_cpu cpu]. rewrite (q_debug _ _ Hq). cbn [negb]. unfold ret at 1 2.
  cbn [upd upd_cpu cpu]. rewrite (q_priv _ _ Hq). reflexivity.
Qed.

(** ** Fetching from the ROM *)

(** The ROM is host memory from [pO] on. *)
Context (pO : Z) (HpO : 0 <= pO /\ pO + ROM_SIZE < 2 ^ 64).
Context (Hrom : forall a, ROM_BASE_ADDR <= a < ROM_BASE_ADDR + ROM_SIZE ->
  exists i pr, get_phys_mem_range (mem_map m) a = Some (i, pr) /\ is_ram pr = true /\ host_ptr pr a = pO + (a - ROM_BASE_ADDR)).

Definition in_boot (a : Z) : Prop := BOOT_BASE_ADDR <= a < BOOT_BASE_ADDR + 256.

Lemma boot_page a : in_boot a -> page_of a = BOOT_BASE_ADDR /\ tlb_index a = 16.
Proof.
  unfold in_boot, page_of, tlb_index, BOOT_BASE_ADDR. intros Ha. change PG_MASK with (Z.ones 12). change PG_SHIFT with 12.
  change (TLB_SIZE - 1) with (Z.ones 8). rewrite Z.ldiff_ones_r, Z.land_ones, Z.shiftr_div_pow2 by lia. change (2 ^ 12) with 4096.
  replace (a / 4096) with 16 by (apply (Z.div_unique a 4096 16 (a - 65536)); lia). done.
Qed.

(** The code TLB has no entry for the boot page, or the right one. *)
Definition rom_tlb (s : RISCVCPUState) : Prop :=
  length (tlb_code s) = 256%nat /\
  let e := aget no_tlb (tlb_code s) 16 in
  vaddr e <> BOOT_BASE_ADDR \/ e = mkTLB BOOT_BASE_ADDR (u64 (pO - BOOT_BASE_ADDR)).

Lemma pmp_quiet h s a n : quiet h s -> 0 <= a < 2 ^ 17 -> riscv_cpu_pmp_access_ok s a n PMPCFG_X = true.
Proof.
  intros Hq Ha. unfold riscv_cpu_pmp_access_ok. rewrite Z.shiftr_div_pow2 by (pose proof (q_len _ _ Hq); lia).
  rewrite Z.div_small; [|split; [lia|]]; [|eapply Z.lt_le_trans; [apply Ha|apply Z.pow_le_mono_r; [lia|apply Hq]]].
  rewrite (q_pmp _ _ Hq). unfold effective_priv. change (has PMPCFG_X PMPCFG_X) with true.
  cbn [nz Z.eqb negb pmp_loop]. rewrite andb_false_r, (q_priv _ _ Hq). done.
Qed.

Lemma fetch_ptr_rom h s a n tval :
  quiet h s -> in_boot a -> fetch_ptr a n tval (at_ s) = (inr (a, pO + (a - ROM_BASE_ADDR)), at_ s).
Proof.
  intros Hq Ha. unfold in_boot, BOOT_BASE_ADDR in Ha. unfold fetch_ptr, riscv_cpu_get_phys_addr, effective_priv. change (is_code ACCESS_CODE) with true.
  rewrite andb_false_r. cbn [upd upd_cpu cpu]. rewrite (q_priv _ _ Hq). change (PRV_M =? PRV_M) with true. cbv iota.
  unfold get_phys_mem_range_pmp. cbn [upd upd_cpu cpu mem_map]. rewrite (pmp_quiet h s) by (done || lia). cbn [negb].
  destruct (Hrom a) as (i & pr & -> & -> & ->); [unfold ROM_BASE_ADDR, ROM_SIZE; lia|]. done.
Qed.

(** The local copy of the code pointer agrees with the pc. *)
Record in_step (l : interp_locals) (a : Z) : Prop := {
  i_pc : GET_PC l = a;
  i_ptr : code_ptr l < code_end l -> code_ptr l = pO + (a - BOOT_BASE_ADDR);
  i_range : 0 <= code_ptr l <= pO + (a - BOOT_BASE_ADDR);
}.

Lemma fetch_miss h l s a :
  quiet h s -> rom_tlb s -> pc s = a -> in_boot a -> in_boot (a + 2) -> code_end l <= code_ptr l ->
  vaddr (aget no_tlb (tlb_code s) 16) <> BOOT_BASE_ADDR ->
  exists s', fetch l (at_ s) = (inr (load_host m (pO + (a - BOOT_BASE_ADDR)) 2, l), at_ s') /\
    view s' = view s /\ quiet h s' /\ rom_tlb s'.
Proof.
  intros Hq [Hl Ht] Hpc Ha Ha2 Hc Hv. destruct (boot_page a Ha) as [Hp Hi], (boot_page _ Ha2) as [_ Hi2].
  unfold in_boot in Ha, Ha2. unfold BOOT_BASE_ADDR in Ha, Ha2. unfold fetch.
  destruct (Z.ltb_spec (code_ptr l) (code_end l)); [lia|].
  unfold bind at 1, catch at 1, take_interrupt, irq_pending. cbn [upd upd_cpu cpu]. rewrite (q_mie _ _ Hq).
  unfold has at 1. rewrite Z.land_0_r. cbn [andb nz Z.eqb negb]. cbv iota.
  unfold bind at 1, gets at 1. cbn [upd upd_cpu cpu]. rewrite Hpc. unfold bind at 1, gets at 1. cbn [upd upd_cpu cpu].
  rewrite Hi, Hp. destruct (Z.eqb_spec (vaddr (aget no_tlb (tlb_code s) 16)) BOOT_BASE_ADDR) as [|_]; [done|].
  unfold bind at 1, catch, target_read_insn_slow. unfold bind at 1. rewrite (fetch_ptr_rom h) by done.
  unfold bind at 1, getm at 1. cbn [upd upd_cpu cpu]. rewrite Hp, (pmp_quiet h) by done.
  unfold bind at 1, mods. rewrite trunc_small by (unfold fits; lia). rewrite Hi, Hi2.
  unfold bind at 1, getm at 1. cbn [Z.eqb Pos.eqb negb andb]. eexists. split; [reflexivity|]. split; [done|]. split; [by destruct Hq|].
  unfold rom_tlb, fill_tlb_code. cpu_simpl. cbn [upd upd_cpu cpu]. rewrite length_aset, Hi, Hp, aget_aset_eq by (rewrite Hl; lia).
  split; [done|right]. f_equal. f_equal. unfold ROM_BASE_ADDR, BOOT_BASE_ADDR. lia.
Qed.

Lemma fetch_hit h l s a :
  quiet h s -> pc s = a -> in_boot a -> code_end l <= code_ptr l ->
  aget no_tlb (tlb_code s) 16 = mkTLB BOOT_BASE_ADDR (u64 (pO - BOOT_BASE_ADDR)) ->
  let p := pO + (a - BOOT_BASE_ADDR) in
  fetch l (at_ s) = (inr (load_host m p 2,
    l <| code_ptr := p |> <| code_end := pO + (PG_MASK - 1) |> <| code_to_pc_addend := u64 (a - p) |>), at_ s).
Proof.
  intros Hq Hpc Ha Hc He p. destruct (boot_page a Ha) as [Hp Hi].
  unfold in_boot in Ha. unfold BOOT_BASE_ADDR, ROM_SIZE, p in *. unfold fetch.
  destruct (Z.ltb_spec (code_ptr l) (code_end l)); [lia|].
  unfold bind at 1, catch at 1, take_interrupt, irq_pending. cbn [upd upd_cpu cpu]. rewrite (q_mie _ _ Hq).
  unfold has at 1. rewrite Z.land_0_r. cbn [andb nz Z.eqb negb]. cbv iota.
  unfold bind at 1, gets at 1. cbn [upd upd_cpu cpu]. rewrite Hpc. unfold bind at 1, gets at 1. cbn [upd upd_cpu cpu].
  rewrite Hi, Hp, He. cbn [vaddr mem_addend]. rewrite Z.eqb_refl.
  assert (forall x, 0 <= x < 0x2000 -> u64 (u64 (pO - 65536) + (65536 + x)) = pO + x) as Hu.
  { intros x Hx. rewrite trunc_add_l by lia. rewrite trunc_small; unfold fits; lia. }
  replace (u64 (u64 (pO - 65536) + a)) with (pO + (a - 65536)) by (rewrite <- Hu by lia; f_equal; lia).
  replace (65536 + PG_MASK - 1) with (65536 + (PG_MASK - 1)) by lia. change (PG_MASK - 1) with 4094. rewrite Hu by lia.
  unfold bind at 1, getm at 1. cbn [upd upd_code_ptr upd_code_end upd_code_to_pc_addend code_end code_ptr].
  destruct (Z.leb_spec (pO + 4094) (pO + (a - 65536))); [lia|]. reflexivity.
Qed.

Lemma fetch_rom h l s a :
  quiet h s -> rom_tlb s -> pc s = a -> in_boot a -> in_boot (a + 2) -> in_step l a ->
  exists l' s', fetch l (at_ s) = (inr (load_host m (pO + (a - BOOT_BASE_ADDR)) 2, l'), at_ s') /\
    view s' = view s /\ quiet h s' /\ rom_tlb s' /\ in_step l' a /\
    n_cycles l' = n_cycles l /\ insn_counter_addend l' = insn_counter_addend l /\ insn_executed l' = insn_executed l.
Proof.
  intros Hq Ht Hpc Ha Ha2 [Hg Hp Hr0]. destruct (Z.lt_ge_cases (code_ptr l) (code_end l)) as [Hc|Hc].
  - exists l, s. split_and!; try done. unfold fetch. destruct (Z.ltb_spec (code_ptr l) (code_end l)); [|lia].
    rewrite <- Hp by done. done.
  - destruct (decide (vaddr (aget no_tlb (tlb_code s) 16) = BOOT_BASE_ADDR)) as [E|E].
    + destruct Ht as [Hl [Ht|Ht]]; [done|]. eexists _, s. rewrite (fetch_hit h l s a) by done. split; [reflexivity|].
      split_and!; try done; [split; [done|by right]|]. unfold in_boot in Ha. unfold BOOT_BASE_ADDR in *.
      split; [|done|cbn [upd upd_code_ptr upd_code_end upd_code_to_pc_addend code_ptr]; unfold BOOT_BASE_ADDR; lia]. unfold GET_PC. cbn. rewrite trunc_add_r by lia. rewrite trunc_small; [lia|unfold fits; lia].
    + destruct (fetch_miss h l s a) as (s' & He & H1 & H2 & H3); try done. by exists l, s'.
Qed.

(** ** The loop *)

(** After [k] instructions of a run of [n]. *)
Record on_rom (h start n k : Z) (l : interp_locals) (s : RISCVCPUState) (a : Z) : Prop := {
  o_quiet : quiet h s;
  o_tlb : rom_tlb s;
  o_step : in_step l a;
  o_cycles : n_cycles l = n + 1 - k;
  o_addend : insn_counter_addend l = u64 (start + n);
  o_exec : insn_executed l = k;
}.

Definition next_pc (nx : next) (o : list Z * Z * Z * Z) : Z :=
  match nx with NextInsn => o.2 + 4 | CNextInsn => o.2 + 2 | JumpInsn => o.2 end.

Lemma advance_in_step l a nx o :
  in_step l a -> in_boot a -> in_boot (next_pc nx o) -> (nx = JumpInsn \/ nx = NextInsn /\ o.2 = a) ->
  in_step (advance nx o.2 l) (next_pc nx o).
Proof.
  intros [Hg Hp Hr0] Ha Hb Hnx. unfold in_boot, BOOT_BASE_ADDR, ROM_SIZE in *. destruct nx; cbn [next_pc advance] in *.
  - destruct Hnx as [|[_ E]]; [done|]. rewrite E in *.
    assert (u64 (code_ptr l + 4) = code_ptr l + 4) as E4 by (apply trunc_small; unfold fits; lia).
    split; cbn [upd upd_code_ptr code_ptr code_end code_to_pc_addend]; rewrite ?E4; unfold BOOT_BASE_ADDR.
    + unfold GET_PC in *. cbn [upd upd_code_ptr code_ptr code_end code_to_pc_addend]. rewrite E4.
      replace (code_ptr l + 4 + code_to_pc_addend l) with (code_ptr l + code_to_pc_addend l + 4) by lia.
      rewrite <- trunc_add_l, Hg by lia. apply trunc_small. unfold fits. lia.
    + intros Hlt. rewrite Hp by lia. lia.
    + lia.
  - by destruct Hnx as [|[? _]].
  - split; cbn [upd upd_code_ptr upd_code_end upd_code_to_pc_addend code_ptr code_end]; unfold BOOT_BASE_ADDR; [|lia|lia].
    apply trunc_small. unfold fits. lia.
Qed.

(** An iteration up to the execution of the word at the pc. *)
Lemma iter_fetch h start n k l s a :
  on_rom h start n k l s a -> 0 <= k < n -> in_boot a -> in_boot (a + 2) ->
  let w := load_host m (pO + (a - BOOT_BASE_ADDR)) 2 in
  exists l2 s2, view s2 = (reg s, dcsr s, dpc s, a) /\ on_rom h start n (k + 1) l2 s2 a /\
    interp_iter start l (at_ s) =
    (nx <- catch (exec_insn w (u64 (start + k)) start) (fun e => (Goto e, l2)) ;;
     s <- gets id ;; ret (advance nx (pc s) (recount w s l2))) (at_ s2).
Proof.
  intros [Hq Ht Hi Hn Hd He] Hk Ha Ha2 w.
  set (s0 := s <| last_pc := pc s |> <| pc := GET_PC l |>). set (l0 := l <| n_cycles ::= fun n => n - 1 |>).
  assert (n_cycles l0 = n - k) as En by (cbn; lia). assert (quiet h s0) as Hq0 by (by destruct Hq).
  unfold interp_iter. unfold bind at 1, mods at 1. change (upd cpu _ (at_ s)) with (at_ s0). cbv zeta. fold l0. rewrite En.
  destruct (Z.eqb_spec (n - k) 0); [lia|]. set (l1 := upd insn_executed _ l0).
  unfold bind at 1, catch at 1, check_execute, check_triggers. change (cpu (at_ s0)) with s0. rewrite (q_debug _ _ Hq0).
  change (at_ s0) <| cpu := s0 |> with (at_ s0).
  destruct (fetch_rom h l1 s0 a) as (l2 & s2 & Ef & V2 & Q2 & T2 & I2 & N2 & A2 & X2); [done|done|apply Hi|done..|by destruct Hi|].
  unfold bind at 1, catch at 1. rewrite Ef. exists l2, s2.
  assert (GET_INSN_COUNTER l2 = u64 (start + k)) as <-.
  { unfold GET_INSN_COUNTER. rewrite N2, A2. change (n_cycles l1) with (n_cycles l0).
    change (insn_counter_addend l1) with (insn_counter_addend l). rewrite En, Hd. rewrite trunc_sub_l by lia. f_equal. lia. }
  split; [rewrite V2; unfold view, s0; cpu_simpl; by rewrite (i_pc _ _ Hi)|]. split; [|done].
  split; [done..| | |]; rewrite ?N2, ?A2, ?X2; cbn; lia || done.
Qed.

Lemma counter_delta start k : 0 <= k < 2 ^ 31 -> i32 (u64 (start + k) - start) = k.
Proof.
  intros Hk. rewrite <- (sgn_id 32 k) at 2 by lia. apply sgn_eq; [lia|]. unfold trunc.
  rewrite (Z.mod_eq (start + k) (2 ^ 64)) by lia.
  replace (start + k - 2 ^ 64 * ((start + k) / 2 ^ 64) - start) with (k + (- 2 ^ 32 * ((start + k) / 2 ^ 64)) * 2 ^ 32) by lia.
  apply Z_mod_plus_full.
Qed.

Lemma recount_same start n k w s l :
  n_cycles l = n - k -> insn_counter_addend l = u64 (start + n) -> (op_of w = 0x73 -> insn_counter s = u64 (start + k)) ->
  recount w s l = l.
Proof.
  intros Hn Ha Hs. unfold recount. destruct (Z.eqb_spec (op_of w) 0x73) as [E|]; [|done]. destruct (_ =? _); [|done].
  cbn [andb]. rewrite (Hs E), Hn. rewrite trunc_add_l by lia. replace (start + k + (n - k)) with (start + n) by lia.
  rewrite <- Ha. by destruct l.
Qed.

Lemma iter_rom h start n k l s a nx o :
  on_rom h start n k l s a -> 0 <= k < n -> n < 2 ^ 31 -> in_boot a -> in_boot (a + 2) -> in_boot (next_pc nx o) ->
  (nx = JumpInsn \/ nx = NextInsn /\ o.2 = a) ->
  (forall s1, quiet h s1 -> view s1 = (reg s, dcsr s, dpc s, a) -> does h (load_host m (pO + (a - BOOT_BASE_ADDR)) 2) s1 nx o) ->
  exists l' s', interp_iter start l (at_ s) = (inr l', at_ s') /\ view s' = o /\ on_rom h start n (k + 1) l' s' (next_pc nx o).
Proof.
  intros Hr0 Hk Hk2 Ha Ha2 Hb Hnx Hdoes. destruct (iter_fetch h start n k l s a Hr0 Hk Ha Ha2) as (l2 & s2 & V2 & [Q2 T2 I2 N2 A2 X2] & ->).
  destruct (Hdoes s2 Q2 V2 (u64 (start + k)) start) as (s' & Ex & V' & Q' & T' & C'); [rewrite counter_delta; lia|].
  unfold bind at 1, catch. rewrite Ex. unfold bind, gets, ret. change (id (cpu (at_ s'))) with s'.
  rewrite (recount_same start n k) by (done || lia). assert (pc s' = o.2) as -> by (by rewrite <- V').
  eexists _, s'. split; [reflexivity|]. split; [done|]. split; [done| |by apply (advance_in_step l2 a)|by destruct nx..].
  unfold rom_tlb. by rewrite T'.
Qed.

(** ** The boot code *)

Section Code.
Context (nc : nat) (base : Z).
Context (Hbase : base = 0x80000000 \/ base = 0x8000000000 \/ base = 0xC000000000).
Context (Hcode : forall (i : nat) w, bootrom_code nc base !! i = Some w -> load_host m (pO + 4 * Z.of_nat i) 2 = w).

(** The word at the pc of instruction [i]. *)
Lemma code_word i w a :
  bootrom_code nc base !! i = Some w -> a = BOOT_BASE_ADDR + 4 * Z.of_nat i -> load_host m (pO + (a - BOOT_BASE_ADDR)) 2 = w.
Proof. intros Hi ->. rewrite <- (Hcode i w Hi). f_equal. lia. Qed.

(** One turn of the loop on instruction [i], which does what [does] says. *)
Lemma loop_rom h start n k l s r d p x a i w nx o fuel :
  on_rom h start n k l s a -> view s = (r, d, p, x) -> 0 <= k < n -> n < 2 ^ 31 ->
  bootrom_code nc base !! i = Some w -> a = BOOT_BASE_ADDR + 4 * Z.of_nat i -> (i < 16)%nat ->
  (forall s1, quiet h s1 -> view s1 = (r, d, p, a) -> does h w s1 nx o) ->
  (nx = JumpInsn \/ nx = NextInsn /\ o.2 = a) -> in_boot (next_pc nx o) ->
  exists l' s', interp_loop (S fuel) start l (at_ s) = interp_loop fuel start l' (at_ s') /\
    view s' = o /\ on_rom h start n (k + 1) l' s' (next_pc nx o).
Proof.
  intros Hr0 Hv Hk Hn Hwi Ha Hi Hdoes Hnx Hb.
  assert (in_boot a /\ in_boot (a + 2)) as [Ha1 Ha2] by (unfold in_boot; lia).
  destruct (iter_rom h start n k l s a nx o) as (l' & s' & He & Hv' & Hr'); try done.
  - rewrite (code_word i w a) by done. injection Hv as <- <- <- _. done.
  - exists l', s'. cbn [interp_loop]. by rewrite He.
Qed.

(** What the firmware finds in the hart. *)
Record handed_over (h : Z) (s : RISCVCPUState) : Prop := {
  h_pc : pc s = base;
  h_priv : priv s = PRV_M;
  h_debug : debug_mode s = false;
  h_a0 : aget 0 (reg s) 10 = h;
  h_a1 : aget 0 (reg s) 11 = BOOT_BASE_ADDR + 256;
}.

(** The loop leaves debug mode and hands over after [k] instructions. *)
Definition hands_over (h start n k : Z) (fuel : nat) (l : interp_locals) (m1 : RISCVMachine D) : Prop :=
  exists l' s', interp_loop fuel start l m1 = Some (Goto E_done, l', at_ s') /\ handed_over h s' /\
    n_cycles l' = n + 1 - k /\ insn_counter_addend l' = u64 (start + n) /\ insn_executed l' = k.

Lemma hands_over_step h start n j k l s r d p x a i w nx o fuel :
  on_rom h start n k l s a -> view s = (r, d, p, x) -> 0 <= k < n -> n < 2 ^ 31 ->
  bootrom_code nc base !! i = Some w -> a = BOOT_BASE_ADDR + 4 * Z.of_nat i -> (i < 16)%nat ->
  (forall s1, quiet h s1 -> view s1 = (r, d, p, a) -> does h w s1 nx o) ->
  (nx = JumpInsn \/ nx = NextInsn /\ o.2 = a) -> in_boot (next_pc nx o) ->
  (forall l' s', on_rom h start n (k + 1) l' s' (next_pc nx o) -> view s' = o -> hands_over h start n j fuel l' (at_ s')) ->
  hands_over h start n j (S fuel) l (at_ s).
Proof.
  intros Hr0 Hv Hk Hn Hwi Ha Hi Hdoes Hnx Hb Hrest.
  destruct (loop_rom h start n k l s r d p x a i w nx o fuel) as (l' & s' & E & V' & R'); try done.
  unfold hands_over. rewrite E. by apply Hrest.
Qed.

Lemma hands_over_dret h start n j k l s r d p x a i fuel :
  on_rom h start n k l s a -> view s = (r, d, p, x) -> 0 <= k < n -> n < 2 ^ 31 ->
  bootrom_code nc base !! i = Some 0x7b200073 -> a = BOOT_BASE_ADDR + 4 * Z.of_nat i -> (i < 16)%nat ->
  d .& 3 = 3 -> p = base -> aget 0 r 10 = h -> aget 0 r 11 = BOOT_BASE_ADDR + 256 -> j = k + 1 ->
  hands_over h start n j (S fuel) l (at_ s).
Proof.
  intros Hr0 Hv Hk Hn Hwi Ha Hi Hd Hp H10 H11 ->.
  assert (in_boot a /\ in_boot (a + 2)) as [Ha1 Ha2] by (unfold in_boot; lia).
  destruct (iter_fetch h start n k l s a Hr0 Hk Ha1 Ha2) as (l2 & s2 & V2 & [Q2 T2 I2 N2 A2 X2] & He). exists l2, (handle_dret s2).
  split; [cbn [interp_loop]; rewrite He, (code_word i 0x7b200073 a) by done; unfold bind at 1, catch; by rewrite (dret_eq h)|].
  split; [|done]. injection Hv as <- <- <- _. injection V2 as V2r V2d V2p _.
  unfold handle_dret, set_priv. cpu_simpl. rewrite V2d, Hd, (q_priv _ _ Q2). change (negb (PRV_M =? 3)) with false. cbv iota.
  split; cpu_simpl; rewrite ?V2r, ?V2p; done || apply Q2.
Qed.

End Code.

Lemma merge_low d v : v .& 3 = 3 -> merge d v 0x603 .& 3 = 3.
Proof.
  intros Hv. unfold merge. rewrite Z.land_lor_distr_l, <- Z.land_assoc. change (0x603 .& 3) with 3. rewrite Hv.
  apply Z.bits_inj'. intros i Hi. rewrite Z.lor_spec, Z.land_spec, Z.ldiff_spec. destruct (Z.testbit 3 i) eqn:E; [by rewrite orb_true_r|].
  by rewrite andb_false_r.
Qed.

(** Executes instruction [i] of the code [C] by the lemma [L]. *)
Ltac boot_step C i L :=
  eapply (hands_over_step _ _ C _ _ _ _ _ _ _ _ _ _ _ _ i);
  [eassumption|eassumption|lia|lia|reflexivity|reflexivity|lia|intros ? ? ?; L; first [eassumption|reflexivity|done]
  |first [by left|by right]|by split|];
  let R := fresh "R" in let V := fresh "V" in
  match goal with H : on_rom _ _ _ _ ?l _ _, H2 : view ?s = _ |- forall _, _ => clear H H2 end;
  intros ? ? R V; cbn [next_pc snd] in R.

(** From [1:] on; the base is [imm << sh]. *)
Ltac boot_tail C imm sh :=
  boot_step C 4%nat ltac:(eapply does_auipc_a1);
  boot_step C 5%nat ltac:(eapply (does_addi _ _ _ _ _ _ _ 11 11 240));
  boot_step C 6%nat ltac:(eapply (does_addi _ _ _ _ _ _ _ 8 0 1539));
  boot_step C 7%nat ltac:(eapply does_csrw_dcsr);
  boot_step C 8%nat ltac:(eapply (does_addiw _ _ _ _ _ _ _ 8 0 imm));
  boot_step C 9%nat ltac:(eapply (does_slli _ _ _ _ _ _ _ 8 8 sh));
  boot_step C 10%nat ltac:(eapply does_csrw_dpc);
  eapply (hands_over_dret _ _ C _ _ _ _ _ _ _ _ _ _ _ _ 11%nat);
  [eassumption|eassumption|lia|lia|reflexivity|reflexivity|lia|by apply merge_low|reflexivity|try reflexivity|reflexivity|reflexivity].

(** One hart. *)
Lemma boot_single base start n l s d p x :
  (base = 0x80000000 \/ base = 0x8000000000 \/ base = 0xC000000000) ->
  (forall (i : nat) w, bootrom_code 1 base !! i = Some w -> load_host m (pO + 4 * Z.of_nat i) 2 = w) ->
  on_rom 0 start n 0 l s BOOT_BASE_ADDR -> view s = (replicate 32 0, d, p, x) -> 12 < n < 2 ^ 31 ->
  hands_over base 0 start n 10 (Z.to_nat (n + 1)) l (at_ s).
Proof.
  intros Hb Hc Hr0 Hv Hn. replace (Z.to_nat (n + 1)) with (10 + Z.to_nat (n - 9))%nat by lia.
  boot_step Hc 0%nat ltac:(eapply does_csrr_mhartid).
  boot_step Hc 1%nat ltac:(eapply does_beqz).
  destruct Hb as [->|[->| ->]]; [boot_tail Hc 1 31|boot_tail Hc 1 39|boot_tail Hc 3 38].
Qed.

(** Several harts. *)
Lemma boot_many nc base h start n l s d p x :
  (base = 0x80000000 \/ base = 0x8000000000 \/ base = 0xC000000000) -> (nc =? 1)%nat = false -> fits 64 h ->
  (forall (i : nat) w, bootrom_code nc base !! i = Some w -> load_host m (pO + 4 * Z.of_nat i) 2 = w) ->
  on_rom h start n 0 l s BOOT_BASE_ADDR -> view s = (replicate 32 0, d, p, x) -> 12 < n < 2 ^ 31 ->
  hands_over base h start n 12 (Z.to_nat (n + 1)) l (at_ s).
Proof.
  intros Hb Hnc Hh Hc Hr0 Hv Hn. replace (Z.to_nat (n + 1)) with (12 + Z.to_nat (n - 11))%nat by lia.
  assert (u64 (u64 h) = h) as Eh by (by rewrite !trunc_small by (done || by rewrite trunc_small)).
  assert (bootrom_code nc base = bootrom_code 2 base) as Enc by (unfold bootrom_code; by rewrite Hnc). rewrite Enc in Hc.
  boot_step Hc 0%nat ltac:(eapply does_csrr_mhartid).
  boot_step Hc 1%nat ltac:(eapply does_nop).
  boot_step Hc 2%nat ltac:(eapply does_nop).
  boot_step Hc 3%nat ltac:(eapply does_nop).
  destruct Hb as [->|[->| ->]]; [boot_tail Hc 1 31|boot_tail Hc 1 39|boot_tail Hc 3 38]; exact Eh.
Qed.

(** ** A call of the interpreter *)

(** The same hart, as far as the boot code is concerned. *)
Record same_hart (s s' : RISCVCPUState) : Prop := {
  e_quiet h : quiet h s -> quiet h s';
  e_view : view s' = view s;
  e_tlb : tlb_code s' = tlb_code s;
}.

Lemma same_hart_start s :
  same_hart s ((clear_most_recently_written_vregs s) <| most_recently_written_reg := -1 |>
                 <| most_recently_written_fp_reg := -1 |> <| info := ctf_nop |>).
Proof. split; [by intros h []|done|done]. Qed.

Lemma same_hart_run s : same_hart s (s <| pending_exception := -1 |> <| last_data_vaddr := 2 ^ 64 - 1 |>).
Proof. split; [by intros h []|done|done]. Qed.

Lemma at_upd f s : upd cpu f (at_ s) = at_ (f s).
Proof. done. Qed.

Lemma interp64_loop h n s :
  quiet h s -> n <> 0 ->
  exists s', same_hart s s' /\
    riscv_cpu_interp64 n (at_ s) =
    match interp_loop (Z.to_nat (n + 1)) (insn_counter s) (mkLocals 0 0 (pc s) (n + 1) (u64 (insn_counter s + n)) 0) (at_ s') with
    | None => (inl E_undefined, at_ s')
    | Some (e, l, m') => (l <- leave e l ;; the_end (insn_counter s) l) m'
    end.
Proof.
  intros Hq Hn. unfold riscv_cpu_interp64. unfold bind at 1, gets at 1. change (cpu (at_ s)) with s.
  unfold bind at 1, mods at 1. rewrite at_upd. destruct (Z.eqb_spec n 0); [done|]. cbv zeta.
  pose proof (same_hart_start s) as S2. revert S2. generalize ((clear_most_recently_written_vregs s) <| most_recently_written_reg := -1 |>
    <| most_recently_written_fp_reg := -1 |> <| info := ctf_nop |>) as s2. intros s2 [Q2 V2 T2].
  unfold bind at 1, take_interrupt, irq_pending. change (cpu (at_ s2)) with s2. rewrite (q_mie _ _ (Q2 h Hq)).
  unfold has at 1. rewrite Z.land_0_r. cbn [andb nz Z.eqb negb]. cbv iota.
  unfold bind at 1, mods at 1. rewrite at_upd.
  pose proof (same_hart_run s2) as S3. revert S3. generalize (s2 <| pending_exception := -1 |> <| last_data_vaddr := 2 ^ 64 - 1 |>) as s3.
  intros s3 [Q3 V3 T3]. exists s3. split; [split; [auto|congruence|congruence]|].
  unfold bind at 1, gets at 1. change (cpu (at_ s3)) with s3.
  assert (pc s3 = pc s) as -> by (unfold view in *; congruence). done.
Qed.

Lemma the_end_hands_over base h start n k l s :
  handed_over base h s -> 0 <= k <= 12 -> n_cycles l = n + 1 - k -> insn_counter_addend l = u64 (start + n) -> insn_executed l = k ->
  exists s', (l <- leave (Goto E_done) l ;; the_end start l) (at_ s) = (inr k, at_ s') /\ handed_over base h s'.
Proof.
  intros Hh Hk Hc Ha He. unfold leave, bind at 1, ret at 1, the_end, count_insns.
  assert (i32 (GET_INSN_COUNTER (l <| n_cycles ::= fun n => n - 1 |>) - start) = k) as Ed.
  { unfold GET_INSN_COUNTER. cbn [upd upd_n_cycles n_cycles insn_counter_addend]. rewrite Hc, Ha, trunc_sub_l by lia.
    replace (start + n - (n + 1 - k - 1)) with (start + k) by lia. apply counter_delta. lia. }
  rewrite Ed. change (insn_executed (l <| n_cycles ::= fun n => n - 1 |>)) with (insn_executed l). rewrite He.
  unfold bind, mods, gets. rewrite at_upd. generalize (GET_INSN_COUNTER (l <| n_cycles ::= fun n => n - 1 |>)) as c. intros c.
  cbn [upd upd_cpu cpu]. destruct (stop_the_counter _); [eexists; split; [reflexivity|by destruct Hh]|].
  destruct (Z.ltb_spec k 0); [lia|]. eexists. split; [reflexivity|by destruct Hh].
Qed.

Lemma interp_hands_over base h n k s :
  quiet h s -> rom_tlb s -> pc s = BOOT_BASE_ADDR -> 12 < n < 2 ^ 31 -> 0 <= k <= 12 ->
  (forall start l s1, on_rom h start n 0 l s1 BOOT_BASE_ADDR -> view s1 = view s ->
     hands_over base h start n k (Z.to_nat (n + 1)) l (at_ s1)) ->
  exists s', riscv_cpu_interp64 n (at_ s) = (inr k, at_ s') /\ handed_over base h s'.
Proof.
  intros Hq Ht Hpc Hn Hk Hrun. destruct (interp64_loop h n s Hq ltac:(lia)) as (s3 & [Q3 V3 T3] & ->). rewrite Hpc.
  destruct (Hrun (insn_counter s) (mkLocals 0 0 BOOT_BASE_ADDR (n + 1) (u64 (insn_counter s + n)) 0) s3) as (l' & s4 & -> & Hh & Hc & Ha & He).
  - split; [auto|unfold rom_tlb; by rewrite T3| |cbn; lia|done|done]. split; [done|cbn; lia|cbn; lia].
  - done.
  - by apply the_end_hands_over with n.
Qed.
End Boot.

(** ** The machine *)

(** The words of a ROM that holds [ws]. *)
Lemma le32_load h q w : fits 32 w -> held h q (le32 w) -> load_le h q 4 = w.
Proof.
  intros Hw Hh. assert (forall i : nat, (i < 4)%nat -> byte_at h (q + Z.of_nat i) = u8 (w >> (8 * Z.of_nat i))) as Hb.
  { intros i Hi. apply Hh. do 4 (destruct i as [|i]; [done|]). lia. }
  pose proof (Hb 0%nat ltac:(lia)) as H0. pose proof (Hb 1%nat ltac:(lia)) as H1. pose proof (Hb 2%nat ltac:(lia)) as H2.
  pose proof (Hb 3%nat ltac:(lia)) as H3. clear Hb. cbn [load_le].
  replace (q + 1 + 1 + 1) with (q + Z.of_nat 3) by lia. replace (q + 1 + 1) with (q + Z.of_nat 2) by lia.
  replace (q + 1) with (q + Z.of_nat 1) by lia. rewrite <- (Z.add_0_r q) at 1. change 0 with (Z.of_nat 0) at 1.
  rewrite H0, H1, H2, H3. change (0 << 8) with 0. rewrite Z.lor_0_r.
  rewrite (trunc_small 8 (w >> (8 * Z.of_nat 3))).
  - change (8 * Z.of_nat 3) with 24. change (8 * Z.of_nat 2) with 16. change (8 * Z.of_nat 1) with 8. change (8 * Z.of_nat 0) with 0.
    change (w >> 24) with (w >> (16 + 8)). rewrite <- Z.shiftr_shiftr, byte_split by lia.
    change (w >> 16) with (w >> (8 + 8)). rewrite <- Z.shiftr_shiftr, byte_split, Z.shiftr_0_r by lia. apply byte_split.
  - unfold fits in *. rewrite Z.shiftr_div_pow2 by lia. split; [apply Z.div_pos; lia|apply Z.div_lt_upper_bound; cbn; lia].
Qed.

Lemma held_words h q ws (i : nat) w :
  held h q (mjoin (le32 <$> ws)) -> ws !! i = Some w -> fits 32 w -> load_le h (q + 4 * Z.of_nat i) 4 = w.
Proof.
  revert q i. induction ws as [|v ws IH]; intros q i Hh Hi Hw; [done|].
  assert (held h q (le32 v) /\ held h (q + 4) (mjoin (le32 <$> ws))) as [H1 H2].
  { split; [intros j x Hj|intros j x Hj].
    - apply Hh. change (mjoin (le32 <$> v :: ws)) with (le32 v ++ mjoin (le32 <$> ws)). by apply lookup_app_l_Some.
    - replace (q + 4 + Z.of_nat j) with (q + Z.of_nat (4 + j)) by lia. apply Hh.
      change (mjoin (le32 <$> v :: ws)) with (le32 v ++ mjoin (le32 <$> ws)). rewrite lookup_app_r by (cbn; lia). rewrite <- Hj. f_equal. cbn. lia. }
  destruct i as [|i]; [injection Hi as <-; rewrite Z.add_0_r; by apply le32_load|].
  replace (q + 4 * Z.of_nat (S i)) with (q + 4 + 4 * Z.of_nat i) by lia. by apply IH.
Qed.

Lemma bootrom_code_fits nc base i w : bootrom_code nc base !! i = Some w -> fits 32 w.
Proof.
  intros Hi. assert (Forall (fits 32) (bootrom_code nc base)) as Hf; [|by eapply Forall_lookup_1].
  unfold bootrom_code. destruct (nc =? 1)%nat, (base =? 0xC000000000), (base =? 0x80000000);
    repeat constructor; unfold fits; lia.
Qed.

Lemma quiet_init p (i : nat) :
  17 <= physical_addr_len p -> quiet (Z.of_nat i) ((init_hart p i) <| debug_mode := true |>).
Proof. intros Hl. unfold init_hart. destruct (custom_extension p), (clear_ids p); split; try done. Qed.

Lemma rom_tlb_init pO p i : rom_tlb pO ((init_hart p i) <| debug_mode := true |>).
Proof. unfold init_hart. destruct (custom_extension p), (clear_ids p); (split; [done|by left]). Qed.

Lemma view_init p i :
  view ((init_hart p i) <| debug_mode := true |>) = (replicate 32 0, (1 << 30) + 3, 0, reset_vector p).
Proof. unfold init_hart. by destruct (custom_extension p), (clear_ids p). Qed.

(** Mapped memory is found by the fetch. *)
Lemma mapped_rom s pO a :
  mapped s ROM_BASE_ADDR ROM_SIZE pO -> 0 <= pO -> pO + ROM_SIZE < 2 ^ 64 -> ROM_BASE_ADDR <= a < ROM_BASE_ADDR + ROM_SIZE ->
  exists i pr, get_phys_mem_range (b_mem_map s) a = Some (i, pr) /\ is_ram pr = true /\ host_ptr pr a = pO + (a - ROM_BASE_ADDR).
Proof.
  intros Hm H0 H1 Ha. specialize (Hm (a - ROM_BASE_ADDR) ltac:(lia)). replace (ROM_BASE_ADDR + (a - ROM_BASE_ADDR)) with a in Hm by lia.
  unfold ram_ptr in Hm. destruct (get_phys_mem_range _ a) as [[i pr]|]; [|done]. destruct (is_ram pr) eqn:Er; [|done].
  injection Hm as Hm. exists i, pr. split; [done|]. split; [done|]. unfold host_ptr. rewrite trunc_add_r by lia.
  rewrite Hm. apply trunc_small. unfold fits. lia.
Qed.

Section Machine.
Context {D : Type} {dv : Devices D} (m : RISCVMachine D).

(** [m] runs hart [i] of the machine [s] that [virt_machine_init] built. *)
Record runs_hart (s : boot_machine) (i : nat) : Prop := {
  r_cpu : b_harts s !! i = Some (cpu m);
  r_map : mem_map m = b_mem_map s;
  r_host : host m = b_host s;
  r_trace : stf_in_traceable_region m = false;
  r_read : hook_csr_read (hooks m) = None;
  r_write : hook_csr_write (hooks m) = None;
}.

Lemma built_hart arena p fw i0 blob i c :
  b_harts (built_machine p arena fw i0 blob) !! i = Some c -> c = (init_hart p i) <| debug_mode := true |> /\ (i < Z.to_nat (ncpus p))%nat.
Proof.
  unfold built_machine, loaded_machine, bare_machine, new_machine, machine_harts. cbn.
  rewrite list_lookup_fmap, list_lookup_fmap. intros Hi. destruct (seq 0 _ !! i) as [j|] eqn:E; [|done].
  apply lookup_seq in E as [-> Hj]. by injection Hi as <-.
Qed.

Lemma built_code arena p fw blob i0 i1 s pO (i : nat) w :
  bootable p fw blob i0 i1 -> s = built_machine p arena fw i0 blob -> mapped s ROM_BASE_ADDR ROM_SIZE pO -> host m = b_host s ->
  bootrom_code (Z.to_nat (ncpus p)) (ram_base_addr p) !! i = Some w -> load_host m (pO + 4 * Z.of_nat i) 2 = w.
Proof.
  intros Hp Hs Hm Hh Hi. unfold load_host. rewrite Hh. change (Z.to_nat (bytes 2)) with 4%nat.
  apply (held_words _ _ (bootrom_code (Z.to_nat (ncpus p)) (ram_base_addr p))); [|done|by eapply bootrom_code_fits].
  assert (boot_code s = mjoin (le32 <$> bootrom_code (Z.to_nat (ncpus p)) (ram_base_addr p))) as <-.
  { rewrite Hs. unfold boot_code. cbn [b_ram_base_addr]. do 2 f_equal. f_equal. cbn. unfold machine_harts. by rewrite !length_fmap, length_seq. }
  intros j x Hj. pose proof (lookup_lt_Some _ _ _ Hj) as Hlt. rewrite length_boot_code in Hlt.
  pose proof (g_code _ _ _ _ _ (built_booted arena p fw blob i0 i1 Hp)) as Hg. rewrite <- Hs in Hg.
  destruct (Hg j x Hj) as (q & Hq & Hx). change BOOT_BASE_ADDR with ROM_BASE_ADDR in Hq.
  rewrite Hm in Hq by (unfold ROM_SIZE; lia). by injection Hq as ->.
Qed.

(** The interpreter on a hart of the machine. *)
Lemma built_hart_runs arena p fw blob i0 i1 s (i : nat) n :
  bootable p fw blob i0 i1 -> reset_vector p = BOOT_BASE_ADDR -> 17 <= physical_addr_len p ->
  0 <= arena -> arena + ram_size p + ROM_SIZE < 2 ^ 64 -> s = built_machine p arena fw i0 blob ->
  cpu m = (init_hart p i) <| debug_mode := true |> -> (i < Z.to_nat (ncpus p))%nat ->
  mapped s ROM_BASE_ADDR ROM_SIZE (arena + ram_size p) -> runs_hart s i -> 12 < n < 2 ^ 31 ->
  exists s', riscv_cpu_interp64 n (m <| cpu := cpu m |>) = (inr (if ncpus p =? 1 then 10 else 12), m <| cpu := s' |>) /\
    handed_over (ram_base_addr p) (Z.of_nat i) s'.
Proof.
  intros Hp Hrv Hpl Ha0 Ha1 Hs Hc Hi Hm [_ Rm Rh Rt Rr Rw] Hn. pose proof (b_standard _ _ _ _ _ Hp) as Hst.
  destruct (s_size _ Hst) as [Hs0 Hs1]. pose proof (s_ncpus _ Hst) as Hnc. unfold MAX_CPUS in Hnc.
  pose proof (view_init p i) as V. rewrite <- Hc, Hrv in V.
  assert (forall a, ROM_BASE_ADDR <= a < ROM_BASE_ADDR + ROM_SIZE -> exists j pr, get_phys_mem_range (mem_map m) a = Some (j, pr) /\
            is_ram pr = true /\ host_ptr pr a = arena + ram_size p + (a - ROM_BASE_ADDR)) as Hrom.
  { intros a Ha. rewrite Rm. apply mapped_rom; (done || lia). }
  pose proof (fun j w => built_code arena p fw blob i0 i1 s (arena + ram_size p) j w Hp Hs Hm Rh) as Hcode.
  apply (interp_hands_over m (arena + ram_size p)); [lia|..|done|destruct (_ =? _); lia|].
  - rewrite Hc. by apply quiet_init.
  - rewrite Hc. apply rom_tlb_init.
  - by injection V.
  - intros start l s1 R V1. rewrite V in V1. destruct (Z.eqb_spec (ncpus p) 1) as [E|E].
    + assert (i = 0%nat) as -> by lia. rewrite E in Hcode.
      exact (boot_single m Rt Rr Rw (arena + ram_size p) ltac:(lia) Hrom _ start n l s1 _ _ _ (s_base _ Hst) Hcode R V1 Hn).
    + apply (boot_many m Rt Rr Rw (arena + ram_size p) ltac:(lia) Hrom (Z.to_nat (ncpus p)) _ _ start n l s1 ((1 << 30) + 3) 0 BOOT_BASE_ADDR
               (s_base _ Hst)); [apply Nat.eqb_neq; lia|unfold fits; lia|done..].
Qed.

End Machine.

(** The machine of [demo_params] with its only hart. *)
Definition demo_fw : list Z := [0x6f; 0; 0; 0].

Definition demo_blob : list Z :=
  default [] (riscv_build_fdt (params_fdt demo_params) None (cmdline demo_params) 0x803ff000 0x80400000).

Definition demo_built : boot_machine := built_machine demo_params 0x10000 demo_fw 0x803ff000 demo_blob.

Definition demo_hart : RISCVMachine unit :=
  (Mmu.demo_machine ((init_hart demo_params 0) <| debug_mode := true |>))
    <| mem_map := b_mem_map demo_built |> <| host := b_host demo_built |>.

Lemma demo_fdt : riscv_build_fdt (params_fdt demo_params) None (cmdline demo_params) 0x803ff000 0x80400000 = Some demo_blob.
Proof. unfold demo_blob. destruct (fdt_built (params_fdt demo_params) (cmdline demo_params) 0x803ff000 0x80400000) as [b ->]. done. Qed.

Lemma demo_bootable : bootable demo_params demo_fw demo_blob 0x803ff000 0x80400000.
Proof.
  constructor; [exact demo_standard|done|done|done|by apply are_bytes_closed|exact demo_fit|vm_compute; reflexivity|exact demo_fdt|].
  vm_compute. discriminate.
Qed.

