(* ===== verification/Pci.v ===== *)
(** * The PCI bus ([src/pci.cpp])

    Configuration space, base address registers, capabilities and interrupt routing
    of PCI devices, the i440FX host bridge, and the virtio devices on the bus
    ([virtio_init] with a PCI bus).

    The callbacks of a device ([bar_set]) and of the interrupt controller are the
    class [PciHost]; [bar_memory] is the instance whose callback is
    [virtio_pci_bar_set].  [None] is a failed [assert], an [abort], or a null pointer. *)

From S2P Require Import Prelude Iomem Cpu Virtio.

Definition PCI_ADDRESS_SPACE_MEM : Z := 0x00.
Definition PCI_ADDRESS_SPACE_IO : Z := 0x01.
Definition PCI_ROM_SLOT : nat := 6.
Definition PCI_NUM_REGIONS : nat := 7.
Definition PCI_COMMAND : Z := 0x04.
Definition PCI_COMMAND_IO : Z := 1.
Definition PCI_COMMAND_MEMORY : Z := 2.
Definition PCI_STATUS : Z := 0x06.
Definition PCI_STATUS_CAP_LIST : Z := 16.
Definition PCI_SUBSYSTEM_VENDOR_ID : Z := 0x2c.
Definition PCI_SUBSYSTEM_ID : Z := 0x2e.
Definition PCI_CAPABILITY_LIST : Z := 0x34.
Definition PCI_INTERRUPT_LINE : Z := 0x3c.
Definition PCI_INTERRUPT_PIN : Z := 0x3d.

(** [r_opaque] is what the callback is called with. *)
Record PCIIORegion := mkRegion { r_size : Z; r_type : Z; r_enabled : bool; r_opaque : nat }.

Definition region_eta (r : PCIIORegion) : PCIIORegion := mkRegion (r_size r) (r_type r) (r_enabled r) (r_opaque r).
#[export] Instance upd_r_enabled : Setter r_enabled := ltac:(setter_of region_eta).

Definition no_region : PCIIORegion := mkRegion 0 0 false 0.

Record PCIDevice := mkPCI {
  devfn : Z;
  config : list Z;
  next_cap_offset : Z;
  io_regions : list PCIIORegion;
}.

Definition pci_eta (d : PCIDevice) : PCIDevice := mkPCI (devfn d) (config d) (next_cap_offset d) (io_regions d).
#[export] Instance upd_config : Setter config := ltac:(setter_of pci_eta).
#[export] Instance upd_next_cap_offset : Setter next_cap_offset := ltac:(setter_of pci_eta).
#[export] Instance upd_io_regions : Setter io_regions := ltac:(setter_of pci_eta).

(** [irq_state] has a bit per device for each of the four lines. *)
Record PCIBus := mkBus {
  bus_num : Z;
  device : list (option PCIDevice);
  irq_state : list (list Z);
}.

Definition bus_eta (b : PCIBus) : PCIBus := mkBus (bus_num b) (device b) (irq_state b).
#[export] Instance upd_device : Setter device := ltac:(setter_of bus_eta).
#[export] Instance upd_irq_state : Setter irq_state := ltac:(setter_of bus_eta).

Class PciHost (H : Type) := {
  bar_set : nat -> nat -> Z -> bool -> H -> H;
  pic_set_irq : Z -> bool -> H -> H;
}.

(** ** Devices *)

Definition devfn_alloc (b : PCIBus) : option nat :=
  List.find (fun fn => match device b !! fn with Some (Some _) => false | _ => true end) ((fun i => 8 * i)%nat <$> seq 0 32).

Definition get_device (b : PCIBus) (fn : nat) : option PCIDevice := mjoin (device b !! fn).

Definition set_device (b : PCIBus) (fn : nat) (d : PCIDevice) : PCIBus := b <| device ::= <[fn := Some d]> |>.

Definition pci_device_set_config8 (d : PCIDevice) (addr v : Z) : PCIDevice :=
  d <| config ::= fun c => aset c (u8 addr) (u8 v) |>.

Definition pci_device_set_config16 (d : PCIDevice) (addr v : Z) : PCIDevice :=
  d <| config ::= fun c => put_le16 c (u8 addr) (u16 v) |>.

Definition new_pci_device (fn : nat) (vendor_id device_id revision class_id : Z) : PCIDevice :=
  let c := put_le16 (replicate 256 0) 0x00 vendor_id in
  let c := put_le16 c 0x02 device_id in
  let c := aset c 0x08 revision in
  let c := put_le16 c 0x0a class_id in
  let c := aset c 0x0e 0x00 in
  mkPCI (Z.of_nat fn) c 0x40 (replicate PCI_NUM_REGIONS no_region).

(** [devfn] is [None] to allocate it. *)
Definition pci_register_device (b : PCIBus) (fn : option nat) (vendor_id device_id revision class_id : Z) : option (nat * PCIBus) :=
  fn ← (match fn with Some fn => Some fn | None => devfn_alloc b end);
  match get_device b fn with
  | Some _ => None
  | None => Some (fn, set_device b fn (new_pci_device fn vendor_id device_id revision class_id))
  end.

(** The address of base address register [i] in configuration space. *)
Definition bar_offset (i : nat) : Z := if (i =? PCI_ROM_SLOT)%nat then 0x30 else 0x10 + Z.of_nat i * 4.

Definition pci_register_bar (d : PCIDevice) (bar_num : nat) (size type : Z) (opaque : nat) : option PCIDevice :=
  r ← io_regions d !! bar_num;
  if (size .& u32 (size - 1) =? 0) && (4 <=? size) && (r_size r =? 0) then
    Some (d <| io_regions ::= <[bar_num := mkRegion size (u8 type) false opaque]> |>
            <| config ::= fun c => put_le32 c (bar_offset bar_num) (if (bar_num =? PCI_ROM_SLOT)%nat then 0 else u8 type) |>)
  else None.

(** A capability, and its offset. *)
Definition pci_add_capability (d : PCIDevice) (buf : list Z) : option (Z * PCIDevice) :=
  let size := Z.of_nat (length buf) in
  let offset := next_cap_offset d in
  if 256 <? offset + size then None
  else
    let d := d <| next_cap_offset ::= fun o => u8 (o + size) |> in
    let d := d <| config ::= fun c => aset c PCI_STATUS (aget 0 c PCI_STATUS .| PCI_STATUS_CAP_LIST) |> in
    let d := d <| config ::= fun c => poke c offset buf |> in
    let d := d <| config ::= fun c => aset c (offset + 1) (aget 0 c PCI_CAPABILITY_LIST) |> in
    let d := d <| config ::= fun c => aset c PCI_CAPABILITY_LIST (u8 offset) |> in
    Some (offset, d).

(** ** Configuration accesses *)

Definition pci_device_config_read (d : PCIDevice) (addr size_log2 : Z) : option Z :=
  if size_log2 =? 0 then Some (get_le (config d) addr 1)
  else if size_log2 =? 1 then Some (if addr <=? 0xfe then get_le (config d) addr 2 else get_le (config d) addr 1)
  else if size_log2 =? 2 then Some (get_le (config d) addr 4)
  else None.

(** Whether region [i] is to be mapped, with the command register and its BAR. *)
Definition region_mapped (cmd bar : Z) (i : nat) (r : PCIIORegion) : bool :=
  if r_size r =? 0 then false
  else if has (r_type r) PCI_ADDRESS_SPACE_IO && has cmd PCI_COMMAND_IO then true
  else if has cmd PCI_COMMAND_MEMORY then (if (i =? PCI_ROM_SLOT)%nat then has bar 1 else true)
  else false.

(** Bytes of configuration space that a guest cannot write. *)
Definition read_only (header addr : Z) : bool :=
  (addr <=? 0x03) || ((0x08 <=? addr) && (addr <=? 0x0b)) || (addr =? 0x0e) || (addr =? 0x3d) ||
  (if (header =? 0x00) || (header =? 0x80)
   then ((0x10 <=? addr) && (addr <=? 0x27)) || ((0x30 <=? addr) && (addr <=? 0x33))
   else (0x38 <=? addr) && (addr <=? 0x3b)).

Definition pci_device_config_write8 (d : PCIDevice) (addr data : Z) : PCIDevice :=
  if (addr =? PCI_STATUS) || (addr =? PCI_STATUS + 1) then d <| config ::= fun c => aset c addr (aget 0 c addr .&~ data) |>
  else if read_only (aget 0 (config d) 0x0e) addr then d
  else d <| config ::= fun c => aset c addr data |>.

Fixpoint write_loop (d : PCIDevice) (addr data : Z) (i : Z) (n : nat) : PCIDevice :=
  match n with
  | O => d
  | S n =>
      let addr1 := addr + i in
      let d := if addr1 <=? 0xff then pci_device_config_write8 d addr1 ((data >> (i * 8)) .& 0xff) else d in
      write_loop d addr data (i + 1) n
  end.

(** The interrupt pin of a device on the bus. *)
Definition bus_map_irq (d : PCIDevice) (irq_num : Z) : Z := (irq_num + ((devfn d >> 3) - 1)) .& 3.

(** The line and its new level. *)
Definition pci_device_set_irq (b : PCIBus) (d : PCIDevice) (irq_num : Z) (level : bool) : Z * bool * PCIBus :=
  let irq_num := bus_map_irq d irq_num in
  let mask := u32 (1 << (devfn d .& 0x1f)) in
  let b := b <| irq_state ::= alter (fun l =>
             aset l (devfn d >> 5) (if level then aget 0 l (devfn d >> 5) .| mask else aget 0 l (devfn d >> 5) .&~ mask))
             (Z.to_nat irq_num) |> in
  let mask := foldr Z.lor 0 (take 8 (nth (Z.to_nat irq_num) (irq_state b) [])) in
  (irq_num, nz mask, b).

(** The i440FX host bridge; [piix3_dev] is a device of the bus. *)
Record I440FXState := mkI440 {
  pci_bus : PCIBus;
  piix3_dev : nat;
  config_reg : Z;
  pic_irq_state : list Z;
}.

Definition i440_eta (s : I440FXState) : I440FXState := mkI440 (pci_bus s) (piix3_dev s) (config_reg s) (pic_irq_state s).
#[export] Instance upd_pci_bus : Setter pci_bus := ltac:(setter_of i440_eta).
#[export] Instance upd_config_reg : Setter config_reg := ltac:(setter_of i440_eta).
#[export] Instance upd_pic_irq_state : Setter pic_irq_state := ltac:(setter_of i440_eta).

Section Host.
Context {H : Type} `{PciHost H}.

Fixpoint update_regions (cmd : Z) (c : list Z) (i : nat) (rs : list PCIIORegion) (h : H) : list PCIIORegion * H :=
  match rs with
  | [] => ([], h)
  | r :: rs =>
      let bar := get_le c (bar_offset i) 4 in
      let '(r, h) :=
        if region_mapped cmd bar i r then
          (r <| r_enabled := true |>, bar_set (r_opaque r) i (bar .&~ (r_size r - 1)) true h)
        else if r_enabled r then (r <| r_enabled := false |>, bar_set (r_opaque r) i 0 false h)
        else (r, h) in
      let '(rs, h) := update_regions cmd c (S i) rs h in
      (r :: rs, h)
  end.

Definition pci_update_mappings (d : PCIDevice) (h : H) : PCIDevice * H :=
  let '(rs, h) := update_regions (get_le (config d) PCI_COMMAND 2) (config d) 0 (io_regions d) h in
  (d <| io_regions := rs |>, h).

(** [None]: not handled. *)
Definition pci_write_bar (d : PCIDevice) (addr val : Z) (h : H) : option (PCIDevice * H) :=
  let reg := if addr =? 0x30 then PCI_ROM_SLOT else Z.to_nat ((addr - 0x10) >> 2) in
  let r := nth reg (io_regions d) no_region in
  if r_size r =? 0 then None
  else
    let keep := u32 (Z.lnot (r_size r - 1)) in
    let val := if (reg =? PCI_ROM_SLOT)%nat then val .& (keep .| 1) else (val .& keep) .| r_type r in
    Some (pci_update_mappings (d <| config ::= fun c => put_le32 c addr val |>) h).

Definition pci_device_config_write (d : PCIDevice) (addr data size_log2 : Z) (h : H) : PCIDevice * H :=
  let bytes :=
    let size := 1 << size_log2 in
    let d := write_loop d addr data 0 (Z.to_nat size) in
    if (addr <=? PCI_COMMAND) && (PCI_COMMAND <? addr + size) then pci_update_mappings d h else (d, h) in
  if (size_log2 =? 2) && (((0x10 <=? addr) && (addr <? 0x10 + 4 * 6)) || (addr =? 0x30)) then
    match pci_write_bar d addr data h with Some r => r | None => bytes end
  else bytes.

(** ** The bus *)

Definition pci_data_write (b : PCIBus) (addr data size_log2 : Z) (h : H) : PCIBus * H :=
  if negb ((addr >> 16) .& 0xff =? bus_num b) then (b, h)
  else
    let fn := Z.to_nat ((addr >> 8) .& 0xff) in
    match get_device b fn with
    | None => (b, h)
    | Some d => let '(d, h) := pci_device_config_write d (addr .& 0xff) data size_log2 h in (set_device b fn d, h)
    end.

Definition val_ones (size_log2 : Z) : Z := Z.ones (8 << size_log2).

Definition pci_data_read (b : PCIBus) (addr size_log2 : Z) : option Z :=
  if negb ((addr >> 16) .& 0xff =? bus_num b) then Some (val_ones size_log2)
  else
    match get_device b (Z.to_nat ((addr >> 8) .& 0xff)) with
    | None => Some (val_ones size_log2)
    | Some d => pci_device_config_read d (addr .& 0xff) size_log2
    end.

(** ** The host bridge *)

Definition i440fx_write_addr (s : I440FXState) (data : Z) : I440FXState := s <| config_reg := data |>.

Definition i440fx_read_addr (s : I440FXState) : Z := config_reg s.

Definition i440fx_write_data (s : I440FXState) (offset data size_log2 : Z) (h : H) : I440FXState * H :=
  if has (config_reg s) 0x80000000 then
    let addr := if size_log2 =? 2 then config_reg s .&~ 3 else config_reg s .| offset in
    let '(b, h) := pci_data_write (pci_bus s) addr data size_log2 h in (s <| pci_bus := b |>, h)
  else (s, h).

Definition i440fx_read_data (s : I440FXState) (offset size_log2 : Z) : option Z :=
  if negb (has (config_reg s) 0x80000000) then Some (val_ones size_log2)
  else pci_data_read (pci_bus s) (if size_log2 =? 2 then config_reg s .&~ 3 else config_reg s .| offset) size_log2.

(** A line of the bus, through the routing registers of the PIIX3. *)
Definition i440fx_set_irq (s : I440FXState) (irq_num : Z) (level : bool) (h : H) : I440FXState * H :=
  match get_device (pci_bus s) (piix3_dev s) with
  | None => (s, h)
  | Some hd =>
      let hd := hd <| config ::= fun c => aset c (0x60 + irq_num) (aget 0 c (0x60 + irq_num) .&~ 0x80) |> in
      let pic_irq := aget 0 (config hd) (0x60 + irq_num) in
      let s := s <| pci_bus := set_device (pci_bus s) (piix3_dev s) hd |> in
      if pic_irq <? 16 then
        let v := aget 0 (pic_irq_state s) pic_irq in
        let v := if level then v .| (1 << irq_num) else v .&~ (1 << irq_num) in
        (s <| pic_irq_state ::= fun l => aset l pic_irq v |>, pic_set_irq pic_irq (nz v) h)
      else (s, h)
  end.

(** The line of a device, through bus and bridge. *)
Definition i440fx_device_irq (s : I440FXState) (fn : nat) (irq_num : Z) (level : bool) (h : H) : I440FXState * H :=
  match get_device (pci_bus s) fn with
  | None => (s, h)
  | Some d =>
      let '(line, level, b) := pci_device_set_irq (pci_bus s) d irq_num level in
      i440fx_set_irq (s <| pci_bus := b |>) line level h
  end.
End Host.

Definition empty_bus : PCIBus := mkBus 0 (replicate 256 None) (replicate 4 (replicate 8 0)).

(** The handles of the two port ranges of the bridge. *)
Definition H_I440FX_ADDR : Z := 1.
Definition H_I440FX_DATA : Z := 2.

(** Also the port map with the ranges of the bridge. *)
Definition i440fx_init (port_map : PhysMemoryMap) : option (I440FXState * PhysMemoryMap) :=
  '(port_map, _) ← cpu_register_device port_map 0xcf8 1 H_I440FX_ADDR DEVIO_SIZE32;
  '(port_map, _) ← cpu_register_device port_map 0xcfc 4 H_I440FX_DATA (DEVIO_SIZE8 .| DEVIO_SIZE16 .| DEVIO_SIZE32);
  '(fn, b) ← pci_register_device empty_bus (Some 0%nat) 0x8086 0x1237 0x02 0x0600;
  d ← get_device b fn;
  let d := d <| config ::= fun c => put_le16 c PCI_SUBSYSTEM_VENDOR_ID 0x1af4 |> in
  let d := d <| config ::= fun c => put_le16 c PCI_SUBSYSTEM_ID 0x1100 |> in
  '(piix3, b) ← pci_register_device (set_device b fn d) (Some 8%nat) 0x8086 0x7000 0x00 0x0601;
  hd ← get_device b piix3;
  Some (mkI440 (set_device b piix3 (pci_device_set_config8 hd 0x0e 0x80)) piix3 0 (replicate 16 0), port_map).

Definition map_interrupt (hd : PCIDevice) (b : PCIBus) (fn : nat) : PCIBus :=
  match get_device b fn with
  | Some d =>
      if nz (aget 0 (config d) PCI_INTERRUPT_PIN) then
        let pic_irq := aget 0 (config hd) (0x60 + bus_map_irq d 0) in
        if pic_irq <? 16 then set_device b fn (d <| config ::= fun c => aset c PCI_INTERRUPT_LINE pic_irq |>) else b
      else b
  | None => b
  end.

(** [elcr] has two bytes, [pci_irqs] four. *)
Definition i440fx_map_interrupts (s : I440FXState) (pci_irqs : list Z) : option (I440FXState * list Z) :=
  hd ← get_device (pci_bus s) (piix3_dev s);
  let hd := hd <| config ::= fun c => poke c 0x60 (take 4 pci_irqs) |> in
  let elcr := foldl (fun l irq => aset l (irq >> 3) (u8 (aget 0 l (irq >> 3) .| (1 << (irq .& 7))))) [0; 0] (take 4 pci_irqs) in
  let b := set_device (pci_bus s) (piix3_dev s) hd in
  Some (s <| pci_bus := foldl (map_interrupt hd) b (seq 0 256) |>, elcr).

(** ** Virtio devices on the bus *)

(** The bytes of a capability of [virtio_add_pci_capability]. *)
Definition virtio_cap (cfg_type bar offset len mult : Z) : list Z :=
  let cap_len := if cfg_type =? 2 then 20 else 16 in
  let c := replicate (Z.to_nat cap_len) 0 in
  let c := aset c 0 0x09 in
  let c := aset c 2 cap_len in
  let c := aset c 3 (u8 cfg_type) in
  let c := aset c 4 (u8 bar) in
  let c := put_le32 c 8 offset in
  let c := put_le32 c 12 len in
  if cfg_type =? 2 then put_le32 c 16 mult else c.

(** A capability that does not fit is dropped. *)
Definition virtio_add_pci_capability (d : PCIDevice) (cfg_type bar offset len mult : Z) : PCIDevice :=
  match pci_add_capability d (virtio_cap cfg_type bar offset len mult) with Some (_, d) => d | None => d end.

(** PCI device and class numbers, by virtio device. *)
Definition virtio_pci_ids (device_id : Z) : option (Z * Z) :=
  if device_id =? 1 then Some (0x1000, 0x0200)
  else if device_id =? 2 then Some (0x1001, 0x0100)
  else if device_id =? 3 then Some (0x1003, 0x0780)
  else if device_id =? 9 then Some (0x1040 + device_id, 0x2)
  else if device_id =? 18 then Some (0x1040 + device_id, 0x0980)
  else None.

Definition VIRTIO_BAR : nat := 4.

(** The identity and the capabilities of a device. *)
Definition virtio_pci_setup (d : PCIDevice) (device_id : Z) : PCIDevice :=
  let d := pci_device_set_config16 d 0x2c 0x1af4 in
  let d := pci_device_set_config16 d 0x2e device_id in
  let d := pci_device_set_config8 d PCI_INTERRUPT_PIN 1 in
  let bar := Z.of_nat VIRTIO_BAR in
  let d := virtio_add_pci_capability d 1 bar VIRTIO_PCI_CFG_OFFSET 0x1000 0 in
  let d := virtio_add_pci_capability d 3 bar VIRTIO_PCI_ISR_OFFSET 0x1000 0 in
  let d := virtio_add_pci_capability d 4 bar VIRTIO_PCI_CONFIG_OFFSET 0x1000 0 in
  virtio_add_pci_capability d 2 bar VIRTIO_PCI_NOTIFY_OFFSET 0x1000 0.

(** Registration of virtio device [device_id], whose memory range has handle [handle]:
    the function number, the bus and the memory map. *)
Definition virtio_init_pci (b : PCIBus) (mem_map : PhysMemoryMap) (device_id handle : Z) : option (nat * PCIBus * PhysMemoryMap) :=
  '(pci_device_id, class_id) ← virtio_pci_ids device_id;
  '(fn, b) ← pci_register_device b None 0x1af4 pci_device_id 0x00 class_id;
  d ← get_device b fn;
  let d := virtio_pci_setup d device_id in
  let opaque := length mem_map in
  '(mem_map, _) ← cpu_register_device mem_map 0 0x4000 handle (DEVIO_SIZE8 .| DEVIO_SIZE16 .| DEVIO_SIZE32 .| DEVIO_DISABLED);
  d ← pci_register_bar d VIRTIO_BAR 0x4000 PCI_ADDRESS_SPACE_MEM opaque;
  Some (fn, set_device b fn d, mem_map).

(** The memory map as the host: [virtio_pci_bar_set] moves range [k].  The levels of
    the interrupt controller are recorded. *)
Record bar_memory := mkBarMem { bm_map : PhysMemoryMap; bm_irqs : list bool }.

Definition virtio_pci_bar_set (k : nat) (addr : Z) (enabled : bool) (m : PhysMemoryMap) : PhysMemoryMap :=
  alter (fun pr => (default_set_addr (fun _ _ => id) pr addr enabled tt).1) k m.

#[export] Instance bar_memory_host : PciHost bar_memory := {
  bar_set k _ addr enabled h := mkBarMem (virtio_pci_bar_set k addr enabled (bm_map h)) (bm_irqs h);
  pic_set_irq irq level h := mkBarMem (bm_map h) (<[Z.to_nat irq := level]> (bm_irqs h));
}.
