(* ===== verification/PciBars.v ===== *)
(** * PCI devices are mapped where their registers say

    Whatever a guest writes to the configuration ports, the memory range of every base
    address register is at the address in that register when the command register
    enables it, and nowhere when it does not ([pci_bars_follow_config]). *)

From S2P Require Import Prelude Iomem Cpu Virtio Virtqueue Pci.

(** ** Bytes of configuration space *)

(** Only the bytes at [a .. a + n - 1] matter. *)
Lemma get_le_ext c c' a n :
  0 <= a -> (forall i, a <= i < a + n -> c' !! Z.to_nat i = c !! Z.to_nat i) -> get_le c' a n = get_le c a n.
Proof.
  intros Ha Hc. unfold get_le, peek. f_equal. apply list_eq. intros i.
  destruct (decide (i < Z.to_nat n)%nat) as [Hi|Hi].
  - rewrite !lookup_take_lt, !lookup_drop by done. specialize (Hc (a + Z.of_nat i) ltac:(lia)).
    by replace (Z.to_nat (a + Z.of_nat i)) with (Z.to_nat a + i)%nat in Hc by lia.
  - by rewrite !lookup_take_ge by lia.
Qed.

Lemma lookup_aset_ne (c : list Z) a v i : 0 <= a -> 0 <= i -> i <> a -> aset c a v !! Z.to_nat i = c !! Z.to_nat i.
Proof. intros Ha Hi Hne. unfold aset. apply list_lookup_insert_ne. lia. Qed.

Lemma lookup_put_le32_ne c a v i : 0 <= a -> 0 <= i -> i < a \/ a + 4 <= i -> put_le32 c a v !! Z.to_nat i = c !! Z.to_nat i.
Proof.
  intros Ha Hi [Hlt|Hge]; unfold put_le32, poke; [apply list_lookup_inserts_lt|apply list_lookup_inserts_ge]; cbn; lia.
Qed.

Lemma low_byte_has x y v : fits 8 v -> has (x .| (y << 8)) v = has x v.
Proof.
  intros Hv. unfold has. rewrite Z.land_lor_distr_l.
  assert (Z.land (y << 8) v = 0) as ->; [|by rewrite Z.lor_0_r].
  apply Z.bits_inj'. intros i Hi. rewrite Z.land_spec, Z.shiftl_spec, Z.bits_0 by lia.
  destruct (Z.ltb_spec i 8); [by rewrite Z.testbit_neg_r by lia|].
  rewrite <- (trunc_small 8 v Hv), testbit_trunc by lia. destruct (Z.ltb_spec i 8); [lia|]. apply andb_false_r.
Qed.

(** The enable bits of the command register are in its first byte. *)
Lemma command_ext c c' v :
  (v = PCI_COMMAND_IO \/ v = PCI_COMMAND_MEMORY) -> c' !! 4%nat = c !! 4%nat -> (6 <= length c)%nat -> length c' = length c ->
  has (get_le c' PCI_COMMAND 2) v = has (get_le c PCI_COMMAND 2) v.
Proof.
  intros Hv H4 Hl Hl'.
  assert (forall c, (6 <= length c)%nat -> exists x y, c !! 4%nat = Some x /\ get_le c PCI_COMMAND 2 = x .| ((y .| 0) << 8)) as Hg.
  { intros l Hll. do 6 (destruct l as [|? l]; [cbn in Hll; lia|]). by eexists _, _. }
  destruct (Hg c Hl) as (x & y & Ex & ->), (Hg c') as (x' & y' & Ex' & ->); [lia|]. rewrite Ex, Ex' in H4. injection H4 as ->.
  rewrite !low_byte_has by (destruct Hv as [-> | ->]; unfold fits, PCI_COMMAND_IO, PCI_COMMAND_MEMORY; lia). done.
Qed.

(** ** One device *)

Definition command (c : list Z) : Z := get_le c PCI_COMMAND 2.
Definition bar (c : list Z) (i : nat) : Z := get_le c (bar_offset i) 4.

(** The range of region [r] can be moved: it is off when the region is. *)
Record region_pre (r : PCIIORegion) (m : PhysMemoryMap) : Prop := {
  p_none : r_size r = 0 -> r_enabled r = false;
  p_range : r_size r <> 0 -> exists pr, m !! r_opaque r = Some pr /\ org_size pr = r_size r /\
    (pr_size pr = 0 \/ pr_size pr = org_size pr) /\ (r_enabled r = false -> pr_size pr = 0);
}.

(** Region [i] is where configuration space [c] says. *)
Record region_ok (c : list Z) (i : nat) (r : PCIIORegion) (m : PhysMemoryMap) : Prop := {
  o_enabled : r_enabled r = region_mapped (command c) (bar c i) i r;
  o_range : r_size r <> 0 -> exists pr, m !! r_opaque r = Some pr /\ org_size pr = r_size r /\
    pr_size pr = (if r_enabled r then org_size pr else 0) /\ (r_enabled r = true -> pr_addr pr = bar c i .&~ (r_size r - 1));
}.

Lemma region_ok_pre c i r m : region_ok c i r m -> region_pre r m.
Proof.
  intros [He Hr]. split.
  - intros Hs. rewrite He. unfold region_mapped. by rewrite Hs.
  - intros Hs. destruct (Hr Hs) as (pr & Hp & Ho & Hz & _). exists pr. split; [done|]. split; [done|].
    destruct (r_enabled r); [by split; [right|]|]. split; [by left|done].
Qed.

(** What decides the mapping. *)
Lemma region_ok_ext c c' i r m :
  bar c' i = bar c i -> c' !! 4%nat = c !! 4%nat -> (6 <= length c)%nat -> length c' = length c ->
  region_ok c i r m -> region_ok c' i r m.
Proof.
  intros Hb H4 Hl Hl' [He Hr]. split; [|by rewrite Hb]. rewrite He, Hb. unfold region_mapped, command.
  by rewrite !(command_ext c c') by (done || by (left + right)).
Qed.

Lemma region_ok_map c i r m m' : (r_size r <> 0 -> m' !! r_opaque r = m !! r_opaque r) -> region_ok c i r m -> region_ok c i r m'.
Proof. intros Hm [He Hr]. split; [done|]. intros Hs. rewrite Hm by done. by apply Hr. Qed.

Lemma region_pre_map r m m' : (r_size r <> 0 -> m' !! r_opaque r = m !! r_opaque r) -> region_pre r m -> region_pre r m'.
Proof. intros Hm [He Hr]. split; [done|]. intros Hs. rewrite Hm by done. by apply Hr. Qed.

(** The memory ranges of a list of regions. *)
Definition ranges (rs : list PCIIORegion) : list nat := r_opaque <$> filter (fun r => r_size r <> 0) rs.

Lemma in_ranges rs r : r ∈ rs -> r_size r <> 0 -> r_opaque r ∈ ranges rs.
Proof. intros Hr Hs. apply list_elem_of_fmap. exists r. split; [done|]. by apply list_elem_of_filter. Qed.

(** One region of [pci_update_mappings]. *)
Definition update_region (cmd b : Z) (i : nat) (r : PCIIORegion) (h : bar_memory) : PCIIORegion * bar_memory :=
  if region_mapped cmd b i r then
    (r <| r_enabled := true |>, bar_set (r_opaque r) i (b .&~ (r_size r - 1)) true h)
  else if r_enabled r then (r <| r_enabled := false |>, bar_set (r_opaque r) i 0 false h)
  else (r, h).

Lemma update_region_ok c i r h :
  region_pre r (bm_map h) ->
  let '(r', h') := update_region (command c) (bar c i) i r h in
  region_ok c i r' (bm_map h') /\ r_size r' = r_size r /\ r_opaque r' = r_opaque r /\
  (forall k, (r_size r = 0 \/ k <> r_opaque r) -> bm_map h' !! k = bm_map h !! k).
Proof.
  intros [Hn Hr]. unfold update_region. destruct (region_mapped (command c) (bar c i) i r) eqn:Em.
  - assert (r_size r <> 0) as Hs by (intros E; unfold region_mapped in Em; by rewrite E in Em).
    destruct (Hr Hs) as (pr & Hp & Ho & Hz & _). split; [|split; [done|split; [done|]]].
    + split; [done|]. intros _. cbn. unfold virtio_pci_bar_set. rewrite list_lookup_alter_eq, Hp. eexists. split; [reflexivity|].
      unfold default_set_addr. destruct (Z.eqb_spec (pr_size pr) 0); [done|]. destruct (Z.eqb_spec (pr_addr pr) (bar c i .&~ (r_size r - 1))); [|done].
      cbn. split; [done|]. split; [by destruct Hz|done].
    + intros k [|Hk]; [done|]. cbn. unfold virtio_pci_bar_set. by rewrite list_lookup_alter_ne.
  - destruct (r_enabled r) eqn:Ee.
    + assert (r_size r <> 0) as Hs by (intros E; by specialize (Hn E)).
      destruct (Hr Hs) as (pr & Hp & Ho & Hz & _). split; [|split; [done|split; [done|]]].
      * split; [symmetry; exact Em|]. intros _. cbn. unfold virtio_pci_bar_set. rewrite list_lookup_alter_eq, Hp. eexists. split; [reflexivity|].
        unfold default_set_addr, nz. by destruct (Z.eqb_spec (pr_size pr) 0).
      * intros k [|Hk]; [done|]. cbn. unfold virtio_pci_bar_set. by rewrite list_lookup_alter_ne.
    + split; [|done]. split; [by rewrite Em|]. intros Hs. destruct (Hr Hs) as (pr & Hp & Ho & _ & Hz). exists pr. rewrite Ee. by rewrite (Hz eq_refl).
Qed.

Lemma update_regions_cons c i r rs h :
  update_regions (command c) c i (r :: rs) h =
  let '(r', h1) := update_region (command c) (bar c i) i r h in
  let '(rs', h2) := update_regions (command c) c (S i) rs h1 in (r' :: rs', h2).
Proof. reflexivity. Qed.

(** The loop over the regions, from region [i] on. *)
Lemma update_regions_ok c i rs h :
  NoDup (ranges rs) -> (forall r, r ∈ rs -> region_pre r (bm_map h)) ->
  let '(rs', h') := update_regions (command c) c i rs h in
  ranges rs' = ranges rs /\ length rs' = length rs /\
  (forall k, k ∉ ranges rs -> bm_map h' !! k = bm_map h !! k) /\
  (forall j r, rs' !! j = Some r -> region_ok c (i + j) r (bm_map h')).
Proof.
  revert i h. induction rs as [|r rs IH]; intros i h Hnd Hpre; [done|]. rewrite update_regions_cons.
  pose proof (update_region_ok c i r h (Hpre r ltac:(left))) as H1. destruct (update_region _ _ i r h) as [r' h1].
  destruct H1 as (Ho & Hs & Hq & Hout).
  assert (ranges (r :: rs) = (if decide (r_size r <> 0) then [r_opaque r] else []) ++ ranges rs) as Er
    by (unfold ranges; rewrite filter_cons; by destruct (decide _)).
  rewrite Er in Hnd. apply NoDup_app in Hnd as (_ & Hdis & Hnd).
  assert (forall k, k ∈ ranges rs -> bm_map h1 !! k = bm_map h !! k) as Hk.
  { intros k Hk. apply Hout. destruct (decide (r_size r <> 0)) as [E|E]; [right|left; lia].
    intros ->. by apply (Hdis (r_opaque r)); [left|]. }
  specialize (IH (S i) h1 Hnd). destruct (update_regions _ c (S i) rs h1) as [rs' h2].
  destruct IH as (R1 & R2 & R3 & R4).
  { intros q Hq'. apply (region_pre_map q (bm_map h)); [|apply Hpre; by right]. intros Hsq. by apply Hk, in_ranges. }
  split; [|split; [by cbn; rewrite R2|split]].
  - rewrite Er, <- R1. unfold ranges. rewrite filter_cons. rewrite Hs, <- Hq. by destruct (decide (r_size r <> 0)).
  - intros k Hk'. rewrite Er in Hk'. apply not_elem_of_app in Hk' as [Hk1 Hk2]. rewrite R3 by done. apply Hout.
    destruct (decide (r_size r <> 0)) as [E|E]; [right|left; lia]. intros ->. apply Hk1. by left.
  - intros [|j] q Hj; [|replace (i + S j)%nat with (S i + j)%nat by lia; by apply R4]. injection Hj as <-. rewrite Nat.add_0_r.
    apply (region_ok_map c i r' (bm_map h1)); [|done]. rewrite Hs, Hq. intros Hsr. apply R3. intros Hin.
    apply (Hdis (r_opaque r)); [|done]. rewrite decide_True by done. by left.
Qed.

(** A device: an ordinary header, and every region where it belongs. *)
Record device_ok (d : PCIDevice) (m : PhysMemoryMap) : Prop := {
  d_length : length (config d) = 256%nat;
  d_header : config d !! 14%nat = Some 0 \/ config d !! 14%nat = Some 0x80;
  d_regions : length (io_regions d) = PCI_NUM_REGIONS;
  d_distinct : NoDup (ranges (io_regions d));
  d_ok : forall i r, io_regions d !! i = Some r -> region_ok (config d) i r m;
}.

(** A device after an access: its regions are on the same ranges, no other range moved. *)
Record device_step (d : PCIDevice) (m : PhysMemoryMap) (d' : PCIDevice) (m' : PhysMemoryMap) : Prop := {
  t_ok : device_ok d' m';
  t_ranges : ranges (io_regions d') = ranges (io_regions d);
  t_other : forall k, k ∉ ranges (io_regions d) -> m' !! k = m !! k;
}.

Lemma update_mappings_ok d d1 h :
  device_ok d (bm_map h) -> length (config d1) = 256%nat -> config d1 !! 14%nat = config d !! 14%nat -> io_regions d1 = io_regions d ->
  let '(d', h') := pci_update_mappings d1 h in device_step d (bm_map h) d' (bm_map h').
Proof.
  intros [Hl Hh Hr Hd Ho] Hl' Hh' Hr'. unfold pci_update_mappings. rewrite Hr'.
  change (get_le (config d1) PCI_COMMAND 2) with (command (config d1)).
  pose proof (update_regions_ok (config d1) 0 (io_regions d) h Hd) as HU.
  destruct (update_regions _ (config d1) 0 (io_regions d) h) as [rs' h'].
  destruct HU as (R1 & R2 & R3 & R4).
  { intros r [i Hi]%list_elem_of_lookup. eapply region_ok_pre, Ho, Hi. }
  split; [|done|done]. split; cbn [upd upd_io_regions config io_regions]; [done|by rewrite Hh'|by rewrite R2|by rewrite R1|done].
Qed.

(** *** Bytes *)

Lemma header_read_only d a :
  (config d !! 14%nat = Some 0 \/ config d !! 14%nat = Some 0x80) -> 0 <= a ->
  (0x10 <= a <= 0x27 \/ 0x30 <= a <= 0x33 \/ a = 14) -> read_only (aget 0 (config d) 0x0e) a = true.
Proof.
  intros Hh Ha Hr. assert (aget 0 (config d) 0x0e = 0 \/ aget 0 (config d) 0x0e = 0x80) as He.
  { unfold aget. change (Z.to_nat 14) with 14%nat. rewrite nth_lookup. destruct Hh as [-> | ->]; [by left|by right]. }
  unfold read_only. assert ((aget 0 (config d) 14 =? 0) || (aget 0 (config d) 14 =? 128) = true) as -> by (destruct He as [-> | ->]; done).
  rewrite !orb_true_iff, !andb_true_iff, !Z.leb_le, !Z.eqb_eq. lia.
Qed.

(** What byte writes leave alone: the registers of the regions, the header type, the
    regions, and every byte they do not address. *)
Record bytes_step (d d' : PCIDevice) (lo hi : Z) : Prop := {
  y_length : length (config d') = length (config d);
  y_regions : io_regions d' = io_regions d;
  y_fixed : forall a, 0x10 <= a <= 0x27 \/ 0x30 <= a <= 0x33 \/ a = 14 \/ 0 <= a /\ (a < lo \/ hi <= a) ->
    config d' !! Z.to_nat a = config d !! Z.to_nat a;
}.

Lemma write8_step d a v :
  (config d !! 14%nat = Some 0 \/ config d !! 14%nat = Some 0x80) -> 0 <= a ->
  bytes_step d (pci_device_config_write8 d a v) a (a + 1).
Proof.
  intros Hh Ha. unfold pci_device_config_write8. destruct ((a =? PCI_STATUS) || (a =? PCI_STATUS + 1)) eqn:Es.
  - apply orb_true_iff in Es as Es'. rewrite !Z.eqb_eq in Es'. unfold PCI_STATUS in Es'.
    split; [apply length_insert|done|]. intros b Hb. cbn. apply lookup_aset_ne; lia.
  - destruct (read_only _ a) eqn:Er; [done|]. split; [apply length_insert|done|]. intros b Hb. cbn. apply lookup_aset_ne; [lia|lia|].
    intros ->. destruct Hb as [|[|[|]]]; [| | |lia]; rewrite header_read_only in Er by (done || lia); done.
Qed.

Lemma write_loop_step d a v i n :
  (config d !! 14%nat = Some 0 \/ config d !! 14%nat = Some 0x80) -> 0 <= a + i ->
  bytes_step d (write_loop d a v i n) (a + i) (a + i + Z.of_nat n).
Proof.
  revert d i. induction n as [|n IH]; intros d i Hh Ha; cbn [write_loop]; [done|].
  set (d1 := if a + i <=? 255 then _ else _).
  assert (bytes_step d d1 (a + i) (a + i + 1)) as [L1 R1 F1].
  { unfold d1. destruct (_ <=? _); [by apply write8_step|done]. }
  destruct (IH d1 (i + 1)) as [L2 R2 F2]; [|lia|].
  - specialize (F1 14 ltac:(lia)). change (Z.to_nat 14) with 14%nat in F1. by rewrite F1.
  - split; [congruence|congruence|]. intros b Hb. rewrite F2, F1 by lia. done.
Qed.

(** ** Accesses *)

Lemma bar_offset_range i : (i < PCI_NUM_REGIONS)%nat -> 0x10 <= bar_offset i <= 0x24 \/ bar_offset i = 0x30.
Proof. unfold bar_offset, PCI_NUM_REGIONS, PCI_ROM_SLOT. intros Hi. destruct (Nat.eqb_spec i 6); lia. Qed.

Lemma config_write_step d h a v size_log2 :
  device_ok d (bm_map h) -> 0 <= a < 256 -> (size_log2 = 0 \/ size_log2 = 1 \/ size_log2 = 2 /\ a mod 4 = 0) ->
  let '(d', h') := pci_device_config_write d a v size_log2 h in device_step d (bm_map h) d' (bm_map h').
Proof.
  intros Hd Ha Hs. unfold pci_device_config_write.
  set (size := 1 << size_log2). set (d1 := write_loop d a v 0 (Z.to_nat size)).
  assert (0 < size <= 4) as Hsz by (unfold size; destruct Hs as [-> |[-> |[-> _]]]; done).
  assert (let '(d', h') := if (a <=? PCI_COMMAND) && (PCI_COMMAND <? a + size) then pci_update_mappings d1 h else (d1, h) in
          device_step d (bm_map h) d' (bm_map h')) as Hbytes.
  { destruct (write_loop_step d a v 0 (Z.to_nat size)) as [L1 R1 F1]; [apply Hd|lia|]. fold d1 in L1, R1, F1. rewrite Z.add_0_r in F1.
    pose proof (F1 14 ltac:(lia)) as H14. change (Z.to_nat 14) with 14%nat in H14.
    destruct ((a <=? PCI_COMMAND) && (PCI_COMMAND <? a + size)) eqn:Ec.
    - apply update_mappings_ok; [done|by rewrite L1; apply Hd|done|done].
    - split; [|by rewrite R1|done]. destruct Hd as [Hl Hh Hr Hn Ho].
      split; rewrite ?R1, ?L1, ?H14; [done..|]. intros i r Hi. pose proof (lookup_lt_Some _ _ _ Hi) as Hi'. rewrite Hr in Hi'.
      apply (region_ok_ext (config d)); [| |lia|done|by apply Ho].
      + apply get_le_ext; [pose proof (bar_offset_range i Hi'); lia|]. intros j Hj. apply F1. pose proof (bar_offset_range i Hi'). lia.
      + apply (F1 4). unfold PCI_COMMAND in Ec. apply andb_false_iff in Ec. rewrite Z.leb_gt, Z.ltb_ge in Ec. lia. }
  destruct ((size_log2 =? 2) && _) eqn:Eb; [|exact Hbytes].
  destruct (pci_write_bar d a v h) as [[d' h']|] eqn:Ew; [|exact Hbytes]. clear Hbytes. unfold pci_write_bar in Ew.
  destruct (r_size _ =? 0); [done|]. injection Ew as Ew. rewrite !andb_true_iff, orb_true_iff, !andb_true_iff, Z.leb_le, Z.ltb_lt, !Z.eqb_eq in Eb.
  match type of Ew with pci_update_mappings ?d1 h = _ => pose proof (update_mappings_ok d d1 h Hd) as HU end. rewrite Ew in HU. apply HU; cbn [upd upd_config config io_regions].
  - unfold put_le32. rewrite length_poke. apply Hd.
  - apply (lookup_put_le32_ne _ a _ 14); lia.
  - done.
Qed.

(** The bus: no two regions share a memory range. *)
Record bus_ok (b : PCIBus) (m : PhysMemoryMap) : Prop := {
  u_devices : forall fn d, get_device b fn = Some d -> device_ok d m;
  u_distinct : forall fn fn' d d', get_device b fn = Some d -> get_device b fn' = Some d' -> fn <> fn' ->
    forall k, k ∈ ranges (io_regions d) -> k ∉ ranges (io_regions d');
}.

Lemma get_set_device b fn d fn' :
  is_Some (get_device b fn) -> get_device (set_device b fn d) fn' = if decide (fn' = fn) then Some d else get_device b fn'.
Proof.
  intros [d0 Hd]. unfold get_device, set_device in *. cbn. destruct (decide (fn' = fn)) as [->|Hn].
  - rewrite list_lookup_insert_eq; [done|]. destruct (device b !! fn) eqn:E; [|done]. by eapply lookup_lt_Some.
  - by rewrite list_lookup_insert_ne.
Qed.

Lemma data_write_ok b h a v size_log2 :
  bus_ok b (bm_map h) -> 0 <= a -> (size_log2 = 0 \/ size_log2 = 1 \/ size_log2 = 2 /\ a mod 4 = 0) ->
  let '(b', h') := pci_data_write b a v size_log2 h in bus_ok b' (bm_map h').
Proof.
  intros [Hu Hd] Ha Hs. unfold pci_data_write. destruct (negb _); [done|]. set (fn := Z.to_nat _).
  destruct (get_device b fn) as [d|] eqn:Eg; [|done].
  pose proof (config_write_step d h (a .& 0xff) v size_log2 (Hu fn d Eg)) as HW.
  destruct (pci_device_config_write d (a .& 0xff) v size_log2 h) as [d' h'].
  change 0xff with (Z.ones 8) in HW. rewrite Z.land_ones in HW by lia. change (2 ^ 8) with 256 in HW.
  destruct HW as [Ht Hr Ho]; [apply Z.mod_pos_bound; lia| |].
  { destruct Hs as [|[|[? E]]]; [by left|by right; left|right; right]. split; [done|].
    rewrite Z.mod_mod_divide by (by exists 64). done. }
  split.
  - intros fn' d1. rewrite get_set_device by done. destruct (decide (fn' = fn)) as [->|Hne]; [intros [= <-]; done|].
    intros H1. destruct (Hu fn' d1 H1) as [L1 L2 L3 L4 L5]. split; [done..|]. intros i r Hi. apply (region_ok_map _ _ _ (bm_map h)); [|by apply L5].
    intros Hsz. apply Ho. apply (Hd fn' fn d1 d); [done..|]. apply in_ranges; [|done]. by eapply list_elem_of_lookup_2.
  - intros f1 f2 d1 d2. rewrite !get_set_device by done.
    destruct (decide (f1 = fn)) as [->|N1], (decide (f2 = fn)) as [->|N2]; intros H1 H2 Hne; try done.
    + injection H1 as <-. rewrite Hr. by apply (Hd fn f2).
    + injection H2 as <-. rewrite Hr. by apply (Hd f1 fn).
    + by apply (Hd f1 f2).
Qed.

(** ** Registration *)

Lemma find_free b fn : devfn_alloc b = Some fn -> get_device b fn = None.
Proof.
  unfold devfn_alloc, get_device. intros Hf. apply List.find_some in Hf as [_ Hf]. destruct (device b !! fn) as [[d|]|]; done.
Qed.

Lemma get_new_device b fn d d' : get_device b fn = None -> get_device (set_device b fn d) fn = Some d' -> d' = d.
Proof.
  unfold get_device, set_device, upd, upd_device. cbn [device]. intros Hn Hd.
  destruct (decide (fn < length (device b))%nat); [rewrite list_lookup_insert_eq in Hd by done; cbn in Hd; congruence|].
  rewrite list_insert_ge in Hd by lia. congruence.
Qed.

(** A device added at a free number. *)
Lemma add_device_ok b m m' fn d :
  bus_ok b m -> get_device b fn = None -> (forall k pr, m !! k = Some pr -> m' !! k = Some pr) -> device_ok d m' ->
  (forall k, k ∈ ranges (io_regions d) -> m !! k = None) -> bus_ok (set_device b fn d) m'.
Proof.
  intros [Hu Hd] Hg Hm Hok Hfresh.
  assert (forall fn' d', get_device (set_device b fn d) fn' = Some d' -> (fn' = fn /\ d' = d) \/ (fn' <> fn /\ get_device b fn' = Some d')) as Hcase.
  { intros fn' d' Hg'. unfold get_device, set_device in *. cbn in Hg'. destruct (decide (fn' = fn)) as [->|]; [left|by right; rewrite list_lookup_insert_ne in Hg'].
    split; [done|]. destruct (decide (fn < length (device b))%nat); [rewrite list_lookup_insert_eq in Hg' by done; cbn in Hg'; congruence|].
    by rewrite list_insert_ge, Hg in Hg' by lia. }
  assert (forall fn' d' k, get_device b fn' = Some d' -> k ∈ ranges (io_regions d') -> is_Some (m !! k)) as Hin.
  { intros fn' d' k Hg' Hk. apply list_elem_of_fmap in Hk as (r & -> & [Hs [i Hi]%list_elem_of_lookup]%list_elem_of_filter).
    destruct (o_range _ _ _ _ (d_ok _ _ (Hu _ _ Hg') i r Hi) Hs) as (pr & Hp & _). by eexists. }
  split.
  - intros fn' d' [[-> ->]|[Hne H1]]%Hcase; [done|]. destruct (Hu _ _ H1) as [L1 L2 L3 L4 L5]. split; [done..|].
    intros i r Hi. apply (region_ok_map _ _ _ m); [|by apply L5]. intros Hs.
    destruct (o_range _ _ _ _ (L5 i r Hi) Hs) as (pr & Hp & _). by rewrite Hp, (Hm _ _ Hp).
  - intros f1 f2 d1 d2 [[-> ->]|[N1 H1]]%Hcase [[-> ->]|[N2 H2]]%Hcase Hne k Hk Hk2; try done.
    + destruct (Hin _ _ _ H2 Hk2) as [pr Hp]. by rewrite (Hfresh k Hk) in Hp.
    + destruct (Hin _ _ _ H1 Hk) as [pr Hp]. by rewrite (Hfresh k Hk2) in Hp.
    + by apply (Hd f1 f2 d1 d2 H1 H2 Hne k).
Qed.

Lemma empty_bus_ok m : bus_ok empty_bus m.
Proof.
  assert (forall fn d, get_device empty_bus fn = Some d -> False) as Hn.
  { intros fn d. unfold get_device, empty_bus. cbn [device]. destruct (replicate 256 (@None PCIDevice) !! fn) as [o|] eqn:E; [|done].
    apply lookup_replicate in E as [-> _]. done. }
  split; [intros ?? []%Hn|intros ???? []%Hn].
Qed.

(** A device without regions. *)
Lemma plain_device_ok d m :
  length (config d) = 256%nat -> (config d !! 14%nat = Some 0 \/ config d !! 14%nat = Some 0x80) ->
  io_regions d = replicate PCI_NUM_REGIONS no_region -> device_ok d m.
Proof.
  intros Hl Hh Hr. split; rewrite ?Hr; [done|done|done|by apply NoDup_nil|].
  intros i r [-> _]%lookup_replicate. by split.
Qed.

Lemma set_device_twice b fn d d' : set_device (set_device b fn d) fn d' = set_device b fn d'.
Proof. unfold set_device, upd, upd_device. cbn [device bus_num irq_state]. by rewrite list_insert_insert_eq. Qed.

Lemma add_plain_device b m fn d :
  bus_ok b m -> get_device b fn = None -> device_ok d m -> ranges (io_regions d) = [] -> bus_ok (set_device b fn d) m.
Proof. intros Hb Hg Hd Hr. apply (add_device_ok b m); [done..|]. intros k Hk. rewrite Hr in Hk. by apply elem_of_nil in Hk. Qed.

Lemma i440fx_init_ok port_map s port_map' m : i440fx_init port_map = Some (s, port_map') -> bus_ok (pci_bus s) m /\ config_reg s = 0.
Proof.
  unfold i440fx_init. destruct (cpu_register_device port_map _ _ _ _) as [[p1 ?]|]; [|done]. cbn [mbind option_bind].
  destruct (cpu_register_device p1 _ _ _ _) as [[p2 ?]|]; [|done]. cbn [mbind option_bind]. intros [= <- _]. split; [|done].
  cbn [pci_bus]. rewrite !set_device_twice. apply add_plain_device; [|done| |vm_compute; reflexivity].
  - apply add_plain_device; [apply empty_bus_ok|done| |vm_compute; reflexivity].
    apply plain_device_ok; [vm_compute; reflexivity|left; vm_compute; reflexivity|reflexivity].
  - apply plain_device_ok; [vm_compute; reflexivity|right; vm_compute; reflexivity|reflexivity].
Qed.

Lemma setup_regions d device_id : io_regions (virtio_pci_setup d device_id) = io_regions d.
Proof.
  assert (forall d t b o l u, io_regions (virtio_add_pci_capability d t b o l u) = io_regions d) as Ha.
  { intros. unfold virtio_add_pci_capability, pci_add_capability. by destruct (256 <? _). }
  unfold virtio_pci_setup. by rewrite !Ha.
Qed.

(** The configuration space of a virtio device: an ordinary header, and off. *)
Lemma setup_config fn device_id pci_id class_id :
  virtio_pci_ids device_id = Some (pci_id, class_id) ->
  let c := put_le32 (config (virtio_pci_setup (new_pci_device fn 0x1af4 pci_id 0 class_id) device_id)) (bar_offset VIRTIO_BAR) 0 in
  length c = 256%nat /\ c !! 14%nat = Some 0 /\ command c = 0.
Proof.
  unfold virtio_pci_ids. intros Hid.
  do 5 (match type of Hid with (if device_id =? ?n then _ else _) = _ => destruct (Z.eqb_spec device_id n) as [->|_] end;
        [injection Hid as <- <-; vm_compute; split_and!; reflexivity|]). done.
Qed.

(** A region registered for range [k]. *)
Lemma register_bar_fields d0 n size type k d :
  io_regions d0 = replicate PCI_NUM_REGIONS no_region -> pci_register_bar d0 n size type k = Some d ->
  io_regions d = <[n := mkRegion size (u8 type) false k]> (replicate PCI_NUM_REGIONS no_region) /\
  config d = put_le32 (config d0) (bar_offset n) (if (n =? PCI_ROM_SLOT)%nat then 0 else u8 type).
Proof.
  unfold pci_register_bar. intros Hr. destruct (_ !! n) as [r|]; [|done]. cbn [mbind option_bind].
  destruct (_ && _); [|done]. intros [= <-]. unfold upd, upd_config, upd_io_regions. cbn [config io_regions]. by rewrite Hr.
Qed.

(** A device that has one region, with its range at [k], and is off. *)
Lemma one_region_ok d n size type k m pr :
  io_regions d = <[n := mkRegion size type false k]> (replicate PCI_NUM_REGIONS no_region) -> (n < PCI_NUM_REGIONS)%nat -> size <> 0 ->
  length (config d) = 256%nat -> config d !! 14%nat = Some 0 -> command (config d) = 0 ->
  m !! k = Some pr -> pr_size pr = 0 -> org_size pr = size -> device_ok d m /\ ranges (io_regions d) = [k].
Proof.
  intros Hr Hn Hz Hl Hh Hc Hk Hs Hg.
  assert (ranges (io_regions d) = [k]) as Hrs.
  { rewrite Hr. unfold PCI_NUM_REGIONS in Hn. unfold ranges.
    do 7 (destruct n as [|n]; [cbn [replicate PCI_NUM_REGIONS insert list_insert]; rewrite ?filter_cons; cbn [r_size no_region];
      rewrite (decide_True _ _ Hz), ?decide_False by (intros []; done); reflexivity|]). lia. }
  split; [|done]. split; [done|by left|rewrite Hr; by rewrite length_insert|rewrite Hrs; apply NoDup_singleton|].
  intros i r. rewrite Hr. intros Hi. apply list_lookup_insert_Some in Hi as [(-> & <- & _)|(_ & [-> _]%lookup_replicate)]; [|by split].
  split; [|intros _; by exists pr]. unfold region_mapped. rewrite Hc. cbn [r_size r_type r_enabled].
  destruct (size =? 0); [done|]. by rewrite andb_false_r.
Qed.

(** A virtio device is off when it is registered. *)
Lemma virtio_init_pci_ok b m device_id handle fn b' m' :
  bus_ok b m -> virtio_init_pci b m device_id handle = Some (fn, b', m') -> bus_ok b' m'.
Proof.
  intros Hb. unfold virtio_init_pci. destruct (virtio_pci_ids device_id) as [[pci_id class_id]|] eqn:Ei; [|done]. cbn [mbind option_bind].
  unfold pci_register_device. destruct (devfn_alloc b) as [fn0|] eqn:Ef; [|done]. cbn [mbind option_bind].
  pose proof (find_free _ _ Ef) as Hfree. rewrite Hfree. cbn [mbind option_bind].
  destruct (setup_config fn0 device_id pci_id class_id Ei) as (H1 & H2 & H3).
  pose proof (setup_regions (new_pci_device fn0 0x1af4 pci_id 0 class_id) device_id) as Hr.
  change (io_regions (new_pci_device fn0 0x1af4 pci_id 0 class_id)) with (replicate PCI_NUM_REGIONS no_region) in Hr.
  destruct (get_device (set_device b fn0 _) fn0) as [d|] eqn:Eg; [|done]. cbn [mbind option_bind].
  apply get_new_device in Eg as ->; [|done]. generalize dependent (new_pci_device fn0 0x1af4 pci_id 0 class_id). intros d0 H1 H2 H3 Hr.
  generalize dependent (virtio_pci_setup d0 device_id). intros d1 H1 H2 H3 Hr.
  unfold cpu_register_device. destruct (bool_decide _ && _); [|done]. cbn [mbind option_bind].
  destruct (pci_register_bar _ _ _ _ _) as [d|] eqn:Ed; [|done]. cbn [mbind option_bind]. intros [= <- <- <-]. rewrite set_device_twice.
  apply register_bar_fields in Ed as [Er Ec]; [|done]. set (pr := mkRange _ _ _ _ _ _ _ _ _ _ _).
  destruct (one_region_ok d VIRTIO_BAR 0x4000 0 (length m) (m ++ [pr]) pr) as [Hok Hrs];
    [done|unfold VIRTIO_BAR, PCI_NUM_REGIONS; lia|done|by rewrite Ec..|by rewrite lookup_app_r, Nat.sub_diag by lia|done|done|].
  apply (add_device_ok b m); [done|done| |done|].
  - intros k q Hq. by apply lookup_app_l_Some.
  - intros k Hk. rewrite Hrs in Hk. apply list_elem_of_singleton in Hk as ->. by apply lookup_ge_None_2.
Qed.

(** The virtio devices of a machine, in order. *)
Fixpoint add_devices (b : PCIBus) (m : PhysMemoryMap) (ids : list (Z * Z)) : option (PCIBus * PhysMemoryMap) :=
  match ids with
  | [] => Some (b, m)
  | (device_id, handle) :: ids => '(_, b, m) ← virtio_init_pci b m device_id handle; add_devices b m ids
  end.

Lemma add_devices_ok b m ids b' m' : bus_ok b m -> add_devices b m ids = Some (b', m') -> bus_ok b' m'.
Proof.
  revert b m. induction ids as [|[device_id handle] ids IH]; intros b m Hb; cbn [add_devices]; [by intros [= <- <-]|].
  destruct (virtio_init_pci b m device_id handle) as [[[fn b1] m1]|] eqn:E; [|done]. cbn [mbind option_bind].
  apply IH. by apply (virtio_init_pci_ok b m device_id handle fn).
Qed.

(** What a guest does at ports 0xcf8 and 0xcfc. *)
Inductive port_op :=
  | WriteAddr (data : Z)
  | WriteData (offset data size_log2 : Z).

Definition port_op_ok (op : port_op) : Prop :=
  match op with
  | WriteAddr data => fits 32 data
  | WriteData offset _ size_log2 => 0 <= offset < 4 /\ (size_log2 = 0 \/ size_log2 = 1 \/ size_log2 = 2)
  end.

Definition port_step (sh : I440FXState * bar_memory) (op : port_op) : I440FXState * bar_memory :=
  match op with
  | WriteAddr data => (i440fx_write_addr sh.1 data, sh.2)
  | WriteData offset data size_log2 => i440fx_write_data sh.1 offset data size_log2 sh.2
  end.

Lemma port_step_ok sh op :
  port_op_ok op -> bus_ok (pci_bus sh.1) (bm_map sh.2) /\ 0 <= config_reg sh.1 ->
  bus_ok (pci_bus (port_step sh op).1) (bm_map (port_step sh op).2) /\ 0 <= config_reg (port_step sh op).1.
Proof.
  destruct sh as [s h]. intros Hop [Hb Hc]. destruct op as [data|offset data sz]; cbn [port_step fst snd] in *.
  - split; [exact Hb|]. apply Hop.
  - unfold i440fx_write_data. destruct (has _ _); [|by split]. set (a := if sz =? 2 then _ else _).
    assert (0 <= a /\ (sz = 0 \/ sz = 1 \/ sz = 2 /\ a mod 4 = 0)) as [Ha Hs].
    { destruct Hop as [Ho Hz]. unfold a. destruct (Z.eqb_spec sz 2) as [->|Hne].
      - split; [rewrite Z.ldiff_land; apply Z.land_nonneg; by left|]. right. right. split; [done|].
        change 4 with (2 ^ 2). rewrite <- Z.land_ones by lia. apply Z.bits_inj'. intros i Hi.
        rewrite Z.land_spec, Z.bits_0. change 3 with (Z.ones 2). rewrite Z.ldiff_spec. by destruct (Z.testbit (Z.ones 2) i); rewrite ?andb_false_r.
      - split; [apply Z.lor_nonneg; lia|]. lia. }
    clearbody a. pose proof (data_write_ok (pci_bus s) h a data sz Hb Ha Hs) as HW.
    destruct (pci_data_write (pci_bus s) a data sz h) as [b' h']. by split.
Qed.

Lemma port_steps_ok ops sh :
  Forall port_op_ok ops -> bus_ok (pci_bus sh.1) (bm_map sh.2) /\ 0 <= config_reg sh.1 ->
  bus_ok (pci_bus (foldl port_step sh ops).1) (bm_map (foldl port_step sh ops).2).
Proof.
  revert sh. induction ops as [|op ops IH]; intros sh Hops Hsh; [apply Hsh|]. apply Forall_cons in Hops as [Ho Hops].
  cbn [foldl]. apply IH; [done|]. by apply port_step_ok.
Qed.

(** When region [i] decodes accesses, by the PCI command register. *)
Definition decodes (c : list Z) (i : nat) (type : Z) : Prop :=
  (has (command c) PCI_COMMAND_MEMORY = true /\ (i = PCI_ROM_SLOT -> has (bar c i) 1 = true)) \/
  (has type PCI_ADDRESS_SPACE_IO = true /\ has (command c) PCI_COMMAND_IO = true).

Lemma region_mapped_decodes c i r : r_size r <> 0 -> region_mapped (command c) (bar c i) i r = true <-> decodes c i (r_type r).
Proof.
  intros Hs. unfold region_mapped, decodes. destruct (Z.eqb_spec (r_size r) 0); [done|].
  destruct (has (r_type r) _), (has (command c) PCI_COMMAND_IO), (has (command c) PCI_COMMAND_MEMORY), (Nat.eqb_spec i PCI_ROM_SLOT); cbn; intuition congruence.
Qed.

(** C26 Whatever a guest writes to the ports of the host bridge, in any order and with
    any access size, the memory range of every base address register of every virtio
    device on the bus has its full size and is at the address that is in the register,
    aligned to that size, as long as the command register of the device enables it, and
    is off otherwise. *)
Theorem pci_bars_follow_config port_map m ids s port_map' b m' irqs ops s' h' fn d i r :
  i440fx_init port_map = Some (s, port_map') -> add_devices (pci_bus s) m ids = Some (b, m') -> Forall port_op_ok ops ->
  foldl port_step (s <| pci_bus := b |>, mkBarMem m' irqs) ops = (s', h') ->
  get_device (pci_bus s') fn = Some d -> io_regions d !! i = Some r -> r_size r <> 0 ->
  exists pr, bm_map h' !! r_opaque r = Some pr /\
    (decodes (config d) i (r_type r) -> pr_size pr = r_size r /\ pr_addr pr = bar (config d) i .&~ (r_size r - 1)) /\
    (~ decodes (config d) i (r_type r) -> pr_size pr = 0).
Proof.
  intros Hi Ha Hops Hf Hg Hr Hs. destruct (i440fx_init_ok _ _ _ m Hi) as [Hb Hc].
  pose proof (port_steps_ok ops (s <| pci_bus := b |>, mkBarMem m' irqs) Hops) as Hok. rewrite Hf in Hok.
  destruct Hok as [Hu _]; [split; [by apply (add_devices_ok _ m ids _ _ Hb)|by cbn; rewrite Hc]|].
  destruct (d_ok _ _ (Hu fn d Hg) i r Hr) as [He Hrange]. destruct (Hrange Hs) as (pr & Hp & Ho & Hz & Haddr). exists pr.
  pose proof (region_mapped_decodes (config d) i r Hs) as Hd. rewrite <- He in Hd. rewrite Hz, Ho, <- Hd.
  split; [done|]. split; [intros E; rewrite E; by split; [|apply Haddr]|]. by destruct (r_enabled r).
Qed.

(** A bridge with a block device, whose range a guest maps at 0x40010000. *)
Definition bridge0 : I440FXState * PhysMemoryMap := default (mkI440 empty_bus 0 0 [], []) (i440fx_init []).
Definition devices0 : PCIBus * PhysMemoryMap := default (empty_bus, []) (add_devices (pci_bus bridge0.1) [] [(2, 1)]).
Definition ops0 : list port_op :=
  [WriteAddr 0x80001020; WriteData 0 0x40010abc 2; WriteAddr 0x80001004; WriteData 0 PCI_COMMAND_MEMORY 1].
Definition guest0 : I440FXState * bar_memory :=
  foldl port_step (bridge0.1 <| pci_bus := devices0.1 |>, mkBarMem devices0.2 []) ops0.
Definition device0 : PCIDevice := default (new_pci_device 0 0 0 0 0) (get_device (pci_bus guest0.1) 16).
Definition region0 : PCIIORegion := nth VIRTIO_BAR (io_regions device0) no_region.

Lemma pci_bars_follow_config_witness :
  exists pr, bm_map guest0.2 !! r_opaque region0 = Some pr /\ pr_size pr = 0x4000 /\ pr_addr pr = 0x40010000.
Proof.
  destruct (pci_bars_follow_config [] [] [(2, 1)] bridge0.1 bridge0.2 devices0.1 devices0.2 [] ops0 guest0.1 guest0.2 16 device0 VIRTIO_BAR region0)
    as (pr & Hp & Hon & _).
  - vm_compute. reflexivity.
  - vm_compute. reflexivity.
  - repeat constructor; unfold fits; lia.
  - vm_compute. reflexivity.
  - vm_compute. reflexivity.
  - vm_compute. reflexivity.
  - vm_compute. discriminate.
  - exists pr. split; [exact Hp|]. destruct Hon as [Hz Ha].
    + left. split; [vm_compute; reflexivity|]. discriminate.
    + rewrite Hz, Ha. split; vm_compute; reflexivity.
Defined.

(** ** Defects *)

(** The memory bit of the command register enables a region in I/O space too. *)
Lemma memory_bit_enables_io_region size i r :
  r_size r = size -> size <> 0 -> r_type r = PCI_ADDRESS_SPACE_IO -> i <> PCI_ROM_SLOT -> region_mapped PCI_COMMAND_MEMORY 0 i r = true.
Proof.
  intros Hr Hs Ht Hi. unfold region_mapped. rewrite Hr, Ht. destruct (Z.eqb_spec size 0); [done|].
  cbn. by destruct (Nat.eqb_spec i PCI_ROM_SLOT).
Qed.

(** A capability that ends at 256 makes the next one overwrite the identity. *)
Lemma capability_offset_wraps d buf o d' :
  next_cap_offset d + Z.of_nat (length buf) = 256 -> pci_add_capability d buf = Some (o, d') -> next_cap_offset d' = 0.
Proof.
  unfold pci_add_capability. intros Hn. rewrite Hn. change (256 <? 256) with false. cbv zeta iota. intros [= _ <-].
  unfold upd, upd_next_cap_offset, upd_config. cbn [next_cap_offset]. by rewrite Hn.
Qed.
