(* ===== verification/P9.v ===== *)
(** * The 9p file system device ([src/virtio.cpp], [include/fs.h])

    The device forwards the requests of the 9P2000.L protocol to a file system, the
    class [FSDevice].  A file of the file system is a pointer, a [Z]; the device keeps
    the table of the files its client has named by fids.

    [malloc n] is the contents of a fresh buffer of [n] bytes, or of an uninitialised
    local of that size. *)

From S2P Require Import Prelude Iomem Cpu Virtio VirtioDev Json.
From Stdlib Require String.
Import String.StringSyntax.

Definition P9_EPROTO : Z := 71.
Definition P9_ENOTSUP : Z := 524.

Record FSStatFS := mkStatFS {
  f_bsize : Z; f_blocks : Z; f_bfree : Z; f_bavail : Z; f_files : Z; f_ffree : Z }.

Record FSQID := mkQID { q_type : Z; q_version : Z; q_path : Z }.

Record FSStat := mkStat {
  st_qid : FSQID; st_mode : Z; st_uid : Z; st_gid : Z; st_nlink : Z; st_rdev : Z; st_size : Z; st_blksize : Z;
  st_blocks : Z; st_atime_sec : Z; st_atime_nsec : Z; st_mtime_sec : Z; st_mtime_nsec : Z; st_ctime_sec : Z; st_ctime_nsec : Z }.

Record FSLock := mkLock {
  lk_type : Z; lk_flags : Z; lk_start : Z; lk_length : Z; lk_proc_id : Z; lk_client_id : text }.

(** The operations of a file system, as functions of its state.  The first component
    of a result is the [int] returned, the others are what it stores through pointers,
    of no meaning when it fails.  [fs_open] with a positive result announces a call of
    [virtio_9p_open_cb]. *)
Class FSDevice (F : Type) := {
  fs_delete : F -> Z -> F;
  fs_statfs : F -> FSStatFS * F;
  fs_attach : F -> Z -> text -> text -> Z * Z * FSQID * F;
  fs_walk : F -> Z -> list text -> Z * Z * list FSQID * F;
  fs_mkdir : F -> Z -> text -> Z -> Z -> Z * FSQID * F;
  fs_open : F -> Z -> Z -> Z * FSQID * F;
  fs_create : F -> Z -> text -> Z -> Z -> Z -> Z * FSQID * F;
  fs_stat : F -> Z -> Z * FSStat * F;
  fs_setattr : F -> Z -> Z -> Z -> Z -> Z -> Z -> Z -> Z -> Z -> Z -> Z * F;
  fs_readdir : F -> Z -> Z -> Z -> Z * list Z * F;
  fs_read : F -> Z -> Z -> Z -> Z * list Z * F;
  fs_write : F -> Z -> Z -> list Z -> Z -> Z * F;
  fs_link : F -> Z -> Z -> text -> Z * F;
  fs_symlink : F -> Z -> text -> text -> Z -> Z * FSQID * F;
  fs_mknod : F -> Z -> text -> Z -> Z -> Z -> Z -> Z * FSQID * F;
  fs_readlink : F -> Z -> Z -> Z * text * F;
  fs_renameat : F -> Z -> text -> Z -> text -> Z * F;
  fs_unlinkat : F -> Z -> text -> Z * F;
  fs_lock : F -> Z -> FSLock -> Z * F;
  fs_getlock : F -> Z -> FSLock -> Z * FSLock * F;
}.

(** [fid_list] has pairs of a fid and a file. *)
Record VIRTIO9PDevice (F : Type) := mkP9 {
  p9_fs : F;
  msize : Z;
  fid_list : list (Z * Z);
  p9_in_progress : bool }.
Arguments mkP9 {F}.
Arguments p9_fs {F}.
Arguments msize {F}.
Arguments fid_list {F}.
Arguments p9_in_progress {F}.

#[export] Instance upd_p9_fs {F} : Setter (@p9_fs F) := fun f x => mkP9 (f (p9_fs x)) (msize x) (fid_list x) (p9_in_progress x).
#[export] Instance upd_msize {F} : Setter (@msize F) := fun f x => mkP9 (p9_fs x) (f (msize x)) (fid_list x) (p9_in_progress x).
#[export] Instance upd_fid_list {F} : Setter (@fid_list F) := fun f x => mkP9 (p9_fs x) (msize x) (f (fid_list x)) (p9_in_progress x).
#[export] Instance upd_p9_in_progress {F} : Setter (@p9_in_progress F) := fun f x => mkP9 (p9_fs x) (msize x) (fid_list x) (f (p9_in_progress x)).

(** ** The table of fids *)

Section Fids.
Context {F : Type} `{FSDevice F}.
Implicit Types x : VIRTIO9PDevice F.

Definition fid_find (x : VIRTIO9PDevice F) (fid : Z) : option Z := snd <$> List.find (fun e => e.1 =? fid) (fid_list x).

(** The list without the first entry of [fid]. *)
Fixpoint list_del (fid : Z) (l : list (Z * Z)) : list (Z * Z) :=
  match l with
  | [] => []
  | e :: l => if e.1 =? fid then l else e :: list_del fid l
  end.

Fixpoint list_put (fid fd : Z) (l : list (Z * Z)) : list (Z * Z) :=
  match l with
  | [] => []
  | e :: l => if e.1 =? fid then (fid, fd) :: l else e :: list_put fid fd l
  end.

Definition fid_delete x (fid : Z) : VIRTIO9PDevice F :=
  match fid_find x fid with
  | Some fd => x <| p9_fs ::= fun fs => fs_delete fs fd |> <| fid_list ::= list_del fid |>
  | None => x
  end.

Definition fid_set x (fid fd : Z) : VIRTIO9PDevice F :=
  match fid_find x fid with
  | Some old => x <| p9_fs ::= fun fs => fs_delete fs old |> <| fid_list ::= list_put fid fd |>
  | None => x <| fid_list ::= cons (fid, fd) |>
  end.
End Fids.

(** ** Messages

    The format strings of [marshall] and [unmarshall], and the arguments that belong
    to them. *)

Inductive fmt := Fb | Fh | Fw | Fd | Fs | FQ.

Definition arg (c : fmt) : Type := match c with Fs => text | FQ => FSQID | _ => Z end.

Fixpoint args (l : list fmt) : Type :=
  match l with [] => unit | c :: l => (arg c * args l)%type end.

(** The bytes of an argument; [None] is a failed [assert]. *)
Definition marshall_arg (c : fmt) : arg c -> option (list Z) :=
  match c with
  | Fb => fun v => Some (le_list 1 v)
  | Fh => fun v => Some (le_list 2 v)
  | Fw => fun v => Some (le_list 4 v)
  | Fd => fun v => Some (le_list 8 v)
  | Fs => fun str => let len := Z.of_nat (length str) in if len <=? 65535 then Some (le_list 2 len ++ str) else None
  | FQ => fun q => Some (le_list 1 (q_type q) ++ le_list 4 (q_version q) ++ le_list 8 (q_path q))
  end.

(** Into a buffer of [max_len] bytes. *)
Fixpoint marshall (max_len : Z) (l : list fmt) : args l -> res (list Z) :=
  match l with
  | [] => fun _ => Done []
  | c :: l => fun a =>
      match marshall_arg c a.1 with
      | None => Crash
      | Some bs =>
          if Z.of_nat (length bs) <=? max_len then
            let* rest := marshall (max_len - Z.of_nat (length bs)) l a.2 in Done (bs ++ rest)
          else Crash
      end
  end.

Section Device.
Context {B F : Type} `{Bus B} `{FSDevice F} (stack_desc : VIRTIODesc) (malloc : Z -> list Z).

(** The address of a local [FSLock], and of the string allocated for its client. *)
Context (lock_addr client_addr : Z).

Abbreviation P9State := (vstate B (VIRTIO9PDevice F)).

(** The bytes of a number of [n] bytes; [None] is [return -1]. *)
Definition get_number (fuel : nat) (dev : P9State) (queue_idx desc_idx offset n : Z) : res (option Z) :=
  let* (r, buf) := memcpy_from_queue stack_desc fuel dev (malloc 16) queue_idx desc_idx offset n in
  Done (if nz r then None else Some (get_le buf 0 n)).

(** An argument and the offset behind it.  Replies only have a [FQ]. *)
Definition unmarshall_arg (fuel : nat) (dev : P9State) (queue_idx desc_idx offset : Z) (c : fmt) : res (option (arg c * Z)) :=
  let number n := let* v := get_number fuel dev queue_idx desc_idx offset n in Done ((fun v => (v, offset + n)) <$> v) in
  match c with
  | Fb => number 1
  | Fh => number 2
  | Fw => number 4
  | Fd => number 8
  | Fs =>
      let* len := get_number fuel dev queue_idx desc_idx offset 2 in
      match len with
      | None => Done None
      | Some len =>
          let offset := offset + 2 in
          let* (r, str) := memcpy_from_queue stack_desc fuel dev (malloc (len + 1)) queue_idx desc_idx offset len in
          Done (if nz r then None else Some (cstr (take (Z.to_nat len) str), offset + len))
      end
  | FQ => Crash
  end.

Fixpoint unmarshall (fuel : nat) (dev : P9State) (queue_idx desc_idx offset : Z) (l : list fmt) : res (option (args l * Z)) :=
  match l with
  | [] => Done (Some (tt, offset))
  | c :: l =>
      let* a := unmarshall_arg fuel dev queue_idx desc_idx offset c in
      match a with
      | None => Done None
      | Some (a, offset) =>
          let* r := unmarshall fuel dev queue_idx desc_idx offset l in
          Done ((fun '(r, offset) => ((a, r), offset)) <$> r)
      end
  end.

(** ** Replies *)

Definition virtio_9p_send_reply (fuel : nat) (dev : P9State) (queue_idx desc_idx id tag : Z) (buf : list Z) : res P9State :=
  let len := Z.of_nat (length buf) + 7 in
  let buf1 := le_list 4 len ++ [u8 (id + 1)] ++ le_list 2 tag ++ buf in
  let* (_, dev) := memcpy_to_queue stack_desc fuel dev queue_idx desc_idx 0 buf1 len in
  Done (virtio_consume_desc dev queue_idx desc_idx len).

Definition virtio_9p_send_error (fuel : nat) (dev : P9State) (queue_idx desc_idx tag error : Z) : res P9State :=
  let* buf := marshall 4 [Fw] (- error, tt) in
  virtio_9p_send_reply fuel dev queue_idx desc_idx 6 tag buf.

Definition virtio_9p_open_reply (fuel : nat) (dev : P9State) (qid : FSQID) (err queue_idx desc_idx tag : Z) : res P9State :=
  if err <? 0 then virtio_9p_send_error fuel dev queue_idx desc_idx tag err
  else
    let* buf := marshall 32 [FQ; Fw] (qid, (msize (vx dev) - 24, tt)) in
    virtio_9p_send_reply fuel dev queue_idx desc_idx 12 tag buf.

(** ** Requests

    What a request comes to: a reply, the label [error], or an open in progress. *)

Inductive p9_outcome :=
  | Reply (buf : list Z)
  | Failed (err : Z)
  | OpenDone (qid : FSQID) (err : Z)
  | OpenPending.

Definition sizeof_buf : Z := 1024.

(** The state with another file system. *)
Definition with_fs (dev : P9State) (fs : F) : P9State := dev <| vx ::= fun x => x <| p9_fs := fs |> |>.

Definition protocol_error (dev : P9State) : res (p9_outcome * P9State) := Done (Failed (- P9_EPROTO), dev).

(** [marshall(s, buf, sizeof(buf), ...)] and the reply. *)
Definition reply_with (dev : P9State) (l : list fmt) (a : args l) : res (p9_outcome * P9State) :=
  let* buf := marshall sizeof_buf l a in Done (Reply buf, dev).

(** [unmarshall] of the format [l], with [goto protocol_error]. *)
Definition with_args (fuel : nat) (dev : P9State) (queue_idx desc_idx offset : Z) (l : list fmt)
    (k : args l -> Z -> res (p9_outcome * P9State)) : res (p9_outcome * P9State) :=
  let* r := unmarshall fuel dev queue_idx desc_idx offset l in
  match r with
  | None => protocol_error dev
  | Some (a, offset) => k a offset
  end.

(** [fid_find], with [goto fid_not_found] or [err = -P9_EPROTO]. *)
Definition with_file (dev : P9State) (fid : Z) (k : Z -> res (p9_outcome * P9State)) : res (p9_outcome * P9State) :=
  match fid_find (vx dev) fid with
  | None => protocol_error dev
  | Some f => k f
  end.

(** [if (err) goto error]. *)
Definition unless_error (dev : P9State) (err : Z) (k : res (p9_outcome * P9State)) : res (p9_outcome * P9State) :=
  if nz err then Done (Failed err, dev) else k.

(** [if (err < 0) goto error]. *)
Definition unless_negative (dev : P9State) (err : Z) (k : res (p9_outcome * P9State)) : res (p9_outcome * P9State) :=
  if err <? 0 then Done (Failed err, dev) else k.

Section Requests.
Context (fuel : nat) (dev : P9State) (queue_idx desc_idx offset : Z).

Abbreviation request := (with_args fuel dev queue_idx desc_idx offset).
Abbreviation the_fs := (p9_fs (vx dev)).

Definition p9_statfs : res (p9_outcome * P9State) :=
  let '(st, fs) := fs_statfs the_fs in
  reply_with (with_fs dev fs) [Fw; Fw; Fd; Fd; Fd; Fd; Fd; Fd; Fw]
    (0, (f_bsize st, (f_blocks st, (f_bfree st, (f_bavail st, (f_files st, (f_ffree st, (0, (256, tt))))))))).

Definition p9_lopen : res (p9_outcome * P9State) :=
  request [Fw; Fw] (fun '(fid, (flags, _)) _ =>
    with_file dev fid (fun f =>
      let '(err, qid, fs) := fs_open the_fs f flags in
      Done (if err <=? 0 then OpenDone qid err else OpenPending, with_fs dev fs))).

Definition p9_lcreate : res (p9_outcome * P9State) :=
  request [Fw; Fs; Fw; Fw; Fw] (fun '(fid, (name, (flags, (mode, (gid, _))))) _ =>
    with_file dev fid (fun f =>
      let '(err, qid, fs) := fs_create the_fs f name flags mode gid in
      let dev := with_fs dev fs in
      unless_error dev err (reply_with dev [FQ; Fw] (qid, (msize (vx dev) - 24, tt))))).

Definition p9_symlink : res (p9_outcome * P9State) :=
  request [Fw; Fs; Fs; Fw] (fun '(fid, (name, (symgt, (gid, _)))) _ =>
    with_file dev fid (fun f =>
      let '(err, qid, fs) := fs_symlink the_fs f name symgt gid in
      let dev := with_fs dev fs in
      unless_error dev err (reply_with dev [FQ] (qid, tt)))).

Definition p9_mknod : res (p9_outcome * P9State) :=
  request [Fw; Fs; Fw; Fw; Fw; Fw] (fun '(fid, (name, (mode, (major, (minor, (gid, _)))))) _ =>
    with_file dev fid (fun f =>
      let '(err, qid, fs) := fs_mknod the_fs f name mode major minor gid in
      let dev := with_fs dev fs in
      unless_error dev err (reply_with dev [FQ] (qid, tt)))).

Definition p9_readlink : res (p9_outcome * P9State) :=
  request [Fw] (fun '(fid, _) _ =>
    with_file dev fid (fun f =>
      let '(err, buf1, fs) := fs_readlink the_fs f 1024 in
      let dev := with_fs dev fs in
      unless_error dev err (reply_with dev [Fs] (cstr buf1, tt)))).

Definition p9_getattr : res (p9_outcome * P9State) :=
  request [Fw; Fd] (fun '(fid, (mask, _)) _ =>
    with_file dev fid (fun f =>
      let '(err, st, fs) := fs_stat the_fs f in
      let dev := with_fs dev fs in
      unless_error dev err
        (reply_with dev [Fd; FQ; Fw; Fw; Fw; Fd; Fd; Fd; Fd; Fd; Fd; Fd; Fd; Fd; Fd; Fd; Fd; Fd; Fd; Fd]
           (mask, (st_qid st, (st_mode st, (st_uid st, (st_gid st, (st_nlink st, (st_rdev st, (st_size st, (st_blksize st,
            (st_blocks st, (st_atime_sec st, (st_atime_nsec st, (st_mtime_sec st, (st_mtime_nsec st, (st_ctime_sec st,
            (st_ctime_nsec st, (0, (0, (0, (0, tt))))))))))))))))))))))).

Definition p9_setattr : res (p9_outcome * P9State) :=
  request [Fw; Fw; Fw; Fw; Fw; Fd; Fd; Fd; Fd; Fd]
    (fun '(fid, (mask, (mode, (uid, (gid, (size, (atime_sec, (atime_nsec, (mtime_sec, (mtime_nsec, _)))))))))) _ =>
    with_file dev fid (fun f =>
      let '(err, fs) := fs_setattr the_fs f mask mode uid gid size atime_sec atime_nsec mtime_sec mtime_nsec in
      let dev := with_fs dev fs in
      unless_error dev err (Done (Reply [], dev)))).

Definition p9_xattrwalk : res (p9_outcome * P9State) := Done (Failed (- P9_ENOTSUP), dev).

(** [n] bytes behind the first four of a buffer of [count + 4]; sizes that do not fit
    an [int] or the buffer are out of bounds. *)
Definition counted_reply (dev : P9State) (count n : Z) (data : list Z) : res (p9_outcome * P9State) :=
  unless_negative dev n
    (let buf := malloc (u32 (count + 4)) in
     if in_buf buf 4 n && (n + 11 <? 2 ^ 31) then
       Done (Reply (peek (put_le32 (poke buf 4 (take (Z.to_nat n) data)) 0 n) 0 (n + 4)), dev)
     else Crash).

Definition p9_readdir : res (p9_outcome * P9State) :=
  request [Fw; Fd; Fw] (fun '(fid, (offs, (count, _))) _ =>
    with_file dev fid (fun f =>
      let '(n, data, fs) := fs_readdir the_fs f offs (i32 count) in
      counted_reply (with_fs dev fs) count n data)).

Definition p9_fsync : res (p9_outcome * P9State) := request [Fw] (fun _ _ => Done (Reply [], dev)).

Definition p9_lock : res (p9_outcome * P9State) :=
  request [Fw; Fb; Fw; Fd; Fd; Fw; Fs] (fun '(fid, (type, (flags, (start, (len, (proc_id, (client_id, _))))))) _ =>
    with_file dev fid (fun f =>
      let '(err, fs) := fs_lock the_fs f (mkLock type flags start len proc_id client_id) in
      let dev := with_fs dev fs in
      unless_negative dev err (reply_with dev [Fb] (err, tt)))).

(** The members of the lock are passed by their addresses; [lock_flags] is what the
    uninitialised member holds. *)
Definition p9_getlock (lock_flags : Z) : res (p9_outcome * P9State) :=
  request [Fw; Fb; Fd; Fd; Fw; Fs] (fun '(fid, (type, (start, (len, (proc_id, (client_id, _)))))) _ =>
    with_file dev fid (fun f =>
      let '(err, _, fs) := fs_getlock the_fs f (mkLock type lock_flags start len proc_id client_id) in
      let dev := with_fs dev fs in
      unless_negative dev err
        (reply_with dev [Fb; Fd; Fd; Fw; Fs]
           (lock_addr, (lock_addr + 8, (lock_addr + 16, (lock_addr + 24, (cstr (le_list 8 client_addr), tt)))))))).

Definition p9_link : res (p9_outcome * P9State) :=
  request [Fw; Fw; Fs] (fun '(dfid, (fid, (name, _))) _ =>
    with_file dev dfid (fun df => with_file dev fid (fun f =>
      let '(err, fs) := fs_link the_fs df f name in
      let dev := with_fs dev fs in
      unless_error dev err (Done (Reply [], dev))))).

Definition p9_mkdir : res (p9_outcome * P9State) :=
  request [Fw; Fs; Fw; Fw] (fun '(fid, (name, (mode, (gid, _)))) _ =>
    with_file dev fid (fun f =>
      let '(err, qid, fs) := fs_mkdir the_fs f name mode gid in
      let dev := with_fs dev fs in
      unless_error dev err (reply_with dev [FQ] (qid, tt)))).

Definition p9_renameat : res (p9_outcome * P9State) :=
  request [Fw; Fs; Fw; Fs] (fun '(fid, (name, (new_fid, (new_name, _)))) _ =>
    with_file dev fid (fun f => with_file dev new_fid (fun new_f =>
      let '(err, fs) := fs_renameat the_fs f name new_f new_name in
      let dev := with_fs dev fs in
      unless_error dev err (Done (Reply [], dev))))).

Definition p9_unlinkat : res (p9_outcome * P9State) :=
  request [Fw; Fs; Fw] (fun '(fid, (name, (flags, _))) _ =>
    with_file dev fid (fun f =>
      let '(err, fs) := fs_unlinkat the_fs f name in
      let dev := with_fs dev fs in
      unless_error dev err (Done (Reply [], dev)))).

(** [s->msize] is an [int]. *)
Definition p9_version : res (p9_outcome * P9State) :=
  request [Fw; Fs] (fun '(msize', _) _ =>
    let dev := dev <| vx ::= fun x => x <| msize := i32 msize' |> |> in
    reply_with dev [Fw; Fs] (msize (vx dev), (str "9P2000.L", tt))).

Definition p9_attach : res (p9_outcome * P9State) :=
  request [Fw; Fw; Fs; Fs; Fw] (fun '(fid, (afid, (uname, (aname, (uid, _))))) _ =>
    let '(err, f, qid, fs) := fs_attach the_fs uid uname aname in
    let dev := with_fs dev fs in
    unless_error dev err
      (let dev := dev <| vx ::= fun x => fid_set x fid f |> in
       reply_with dev [FQ] (qid, tt))).

Definition p9_flush : res (p9_outcome * P9State) := request [Fh] (fun _ _ => Done (Reply [], dev)).

(** The names of a walk, and the offset behind them. *)
Fixpoint get_names (offset : Z) (n : nat) : res (option (list text)) :=
  match n with
  | O => Done (Some [])
  | S n =>
      let* r := unmarshall fuel dev queue_idx desc_idx offset [Fs] in
      match r with
      | None => Done None
      | Some ((name, _), offset) => let* names := get_names offset n in Done (cons name <$> names)
      end
  end.

(** The files of the reply; [max_len] is what is left of the buffer. *)
Fixpoint marshall_qids (max_len : Z) (qids : list FSQID) : res (list Z) :=
  match qids with
  | [] => Done []
  | qid :: qids =>
      let* bs := marshall max_len [FQ] (qid, tt) in
      let* rest := marshall_qids (max_len - Z.of_nat (length bs)) qids in
      Done (bs ++ rest)
  end.

Definition p9_walk : res (p9_outcome * P9State) :=
  request [Fw; Fw; Fh] (fun '(fid, (newfid, (nwname, _))) offset =>
    with_file dev fid (fun f =>
      let* names := get_names offset (Z.to_nat nwname) in
      match names with
      | None => protocol_error dev
      | Some names =>
          let '(err, f, qids, fs) := fs_walk the_fs f names in
          let dev := with_fs dev fs in
          unless_negative dev err
            (let* head := marshall sizeof_buf [Fh] (err, tt) in
             let* tail := marshall_qids (sizeof_buf - Z.of_nat (length head)) (take (Z.to_nat err) qids) in
             let dev := dev <| vx ::= fun x => fid_set x newfid f |> in
             Done (Reply (head ++ tail), dev))
      end)).

Definition p9_read : res (p9_outcome * P9State) :=
  request [Fw; Fd; Fw] (fun '(fid, (offs, (count, _))) _ =>
    with_file dev fid (fun f =>
      let '(n, data, fs) := fs_read the_fs f offs (i32 count) in
      counted_reply (with_fs dev fs) count n data)).

Definition p9_write : res (p9_outcome * P9State) :=
  request [Fw; Fd; Fw] (fun '(fid, (offs, (count, _))) offset =>
    with_file dev fid (fun f =>
      let* (r, buf1) := memcpy_from_queue stack_desc fuel dev (malloc count) queue_idx desc_idx offset (i32 count) in
      if nz r then protocol_error dev
      else
        let '(n, fs) := fs_write the_fs f offs buf1 (i32 count) in
        let dev := with_fs dev fs in
        unless_negative dev n (reply_with dev [Fw] (n, tt)))).

Definition p9_clunk : res (p9_outcome * P9State) :=
  request [Fw] (fun '(fid, _) _ => Done (Reply [], dev <| vx ::= fun x => fid_delete x fid |>)).

(** The [switch] on the operation. *)
Definition p9_dispatch (lock_flags id : Z) : res (p9_outcome * P9State) :=
  if id =? 8 then p9_statfs
  else if id =? 12 then p9_lopen
  else if id =? 14 then p9_lcreate
  else if id =? 16 then p9_symlink
  else if id =? 18 then p9_mknod
  else if id =? 22 then p9_readlink
  else if id =? 24 then p9_getattr
  else if id =? 26 then p9_setattr
  else if id =? 30 then p9_xattrwalk
  else if id =? 40 then p9_readdir
  else if id =? 50 then p9_fsync
  else if id =? 52 then p9_lock
  else if id =? 54 then p9_getlock lock_flags
  else if id =? 70 then p9_link
  else if id =? 72 then p9_mkdir
  else if id =? 74 then p9_renameat
  else if id =? 76 then p9_unlinkat
  else if id =? 100 then p9_version
  else if id =? 104 then p9_attach
  else if id =? 108 then p9_flush
  else if id =? 110 then p9_walk
  else if id =? 116 then p9_read
  else if id =? 118 then p9_write
  else if id =? 120 then p9_clunk
  else protocol_error dev.
End Requests.

(** The reply to request [id] with [tag]. *)
Definition p9_answer (fuel : nat) (dev : P9State) (queue_idx desc_idx id tag : Z) (out : p9_outcome) : res P9State :=
  match out with
  | Reply buf => virtio_9p_send_reply fuel dev queue_idx desc_idx id tag buf
  | Failed err => virtio_9p_send_error fuel dev queue_idx desc_idx tag err
  | OpenDone qid err => virtio_9p_open_reply fuel dev qid err queue_idx desc_idx tag
  | OpenPending => Done (dev <| vx ::= fun x => x <| p9_in_progress := true |> |>)
  end.

Definition virtio_9p_recv_request (fuel : nat) (dev : P9State) (queue_idx desc_idx read_size write_size : Z) : res (Z * P9State) :=
  if negb (queue_idx =? 0) then Done (0, dev)
  else if p9_in_progress (vx dev) then Done (-1, dev)
  else
    let header_len := 4 + 1 + 2 in
    let* (r, buf) := memcpy_from_queue stack_desc fuel dev (malloc sizeof_buf) queue_idx desc_idx 0 header_len in
    if nz r then let* dev := p9_answer fuel dev queue_idx desc_idx 0 0 (Failed (- P9_EPROTO)) in Done (0, dev)
    else
      let id := get_le buf 4 1 in
      let tag := get_le buf 5 2 in
      let* (out, dev) := p9_dispatch fuel dev queue_idx desc_idx header_len (get_le (malloc 4) 0 4) id in
      let* dev := p9_answer fuel dev queue_idx desc_idx id tag out in
      Done (0, dev).

Definition p9_handlers : Handlers B (VIRTIO9PDevice F) := mkHandlers virtio_9p_recv_request None.

(** The file system has opened the file of request [desc_idx]. *)
Definition virtio_9p_open_cb (fuel : nat) (dev : P9State) (qid : FSQID) (err queue_idx desc_idx tag : Z) : res P9State :=
  let* dev := virtio_9p_open_reply fuel dev qid err queue_idx desc_idx tag in
  queue_notify stack_desc p9_handlers fuel (dev <| vx ::= fun x => x <| p9_in_progress := false |> |>) queue_idx.

(** A tag that does not fit the configuration space is written out of bounds. *)
Definition virtio_9p_init (bus : B) (fs : F) (mount_tag : text) : res P9State :=
  let len := Z.of_nat (length mount_tag) in
  if 2 + len <=? MAX_CONFIG_SPACE_SIZE then
    Done (mkV bus ((virtio_init 9 (2 + len)) <| device_features := 1 << 0 |>
                     <| config_space ::= fun c => poke (poke c 0 [u8 len; u8 (len >> 8)]) 2 mount_tag |>)
            (mkP9 fs 8192 [] false))
  else Crash.
End Device.
