(* ===== verification/FsDisk.v ===== *)
(** * Host directories as file systems ([src/fs_disk.cpp])

    The file system that serves a directory of the host to the 9p device, an instance
    of [FSDevice].  What it asks of the host is the type [sys] of system calls; the
    class [Host] answers them, with a result or an [errno].

    Files are allocated objects: [files] maps the addresses of those that are allocated
    to their contents, and [freed_used] records that an operation was given the address
    of an object that is not allocated, from where on its behaviour is undefined.  The
    constants of the host are those of Linux. *)

From S2P Require Import Prelude Iomem Cpu Virtio VirtioDev Json P9.

Definition P9_QTDIR : Z := 0x80.
Definition P9_QTSYMLINK : Z := 0x02.
Definition P9_QTFILE : Z := 0x00.

Definition P9_O_NOACCESS : Z := 0x00000003.
Definition P9_O_CREAT : Z := 0x00000040.
Definition P9_O_EXCL : Z := 0x00000080.
Definition P9_O_TRUNC : Z := 0x00000200.
Definition P9_O_APPEND : Z := 0x00000400.
Definition P9_O_NONBLOCK : Z := 0x00000800.
Definition P9_O_DSYNC : Z := 0x00001000.
Definition P9_O_DIRECTORY : Z := 0x00010000.
Definition P9_O_NOFOLLOW : Z := 0x00020000.
Definition P9_O_SYNC : Z := 0x00100000.

Definition P9_SETATTR_MODE : Z := 0x00000001.
Definition P9_SETATTR_UID : Z := 0x00000002.
Definition P9_SETATTR_GID : Z := 0x00000004.
Definition P9_SETATTR_SIZE : Z := 0x00000008.
Definition P9_SETATTR_ATIME : Z := 0x00000010.
Definition P9_SETATTR_MTIME : Z := 0x00000020.
Definition P9_SETATTR_CTIME : Z := 0x00000040.
Definition P9_SETATTR_ATIME_SET : Z := 0x00000080.
Definition P9_SETATTR_MTIME_SET : Z := 0x00000100.

Definition P9_EPERM : Z := 1.
Definition P9_ENOENT : Z := 2.
Definition P9_EIO : Z := 5.
Definition P9_EEXIST : Z := 17.
Definition P9_EINVAL : Z := 22.
Definition P9_ENOSPC : Z := 28.
Definition P9_ENOTEMPTY : Z := 39.

Definition P9_LOCK_SUCCESS : Z := 0.
Definition P9_LOCK_BLOCKED : Z := 1.

(** ** The host *)

Definition EPERM : Z := 1.
Definition ENOENT : Z := 2.
Definition EIO : Z := 5.
Definition EAGAIN : Z := 11.
Definition EACCES : Z := 13.
Definition EEXIST : Z := 17.
Definition EINVAL : Z := 22.
Definition ENOSPC : Z := 28.
Definition ENOTEMPTY : Z := 39.
Definition EPROTO : Z := 71.
Definition ENOTSUP : Z := 95.

Definition O_CREAT : Z := 0x40.
Definition O_EXCL : Z := 0x80.
Definition O_TRUNC : Z := 0x200.
Definition O_APPEND : Z := 0x400.
Definition O_NONBLOCK : Z := 0x800.
Definition O_DSYNC : Z := 0x1000.
Definition O_NOFOLLOW : Z := 0x20000.
Definition O_SYNC : Z := 0x101000.

Definition UTIME_NOW : Z := (1 << 30) - 1.
Definition UTIME_OMIT : Z := (1 << 30) - 2.

Definition DT_UNKNOWN : Z := 0.
Definition DT_DIR : Z := 4.
Definition DT_REG : Z := 8.
Definition DT_LNK : Z := 10.

(** [struct stat] and [struct dirent]. *)
Record hstat := mkHstat {
  h_mode : Z; h_ino : Z; h_uid : Z; h_gid : Z; h_nlink : Z; h_rdev : Z; h_size : Z; h_blksize : Z; h_blocks : Z;
  h_atim : Z * Z; h_mtim : Z * Z; h_ctim : Z * Z }.

Record dirent := mkDirent { d_ino : Z; d_type : Z; d_name : text }.

Definition S_ISDIR (mode : Z) : bool := mode .& 0xf000 =? 0x4000.
Definition S_ISLNK (mode : Z) : bool := mode .& 0xf000 =? 0xa000.

Definition makedev (major minor : Z) : Z :=
  ((major .& 0xfffff000) << 32) .| ((major .& 0xfff) << 8) .| ((minor .& 0xffffff00) << 12) .| (minor .& 0xff).

(** System calls and library functions, by the type of their results.  File descriptors
    and [DIR] pointers are numbers. *)
Inductive sys : Type -> Type :=
  | Statfs (path : text) : sys FSStatFS
  | Lstat (path : text) : sys hstat
  | Stat (path : text) : sys hstat
  | Mkdir (path : text) (mode : Z) : sys unit
  | Open (path : text) (flags mode : Z) : sys Z
  | Close (fd : Z) : sys unit
  | Opendir (path : text) : sys Z
  | Closedir (dirp : Z) : sys unit
  | Rewinddir (dirp : Z) : sys unit
  | Seekdir (dirp offset : Z) : sys unit
  | Telldir (dirp : Z) : sys Z
  | Readdir (dirp : Z) : sys (option dirent)
  | Pread (fd count offset : Z) : sys (list Z)
  | Pwrite (fd : Z) (buf : list Z) (count offset : Z) : sys Z
  | Lchown (path : text) (uid gid : Z) : sys unit
  | Chmod (path : text) (mode : Z) : sys unit
  | Truncate (path : text) (size : Z) : sys unit
  | Utimensat (path : text) (atime mtime : Z * Z) : sys unit
  | Link (path new_path : text) : sys unit
  | Symlink (target path : text) : sys unit
  | Mknod (path : text) (mode dev : Z) : sys unit
  | Readlink (path : text) (size : Z) : sys text
  | Rename (path new_path : text) : sys unit
  | Remove (path : text) : sys unit
  | Setlk (fd type start len : Z) : sys unit
  | Getlk (fd type start len : Z) : sys (Z * Z * Z).

Class Host (W : Type) := call : forall {A}, sys A -> W -> (Z + A) * W.

(** ** State *)

(** [u] is the union of a descriptor and a directory. *)
Record FSFile := mkFile { file_uid : Z; file_path : text; is_opened : bool; is_dir : bool; u : Z }.

Definition file_eta (f : FSFile) : FSFile := mkFile (file_uid f) (file_path f) (is_opened f) (is_dir f) (u f).
#[export] Instance upd_file_path : Setter file_path := ltac:(setter_of file_eta).
#[export] Instance upd_is_opened : Setter is_opened := ltac:(setter_of file_eta).
#[export] Instance upd_is_dir : Setter is_dir := ltac:(setter_of file_eta).
#[export] Instance upd_u : Setter u := ltac:(setter_of file_eta).

Record FSDeviceDisk (W : Type) := mkDisk { host : W; root_path : text; files : gmap Z FSFile; freed_used : bool }.
Arguments mkDisk {W}.
Arguments host {W}.
Arguments root_path {W}.
Arguments files {W}.
Arguments freed_used {W}.

#[export] Instance upd_host {W} : Setter (@host W) := fun f x => mkDisk (f (host x)) (root_path x) (files x) (freed_used x).
#[export] Instance upd_files {W} : Setter (@files W) := fun f x => mkDisk (host x) (root_path x) (f (files x)) (freed_used x).
#[export] Instance upd_freed_used {W} : Setter (@freed_used W) := fun f x => mkDisk (host x) (root_path x) (files x) (f (freed_used x)).

(** ** Conversions *)

Definition errno_table : list (Z * Z) :=
  [(P9_EPERM, EPERM); (P9_ENOENT, ENOENT); (P9_EIO, EIO); (P9_EEXIST, EEXIST); (P9_EINVAL, EINVAL); (P9_ENOSPC, ENOSPC);
   (P9_ENOTEMPTY, ENOTEMPTY); (P9_EPROTO, EPROTO); (P9_ENOTSUP, ENOTSUP)].

Definition errno_to_p9 (err : Z) : Z :=
  if err =? 0 then 0
  else match List.find (fun e => e.2 =? err) errno_table with Some e => e.1 | None => P9_EINVAL end.

Definition open_flags : list (Z * Z) :=
  [(P9_O_CREAT, O_CREAT); (P9_O_EXCL, O_EXCL); (P9_O_TRUNC, O_TRUNC); (P9_O_APPEND, O_APPEND); (P9_O_NONBLOCK, O_NONBLOCK);
   (P9_O_DSYNC, O_DSYNC); (P9_O_NOFOLLOW, O_NOFOLLOW); (P9_O_SYNC, O_SYNC)].

Definition p9_flags_to_host (flags : Z) : Z :=
  foldl (fun ret e => if has flags e.1 then ret .| e.2 else ret) (flags .& P9_O_NOACCESS) open_flags.

Definition stat_to_qid (st : hstat) : FSQID :=
  mkQID (if S_ISDIR (h_mode st) then P9_QTDIR else if S_ISLNK (h_mode st) then P9_QTSYMLINK else P9_QTFILE) 0 (h_ino st).

(** 47 is the slash. *)
Definition compose_path (path name : text) : text := path ++ [47] ++ name.

Definition no_qid : FSQID := mkQID 0 0 0.
Definition no_statfs : FSStatFS := mkStatFS 0 0 0 0 0 0.
Definition no_stat : FSStat := mkStat no_qid 0 0 0 0 0 0 0 0 0 0 0 0 0 0.

Section Disk.
Context {W : Type} `{Host W}.
Implicit Types fs : FSDeviceDisk W.

Definition do_sys {A} (c : sys A) fs : (Z + A) * FSDeviceDisk W := let '(r, h) := call c (host fs) in (r, fs <| host := h |>).

(** What the pointer [f] points to. *)
Definition deref fs (f : Z) : FSFile * FSDeviceDisk W :=
  match files fs !! f with
  | Some x => (x, fs)
  | None => (mkFile 0 [] false false 0, fs <| freed_used := true |>)
  end.

Definition put_file fs (f : Z) (x : FSFile) : FSDeviceDisk W := fs <| files ::= <[f := x]> |>.

(** A call whose failure is [return -errno_to_p9(errno)]. *)
Definition sys_err {A} (c : sys A) fs : Z * FSDeviceDisk W :=
  match do_sys c fs with
  | (inl errno, fs) => (- errno_to_p9 errno, fs)
  | (inr _, fs) => (0, fs)
  end.

(** [lstat] of a path and its qid. *)
Definition lstat_qid (path : text) fs : Z * FSQID * FSDeviceDisk W :=
  match do_sys (Lstat path) fs with
  | (inl errno, fs) => (- errno_to_p9 errno, no_qid, fs)
  | (inr st, fs) => (0, stat_to_qid st, fs)
  end.

(** ** Files *)

Definition fid_create fs (path : text) (uid : Z) : Z * FSDeviceDisk W :=
  let f := fresh (dom (files fs)) in
  (f, put_file fs f (mkFile uid path false false 0)).

Definition disk_close fs (f : Z) : FSDeviceDisk W :=
  let '(x, fs) := deref fs f in
  if is_opened x then
    let fs := if is_dir x then (do_sys (Closedir (u x)) fs).2 else (do_sys (Close (u x)) fs).2 in
    put_file fs f (x <| is_opened := false |>)
  else fs.

Definition disk_delete fs (f : Z) : FSDeviceDisk W :=
  let '(x, fs) := deref fs f in
  let fs := if is_opened x then disk_close fs f else fs in
  fs <| files ::= delete f |>.

(** ** Operations *)

Definition disk_statfs fs : FSStatFS * FSDeviceDisk W :=
  match do_sys (Statfs (root_path fs)) fs with
  | (inl _, fs) => (no_statfs, fs)
  | (inr st, fs) => (st, fs)
  end.

Definition disk_attach fs (uid : Z) (uname aname : text) : Z * Z * FSQID * FSDeviceDisk W :=
  match do_sys (Lstat (root_path fs)) fs with
  | (inl errno, fs) => (- errno_to_p9 errno, 0, no_qid, fs)
  | (inr st, fs) => let '(f, fs) := fid_create fs (root_path fs) uid in (0, f, stat_to_qid st, fs)
  end.

(** The loop of [fs_walk]: the path reached and the qids on the way. *)
Fixpoint walk_names fs (path : text) (names : list text) : text * list FSQID * FSDeviceDisk W :=
  match names with
  | [] => (path, [], fs)
  | name :: names =>
      let path1 := compose_path path name in
      match do_sys (Lstat path1) fs with
      | (inl _, fs) => (path, [], fs)
      | (inr st, fs) => let '(path, qids, fs) := walk_names fs path1 names in (path, stat_to_qid st :: qids, fs)
      end
  end.

Definition disk_walk fs (f : Z) (names : list text) : Z * Z * list FSQID * FSDeviceDisk W :=
  let '(x, fs) := deref fs f in
  let '(path, qids, fs) := walk_names fs (file_path x) names in
  let '(f', fs) := fid_create fs path (file_uid x) in
  (Z.of_nat (length qids), f', qids, fs).

Definition disk_mkdir fs (f : Z) (name : text) (mode gid : Z) : Z * FSQID * FSDeviceDisk W :=
  let '(x, fs) := deref fs f in
  let path := compose_path (file_path x) name in
  match do_sys (Mkdir path mode) fs with
  | (inl errno, fs) => (- errno_to_p9 errno, no_qid, fs)
  | (inr _, fs) => lstat_qid path fs
  end.

Definition disk_open fs (f flags : Z) : Z * FSQID * FSDeviceDisk W :=
  let fs := disk_close fs f in
  let '(x, fs) := deref fs f in
  match do_sys (Stat (file_path x)) fs with
  | (inl errno, fs) => (- errno_to_p9 errno, no_qid, fs)
  | (inr st, fs) =>
      let qid := stat_to_qid st in
      if has flags P9_O_DIRECTORY then
        match do_sys (Opendir (file_path x)) fs with
        | (inl errno, fs) => (- errno_to_p9 errno, qid, fs)
        | (inr dirp, fs) => (0, qid, put_file fs f (x <| is_opened := true |> <| is_dir := true |> <| u := dirp |>))
        end
      else
        match do_sys (Open (file_path x) (p9_flags_to_host flags .&~ O_CREAT) 0) fs with
        | (inl errno, fs) => (- errno_to_p9 errno, qid, fs)
        | (inr fd, fs) => (0, qid, put_file fs f (x <| is_opened := true |> <| is_dir := false |> <| u := fd |>))
        end
  end.

Definition disk_create fs (f : Z) (name : text) (flags mode gid : Z) : Z * FSQID * FSDeviceDisk W :=
  let fs := disk_close fs f in
  let '(x, fs) := deref fs f in
  let path := compose_path (file_path x) name in
  match do_sys (Open path (p9_flags_to_host flags .| O_CREAT) mode) fs with
  | (inl errno, fs) => (- errno_to_p9 errno, no_qid, fs)
  | (inr fd, fs) =>
      match do_sys (Lstat path) fs with
      | (inl errno, fs) =>
          match do_sys (Close fd) fs with
          | (inl errno, fs) => (- errno_to_p9 errno, no_qid, fs)
          | (inr _, fs) => (- errno_to_p9 errno, no_qid, fs)
          end
      | (inr st, fs) =>
          (0, stat_to_qid st,
           put_file fs f (x <| file_path := path |> <| is_opened := true |> <| is_dir := false |> <| u := fd |>))
      end
  end.

(** The bytes of a directory entry. *)
Definition dirent_bytes (type offset d_type : Z) (de : dirent) : list Z :=
  [type] ++ le_list 4 0 ++ le_list 8 (d_ino de) ++ le_list 8 offset ++ [u8 d_type] ++
  le_list 2 (Z.of_nat (length (d_name de))) ++ d_name de.

(** The loop of [fs_readdir]; an entry has more than one byte, so that one turn per
    byte of the buffer and one more are enough. *)
Fixpoint readdir_loop (n : nat) fs (x : FSFile) (buf : list Z) (count : Z) : list Z * FSDeviceDisk W :=
  match n with
  | O => (buf, fs)
  | S n =>
      match do_sys (Readdir (u x)) fs with
      | (inl _, fs) | (inr None, fs) => (buf, fs)
      | (inr (Some de), fs) =>
          let len := 13 + 8 + 1 + 2 + Z.of_nat (length (d_name de)) in
          if count <? Z.of_nat (length buf) + len then (buf, fs)
          else
            let '(offset, fs) := match do_sys (Telldir (u x)) fs with (inl _, fs) => (-1, fs) | (inr o, fs) => (o, fs) end in
            let '(d_type, fs) :=
              if d_type de =? DT_UNKNOWN then
                match do_sys (Lstat (compose_path (file_path x) (d_name de))) fs with
                | (inr st, fs) => (h_mode st >> 12, fs)
                | (inl _, fs) => (DT_REG, fs)
                end
              else (d_type de, fs) in
            let type := if d_type =? DT_DIR then P9_QTDIR else if d_type =? DT_LNK then P9_QTSYMLINK else P9_QTFILE in
            readdir_loop n fs x (buf ++ dirent_bytes type offset d_type de) count
      end
  end.

Definition disk_readdir fs (f offset count : Z) : Z * list Z * FSDeviceDisk W :=
  let '(x, fs) := deref fs f in
  if negb (is_opened x) || negb (is_dir x) then (- P9_EPROTO, [], fs)
  else
    let fs := if offset =? 0 then (do_sys (Rewinddir (u x)) fs).2 else (do_sys (Seekdir (u x) offset) fs).2 in
    let '(buf, fs) := readdir_loop (S (Z.to_nat count)) fs x [] count in
    (Z.of_nat (length buf), buf, fs).

Definition disk_read fs (f offset count : Z) : Z * list Z * FSDeviceDisk W :=
  let '(x, fs) := deref fs f in
  if negb (is_opened x) || is_dir x then (- P9_EPROTO, [], fs)
  else
    match do_sys (Pread (u x) (u64 count) offset) fs with
    | (inl errno, fs) => (- errno_to_p9 errno, [], fs)
    | (inr bs, fs) => (Z.of_nat (length bs), bs, fs)
    end.

Definition disk_write fs (f offset : Z) (buf : list Z) (count : Z) : Z * FSDeviceDisk W :=
  let '(x, fs) := deref fs f in
  if negb (is_opened x) || is_dir x then (- P9_EPROTO, fs)
  else
    match do_sys (Pwrite (u x) buf (u64 count) offset) fs with
    | (inl errno, fs) => (- errno_to_p9 errno, fs)
    | (inr ret, fs) => (ret, fs)
    end.

Definition disk_stat fs (f : Z) : Z * FSStat * FSDeviceDisk W :=
  let '(x, fs) := deref fs f in
  match do_sys (Lstat (file_path x)) fs with
  | (inl _, fs) => (- P9_ENOENT, no_stat, fs)
  | (inr st, fs) =>
      (0, mkStat (stat_to_qid st) (h_mode st) (h_uid st) (h_gid st) (h_nlink st) (h_rdev st) (h_size st) (h_blksize st)
            (h_blocks st) (h_atim st).1 (h_atim st).2 (h_mtim st).1 (h_mtim st).2 (h_ctim st).1 (h_ctim st).2, fs)
  end.

(** One step of [fs_setattr]: a call made when [c] holds; [k] follows when it succeeds. *)
Definition attr_step {A} (c : bool) (call : sys A) fs (k : FSDeviceDisk W -> Z * FSDeviceDisk W) : Z * FSDeviceDisk W :=
  if c then
    match do_sys call fs with
    | (inl errno, fs) => (- errno_to_p9 errno, fs)
    | (inr _, fs) => k fs
    end
  else k fs.

(** A time of [utimensat]. *)
Definition attr_time (mask field set sec nsec : Z) : Z * Z :=
  if has mask field then (if has mask set then (sec, nsec) else (0, UTIME_NOW)) else (0, UTIME_OMIT).

Definition disk_setattr fs (f mask mode uid gid size atime_sec atime_nsec mtime_sec mtime_nsec : Z) : Z * FSDeviceDisk W :=
  let '(x, fs) := deref fs f in
  let path := file_path x in
  let owner := has mask (P9_SETATTR_UID .| P9_SETATTR_GID) in
  let times := has mask (P9_SETATTR_ATIME .| P9_SETATTR_MTIME) in
  let ctime_updated := owner || has mask P9_SETATTR_MODE || has mask P9_SETATTR_SIZE || times in
  attr_step owner (Lchown path (if has mask P9_SETATTR_UID then uid else u32 (-1)) (if has mask P9_SETATTR_GID then gid else u32 (-1))) fs (fun fs =>
  attr_step (has mask P9_SETATTR_MODE) (Chmod path mode) fs (fun fs =>
  attr_step (has mask P9_SETATTR_SIZE) (Truncate path size) fs (fun fs =>
  attr_step times (Utimensat path (attr_time mask P9_SETATTR_ATIME P9_SETATTR_ATIME_SET atime_sec atime_nsec)
                     (attr_time mask P9_SETATTR_MTIME P9_SETATTR_MTIME_SET mtime_sec mtime_nsec)) fs (fun fs =>
  attr_step (has mask P9_SETATTR_CTIME && negb ctime_updated) (Lchown path (u32 (-1)) (u32 (-1))) fs (fun fs => (0, fs)))))).

Definition disk_link fs (df f : Z) (name : text) : Z * FSDeviceDisk W :=
  let '(dx, fs) := deref fs df in
  let path := compose_path (file_path dx) name in
  let '(x, fs) := deref fs f in
  sys_err (Link (file_path x) path) fs.

Definition disk_symlink fs (f : Z) (name symgt : text) (gid : Z) : Z * FSQID * FSDeviceDisk W :=
  let '(x, fs) := deref fs f in
  let path := compose_path (file_path x) name in
  match do_sys (Symlink symgt path) fs with
  | (inl errno, fs) => (- errno_to_p9 errno, no_qid, fs)
  | (inr _, fs) => lstat_qid path fs
  end.

Definition disk_mknod fs (f : Z) (name : text) (mode major minor gid : Z) : Z * FSQID * FSDeviceDisk W :=
  let '(x, fs) := deref fs f in
  let path := compose_path (file_path x) name in
  match do_sys (Mknod path mode (makedev major minor)) fs with
  | (inl errno, fs) => (- errno_to_p9 errno, no_qid, fs)
  | (inr _, fs) => lstat_qid path fs
  end.

Definition disk_readlink fs (f buf_size : Z) : Z * text * FSDeviceDisk W :=
  let '(x, fs) := deref fs f in
  match do_sys (Readlink (file_path x) (buf_size - 1)) fs with
  | (inl errno, fs) => (- errno_to_p9 errno, [], fs)
  | (inr buf, fs) => (0, buf, fs)
  end.

Definition disk_renameat fs (f : Z) (name : text) (new_f : Z) (new_name : text) : Z * FSDeviceDisk W :=
  let '(x, fs) := deref fs f in
  let '(new_x, fs) := deref fs new_f in
  sys_err (Rename (compose_path (file_path x) name) (compose_path (file_path new_x) new_name)) fs.

Definition disk_unlinkat fs (f : Z) (name : text) : Z * FSDeviceDisk W :=
  let '(x, fs) := deref fs f in
  sys_err (Remove (compose_path (file_path x) name)) fs.

Definition disk_lock fs (f : Z) (lock : FSLock) : Z * FSDeviceDisk W :=
  let '(x, fs) := deref fs f in
  if negb (is_opened x) || is_dir x then (- P9_EPROTO, fs)
  else
    match do_sys (Setlk (u x) (lk_type lock) (lk_start lock) (lk_length lock)) fs with
    | (inr _, fs) => (P9_LOCK_SUCCESS, fs)
    | (inl errno, fs) => (if (errno =? EAGAIN) || (errno =? EACCES) then P9_LOCK_BLOCKED else - errno_to_p9 errno, fs)
    end.

Definition disk_getlock fs (f : Z) (lock : FSLock) : Z * FSLock * FSDeviceDisk W :=
  let '(x, fs) := deref fs f in
  if negb (is_opened x) || is_dir x then (- P9_EPROTO, lock, fs)
  else
    match do_sys (Getlk (u x) (lk_type lock) (lk_start lock) (lk_length lock)) fs with
    | (inl errno, fs) => (- errno_to_p9 errno, lock, fs)
    | (inr (type, start, len), fs) => (0, mkLock type (lk_flags lock) start len (lk_proc_id lock) (lk_client_id lock), fs)
    end.

#[export] Instance disk_fs : FSDevice (FSDeviceDisk W) := {
  fs_delete := disk_delete; fs_statfs := disk_statfs; fs_attach := disk_attach; fs_walk := disk_walk; fs_mkdir := disk_mkdir;
  fs_open := disk_open; fs_create := disk_create; fs_stat := disk_stat; fs_setattr := disk_setattr; fs_readdir := disk_readdir;
  fs_read := disk_read; fs_write := disk_write; fs_link := disk_link; fs_symlink := disk_symlink; fs_mknod := disk_mknod;
  fs_readlink := disk_readlink; fs_renameat := disk_renameat; fs_unlinkat := disk_unlinkat; fs_lock := disk_lock;
  fs_getlock := disk_getlock }.

(** [stack_stat] is what the uninitialised [struct stat] holds when [lstat] fails. *)
Definition fs_disk_init (stack_stat : hstat) (h : W) (root : text) : option (FSDeviceDisk W) :=
  let '(r, h) := call (Lstat root) h in
  let st := match r with inr st => st | inl _ => stack_stat end in
  if S_ISDIR (h_mode st) then Some (mkDisk h root ∅ false) else None.
End Disk.
