(* ===== verification/P9Files.v ===== *)
(** * Files of the 9p device

    The device owns the files it has named: every file that the file system has
    allocated is the file of exactly one fid, so that no request uses a file after it
    is freed and none is lost.  For a host directory this extends to the descriptors of
    the host ([p9_files_owned]). *)

From S2P Require Import Prelude Iomem Cpu Virtio VirtioDev Virtqueue VirtioOk Json P9 FsDisk.

(** ** What the device needs of a file system

    [allocated] are its files; operations are called on allocated files only. *)
Class FSFiles (F : Type) := { fs_ok : F -> Prop; allocated : F -> gset Z }.

Definition same_files {F} `{FSFiles F} (fs fs' : F) : Prop := fs_ok fs' /\ allocated fs' = allocated fs.

Definition new_file {F} `{FSFiles F} (fs : F) (f : Z) (fs' : F) : Prop :=
  fs_ok fs' /\ (f ∉ allocated fs) /\ allocated fs' = ({[f]} ∪ allocated fs).

Class FSLaws (F : Type) `{FSDevice F} `{FSFiles F} : Prop := {
  delete_law fs f : fs_ok fs -> f ∈ allocated fs ->
    fs_ok (fs_delete fs f) /\ allocated (fs_delete fs f) = allocated fs ∖ {[f]};
  statfs_law fs : fs_ok fs -> same_files fs (fs_statfs fs).2;
  attach_law fs uid uname aname : fs_ok fs ->
    let '(err, f, _, fs') := fs_attach fs uid uname aname in if nz err then same_files fs fs' else new_file fs f fs';
  walk_law fs f names : fs_ok fs -> f ∈ allocated fs ->
    let '(err, f', _, fs') := fs_walk fs f names in if err <? 0 then same_files fs fs' else new_file fs f' fs';
  mkdir_law fs f name mode gid : fs_ok fs -> f ∈ allocated fs -> same_files fs (fs_mkdir fs f name mode gid).2;
  open_law fs f flags : fs_ok fs -> f ∈ allocated fs -> same_files fs (fs_open fs f flags).2;
  create_law fs f name flags mode gid : fs_ok fs -> f ∈ allocated fs -> same_files fs (fs_create fs f name flags mode gid).2;
  stat_law fs f : fs_ok fs -> f ∈ allocated fs -> same_files fs (fs_stat fs f).2;
  setattr_law fs f mask mode uid gid size a an m mn : fs_ok fs -> f ∈ allocated fs ->
    same_files fs (fs_setattr fs f mask mode uid gid size a an m mn).2;
  readdir_law fs f o n : fs_ok fs -> f ∈ allocated fs -> same_files fs (fs_readdir fs f o n).2;
  read_law fs f o n : fs_ok fs -> f ∈ allocated fs -> same_files fs (fs_read fs f o n).2;
  write_law fs f o buf n : fs_ok fs -> f ∈ allocated fs -> same_files fs (fs_write fs f o buf n).2;
  link_law fs df f name : fs_ok fs -> df ∈ allocated fs -> f ∈ allocated fs -> same_files fs (fs_link fs df f name).2;
  symlink_law fs f name t gid : fs_ok fs -> f ∈ allocated fs -> same_files fs (fs_symlink fs f name t gid).2;
  mknod_law fs f name mode major minor gid : fs_ok fs -> f ∈ allocated fs ->
    same_files fs (fs_mknod fs f name mode major minor gid).2;
  readlink_law fs f n : fs_ok fs -> f ∈ allocated fs -> same_files fs (fs_readlink fs f n).2;
  renameat_law fs f name f' name' : fs_ok fs -> f ∈ allocated fs -> f' ∈ allocated fs ->
    same_files fs (fs_renameat fs f name f' name').2;
  unlinkat_law fs f name : fs_ok fs -> f ∈ allocated fs -> same_files fs (fs_unlinkat fs f name).2;
  lock_law fs f lock : fs_ok fs -> f ∈ allocated fs -> same_files fs (fs_lock fs f lock).2;
  getlock_law fs f lock : fs_ok fs -> f ∈ allocated fs -> same_files fs (fs_getlock fs f lock).2;
}.

(** ** The table of fids *)

Section Table.
Context {F : Type} `{FSLaws F}.
Implicit Types x : VIRTIO9PDevice F.

(** The device owns every file, under one fid. *)
Record p9_ok (x : VIRTIO9PDevice F) : Prop := {
  k_fs : fs_ok (p9_fs x);
  k_fids : NoDup (fid_list x).*1;
  k_files : NoDup (fid_list x).*2;
  k_owned : allocated (p9_fs x) = list_to_set (fid_list x).*2;
}.

Lemma fid_find_Some x fid f : fid_find x fid = Some f -> (fid, f) ∈ fid_list x.
Proof.
  unfold fid_find. destruct (List.find _ _) as [[k g]|] eqn:E; [|done]. intros [= <-].
  apply List.find_some in E as [Hin Hk%Z.eqb_eq]. cbn in Hk. subst. by apply list_elem_of_In.
Qed.

Lemma fid_find_None x fid : fid_find x fid = None -> fid ∉ (fid_list x).*1.
Proof.
  unfold fid_find. destruct (List.find _ _) as [e|] eqn:E; [done|]. intros _ ([k g] & -> & Hin)%list_elem_of_fmap.
  apply list_elem_of_In in Hin. apply (List.find_none _ _ E) in Hin. cbn in Hin. by rewrite Z.eqb_refl in Hin.
Qed.

Lemma found_allocated x fid f : p9_ok x -> fid_find x fid = Some f -> f ∈ allocated (p9_fs x).
Proof.
  intros Hok Hf%fid_find_Some. rewrite (k_owned x Hok). apply elem_of_list_to_set. apply list_elem_of_fmap. by exists (fid, f).
Qed.

(** The list around the entry of a fid. *)
Lemma split_at_fid x fid f :
  NoDup (fid_list x).*1 -> fid_find x fid = Some f ->
  exists l1 l2, fid_list x = l1 ++ (fid, f) :: l2 /\ list_del fid (fid_list x) = l1 ++ l2 /\
    (forall g, list_put fid g (fid_list x) = l1 ++ (fid, g) :: l2).
Proof.
  unfold fid_find. induction (fid_list x) as [|[k g] l IH]; intros Hnd Hf; [done|]. cbn in *.
  destruct (Z.eqb_spec k fid) as [->|Hne]; cbn in Hf.
  - injection Hf as ->. by exists [], l.
  - apply NoDup_cons in Hnd as [_ Hnd]. destruct (IH Hnd Hf) as (l1 & l2 & -> & -> & Hp). exists ((k, g) :: l1), l2.
    split; [done|]. split; [done|]. intros g'. cbn. by rewrite Hp.
Qed.

Lemma fid_delete_ok x fid : p9_ok x -> p9_ok (fid_delete x fid).
Proof.
  intros Hok. unfold fid_delete. destruct (fid_find x fid) as [f|] eqn:Ef; [|done].
  pose proof (found_allocated _ _ _ Hok Ef) as Hin. destruct Hok as [Hfs Hk Hf Ho].
  destruct (split_at_fid _ _ _ Hk Ef) as (l1 & l2 & El & Ed & _). destruct (delete_law _ _ Hfs Hin) as [Hfs' Hal].
  rewrite El, fmap_app in Hk, Hf, Ho. apply NoDup_app in Hk as (Hk1 & Hkd & [_ Hk2]%NoDup_cons).
  apply NoDup_app in Hf as (Hf1 & Hfd & [Hf0 Hf2]%NoDup_cons).
  split; unfold upd, upd_p9_fs, upd_fid_list; cbn [p9_fs fid_list]; rewrite ?Ed, ?fmap_app; [done| | |].
  - apply NoDup_app. split; [done|]. split; [|done]. intros k ??. by apply (Hkd k); [|right].
  - apply NoDup_app. split; [done|]. split; [|done]. intros k ??. by apply (Hfd k); [|right].
  - rewrite Hal, Ho. specialize (Hfd f). set_solver.
Qed.

(** A new file, in the place of the file of the fid if it has one. *)
Lemma fid_set_ok x fs f fid :
  p9_ok x -> new_file (p9_fs x) f fs -> p9_ok (fid_set (x <| p9_fs := fs |>) fid f).
Proof.
  intros Hok (Hfs & Hnew & Hal). unfold fid_set. change (fid_find (x <| p9_fs := fs |>) fid) with (fid_find x fid).
  destruct (fid_find x fid) as [old|] eqn:Ef.
  - pose proof (found_allocated _ _ _ Hok Ef) as Hin. destruct Hok as [_ Hk Hf Ho].
    destruct (split_at_fid _ _ _ Hk Ef) as (l1 & l2 & El & _ & Ep). destruct (delete_law fs old Hfs) as [Hfs' Hal']; [set_solver|].
    split; unfold upd, upd_p9_fs, upd_fid_list; cbn [p9_fs fid_list]; rewrite ?Ep, ?fmap_app; [done| | |].
    + by rewrite El, fmap_app in Hk.
    + rewrite El, fmap_app in Hf, Ho. rewrite Ho in Hnew. apply NoDup_app in Hf as (Hf1 & Hfd & [Hf0 Hf2]%NoDup_cons).
      apply NoDup_app. split; [done|]. split; [set_solver|]. apply NoDup_cons. set_solver.
    + rewrite Hal', Hal, Ho, El, fmap_app. rewrite El, fmap_app in Hf. apply NoDup_app in Hf as (_ & Hfd & [Hf0 _]%NoDup_cons).
      rewrite Ho, El, fmap_app in Hnew. specialize (Hfd old). set_solver.
  - destruct Hok as [_ Hk Hf Ho]. apply fid_find_None in Ef.
    split; unfold upd, upd_p9_fs, upd_fid_list; cbn [p9_fs fid_list fmap list_fmap fst snd]; [done| | |].
    + by apply NoDup_cons.
    + apply NoDup_cons. split; [|done]. rewrite Ho in Hnew. set_solver.
    + rewrite Hal, Ho. set_solver.
Qed.

Lemma same_files_ok x fs : p9_ok x -> same_files (p9_fs x) fs -> p9_ok (x <| p9_fs := fs |>).
Proof. intros [_ Hk Hf Ho] [Hfs Hal]. split; [done|done|done|]. unfold upd, upd_p9_fs. cbn [p9_fs fid_list]. by rewrite Hal. Qed.
End Table.

(** ** Requests *)

Section Requests.
Context {B F : Type} `{BusLaws B} `{FSLaws F} (stack_desc : VIRTIODesc) (malloc : Z -> list Z) (lock_addr client_addr : Z).

Abbreviation P9State := (vstate B (VIRTIO9PDevice F)).

(** Only the state of the model changes, and it keeps its files. *)
Definition keeps (dev : P9State) (m : res (p9_outcome * P9State)) : Prop :=
  forall out dev', m = Done (out, dev') -> p9_ok (vx dev') /\ bus dev' = bus dev /\ vdev dev' = vdev dev.

Section Steps.
Context (dev : P9State).
Hypothesis (Hok : p9_ok (vx dev)).

Lemma keeps_done out dev' : p9_ok (vx dev') -> bus dev' = bus dev -> vdev dev' = vdev dev -> keeps dev (Done (out, dev')).
Proof. intros ? ? ? ? ? [= <- <-]. done. Qed.

Lemma keeps_bind {A} (m : res A) k : (forall a, keeps dev (k a)) -> keeps dev (rbind m k).
Proof. intros Hk. destruct m; cbn [rbind]; [apply Hk|by intros ??|by intros ??]. Qed.

Lemma keeps_protocol_error : keeps dev (protocol_error dev).
Proof. by apply keeps_done. Qed.

Lemma keeps_args fuel q i o l k :
  (forall a o, keeps dev (k a o)) -> keeps dev (with_args stack_desc malloc fuel dev q i o l k).
Proof. intros Hk. apply keeps_bind. intros [[a o']|]; [apply Hk|apply keeps_protocol_error]. Qed.

Lemma keeps_file fid k : (forall f, f ∈ allocated (p9_fs (vx dev)) -> keeps dev (k f)) -> keeps dev (with_file dev fid k).
Proof.
  intros Hk. unfold with_file. destruct (fid_find (vx dev) fid) as [f|] eqn:E; [|apply keeps_protocol_error].
  apply Hk. by apply (found_allocated _ fid).
Qed.

(** After an operation of the file system that keeps its files. *)
Lemma keeps_with_fs out fs : same_files (p9_fs (vx dev)) fs -> keeps dev (Done (out, with_fs dev fs)).
Proof. intros Hs. apply keeps_done; [by apply same_files_ok|done|done]. Qed.

Lemma keeps_error fs err m :
  same_files (p9_fs (vx dev)) fs -> keeps dev m -> keeps dev (unless_error (with_fs dev fs) err m).
Proof. intros Hs Hm. unfold unless_error. destruct (nz err); [by apply keeps_with_fs|done]. Qed.

Lemma keeps_negative fs err m :
  same_files (p9_fs (vx dev)) fs -> keeps dev m -> keeps dev (unless_negative (with_fs dev fs) err m).
Proof. intros Hs Hm. unfold unless_negative. destruct (err <? 0); [by apply keeps_with_fs|done]. Qed.

Lemma keeps_reply fs l a : same_files (p9_fs (vx dev)) fs -> keeps dev (reply_with (with_fs dev fs) l a).
Proof. intros Hs. apply keeps_bind. intros buf. by apply keeps_with_fs. Qed.

Lemma keeps_counted fs count n data :
  same_files (p9_fs (vx dev)) fs -> keeps dev (counted_reply malloc (with_fs dev fs) count n data).
Proof. intros Hs. apply keeps_negative; [done|]. cbv zeta. destruct (in_buf _ 4 n && _); [by apply keeps_with_fs|by intros ??]. Qed.
End Steps.

(** The result of an operation of the file system. *)
Lemma keeps_op dev {A} (r : A * F) k :
  same_files (p9_fs (vx dev)) r.2 -> (forall a fs, same_files (p9_fs (vx dev)) fs -> keeps dev (k a fs)) ->
  keeps dev (let '(a, fs) := r in k a fs).
Proof. destruct r as [a fs]. intros Hs Hk. by apply Hk. Qed.

Create HintDb fs_laws.
#[local] Hint Resolve statfs_law mkdir_law open_law create_law stat_law setattr_law readdir_law read_law write_law link_law
  symlink_law mknod_law readlink_law renameat_law unlinkat_law lock_law getlock_law : fs_laws.

Ltac split_args :=
  repeat match goal with
  | a : args _ |- _ => destruct a
  | a : prod _ _ |- _ => destruct a
  end.

(** The steps of a request, up to a change of the table of fids. *)
Ltac keeps_tac :=
  repeat first
    [ apply keeps_protocol_error; [assumption]
    | apply keeps_args; [assumption|]; let a := fresh in intros a ?; split_args
    | apply keeps_file; [assumption|]; intros ? ?
    | apply keeps_op; [by auto with fs_laws|]; intros ? ? ?
    | match goal with |- keeps _ (let '(_, _) := ?a in _) => is_var a; destruct a end
    | apply keeps_error; [assumption..|]
    | apply keeps_counted; assumption
    | apply keeps_negative; [assumption..|]
    | apply keeps_reply; assumption
    | apply keeps_with_fs; assumption
    | apply keeps_done; [assumption|reflexivity..] ].

Section Changes.
Context (fuel : nat) (dev : P9State) (q i o : Z).
Hypothesis (Hok : p9_ok (vx dev)).

Lemma version_keeps : keeps dev (p9_version stack_desc malloc fuel dev q i o).
Proof.
  apply keeps_args; [done|]. intros (ms & v & ?) ?. apply keeps_bind. intros buf. apply keeps_done; [|done..].
  destruct Hok as [? ? ? ?]. by split.
Qed.

Lemma clunk_keeps : keeps dev (p9_clunk stack_desc malloc fuel dev q i o).
Proof. apply keeps_args; [done|]. intros (fid & ?) ?. apply keeps_done; [by apply fid_delete_ok|done..]. Qed.

Lemma attach_keeps : keeps dev (p9_attach stack_desc malloc fuel dev q i o).
Proof.
  apply keeps_args; [done|]. intros (fid & afid & uname & aname & uid & ?) ?.
  pose proof (attach_law (p9_fs (vx dev)) uid uname aname (k_fs _ Hok)) as Hl.
  destruct (fs_attach _ _ _ _) as [[[err f] qid] fs]. unfold unless_error. destruct (nz err); [by apply keeps_with_fs|].
  apply keeps_bind. intros buf. apply keeps_done; [by apply fid_set_ok|done..].
Qed.

Lemma walk_keeps : keeps dev (p9_walk stack_desc malloc fuel dev q i o).
Proof.
  apply keeps_args; [done|]. intros (fid & newfid & n & ?) o'. apply keeps_file; [done|]. intros f Hf.
  apply keeps_bind. intros [names|]; [|by apply keeps_protocol_error].
  pose proof (walk_law (p9_fs (vx dev)) f names (k_fs _ Hok) Hf) as Hl.
  destruct (fs_walk _ _ _) as [[[err f'] qids] fs]. unfold unless_negative. destruct (err <? 0); [by apply keeps_with_fs|].
  apply keeps_bind. intros head. apply keeps_bind. intros tail. apply keeps_done; [by apply fid_set_ok|done..].
Qed.

Lemma write_keeps : keeps dev (p9_write stack_desc malloc fuel dev q i o).
Proof.
  pose proof (k_fs _ Hok). unfold p9_write. keeps_tac. apply keeps_bind. intros [r buf].
  destruct (nz r); keeps_tac.
Qed.
End Changes.

(** Every request keeps the files of the device. *)
Lemma dispatch_keeps fuel dev q i o flags id :
  p9_ok (vx dev) -> keeps dev (p9_dispatch stack_desc malloc lock_addr client_addr fuel dev q i o flags id).
Proof.
  intros Hok. pose proof (k_fs _ Hok) as Hfs. unfold p9_dispatch.
  repeat match goal with |- keeps _ (if ?c then _ else _) => destruct c end;
    first [ by apply version_keeps | by apply clunk_keeps | by apply attach_keeps | by apply walk_keeps | by apply write_keeps
          | unfold p9_statfs, p9_lopen, p9_lcreate, p9_symlink, p9_mknod, p9_readlink, p9_getattr, p9_setattr, p9_xattrwalk,
              p9_readdir, p9_fsync, p9_lock, p9_getlock, p9_link, p9_mkdir, p9_renameat, p9_unlinkat, p9_flush, p9_read; by keeps_tac ].
Qed.

Lemma consume_desc_vx (dev : P9State) q i n : vx (virtio_consume_desc dev q i n) = vx dev.
Proof.
  unfold virtio_consume_desc. cbv zeta. vsimpl.
  assert (forall (dev : P9State) a v, vx (virtio_write16 dev a v) = vx dev) as H16 by (intros; unfold virtio_write16; by repeat case_match).
  assert (forall (dev : P9State) a v, vx (virtio_write32 dev a v) = vx dev) as H32 by (intros; unfold virtio_write32; by repeat case_match).
  by rewrite !H32, H16.
Qed.

Lemma send_reply_vx fuel (dev : P9State) q i id tag buf dev' :
  virtio_9p_send_reply stack_desc fuel dev q i id tag buf = Done dev' -> vx dev' = vx dev.
Proof.
  unfold virtio_9p_send_reply. cbv zeta. destruct (memcpy_to_queue _ _ _ _ _ _ _ _) as [[r dev1]| |] eqn:E; cbn [rbind]; try done.
  intros [= <-]. rewrite consume_desc_vx. by apply memcpy_to_queue_device in E as [_ ->].
Qed.

Lemma answer_ok fuel (dev : P9State) q i id tag out dev' :
  p9_ok (vx dev) -> p9_answer stack_desc fuel dev q i id tag out = Done dev' -> p9_ok (vx dev').
Proof.
  intros Hok. destruct out as [buf|err|qid err|]; cbn [p9_answer].
  - by intros ->%send_reply_vx.
  - by intros ->%send_reply_vx.
  - unfold virtio_9p_open_reply. destruct (err <? 0); by intros ->%send_reply_vx.
  - intros [= <-]. destruct Hok as [? ? ? ?]. by split.
Qed.

Lemma recv_request_ok fuel (dev : P9State) q i r w x dev' :
  p9_ok (vx dev) -> virtio_9p_recv_request stack_desc malloc lock_addr client_addr fuel dev q i r w = Done (x, dev') -> p9_ok (vx dev').
Proof.
  intros Hok. unfold virtio_9p_recv_request. destruct (negb _); [by intros [= _ <-]|]. destruct (p9_in_progress _); [by intros [= _ <-]|].
  cbv zeta. destruct (memcpy_from_queue _ _ _ _ _ _ _ _) as [[e buf]| |]; cbn [rbind]; try done.
  destruct (nz e).
  - destruct (p9_answer _ _ _ _ _ _ _ _) as [dev1| |] eqn:E; cbn [rbind]; try done. intros [= _ <-]. by eapply answer_ok.
  - destruct (p9_dispatch _ _ _ _ _ _ _ _ _ _ _) as [[out dev1]| |] eqn:E; cbn [rbind]; try done.
    apply dispatch_keeps in E as [Hok1 _]; [|done].
    destruct (p9_answer _ _ _ _ _ _ _ _) as [dev2| |] eqn:E2; cbn [rbind]; try done. intros [= _ <-]. by eapply answer_ok.
Qed.
End Requests.

(** ** Invariants of a device model

    What every received request keeps, every register write keeps. *)
Section Model.
Context {B X : Type} `{BusLaws B} (stack_desc : VIRTIODesc) (hs : Handlers B X) (I : X -> Prop).
Hypothesis (Hrecv : forall fuel s q i r w x s', I (vx s) -> device_recv hs fuel s q i r w = Done (x, s') -> I (vx s')).
Hypothesis (Hconfig : config_write hs = None).

Lemma notify_loop_model n fuel s q j s' : I (vx s) -> notify_loop stack_desc hs n fuel s q j = Done s' -> I (vx s').
Proof.
  revert s. induction n as [|n IH]; intros s Hi; cbn [notify_loop]; [done|]. destruct (_ =? j); [by intros [= <-]|].
  destruct (get_desc_rw_size _ _ _ _ _) as [[[r w]|]| |]; cbn [rbind]; try done; [|by apply IH].
  destruct (device_recv hs fuel s q _ r w) as [[x s1]| |] eqn:E; cbn [rbind]; try done.
  pose proof (Hrecv _ _ _ _ _ _ _ _ Hi E). destruct (x <? 0); [by intros [= <-]|by apply IH].
Qed.

Lemma queue_notify_model fuel s q s' : I (vx s) -> queue_notify stack_desc hs fuel s q = Done s' -> I (vx s').
Proof. intros Hi. unfold queue_notify. destruct (manual_recv _); [by intros [= <-]|by apply notify_loop_model]. Qed.

Lemma mmio_write_model fuel s offset val size_log2 s' :
  I (vx s) -> virtio_mmio_write stack_desc hs fuel s offset val size_log2 = Done s' -> I (vx s').
Proof.
  intros Hi. unfold virtio_mmio_write, virtio_config_write, put_config, write_queue_sel, write_num, write_status. rewrite Hconfig. cbv zeta.
  repeat case_match; intros E; first [by eapply queue_notify_model|injection E as <-; done].
Qed.
End Model.

(** ** Defects *)

(** The reply to a walk of 79 names does not fit its buffer. *)
Lemma walk_reply_overflows qid : marshall_qids (sizeof_buf - 2) (replicate 79 qid) = Crash.
Proof. destruct qid as [t v p]. cbn -[le_list]. done. Qed.
