(* ===== verification/DiskFiles.v ===== *)
(** * Files and descriptors of a host directory

    The file system of [FsDisk] keeps the laws of [P9Files]: the descriptors and
    directories that the program has open are those of its open files, one each.  With
    that, a 9p device that serves a directory never uses a freed file, never closes a
    descriptor twice and never loses one ([p9_files_owned]). *)

From S2P Require Import Prelude Iomem Cpu Virtio VirtioDev Virtqueue VirtioOk Json P9 FsDisk P9Files.

(** ** The host

    [opened] are the descriptors ([false]) and directories ([true]) that the program has
    open.  Of POSIX: what is opened was not open, closing closes it, and nothing else
    opens or closes; a call that fails says why. *)

Definition neutral {A} (c : sys A) : bool :=
  match c with Open _ _ _ | Close _ | Opendir _ | Closedir _ => false | _ => true end.

Class HostLaws (W : Type) `{Host W} := {
  opened : W -> gset (bool * Z);
  sys_open path flags mode h :
    match call (Open path flags mode) h with
    | (inl _, h') => opened h' = opened h
    | (inr fd, h') => ((false, fd) ∉ opened h) /\ opened h' = {[(false, fd)]} ∪ opened h
    end;
  sys_opendir path h :
    match call (Opendir path) h with
    | (inl _, h') => opened h' = opened h
    | (inr dirp, h') => ((true, dirp) ∉ opened h) /\ opened h' = {[(true, dirp)]} ∪ opened h
    end;
  sys_close fd h : opened (call (Close fd) h).2 = opened h ∖ {[(false, fd)]};
  sys_closedir dirp h : opened (call (Closedir dirp) h).2 = opened h ∖ {[(true, dirp)]};
  sys_other A (c : sys A) h : neutral c = true -> opened (call c h).2 = opened h;
  sys_errno A (c : sys A) h e h' : call c h = (inl e, h') -> 0 < e;
}.

Section Disk.
Context {W : Type} `{HostLaws W} (base : gset (bool * Z)).
Implicit Types fs : FSDeviceDisk W.

(** What an open file has open. *)
Definition desc_of (x : FSFile) : option (bool * Z) := if is_opened x then Some (is_dir x, u x) else None.

Definition holds fs (f : Z) (e : bool * Z) : Prop := exists x, files fs !! f = Some x /\ desc_of x = Some e.

(** [base] is what was open before. *)
Record disk_ok fs : Prop := {
  z_used : freed_used fs = false;
  z_opened e : e ∈ opened (host fs) <-> e ∈ base \/ exists f, holds fs f e;
  z_base f e : holds fs f e -> e ∉ base;
  z_once f g e : holds fs f e -> holds fs g e -> f = g;
}.

#[export] Instance disk_files : FSFiles (FSDeviceDisk W) := { fs_ok := disk_ok; allocated fs := dom (files fs) }.

Lemma deref_live fs f : f ∈ dom (files fs) -> exists x, files fs !! f = Some x /\ deref fs f = (x, fs).
Proof. intros [x Hx]%elem_of_dom. exists x. unfold deref. by rewrite Hx. Qed.

(** *** Steps *)

(** Another file or host state with the same descriptors. *)
Lemma disk_ok_same fs fs' :
  freed_used fs' = freed_used fs -> opened (host fs') = opened (host fs) -> (forall f e, holds fs' f e <-> holds fs f e) ->
  disk_ok fs -> disk_ok fs'.
Proof.
  intros Hu Ho Hh [Z1 Z2 Z3 Z4]. split; [congruence| | |].
  - intros e. rewrite Ho, Z2. apply or_iff_compat_l. split; intros [f Hf]; exists f; by apply Hh.
  - intros f e Hf%Hh. by apply (Z3 f).
  - intros f g e Hf%Hh Hg%Hh. by apply (Z4 f g e).
Qed.

Lemma do_sys_neutral {A} (c : sys A) fs :
  neutral c = true -> disk_ok fs -> disk_ok (do_sys c fs).2 /\ files (do_sys c fs).2 = files fs.
Proof.
  intros Hn Hok. unfold do_sys. pose proof (sys_other A c (host fs) Hn) as Ho. destruct (call c (host fs)) as [r h'].
  split; [|done]. by apply (disk_ok_same fs).
Qed.

Lemma holds_put fs f x g e :
  holds (put_file fs f x) g e <-> (g = f /\ desc_of x = Some e) \/ (g <> f /\ holds fs g e).
Proof.
  unfold holds, put_file, upd, upd_files. cbn [files]. destruct (decide (g = f)) as [->|Hne].
  - rewrite lookup_insert_eq. naive_solver.
  - rewrite lookup_insert_ne by done. naive_solver.
Qed.

Lemma put_file_same fs f x x' :
  files fs !! f = Some x -> desc_of x' = desc_of x -> disk_ok fs -> disk_ok (put_file fs f x').
Proof.
  intros Hf Hx. apply disk_ok_same; [done|done|]. intros g e. rewrite holds_put, Hx. unfold holds.
  destruct (decide (g = f)) as [->|]; naive_solver.
Qed.

Lemma dom_put_file fs f x : f ∈ dom (files fs) -> dom (files (put_file fs f x)) = dom (files fs).
Proof. intros Hf. unfold put_file, upd, upd_files. cbn [files]. rewrite dom_insert_L. set_solver. Qed.

Lemma fid_create_new fs path uid : disk_ok fs -> let '(f, fs') := fid_create fs path uid in new_file fs f fs'.
Proof.
  intros Hok. unfold fid_create. set (f := fresh _). assert (f ∉ dom (files fs)) as Hf by apply is_fresh.
  clearbody f. split; [|split; [done|]].
  - apply (disk_ok_same fs); [done|done| |done]. intros g e. rewrite holds_put. apply not_elem_of_dom in Hf.
    unfold holds. destruct (decide (g = f)) as [->|]; naive_solver.
  - cbn [allocated disk_files]. unfold put_file, upd, upd_files. cbn [files]. by rewrite dom_insert_L.
Qed.

(** A descriptor closed, with its file. *)
Lemma close_ok fs fs' f x e :
  disk_ok fs -> files fs !! f = Some x -> desc_of x = Some e -> freed_used fs' = freed_used fs -> files fs' = files fs ->
  opened (host fs') = opened (host fs) ∖ {[e]} -> disk_ok (put_file fs' f (x <| is_opened := false |>)).
Proof.
  intros [Z1 Z2 Z3 Z4] Hf He Hu Hfi Ho. assert (holds fs f e) as Hfe by (by exists x).
  assert (forall g e', holds (put_file fs' f (x <| is_opened := false |>)) g e' <-> g <> f /\ holds fs g e') as Hh.
  { intros g e'. rewrite holds_put. unfold holds. rewrite Hfi. naive_solver. }
  split; [cbn; congruence| | |].
  - intros e'. unfold put_file, upd, upd_files. cbn [host]. rewrite Ho, elem_of_difference, elem_of_singleton, Z2.
    split.
    + intros [[|[g Hg]] Hne]; [by left|right]. exists g. apply Hh. split; [|done]. intros ->. destruct Hg as (y & Hy & Ey). naive_solver.
    + intros [Hb|[g [Hgf Hg]%Hh]]; [split; [by left|intros ->; by apply (Z3 f e)]|]. split; [right; by exists g|].
      intros ->. by apply Hgf, (Z4 g f e).
  - intros g e' [_ Hg]%Hh. by apply (Z3 g).
  - intros g g' e' [_ Hg]%Hh [_ Hg']%Hh. by apply (Z4 g g' e').
Qed.

(** A descriptor opened, for a file that has none. *)
Lemma open_ok fs fs' f x e x' :
  disk_ok fs -> files fs !! f = Some x -> desc_of x = None -> desc_of x' = Some e -> freed_used fs' = freed_used fs ->
  files fs' = files fs -> (e ∉ opened (host fs)) -> opened (host fs') = {[e]} ∪ opened (host fs) -> disk_ok (put_file fs' f x').
Proof.
  intros [Z1 Z2 Z3 Z4] Hf Hx Hx' Hu Hfi Hne Ho.
  assert (forall g e', holds (put_file fs' f x') g e' <-> (g = f /\ e' = e) \/ holds fs g e') as Hh.
  { intros g e'. rewrite holds_put. unfold holds. rewrite Hfi, Hx'. destruct (decide (g = f)) as [->|]; naive_solver. }
  assert (forall g, ~ holds fs g e) as Hnew by (intros g Hg; apply Hne, Z2; right; by exists g).
  split; [cbn; congruence| | |].
  - intros e'. unfold put_file, upd, upd_files in *. cbn [host]. rewrite Ho, elem_of_union, elem_of_singleton, Z2. split.
    + intros [->|[|[g Hg]]]; [right; exists f; apply Hh; by left|by left|right; exists g; apply Hh; by right].
    + intros [|[g [[-> ->]|Hg]%Hh]]; [by right; left|by left|right; right; by exists g].
  - intros g e' [[-> ->]|Hg]%Hh; [|by apply (Z3 g)]. intros Hb. apply Hne, Z2. by left.
  - intros g g' e' [[-> ->]|Hg]%Hh [[-> E]|Hg']%Hh; [done|by destruct (Hnew g')|subst; by destruct (Hnew g)|by apply (Z4 g g' e')].
Qed.

(** *** Operations *)

Lemma disk_close_ok fs f :
  disk_ok fs -> f ∈ dom (files fs) ->
  same_files fs (disk_close fs f) /\ exists x, files (disk_close fs f) !! f = Some x /\ is_opened x = false.
Proof.
  intros Hok Hf. destruct (deref_live fs f Hf) as (x & Hx & Ed). unfold disk_close. rewrite Ed.
  destruct (is_opened x) eqn:Eo; [|split; [done|by exists x]].
  set (fs1 := if is_dir x then _ else _).
  assert (opened (host fs1) = opened (host fs) ∖ {[(is_dir x, u x)]} /\ files fs1 = files fs /\ freed_used fs1 = freed_used fs) as (Ho & Hfi & Hu).
  { unfold fs1, do_sys. destruct (is_dir x).
    - pose proof (sys_closedir (u x) (host fs)) as E. by destruct (call (Closedir (u x)) (host fs)).
    - pose proof (sys_close (u x) (host fs)) as E. by destruct (call (Close (u x)) (host fs)). }
  clearbody fs1. split.
  - split; [apply (close_ok fs fs1 f x (is_dir x, u x)); try done; unfold desc_of; by rewrite Eo|].
    cbn [allocated disk_files]. rewrite dom_put_file; rewrite Hfi; done.
  - eexists. split; [unfold put_file, upd, upd_files; cbn [files]; apply lookup_insert_eq|done].
Qed.

Lemma disk_delete_ok fs f :
  disk_ok fs -> f ∈ dom (files fs) -> disk_ok (disk_delete fs f) /\ dom (files (disk_delete fs f)) = dom (files fs) ∖ {[f]}.
Proof.
  intros Hok Hf. destruct (deref_live fs f Hf) as (x & Hx & Ed). unfold disk_delete. rewrite Ed.
  set (fs1 := if is_opened x then _ else _).
  assert (same_files fs fs1 /\ exists y, files fs1 !! f = Some y /\ is_opened y = false) as [[Hok1 Hdom] (y & Hy & Ey)].
  { unfold fs1. destruct (is_opened x) eqn:Eo; [by apply disk_close_ok|]. split; [done|by exists x]. }
  cbn [allocated disk_files] in Hdom. cbn [fs_ok disk_files] in Hok1. clearbody fs1.
  split; [|unfold upd, upd_files; cbn [files]; by rewrite dom_delete_L, Hdom].
  apply (disk_ok_same fs1); [done|done| |done]. intros g e. unfold holds, upd, upd_files. cbn [files].
  destruct (decide (g = f)) as [->|]; [|by rewrite lookup_delete_ne].
  rewrite lookup_delete_eq, Hy. unfold desc_of. split; [naive_solver|]. intros (z & [= <-] & Hz). by rewrite Ey in Hz.
Qed.

(** The neutral operations. *)
Lemma neutral_same {A} (c : sys A) fs0 fs r fs' :
  neutral c = true -> same_files fs0 fs -> do_sys c fs = (r, fs') -> same_files fs0 fs'.
Proof.
  intros Hn [Hok Hal] E. destruct (do_sys_neutral c fs Hn Hok) as [Hok' Hf]. rewrite E in Hok', Hf. cbn [snd] in Hok', Hf.
  split; [done|]. cbn [allocated disk_files] in *. by rewrite Hf.
Qed.

Lemma same_refl fs : disk_ok fs -> same_files fs fs.
Proof. done. Qed.

(** Runs the calls of an operation, which are neutral. *)
Ltac neutral_calls :=
  repeat match goal with
  | Hs : same_files _ ?fs |- context [do_sys ?c ?fs] =>
      let E := fresh in destruct (do_sys c fs) as [[?|?] ?] eqn:E; apply (neutral_same c _ fs _ _ eq_refl Hs) in E; clear Hs
  end.

Ltac live_file f :=
  let x := fresh "x" in let Hx := fresh "Hx" in let E := fresh in
  match goal with Hf : f ∈ dom (files ?fs) |- _ => destruct (deref_live fs f Hf) as (x & Hx & E); rewrite E end.

Ltac neutral_op := neutral_calls; assumption.

Lemma errno_nonzero e : 0 < e -> errno_to_p9 e <> 0.
Proof.
  intros He. unfold errno_to_p9. destruct (Z.eqb_spec e 0); [lia|]. destruct (List.find _ _) as [[a b]|] eqn:E; [|done].
  apply List.find_some in E as [Hin _]. cbn. unfold errno_table in Hin. cbn in Hin. naive_solver.
Qed.

Lemma new_file_after fs fs1 f fs2 : same_files fs fs1 -> new_file fs1 f fs2 -> new_file fs f fs2.
Proof. intros [_ E] (? & ? & ?). unfold new_file. by rewrite <- E. Qed.

Lemma disk_attach_ok fs uid uname aname :
  disk_ok fs -> let '(err, f, _, fs') := disk_attach fs uid uname aname in if nz err then same_files fs fs' else new_file fs f fs'.
Proof.
  intros Hok. unfold disk_attach. destruct (do_sys (Lstat (root_path fs)) fs) as [[e|st] fs1] eqn:E.
  - assert (same_files fs fs1) as Hs by (by apply (neutral_same (Lstat (root_path fs)) fs fs (inl e))).
    assert (0 < e) as He.
    { unfold do_sys in E. destruct (call _ _) as [r h'] eqn:Ec. injection E as -> _. by apply sys_errno in Ec. }
    unfold nz. destruct (Z.eqb_spec (- errno_to_p9 e) 0) as [E0|]; [|done]. pose proof (errno_nonzero e He). lia.
  - assert (same_files fs fs1) as Hs by (by apply (neutral_same (Lstat (root_path fs)) fs fs (inr st))).
    pose proof (fid_create_new fs1 (root_path fs1) uid (proj1 Hs)) as Hn. destruct (fid_create _ _ _) as [f fs2]. by apply (new_file_after fs fs1).
Qed.

Lemma walk_names_ok fs0 fs path names : same_files fs0 fs -> same_files fs0 (walk_names fs path names).2.
Proof.
  revert fs path. induction names as [|name names IH]; intros fs path Hs; cbn [walk_names]; [done|]. neutral_calls; [done|].
  match goal with Hs : same_files fs0 ?f |- _ => specialize (IH f (compose_path path name) Hs) end.
  by destruct (walk_names _ _ names) as [[? ?] ?].
Qed.

Lemma disk_walk_ok fs f names :
  disk_ok fs -> f ∈ dom (files fs) ->
  let '(err, f', _, fs') := disk_walk fs f names in if err <? 0 then same_files fs fs' else new_file fs f' fs'.
Proof.
  intros Hok Hf. unfold disk_walk. live_file f. pose proof (walk_names_ok fs fs (file_path x) names (same_refl fs Hok)) as Hs.
  destruct (walk_names fs (file_path x) names) as [[path qids] fs1]. cbn [snd] in Hs.
  pose proof (fid_create_new fs1 path (file_uid x) (proj1 Hs)) as Hn. destruct (fid_create _ _ _) as [f' fs2].
  destruct (Z.ltb_spec (Z.of_nat (length qids)) 0); [lia|]. by apply (new_file_after fs fs1).
Qed.

(** After the file has been closed, a descriptor is opened for it. *)
Lemma opened_same fs0 fs fs' f x x' e :
  same_files fs0 fs -> files fs !! f = Some x -> is_opened x = false -> desc_of x' = Some e -> freed_used fs' = freed_used fs ->
  files fs' = files fs -> (e ∉ opened (host fs)) -> opened (host fs') = {[e]} ∪ opened (host fs) -> same_files fs0 (put_file fs' f x').
Proof.
  intros [Hok Hal] Hx Ho Hx' Hu Hfi Hne Hop. split.
  - apply (open_ok fs fs' f x e); try done. unfold desc_of. by rewrite Ho.
  - cbn [allocated disk_files] in *. rewrite dom_put_file; rewrite Hfi; [done|]. by apply elem_of_dom_2 in Hx.
Qed.

Lemma do_sys_fields {A} (c : sys A) fs r fs' :
  do_sys c fs = (r, fs') -> call c (host fs) = (r, host fs') /\ files fs' = files fs /\ freed_used fs' = freed_used fs.
Proof. unfold do_sys. destruct (call c (host fs)) as [r' h']. by intros [= <- <-]. Qed.

Lemma same_opened fs0 fs fs' :
  same_files fs0 fs -> files fs' = files fs -> freed_used fs' = freed_used fs -> opened (host fs') = opened (host fs) -> same_files fs0 fs'.
Proof.
  intros [Hok Hal] Hfi Hu Ho. cbn [allocated disk_files] in *. split; [|cbn; by rewrite Hfi].
  apply (disk_ok_same fs); try done. intros g e. unfold holds. by rewrite Hfi.
Qed.

Lemma do_open fs path flags mode r fs' :
  do_sys (Open path flags mode) fs = (r, fs') ->
  match r with
  | inl _ => opened (host fs') = opened (host fs)
  | inr fd => ((false, fd) ∉ opened (host fs)) /\ opened (host fs') = {[(false, fd)]} ∪ opened (host fs)
  end.
Proof. intros [E _]%do_sys_fields. pose proof (sys_open path flags mode (host fs)) as Hs. by rewrite E in Hs. Qed.

Lemma do_opendir fs path r fs' :
  do_sys (Opendir path) fs = (r, fs') ->
  match r with
  | inl _ => opened (host fs') = opened (host fs)
  | inr dirp => ((true, dirp) ∉ opened (host fs)) /\ opened (host fs') = {[(true, dirp)]} ∪ opened (host fs)
  end.
Proof. intros [E _]%do_sys_fields. pose proof (sys_opendir path (host fs)) as Hs. by rewrite E in Hs. Qed.

Lemma disk_open_ok fs f flags : disk_ok fs -> f ∈ dom (files fs) -> same_files fs (disk_open fs f flags).2.
Proof.
  intros Hok Hf. destruct (disk_close_ok fs f Hok Hf) as [Hs (x & Hx & Ho)]. unfold disk_open. cbv zeta.
  generalize dependent (disk_close fs f). intros fs1 Hs Hx. unfold deref. rewrite Hx.
  destruct (do_sys (Stat (file_path x)) fs1) as [[e|st] fs2] eqn:E2; pose proof (neutral_same (Stat (file_path x)) fs fs1 _ _ eq_refl Hs E2) as Hs2; [done|].
  apply do_sys_fields in E2 as (_ & Hfi & _). rewrite <- Hfi in Hx.
  destruct (has flags _).
  - destruct (do_sys (Opendir _) fs2) as [[e|dirp] fs3] eqn:E3; pose proof (do_opendir _ _ _ _ E3) as Hop; apply do_sys_fields in E3 as (_ & Hfi3 & Hu3).
    + by apply (same_opened fs fs2).
    + destruct Hop. by apply (opened_same fs fs2 fs3 f x _ (true, dirp)).
  - destruct (do_sys (Open _ _ _) fs2) as [[e|fd] fs3] eqn:E3; pose proof (do_open _ _ _ _ _ _ E3) as Hop; apply do_sys_fields in E3 as (_ & Hfi3 & Hu3).
    + by apply (same_opened fs fs2).
    + destruct Hop. by apply (opened_same fs fs2 fs3 f x _ (false, fd)).
Qed.

Lemma do_lstat_opened fs path r fs' : do_sys (Lstat path) fs = (r, fs') -> opened (host fs') = opened (host fs).
Proof. intros [E _]%do_sys_fields. pose proof (sys_other _ (Lstat path) (host fs) eq_refl) as Hs. by rewrite E in Hs. Qed.

Lemma do_close_opened fs fd r fs' : do_sys (Close fd) fs = (r, fs') -> opened (host fs') = opened (host fs) ∖ {[(false, fd)]}.
Proof. intros [E _]%do_sys_fields. pose proof (sys_close fd (host fs)) as Hs. by rewrite E in Hs. Qed.

Lemma disk_create_ok fs f name flags mode gid : disk_ok fs -> f ∈ dom (files fs) -> same_files fs (disk_create fs f name flags mode gid).2.
Proof.
  intros Hok Hf. destruct (disk_close_ok fs f Hok Hf) as [Hs (x & Hx & Ho)]. unfold disk_create. cbv zeta.
  generalize dependent (disk_close fs f). intros fs1 Hs Hx. unfold deref. rewrite Hx.
  destruct (do_sys (Open _ _ _) fs1) as [[e|fd] fs2] eqn:E2; pose proof (do_open _ _ _ _ _ _ E2) as Hop; apply do_sys_fields in E2 as (_ & Hfi2 & Hu2).
  { by apply (same_opened fs fs1). }
  destruct Hop as [Hne Hop].
  destruct (do_sys (Lstat _) fs2) as [[e|st] fs3] eqn:E3; pose proof (do_lstat_opened _ _ _ _ E3) as Hl; apply do_sys_fields in E3 as (_ & Hfi3 & Hu3).
  - destruct (do_sys (Close fd) fs3) as [r fs4] eqn:E4. pose proof (do_close_opened _ _ _ _ E4) as Hc.
    apply do_sys_fields in E4 as (_ & Hfi4 & Hu4).
    assert (same_files fs fs4) as H4; [|by destruct r]. apply (same_opened fs fs1); [done|congruence|congruence|].
    rewrite Hc, Hl, Hop. set_solver.
  - apply (opened_same fs fs1 fs3 f x _ (false, fd)); try done; congruence.
Qed.

Lemma readdir_loop_ok fs0 n fs x buf count : same_files fs0 fs -> same_files fs0 (readdir_loop n fs x buf count).2.
Proof.
  revert fs buf. induction n as [|n IH]; intros fs buf Hs; cbn [readdir_loop]; [done|].
  destruct (do_sys (Readdir (u x)) fs) as [[e|[de|]] fs1] eqn:E1; apply (neutral_same (Readdir (u x)) _ fs _ _ eq_refl Hs) in E1; [done| |done].
  destruct (count <? _); [done|]. clear Hs.
  destruct (do_sys (Telldir (u x)) fs1) as [[?|?] fs2] eqn:E2; apply (neutral_same (Telldir (u x)) _ fs1 _ _ eq_refl E1) in E2;
    (destruct (d_type de =? DT_UNKNOWN); [neutral_calls; by apply IH|by apply IH]).
Qed.

Lemma disk_readdir_ok fs f o n : disk_ok fs -> f ∈ dom (files fs) -> same_files fs (disk_readdir fs f o n).2.
Proof.
  intros Hok%same_refl Hf. unfold disk_readdir. live_file f. destruct (_ || _); [done|].
  set (fs1 := if o =? 0 then _ else _). assert (same_files fs fs1) as Hs by (unfold fs1; destruct (o =? 0); neutral_op).
  pose proof (readdir_loop_ok fs (S (Z.to_nat n)) fs1 x [] n Hs) as Hl. by destruct (readdir_loop _ fs1 x [] n).
Qed.

Lemma attr_step_ok {A} fs0 c (k : sys A) fs rest :
  neutral k = true -> same_files fs0 fs -> (forall fs, same_files fs0 fs -> same_files fs0 (rest fs).2) -> same_files fs0 (attr_step c k fs rest).2.
Proof.
  intros Hn Hs Hr. unfold attr_step. destruct c; [|by apply Hr].
  destruct (do_sys k fs) as [[?|?] fs1] eqn:E; apply (neutral_same k _ fs _ _ Hn Hs) in E; [done|by apply Hr].
Qed.

Lemma disk_setattr_ok fs f mask mode uid gid size a an m mn :
  disk_ok fs -> f ∈ dom (files fs) -> same_files fs (disk_setattr fs f mask mode uid gid size a an m mn).2.
Proof.
  intros Hok%same_refl Hf. unfold disk_setattr. live_file f. cbv zeta.
  repeat (apply attr_step_ok; [done|assumption|]; intros ? ?). assumption.
Qed.

(** The other operations change nothing but the host. *)
Ltac neutral_law :=
  intros; match goal with Hok : disk_ok _ |- _ => apply same_refl in Hok end;
  cbn [fs_statfs fs_mkdir fs_stat fs_read fs_write fs_link fs_symlink fs_mknod fs_readlink fs_renameat fs_unlinkat fs_lock
       fs_getlock disk_fs];
  unfold disk_statfs, disk_mkdir, disk_stat, disk_read, disk_write, disk_link, disk_symlink, disk_mknod, disk_readlink,
    disk_renameat, disk_unlinkat, disk_lock, disk_getlock, sys_err, lstat_qid;
  repeat match goal with Hf : ?f ∈ dom (files ?fs) |- context [deref ?fs ?f] => live_file f end; cbv zeta;
  try match goal with |- same_files _ (if ?c then _ else _).2 => destruct c; [assumption|] end;
  neutral_calls; repeat match goal with p : prod _ _ |- _ => destruct p end; assumption.

#[export] Instance disk_laws : FSLaws (FSDeviceDisk W).
Proof.
  split; cbn [fs_ok allocated disk_files];
    first [ exact disk_delete_ok | exact disk_attach_ok | exact disk_walk_ok | exact disk_open_ok | exact disk_create_ok
          | exact disk_setattr_ok | exact disk_readdir_ok | neutral_law ].
Qed.
End Disk.

(** ** The device *)

Section Guest.
Context {B W : Type} `{BusLaws B} `{HostLaws W} (stack_desc : VIRTIODesc) (malloc : Z -> list Z) (lock_addr client_addr : Z).

Abbreviation DiskDevice := (vstate B (VIRTIO9PDevice (FSDeviceDisk W))).

(** A guest: writes to registers of the device, each with the state of the bus, its
    memory included, at that time. *)
Fixpoint guest_run (fuel : nat) (dev : DiskDevice) (ops : list (B * (Z * Z * Z))) : res DiskDevice :=
  match ops with
  | [] => Done dev
  | (b, (offset, val, size_log2)) :: ops =>
      let* dev := virtio_mmio_write stack_desc (p9_handlers stack_desc malloc lock_addr client_addr) fuel (dev <| bus := b |>) offset val size_log2 in
      guest_run fuel dev ops
  end.

Definition owns (base : gset (bool * Z)) (dev : DiskDevice) : Prop := @p9_ok (FSDeviceDisk W) (disk_files base) (vx dev).

Lemma guest_run_ok base fuel dev ops dev' :
  owns base dev -> guest_run fuel dev ops = Done dev' -> owns base dev'.
Proof.
  revert dev. induction ops as [|[b [[offset val] sz]] ops IH]; intros dev Hok; cbn [guest_run]; [by intros [= <-]|].
  destruct (virtio_mmio_write _ _ _ _ _ _ _) as [dev1| |] eqn:E; cbn [rbind]; try done. apply IH.
  apply (mmio_write_model stack_desc (p9_handlers stack_desc malloc lock_addr client_addr) (@p9_ok (FSDeviceDisk W) (disk_files base)))
    in E; [exact E| |done|exact Hok].
  intros fuel' s q i r w x s'. apply recv_request_ok.
Qed.

(** C24 A 9p device that serves a host directory, under any guest: whatever requests the
    guest queues and whatever its memory holds when the device reads it, no request uses
    a file object after it is freed, every allocated file object belongs to exactly one
    fid, and the descriptors and directories that are open on the host are those that
    were open before and those of the open files, each of one file. *)
Theorem p9_files_owned fuel stack_stat h root fs b tag dev ops dev' :
  fs_disk_init stack_stat h root = Some fs -> virtio_9p_init b fs tag = Done dev -> guest_run fuel dev ops = Done dev' ->
  let disk := p9_fs (vx dev') in
  freed_used disk = false /\
  NoDup (fid_list (vx dev')).*1 /\ NoDup (fid_list (vx dev')).*2 /\ dom (files disk) = list_to_set (fid_list (vx dev')).*2 /\
  (forall e, e ∈ opened (host disk) <-> e ∈ opened h \/ exists f, holds disk f e) /\
  (forall f e, holds disk f e -> e ∉ opened h) /\ (forall f g e, holds disk f e -> holds disk g e -> f = g).
Proof.
  intros Hi Hv Hr disk. apply (guest_run_ok (opened h)) in Hr as [[Z1 Z2 Z3 Z4] Hk Hf Ho]; [done|].
  unfold fs_disk_init in Hi. pose proof (sys_other _ (Lstat root) h eq_refl) as Hl. destruct (call (Lstat root) h) as [r h'].
  destruct (S_ISDIR _); [|done]. injection Hi as <-. unfold virtio_9p_init in Hv. cbv zeta in Hv.
  destruct (_ <=? _); [|done]. injection Hv as <-.
  assert (forall f e, ~ holds (mkDisk h' root ∅ false) f e) as Hno by (intros f e (x & Hx & _); cbn [files] in Hx; by rewrite lookup_empty in Hx).
  split; [|apply NoDup_nil_2|apply NoDup_nil_2|done]. split; [done| | |].
  - intros e. cbn [host p9_fs vx]. cbn [snd] in Hl. rewrite Hl. split; [by left|]. intros [|[f []%Hno]]. done.
  - intros f e []%Hno.
  - intros f g e []%Hno.
Qed.
End Guest.

(** ** Defects *)

(** Names are not checked: with the name [..] a walk leaves the directory that is served. *)
Lemma walk_leaves_root {W} `{Host W} (fs : FSDeviceDisk W) f x st h :
  files fs !! f = Some x -> call (Lstat (file_path x ++ [47; 46; 46])) (host fs) = (inr st, h) ->
  let '(n, f', _, fs') := disk_walk fs f [[46; 46]] in
  n = 1 /\ file_path <$> files fs' !! f' = Some (file_path x ++ [47; 46; 46]).
Proof.
  intros Hx Hc. unfold disk_walk, deref. rewrite Hx. cbn [walk_names]. unfold compose_path. cbn [app]. unfold do_sys. rewrite Hc.
  cbn [length]. split; [done|]. unfold put_file, upd, upd_files. cbn [files]. by rewrite lookup_insert_eq.
Qed.
