(* ===== verification/P9Req.v ===== *)
(** * Requests of the 9p device, from descriptors to guest memory

    What the device parses is what the client has written, field by field
    ([p9_parse_print]); and the composition of the transport and the device: what a
    read request leaves in the memory of the guest ([p9_read_served]). *)

From S2P Require Import Prelude Iomem Cpu Virtio VirtioDev Virtqueue UsedRing VirtioOk Scatter BlockReq Json P9.

(** ** Messages *)

Lemma length_le_list n v : length (le_list n v) = n.
Proof. revert v. induction n as [|n IH]; intros v; cbn; [done|]. by rewrite IH. Qed.

Lemma le_value_le_list n v : fits (8 * Z.of_nat n) v -> le_value (le_list n v) = v.
Proof.
  revert v. induction n as [|n IH]; intros v Hv; cbn [le_list le_value]; [unfold fits in Hv; cbn in Hv; lia|].
  rewrite IH; [apply byte_split|]. replace (8 * Z.of_nat n) with (8 * Z.of_nat (S n) - 8) by lia. by apply fits_shiftr_sub; [lia|].
Qed.

(** Arguments as a client can send them: numbers of their width, strings without NUL. *)
Definition arg_ok (c : fmt) : arg c -> Prop :=
  match c with
  | Fb => fits 8
  | Fh => fits 16
  | Fw => fits 32
  | Fd => fits 64
  | Fs => fun str => cstr str = str
  | FQ => fun _ => False
  end.

Fixpoint args_ok (l : list fmt) : args l -> Prop :=
  match l with
  | [] => fun _ => True
  | c :: l => fun a => arg_ok c a.1 /\ args_ok l a.2
  end.

Section Parse.
Context {B F : Type} `{BusLaws B} `{FSDevice F} (stack_desc : VIRTIODesc) (malloc : Z -> list Z).
Hypothesis (Hstack : length stack_desc = 16%nat).
Hypothesis (Hmalloc : forall n, 0 <= n -> Z.of_nat (length (malloc n)) = n).
Context (U : Z -> Prop) (dev : vstate B (VIRTIO9PDevice F)) (q : Z) (fuel : nat) (idx : Z) (rs ws : list VIRTIODesc) (ls : list (list Z)).
Hypothesis (Hpages : page_mapped (bus dev)).
Hypothesis (Hread : readable U dev q fuel idx rs ws ls).

(** The readable part of the chain has [bs] at [off]. *)
Definition sent_at (off : Z) (bs : list Z) : Prop :=
  0 <= off /\ off + Z.of_nat (length bs) <= desc_total rs /\ peek (mjoin ls) off (Z.of_nat (length bs)) = bs.

Lemma sent_app off bs cs : sent_at off (bs ++ cs) -> sent_at off bs /\ sent_at (off + Z.of_nat (length bs)) cs.
Proof.
  intros (Ho & Ht & Hp). rewrite length_app in Ht, Hp. rewrite Nat2Z.inj_add in *.
  rewrite (peek_split _ off (Z.of_nat (length bs))) in Hp by lia.
  pose proof (desc_total_concat _ _ _ _ (proj1 (proj2 (proj2 (proj2 Hread))))) as Hc.
  apply app_inj_1 in Hp as [Hb Hcs].
  - split; (split; [lia|]; split; [lia|]); [done|]. by replace (Z.of_nat (length bs) + Z.of_nat (length cs) - Z.of_nat (length bs)) with (Z.of_nat (length cs)) in Hcs by lia.
  - apply Nat2Z.inj. apply length_peek; lia.
Qed.

(** Bytes into a buffer that has room for them. *)
Lemma copy_sent off bs buf :
  sent_at off bs -> Z.of_nat (length bs) <= Z.of_nat (length buf) ->
  memcpy_from_queue stack_desc fuel dev buf q idx off (Z.of_nat (length bs)) = Done (0, poke buf 0 bs).
Proof.
  intros (Ho & Ht & Hp) Hb. destruct (decide (length bs = 0)%nat) as [E|].
  - apply nil_length_inv in E as ->. unfold memcpy_from_queue, memcpy_to_from_queue. cbn. done.
  - rewrite (memcpy_from_queue_gathers U dev q Hpages stack_desc Hstack fuel idx rs ws ls) by (done || lia). by rewrite Hp.
Qed.

Lemma peek_poke (buf bs : list Z) : (length bs <= length buf)%nat -> peek (poke buf 0 bs) 0 (Z.of_nat (length bs)) = bs.
Proof.
  intros Hl. unfold peek, poke. rewrite Nat2Z.id, drop_0. rewrite <- (take_drop (length bs) buf), list_inserts_0_r by (rewrite length_take; lia).
  rewrite take_app_length. done.
Qed.

Lemma get_number_sent off n v :
  fits (8 * Z.of_nat n) v -> (n <= 16)%nat -> sent_at off (le_list n v) ->
  get_number stack_desc malloc fuel dev q idx off (Z.of_nat n) = Done (Some v).
Proof.
  intros Hv Hn Hs. unfold get_number. pose proof (Hmalloc 16 ltac:(lia)) as Hm.
  pose proof (copy_sent off _ (malloc 16) Hs) as Hc. rewrite length_le_list in Hc. rewrite Hc by lia. cbn [rbind nz].
  unfold get_le. pose proof (peek_poke (malloc 16) (le_list n v)) as Hp. rewrite length_le_list in Hp.
  rewrite Hp by lia. change (nz 0) with false. by rewrite le_value_le_list.
Qed.

Lemma unmarshall_arg_sent off c (a : arg c) bs :
  arg_ok c a -> marshall_arg c a = Some bs -> sent_at off bs ->
  unmarshall_arg stack_desc malloc fuel dev q idx off c = Done (Some (a, off + Z.of_nat (length bs))).
Proof.
  destruct c; cbn [arg arg_ok marshall_arg unmarshall_arg]; intros Ha Hb Hs; try done.
  - injection Hb as <-. change 1 with (Z.of_nat 1). rewrite (get_number_sent off 1 a) by (done || lia). done.
  - injection Hb as <-. change 2 with (Z.of_nat 2). rewrite (get_number_sent off 2 a) by (done || lia). done.
  - injection Hb as <-. change 4 with (Z.of_nat 4). rewrite (get_number_sent off 4 a) by (done || lia). done.
  - injection Hb as <-. change 8 with (Z.of_nat 8). rewrite (get_number_sent off 8 a) by (done || lia). done.
  - cbv zeta in Hb. destruct (Z.leb_spec (Z.of_nat (length a)) 65535); [|done]. apply (inj Some) in Hb as <-.
    apply sent_app in Hs as [Hl Hs]. rewrite length_le_list in Hs.
    change (get_number _ _ _ _ _ _ _ 2) with (get_number stack_desc malloc fuel dev q idx off (Z.of_nat 2)).
    rewrite (get_number_sent off 2 (Z.of_nat (length a))) by (done || unfold fits; lia). cbn [rbind].
    rewrite (copy_sent (off + 2) a) by (done || rewrite Hmalloc; lia). cbn [rbind]. change (nz 0) with false. cbv iota.
    pose proof (peek_poke (malloc (Z.of_nat (length a) + 1)) a) as Hp. unfold peek in Hp. rewrite drop_0 in Hp.
    rewrite Hp by (apply Nat2Z.inj_le; rewrite Hmalloc; lia). rewrite Ha, length_app, length_le_list. do 3 f_equal. lia.
Qed.

(** What the device reads is what the client has written: arguments marshalled into
    the readable part of a descriptor chain, at any offset and split over the
    descriptors in any way, are returned by unmarshall unchanged, with the offset
    behind them. *)
Lemma p9_parse_print max_len l (a : args l) bs off :
  args_ok l a -> marshall max_len l a = Done bs -> sent_at off bs ->
  unmarshall stack_desc malloc fuel dev q idx off l = Done (Some (a, off + Z.of_nat (length bs))).
Proof.
  revert max_len a bs off. induction l as [|c l IH]; intros max_len a bs off.
  - destruct a. intros _ [= <-] _. cbn. by rewrite Z.add_0_r.
  - destruct a as [a r]. cbn [args_ok fst snd marshall unmarshall]. intros [Ha Hr] Hm Hs.
    destruct (marshall_arg c a) as [b1|] eqn:E1; [|done]. destruct (_ <=? max_len); [|done].
    destruct (marshall _ l r) as [b2| |] eqn:E2; cbn [rbind] in Hm; try done. injection Hm as <-. apply sent_app in Hs as [Hs1 Hs2].
    rewrite (unmarshall_arg_sent off c a b1) by done. cbn [rbind]. rewrite (IH _ r b2 _ Hr E2 Hs2). cbn. rewrite length_app. do 3 f_equal. lia.
Qed.
End Parse.

(** ** Served requests *)

Section Serve.
Context {B F : Type} `{BusLaws B} `{FSDevice F} (stack_desc : VIRTIODesc) (malloc : Z -> list Z) (lock_addr client_addr : Z).
Hypothesis (Hstack : length stack_desc = 16%nat).
Hypothesis (Hmalloc : forall n, 0 <= n -> Z.of_nat (length (malloc n)) = n).
Implicit Types U : Z -> Prop.

(** The request at descriptor [idx]: the readable part has the message [id] with [tag]
    and the arguments [a], the writable part is at the host addresses [mjoin pss]. *)
Record p9_request U (dev : vstate B (VIRTIO9PDevice F)) (fuel : nat) (idx id tag : Z) (l : list fmt) (a : args l)
    (rs ws : list VIRTIODesc) (ls pss : list (list Z)) : Prop := {
  pq_pages : page_mapped (bus dev);
  pq_readable : readable U dev 0 fuel idx rs ws ls;
  pq_writable : writable U dev 0 fuel idx rs ws pss;
  pq_message : exists size bs rest, marshall (2 ^ 31) l a = Done bs /\
    mjoin ls = (le_list 4 size ++ [id] ++ le_list 2 tag) ++ bs ++ rest;
  pq_args : args_ok l a;
  pq_id : fits 8 id;
  pq_tag : fits 16 tag;
  pq_idle : p9_in_progress (vx dev) = false;
  pq_distinct : NoDup (mjoin pss);
}.

Section Request.
Context U (dev : vstate B (VIRTIO9PDevice F)) (fuel : nat) (idx id tag : Z) (l : list fmt) (a : args l) (rs ws : list VIRTIODesc) (ls pss : list (list Z)).
Context (Hreq : p9_request U dev fuel idx id tag l a rs ws ls pss).

(** The parts of the message. *)
Lemma p9_message_sent :
  exists size bs, marshall (2 ^ 31) l a = Done bs /\
    sent_at rs ls 0 (le_list 4 size ++ [id] ++ le_list 2 tag) /\ sent_at rs ls 7 bs.
Proof.
  destruct (pq_message _ _ _ _ _ _ _ _ _ _ _ _ Hreq) as (size & bs & rest & Hm & Hj).
  pose proof (pq_readable _ _ _ _ _ _ _ _ _ _ _ _ Hreq) as Hr.
  pose proof (desc_total_concat _ _ _ _ (proj1 (proj2 (proj2 (proj2 Hr))))) as Ht.
  assert (sent_at rs ls 0 ((le_list 4 size ++ [id] ++ le_list 2 tag) ++ bs ++ rest)) as Hs.
  { split; [lia|]. rewrite <- Hj. split; [lia|]. unfold peek. rewrite Nat2Z.id, drop_0. by apply take_ge. }
  apply (sent_app stack_desc Hstack U dev 0 fuel idx rs ws ls Hr) in Hs as [Hh Hs]. apply (sent_app stack_desc Hstack U dev 0 fuel idx rs ws ls Hr) in Hs as [Hb _].
  exists size, bs. by rewrite !length_app, !length_le_list in Hb.
Qed.

Lemma p9_request_args k :
  exists o, with_args stack_desc malloc fuel dev 0 idx 7 l k = k a o.
Proof.
  destruct p9_message_sent as (size & bs & Hm & _ & Hs). unfold with_args.
  rewrite (p9_parse_print stack_desc malloc Hstack Hmalloc U dev 0 fuel idx rs ws ls (pq_pages _ _ _ _ _ _ _ _ _ _ _ _ Hreq)
    (pq_readable _ _ _ _ _ _ _ _ _ _ _ _ Hreq) (2 ^ 31) l a bs 7); [by eexists|apply Hreq|done|done].
Qed.

Lemma p9_header_read :
  exists buf, memcpy_from_queue stack_desc fuel dev (malloc sizeof_buf) 0 idx 0 7 = Done (0, buf) /\
    get_le buf 4 1 = id /\ get_le buf 5 2 = tag.
Proof.
  destruct p9_message_sent as (size & bs & _ & Hs & _). set (hd := le_list 4 size ++ [id] ++ le_list 2 tag) in *.
  pose proof (Hmalloc sizeof_buf ltac:(unfold sizeof_buf; lia)) as Hl. assert (length hd = 7%nat) as Hh by (unfold hd; by rewrite !length_app, !length_le_list).
  exists (poke (malloc sizeof_buf) 0 hd). split; [|split].
  - rewrite <- (copy_sent stack_desc Hstack U dev 0 fuel idx rs ws ls (pq_pages _ _ _ _ _ _ _ _ _ _ _ _ Hreq)
      (pq_readable _ _ _ _ _ _ _ _ _ _ _ _ Hreq) 0 hd) by (done || unfold sizeof_buf in *; lia). by rewrite Hh.
  - unfold get_le, poke. rewrite <- (take_drop 7 (malloc sizeof_buf)), list_inserts_0_r by (rewrite length_take; unfold sizeof_buf in *; lia).
    cbn. apply Z.lor_0_r.
  - unfold get_le, poke. rewrite <- (take_drop 7 (malloc sizeof_buf)), list_inserts_0_r by (rewrite length_take; unfold sizeof_buf in *; lia).
    change (peek _ 5 2) with (le_list 2 tag). apply le_value_le_list, Hreq.
Qed.

(** A request that comes to a reply. *)
Lemma p9_request_replied p buf dev1 :
  (forall flags, p9_dispatch stack_desc malloc lock_addr client_addr fuel dev 0 idx 7 flags id = Done (Reply buf, dev1)) ->
  bus dev1 = bus dev -> vdev dev1 = vdev dev -> Forall (fits 8) buf -> 7 + Z.of_nat (length buf) <= desc_total ws ->
  used_ring (bus dev) (queue_at dev 0) p -> (forall x, x ∈ mjoin pss -> ~ used_area (queue_at dev 0) p x) ->
  let out := le_list 4 (Z.of_nat (length buf) + 7) ++ [u8 (id + 1)] ++ le_list 2 tag ++ buf in
  exists dev', virtio_9p_recv_request stack_desc malloc lock_addr client_addr fuel dev 0 idx (desc_total rs) (desc_total ws) = Done (0, dev') /\
    (forall (i : nat) x v, mjoin pss !! i = Some x -> out !! i = Some v -> byte_at (ram (bus dev')) x = v) /\
    vx dev' = vx dev1 /\ used_index dev' p = u16 (used_index dev p + 1) /\
    used_elem dev' p (used_index dev p mod num (queue_at dev 0)) = (u32 idx, u32 (Z.of_nat (length out))).
Proof.
  intros Hd Eb Ev Hbuf Hroom Hu Hdis out. destruct p9_header_read as (hd & Ehd & Eid & Etag).
  assert (Z.of_nat (length out) = Z.of_nat (length buf) + 7) as Hlen by (unfold out; rewrite !length_app, !length_le_list; cbn; lia).
  assert (Forall (fits 8) out) as Hbytes.
  { unfold out. repeat (apply Forall_app; split); try done; [apply le_list_fits|apply Forall_singleton; apply trunc_fits; lia|apply le_list_fits]. }
  destruct (reply_returned stack_desc U dev dev1 0 fuel idx rs ws pss p out) as (dev2 & E2 & Hmem & Ex & Hi & He); try done; [apply Hreq..|lia|].
  exists (virtio_consume_desc dev2 0 idx (Z.of_nat (length out))). split; [|done].
  unfold virtio_9p_recv_request. rewrite (pq_idle _ _ _ _ _ _ _ _ _ _ _ _ Hreq). cbn [Z.eqb negb]. cbv zeta. change (4 + 1 + 2) with 7.
  rewrite Ehd. cbn [rbind]. change (nz 0) with false. cbv iota. rewrite Eid, Hd. cbn [rbind p9_answer]. unfold virtio_9p_send_reply. cbv zeta.
  rewrite Etag. fold out. rewrite <- Hlen, E2. done.
Qed.
End Request.

(** The buffer of a read: the count, then the data. *)
Lemma counted_buffer buf n data :
  Z.of_nat (length data) = n -> n + 4 <= Z.of_nat (length buf) ->
  peek (put_le32 (poke buf 4 (take (Z.to_nat n) data)) 0 n) 0 (n + 4) = le_list 4 n ++ data.
Proof.
  intros Hn Hl. rewrite take_ge by lia. unfold put_le32, poke, peek. change (Z.to_nat 0) with 0%nat. rewrite drop_0.
  rewrite <- (take_drop 4 buf). set (b4 := take 4 buf). assert (length b4 = 4%nat) as H4 by (unfold b4; rewrite length_take; lia).
  replace (Z.to_nat 4) with (length b4 + 0)%nat by (rewrite H4; done). rewrite list_inserts_app_r, list_inserts_0_r by (by rewrite length_le_list, H4).
  rewrite take_app, length_le_list. replace (Z.to_nat (n + 4) - 4)%nat with (length data) by lia.
  rewrite (take_ge (le_list 4 n)) by (rewrite length_le_list; lia). f_equal.
  rewrite <- (take_drop (length data) (drop 4 buf)), list_inserts_0_r by (rewrite length_take, length_drop; lia). apply take_app_length.
Qed.

(** C25 A read of an open file, from the descriptors of the guest to its memory: for a
    well-formed request whose reply fits the writable buffers the device returns, with
    the length, type and tag of the reply, the count and the data of the file system in
    order in the guest's buffers, the table of fids as it was, and the request returned
    once through the used ring with the length of the reply. *)
Theorem p9_read_served U dev fuel idx tag fid offs count f n data fs' rs ws ls pss p :
  p9_request U dev fuel idx 116 tag [Fw; Fd; Fw] (fid, (offs, (count, tt))) rs ws ls pss ->
  fid_find (vx dev) fid = Some f -> fs_read (p9_fs (vx dev)) f offs count = (n, data, fs') ->
  Z.of_nat (length data) = n -> n <= count < 2 ^ 31 - 11 -> Forall (fits 8) data -> n + 11 <= desc_total ws ->
  used_ring (bus dev) (queue_at dev 0) p -> (forall x, x ∈ mjoin pss -> ~ used_area (queue_at dev 0) p x) ->
  let out := le_list 4 (n + 11) ++ [117] ++ le_list 2 tag ++ le_list 4 n ++ data in
  exists dev', virtio_9p_recv_request stack_desc malloc lock_addr client_addr fuel dev 0 idx (desc_total rs) (desc_total ws) = Done (0, dev') /\
    (forall (i : nat) x v, mjoin pss !! i = Some x -> out !! i = Some v -> byte_at (ram (bus dev')) x = v) /\
    p9_fs (vx dev') = fs' /\ fid_list (vx dev') = fid_list (vx dev) /\
    used_index dev' p = u16 (used_index dev p + 1) /\
    used_elem dev' p (used_index dev p mod num (queue_at dev 0)) = (u32 idx, u32 (n + 11)).
Proof.
  intros Hreq Hf Hr Hn Hc Hdata Hroom Hu Hdis out.
  assert (Forall (fits 8) (le_list 4 n ++ data)) as Hb by (apply Forall_app; split; [apply le_list_fits|done]).
  assert (Z.of_nat (length (le_list 4 n ++ data)) = n + 4) as Hl by (rewrite length_app, length_le_list; lia).
  destruct (p9_request_replied U dev fuel idx 116 tag _ _ rs ws ls pss Hreq p (le_list 4 n ++ data) (with_fs dev fs'))
    as (dev' & E & Hm & Ex & Hi & He); try done; [|lia|].
  - intros flags. cbn [p9_dispatch Z.eqb Pos.eqb]. unfold p9_read.
    destruct (p9_request_args U dev fuel idx 116 tag _ _ rs ws ls pss Hreq (fun '(fid, (offs, (count, _))) _ => with_file dev fid (fun f =>
      let '(n, data, fs) := fs_read (p9_fs (vx dev)) f offs (i32 count) in counted_reply malloc (with_fs dev fs) count n data))) as [o ->].
    unfold with_file. rewrite Hf. assert (i32 count = count) as -> by (apply sgn_id; lia). rewrite Hr.
    unfold counted_reply, unless_negative. destruct (Z.ltb_spec n 0); [lia|]. cbv zeta.
    rewrite (trunc_small 32) by (unfold fits; lia). pose proof (Hmalloc (count + 4) ltac:(lia)) as Hml.
    assert (in_buf (malloc (count + 4)) 4 n && (n + 11 <? 2 ^ 31) = true) as ->.
    { unfold in_buf. rewrite !andb_true_iff, !Z.leb_le, Z.ltb_lt. lia. }
    rewrite counted_buffer by lia. done.
  - exists dev'. rewrite Hl in Hm, He. replace (n + 4 + 7) with (n + 11) in Hm by lia. split; [done|]. split; [exact Hm|].
    rewrite Ex. split; [done|]. split; [done|]. split; [done|]. rewrite He. do 2 f_equal. rewrite !length_app, !length_le_list. cbn. lia.
Qed.
End Serve.
