(* ===== verification/P9Demo.v ===== *)
(** * A 9p device, concretely

    A small host and a guest that attaches to a directory and opens it: the hypotheses
    of [p9_files_owned] on actual memory; and one that reads from an open file. *)

From S2P Require Import Prelude Iomem Cpu Machine Mmu Platform Devices Virtio VirtioDev VirtioBus VirtioDemo Json P9 FsDisk P9Files DiskFiles.
From S2P Require Import Virtqueue UsedRing Scatter BlockReq P9Req.
From Stdlib Require String.
Import String.StringSyntax.

(** A host on which every path is a directory, and which says what is open. *)
Abbreviation toy := (gset (bool * Z)).

Definition toy_stat : hstat := mkHstat 0x41ed 2 0 0 1 0 4096 4096 8 (0, 0) (0, 0) (0, 0).

Definition toy_fresh (h : toy) : Z := fresh (set_map snd h : gset Z).

#[export] Instance toy_host : Host toy := fun A c h =>
  match c in sys A return (Z + A) * toy with
  | Lstat _ => (inr toy_stat, h)
  | Stat _ => (inr toy_stat, h)
  | Open _ _ _ => (inr (toy_fresh h), {[(false, toy_fresh h)]} ∪ h)
  | Opendir _ => (inr (toy_fresh h), {[(true, toy_fresh h)]} ∪ h)
  | Close fd => (inr tt, h ∖ {[(false, fd)]})
  | Closedir dirp => (inr tt, h ∖ {[(true, dirp)]})
  | Pread _ _ _ => (inr [104; 105], h)
  | _ => (inl EIO, h)
  end.

Lemma toy_fresh_new h k : (k, toy_fresh h) ∉ h.
Proof.
  intros Hin. apply (is_fresh (set_map snd h : gset Z)). apply elem_of_map. by exists (k, toy_fresh h).
Qed.

#[export] Instance toy_laws : HostLaws toy.
Proof.
  apply (Build_HostLaws toy _ id).
  - intros path flags mode h. split; [apply toy_fresh_new|done].
  - intros path h. split; [apply toy_fresh_new|done].
  - done.
  - done.
  - intros A c h Hn. by destruct c.
  - intros A c h e h'. destruct c; by intros [= <- _].
Defined.

(** A request with tag [tag]. *)
Definition p9_message (id tag : Z) (l : list fmt) (a : args l) : list Z :=
  match marshall 1024 l a with
  | Done bs => le_list 4 (7 + Z.of_nat (length bs)) ++ [id] ++ le_list 2 tag ++ bs
  | _ => []
  end.

Definition p9_attach_msg : list Z := p9_message 104 1 [Fw; Fw; Fs; Fs; Fw] (1, (0xffffffff, (str "root", (str "", (0, tt))))).
Definition p9_lopen_msg : list Z := p9_message 12 2 [Fw; Fw] (1, (P9_O_DIRECTORY, tt)).

(** Two chains of a request and a buffer for the reply. *)
Definition p9_mem : hostmem :=
  write_bytes (write_bytes (write_bytes (write_bytes ∅
    0x1001000 (le_desc 0x80004000 (Z.of_nat (length p9_attach_msg)) VRING_DESC_F_NEXT 1 ++ le_desc 0x80005000 64 VRING_DESC_F_WRITE 0 ++
               le_desc 0x80004100 (Z.of_nat (length p9_lopen_msg)) VRING_DESC_F_NEXT 3 ++ le_desc 0x80005100 64 VRING_DESC_F_WRITE 0))
    0x1002000 [0; 0; 2; 0; 0; 0; 2; 0]) 0x1004000 p9_attach_msg) 0x1004100 p9_lopen_msg.

Definition p9_bus : mmio_bus := mkBus (demo_platform <| Machine.host := p9_mem |>) 5.

Definition p9_disk : FSDeviceDisk toy := default (mkDisk ∅ [] ∅ true) (fs_disk_init toy_stat {[(false, 0); (false, 1)]} (str "/srv")).

Definition p9_dev0 : vstate mmio_bus (VIRTIO9PDevice (FSDeviceDisk toy)) :=
  match virtio_9p_init p9_bus p9_disk (str "/dev/root") with Done dev => dev | _ => mkV p9_bus (virtio_init 9 4) (mkP9 p9_disk 0 [] false) end.

Definition p9_malloc (n : Z) : list Z := replicate (Z.to_nat n) 0xcd.

Definition p9_ops : list (mmio_bus * (Z * Z * Z)) :=
  (fun w => (p9_bus, w)) <$>
    [(VIRTIO_MMIO_QUEUE_SEL, 0, 2); (VIRTIO_MMIO_QUEUE_DESC_LOW, 0x80001000, 2); (VIRTIO_MMIO_QUEUE_AVAIL_LOW, 0x80002000, 2);
     (VIRTIO_MMIO_QUEUE_USED_LOW, 0x80003000, 2); (VIRTIO_MMIO_QUEUE_READY, 1, 2); (VIRTIO_MMIO_QUEUE_NOTIFY, 0, 2)].

Definition p9_dev1 : vstate mmio_bus (VIRTIO9PDevice (FSDeviceDisk toy)) :=
  match guest_run (replicate 16 0) p9_malloc 0x7fff0000 0x555500 8 p9_dev0 p9_ops with Done dev => dev | _ => p9_dev0 end.

Lemma p9_files_owned_witness :
  freed_used (p9_fs (vx p9_dev1)) = false /\ dom (files (p9_fs (vx p9_dev1))) = list_to_set (fid_list (vx p9_dev1)).*2 /\
  (fid_list (vx p9_dev1)).*1 = [1] /\ holds (p9_fs (vx p9_dev1)) 0 (true, 2).
Proof.
  destruct (p9_files_owned (replicate 16 0) p9_malloc 0x7fff0000 0x555500 8 toy_stat {[(false, 0); (false, 1)]} (str "/srv") p9_disk
    p9_bus (str "/dev/root") p9_dev0 p9_ops p9_dev1) as (Hu & _ & _ & Hd & _).
  - vm_compute. reflexivity.
  - vm_compute. reflexivity.
  - vm_compute. reflexivity.
  - split; [exact Hu|]. split; [exact Hd|]. split; [vm_compute; reflexivity|].
    eexists. split; vm_compute; reflexivity.
Defined.

(** ** A read *)

Definition p9_read_msg : list Z := p9_message 116 7 [Fw; Fd; Fw] (1, (0, (100, tt))).
Definition p9_src : VIRTIODesc := le_desc 0x80004000 (Z.of_nat (length p9_read_msg)) VRING_DESC_F_NEXT 1.
Definition p9_dst : VIRTIODesc := le_desc 0x80005000 64 VRING_DESC_F_WRITE 0.

Definition p9_reader : vstate mmio_bus (VIRTIO9PDevice (FSDeviceDisk toy)) :=
  mkV (mkBus (demo_platform <| Machine.host := write_bytes (write_bytes ∅ 0x1001000 (p9_src ++ p9_dst)) 0x1004000 p9_read_msg |>) 5)
    ((virtio_init 9 4) <| queue ::=
         alter (fun q => q <| desc_addr := 0x80001000 |> <| avail_addr := 0x80002000 |> <| used_addr := 0x80003000 |>) 0%nat |>)
    (mkP9 (mkDisk {[(false, 3)]} (str "/srv") {[4 := mkFile 0 (str "/srv/hi") true false 3]} false) 8192 [(1, 4)] false).

Definition p9_area : Z -> Prop := fun a => 0x1005000 <= a < 0x1005040.

Lemma p9_reader_pages : page_mapped (bus p9_reader).
Proof. exact demo_page_mapped. Qed.

Ltac p9_reads p :=
  apply (reads_in_page _ _ p); [exact p9_reader_pages|vm_compute; discriminate|vm_compute; reflexivity
    |vm_compute; reflexivity|vm_compute; discriminate|vm_compute; discriminate
    |unfold p9_area; intros i [Hi0 Hi]; assert (i < 64) by (eapply Z.lt_le_trans; [exact Hi|vm_compute; discriminate]); lia].

Lemma p9_reader_chain :
  exists d, desc_at p9_area p9_reader 0 0 d /\ chain p9_area p9_reader 0 d ([p9_src] ++ [p9_dst]).
Proof.
  exists p9_src. split.
  - split; [reflexivity|]. split; [repeat constructor; vm_compute; congruence|]. p9_reads 0x1001000.
  - apply chain_next with p9_dst; [reflexivity| |by apply chain_end].
    split; [reflexivity|]. split; [repeat constructor; vm_compute; congruence|]. p9_reads 0x1001010.
Qed.

Lemma p9_reader_readable : readable p9_area p9_reader 0 2 0 [p9_src] [p9_dst] [p9_read_msg].
Proof.
  split; [exact p9_reader_chain|]. split; [cbn; lia|]. split; [repeat constructor; vm_compute; congruence|].
  split; [|reflexivity]. apply Forall2_cons_2; [|apply Forall2_nil_2]. split; [|reflexivity]. p9_reads 0x1004000.
Qed.

Lemma p9_read_args_ok : args_ok [Fw; Fd; Fw] (1, (0, (100, tt))).
Proof. cbn. unfold fits. lia. Qed.

Lemma p9_reader_request :
  p9_request p9_area p9_reader 2 0 116 7 [Fw; Fd; Fw] (1, (0, (100, tt))) [p9_src] [p9_dst] [p9_read_msg] [seqZ 0x1005000 64].
Proof.
  split.
  - exact p9_reader_pages.
  - exact p9_reader_readable.
  - split; [exact p9_reader_chain|]. split; [cbn; lia|]. split; [by repeat constructor|].
    split; [repeat constructor; vm_compute; congruence|]. split; [|reflexivity].
    apply Forall2_cons_2; [|apply Forall2_nil_2]. split; [|reflexivity].
    apply targets_in_page; [exact p9_reader_pages|vm_compute; reflexivity|vm_compute; discriminate|lia
      |vm_compute; discriminate|vm_compute; discriminate|done].
  - exists 23, (le_list 4 1 ++ le_list 8 0 ++ le_list 4 100), []. split; vm_compute; reflexivity.
  - exact p9_read_args_ok.
  - unfold fits. lia.
  - unfold fits. lia.
  - reflexivity.
  - cbn [mjoin list_join]. rewrite app_nil_r. apply NoDup_seqZ.
Qed.

Lemma p9_malloc_length n : 0 <= n -> Z.of_nat (length (p9_malloc n)) = n.
Proof. intros Hn. unfold p9_malloc. rewrite length_replicate. lia. Qed.

Lemma p9_parse_print_witness :
  unmarshall (replicate 16 0) p9_malloc 2 p9_reader 0 0 7 [Fw; Fd; Fw] = Done (Some ((1, (0, (100, tt))), 23)).
Proof.
  apply (p9_parse_print (replicate 16 0) p9_malloc eq_refl p9_malloc_length p9_area p9_reader 0 2 0 [p9_src] [p9_dst] [p9_read_msg]
    p9_reader_pages p9_reader_readable 64 [Fw; Fd; Fw] (1, (0, (100, tt))) (le_list 4 1 ++ le_list 8 0 ++ le_list 4 100) 7).
  - exact p9_read_args_ok.
  - vm_compute. reflexivity.
  - split; [lia|]. split; [vm_compute; discriminate|vm_compute; reflexivity].
Defined.

Lemma p9_read_served_witness :
  exists dev', virtio_9p_recv_request (replicate 16 0) p9_malloc 0 0 2 p9_reader 0 0 23 64 = Done (0, dev') /\
    byte_at (ram (bus dev')) 0x1005004 = 117 /\ byte_at (ram (bus dev')) 0x100500c = 105 /\ used_index dev' 0x1003000 = 1.
Proof.
  destruct (p9_read_served (replicate 16 0) p9_malloc 0 0 eq_refl p9_malloc_length p9_area p9_reader 2 0 7 1 0 100 4 2 [104; 105]
    (p9_fs (vx p9_reader)) [p9_src] [p9_dst] [p9_read_msg] [seqZ 0x1005000 64] 0x1003000 p9_reader_request) as (dev' & E & Hm & _ & _ & Hi & _).
  - reflexivity.
  - vm_compute. reflexivity.
  - reflexivity.
  - lia.
  - repeat constructor; vm_compute; congruence.
  - vm_compute. discriminate.
  - split; [exists 4; split; [lia|reflexivity]|]. split; [reflexivity|].
    apply mapped_in_page; [exact p9_reader_pages|vm_compute; discriminate|vm_compute; reflexivity
      |vm_compute; discriminate|vm_compute; discriminate].
  - intros a Ha. cbn [mjoin list_join] in Ha. rewrite app_nil_r in Ha. apply elem_of_seqZ in Ha.
    unfold used_area. change (num (queue_at p9_reader 0)) with 16. lia.
  - exists dev'. split; [exact E|]. split; [apply (Hm 4%nat); vm_compute; reflexivity|].
    split; [apply (Hm 12%nat); vm_compute; reflexivity|]. rewrite Hi. vm_compute. reflexivity.
Defined.
